(* ===== verification/_CoqProject ===== *)
-Q . S2P
Prelude.v
Pmm.v
Vmm.v
Heap.v
Space.v
Kobj.v
Sched.v
RingBuf.v
Ipc.v
Path.v
Proc.v
Bytes.v
Fat32.v
Net.v
Routing.v
Link.v
Checksum.v
Inet.v
Udp.v
Tcp.v
Socket.v
Connection.v
Disasm.v
Ports.v
Moves.v
Aml.v
AmlScan.v
AmlEval.v
AmlAsm.v
Acpi.v
Battery.v
Pci.v
Ata.v
Ide.v
UserSpace.v
File.v
Elf.v
Clock.v
Entry.v
Irq.v
Format.v
Input.v
Font.v
Gfx.v
Picture.v
Windows.v
Compositor.v
E1000.v
