(* ===== verification/Prelude.v ===== *)
(** * XOS: a verification development for the xos operating system

    xos is an operating system for x86-64 PCs written in C and assembler: a
    kernel ([src/kernel]) with memory management, processes and threads,
    inter-process communication, drivers, a FAT32 file system and a TCP/IP
    stack, and user programs ([src/user]), among them a window compositor.  The
    library translates the program function by function into Rocq definitions
    and proves what the parts promise, each alone and put together.

    ** How the code is translated

    A C function is a definition in the monad [M S A] of this file: it takes the
    state [S] of its component (a record of the static variables and the memory
    it owns) and ends in [Ok] (a result and a new state), [Panic] (the kernel
    stops itself), [Fault] (an access outside an object, a null or dangling
    pointer, a division by zero) or [NoFuel] (a loop was cut).  Machine integers
    are [Z] with [u8] to [u64] and [i32] written where C wraps.  Pointers to
    structs are addresses or indices into stores.  A blocking call is split at
    [schedule()].  Devices are instances of the class [Ports.Ports]: drivers are
    written against the class and proved against a model of the device that
    states its documented behaviour.  [wp] is the weakest precondition of an
    operation; [never] excludes [Panic], and [Fault] and [NoFuel] always fail a
    [wp], so that a theorem stated with it says that the code returns.

    ** The parts, and the files that model them

    Memory.  [Pmm]: [kernel/memory/pmm.c], one bit per frame.  [Vmm]:
    [vmm.c], four-level page tables in the frames of [Pmm].  [Heap]: [heap.c],
    the first-fit heap; it obtains pages through the class [PageBacking], which
    [Vmm] implements.  [Space]: address-space creation, with the heap on top of
    the page tables.  [UserSpace]: user pages next to the kernel's.

    Processes.  [Kobj]: the structs of [task.h], [process.h], [handle.h],
    [pipe.h], [channel.h] as stores of records; allocation is the class [Alloc].
    [Sched]: [scheduler.c], the ring of tasks, the sleep queue and
    [context_switch.asm].  [RingBuf]: [utils/ring_buf.h].  [Ipc]: [pipe.c],
    [handle.c], [channel.c].  [Path]: [utils/string.h], [utils/path.h].  [Proc]:
    [process_manager.c] and the killing of tasks; files and program loading are
    the class [Loader].  [Elf]: [elf.c], with the file layer, the heap, the page
    tables and the frames together.

    Entering the kernel.  [Entry]: [isr.asm], [syscall_asm.asm],
    [gdt_flush.asm], [gdt.c], [idt.c] as instruction lists and descriptor words.
    [Irq]: [pic.c], [interrupt_dispatch] and the timer handler, on [Sched].
    [Clock]: [rtc.c], [time.c], [timer.c] and [user/lib/time.h].

    Drivers.  [Ports]: [io.c].  [Pci]: [pci.c].  [Ata]: [ata.c].  [Ide]: [ide.c].
    [E1000]: [e1000.c], with the card running between any two statements.
    [Input]: [keyboard.c], [mouse.c] and the input system calls.  [Format]:
    [formatting.c], [serial.c] and [user/lib/stdio.c].

    Files.  [Bytes]: integers in byte buffers.  [Fat32]: [fat32.c].  [File]:
    [file.c] and [filesystem.c], on [Fat32] and [Ata].

    Network.  [Net]: data and tables.  [Routing]: [routing.c], [networking.c].
    [Link]: [arp.c], [ethernet.c], [drivers].  [Checksum]: the checksum loops.
    [Inet]: [ip.c], [icmp.c].  [Udp]: [udp.c].  [Tcp]: [tcp.c].  [Socket]:
    [socket.c], [dns.c] and the receive path.  [Connection]: two machines whose
    frames are handed to each other.

    ACPI and debugging.  [Moves]: monotone walks over a byte stream, used by
    [Aml], [AmlScan], [AmlEval], [AmlAsm] ([acpi/aml.c]).  [Acpi]: [acpi.c], [ec.c],
    [battery.c].  [Battery]: from the table to the reported status.  [Disasm]:
    [debug/disasm.c].

    The desktop.  [Font]: the two glyph tables.  [Gfx]: [user/lib/gfx.h] and
    [shared/rect.h].  [Picture]: sequences of drawing calls.  [Windows]: the
    windows of [user/apps/dafne/compositor.c] and their input.  [Compositor]: the
    redraw of the screen.

    ** What the theorems show

    Memory: the frame allocator hands out free frames only, from the map the
    firmware gives; mapping changes the translation of exactly the pages mapped;
    [vmm_init] builds the documented layout; [kmalloc] and [kfree] refine an
    allocator of disjoint blocks; an address space shares the kernel half.
    Programs: a file loaded from FAT32 is at its addresses and nothing else is.
    Scheduling: the ring is kept, [schedule] picks the next ready task, is fair
    and terminates, a context switch restores what it saves, an interrupt or
    system call is transparent to the program, the timer wakes whom it should.
    Communication: pipes are bounded queues, channels deliver in order, killing
    a process closes its channels.  Drivers: sectors written are read back, a
    boot file is read from a partitioned disk, keys, mouse movements and frames
    arrive in order, formatted output is what the format stands for, the clock
    shows the time.  Network: the checksum is that of RFC 1071, datagrams and TCP
    data arrive at the other machine.  ACPI: scanning and evaluating any bytes
    terminates inside the table, and assembled methods evaluate to their meaning.
    Desktop: a sequence of drawing calls paints exactly its picture inside the
    clip rectangle, the list of windows is kept, the mouse moves windows, and a
    redraw shows the desktop, the windows and the pointer.  Where the code
    departs from this, the theorem states what it does.

    ** Bounds and fuel

    A loop whose length the data gives is a recursion over it; [for_range] is a
    counted loop.  The others take fuel, and the theorems prove it enough.
    [Checksum.CARRY_ROUNDS] = 2: two folds of a 32-bit sum leave no carry.
    [Disasm.PFX_FUEL] = 64: the prefix scan, which the code does not bound.
    AML: the length of the bytes plus one, as each step moves on.  [EC_POLLS],
    [ATA_POLLS], [PS2_POLLS] = 100000 and the reset timeout of the network card =
    1000 are the limits the code has.  The waits without a limit ([ide.c],
    [rtc.c], [e1000_send]) take a bound above the time the device needs.
    Cluster chains: a bound above the chain of a well-formed volume.  Walks over
    tasks: the number of tasks; over windows: [WINDOW_MAX_COUNT], the size of
    their pool.  Dates: one round per year since 1970.  Digits of a number: 64.
    Square roots: 64 halvings.  Lines: the longer of the two differences.  The
    heap window is 512 GiB, one entry of the root table.

    ** Not modelled

    [kernel/io/xhci.c], [kernel/io/usb]: the USB controller and its devices; most
    of the code is the layout of the controller's data structures, whose
    behaviour is defined by the device, and the mass-storage functions enter
    [File] as arguments.  The dispatch of [kernel/cpu/syscall.c] other than the
    input calls: each case calls a function modelled here with the arguments of
    the caller.  [exceptions.c], [panic.c], [graphics/console.c],
    [graphics/gfx.c], [graphics/image.c], [logging.c], [perf]: output for a
    person, and counters; [exceptions.c] uses the disassembler, which is
    modelled.  [kernel.c], [bootstrap.c], [entry.asm], [boot.asm] and the UEFI boot
    loader: start-up sequences of calls, firmware services and processor control
    registers.  [vfs.c] and [http.c]: [vfs.c] calls a function that is nowhere
    defined, [http.c] is a stub.  In [scheduler.c] the first entry of a task, idle
    and [scheduler_run], which jump to code that is data to the kernel.  Of the
    compositor: client messages (shared memory and channels between address
    spaces), the drawing of the background and the bars.  The user programs, the
    user-interface toolkit and the system-call wrappers of [user/lib].
    [stb_truetype.h] is third-party code.  Scripts and the build.  The TLB, caches
    and interrupt masking ([cli], [sti]) are not part of any state, and serial,
    console and log output is left out except where it is the subject. *)
From Stdlib Require Export ZArith Lia.
From stdpp Require Export prelude list list_numbers gmap strings.

Open Scope Z_scope.

(** ** Machine words

    The kernel's [ubyte], [ushort], [uint] and [ulong] are kept as [Z] with the
    wrap-around written out at each operation that can overflow. *)

Definition u8 (z : Z) : Z := z mod 2 ^ 8.
Definition u16 (z : Z) : Z := z mod 2 ^ 16.
Definition u32 (z : Z) : Z := z mod 2 ^ 32.
Definition u64 (z : Z) : Z := z mod 2 ^ 64.

(** Conversion to the signed 32-bit [int]. *)
Definition i32 (z : Z) : Z :=
  let w := u32 z in if w <? 2 ^ 31 then w else w - 2 ^ 32.

(** The C truth value of an integer. *)
Definition truthy (z : Z) : bool := negb (z =? 0).

(** ** Outcomes and the kernel monad

    A kernel function may return, call [panic], touch memory outside the
    object it works on, or (for a loop run with a bound) still be running. *)

Inductive outcome (A : Type) : Type :=
| Ok (a : A)
| Panic (msg : string)
| Fault
| NoFuel.
Arguments Ok {A} _.
Arguments Panic {A} _.
Arguments Fault {A}.
Arguments NoFuel {A}.

Definition M (S A : Type) : Type := S → outcome (A * S).

#[export] Instance M_ret (S : Type) : MRet (M S) := λ A a s, Ok (a, s).
#[export] Instance M_bind (S : Type) : MBind (M S) := λ A B f m s,
  match m s with
  | Ok (a, s') => f a s'
  | Panic e => Panic e
  | Fault => Fault
  | NoFuel => NoFuel
  end.

Definition get {S : Type} : M S S := λ s, Ok (s, s).
Definition gets {S A : Type} (f : S → A) : M S A := λ s, Ok (f s, s).
Definition put {S : Type} (s : S) : M S unit := λ _, Ok (tt, s).
Definition modify {S : Type} (f : S → S) : M S unit := λ s, Ok (tt, f s).
Definition panic {S A : Type} (msg : string) : M S A := λ _, Panic msg.
Definition fault {S A : Type} : M S A := λ _, Fault.
Definition no_fuel {S A : Type} : M S A := λ _, NoFuel.
Definition of_option {S A : Type} (o : option A) : M S A :=
  match o with Some a => mret a | None => fault end.
Definition when {S : Type} (b : bool) (m : M S unit) : M S unit :=
  if b then m else mret tt.

(** Run an operation of a component inside a larger state. *)
Definition zoom {S T A : Type} (g : S → T) (p : T → S → S) (m : M T A) : M S A :=
  λ s, match m (g s) with
       | Ok (a, t) => Ok (a, p t s)
       | Panic e => Panic e
       | Fault => Fault
       | NoFuel => NoFuel
       end.

(** [for (i = lo; i < lo + n; i++) body(i);] *)
Fixpoint for_range {S : Type} (n : nat) (lo : Z) (body : Z → M S unit) : M S unit :=
  match n with
  | O => mret tt
  | Datatypes.S n' => body lo ;; for_range n' (lo + 1) body
  end.

(** ** Total-correctness triples

    [wp m Q E s]: from [s], [m] returns a result satisfying [Q] or panics with
    a message satisfying [E]; it neither faults nor runs out of its bound. *)

Definition wp {S A : Type} (m : M S A) (Q : A → S → Prop) (E : string → Prop) (s : S) : Prop :=
  match m s with
  | Ok (a, s') => Q a s'
  | Panic e => E e
  | Fault | NoFuel => False
  end.

Definition never (e : string) : Prop := False.

Section wp_rules.
Context {S : Type}.

Lemma wp_ret {A} (a : A) Q E (s : S) : Q a s → wp (mret a) Q E s.
Proof. done. Qed.

Lemma wp_bind {A B} (m : M S A) (f : A → M S B) Q E s :
  wp m (λ a, wp (f a) Q E) E s → wp (m ≫= f) Q E s.
Proof. unfold wp, mbind, M_bind. destruct (m s) as [[a s']|e| |]; done. Qed.

Lemma wp_unbind {A B} (m : M S A) (f : A → M S B) Q E s :
  wp (m ≫= f) Q E s → wp m (λ a, wp (f a) Q E) E s.
Proof. unfold wp, mbind, M_bind. destruct (m s) as [[a s']|e| |]; done. Qed.

Lemma wp_mono {A} (m : M S A) (Q Q' : A → S → Prop) (E E' : string → Prop) s :
  wp m Q E s → (∀ a s', Q a s' → Q' a s') → (∀ e, E e → E' e) → wp m Q' E' s.
Proof. unfold wp. intros H HQ HE. destruct (m s) as [[a s']|e| |]; auto. Qed.

Lemma wp_ok {A} (m : M S A) Q E s a s' : m s = Ok (a, s') → Q a s' → wp m Q E s.
Proof. unfold wp. by intros ->. Qed.

(** Reading a triple at a known execution. *)
Lemma wp_use {A} (m : M S A) Q E s a s' : wp m Q E s → m s = Ok (a, s') → Q a s'.
Proof. unfold wp. intros H Hm. by rewrite Hm in H. Qed.

Lemma wp_run {A} (m : M S A) Q s :
  wp m Q never s → ∃ a s', m s = Ok (a, s') ∧ Q a s'.
Proof. unfold wp, never. destruct (m s) as [[a s']|e| |]; [by eauto|done..]. Qed.

Lemma bind_ok {A B} (m : M S A) (f : A → M S B) s b s' :
  (m ≫= f) s = Ok (b, s') ↔ ∃ a s1, m s = Ok (a, s1) ∧ f a s1 = Ok (b, s').
Proof.
  unfold mbind, M_bind. destruct (m s) as [[a s1]|e| |]; split.
  2: by intros (? & ? & [= <- <-] & ?).
  1: by eauto.
  all: by (intros (? & ? & ? & ?) || done).
Qed.

Lemma bind_of_ok {A B} (m : M S A) (f : A → M S B) s a s1 :
  m s = Ok (a, s1) → (m ≫= f) s = f a s1.
Proof. unfold mbind, M_bind. by intros ->. Qed.

Lemma wp_zoom {T A} (g : S → T) (p : T → S → S) (m : M T A) Q E s :
  wp m (λ a t, Q a (p t s)) E (g s) → wp (zoom g p m) Q E s.
Proof. unfold wp, zoom. destruct (m (g s)) as [[a t]|e| |]; done. Qed.

Lemma for_range_inv (I : Z → S → Prop) E (body : Z → M S unit) n lo s :
  I lo s →
  (∀ i t, lo ≤ i < lo + Z.of_nat n → I i t → wp (body i) (λ _, I (i + 1)) E t) →
  wp (for_range n lo body) (λ _, I (lo + Z.of_nat n)) E s.
Proof.
  revert lo s. induction n as [|n IH]; intros lo s HI Hb; simpl.
  - apply wp_ret. by rewrite Z.add_0_r.
  - apply wp_bind. eapply wp_mono; [apply Hb; [lia|done]| |done].
    intros [] t Ht. replace (lo + Z.of_nat (Datatypes.S n)) with (lo + 1 + Z.of_nat n) by lia.
    apply IH; [done|]. intros i u Hi. apply Hb. lia.
Qed.
End wp_rules.

(** ** Automation *)

Create HintDb xos.

Lemma u8_small z : 0 ≤ z < 2 ^ 8 → u8 z = z.
Proof. apply Z.mod_small. Qed.
Lemma u16_small z : 0 ≤ z < 2 ^ 16 → u16 z = z.
Proof. apply Z.mod_small. Qed.
Lemma u32_small z : 0 ≤ z < 2 ^ 32 → u32 z = z.
Proof. apply Z.mod_small. Qed.
Lemma i32_id z : - 2 ^ 31 ≤ z < 2 ^ 31 → i32 z = z.
Proof.
  intros H. unfold i32, u32. destruct (Z.ltb_spec z 0).
  - replace (z mod 2 ^ 32) with (z + 2 ^ 32) by (rewrite <- (Z.mod_add z 1), Z.mod_small by lia; lia). destruct (Z.ltb_spec (z + 2 ^ 32) (2 ^ 31)); lia.
  - rewrite Z.mod_small by lia. destruct (Z.ltb_spec z (2 ^ 31)); lia.
Qed.
Lemma u64_small z : 0 ≤ z < 2 ^ 64 → u64 z = z.
Proof. apply Z.mod_small. Qed.

Lemma u8_range z : 0 ≤ u8 z < 2 ^ 8.
Proof. apply Z.mod_pos_bound; lia. Qed.
Lemma u16_range z : 0 ≤ u16 z < 2 ^ 16.
Proof. apply Z.mod_pos_bound; lia. Qed.
Lemma u32_range z : 0 ≤ u32 z < 2 ^ 32.
Proof. apply Z.mod_pos_bound; lia. Qed.
Lemma u64_range z : 0 ≤ u64 z < 2 ^ 64.
Proof. apply Z.mod_pos_bound; lia. Qed.

Lemma i32_small z : 0 ≤ z < 2 ^ 31 → i32 z = z.
Proof.
  intros H. unfold i32. rewrite u32_small by lia.
  destruct (Z.ltb_spec z (2 ^ 31)); lia.
Qed.

#[export] Hint Resolve u8_range u16_range u32_range u64_range : xos.

(** Drop the wrap-around of [uint] sums that do not overflow, innermost first. *)
Ltac unwrap32 :=
  repeat match goal with
         | |- context [u32 ?x] => lazymatch x with context [u32 _] => fail | _ => rewrite (u32_small x) by lia end
         end.

(** Linear arithmetic with division and remainder. *)
Ltac dlia := Z.to_euclidean_division_equations; lia.

(** Executions whose final state is too large to write out: the state is named, not normalised. *)
Definition is_ok {A} (o : outcome A) : bool := match o with Ok _ => true | _ => false end.
Definition final {S A} (m : M S A) (s : S) : S := match m s with Ok (_, s') => s' | _ => s end.

Definition result {S A} (m : M S A) (s : S) : option A := match m s with Ok (a, _) => Some a | _ => None end.

Lemma final_result {S A} (m : M S A) s a : result m s = Some a → m s = Ok (a, final m s).
Proof. unfold final, result. destruct (m s) as [[a' s']| | |]; by intros [= ->]. Qed.

Lemma final_ok {S} (m : M S unit) s : is_ok (m s) = true → m s = Ok (tt, final m s).
Proof. unfold final. by destruct (m s) as [[[] s']| | |]. Qed.

(** One symbolic-execution step of a [wp] goal. *)
Ltac wp_step :=
  lazymatch goal with
  | |- wp (mbind _ _) _ _ _ => apply wp_bind
  | |- wp (mret _) _ _ _ => apply wp_ret
  | |- wp (gets _) _ _ _ => eapply wp_ok; [reflexivity|]
  | |- wp get _ _ _ => eapply wp_ok; [reflexivity|]
  | |- wp (put _) _ _ _ => eapply wp_ok; [reflexivity|]
  | |- wp (modify _) _ _ _ => eapply wp_ok; [reflexivity|]
  end.
(** Read the triple [H] at the execution the kernel computes. *)
Ltac run_at H as_name :=
  pose proof H as as_name; eapply wp_use in as_name; [|vm_compute; reflexivity]; cbv beta in as_name.

Ltac wp_steps := repeat (wp_step; cbv beta).

(** ** Bits and counting *)

(** [count_upto f n] is the number of [i] in [0, n) with [f i]. *)
Fixpoint count_upto (f : Z → bool) (n : nat) : Z :=
  match n with
  | O => 0
  | S n' => count_upto f n' + Z.b2z (f (Z.of_nat n'))
  end.

Lemma count_upto_range f n : 0 ≤ count_upto f n ≤ Z.of_nat n.
Proof. induction n as [|n IH]; simpl; [lia|]. destruct (f _); simpl; lia. Qed.

Lemma count_upto_ext f g n :
  (∀ i, 0 ≤ i < Z.of_nat n → f i = g i) → count_upto f n = count_upto g n.
Proof.
  induction n as [|n IH]; intros H; simpl; [done|].
  rewrite IH by (intros; apply H; lia). by rewrite H by lia.
Qed.

Lemma count_upto_flip f g n k :
  0 ≤ k < Z.of_nat n → f k = false → g k = true →
  (∀ i, 0 ≤ i < Z.of_nat n → i ≠ k → g i = f i) →
  count_upto g n = count_upto f n + 1.
Proof.
  induction n as [|n IH]; intros Hk Hf Hg He; simpl; [lia|].
  destruct (decide (k = Z.of_nat n)) as [->|Hne].
  - rewrite Hf, Hg. rewrite (count_upto_ext g f n) by (intros; apply He; lia).
    simpl; lia.
  - rewrite (He (Z.of_nat n)) by lia.
    rewrite IH; [lia|lia|done|done|]. intros; apply He; lia.
Qed.

Lemma count_upto_all f n : (∀ i, 0 ≤ i < Z.of_nat n → f i = true) → count_upto f n = Z.of_nat n.
Proof.
  induction n as [|n IH]; intros H; simpl; [done|].
  rewrite IH by (intros; apply H; lia). rewrite H by lia. simpl; lia.
Qed.

Lemma count_upto_mono f g n :
  (∀ i, 0 ≤ i < Z.of_nat n → f i = true → g i = true) → count_upto f n ≤ count_upto g n.
Proof.
  induction n as [|n IH]; intros H; simpl; [done|].
  specialize (IH ltac:(intros; apply H; (lia || done))). specialize (H (Z.of_nat n) ltac:(lia)).
  destruct (f _), (g _); simpl; try lia.
Qed.

Lemma testbit_pow2 n i : 0 ≤ n → 0 ≤ i → Z.testbit (Z.shiftl 1 n) i = (i =? n).
Proof.
  intros Hn Hi. rewrite Z.shiftl_1_l, Z.pow2_bits_eqb by done. apply Z.eqb_sym.
Qed.

Lemma testbit_mod_pow2 a n i : 0 ≤ n → 0 ≤ i → Z.testbit (a mod 2 ^ n) i = (i <? n) && Z.testbit a i.
Proof.
  intros Hn Hi. destruct (Z.ltb_spec i n); simpl.
  - by rewrite Z.mod_pow2_bits_low by lia.
  - by rewrite Z.mod_pow2_bits_high by lia.
Qed.

Lemma land_1_testbit a n : 0 ≤ n → Z.land (Z.shiftr a n) 1 = Z.b2z (Z.testbit a n).
Proof.
  intros Hn. change 1 with (Z.ones 1). rewrite Z.land_ones by lia.
  rewrite <- Z.bit0_mod, Z.shiftr_spec by lia. f_equal.
Qed.

(** Disjoint bit fields add up. *)
Lemma lor_add a b k : 0 ≤ k → 0 ≤ a < 2 ^ k → Z.lor a (Z.shiftl b k) = a + b * 2 ^ k.
Proof.
  intros Hk Ha. rewrite <- Z.shiftl_mul_pow2 by done.
  assert (Z.land a (Z.shiftl b k) = 0) as H0.
  { apply Z.bits_inj'. intros n Hn. rewrite Z.land_spec, Z.bits_0, Z.shiftl_spec by done.
    destruct (decide (n < k)) as [H|H].
    - rewrite (Z.testbit_neg_r b) by lia. apply andb_false_r.
    - destruct (decide (a = 0)) as [->|]; [by rewrite Z.bits_0|].
      rewrite (Z.bits_above_log2 a); [done|lia|]. apply Z.log2_lt_pow2; [lia|]. eapply Z.lt_le_trans; [apply Ha|]. apply Z.pow_le_mono_r; lia. }
  rewrite <- (Z.lxor_lor _ _ H0). symmetry. by apply Z.add_nocarry_lxor.
Qed.

(** ** Lists *)

Lemma lookup_mid {A} (l1 : list A) x l2 : (l1 ++ x :: l2) !! length l1 = Some x.
Proof. rewrite lookup_app_r by lia. by rewrite Nat.sub_diag. Qed.

Lemma insert_mid {A} (l1 : list A) x y l2 : <[length l1 := y]> (l1 ++ x :: l2) = l1 ++ y :: l2.
Proof. rewrite insert_app_r_alt by lia. by rewrite Nat.sub_diag. Qed.
