(* ===== verification/Pmm.v ===== *)
(** * Physical memory manager ([kernel/memory/pmm.c])

    One bit per 4 KiB frame, set when the frame is in use.  The state is the
    static [g_pmm] with the bytes of the bitmap it points to; an access outside
    those bytes is a [Fault].  Console and serial output is not modelled. *)
From S2P Require Import Prelude.

Module Pmm.

(** ** Data *)

Record EfiMemoryDescriptor := mkDesc {
  Type_ : Z;
  PhysicalStart : Z;
  VirtualStart : Z;
  NumberOfPages : Z;
  Attribute : Z
}.

Record pmm_state_t := mkPmm {
  total_memory : Z;
  usable_memory : Z;
  reserved_memory : Z;
  used_memory : Z;
  page_count : Z;
  bitmap : Z;
  bitmap_size : Z;
  last_index : Z;
  max_address : Z;
  bits : list Z
}.

(** Static storage is zero before [pmm_init]. *)
Definition pmm_zero : pmm_state_t := mkPmm 0 0 0 0 0 0 0 0 0 [].

Definition set_used_memory (v : Z) (s : pmm_state_t) : pmm_state_t :=
  mkPmm (total_memory s) (usable_memory s) (reserved_memory s) v (page_count s)
        (bitmap s) (bitmap_size s) (last_index s) (max_address s) (bits s).
Definition set_last_index (v : Z) (s : pmm_state_t) : pmm_state_t :=
  mkPmm (total_memory s) (usable_memory s) (reserved_memory s) (used_memory s) (page_count s)
        (bitmap s) (bitmap_size s) v (max_address s) (bits s).
Definition set_bits (v : list Z) (s : pmm_state_t) : pmm_state_t :=
  mkPmm (total_memory s) (usable_memory s) (reserved_memory s) (used_memory s) (page_count s)
        (bitmap s) (bitmap_size s) (last_index s) (max_address s) v.
Definition set_bitmap (v : Z) (s : pmm_state_t) : pmm_state_t :=
  mkPmm (total_memory s) (usable_memory s) (reserved_memory s) (used_memory s) (page_count s)
        v (bitmap_size s) (last_index s) (max_address s) (bits s).
Definition set_max_address (v : Z) (s : pmm_state_t) : pmm_state_t :=
  mkPmm (total_memory s) (usable_memory s) (reserved_memory s) (used_memory s) (page_count s)
        (bitmap s) (bitmap_size s) (last_index s) v (bits s).
Definition set_total_memory (v : Z) (s : pmm_state_t) : pmm_state_t :=
  mkPmm v (usable_memory s) (reserved_memory s) (used_memory s) (page_count s)
        (bitmap s) (bitmap_size s) (last_index s) (max_address s) (bits s).

(** ** Operations *)

Definition addr_to_page (addr : Z) : Z := Z.shiftr addr 12.
Definition page_to_addr (page : Z) : Z := u64 (Z.shiftl page 12).

(** [bitmap[i]] as an rvalue and as an lvalue. *)
Definition byte_read (i : Z) : M pmm_state_t Z :=
  λ s, match bits s !! Z.to_nat i with Some b => Ok (b, s) | None => Fault end.
Definition byte_write (i v : Z) : M pmm_state_t unit :=
  λ s, match bits s !! Z.to_nat i with
       | Some _ => Ok (tt, set_bits (<[Z.to_nat i := v]> (bits s)) s)
       | None => Fault
       end.

Definition bitmap_set (bit : Z) : M pmm_state_t unit :=
  b ← byte_read (bit / 8);
  byte_write (bit / 8) (u8 (Z.lor b (Z.shiftl 1 (bit mod 8)))).

Definition bitmap_clear (bit : Z) : M pmm_state_t unit :=
  b ← byte_read (bit / 8);
  byte_write (bit / 8) (u8 (Z.land b (Z.lnot (Z.shiftl 1 (bit mod 8))))).

Definition bitmap_test (bit : Z) : M pmm_state_t Z :=
  b ← byte_read (bit / 8);
  mret (Z.land (Z.shiftr b (bit mod 8)) 1).

Definition add_used (d : Z) : M pmm_state_t unit :=
  modify (λ s, set_used_memory (u64 (used_memory s + d)) s).

Definition pmm_reserve_page (addr : Z) : M pmm_state_t unit :=
  let page := addr_to_page addr in
  t ← bitmap_test page;
  when (negb (truthy t)) (bitmap_set page ;; add_used 4096).

Definition pmm_unreserve_page (addr : Z) : M pmm_state_t unit :=
  let page := addr_to_page addr in
  t ← bitmap_test page;
  when (truthy t) (bitmap_clear page ;; add_used (-4096)).

(** [~0xFFFULL] *)
Definition page_mask : Z := 2 ^ 64 - 4096.

(** [size] is an [int], converted to [ulong] in the sum. *)
Definition pmm_reserve_region (addr size : Z) : M pmm_state_t unit :=
  let start := Z.land addr page_mask in
  let end_ := Z.land (u64 (addr + i32 size + 4095)) page_mask in
  let pages := u64 (end_ - start) / 4096 in
  for_range (Z.to_nat pages) 0 (λ i, pmm_reserve_page (u64 (start + i * 4096))).

(** The first pass of [pmm_init]: the highest frame of any usable region. *)
Fixpoint init_max_page (descs : list EfiMemoryDescriptor) (max_page : Z) : Z :=
  match descs with
  | [] => max_page
  | d :: rest =>
      let max_page :=
        if (Type_ d =? 7) && (0 <? NumberOfPages d) then
          let last := addr_to_page (u64 (PhysicalStart d + (NumberOfPages d - 1) * 4096)) in
          if max_page <? last then last else max_page
        else max_page in
      init_max_page rest max_page
  end.

(** The search for a usable region that can hold the bitmap. *)
Fixpoint init_find_bitmap (descs : list EfiMemoryDescriptor) (size : Z) : option Z :=
  match descs with
  | [] => None
  | d :: rest =>
      if (Type_ d =? 7) && negb (PhysicalStart d =? 0)
         && (size <=? u64 (NumberOfPages d * 4096))
      then Some (PhysicalStart d)
      else init_find_bitmap rest size
  end.

(** The loop body that releases one frame of a usable region. *)
Definition init_release_page (d : EfiMemoryDescriptor) (i : Z) : M pmm_state_t unit :=
  let addr := u64 (PhysicalStart d + i * 4096) in
  pmm_unreserve_page addr ;;
  modify (set_max_address addr) ;;
  modify (λ s, set_total_memory (u64 (total_memory s + 4096)) s).

Fixpoint init_release (descs : list EfiMemoryDescriptor) : M pmm_state_t unit :=
  match descs with
  | [] => mret tt
  | d :: rest =>
      when (Type_ d =? 7) (for_range (Z.to_nat (NumberOfPages d)) 0 (init_release_page d)) ;;
      init_release rest
  end.

(** [kernel_start] and [kernel_end] are the linker symbols
    [__kernel_phys_start] and [__kernel_phys_end]; [descs] are the descriptors
    of the UEFI memory map in order. *)
Definition pmm_init (kernel_start kernel_end : Z) (descs : list EfiMemoryDescriptor)
    : M pmm_state_t unit :=
  let max_page := init_max_page descs 0 in
  let pages := u64 (max_page + 1) in
  modify (λ s, mkPmm (total_memory s) (usable_memory s) (reserved_memory s)
                     (u64 (pages * 4096)) pages 0 (u64 (pages + 7) / 8) 0 0 (bits s)) ;;
  s ← get;
  match init_find_bitmap descs (bitmap_size s) with
  | None => panic "PMM: failed to find space for bitmap"
  | Some start =>
      modify (set_bitmap start) ;;
      modify (set_bits (replicate (Z.to_nat (bitmap_size s)) 255)) ;;
      init_release descs ;;
      pmm_reserve_page 0 ;;
      pmm_reserve_region start (bitmap_size s) ;;
      pmm_reserve_region kernel_start (u64 (kernel_end - kernel_start))
  end.

Definition pmm_remap_bitmap (hhdm_base : Z) : M pmm_state_t unit :=
  modify (λ s, set_bitmap (u64 (bitmap s + hhdm_base)) s).

(** The body shared by the two loops of [pmm_alloc_page], over [i, i + n). *)
Fixpoint alloc_page_loop (n : nat) (i : Z) : M pmm_state_t (option Z) :=
  match n with
  | O => mret None
  | S n' =>
      t ← bitmap_test i;
      if truthy t then alloc_page_loop n' (i + 1)
      else
        bitmap_set i ;;
        add_used 4096 ;;
        modify (set_last_index (i + 1)) ;;
        mret (Some (page_to_addr i))
  end.

Definition pmm_alloc_page : M pmm_state_t Z :=
  s ← get;
  r ← alloc_page_loop (Z.to_nat (page_count s - last_index s)) (last_index s);
  match r with
  | Some a => mret a
  | None =>
      s ← get;
      r ← alloc_page_loop (Z.to_nat (last_index s)) 0;
      match r with
      | Some a => mret a
      | None => panic "Out of memory!"
      end
  end.

Definition pmm_free_page (addr : Z) : M pmm_state_t unit :=
  let page := addr_to_page addr in
  s ← get;
  if negb (Z.land addr 4095 =? 0) then panic "PMM free unaligned address"
  else if page_count s <=? page then panic "PMM free out of range"
  else
    t ← bitmap_test page;
    if negb (truthy t) then panic "PMM double free or freeing free page"
    else
      bitmap_clear page ;;
      add_used (-4096) ;;
      s ← get;
      when (page <? last_index s) (modify (set_last_index page)).

(** The body shared by the two loops of [pmm_alloc_pages]: [cc] is
    [current_count] and [fp] is [first_page]. *)
Fixpoint alloc_pages_loop (n : nat) (i count cc fp : Z) : M pmm_state_t (option Z * Z) :=
  match n with
  | O => mret (None, fp)
  | S n' =>
      t ← bitmap_test i;
      if truthy t then alloc_pages_loop n' (i + 1) count 0 fp
      else
        let fp := if cc =? 0 then i else fp in
        let cc := u32 (cc + 1) in
        if cc =? count then
          for_range (Z.to_nat count) 0 (λ k, bitmap_set (fp + k)) ;;
          add_used (u32 (count * 4096)) ;;
          modify (set_last_index (fp + count)) ;;
          mret (Some (page_to_addr fp), fp)
        else alloc_pages_loop n' (i + 1) count cc fp
  end.

(** [count] is a [uint]: callers that pass a [ulong] have it truncated. *)
Definition pmm_alloc_pages (count_arg : Z) : M pmm_state_t Z :=
  let count := u32 count_arg in
  s ← get;
  '(r, fp) ← alloc_pages_loop (Z.to_nat (page_count s - last_index s)) (last_index s) count 0 0;
  match r with
  | Some a => mret a
  | None =>
      s ← get;
      '(r, _) ← alloc_pages_loop (Z.to_nat (last_index s)) 0 count 0 fp;
      match r with
      | Some a => mret a
      | None => panic "Out of memory!"
      end
  end.

Definition pmm_free_pages (addr count : Z) : M pmm_state_t unit :=
  panic "pmm_free_pages not implemented!".

Definition pmm_get_max_address : M pmm_state_t Z := gets max_address.

Record mem_info := mkMemInfo { total : Z; used_ : Z; free_ : Z }.

Definition pmm_get_stats : M pmm_state_t mem_info :=
  gets (λ s, let total := u64 (page_count s * 4096) in
             mkMemInfo total (used_memory s) (u64 (total - used_memory s))).

(** Small executions of the model. *)
Example alloc_page_demo :
  pmm_alloc_page (mkPmm 0 0 0 (4096 * 5) 10 0 2 3 0 [31; 0]) =
  Ok (5 * 4096, mkPmm 0 0 0 (4096 * 6) 10 0 2 6 0 [63; 0]).
Proof. vm_compute. reflexivity. Qed.

Example alloc_pages_demo :
  pmm_alloc_pages 3 (mkPmm 0 0 0 (4096 * 2) 10 0 2 1 0 [0x0A; 0]) =
  Ok (4 * 4096, mkPmm 0 0 0 (4096 * 5) 10 0 2 7 0 [0x7A; 0]).
Proof. vm_compute. reflexivity. Qed.

Example init_demo :
  pmm_init 0x3000 0x4000 [mkDesc 7 0x1000 0 9 0; mkDesc 2 0xA000 0 4 0] pmm_zero =
  Ok (tt, mkPmm (9 * 4096) 0 0 (4096 * 3) 10 0x1000 2 0 0x9000 [0x0B; 0xFC]).
Proof. vm_compute. reflexivity. Qed.

(** ** Specification vocabulary *)

(** Frame [i] is marked in use. *)
Definition used (s : pmm_state_t) (i : Z) : bool :=
  Z.testbit (default 0 (bits s !! Z.to_nat (i / 8))) (i mod 8).

(** The number of frames in use. *)
Definition used_frames (s : pmm_state_t) : Z :=
  count_upto (used s) (Z.to_nat (page_count s)).

(** The bitmap is a byte array of the recorded size. *)
Record bitmap_wf (s : pmm_state_t) : Prop := {
  bm_size : bitmap_size s = (page_count s + 7) / 8;
  bm_len : Z.of_nat (length (bits s)) = bitmap_size s;
  bm_bytes : Forall (λ b, 0 ≤ b < 256) (bits s);
  bm_pages : 0 < page_count s < 2 ^ 52
}.

(** The invariant: a well-formed bitmap, a search start within it, and
    [used_memory] counting exactly the bytes of the frames in use. *)
Record pmm_wf (s : pmm_state_t) : Prop := {
  wf_bitmap : bitmap_wf s;
  wf_last : 0 ≤ last_index s ≤ page_count s;
  wf_used : used_memory s = 4096 * used_frames s
}.

(** [s'] differs from [s] at most in the bitmap bytes. *)
Definition upd_bits (s s' : pmm_state_t) : Prop := ∃ bs, s' = set_bits bs s.

Lemma upd_bits_refl s : upd_bits s s.
Proof. exists (bits s). by destruct s. Qed.
Lemma upd_bits_trans s1 s2 s3 : upd_bits s1 s2 → upd_bits s2 s3 → upd_bits s1 s3.
Proof. intros [b1 ->] [b2 ->]. by exists b2. Qed.

Section bitmap.
Context (s : pmm_state_t) (Hwf : bitmap_wf s).

Lemma bm_index i : 0 ≤ i < page_count s → (Z.to_nat (i / 8) < length (bits s))%nat.
Proof.
  intros Hi. pose proof (bm_size s Hwf). pose proof (bm_len s Hwf).
  assert (0 ≤ i / 8 < (page_count s + 7) / 8) by dlia. lia.
Qed.

Lemma bm_byte i : 0 ≤ i < page_count s →
  ∃ b, bits s !! Z.to_nat (i / 8) = Some b ∧ 0 ≤ b < 256 ∧ used s i = Z.testbit b (i mod 8).
Proof.
  intros Hi. destruct (lookup_lt_is_Some_2 (bits s) (Z.to_nat (i / 8))) as [b Hb].
  { by apply bm_index. }
  exists b. split; [done|]. split.
  - by apply (Forall_lookup_1 _ _ _ _ (bm_bytes s Hwf) Hb).
  - unfold used. by rewrite Hb.
Qed.

Lemma bitmap_test_ok i : 0 ≤ i < page_count s →
  bitmap_test i s = Ok (Z.b2z (used s i), s).
Proof.
  intros Hi. destruct (bm_byte i Hi) as (b & Hb & _ & ->).
  unfold bitmap_test, byte_read, mbind, M_bind. rewrite Hb. unfold mret, M_ret.
  rewrite land_1_testbit; [done|]. apply Z.mod_pos_bound; lia.
Qed.

(** Writing one byte changes only the frames of that byte. *)
Lemma byte_update i b v : 0 ≤ i < page_count s →
  bits s !! Z.to_nat (i / 8) = Some b → 0 ≤ v < 256 →
  let s' := set_bits (<[Z.to_nat (i / 8) := v]> (bits s)) s in
  bitmap_wf s' ∧
  ∀ j, 0 ≤ j → used s' j = if j / 8 =? i / 8 then Z.testbit v (j mod 8) else used s j.
Proof.
  intros Hi Hb Hv s'. destruct Hwf as [Hs Hl Hf Hp]. split.
  - split; simpl; [done| |by apply Forall_insert|done]. by rewrite length_insert.
  - intros j Hj. unfold used. simpl. destruct (Z.eqb_spec (j / 8) (i / 8)) as [->|Hne].
    + rewrite list_lookup_insert_eq; [done|]. by apply bm_index.
    + rewrite list_lookup_insert_ne; [done|].
      pose proof (Z.div_pos j 8). pose proof (Z.div_pos i 8). lia.
Qed.
End bitmap.

Lemma byte_of_frame i j : 0 ≤ i → 0 ≤ j → j / 8 = i / 8 → (j mod 8 =? i mod 8) = (j =? i).
Proof.
  intros Hi Hj He.
  destruct (Z.eqb_spec (j mod 8) (i mod 8)), (Z.eqb_spec j i); try reflexivity; exfalso; dlia.
Qed.

(** Setting or clearing the bit of a frame, abstractly. *)
Lemma bitmap_set_ok s i : bitmap_wf s → 0 ≤ i < page_count s →
  ∃ s', bitmap_set i s = Ok (tt, s') ∧ upd_bits s s' ∧ bitmap_wf s' ∧
        ∀ j, 0 ≤ j → used s' j = (j =? i) || used s j.
Proof.
  intros Hwf Hi. destruct (bm_byte s Hwf i Hi) as (b & Hb & Hr & Hu).
  pose proof (Z.mod_pos_bound i 8 ltac:(lia)) as Hm.
  set (v := u8 (Z.lor b (Z.shiftl 1 (i mod 8)))).
  destruct (byte_update s Hwf i b v Hi Hb (u8_range _)) as [Hwf' Hj].
  eexists. split; [|split; [by (eexists; reflexivity)|split; [exact Hwf'|]]].
  { unfold bitmap_set, byte_read, byte_write, mbind, M_bind. rewrite Hb. simpl. by rewrite Hb. }
  intros j Hj0. rewrite Hj by done.
  pose proof (Z.mod_pos_bound j 8 ltac:(lia)) as Hmj.
  destruct (Z.eqb_spec (j / 8) (i / 8)) as [He|Hne].
  - unfold v, u8. rewrite testbit_mod_pow2, Z.lor_spec, testbit_pow2 by lia.
    rewrite (byte_of_frame i j) by lia.
    destruct (Z.ltb_spec (j mod 8) 8); [|lia]. simpl. rewrite orb_comm. f_equal.
    unfold used. rewrite He, Hb. done.
  - destruct (Z.eqb_spec j i) as [->|]; [congruence|done].
Qed.

Lemma bitmap_clear_ok s i : bitmap_wf s → 0 ≤ i < page_count s →
  ∃ s', bitmap_clear i s = Ok (tt, s') ∧ upd_bits s s' ∧ bitmap_wf s' ∧
        ∀ j, 0 ≤ j → used s' j = negb (j =? i) && used s j.
Proof.
  intros Hwf Hi. destruct (bm_byte s Hwf i Hi) as (b & Hb & Hr & Hu).
  pose proof (Z.mod_pos_bound i 8 ltac:(lia)) as Hm.
  set (v := u8 (Z.land b (Z.lnot (Z.shiftl 1 (i mod 8))))).
  destruct (byte_update s Hwf i b v Hi Hb (u8_range _)) as [Hwf' Hj].
  eexists. split; [|split; [by (eexists; reflexivity)|split; [exact Hwf'|]]].
  { unfold bitmap_clear, byte_read, byte_write, mbind, M_bind. rewrite Hb. simpl. by rewrite Hb. }
  intros j Hj0. rewrite Hj by done.
  pose proof (Z.mod_pos_bound j 8 ltac:(lia)) as Hmj.
  destruct (Z.eqb_spec (j / 8) (i / 8)) as [He|Hne].
  - unfold v, u8. rewrite testbit_mod_pow2, Z.land_spec, Z.lnot_spec, testbit_pow2 by lia.
    rewrite (byte_of_frame i j) by lia.
    destruct (Z.ltb_spec (j mod 8) 8); [|lia]. simpl. rewrite andb_comm. f_equal.
    unfold used. rewrite He, Hb. done.
  - destruct (Z.eqb_spec j i) as [->|]; [congruence|done].
Qed.

(** ** Accounting *)

Lemma used_frames_set s s' i :
  page_count s' = page_count s → 0 ≤ i < page_count s → used s i = false →
  (∀ j, 0 ≤ j → used s' j = (j =? i) || used s j) →
  used_frames s' = used_frames s + 1.
Proof.
  intros Hp Hi Hf Hu. unfold used_frames. rewrite Hp.
  apply (count_upto_flip _ _ _ i); [lia|done| |].
  - rewrite Hu by lia. by rewrite Z.eqb_refl.
  - intros j Hj Hne. rewrite Hu by lia. by destruct (Z.eqb_spec j i).
Qed.

Lemma used_frames_clear s s' i :
  page_count s' = page_count s → 0 ≤ i < page_count s → used s i = true →
  (∀ j, 0 ≤ j → used s' j = negb (j =? i) && used s j) →
  used_frames s' = used_frames s - 1.
Proof.
  intros Hp Hi Hf Hu. cut (used_frames s = used_frames s' + 1); [lia|].
  apply (used_frames_set s' s i); [done|lia| |].
  - rewrite Hu by lia. by rewrite Z.eqb_refl.
  - intros j Hj. rewrite Hu by lia. by destruct (Z.eqb_spec j i) as [->|].
Qed.

Lemma used_frames_range s : bitmap_wf s → 0 ≤ used_frames s ≤ page_count s.
Proof.
  intros [_ _ _ Hp]. pose proof (count_upto_range (used s) (Z.to_nat (page_count s))).
  unfold used_frames. lia.
Qed.

(** The fields that fix the shape of the managed memory. *)
Record same_layout (s s' : pmm_state_t) : Prop := {
  sl_pages : page_count s' = page_count s;
  sl_bitmap : bitmap s' = bitmap s;
  sl_size : bitmap_size s' = bitmap_size s;
  sl_max : max_address s' = max_address s
}.

(** [s'] is [s] after handing out the [k] frames from [p]: they were free,
    they are in use, no other frame changed. *)
Record takes (s s' : pmm_state_t) (p k : Z) : Prop := {
  tk_layout : same_layout s s';
  tk_range : 0 ≤ p ∧ p + k ≤ page_count s;
  tk_free : ∀ j, p ≤ j < p + k → used s j = false;
  tk_used : ∀ j, 0 ≤ j → used s' j = ((p <=? j) && (j <? p + k)) || used s j
}.

Lemma addr_of_page p : 0 ≤ p < 2 ^ 52 → page_to_addr p = p * 4096.
Proof.
  intros Hp. unfold page_to_addr. rewrite Z.shiftl_mul_pow2 by lia.
  apply u64_small. lia.
Qed.

Lemma wf_fields s s' :
  bits s' = bits s → page_count s' = page_count s → bitmap_size s' = bitmap_size s →
  bitmap_wf s → bitmap_wf s'.
Proof. intros Hb Hp Hz [? ? ? ?]. split; by rewrite ?Hb, ?Hp, ?Hz. Qed.

Lemma used_fields s s' : bits s' = bits s → ∀ j, used s' j = used s j.
Proof. intros Hb j. unfold used. by rewrite Hb. Qed.

Lemma used_frames_fields s s' :
  bits s' = bits s → page_count s' = page_count s → used_frames s' = used_frames s.
Proof.
  intros Hb Hp. unfold used_frames. rewrite Hp. apply count_upto_ext.
  intros. by apply used_fields.
Qed.

(** ** Single frames *)

Lemma alloc_page_loop_ok s n i :
  pmm_wf s → 0 ≤ i → i + Z.of_nat n ≤ page_count s →
  wp (alloc_page_loop n i) (λ r s',
    match r with
    | Some a => ∃ p, i ≤ p < i + Z.of_nat n ∧ a = p * 4096 ∧ pmm_wf s' ∧ takes s s' p 1
    | None => s' = s ∧ ∀ p, i ≤ p < i + Z.of_nat n → used s p = true
    end) never s.
Proof.
  intros [Hb Hl Hu]. revert i. induction n as [|n IH]; intros i Hi Hn; simpl.
  { apply wp_ret. split; [done|lia]. }
  apply wp_bind. eapply wp_ok; [apply bitmap_test_ok; [done|lia]|]. cbv beta.
  destruct (used s i) eqn:Hui; simpl.
  { eapply wp_mono; [apply (IH (i + 1)); lia| |done].
    intros [a|] s'; simpl; [intros (p & ? & ?); exists p; split; [lia|done]|].
    intros [-> Hp]. split; [done|]. intros p ?.
    destruct (decide (p = i)) as [->|]; [done|apply Hp; lia]. }
  destruct (bitmap_set_ok s i Hb ltac:(lia)) as (s1 & Hs1 & [bs ->] & Hb1 & Hu1).
  apply wp_bind. eapply wp_ok; [exact Hs1|]. unfold add_used. wp_steps.
  pose proof (bm_pages s Hb) as Hp. pose proof (used_frames_range s Hb).
  exists i. split; [lia|]. split; [apply addr_of_page; lia|].
  assert (used_frames (set_bits bs s) = used_frames s + 1) as Hc.
  { by apply (used_frames_set s _ i); [|lia|..]. }
  pose proof (used_frames_range _ Hb1) as Hr. simpl in Hr. split.
  - split; simpl; [by eapply wf_fields; [..|exact Hb1]|lia|].
    erewrite (used_frames_fields (set_bits bs s)) by done.
    rewrite Hu, Hc, u64_small by lia. lia.
  - split; simpl; [by split|lia| |].
    + intros j Hj. by replace j with i by lia.
    + intros j Hj. rewrite (used_fields (set_bits bs s)) by done. rewrite Hu1 by done. f_equal.
      destruct (Z.eqb_spec j i), (Z.leb_spec i j), (Z.ltb_spec j (i + 1)); done || lia.
Qed.

(** ** Runs of frames *)

Lemma mark_run_ok s p k :
  bitmap_wf s → 0 ≤ p → 0 ≤ k → p + k ≤ page_count s →
  (∀ j, p ≤ j < p + k → used s j = false) →
  wp (for_range (Z.to_nat k) 0 (λ i, bitmap_set (p + i))) (λ _ s',
    upd_bits s s' ∧ bitmap_wf s' ∧ used_frames s' = used_frames s + k ∧
    ∀ j, 0 ≤ j → used s' j = ((p <=? j) && (j <? p + k)) || used s j) never s.
Proof.
  intros Hb Hp Hk Hle Hfree.
  eapply wp_mono; [apply (for_range_inv (λ i t,
    upd_bits s t ∧ bitmap_wf t ∧ used_frames t = used_frames s + i ∧
    ∀ j, 0 ≤ j → used t j = ((p <=? j) && (j <? p + i)) || used s j))| |done].
  - split; [apply upd_bits_refl|]. split; [done|]. split; [lia|].
    intros j Hj. destruct (Z.leb_spec p j), (Z.ltb_spec j (p + 0)); done || lia.
  - intros i t Hi ([bs ->] & Hbt & Hc & Hu).
    destruct (bitmap_set_ok _ (p + i) Hbt ltac:(simpl; lia)) as (t' & Ht' & Hup & Hbt' & Hu').
    eapply wp_ok; [exact Ht'|]. split; [by eapply upd_bits_trans; [eexists|]|].
    split; [done|]. split.
    + destruct Hup as [bs' ->].
      rewrite (used_frames_set (set_bits bs s) _ (p + i)); [lia|done|simpl; lia| |done].
      rewrite Hu by lia. rewrite (Hfree (p + i)) by lia.
      destruct (Z.leb_spec p (p + i)), (Z.ltb_spec (p + i) (p + i)); done || lia.
    + intros j Hj. rewrite Hu', Hu by done. rewrite orb_assoc. f_equal.
      destruct (Z.eqb_spec j (p + i)), (Z.leb_spec p j), (Z.ltb_spec j (p + i)),
        (Z.ltb_spec j (p + (i + 1))); done || lia.
  - intros [] s' H. simpl in H. by replace (Z.of_nat (Z.to_nat k)) with k in H by lia.
Qed.

(** The result of a successful search for [count] frames. *)
Record run_taken (s s' : pmm_state_t) (p count : Z) : Prop := {
  rt_takes : takes s s' p count;
  rt_bitmap : bitmap_wf s';
  rt_last : last_index s' = p + count;
  rt_frames : used_frames s' = used_frames s + count;
  rt_used : used_memory s' = u64 (used_memory s + u32 (count * 4096))
}.

(** No run of [count] free frames lies within [lo, hi). *)
Definition no_run (s : pmm_state_t) (lo hi count : Z) : Prop :=
  ∀ p, lo ≤ p → p + count ≤ hi → ∃ j, p ≤ j < p + count ∧ used s j = true.

Lemma alloc_pages_loop_ok s lo count n i cc fp :
  bitmap_wf s → 0 ≤ lo → 0 ≤ cc < count → count < 2 ^ 32 →
  lo ≤ i - cc → i + Z.of_nat n ≤ page_count s →
  (cc ≠ 0 → fp = i - cc) →
  (∀ j, i - cc ≤ j < i → used s j = false) →
  (lo < i - cc → used s (i - cc - 1) = true) →
  no_run s lo i count →
  wp (alloc_pages_loop n i count cc fp) (λ r s',
    match r.1 with
    | Some a => ∃ p, lo ≤ p ∧ p + count ≤ i + Z.of_nat n ∧ a = p * 4096 ∧ run_taken s s' p count
    | None => s' = s ∧ no_run s lo (i + Z.of_nat n) count
    end) never s.
Proof.
  intros Hb Hlo. revert i cc fp.
  induction n as [|n IH]; intros i cc fp Hcc Hc Hli Hn Hfp Hfree Hmax Hno; simpl.
  { apply wp_ret. simpl. split; [done|]. by rewrite Z.add_0_r. }
  apply wp_bind. eapply wp_ok; [apply bitmap_test_ok; [done|lia]|]. cbv beta.
  replace (i + Z.of_nat (S n)) with (i + 1 + Z.of_nat n) by lia.
  destruct (used s i) eqn:Hui; simpl.
  { apply IH; try lia.
    - intros _. by replace (i + 1 - 0 - 1) with i by lia.
    - intros p Hp Hpc. destruct (decide (p + count = i + 1)); [|apply Hno; lia].
      exists i. split; [lia|done]. }
  rewrite u32_small by lia.
  assert ((if cc =? 0 then i else fp) = i - cc) as ->.
  { destruct (Z.eqb_spec cc 0) as [->|]; [lia|auto]. }
  assert (∀ j, i - cc ≤ j < i + 1 → used s j = false) as Hfree'.
  { intros j Hj. destruct (decide (j = i)) as [->|]; [done|apply Hfree; lia]. }
  destruct (Z.eqb_spec (cc + 1) count) as [He|Hne].
  - apply wp_bind. eapply wp_mono; [apply mark_run_ok; [done|lia..|]| |done].
    { intros j Hj. apply Hfree'. lia. }
    intros [] s1 ([bs ->] & Hb1 & Hc1 & Hu1). unfold add_used. wp_steps. simpl.
    pose proof (bm_pages s Hb) as Hp.
    exists (i - cc). split; [lia|]. split; [lia|]. split; [apply addr_of_page; lia|].
    split; [split|..]; simpl; try done; try lia.
    + intros j Hj. apply Hfree'. lia.
    + by eapply wf_fields; [..|exact Hb1].
  - apply IH; try lia.
    + intros j Hj. apply Hfree'. lia.
    + intros Hlt. replace (i + 1 - (cc + 1) - 1) with (i - cc - 1) by lia. apply Hmax. lia.
    + intros p Hp Hpc. destruct (decide (p + count = i + 1)); [|apply Hno; lia].
      exists (i - cc - 1). split; [lia|]. apply Hmax. lia.
Qed.

Lemma alloc_pages_ok s count :
  bitmap_wf s → 0 ≤ last_index s ≤ page_count s → 0 < count < 2 ^ 32 →
  wp (pmm_alloc_pages count) (λ a s', ∃ p, a = p * 4096 ∧ run_taken s s' p count)
     (λ e, no_run s (last_index s) (page_count s) count ∧ no_run s 0 (last_index s) count) s.
Proof.
  intros Hb Hl Hc. unfold pmm_alloc_pages. rewrite (u32_small count) by lia.
  wp_steps. eapply wp_mono; [apply (alloc_pages_loop_ok s (last_index s)); try done; try lia| |done].
  { intros p Hp Hpc. lia. }
  intros [[a|] fp] s'; simpl; [intros (p & _ & _ & Ha & Hr); wp_steps; eauto|].
  intros [-> Hno1]. wp_steps.
  eapply wp_mono; [apply (alloc_pages_loop_ok s 0); try done; try lia| |done].
  { intros p Hp Hpc. lia. }
  intros [[a|] fp'] s'; simpl; [intros (p & _ & _ & Ha & Hr); wp_steps; eauto|].
  intros [-> Hno2]. unfold wp, panic. split.
  - by replace (page_count s) with (last_index s + Z.of_nat (Z.to_nat (page_count s - last_index s))) by lia.
  - by replace (last_index s) with (0 + Z.of_nat (Z.to_nat (last_index s))) by lia.
Qed.

Lemma run_taken_wf s s' p count :
  pmm_wf s → 0 < count < 2 ^ 20 → run_taken s s' p count → pmm_wf s'.
Proof.
  intros [Hb Hl Hu] Hc [Ht Hb' Hl' Hf Hm]. split; [done| |].
  - destruct Ht as [[Hp _ _ _] [? ?] _ _]. lia.
  - rewrite Hm, Hu, Hf, (u32_small (count * 4096)) by lia.
    pose proof (used_frames_range _ Hb'). pose proof (bm_pages _ Hb').
    pose proof (used_frames_range _ Hb). rewrite u64_small by lia. lia.
Qed.

(** ** Page addresses *)

Lemma land_page_mask a : 0 ≤ a < 2 ^ 64 → Z.land a page_mask = a / 4096 * 4096.
Proof.
  intros Ha. change page_mask with (Z.shiftl (Z.ones 52) 12).
  replace (a / 4096 * 4096) with (Z.shiftl (Z.shiftr a 12) 12)
    by (rewrite Z.shiftl_mul_pow2, Z.shiftr_div_pow2 by lia; done).
  apply Z.bits_inj'. intros n Hn. rewrite Z.land_spec, !Z.shiftl_spec by lia.
  destruct (Z.ltb_spec n 12) as [Hlt|Hge].
  - rewrite !(Z.testbit_neg_r _ (n - 12)) by lia. by rewrite andb_false_r.
  - rewrite Z.shiftr_spec by lia. replace (n - 12 + 12) with n by lia.
    destruct (Z.ltb_spec n 64) as [Hl|Hh].
    + rewrite Z.ones_spec_low by lia. by rewrite andb_true_r.
    + rewrite Z.ones_spec_high by lia. rewrite andb_false_r.
      symmetry. apply Z.bits_above_log2; [lia|].
      destruct (decide (a = 0)) as [->|]; [simpl; lia|].
      apply Z.log2_lt_pow2; [lia|]. apply Z.lt_le_trans with (2 ^ 64); [lia|].
      apply Z.pow_le_mono_r; lia.
Qed.

Lemma land_4095 a : Z.land a 4095 = a mod 4096.
Proof. change 4095 with (Z.ones 12). by rewrite Z.land_ones by lia. Qed.

Lemma page_of_addr a : addr_to_page a = a / 4096.
Proof. unfold addr_to_page. by rewrite Z.shiftr_div_pow2 by lia. Qed.

Lemma page_of_addr_mul p : addr_to_page (p * 4096) = p.
Proof. rewrite page_of_addr. by rewrite Z.div_mul by lia. Qed.

(** ** Allocation and release of one frame *)

Lemma alloc_page_ok s :
  pmm_wf s →
  wp pmm_alloc_page (λ a s', ∃ p, a = p * 4096 ∧ pmm_wf s' ∧ takes s s' p 1)
     (λ e, e = "Out of memory!" ∧ ∀ p, 0 ≤ p < page_count s → used s p = true) s.
Proof.
  intros Hwf. pose proof (wf_last s Hwf) as Hl. unfold pmm_alloc_page. wp_steps.
  eapply wp_mono; [apply alloc_page_loop_ok; [done|lia..]| |done].
  intros [a|] s'; simpl; [intros (p & _ & ? & ? & ?); wp_steps; eauto|].
  intros [-> H1]. wp_steps.
  eapply wp_mono; [apply alloc_page_loop_ok; [done|lia..]| |done].
  intros [a|] s'; simpl; [intros (p & _ & ? & ? & ?); wp_steps; eauto|].
  intros [-> H2]. unfold wp, panic. split; [done|]. intros p Hp.
  destruct (decide (p < last_index s)); [apply H2|apply H1]; lia.
Qed.

(** [s'] is [s] with frame [p], which was in use, made free. *)
Record releases (s s' : pmm_state_t) (p : Z) : Prop := {
  rl_layout : same_layout s s';
  rl_used : used s p = true;
  rl_free : ∀ j, 0 ≤ j → used s' j = negb (j =? p) && used s j
}.

Lemma free_page_ok s p :
  pmm_wf s → 0 ≤ p < page_count s → used s p = true →
  ∃ s', pmm_free_page (p * 4096) s = Ok (tt, s') ∧ pmm_wf s' ∧ releases s s' p ∧
        last_index s' = Z.min p (last_index s).
Proof.
  intros [Hb Hl Hu] Hp Hup. unfold pmm_free_page.
  destruct (bitmap_clear_ok s p Hb Hp) as (s1 & Hs1 & [bs ->] & Hb1 & Hu1).
  assert (used_frames (set_bits bs s) = used_frames s - 1) as Hc.
  { by apply (used_frames_clear s _ p). }
  pose proof (used_frames_range _ Hb). pose proof (used_frames_range _ Hb1). pose proof (bm_pages _ Hb).
  unfold get, mbind, M_bind. rewrite page_of_addr_mul, land_4095, Z.mod_mul by lia. simpl.
  destruct (Z.leb_spec (page_count s) p); [lia|]. unfold mbind, M_bind.
  rewrite bitmap_test_ok by done. rewrite Hup. simpl. rewrite Hs1. simpl.
  set (s2 := set_used_memory _ _).
  exists (set_last_index (Z.min p (last_index s)) s2). split; [|split; [split|split; [split|]]];
    simpl; try done; try lia.
  - unfold when. destruct (Z.ltb_spec p (last_index s)).
    + by rewrite Z.min_l by lia.
    + rewrite Z.min_r by lia. by destruct s.
  - by eapply wf_fields; [..|exact Hb1].
  - rewrite (used_frames_fields (set_bits bs s)) by done. rewrite u64_small by lia. lia.
Qed.

(** [pmm_alloc_page] on a well-formed state returns the address of a frame
    that was free and marks exactly that frame, keeping the invariant (bitmap
    shape and [used_memory]); it panics only when every frame is in use, and it
    never reads outside the bitmap. *)
Theorem pmm_alloc_page_correct s :
  pmm_wf s →
  wp pmm_alloc_page (λ a s', ∃ p, a = p * 4096 ∧ pmm_wf s' ∧ takes s s' p 1)
     (λ e, e = "Out of memory!" ∧ ∀ p, 0 ≤ p < page_count s → used s p = true) s.
Proof. apply alloc_page_ok. Qed.

(** C19: [pmm_alloc_pages] returns the address of a run of [count] frames that
    were all free and marks exactly those, keeping the invariant; it panics only
    when neither [last_index, page_count) nor [0, last_index) holds such a run.
    The bound on [count] is where [count * 4096] still fits the [uint] product. *)
Theorem pmm_alloc_pages_correct s count :
  pmm_wf s → 0 < count < 2 ^ 20 →
  wp (pmm_alloc_pages count)
     (λ a s', ∃ p, a = p * 4096 ∧ pmm_wf s' ∧ takes s s' p count ∧ last_index s' = p + count)
     (λ e, no_run s (last_index s) (page_count s) count ∧ no_run s 0 (last_index s) count) s.
Proof.
  intros Hwf Hc. eapply wp_mono; [apply alloc_pages_ok; [apply Hwf..|lia]| |done].
  intros a s' (p & -> & Hr). exists p. split; [done|].
  split; [by eapply run_taken_wf|]. split; apply Hr.
Qed.

(** C29: [pmm_free_page] refuses, with the matching panic, an unaligned address,
    a frame outside the map and a frame that is not in use; otherwise it frees
    exactly that frame, keeps the invariant and lowers [last_index] to it. *)
Theorem pmm_free_page_correct s a :
  pmm_wf s → 0 ≤ a →
  wp (pmm_free_page a)
     (λ _ s', a mod 4096 = 0 ∧ a / 4096 < page_count s ∧ pmm_wf s' ∧
              releases s s' (a / 4096) ∧ last_index s' = Z.min (a / 4096) (last_index s))
     (λ e, (e = "PMM free unaligned address" ∧ a mod 4096 ≠ 0) ∨
           (e = "PMM free out of range" ∧ page_count s ≤ a / 4096) ∨
           (e = "PMM double free or freeing free page" ∧ used s (a / 4096) = false)) s.
Proof.
  intros Hwf Ha. destruct (decide (a mod 4096 = 0)) as [He|He].
  - destruct (decide (a / 4096 < page_count s)) as [Hlt|Hge].
    + assert (a = a / 4096 * 4096) as Hq by dlia.
      destruct (used s (a / 4096)) eqn:Hu.
      * destruct (free_page_ok s (a / 4096)) as (s' & Hs & ? & ? & ?); [done|dlia|done|].
        rewrite Hq at 1. by eapply wp_ok; [exact Hs|].
      * unfold wp, pmm_free_page, get, mbind, M_bind.
        rewrite land_4095, He, page_of_addr. simpl.
        destruct (Z.leb_spec (page_count s) (a / 4096)); [lia|].
        unfold mbind, M_bind. rewrite bitmap_test_ok by (apply Hwf || dlia). rewrite Hu. simpl. auto.
    + unfold wp, pmm_free_page, get, mbind, M_bind.
      rewrite land_4095, He, page_of_addr. simpl.
      destruct (Z.leb_spec (page_count s) (a / 4096)); [simpl; auto|lia].
  - unfold wp, pmm_free_page, get, mbind, M_bind. rewrite land_4095.
    destruct (Z.eqb_spec (a mod 4096) 0); [done|]. simpl. auto.
Qed.

(** Freeing the frame [pmm_alloc_page] returned gives back the bitmap and
    the memory accounting the allocation started from. *)
Theorem pmm_alloc_free_roundtrip s :
  pmm_wf s →
  wp (a ← pmm_alloc_page; pmm_free_page a)
     (λ _ s', pmm_wf s' ∧ (∀ j, 0 ≤ j → used s' j = used s j) ∧ used_memory s' = used_memory s)
     (λ e, e = "Out of memory!") s.
Proof.
  intros Hwf. apply wp_bind. eapply wp_mono; [by apply alloc_page_ok| |by intros e [? _]].
  intros a s1 (p & -> & Hwf1 & [Hlay [Hp0 Hp1] Hfree Hused]). cbv beta.
  pose proof (sl_pages _ _ Hlay) as Hpc.
  destruct (free_page_ok s1 p) as (s2 & Hs2 & Hwf2 & [Hlay2 _ Hu2] & _); [done|lia| |].
  { rewrite Hused by lia. destruct (Z.leb_spec p p), (Z.ltb_spec p (p + 1)); done || lia. }
  eapply wp_ok; [exact Hs2|]. cbv beta.
  assert (∀ j, 0 ≤ j → used s2 j = used s j) as He.
  { intros j Hj. rewrite Hu2, Hused by done.
    destruct (Z.eqb_spec j p) as [->|]; simpl; [by rewrite Hfree by lia|].
    destruct (Z.leb_spec p j), (Z.ltb_spec j (p + 1)); simpl; done || lia. }
  split; [done|]. split; [done|]. rewrite (wf_used _ Hwf), (wf_used _ Hwf2). f_equal.
  unfold used_frames. rewrite (sl_pages _ _ Hlay2), Hpc. apply count_upto_ext.
  intros; apply He; lia.
Qed.

(** ** Initialisation *)

(** The invariant without the search start, as it holds while [pmm_init] runs;
    [frame s s'] fixes the fields the loops of [pmm_init] leave alone. *)
Definition acct (s : pmm_state_t) : Prop := bitmap_wf s ∧ used_memory s = 4096 * used_frames s.

Definition frame (s s' : pmm_state_t) : Prop :=
  page_count s' = page_count s ∧ bitmap s' = bitmap s ∧
  bitmap_size s' = bitmap_size s ∧ last_index s' = last_index s.

(** [s'] is [s] with the frames in [P] set to [v]. *)
Definition marked (P : Z → bool) (v : bool) (s s' : pmm_state_t) : Prop :=
  acct s' ∧ frame s s' ∧ ∀ j, 0 ≤ j → used s' j = if P j then v else used s j.

Lemma frame_trans s1 s2 s3 : frame s1 s2 → frame s2 s3 → frame s1 s3.
Proof. unfold frame. intuition congruence. Qed.

Lemma marked_refl v s : acct s → marked (λ _, false) v s s.
Proof. intros H. split; [done|]. split; [done|]. done. Qed.

Lemma marked_trans v P Q s1 s2 s3 :
  marked P v s1 s2 → marked Q v s2 s3 → marked (λ j, P j || Q j) v s1 s3.
Proof.
  intros (_ & F1 & U1) (A & F2 & U2). split; [done|]. split; [by eapply frame_trans|].
  intros j Hj. rewrite U2, U1 by done. by destruct (P j), (Q j).
Qed.

Lemma marked_ext v P Q s s' :
  (∀ j, 0 ≤ j → P j = Q j) → marked P v s s' → marked Q v s s'.
Proof. intros He (A & F & U). split; [done|]. split; [done|]. intros j Hj. by rewrite <- He, U. Qed.

Lemma reserve_page_ok s a :
  acct s → 0 ≤ a → a / 4096 < page_count s →
  wp (pmm_reserve_page a) (λ _ s', marked (λ j, j =? a / 4096) true s s') never s.
Proof.
  intros [Hb Hu] Ha Hlt. assert (0 ≤ a / 4096) by dlia. unfold pmm_reserve_page.
  rewrite page_of_addr. apply wp_bind. eapply wp_ok; [by apply bitmap_test_ok|]. cbv beta.
  destruct (used s (a / 4096)) eqn:Hup; simpl.
  { apply wp_ret. split; [done|]. split; [done|]. intros j Hj.
    by destruct (Z.eqb_spec j (a / 4096)) as [->|]. }
  destruct (bitmap_set_ok s (a / 4096) Hb) as (s1 & Hs1 & [bs ->] & Hb1 & Hu1); [lia|].
  apply wp_bind. eapply wp_ok; [exact Hs1|]. unfold add_used. wp_steps.
  assert (used_frames (set_bits bs s) = used_frames s + 1) as Hc.
  { by apply (used_frames_set s _ (a / 4096)). }
  pose proof (used_frames_range _ Hb). pose proof (used_frames_range _ Hb1). pose proof (bm_pages _ Hb).
  simpl in *. split; [split|split; [done|]].
  - by eapply wf_fields; [..|exact Hb1].
  - rewrite (used_frames_fields (set_bits bs s)) by done. simpl. rewrite u64_small by lia. lia.
  - intros j Hj. rewrite (used_fields (set_bits bs s)) by done. rewrite Hu1 by done.
    by destruct (Z.eqb_spec j (a / 4096)).
Qed.

Lemma unreserve_page_ok s a :
  acct s → 0 ≤ a → a / 4096 < page_count s →
  wp (pmm_unreserve_page a) (λ _ s', marked (λ j, j =? a / 4096) false s s') never s.
Proof.
  intros [Hb Hu] Ha Hlt. assert (0 ≤ a / 4096) by dlia. unfold pmm_unreserve_page.
  rewrite page_of_addr. apply wp_bind. eapply wp_ok; [by apply bitmap_test_ok|]. cbv beta.
  destruct (used s (a / 4096)) eqn:Hup; simpl; last first.
  { apply wp_ret. split; [done|]. split; [done|]. intros j Hj.
    by destruct (Z.eqb_spec j (a / 4096)) as [->|]. }
  destruct (bitmap_clear_ok s (a / 4096) Hb) as (s1 & Hs1 & [bs ->] & Hb1 & Hu1); [lia|].
  apply wp_bind. eapply wp_ok; [exact Hs1|]. unfold add_used. wp_steps.
  assert (used_frames (set_bits bs s) = used_frames s - 1) as Hc.
  { by apply (used_frames_clear s _ (a / 4096)). }
  pose proof (used_frames_range _ Hb). pose proof (used_frames_range _ Hb1). pose proof (bm_pages _ Hb).
  simpl in *. split; [split|split; [done|]].
  - by eapply wf_fields; [..|exact Hb1].
  - rewrite (used_frames_fields (set_bits bs s)) by done. simpl. rewrite u64_small by lia. lia.
  - intros j Hj. rewrite (used_fields (set_bits bs s)) by done. rewrite Hu1 by done.
    by destruct (Z.eqb_spec j (a / 4096)).
Qed.

(** Frame [j] lies in the [k] frames from [p]. *)
Definition in_run (p k j : Z) : bool := (p <=? j) && (j <? p + k).

Lemma in_run_snoc p i j : 0 ≤ i → in_run p i j || (j =? p + i) = in_run p (i + 1) j.
Proof.
  intros Hi. unfold in_run.
  destruct (Z.leb_spec p j), (Z.ltb_spec j (p + i)), (Z.ltb_spec j (p + (i + 1))),
    (Z.eqb_spec j (p + i)); done || lia.
Qed.

Lemma in_run_empty p j : in_run p 0 j = false.
Proof. unfold in_run. destruct (Z.leb_spec p j), (Z.ltb_spec j (p + 0)); done || lia. Qed.

(** A loop whose [i]-th iteration marks frame [p + i] marks the whole run. *)
Lemma mark_loop v (body : Z → M pmm_state_t unit) s p k :
  acct s → 0 ≤ k →
  (∀ i t, 0 ≤ i < k → acct t → page_count t = page_count s →
     wp (body i) (λ _ t', marked (λ j, j =? p + i) v t t') never t) →
  wp (for_range (Z.to_nat k) 0 body) (λ _ s', marked (in_run p k) v s s') never s.
Proof.
  intros Ha Hk Hbody.
  eapply wp_mono; [apply (for_range_inv (λ i t, 0 ≤ i ∧ marked (in_run p i) v s t))| |done].
  - split; [lia|]. eapply marked_ext; [|by apply marked_refl].
    intros j _. by rewrite in_run_empty.
  - intros i t Hi [_ Ht]. pose proof Ht as (At & (Hp & _) & _).
    eapply wp_mono; [apply Hbody; [lia|done..]| |done].
    intros [] t' Ht'. split; [lia|]. eapply marked_ext; [|by eapply marked_trans].
    intros j _. apply in_run_snoc. lia.
  - intros [] s' [_ H]. by replace (0 + Z.of_nat (Z.to_nat k)) with k in H by lia.
Qed.

(** The number of frames a byte range touches. *)
Definition region_pages (addr size : Z) : Z := (addr + size + 4095) / 4096 - addr / 4096.

Lemma reserve_region_ok s a size :
  acct s → 0 ≤ a → 0 ≤ size < 2 ^ 31 → a + size ≤ page_count s * 4096 →
  wp (pmm_reserve_region a size)
     (λ _ s', marked (in_run (a / 4096) (region_pages a size)) true s s') never s.
Proof.
  intros Ha H0 Hs Hle. destruct Ha as [Hb Hu] eqn:E. pose proof (bm_pages s Hb) as Hp.
  unfold pmm_reserve_region. rewrite i32_small by lia.
  rewrite (u64_small (a + size + 4095)) by lia. rewrite !land_page_mask by lia.
  assert (u64 ((a + size + 4095) / 4096 * 4096 - a / 4096 * 4096) / 4096
          = region_pages a size) as ->.
  { unfold region_pages. rewrite u64_small by dlia. dlia. }
  assert (0 ≤ region_pages a size) by (unfold region_pages; dlia).
  apply mark_loop; [done|done|]. intros i t Hi At Hpt.
  assert (a / 4096 + region_pages a size ≤ page_count s) by (unfold region_pages; dlia).
  assert (a / 4096 * 4096 + i * 4096 = (a / 4096 + i) * 4096) as Hq by lia.
  rewrite u64_small by dlia. rewrite Hq.
  eapply wp_mono; [apply reserve_page_ok; [done|dlia|rewrite Z.div_mul by lia; lia]| |done].
  intros [] t'. by rewrite Z.div_mul by lia.
Qed.

(** A descriptor as UEFI reports it: page aligned and below the top of memory. *)
Definition desc_ok (d : EfiMemoryDescriptor) : Prop :=
  0 ≤ NumberOfPages d ∧ 0 ≤ PhysicalStart d ∧ PhysicalStart d mod 4096 = 0 ∧
  PhysicalStart d + NumberOfPages d * 4096 < 2 ^ 64.

(** Frame [j] belongs to a usable (EfiConventionalMemory) region. *)
Definition covers (d : EfiMemoryDescriptor) (j : Z) : bool :=
  (Type_ d =? 7) && in_run (PhysicalStart d / 4096) (NumberOfPages d) j.
Definition usable (descs : list EfiMemoryDescriptor) (j : Z) : bool :=
  existsb (λ d, covers d j) descs.

Lemma init_max_page_ok descs m :
  Forall desc_ok descs → 0 ≤ m < 2 ^ 52 - 1 →
  m ≤ init_max_page descs m < 2 ^ 52 - 1 ∧ ∀ j, usable descs j = true → j ≤ init_max_page descs m.
Proof.
  intros Hd. revert m. induction Hd as [|d rest (Hn & Hs & Ha & Ht) Hr IH]; intros m Hm; simpl.
  { split; [lia|done]. }
  set (m' := if _ : bool then _ else m).
  assert (m ≤ m' < 2 ^ 52 - 1 ∧ ∀ j, covers d j = true → j ≤ m') as [Hm' Hc].
  { unfold m', covers. destruct (Z.eqb_spec (Type_ d) 7); simpl; [|split; [lia|done]].
    destruct (Z.ltb_spec 0 (NumberOfPages d)); simpl; last first.
    { split; [lia|]. intros j. unfold in_run.
      destruct (Z.leb_spec (PhysicalStart d / 4096) j),
        (Z.ltb_spec j (PhysicalStart d / 4096 + NumberOfPages d)); simpl; done || lia. }
    rewrite u64_small by lia. rewrite page_of_addr.
    replace (PhysicalStart d + (NumberOfPages d - 1) * 4096)
      with ((PhysicalStart d / 4096 + (NumberOfPages d - 1)) * 4096) by dlia.
    rewrite Z.div_mul by lia.
    assert (PhysicalStart d / 4096 + NumberOfPages d < 2 ^ 52) by dlia.
    destruct (Z.ltb_spec m (PhysicalStart d / 4096 + (NumberOfPages d - 1)));
      (split; [dlia|]); intros j; unfold in_run; rewrite andb_true_iff, Z.leb_le, Z.ltb_lt; lia. }
  destruct (IH m' ltac:(lia)) as [Hb Hj]. split; [lia|]. intros j Huj.
  apply orb_true_iff in Huj as [Hcj|Huj]; [apply Hc in Hcj; lia|by apply Hj].
Qed.

Lemma init_find_bitmap_ok descs size a :
  init_find_bitmap descs size = Some a →
  ∃ d, d ∈ descs ∧ Type_ d = 7 ∧ PhysicalStart d = a ∧ size ≤ u64 (NumberOfPages d * 4096).
Proof.
  induction descs as [|d rest IH]; simpl; [done|].
  destruct (Z.eqb_spec (Type_ d) 7), (Z.eqb_spec (PhysicalStart d) 0),
    (Z.leb_spec size (u64 (NumberOfPages d * 4096))); simpl;
    try (intros (d' & ? & ?)%IH; exists d'; split; [by right|done]).
  intros [= <-]. exists d. split; [by left|done].
Qed.

Lemma release_page_ok s d i :
  acct s → desc_ok d → 0 ≤ i < NumberOfPages d → PhysicalStart d / 4096 + i < page_count s →
  wp (init_release_page d i) (λ _ s', marked (λ j, j =? PhysicalStart d / 4096 + i) false s s') never s.
Proof.
  intros Ha (Hn & Hs & Hal & Ht) Hi Hlt. unfold init_release_page. rewrite u64_small by lia.
  assert ((PhysicalStart d + i * 4096) / 4096 = PhysicalStart d / 4096 + i) as Hq by dlia.
  apply wp_bind. eapply wp_mono; [apply unreserve_page_ok; [done|lia|lia]| |done].
  intros [] t (At & Ft & Ut). rewrite Hq in Ut. wp_steps. split; [|split].
  - destruct At as [Hb Hu]. split; simpl; [by eapply wf_fields; [..|exact Hb]|].
    by rewrite Hu.
  - done.
  - exact Ut.
Qed.

Lemma init_release_ok s descs :
  Forall desc_ok descs → acct s → (∀ j, usable descs j = true → j < page_count s) →
  wp (init_release descs) (λ _ s', marked (usable descs) false s s') never s.
Proof.
  intros Hd. revert s. induction Hd as [|d rest Hok Hr IH]; intros s Ha Hu; simpl.
  { apply wp_ret. by apply marked_refl. }
  apply wp_bind.
  assert (wp (when (Type_ d =? 7) (for_range (Z.to_nat (NumberOfPages d)) 0 (init_release_page d)))
             (λ _ s', marked (covers d) false s s') never s) as Hfirst.
  { unfold covers, when. destruct (Type_ d =? 7) eqn:E7; simpl; [|apply wp_ret; by apply marked_refl].
    apply mark_loop; [done|apply Hok|]. intros i t Hi At Hpt. apply release_page_ok; try done.
    rewrite Hpt. apply Hu. simpl. unfold covers, in_run. rewrite E7. simpl.
    destruct (Z.leb_spec (PhysicalStart d / 4096) (PhysicalStart d / 4096 + i)),
      (Z.ltb_spec (PhysicalStart d / 4096 + i) (PhysicalStart d / 4096 + NumberOfPages d)); done || lia. }
  eapply wp_mono; [exact Hfirst| |done]. intros [] s1 Hm1. cbv beta.
  pose proof Hm1 as (A1 & (Hp1 & _) & _).
  eapply wp_mono; [apply IH; [done|]| |done].
  - intros j Hj. rewrite Hp1. apply Hu. simpl. rewrite Hj. apply orb_true_r.
  - intros [] s2 Hm2. by eapply marked_trans.
Qed.

(** All bits set: the state [memset8(bitmap, 0xFF, bitmap_size)] leaves. *)
Lemma all_reserved_acct s :
  0 < page_count s < 2 ^ 52 → bitmap_size s = (page_count s + 7) / 8 →
  bits s = replicate (Z.to_nat (bitmap_size s)) 255 → used_memory s = page_count s * 4096 →
  acct s ∧ ∀ j, 0 ≤ j < page_count s → used s j = true.
Proof.
  intros Hp Hs Hb Hm.
  assert (∀ j, 0 ≤ j < page_count s → used s j = true) as Hu.
  { intros j Hj. unfold used. rewrite Hb, lookup_replicate_2 by dlia. simpl.
    change 255 with (Z.ones 8). apply Z.ones_spec_low. dlia. }
  split; [split; [split|]|done].
  - done.
  - rewrite Hb, length_replicate. dlia.
  - rewrite Hb. apply Forall_replicate. lia.
  - done.
  - unfold used_frames. rewrite count_upto_all by (intros; apply Hu; lia). lia.
Qed.

(** C12: [pmm_init] on any UEFI memory map that places the kernel image inside
    the managed range leaves the invariant true and a frame free exactly when a
    usable region covers it and it is not frame 0, not part of the bitmap and
    not part of the kernel image; it panics only when no usable region can hold
    the bitmap, and it never writes outside the bitmap. *)
Theorem pmm_init_correct ks ke descs s :
  Forall desc_ok descs → 0 ≤ ks ≤ ke → ke - ks < 2 ^ 31 →
  init_max_page descs 0 < 2 ^ 33 → ke ≤ (init_max_page descs 0 + 1) * 4096 →
  wp (pmm_init ks ke descs)
     (λ _ s', pmm_wf s' ∧ page_count s' = init_max_page descs 0 + 1 ∧
        ∀ j, 0 ≤ j < page_count s' →
          used s' j = negb (usable descs j && negb (j =? 0)
            && negb (in_run (bitmap s' / 4096) (region_pages (bitmap s') (bitmap_size s')) j)
            && negb (in_run (ks / 4096) (region_pages ks (ke - ks)) j)))
     (λ e, e = "PMM: failed to find space for bitmap" ∧
           init_find_bitmap descs ((init_max_page descs 0 + 8) / 8) = None) s.
Proof.
  intros Hd Hk Hks Hmax Hke.
  destruct (init_max_page_ok descs 0 Hd ltac:(lia)) as [Hm Hcov].
  set (mp := init_max_page descs 0) in *.
  unfold pmm_init. fold mp. rewrite !(u64_small (mp + 1)), (u64_small (mp + 1 + 7)), (u64_small ((mp + 1) * 4096)) by lia.
  wp_steps. simpl. replace (mp + 1 + 7) with (mp + 8) by lia.
  destruct (init_find_bitmap descs ((mp + 8) / 8)) as [a|] eqn:Ef; [|by unfold wp, panic].
  wp_steps. simpl. set (s1 := set_bits _ _).
  destruct (all_reserved_acct s1) as [A1 U1]; try done; simpl; try lia; [f_equal; lia|].
  eapply wp_mono; [apply (init_release_ok s1); [done|done|]| |done].
  { intros j Hj%Hcov. simpl. lia. }
  intros [] s2 (A2 & F2 & U2). pose proof F2 as (Hp2 & _). simpl in Hp2.
  apply wp_bind. eapply wp_mono; [apply reserve_page_ok; [done|lia|]| |done].
  { rewrite Z.div_0_l by lia. lia. }
  intros [] s3 (A3 & F3 & U3). pose proof (frame_trans _ _ _ F2 F3) as F13. pose proof F13 as (Hp3 & _).
  simpl in Hp3. destruct (init_find_bitmap_ok _ _ _ Ef) as (d & Hin & Ht7 & <- & Hsz).
  pose proof (proj1 (Forall_forall _ _) Hd d Hin) as (Hn & Hs & Hal & Ht).
  rewrite u64_small in Hsz by lia.
  assert (PhysicalStart d / 4096 + NumberOfPages d ≤ mp + 1) as Hfit.
  { cut (PhysicalStart d / 4096 + (NumberOfPages d - 1) ≤ mp); [lia|]. apply Hcov.
    apply existsb_exists. exists d. split; [by apply list_elem_of_In|].
    unfold covers, in_run. rewrite Ht7. simpl. assert (0 < NumberOfPages d) by dlia.
    apply andb_true_iff. rewrite Z.leb_le, Z.ltb_lt. lia. }
  apply wp_bind. eapply wp_mono; [apply reserve_region_ok; [done|done|dlia|]| |done].
  { rewrite Hp3. dlia. }
  intros [] s4 (A4 & F4 & U4). pose proof (frame_trans _ _ _ F13 F4) as F14.
  pose proof F14 as (Hp4 & _). simpl in Hp4.
  rewrite (u64_small (ke - ks)) by lia.
  eapply wp_mono; [apply reserve_region_ok; [done|lia|lia|rewrite Hp4; lia]| |done].
  intros [] s5 (A5 & F5 & U5). destruct (frame_trans _ _ _ F14 F5) as (Hp & Hb & Hz & Hl). simpl in *.
  split; [|split; [done|]].
  - destruct A5 as [Hbw Hu5]. split; [done| |done]. rewrite Hl, Hp. lia.
  - intros j Hj. rewrite U5, U4, U3, U2, U1, Hb, Hz by lia. rewrite Z.div_0_l by lia.
    by destruct (usable descs j), (j =? 0), (in_run (PhysicalStart d / 4096) _ j), (in_run (ks / 4096) _ j).
Qed.

(** ** Limits of the implementation *)

(** The two search loops of [pmm_alloc_pages] never join at [last_index], so
    a run of free frames that straddles it is missed: here frames 1 and 2 are
    free once 2 is freed, and a request for two frames still panics. *)
Theorem pmm_alloc_pages_misses_straddling_run :
  let s := mkPmm 0 0 0 (4096 * 3) 4 0 1 4 0 [0xFD] in
  pmm_wf s ∧
  ∃ s', pmm_free_page (2 * 4096) s = Ok (tt, s') ∧ pmm_wf s' ∧
        used s' 1 = false ∧ used s' 2 = false ∧
        pmm_alloc_pages 2 s' = Panic "Out of memory!".
Proof.
  assert (pmm_wf (mkPmm 0 0 0 (4096 * 3) 4 0 1 4 0 [0xFD])) as Hwf.
  { split; [split|..]; simpl; try (vm_compute; intuition congruence). repeat constructor; lia. }
  split; [done|].
  destruct (free_page_ok _ 2 Hwf) as (s' & Hs & Hwf' & _); [simpl; lia|by vm_compute|].
  exists s'. split; [done|]. split; [done|]. vm_compute in Hs. injection Hs as <-. by vm_compute.
Qed.

(** The product [count * 4096] is a [uint]: a run of 4 GiB is handed out and
    [used_memory] does not move. *)
Lemma pmm_alloc_pages_4g_accounting s :
  pmm_wf s →
  wp (pmm_alloc_pages (2 ^ 20))
     (λ _ s', used_frames s' = used_frames s + 2 ^ 20 ∧ used_memory s' = used_memory s)
     (λ e, True) s.
Proof.
  intros Hwf. eapply wp_mono; [apply alloc_pages_ok; [apply Hwf..|lia]| |done].
  intros a s' (p & _ & [_ Hb _ Hf Hm]). split; [done|]. rewrite Hm.
  pose proof (used_frames_range _ (wf_bitmap _ Hwf)). pose proof (bm_pages _ (wf_bitmap _ Hwf)).
  rewrite (wf_used _ Hwf). change (u32 (2 ^ 20 * 4096)) with 0. rewrite u64_small; lia.
Qed.

(** ** Witnesses *)

Definition small_state : pmm_state_t := mkPmm 0 0 0 (4096 * 5) 10 0 2 3 0 [31; 0].

Lemma small_state_wf : pmm_wf small_state.
Proof. split; [split|..]; simpl; try (vm_compute; intuition congruence). repeat constructor; lia. Qed.

Lemma pmm_alloc_page_correct_witness :
  ∃ s', pmm_alloc_page small_state = Ok (5 * 4096, s') ∧ pmm_wf s' ∧ used s' 5 = true.
Proof.
  eexists. split; [vm_compute; reflexivity|]. split; [|vm_compute; reflexivity].
  run_at (pmm_alloc_page_correct small_state small_state_wf) H. by destruct H as (p & _ & Hwf & _).
Defined.

Lemma pmm_alloc_pages_correct_witness :
  ∃ s', pmm_alloc_pages 4 small_state = Ok (5 * 4096, s') ∧ pmm_wf s'.
Proof.
  eexists. split; [vm_compute; reflexivity|].
  run_at (pmm_alloc_pages_correct small_state 4 small_state_wf ltac:(lia)) H. by destruct H as (p & _ & Hwf & _).
Defined.

Lemma pmm_free_page_correct_witness :
  ∃ s', pmm_free_page (2 * 4096) small_state = Ok (tt, s') ∧ pmm_wf s' ∧ used s' 2 = false.
Proof.
  eexists. split; [vm_compute; reflexivity|]. split; [|vm_compute; reflexivity].
  run_at (pmm_free_page_correct small_state (2 * 4096) small_state_wf ltac:(lia)) H. by destruct H as (_ & _ & Hwf & _).
Defined.

Lemma pmm_alloc_free_roundtrip_witness :
  ∃ s', (a ← pmm_alloc_page; pmm_free_page a) small_state = Ok (tt, s') ∧
        used_memory s' = used_memory small_state.
Proof.
  eexists. split; [vm_compute; reflexivity|].
  run_at (pmm_alloc_free_roundtrip small_state small_state_wf) H. by destruct H as (_ & _ & Hu).
Defined.

Definition demo_map : list EfiMemoryDescriptor := [mkDesc 7 0x1000 0 9 0; mkDesc 2 0xA000 0 4 0].

Lemma pmm_init_correct_witness :
  ∃ s', pmm_init 0x3000 0x4000 demo_map pmm_zero = Ok (tt, s')
        ∧ pmm_wf s' ∧ used s' 3 = true ∧ used s' 4 = false.
Proof.
  eexists. split; [vm_compute; reflexivity|]. split; [|vm_compute; by split].
  run_at (pmm_init_correct 0x3000 0x4000 demo_map pmm_zero
      ltac:(repeat constructor; vm_compute; intuition congruence) ltac:(lia) ltac:(lia)
      ltac:(vm_compute; done) ltac:(vm_compute; congruence)) H. by destruct H as (Hwf & _).
Defined.

End Pmm.
