(* ===== verification/Vmm.v ===== *)
(** * Virtual memory manager ([kernel/memory/vmm.c], [kernel/memory/vmm.h])

    Four-level x86-64 page tables.  A [page_table *] is the kernel virtual
    address of a frame in the direct map (HHDM); [mem] holds the 64-bit words
    the kernel has stored there, so reading a word that was never written is a
    [Fault].  The state also carries [g_kernel_address_space], the frame
    allocator and the CR3 and PAT registers; the TLB is not modelled. *)
From S2P Require Import Prelude Pmm.
Import Pmm.

Module Vmm.

(** ** Constants *)

Definition KERNEL_BASE : Z := 0xFFFFFFFF80000000.
Definition HHDM_BASE : Z := 0xFFFF800000000000.
Definition FB_BASE : Z := 0xFFFF900000000000.
Definition KERNEL_HEAP : Z := 0xFFFFA00000000000.
Definition KERNEL_STACK_TOP : Z := 0xFFFFC00000000000.
Definition KERNEL_STACK_PAGE_COUNT : Z := 0x400.
Definition PAGE_SIZE : Z := 0x1000.

Definition PAGE_PRESENT : Z := Z.shiftl 1 0.
Definition PAGE_WRITABLE : Z := Z.shiftl 1 1.
Definition PAGE_USER : Z := Z.shiftl 1 2.
Definition PAGE_PAT : Z := Z.shiftl 1 7.
Definition PAGE_WRITE_COMBINING : Z := PAGE_PAT.
Definition PAGE_ADDR_MASK : Z := 0x000FFFFFFFFFF000.

Definition PHYS_TO_HHDM (p : Z) : Z := u64 (p + HHDM_BASE).
Definition HHDM_TO_PHYS (v : Z) : Z := u64 (v - HHDM_BASE).

(** ** State *)

Record address_space := mkSpace { pml4_phys : Z; pml4 : Z }.

Record vmm_state := mkVmm {
  pmm : pmm_state_t;
  mem : gmap Z Z;
  g_kernel_address_space : address_space;
  cr3 : Z;
  msr_pat : Z
}.

Definition set_pmm (p : pmm_state_t) (s : vmm_state) : vmm_state :=
  mkVmm p (mem s) (g_kernel_address_space s) (cr3 s) (msr_pat s).
Definition set_mem (m : gmap Z Z) (s : vmm_state) : vmm_state :=
  mkVmm (pmm s) m (g_kernel_address_space s) (cr3 s) (msr_pat s).
Definition set_kspace (k : address_space) (s : vmm_state) : vmm_state :=
  mkVmm (pmm s) (mem s) k (cr3 s) (msr_pat s).
Definition set_cr3 (v : Z) (s : vmm_state) : vmm_state :=
  mkVmm (pmm s) (mem s) (g_kernel_address_space s) v (msr_pat s).
Definition set_pat (v : Z) (s : vmm_state) : vmm_state :=
  mkVmm (pmm s) (mem s) (g_kernel_address_space s) (cr3 s) v.

(** A call into the frame allocator. *)
Definition on_pmm {A : Type} (m : M pmm_state_t A) : M vmm_state A := zoom pmm set_pmm m.

Definition load (a : Z) : M vmm_state Z :=
  λ s, match mem s !! a with Some w => Ok (w, s) | None => Fault end.
Definition store (a v : Z) : M vmm_state unit :=
  modify (λ s, set_mem (<[a := v]> (mem s)) s).

(** [table->entries[index]] *)
Definition entry_addr (table index : Z) : Z := table + 8 * index.

Definition memset64 (ptr value count : Z) : M vmm_state unit :=
  for_range (Z.to_nat count) 0 (λ i, store (entry_addr ptr i) value).

(** ** Operations *)

Definition alloc_table : M vmm_state Z :=
  phys ← on_pmm pmm_alloc_page;
  if phys =? 0 then panic "Failed to allocate page table"
  else
    let table := PHYS_TO_HHDM phys in
    memset64 table 0 512 ;;
    mret table.

Definition get_or_create (table index flags : Z) : M vmm_state Z :=
  entry ← load (entry_addr table index);
  if truthy (Z.land entry PAGE_PRESENT) then
    mret (PHYS_TO_HHDM (Z.land entry PAGE_ADDR_MASK))
  else
    next ← alloc_table;
    store (entry_addr table index)
          (Z.lor (Z.lor (Z.lor (Z.land (HHDM_TO_PHYS next) PAGE_ADDR_MASK) PAGE_PRESENT)
                        PAGE_WRITABLE) (Z.land flags PAGE_USER)) ;;
    mret next.

(** The null pointer is [None]. *)
Definition get_table (table index : Z) : M vmm_state (option Z) :=
  entry ← load (entry_addr table index);
  if truthy (Z.land entry PAGE_PRESENT) then
    mret (Some (PHYS_TO_HHDM (Z.land entry PAGE_ADDR_MASK)))
  else mret None.

Definition pml4_index (virt : Z) : Z := Z.land (Z.shiftr virt 39) 0x1FF.
Definition pdpt_index (virt : Z) : Z := Z.land (Z.shiftr virt 30) 0x1FF.
Definition pd_index (virt : Z) : Z := Z.land (Z.shiftr virt 21) 0x1FF.
Definition pt_index (virt : Z) : Z := Z.land (Z.shiftr virt 12) 0x1FF.

(** The three [get_table] steps shared by unmapping and translation. *)
Definition walk (space : address_space) (virt : Z) : M vmm_state (option Z) :=
  pdpt ← get_table (pml4 space) (pml4_index virt);
  match pdpt with
  | None => mret None
  | Some pdpt =>
      pd ← get_table pdpt (pdpt_index virt);
      match pd with
      | None => mret None
      | Some pd => get_table pd (pd_index virt)
      end
  end.

Definition unmap_page (space : address_space) (virt : Z) : M vmm_state unit :=
  pt ← walk space virt;
  match pt with
  | None => mret tt
  | Some pt =>
      entry ← load (entry_addr pt (pt_index virt));
      on_pmm (pmm_free_page (Z.land entry PAGE_ADDR_MASK)) ;;
      store (entry_addr pt (pt_index virt)) 0
  end.

Definition vmm_unmap_and_free_pages (space : address_space) (virtual_addr page_count : Z)
    : M vmm_state unit :=
  for_range (Z.to_nat page_count) 0 (λ i,
    unmap_page space (u64 (virtual_addr + i * PAGE_SIZE))).

Definition map_page (space : address_space) (virt phys flags : Z) : M vmm_state unit :=
  pdpt ← get_or_create (pml4 space) (pml4_index virt) flags;
  pd ← get_or_create pdpt (pdpt_index virt) flags;
  pt ← get_or_create pd (pd_index virt) flags;
  store (entry_addr pt (pt_index virt))
        (Z.lor (Z.lor (Z.land phys PAGE_ADDR_MASK) flags) PAGE_PRESENT).

Definition vmm_map_pages (space : address_space) (virtual_addr phys_addr page_count flags : Z)
    : M vmm_state unit :=
  for_range (Z.to_nat page_count) 0 (λ i,
    map_page space (u64 (virtual_addr + i * PAGE_SIZE)) (u64 (phys_addr + i * PAGE_SIZE)) flags).

Definition vmm_map_bytes (space : address_space) (virtual_addr phys_addr size flags : Z)
    : M vmm_state unit :=
  let page_count := u64 (size + PAGE_SIZE - 1) / PAGE_SIZE in
  vmm_map_pages space virtual_addr phys_addr page_count flags.

Definition vmm_mount_address_space (space : address_space) : M vmm_state unit :=
  modify (set_cr3 (pml4_phys space)).

Definition vmm_switch_address_space (space : address_space) : M vmm_state unit :=
  vmm_mount_address_space space.

Definition vmm_destroy_address_space (space : address_space) : M vmm_state unit :=
  panic "vmm_destroy_address_space is not implemented!".

Definition vmm_map_kernel_image (kernel_start kernel_end : Z) (space : address_space)
    : M vmm_state unit :=
  vmm_map_bytes space KERNEL_BASE kernel_start (u64 (kernel_end - kernel_start))
                (Z.lor PAGE_PRESENT PAGE_WRITABLE).

Definition vmm_map_low_identity (space : address_space) : M vmm_state unit :=
  vmm_map_bytes space 0 0 4000000 (Z.lor PAGE_PRESENT PAGE_WRITABLE).

Definition PAT_VALUE : Z := 0x0007050100070406.
Definition vmm_pat_init : M vmm_state unit := modify (set_pat PAT_VALUE).

(** The [BootInfo] fields used here; [pitch * height] is a [uint] product. *)
Record framebuffer := mkFb { framebuffer_base : Z; framebuffer_pitch : Z; framebuffer_height : Z }.

Definition vmm_map_framebuffer (space : address_space) (fb : framebuffer) : M vmm_state unit :=
  let fb_size := u32 (framebuffer_pitch fb * framebuffer_height fb) in
  vmm_map_bytes space FB_BASE (framebuffer_base fb) fb_size
                (Z.lor PAGE_WRITABLE PAGE_WRITE_COMBINING).

Definition vmm_map_hhdm (space : address_space) : M vmm_state unit :=
  max_address ← on_pmm pmm_get_max_address;
  vmm_map_bytes space HHDM_BASE 0 max_address PAGE_WRITABLE.

Definition vmm_setup_stack : M vmm_state Z :=
  phys_stack_addr ← on_pmm (pmm_alloc_pages KERNEL_STACK_PAGE_COUNT);
  if phys_stack_addr =? 0 then panic "Cannot allocate stack pages!"
  else
    let virt_stack_base := KERNEL_STACK_TOP - KERNEL_STACK_PAGE_COUNT * PAGE_SIZE in
    k ← gets g_kernel_address_space;
    vmm_map_pages k virt_stack_base phys_stack_addr KERNEL_STACK_PAGE_COUNT
                  (Z.lor PAGE_PRESENT PAGE_WRITABLE) ;;
    mret KERNEL_STACK_TOP.

Definition vmm_init (kernel_start kernel_end : Z) (fb : framebuffer) : M vmm_state unit :=
  phys ← on_pmm pmm_alloc_page;
  if phys =? 0 then panic "Cannot allocate pml4 for kernel address space"
  else
    modify (set_kspace (mkSpace phys (PHYS_TO_HHDM phys))) ;;
    memset64 (PHYS_TO_HHDM phys) 0 512 ;;
    vmm_pat_init ;;
    k ← gets g_kernel_address_space;
    vmm_map_kernel_image kernel_start kernel_end k ;;
    vmm_map_framebuffer k fb ;;
    vmm_map_hhdm k ;;
    vmm_map_low_identity k ;;
    vmm_setup_stack ;;
    vmm_mount_address_space k.

Definition vmm_virt_to_phys (space : address_space) (virt : Z) : M vmm_state Z :=
  let offset := Z.land virt 0xFFF in
  pt ← walk space virt;
  match pt with
  | None => mret 0
  | Some pt =>
      entry ← load (entry_addr pt (pt_index virt));
      if truthy (Z.land entry PAGE_PRESENT)
      then mret (Z.lor (Z.land entry PAGE_ADDR_MASK) offset)
      else mret 0
  end.

(** [SIZE_TO_PAGE_COUNT(size)] *)
Definition size_to_page_count (size : Z) : Z := u64 (size + PAGE_SIZE - 1) / PAGE_SIZE.

Definition vmm_kernel_heap_alloc (offset size : Z) : M vmm_state unit :=
  let page_count := size_to_page_count size in
  phys_addr ← on_pmm (pmm_alloc_pages page_count);
  k ← gets g_kernel_address_space;
  vmm_map_pages k (u64 (KERNEL_HEAP + offset)) phys_addr page_count PAGE_WRITABLE.

Definition vmm_kernel_heap_free (offset size : Z) : M vmm_state unit :=
  let page_count := size_to_page_count size in
  k ← gets g_kernel_address_space;
  vmm_unmap_and_free_pages k (u64 (KERNEL_HEAP + offset)) page_count.

(** ** Page-table trees *)

(** The present bit of an entry. *)
Definition present (w : Z) : bool := Z.testbit w 0.
Arguments present : simpl never.

Lemma present_bit w : truthy (Z.land w PAGE_PRESENT) = present w.
Proof.
  unfold present.
  change PAGE_PRESENT with 1. rewrite <- (Z.shiftr_0_r w) at 1.
  rewrite land_1_testbit by lia. by destruct (Z.testbit w 0).
Qed.

Lemma hhdm_phys f : 0 ≤ f < 2 ^ 47 → PHYS_TO_HHDM f = f + HHDM_BASE.
Proof. intros Hf. unfold PHYS_TO_HHDM, HHDM_BASE. apply u64_small. lia. Qed.

Lemma phys_hhdm f : 0 ≤ f < 2 ^ 47 → HHDM_TO_PHYS (PHYS_TO_HHDM f) = f.
Proof.
  intros Hf. rewrite hhdm_phys by done. unfold HHDM_TO_PHYS.
  replace (f + HHDM_BASE - HHDM_BASE) with f by lia. apply u64_small. lia.
Qed.

Lemma load_ok s a w : mem s !! a = Some w → load a s = Ok (w, s).
Proof. intros H. unfold load. by rewrite H. Qed.

(** The physical address bits of an entry. *)
Lemma addr_mask_testbit n : 0 ≤ n → Z.testbit PAGE_ADDR_MASK n = (12 <=? n) && (n <? 52).
Proof.
  intros Hn. change PAGE_ADDR_MASK with (Z.shiftl (Z.ones 40) 12).
  rewrite Z.shiftl_spec by done. destruct (Z.leb_spec 12 n); simpl.
  - destruct (Z.ltb_spec n 52); [apply Z.ones_spec_low|apply Z.ones_spec_high]; lia.
  - apply Z.testbit_neg_r. lia.
Qed.

Lemma land_addr_mask a : 0 ≤ a → Z.land a PAGE_ADDR_MASK = (a / 4096 * 4096) mod 2 ^ 52.
Proof.
  intros Ha. apply Z.bits_inj'. intros n Hn. rewrite Z.land_spec, addr_mask_testbit by done.
  rewrite testbit_mod_pow2 by lia.
  replace (a / 4096 * 4096) with (Z.shiftl (Z.shiftr a 12) 12)
    by (rewrite Z.shiftl_mul_pow2, Z.shiftr_div_pow2 by lia; done).
  rewrite Z.shiftl_spec by done. destruct (Z.leb_spec 12 n); simpl.
  - rewrite Z.shiftr_spec by lia. replace (n - 12 + 12) with n by lia. apply andb_comm.
  - rewrite (Z.testbit_neg_r _ (n - 12)) by lia. by rewrite !andb_false_r.
Qed.

Lemma land_addr_mask_frame f : 0 ≤ f < 2 ^ 47 → f mod 4096 = 0 → Z.land f PAGE_ADDR_MASK = f.
Proof. intros Hf Ha. rewrite land_addr_mask by lia. rewrite Z.mod_small; dlia. Qed.

(** A frame that holds a page table: in use, within the direct map. *)
Definition frame_ok (p : pmm_state_t) (f : Z) : Prop :=
  0 ≤ f ∧ f mod 4096 = 0 ∧ f / 4096 < page_count p ∧ used p (f / 4096) = true.

(** [T] names the table frame reached by each path of table indices from the
    root: distinct paths reach distinct frames, and an entry of a non-leaf
    table is present exactly when the extended path is in [T]. *)
Record tree (s : vmm_state) (root : Z) (T : gmap (list Z) Z) : Prop := {
  t_root : T !! [] = Some root;
  t_frame : ∀ p f, T !! p = Some f → frame_ok (pmm s) f;
  t_words : ∀ p f i, T !! p = Some f → 0 ≤ i < 512 →
            is_Some (mem s !! entry_addr (PHYS_TO_HHDM f) i);
  t_inj : ∀ p q f, T !! p = Some f → T !! q = Some f → p = q;
  t_next : ∀ p f i w, T !! p = Some f → (length p < 3)%nat → 0 ≤ i < 512 →
           mem s !! entry_addr (PHYS_TO_HHDM f) i = Some w →
           T !! (p ++ [i]) = if present w then Some (Z.land w PAGE_ADDR_MASK) else None;
  t_pre : ∀ p i f, T !! (p ++ [i]) = Some f → 0 ≤ i < 512 ∧ (length p < 3)%nat ∧ is_Some (T !! p)
}.

(** An address space over a well-formed allocator of at most 128 TiB. *)
Record vspace (s : vmm_state) (root : Z) (T : gmap (list Z) Z) : Prop := {
  vs_pmm : pmm_wf (pmm s);
  vs_max : page_count (pmm s) ≤ 2 ^ 35;
  vs_tree : tree s root T
}.

Definition space_at (root : Z) : address_space := mkSpace root (PHYS_TO_HHDM root).

(** Table indices of an address, and its 36-bit page number. *)
Definition vpath (v : Z) : list Z := [pml4_index v; pdpt_index v; pd_index v].
Definition vpn (v : Z) : Z := (v / 4096) mod 2 ^ 36.

(** The present leaf entry for an address. *)
Definition xlate (s : vmm_state) (T : gmap (list Z) Z) (v : Z) : option Z :=
  pt ← T !! vpath v;
  w ← mem s !! entry_addr (PHYS_TO_HHDM pt) (pt_index v);
  if present w then Some w else None.

Lemma index_range v n : 0 ≤ Z.land (Z.shiftr v n) 0x1FF < 512.
Proof.
  change 0x1FF with (Z.ones 9). rewrite Z.land_ones by lia.
  apply Z.mod_pos_bound. lia.
Qed.

Lemma vpn_indices v :
  vpn v = pt_index v + 512 * (pd_index v + 512 * (pdpt_index v + 512 * pml4_index v)).
Proof.
  unfold vpn, pt_index, pd_index, pdpt_index, pml4_index. change 0x1FF with (Z.ones 9).
  rewrite !Z.land_ones, !Z.shiftr_div_pow2 by lia. dlia.
Qed.

Lemma vpn_path v w : vpn v = vpn w ↔ vpath v = vpath w ∧ pt_index v = pt_index w.
Proof.
  split.
  - rewrite !vpn_indices. intros H.
    pose proof (index_range v 12). pose proof (index_range v 21). pose proof (index_range v 30).
    pose proof (index_range w 12). pose proof (index_range w 21). pose proof (index_range w 30).
    fold (pt_index v) (pd_index v) (pdpt_index v) (pt_index w) (pd_index w) (pdpt_index w) in *.
    assert (pt_index v = pt_index w) by lia. assert (pd_index v = pd_index w) by lia.
    assert (pdpt_index v = pdpt_index w) by lia. assert (pml4_index v = pml4_index w) by lia.
    unfold vpath. by split; [f_equal; [|f_equal; [|f_equal]]|].
  - unfold vpath. intros [[= H1 H2 H3] H4]. rewrite !vpn_indices. by rewrite H1, H2, H3, H4.
Qed.

Section tree_facts.
Context {s : vmm_state} {root : Z} {T : gmap (list Z) Z}.
Context (Hvs : vspace s root T).

Lemma frame_bound p f : T !! p = Some f → 0 ≤ f < 2 ^ 47 ∧ f mod 4096 = 0.
Proof.
  intros Hf. destruct (t_frame _ _ _ (vs_tree _ _ _ Hvs) p f Hf) as (? & ? & ? & _).
  pose proof (vs_max _ _ _ Hvs). split; [|done]. dlia.
Qed.

Lemma word_inj f g i j :
  0 ≤ f < 2 ^ 47 → f mod 4096 = 0 → 0 ≤ g < 2 ^ 47 → g mod 4096 = 0 →
  0 ≤ i < 512 → 0 ≤ j < 512 →
  entry_addr (PHYS_TO_HHDM f) i = entry_addr (PHYS_TO_HHDM g) j → f = g ∧ i = j.
Proof.
  intros Hf Hfa Hg Hga Hi Hj. unfold entry_addr. rewrite !hhdm_phys by done. dlia.
Qed.

Lemma get_table_ok p f i : T !! p = Some f → (length p < 3)%nat → 0 ≤ i < 512 →
  get_table (PHYS_TO_HHDM f) i s = Ok (PHYS_TO_HHDM <$> T !! (p ++ [i]), s).
Proof.
  intros Hp Hl Hi. destruct (vs_tree _ _ _ Hvs) as [_ _ Hw _ Hn _].
  destruct (Hw p f i Hp Hi) as [w Hwi]. rewrite (Hn p f i w Hp Hl Hi Hwi).
  unfold get_table. rewrite (bind_of_ok _ _ _ _ _ (load_ok _ _ _ Hwi)), present_bit.
  by destruct (present w).
Qed.

Lemma no_prefix p i j : T !! (p ++ [i]) = None → T !! ((p ++ [i]) ++ [j]) = None.
Proof.
  intros Hn. destruct (T !! ((p ++ [i]) ++ [j])) as [f|] eqn:E; [|done].
  destruct (t_pre _ _ _ (vs_tree _ _ _ Hvs) _ _ _ E) as (_ & _ & [g Hg]). congruence.
Qed.

Lemma walk_ok v : walk (space_at root) v s = Ok (PHYS_TO_HHDM <$> T !! vpath v, s).
Proof.
  pose proof (t_root _ _ _ (vs_tree _ _ _ Hvs)) as Hr. unfold walk, vpath. simpl pml4.
  rewrite (bind_of_ok _ _ _ _ _ (get_table_ok [] root _ Hr ltac:(simpl; lia) (index_range v 39))).
  simpl. fold (pml4_index v). destruct (T !! [pml4_index v]) as [f1|] eqn:E1; simpl; last first.
  { pose proof (no_prefix [pml4_index v] (pdpt_index v) (pd_index v)
      (no_prefix [] (pml4_index v) (pdpt_index v) E1)) as Hn. simpl in Hn. by rewrite Hn. }
  rewrite (bind_of_ok _ _ _ _ _ (get_table_ok [_] f1 _ E1 ltac:(simpl; lia) (index_range v 30))).
  simpl. fold (pdpt_index v). destruct (T !! [pml4_index v; pdpt_index v]) as [f2|] eqn:E2; simpl; last first.
  { pose proof (no_prefix [pml4_index v] (pdpt_index v) (pd_index v) E2) as Hn.
    simpl in Hn. by rewrite Hn. }
  exact (get_table_ok [_; _] f2 _ E2 ltac:(simpl; lia) (index_range v 21)).
Qed.

(** Translation reads the leaf entry. *)
Lemma virt_to_phys_ok v :
  vmm_virt_to_phys (space_at root) v s =
  Ok (match xlate s T v with
      | Some w => Z.lor (Z.land w PAGE_ADDR_MASK) (Z.land v 0xFFF)
      | None => 0
      end, s).
Proof.
  unfold vmm_virt_to_phys, xlate. rewrite (bind_of_ok _ _ _ _ _ (walk_ok v)).
  destruct (T !! vpath v) as [pt|] eqn:E; simpl; [|done].
  destruct (t_words _ _ _ (vs_tree _ _ _ Hvs) _ _ _ E (index_range v 12)) as [w Hw].
  fold (pt_index v) in Hw. rewrite (bind_of_ok _ _ _ _ _ (load_ok _ _ _ Hw)), present_bit, Hw.
  simpl. by destruct (present w).
Qed.
End tree_facts.

(** ** Creating tables *)

(** [a] is one of the [n] words from [ptr]. *)
Definition in_words (ptr n a : Z) : Prop := ∃ i, 0 ≤ i < n ∧ a = entry_addr ptr i.

Lemma in_words_range ptr n a : in_words ptr n a ↔ 0 ≤ a - ptr < 8 * n ∧ (a - ptr) mod 8 = 0.
Proof.
  unfold in_words, entry_addr. split.
  - intros (i & Hi & ->). split; [lia|]. replace (ptr + 8 * i - ptr) with (i * 8) by lia. by apply Z.mod_mul.
  - intros [Hr Hm]. exists ((a - ptr) / 8). split; dlia.
Qed.
#[export] Instance in_words_dec ptr n a : Decision (in_words ptr n a).
Proof. refine (cast_if (decide (0 ≤ a - ptr < 8 * n ∧ (a - ptr) mod 8 = 0))); by rewrite in_words_range. Defined.

Lemma memset64_ok s ptr v n :
  0 ≤ n →
  wp (memset64 ptr v n) (λ _ s', ∃ m, s' = set_mem m s ∧
    (∀ i, 0 ≤ i < n → m !! entry_addr ptr i = Some v) ∧
    (∀ a, ¬ in_words ptr n a → m !! a = mem s !! a)) never s.
Proof.
  intros Hn. unfold memset64.
  eapply wp_mono; [apply (for_range_inv (λ k t, 0 ≤ k ∧ ∃ m, t = set_mem m s ∧
    (∀ i, 0 ≤ i < k → m !! entry_addr ptr i = Some v) ∧
    (∀ a, ¬ in_words ptr k a → m !! a = mem s !! a)))| |done].
  - split; [lia|]. exists (mem s). split; [by destruct s|]. split; [lia|done].
  - intros i t Hi [_ (m & -> & Hin & Hout)]. unfold store. wp_steps. split; [lia|].
    eexists. split; [reflexivity|]. split.
    + intros j Hj. simpl. destruct (decide (i = j)) as [->|]; [apply lookup_insert_eq|].
      rewrite lookup_insert_ne by (unfold entry_addr; lia). apply Hin. lia.
    + intros a Ha. simpl. rewrite lookup_insert_ne.
      * apply Hout. intros (j & Hj & ->). apply Ha. exists j. split; [lia|done].
      * intros <-. apply Ha. exists i. split; [lia|done].
  - intros [] s' [_ H]. by replace (0 + Z.of_nat (Z.to_nat n)) with n in H by lia.
Qed.

(** Frames in use stay in use; the managed range does not move. *)
Record grows (p p' : pmm_state_t) : Prop := {
  gw_pages : page_count p' = page_count p;
  gw_used : ∀ j, 0 ≤ j → used p j = true → used p' j = true;
  gw_max : max_address p' = max_address p
}.

Lemma grows_refl p : grows p p.
Proof. done. Qed.
Lemma grows_trans p1 p2 p3 : grows p1 p2 → grows p2 p3 → grows p1 p3.
Proof. intros [H1 U1 X1] [H2 U2 X2]. split; [congruence|auto|congruence]. Qed.
Lemma takes_grows p p' q k : takes p p' q k → grows p p'.
Proof.
  intros [Hl _ _ Hu]. split; [apply Hl| |apply Hl]. intros j Hj Hj'. rewrite Hu by done.
  by rewrite Hj', orb_true_r.
Qed.

Definition map_errors (e : string) : Prop :=
  e = "Out of memory!" ∨ e = "Failed to allocate page table".

Lemma alloc_table_ok s :
  pmm_wf (pmm s) → page_count (pmm s) ≤ 2 ^ 35 →
  wp alloc_table (λ next s', ∃ f pm m,
    next = PHYS_TO_HHDM f ∧ s' = set_mem m (set_pmm pm s) ∧
    0 ≤ f < 2 ^ 47 ∧ f mod 4096 = 0 ∧ f / 4096 < page_count (pmm s) ∧
    pmm_wf pm ∧ takes (pmm s) pm (f / 4096) 1 ∧
    (∀ i, 0 ≤ i < 512 → m !! entry_addr next i = Some 0) ∧
    (∀ a, ¬ in_words next 512 a → m !! a = mem s !! a)) map_errors s.
Proof.
  intros Hwf Hmax. unfold alloc_table. apply wp_bind.
  apply wp_zoom. eapply wp_mono; [by apply alloc_page_ok| |by intros e [-> _]; left].
  intros a pm (p & -> & Hwf' & Htk). pose proof (tk_range _ _ _ _ Htk) as [Hp0 Hp1]. cbv beta.
  destruct (Z.eqb_spec (p * 4096) 0); [by right|].
  apply wp_bind. eapply wp_mono; [apply memset64_ok; lia| |done].
  intros [] s' (m & -> & Hin & Hout). apply wp_ret.
  exists (p * 4096), pm, m. rewrite Z.div_mul, Z.mod_mul by lia.
  do 5 (split; [done || lia|]). auto.
Qed.

(** The effect of one table-creation step on the tree and the translation. *)
Record grown (s s' : vmm_state) (root : Z) (T T' : gmap (list Z) Z) : Prop := {
  gr_space : vspace s' root T';
  gr_sub : T ⊆ T';
  gr_pmm : grows (pmm s) (pmm s');
  gr_new : ∀ q h, T' !! q = Some h → T !! q = Some h ∨ used (pmm s) (h / 4096) = false;
  gr_xlate : ∀ v, xlate s' T' v = xlate s T v;
  gr_kspace : g_kernel_address_space s' = g_kernel_address_space s
}.

Lemma grown_refl s root T : vspace s root T → grown s s root T T.
Proof. split; [done|done|done|by left|done|done]. Qed.
(** A table frame new in the second step was free before the first. *)
Lemma new_trans (P : Prop) p1 p2 h :
  0 ≤ h → grows p1 p2 → used p2 (h / 4096) = false → P ∨ used p1 (h / 4096) = false.
Proof.
  intros Hh [_ Hg _] Hu. right. destruct (used p1 (h / 4096)) eqn:E; [|done].
  rewrite Hg in Hu by (done || dlia). done.
Qed.
Lemma grown_trans s1 s2 s3 root T1 T2 T3 :
  grown s1 s2 root T1 T2 → grown s2 s3 root T2 T3 → grown s1 s3 root T1 T3.
Proof.
  intros [V1 S1 P1 N1 X1 K1] [V2 S2 P2 N2 X2 K2].
  split; [done|by etrans|by eapply grows_trans| | |congruence].
  - intros q h Hq. destruct (frame_bound V2 _ _ Hq) as [Hb _].
    destruct (N2 q h Hq) as [Hq2|Hu]; [by apply N1|]. eapply new_trans; [lia|done..].
  - intros v. by rewrite X2, X1.
Qed.

(** The entry [get_or_create] installs points back at the new frame. *)
Lemma table_entry f flags : 0 ≤ f < 2 ^ 47 → f mod 4096 = 0 →
  let w := Z.lor (Z.lor (Z.lor (Z.land (HHDM_TO_PHYS (PHYS_TO_HHDM f)) PAGE_ADDR_MASK) PAGE_PRESENT)
                        PAGE_WRITABLE) (Z.land flags PAGE_USER) in
  present w = true ∧ Z.land w PAGE_ADDR_MASK = f.
Proof.
  intros Hf Ha w. unfold w. rewrite phys_hhdm, land_addr_mask_frame by done. split.
  - unfold present. by rewrite !Z.lor_spec, orb_true_r.
  - rewrite !Z.land_lor_distr_l, land_addr_mask_frame by done.
    rewrite <- Z.land_assoc. change (Z.land PAGE_USER PAGE_ADDR_MASK) with 0.
    change (Z.land PAGE_PRESENT PAGE_ADDR_MASK) with 0. change (Z.land PAGE_WRITABLE PAGE_ADDR_MASK) with 0.
    by rewrite Z.land_0_r, !Z.lor_0_r.
Qed.

Section extend.
Context {s : vmm_state} {root : Z} {T : gmap (list Z) Z} (Hvs : vspace s root T).
(** The path being extended, the new frame and the allocator after taking it. *)
Context (p : list Z) (f i g w : Z) (pm : pmm_state_t) (m : gmap Z Z).
Context (Hp : T !! p = Some f) (Hlen : (length p < 3)%nat) (Hi : 0 ≤ i < 512).
Context (Hnone : T !! (p ++ [i]) = None).
Context (Hg : 0 ≤ g < 2 ^ 47) (Hga : g mod 4096 = 0) (Hgp : g / 4096 < page_count (pmm s)).
Context (Hpm : pmm_wf pm) (Htk : takes (pmm s) pm (g / 4096) 1).
Context (Hzero : ∀ j, 0 ≤ j < 512 → m !! entry_addr (PHYS_TO_HHDM g) j = Some 0).
Context (Hkeep : ∀ a, ¬ in_words (PHYS_TO_HHDM g) 512 a → m !! a = mem s !! a).
Context (Hw : present w = true) (Hwg : Z.land w PAGE_ADDR_MASK = g).

Let m' : gmap Z Z := <[entry_addr (PHYS_TO_HHDM f) i := w]> m.
Let s' : vmm_state := set_mem m' (set_pmm pm s).
Let T' : gmap (list Z) Z := <[p ++ [i] := g]> T.

Lemma ext_fresh q h : T !! q = Some h → h ≠ g.
Proof.
  intros Hq ->. destruct (t_frame _ _ _ (vs_tree _ _ _ Hvs) q g Hq) as (_ & _ & _ & Hu).
  rewrite (tk_free _ _ _ _ Htk) in Hu by lia. done.
Qed.

Lemma ext_old_word q h j : T !! q = Some h → 0 ≤ j < 512 → (q, j) ≠ (p, i) →
  m' !! entry_addr (PHYS_TO_HHDM h) j = mem s !! entry_addr (PHYS_TO_HHDM h) j.
Proof.
  intros Hq Hj Hne. destruct (frame_bound Hvs _ _ Hq) as [Hh Hha].
  destruct (frame_bound Hvs _ _ Hp) as [Hf Hfa]. unfold m'.
  rewrite lookup_insert_ne; last first.
  { intros He. destruct (word_inj f h i j) as [-> ->]; try done.
    by rewrite (t_inj _ _ _ (vs_tree _ _ _ Hvs) _ _ _ Hp Hq) in Hne. }
  apply Hkeep. intros (k & Hk & He). destruct (word_inj h g j k) as [-> _]; try done.
  by apply (ext_fresh q g Hq).
Qed.

Lemma ext_new_word j : 0 ≤ j < 512 → m' !! entry_addr (PHYS_TO_HHDM g) j = Some 0.
Proof.
  intros Hj. destruct (frame_bound Hvs _ _ Hp) as [Hf Hfa]. unfold m'.
  rewrite lookup_insert_ne; [by apply Hzero|].
  intros He. destruct (word_inj f g i j) as [-> _]; try done. by apply (ext_fresh p g Hp).
Qed.

Lemma ext_lookup q h : T' !! q = Some h ↔ (q = p ++ [i] ∧ h = g) ∨ T !! q = Some h.
Proof.
  unfold T'. destruct (decide (q = p ++ [i])) as [->|Hne].
  - rewrite lookup_insert_eq, Hnone. split; [by intros [= <-]; left|by intros [[_ ->]|?]].
  - rewrite lookup_insert_ne by done. split; [by right|by intros [[? _]|?]].
Qed.

Lemma ext_next q h j v : T' !! q = Some h → (length q < 3)%nat → 0 ≤ j < 512 →
  m' !! entry_addr (PHYS_TO_HHDM h) j = Some v →
  T' !! (q ++ [j]) = if present v then Some (Z.land v PAGE_ADDR_MASK) else None.
Proof.
  intros [[-> ->]|Hq]%ext_lookup Hl Hj Hv.
  - rewrite ext_new_word in Hv by done. injection Hv as <-. unfold T'.
    rewrite lookup_insert_ne.
    + by rewrite (no_prefix Hvs).
    + intros He%(f_equal length). rewrite !length_app in He. simpl in He. lia.
  - destruct (decide ((q, j) = (p, i))) as [[= -> ->]|Hne].
    + rewrite Hp in Hq. injection Hq as <-. unfold m' in Hv.
      rewrite lookup_insert_eq in Hv. injection Hv as <-. unfold T'.
      by rewrite lookup_insert_eq, Hw, Hwg.
    + rewrite (ext_old_word q) in Hv by done. unfold T'. rewrite lookup_insert_ne.
      * by apply (t_next _ _ _ (vs_tree _ _ _ Hvs) q h).
      * intros [-> ->]%app_inj_tail. done.
Qed.

Lemma ext_tree : tree s' root T'.
Proof.
  destruct (vs_tree _ _ _ Hvs) as [Hr Hfr Hwd Hinj Hnx Hpre]. split.
  - apply ext_lookup. auto.
  - intros q h [[-> ->]|Hq]%ext_lookup.
    + split; [lia|]. split; [done|]. simpl. rewrite (sl_pages _ _ (tk_layout _ _ _ _ Htk)).
      split; [done|]. rewrite (tk_used _ _ _ _ Htk) by dlia.
      rewrite Z.leb_refl. by destruct (Z.ltb_spec (g / 4096) (g / 4096 + 1)); [|lia].
    + destruct (Hfr q h Hq) as (H0 & Ha & Hpc & Hu). destruct (takes_grows _ _ _ _ Htk) as [Hpc' Hu' _].
      split; [done|]. split; [done|]. simpl. rewrite Hpc'. split; [done|]. apply Hu'; [dlia|done].
  - intros q h j [[-> ->]|Hq]%ext_lookup Hj; simpl; [by rewrite ext_new_word|].
    destruct (decide ((q, j) = (p, i))) as [[= -> ->]|Hne]; [|by rewrite (ext_old_word q); eauto].
    rewrite Hp in Hq. injection Hq as <-. unfold m'. by rewrite lookup_insert_eq.
  - intros q1 q2 h [[-> ->]|H1]%ext_lookup [[-> ?]|H2]%ext_lookup; try done.
    + by apply ext_fresh in H2.
    + subst h. by apply ext_fresh in H1.
    + by eapply Hinj.
  - intros q h j v. apply ext_next.
  - intros q j h [[[-> ->]%app_inj_tail ->]|Hq]%ext_lookup.
    + split; [done|]. split; [done|]. exists f. apply ext_lookup. auto.
    + destruct (Hpre _ _ _ Hq) as (? & ? & [f' ?]). split; [done|]. split; [done|].
      exists f'. apply ext_lookup. auto.
Qed.

Lemma ext_xlate v : xlate s' T' v = xlate s T v.
Proof.
  unfold xlate, pt_index. change (mem s') with m'.
  destruct (decide (vpath v = p ++ [i])) as [He|Hne].
  - rewrite He, Hnone. unfold T'. rewrite lookup_insert_eq. simpl.
    by rewrite (ext_new_word _ (index_range v 12)).
  - unfold T'. rewrite lookup_insert_ne by done. destruct (T !! vpath v) as [pt|] eqn:E; [|done].
    simpl. rewrite (ext_old_word _ _ _ E (index_range v 12)); [done|].
    intros [= Hv _]. rewrite <- Hv in Hlen. simpl in Hlen. lia.
Qed.

Lemma ext_grown : grown s s' root T T'.
Proof.
  split; [split| | | | |done].
  - done.
  - simpl. rewrite (sl_pages _ _ (tk_layout _ _ _ _ Htk)). apply Hvs.
  - apply ext_tree.
  - by apply insert_subseteq.
  - by apply (takes_grows _ _ _ _ Htk).
  - intros q h [[-> ->]|Hq]%ext_lookup; [right|by left]. apply (tk_free _ _ _ _ Htk). lia.
  - apply ext_xlate.
Qed.
End extend.

Lemma get_or_create_ok s root T p f i flags :
  vspace s root T → T !! p = Some f → (length p < 3)%nat → 0 ≤ i < 512 →
  wp (get_or_create (PHYS_TO_HHDM f) i flags) (λ next s', ∃ g T',
    next = PHYS_TO_HHDM g ∧ T' !! (p ++ [i]) = Some g ∧ grown s s' root T T' ∧
    (∀ q h, T' !! q = Some h → T !! q = Some h ∨ q = p ++ [i]) ∧
    ∀ a, mem s' !! a = mem s !! a ∨ in_words (PHYS_TO_HHDM f) 512 a ∨ in_words (PHYS_TO_HHDM g) 512 a) map_errors s.
Proof.
  intros Hvs Hp Hl Hi. destruct (t_words _ _ _ (vs_tree _ _ _ Hvs) p f i Hp Hi) as [w Hw].
  pose proof (t_next _ _ _ (vs_tree _ _ _ Hvs) p f i w Hp Hl Hi Hw) as Hn.
  unfold get_or_create. apply wp_bind. eapply wp_ok; [by apply load_ok|]. cbv beta.
  rewrite present_bit. destruct (present w).
  { apply wp_ret. eexists _, T. split; [done|]. split; [done|]. split; [by apply grown_refl|]. split; by left. }
  apply wp_bind. eapply wp_mono; [apply alloc_table_ok; apply Hvs| |done].
  intros next s1 (g & pm & m & -> & -> & Hg & Hga & Hgp & Hpm & Htk & Hz & Hk).
  destruct (table_entry g flags Hg Hga) as [Hwp Hwa].
  unfold store. wp_steps. exists g, (<[p ++ [i] := g]> T).
  split; [done|]. split; [apply lookup_insert_eq|]. split; [by apply ext_grown|]. split.
  { intros q h [[<- _]|[_ Hq]]%lookup_insert_Some; [by right|by left]. }
  intros a. simpl.
  destruct (decide (a = entry_addr (PHYS_TO_HHDM f) i)) as [->|Hne]; [right; left; by exists i|].
  rewrite lookup_insert_ne by done. destruct (decide (in_words (PHYS_TO_HHDM g) 512 a)); [by right; right|left; by apply Hk].
Qed.

(** ** Leaf entries *)

Lemma leaf_store_ok s root T v pt w :
  vspace s root T → T !! vpath v = Some pt →
  let s' := set_mem (<[entry_addr (PHYS_TO_HHDM pt) (pt_index v) := w]> (mem s)) s in
  vspace s' root T ∧
  ∀ u, xlate s' T u = if vpn u =? vpn v then (if present w then Some w else None) else xlate s T u.
Proof.
  intros Hvs Hpt s'. destruct (frame_bound Hvs _ _ Hpt) as [Hb Ha].
  pose proof (index_range v 12) as Hiv. fold (pt_index v) in Hiv.
  pose proof (vs_tree _ _ _ Hvs) as [Hr Hfr Hwd Hinj Hnx Hpre].
  assert (∀ q h j, T !! q = Some h → 0 ≤ j < 512 → (q, j) ≠ (vpath v, pt_index v) →
    mem s' !! entry_addr (PHYS_TO_HHDM h) j = mem s !! entry_addr (PHYS_TO_HHDM h) j) as Hold.
  { intros q h j Hq Hj Hne. simpl. rewrite lookup_insert_ne; [done|]. intros He.
    destruct (frame_bound Hvs _ _ Hq) as [Hh Hha].
    destruct (word_inj pt h (pt_index v) j) as [E1 E2]; try done. subst h j.
    by rewrite (Hinj _ _ _ Hpt Hq) in Hne. }
  split.
  - split; [apply Hvs..|]. split; try done.
    + intros q h j Hq Hj. simpl. destruct (decide (entry_addr (PHYS_TO_HHDM pt) (pt_index v) =
        entry_addr (PHYS_TO_HHDM h) j)) as [->|Hne]; [by rewrite lookup_insert_eq|].
      rewrite lookup_insert_ne by done. eauto.
    + intros q h j x Hq Hl Hj. rewrite (Hold q); try done.
      * intros Hx. by apply (Hnx q h).
      * intros [= -> _]. simpl in Hl. lia.
  - intros u. unfold xlate. destruct (Z.eqb_spec (vpn u) (vpn v)) as [He|Hne].
    + apply vpn_path in He as [-> ->]. rewrite Hpt. simpl. by rewrite lookup_insert_eq.
    + destruct (T !! vpath u) as [h|] eqn:E; [|done]. simpl.
      pose proof (Hold _ _ (pt_index u) E (index_range u 12)) as Hk. simpl in Hk. rewrite Hk; [done|].
      intros He. apply Hne, vpn_path. by split; [apply (f_equal fst He)|apply (f_equal snd He)].
Qed.

Definition leaf_entry (phys flags : Z) : Z :=
  Z.lor (Z.lor (Z.land phys PAGE_ADDR_MASK) flags) PAGE_PRESENT.

Lemma leaf_entry_present phys flags : present (leaf_entry phys flags) = true.
Proof. unfold present, leaf_entry. by rewrite !Z.lor_spec, orb_true_r. Qed.

Lemma leaf_entry_addr phys flags :
  Z.land flags PAGE_ADDR_MASK = 0 →
  Z.land (leaf_entry phys flags) PAGE_ADDR_MASK = Z.land phys PAGE_ADDR_MASK.
Proof.
  intros Hf. unfold leaf_entry. rewrite !Z.land_lor_distr_l, Hf, <- Z.land_assoc, Z.land_diag.
  change (Z.land PAGE_PRESENT PAGE_ADDR_MASK) with 0. by rewrite !Z.lor_0_r.
Qed.

Lemma map_page_ok s root T virt phys flags :
  vspace s root T →
  wp (map_page (space_at root) virt phys flags) (λ _ s', ∃ T',
    vspace s' root T' ∧ T ⊆ T' ∧ grows (pmm s) (pmm s') ∧
    (∀ q h, T' !! q = Some h → T !! q = Some h ∨ used (pmm s) (h / 4096) = false) ∧
    g_kernel_address_space s' = g_kernel_address_space s ∧
    (∀ u, xlate s' T' u = if vpn u =? vpn virt then Some (leaf_entry phys flags) else xlate s T u) ∧
    (∀ q h, T' !! q = Some h → T !! q = Some h ∨ q `prefix_of` vpath virt) ∧
    ∀ a, mem s' !! a = mem s !! a ∨ ∃ q f, in_words (PHYS_TO_HHDM f) 512 a ∧ T' !! q = Some f ∧ q `prefix_of` vpath virt)
    map_errors s.
Proof.
  intros Hvs. pose proof (t_root _ _ _ (vs_tree _ _ _ Hvs)) as Hr. unfold map_page. simpl pml4.
  apply wp_bind. eapply wp_mono;
    [apply (get_or_create_ok s root T []); [done|done|simpl; lia|apply index_range]| |done].
  intros ? s1 (f1 & T1 & -> & H1 & G1 & P1 & F1). cbv beta. simpl in H1.
  apply wp_bind. eapply wp_mono;
    [apply (get_or_create_ok s1 root T1 [pml4_index virt]); [apply G1|exact H1|simpl; lia|apply index_range]| |done].
  intros ? s2 (f2 & T2 & -> & H2 & G2 & P2 & F2). cbv beta. simpl in H2.
  apply wp_bind. eapply wp_mono;
    [apply (get_or_create_ok s2 root T2 [pml4_index virt; pdpt_index virt]); [apply G2|exact H2|simpl; lia|apply index_range]| |done].
  intros ? s3 (pt & T3 & -> & H3 & G3 & P3 & F3). cbv beta. simpl in H3.
  pose proof (grown_trans _ _ _ _ _ _ _ (grown_trans _ _ _ _ _ _ _ G1 G2) G3) as [Hv Hs Hg Hn Hx Hk].
  destruct (leaf_store_ok s3 root T3 virt pt (leaf_entry phys flags) Hv H3) as [Hv' Hx'].
  rewrite leaf_entry_present in Hx'.
  assert (T3 !! [] = Some root ∧ T3 !! [pml4_index virt] = Some f1 ∧ T3 !! [pml4_index virt; pdpt_index virt] = Some f2) as (R0 & R1 & R2).
  { pose proof (gr_sub _ _ _ _ _ G2). pose proof (gr_sub _ _ _ _ _ G3). split_and!; [by eapply lookup_weaken| |by eapply lookup_weaken].
    by do 2 (eapply lookup_weaken; [|done]). }
  unfold store. wp_steps. exists T3. do 5 (split; [done|]). split.
  - intros u. rewrite <- Hx. apply Hx'.
  - split.
    { intros q h Hq. destruct (P3 _ _ Hq) as [Hq2| ->]; [|by right].
      destruct (P2 _ _ Hq2) as [Hq1| ->]; [|right; by exists [pd_index virt]].
      destruct (P1 _ _ Hq1) as [?| ->]; [by left|right; by exists [pdpt_index virt; pd_index virt]]. }
    intros a. simpl. destruct (decide (a = entry_addr (PHYS_TO_HHDM pt) (pt_index virt))) as [->|Hne].
    { right. exists (vpath virt), pt. split; [exists (pt_index virt); split; [apply index_range|done]|done]. }
    rewrite lookup_insert_ne by done.
    destruct (F3 a) as [->|[Hw|Hw]]; [|right; exists [pml4_index virt; pdpt_index virt], f2; split_and!; [done|done|by exists [pd_index virt]]|by right; exists (vpath virt), pt].
    destruct (F2 a) as [->|[Hw|Hw]]; [|right; exists [pml4_index virt], f1; split_and!; [done|done|by exists [pdpt_index virt; pd_index virt]]
      |right; exists [pml4_index virt; pdpt_index virt], f2; split_and!; [done|done|by exists [pd_index virt]]].
    destruct (F1 a) as [->|[Hw|Hw]]; [by left|right; exists [], root; split_and!; [done|done|apply prefix_nil]
      |right; exists [pml4_index virt], f1; split_and!; [done|done|by exists [pdpt_index virt; pd_index virt]]].
Qed.

(** The position of [u] in the run of pages from [va], modulo the 36-bit page
    number the walk decodes. *)
Definition page_off (va u : Z) : Z := (vpn u - vpn va) mod 2 ^ 36.

Lemma page_off_step va i u :
  0 ≤ i < 2 ^ 36 → (vpn u =? vpn (u64 (va + i * PAGE_SIZE))) = (page_off va u =? i).
Proof.
  intros Hi. unfold page_off, u64, PAGE_SIZE.
  assert (vpn ((va + i * 4096) mod 2 ^ 64) = (vpn va + i) mod 2 ^ 36) as ->.
  { unfold vpn. dlia. }
  assert (0 ≤ vpn u < 2 ^ 36) by (apply Z.mod_pos_bound; lia).
  assert (0 ≤ vpn va < 2 ^ 36) by (apply Z.mod_pos_bound; lia).
  destruct (Z.eqb_spec (vpn u) ((vpn va + i) mod 2 ^ 36)),
    (Z.eqb_spec ((vpn u - vpn va) mod 2 ^ 36) i); try done; exfalso; dlia.
Qed.

(** The effect of a completed [vmm_map_pages] on the translation. *)
Record mapped (s s' : vmm_state) (root va pa n flags : Z) (T T' : gmap (list Z) Z) : Prop := {
  mp_space : vspace s' root T';
  mp_sub : T ⊆ T';
  mp_pmm : grows (pmm s) (pmm s');
  mp_new : ∀ q h, T' !! q = Some h → T !! q = Some h ∨ used (pmm s) (h / 4096) = false;
  mp_kspace : g_kernel_address_space s' = g_kernel_address_space s;
  mp_xlate : ∀ u, xlate s' T' u =
    if page_off va u <? n then Some (leaf_entry (u64 (pa + page_off va u * PAGE_SIZE)) flags)
    else xlate s T u;
  mp_paths : ∀ q h, T' !! q = Some h → T !! q = Some h ∨ ∃ k, 0 ≤ k < n ∧ q `prefix_of` vpath (u64 (va + k * PAGE_SIZE));
  mp_mem : ∀ a, mem s' !! a = mem s !! a ∨ ∃ q f k, in_words (PHYS_TO_HHDM f) 512 a ∧ T' !! q = Some f ∧
    0 ≤ k < n ∧ q `prefix_of` vpath (u64 (va + k * PAGE_SIZE))
}.

Lemma map_pages_ok s root T va pa n flags :
  vspace s root T → 0 ≤ n ≤ 2 ^ 36 →
  wp (vmm_map_pages (space_at root) va pa n flags)
     (λ _ s', ∃ T', mapped s s' root va pa n flags T T') map_errors s.
Proof.
  intros Hvs Hn. unfold vmm_map_pages.
  eapply wp_mono; [apply (for_range_inv (λ k t, 0 ≤ k ∧ ∃ T', mapped s t root va pa k flags T T'))| |done].
  - split; [lia|]. exists T. split; [done|done|by apply grows_refl|by left|done| |by left|by left].
    intros u. assert (0 ≤ page_off va u) by (apply Z.mod_pos_bound; lia).
    by destruct (Z.ltb_spec (page_off va u) 0); [lia|].
  - intros i t Hi [_ (T1 & [V1 S1 P1 N1 K1 X1 Q1 F1])].
    eapply wp_mono; [by apply (map_page_ok t root T1)| |done].
    intros [] t' (T2 & V2 & S2 & P2 & N2 & K2 & X2 & Q2 & F2). split; [lia|]. exists T2.
    split; [done|by etrans|by eapply grows_trans| |congruence| | |].
    { intros q h Hq. destruct (frame_bound V2 _ _ Hq) as [Hb _].
      destruct (N2 q h Hq) as [Hq1|Hu]; [by apply N1|]. eapply new_trans; [lia|done..]. }
    { intros u. rewrite X2, page_off_step by lia.
      destruct (Z.eqb_spec (page_off va u) i) as [He|Hne].
      - rewrite He. by destruct (Z.ltb_spec i (i + 1)); [|lia].
      - rewrite X1. by destruct (Z.ltb_spec (page_off va u) i), (Z.ltb_spec (page_off va u) (i + 1)); try lia. }
    { intros q h Hq. destruct (Q2 _ _ Hq) as [Hq1|?]; [|right; exists i; split; [lia|done]].
      destruct (Q1 _ _ Hq1) as [?|(k & ? & ?)]; [by left|right; exists k; split; [lia|done]]. }
    intros a. destruct (F2 a) as [->|(q & f & Hw & Hq & Hpre)]; [|right; exists q, f, i; split_and!; (done || lia)].
    destruct (F1 a) as [->|(q & f & k & Hw & Hq & Hk & Hpre)]; [by left|]. right. exists q, f, k. split_and!; try (done || lia).
    by eapply lookup_weaken.
  - intros [] s' [_ H]. by replace (0 + Z.of_nat (Z.to_nat n)) with n in H by lia.
Qed.

(** ** Unmapping *)

Lemma vspace_pmm s root T pm f :
  vspace s root T → pmm_wf pm → releases (pmm s) pm (f / 4096) →
  (∀ q h, T !! q = Some h → h / 4096 ≠ f / 4096) →
  vspace (set_pmm pm s) root T.
Proof.
  intros Hvs Hpm Hrl Hd. pose proof (rl_layout _ _ _ Hrl) as Hl.
  destruct Hvs as [_ Hm [Hr Hfr Hwd Hinj Hnx Hpre]]. split; simpl.
  - done.
  - by rewrite (sl_pages _ _ Hl).
  - split; try done. intros q h Hq. destruct (Hfr q h Hq) as (H0 & Ha & Hp & Hu).
    split; [done|]. split; [done|]. simpl. rewrite (sl_pages _ _ Hl). split; [done|].
    rewrite (rl_free _ _ _ Hrl), Hu by dlia. specialize (Hd q h Hq).
    by destruct (Z.eqb_spec (h / 4096) (f / 4096)).
Qed.

Lemma vspace_takes s root T pm f n :
  vspace s root T → pmm_wf pm → takes (pmm s) pm f n → vspace (set_pmm pm s) root T.
Proof.
  intros [_ Hm [Hr Hfr Hwd Hinj Hnx Hpre]] Hpm Htk. pose proof (takes_grows _ _ _ _ Htk) as [G1 G2 _].
  split; simpl; [done|lia|]. split; try done. intros q h Hq.
  destruct (Hfr q h Hq) as (H0 & Ha & Hp & Hu). split; [done|]. split; [done|]. simpl.
  rewrite G1. split; [done|]. apply G2; [dlia|done].
Qed.

(** Unmapping one address whose leaf word [w] names the in-use frame [f], not
    itself a page table. *)
Lemma unmap_page_ok s root T v pt w f :
  vspace s root T → T !! vpath v = Some pt →
  mem s !! entry_addr (PHYS_TO_HHDM pt) (pt_index v) = Some w →
  Z.land w PAGE_ADDR_MASK = f * 4096 → 0 ≤ f < page_count (pmm s) → used (pmm s) f = true →
  (∀ q h, T !! q = Some h → h / 4096 ≠ f) →
  ∃ s', unmap_page (space_at root) v s = Ok (tt, s') ∧ vspace s' root T ∧
        releases (pmm s) (pmm s') f ∧
        ∀ u, xlate s' T u = if vpn u =? vpn v then None else xlate s T u.
Proof.
  intros Hvs Hpt Hw Hf Hfr Hu Hd.
  destruct (free_page_ok (pmm s) f (vs_pmm _ _ _ Hvs) Hfr Hu) as (pm & Hfree & Hpm & Hrl & _).
  unfold unmap_page. rewrite (bind_of_ok _ _ _ _ _ (walk_ok Hvs v)), Hpt. simpl.
  rewrite (bind_of_ok _ _ _ _ _ (load_ok _ _ _ Hw)), Hf.
  unfold mbind, M_bind, on_pmm, zoom. rewrite Hfree. unfold store, modify.
  assert (vspace (set_pmm pm s) root T) as Hvs1.
  { apply (vspace_pmm s root T pm (f * 4096)); [done|done| |]; rewrite Z.div_mul by lia; done. }
  destruct (leaf_store_ok _ _ _ v pt 0 Hvs1 Hpt) as [Hvs2 Hx].
  eexists. split; [reflexivity|]. split; [exact Hvs2|]. split; [done|]. exact Hx.
Qed.

(** The leaf word of page [i] of the run at [va] is [leaf_entry ((p + i) * 4096)]
    for every [i], and those frames are in use and hold no page table. *)
Record backed (s : vmm_state) (root : Z) (T : gmap (list Z) Z) (va p n : Z) (flags : Z) : Prop := {
  bk_xlate : ∀ u, page_off va u < n → xlate s T u = Some (leaf_entry ((p + page_off va u) * 4096) flags);
  bk_range : 0 ≤ p ∧ p + n ≤ page_count (pmm s);
  bk_used : ∀ j, p ≤ j < p + n → used (pmm s) j = true;
  bk_table : ∀ q h, T !! q = Some h → ¬ (p ≤ h / 4096 < p + n)
}.

Lemma xlate_word s T u w : xlate s T u = Some w →
  ∃ pt, T !! vpath u = Some pt ∧ mem s !! entry_addr (PHYS_TO_HHDM pt) (pt_index u) = Some w.
Proof.
  unfold xlate. destruct (T !! vpath u) as [pt|]; simpl; [|done].
  destruct (mem s !! _) as [w'|] eqn:E; simpl; [|done].
  destruct (present w'); [|done]. intros [= ->]. eauto.
Qed.

Lemma page_off_at va i : 0 ≤ i < 2 ^ 36 → page_off va (u64 (va + i * PAGE_SIZE)) = i.
Proof.
  intros Hi. pose proof (page_off_step va i (u64 (va + i * PAGE_SIZE)) Hi) as H.
  rewrite Z.eqb_refl in H. symmetry in H. by apply Z.eqb_eq in H.
Qed.

Lemma unmap_run_ok s root T va p n flags :
  vspace s root T → 0 ≤ n ≤ 2 ^ 35 → Z.land flags PAGE_ADDR_MASK = 0 →
  backed s root T va p n flags →
  wp (vmm_unmap_and_free_pages (space_at root) va n) (λ _ s',
    vspace s' root T ∧
    (∀ u, xlate s' T u = if page_off va u <? n then None else xlate s T u) ∧
    (∀ j, 0 ≤ j → used (pmm s') j = negb (in_run p n j) && used (pmm s) j)) never s.
Proof.
  intros Hvs Hn Hfl [Bx [Bp Bn] Bu Bt]. unfold vmm_unmap_and_free_pages.
  eapply wp_mono; [apply (for_range_inv (λ k t, 0 ≤ k ∧ vspace t root T ∧
    page_count (pmm t) = page_count (pmm s) ∧
    (∀ u, xlate t T u = if page_off va u <? k then None else xlate s T u) ∧
    (∀ j, 0 ≤ j → used (pmm t) j = negb (in_run p k j) && used (pmm s) j)))| |done].
  - do 3 (split; [done|]). split.
    + intros u. assert (0 ≤ page_off va u) by (apply Z.mod_pos_bound; lia).
      by destruct (Z.ltb_spec (page_off va u) 0); [lia|].
    + intros j Hj. by rewrite in_run_empty.
  - intros i t Hi (_ & Vt & Pt & Xt & Ut).
    set (u := u64 (va + i * PAGE_SIZE)). assert (page_off va u = i) as Hu by (apply page_off_at; lia).
    assert (xlate t T u = Some (leaf_entry ((p + i) * 4096) flags)) as Hx.
    { rewrite Xt, Hu. destruct (Z.ltb_spec i i); [lia|]. rewrite Bx; rewrite Hu; [done|lia]. }
    destruct (xlate_word _ _ _ _ Hx) as (pt & Hpt & Hw).
    pose proof (vs_max _ _ _ Hvs) as Hmax.
    destruct (unmap_page_ok t root T u pt _ (p + i) Vt Hpt Hw) as (t' & Ht' & Vt' & Rt' & Xt').
    + rewrite leaf_entry_addr by done. apply land_addr_mask_frame; [lia|]. apply Z.mod_mul; lia.
    + lia.
    + rewrite Ut by lia. rewrite Bu by lia. unfold in_run.
      by destruct (Z.leb_spec p (p + i)), (Z.ltb_spec (p + i) (p + i)); try lia.
    + intros q h Hq He. apply (Bt q h Hq). lia.
    + eapply wp_ok; [exact Ht'|]. split; [lia|]. split; [done|].
      split; [by rewrite (sl_pages _ _ (rl_layout _ _ _ Rt'))|]. split.
      * intros x. unfold u in Xt'. rewrite Xt', page_off_step, Xt by lia.
        by destruct (Z.eqb_spec (page_off va x) i), (Z.ltb_spec (page_off va x) i),
          (Z.ltb_spec (page_off va x) (i + 1)); try lia.
      * intros j Hj. rewrite (rl_free _ _ _ Rt'), Ut, <- in_run_snoc by lia.
        by destruct (j =? p + i), (in_run p i j), (used (pmm s) j).
  - intros [] s' (_ & V & _ & X & U). by replace (0 + Z.of_nat (Z.to_nat n)) with n in X, U by lia.
Qed.

(** ** Theorems *)

(** C1: after [vmm_map_pages] every page of the run translates to the matching
    physical page, every other address translates as before, and the page-table
    invariant is kept; the only failures are the allocator's panics. *)
Theorem vmm_map_pages_translates s root T va pa n flags :
  vspace s root T → 0 ≤ n ≤ 2 ^ 36 → Z.land flags PAGE_ADDR_MASK = 0 →
  wp (vmm_map_pages (space_at root) va pa n flags)
     (λ _ s', (∃ T', vspace s' root T') ∧
        ∀ u, ∃ a, vmm_virt_to_phys (space_at root) u s = Ok (a, s) ∧
          vmm_virt_to_phys (space_at root) u s' =
            Ok (if page_off va u <? n
                then Z.lor (Z.land (u64 (pa + page_off va u * PAGE_SIZE)) PAGE_ADDR_MASK) (Z.land u 0xFFF)
                else a, s'))
     map_errors s.
Proof.
  intros Hvs Hn Hf. eapply wp_mono; [by apply map_pages_ok| |done].
  intros [] s' (T' & Hm). split; [exists T'; apply Hm|]. intros u.
  eexists. split; [by apply (virt_to_phys_ok Hvs)|].
  rewrite (virt_to_phys_ok (mp_space _ _ _ _ _ _ _ _ _ Hm)), (mp_xlate _ _ _ _ _ _ _ _ _ Hm).
  destruct (Z.ltb_spec (page_off va u) n); [|done]. by rewrite leaf_entry_addr.
Qed.

(** The state [vmm_kernel_heap_alloc] leaves: the run is mapped to fresh frames. *)
Lemma kernel_heap_alloc_ok s root T off size :
  vspace s root T → g_kernel_address_space s = space_at root →
  0 < size_to_page_count size < 2 ^ 20 →
  wp (vmm_kernel_heap_alloc off size) (λ _ s', ∃ T' p,
    vspace s' root T' ∧ g_kernel_address_space s' = space_at root ∧
    backed s' root T' (u64 (KERNEL_HEAP + off)) p (size_to_page_count size) PAGE_WRITABLE ∧
    (∀ j, p ≤ j < p + size_to_page_count size → used (pmm s) j = false)) (λ _, True) s.
Proof.
  intros Hvs Hk Hn. set (n := size_to_page_count size) in *.
  unfold vmm_kernel_heap_alloc. fold n. apply wp_bind, wp_zoom.
  pose proof (vs_pmm _ _ _ Hvs) as Hpm.
  eapply wp_mono; [apply alloc_pages_ok; [apply Hpm..|lia]| |done].
  intros a pm (p & -> & Hr). pose proof (run_taken_wf _ _ _ _ Hpm Hn Hr) as Hwf.
  pose proof (rt_takes _ _ _ _ Hr) as Htk. pose proof (tk_range _ _ _ _ Htk) as [Hp0 Hp1].
  pose proof (takes_grows _ _ _ _ Htk) as Hg. pose proof (vs_max _ _ _ Hvs) as Hmax.
  pose proof (vspace_takes _ _ _ _ _ _ Hvs Hwf Htk) as Hvs1.
  wp_steps. simpl. rewrite Hk.
  eapply wp_mono; [apply map_pages_ok; [exact Hvs1|lia]| |done].
  intros [] s' (T' & [V S P N K X]). exists T', p. split; [done|]. split; [by rewrite K|].
  split; [|intros j Hj; apply (tk_free _ _ _ _ Htk); lia].
  destruct P as [P1 P2 _]. simpl in *. split.
  - intros u Hu. rewrite X. assert (0 ≤ page_off (u64 (KERNEL_HEAP + off)) u) by (apply Z.mod_pos_bound; lia).
    destruct (Z.ltb_spec (page_off (u64 (KERNEL_HEAP + off)) u) n); [|lia].
    unfold PAGE_SIZE. rewrite u64_small by lia. do 2 f_equal. lia.
  - rewrite P1. destruct Hg. lia.
  - intros j Hj. apply P2; [lia|]. rewrite (tk_used _ _ _ _ Htk) by lia.
    by destruct (Z.leb_spec p j), (Z.ltb_spec j (p + n)); try lia.
  - intros q h Hq Hin. destruct (N q h Hq) as [Hq'|Hu].
    + destruct (t_frame _ _ _ (vs_tree _ _ _ Hvs) q h Hq') as (_ & _ & _ & Hu).
      rewrite (tk_free _ _ _ _ Htk) in Hu by lia. done.
    + rewrite (tk_used _ _ _ _ Htk) in Hu by lia.
      by destruct (Z.leb_spec p (h / 4096)), (Z.ltb_spec (h / 4096) (p + n)); try lia.
Qed.

(** [vmm_kernel_heap_alloc] followed by [vmm_kernel_heap_free] of the same
    range always completes once the allocation did, leaves no page of the range
    translated, and returns every data frame it took to the allocator. *)
Theorem vmm_kernel_heap_roundtrip s root T off size :
  vspace s root T → g_kernel_address_space s = space_at root →
  0 < size_to_page_count size < 2 ^ 20 →
  wp (vmm_kernel_heap_alloc off size) (λ _ s1,
    wp (vmm_kernel_heap_free off size) (λ _ s2, ∃ p,
      (∃ T', vspace s2 root T') ∧
      (∀ u, page_off (u64 (KERNEL_HEAP + off)) u < size_to_page_count size →
         vmm_virt_to_phys (space_at root) u s2 = Ok (0, s2)) ∧
      (∀ j, p ≤ j < p + size_to_page_count size → used (pmm s) j = false ∧ used (pmm s1) j = true ∧
         used (pmm s2) j = false)) never s1) (λ _, True) s.
Proof.
  intros Hvs Hk Hn. eapply wp_mono; [by apply (kernel_heap_alloc_ok s root T)| |done].
  intros [] s1 (T1 & p & V1 & K1 & B1 & F1). unfold vmm_kernel_heap_free. wp_steps. rewrite K1.
  eapply wp_mono; [apply (unmap_run_ok s1 root T1 _ p _ PAGE_WRITABLE); [done|lia|done|done]| |done].
  intros [] s2 (V2 & X2 & U2). exists p. split; [by exists T1|]. split.
  - intros u Hu. rewrite (virt_to_phys_ok V2), X2.
    by destruct (Z.ltb_spec (page_off (u64 (KERNEL_HEAP + off)) u) (size_to_page_count size)); [|lia].
  - intros j Hj. split; [by apply F1|]. split; [by apply (bk_used _ _ _ _ _ _ _ B1)|].
    pose proof (bk_range _ _ _ _ _ _ _ B1). rewrite U2 by lia. unfold in_run.
    by destruct (Z.leb_spec p j), (Z.ltb_spec j (p + size_to_page_count size)); try lia.
Qed.

(** ** Boot-time address space *)

Lemma lor_low a b : a mod 4096 = 0 → 0 ≤ b < 4096 → Z.lor a b = a + b.
Proof.
  intros Ha Hb. assert (Z.land a b = 0) as Hl.
  { apply Z.bits_inj'. intros n Hn. rewrite Z.land_spec, Z.bits_0.
    destruct (Z.ltb_spec n 12).
    - replace a with (Z.shiftl (a / 4096) 12) by (rewrite Z.shiftl_mul_pow2 by lia; dlia).
      rewrite Z.shiftl_spec_low by done. done.
    - rewrite <- (Z.mod_small b (2 ^ 12)) by lia. rewrite Z.mod_pow2_bits_high by lia. apply andb_false_r. }
  rewrite Z.add_nocarry_lxor by done. by rewrite Z.lxor_lor.
Qed.

(** A zeroed frame in use is the root of an empty address space. *)
Lemma root_vspace s f :
  pmm_wf (pmm s) → page_count (pmm s) ≤ 2 ^ 35 → frame_ok (pmm s) f →
  (∀ i, 0 ≤ i < 512 → mem s !! entry_addr (PHYS_TO_HHDM f) i = Some 0) →
  vspace s f {[ [] := f ]}.
Proof.
  intros Hwf Hm Hf Hz.
  assert (∀ q h, ({[ [] := f ]} : gmap (list Z) Z) !! q = Some h → q = [] ∧ h = f) as Hs.
  { by intros q h [<- <-]%lookup_singleton_Some. }
  split; [done|done|]. split.
  - apply lookup_singleton_eq.
  - by intros q h [-> ->]%Hs.
  - intros q h i [-> ->]%Hs Hi. rewrite Hz by done. eauto.
  - by intros q1 q2 h [-> _]%Hs [-> _]%Hs.
  - intros q h i w [-> ->]%Hs _ Hi. rewrite Hz by done. intros [= <-].
    by rewrite lookup_singleton_ne.
  - intros q i g [Hq _]%Hs. by destruct q.
Qed.

Lemma takes_frame_ok p p' f : 0 ≤ f → takes p p' f 1 → frame_ok p' (f * 4096).
Proof.
  intros Hf [Hl [? ?] _ Hu]. pose proof (sl_pages _ _ Hl) as Hpc.
  split; [lia|]. split; [apply Z.mod_mul; lia|].
  rewrite Z.div_mul, Hpc by lia. split; [lia|]. rewrite Hu by lia.
  by destruct (Z.leb_spec f f), (Z.ltb_spec f (f + 1)); try lia.
Qed.

(** A run mapped at [va] to [pa] reads back byte by byte. *)
Lemma mapped_read s s' root va pa n flags T T' k :
  mapped s s' root va pa n flags T T' → Z.land flags PAGE_ADDR_MASK = 0 →
  va mod 4096 = 0 → pa mod 4096 = 0 → 0 ≤ va → 0 ≤ pa → pa + n * 4096 ≤ 2 ^ 52 → n ≤ 2 ^ 36 →
  0 ≤ k < n * 4096 →
  vmm_virt_to_phys (space_at root) (va + k) s' = Ok (pa + k, s').
Proof.
  intros Hm Hf Hva Hpa H0 H1 Hle Hn Hk.
  rewrite (virt_to_phys_ok (mp_space _ _ _ _ _ _ _ _ _ Hm)), (mp_xlate _ _ _ _ _ _ _ _ _ Hm).
  assert (page_off va (va + k) = k / 4096) as ->.
  { unfold page_off, vpn. dlia. }
  destruct (Z.ltb_spec (k / 4096) n); [|dlia]. rewrite leaf_entry_addr by done.
  unfold PAGE_SIZE. rewrite u64_small by dlia. rewrite land_addr_mask by dlia.
  change 0xFFF with 4095. rewrite land_4095, lor_low by dlia.
  do 2 f_equal. rewrite Z.mod_small by dlia. dlia.
Qed.

(** [vmm_map_hhdm] makes the direct map exact below [max_address]: the
    kernel address of physical address [a] translates to [a].  The frame that
    starts at [max_address] itself, the last one [pmm_init] released, is left
    as it was: the byte count passed is one frame short. *)
Theorem vmm_map_hhdm_correct s root T :
  vspace s root T → max_address (pmm s) mod 4096 = 0 → 0 ≤ max_address (pmm s) < 2 ^ 47 →
  wp (vmm_map_hhdm (space_at root)) (λ _ s',
    (∃ T', vspace s' root T') ∧
    (∀ a, 0 ≤ a < max_address (pmm s) → vmm_virt_to_phys (space_at root) (PHYS_TO_HHDM a) s' = Ok (a, s')) ∧
    (∀ b, vmm_virt_to_phys (space_at root) (PHYS_TO_HHDM (max_address (pmm s))) s = Ok (b, s) →
       vmm_virt_to_phys (space_at root) (PHYS_TO_HHDM (max_address (pmm s))) s' = Ok (b, s'))) map_errors s.
Proof.
  intros Hvs Ha Hm. unfold vmm_map_hhdm. apply wp_bind, wp_zoom. eapply wp_ok; [reflexivity|]. simpl.
  replace (set_pmm (pmm s) s) with s by (by destruct s). unfold vmm_map_bytes, PAGE_SIZE.
  set (mx := max_address (pmm s)) in *. rewrite u64_small by lia.
  replace ((mx + 4096 - 1) / 4096) with (mx / 4096) by dlia.
  eapply wp_mono; [apply map_pages_ok; [exact Hvs|dlia]| |done].
  intros [] s' (T' & H). split; [exists T'; apply H|]. split.
  - intros a Hlt. rewrite hhdm_phys, Z.add_comm by lia.
    rewrite (mapped_read _ _ _ _ _ _ _ _ _ _ H); [done|done|done|done|done|lia|dlia|dlia|dlia].
  - intros b. rewrite (virt_to_phys_ok Hvs). intros [= <-].
    rewrite (virt_to_phys_ok (mp_space _ _ _ _ _ _ _ _ _ H)), (mp_xlate _ _ _ _ _ _ _ _ _ H).
    rewrite hhdm_phys by lia.
    assert (page_off HHDM_BASE (mx + HHDM_BASE) = mx / 4096) as ->.
    { unfold page_off, vpn, HHDM_BASE. dlia. }
    by destruct (Z.ltb_spec (mx / 4096) (mx / 4096)); [lia|].
Qed.

(** Unmapping an address that has a page table but no mapping releases
    physical frame 0, the frame [pmm_init] reserves: [unmap_page] passes the
    address bits of a zero entry to [pmm_free_page]. *)
Theorem vmm_unmap_unmapped_frees_frame_zero s root T v pt :
  vspace s root T → T !! vpath v = Some pt →
  mem s !! entry_addr (PHYS_TO_HHDM pt) (pt_index v) = Some 0 →
  used (pmm s) 0 = true →
  ∃ s', unmap_page (space_at root) v s = Ok (tt, s') ∧ used (pmm s') 0 = false.
Proof.
  intros Hvs Hpt Hw Hu. pose proof (bm_pages _ (wf_bitmap _ (vs_pmm _ _ _ Hvs))) as Hp.
  destruct (free_page_ok (pmm s) 0 (vs_pmm _ _ _ Hvs) ltac:(lia) Hu) as (pm & Hfree & Hpm & Hrl & _).
  unfold unmap_page. rewrite (bind_of_ok _ _ _ _ _ (walk_ok Hvs v)), Hpt. simpl.
  rewrite (bind_of_ok _ _ _ _ _ (load_ok _ _ _ Hw)). rewrite Z.land_0_l.
  unfold mbind, M_bind, on_pmm, zoom. change 0 with (0 * 4096) at 1. rewrite Hfree.
  eexists. split; [reflexivity|]. simpl. by rewrite (rl_free _ _ _ Hrl) by lia.
Qed.

Lemma mapped_skip s s' root va pa n flags T T' u :
  mapped s s' root va pa n flags T T' → n ≤ page_off va u → xlate s' T' u = xlate s T u.
Proof.
  intros Hm Hn. rewrite (mp_xlate _ _ _ _ _ _ _ _ _ Hm).
  by destruct (Z.ltb_spec (page_off va u) n); [lia|].
Qed.

(** Translations that agree on [u] give the same [vmm_virt_to_phys]. *)
Lemma read_skip s s' root T T' u a :
  vspace s root T → vspace s' root T' → xlate s' T' u = xlate s T u →
  vmm_virt_to_phys (space_at root) u s = Ok (a, s) →
  vmm_virt_to_phys (space_at root) u s' = Ok (a, s').
Proof.
  intros V V' X. rewrite (virt_to_phys_ok V), (virt_to_phys_ok V'), X. by intros [= ->].
Qed.

Lemma map_bytes_ok s root T va pa size flags :
  vspace s root T → 0 ≤ size < 2 ^ 47 →
  wp (vmm_map_bytes (space_at root) va pa size flags)
     (λ _ s', ∃ T', mapped s s' root va pa ((size + 4095) / 4096) flags T T') map_errors s.
Proof.
  intros Hvs Hs. unfold vmm_map_bytes, PAGE_SIZE. rewrite u64_small by lia.
  replace (size + 4096 - 1) with (size + 4095) by lia. apply map_pages_ok; [done|dlia].
Qed.

(** The regions [vmm_init] maps before the stack. *)
Record boot_layout (s : vmm_state) (root ks ke : Z) (fb : framebuffer) (mx : Z) : Prop := {
  bl_kernel : ∀ k, 0 ≤ k < ke - ks →
    vmm_virt_to_phys (space_at root) (KERNEL_BASE + k) s = Ok (ks + k, s);
  bl_fb : ∀ k, 0 ≤ k < framebuffer_pitch fb * framebuffer_height fb →
    vmm_virt_to_phys (space_at root) (FB_BASE + k) s = Ok (framebuffer_base fb + k, s);
  bl_hhdm : ∀ a, 0 ≤ a < mx →
    vmm_virt_to_phys (space_at root) (HHDM_BASE + a) s = Ok (a, s);
  bl_low : ∀ a, 0 ≤ a < 4000000 → vmm_virt_to_phys (space_at root) a s = Ok (a, s)
}.

Lemma boot_layout_skip s s' root ks ke fb mx T T' va pa n flags :
  vspace s root T → mapped s s' root va pa n flags T T' →
  (∀ k, 0 ≤ k < ke - ks → n ≤ page_off va (KERNEL_BASE + k)) →
  (∀ k, 0 ≤ k < framebuffer_pitch fb * framebuffer_height fb → n ≤ page_off va (FB_BASE + k)) →
  (∀ a, 0 ≤ a < mx → n ≤ page_off va (HHDM_BASE + a)) →
  (∀ a, 0 ≤ a < 4000000 → n ≤ page_off va a) →
  boot_layout s root ks ke fb mx → boot_layout s' root ks ke fb mx.
Proof.
  intros V Hm N1 N2 N3 N4 [L1 L2 L3 L4]. pose proof (mp_space _ _ _ _ _ _ _ _ _ Hm) as V'.
  split; intros; (eapply (read_skip s s' root T T'); [done|done|eapply mapped_skip; [done|auto]|auto]).
Qed.

(** The translation depends on the table words only. *)
Lemma boot_layout_mem s s' root ks ke fb mx T :
  vspace s root T → vspace s' root T → mem s' = mem s →
  boot_layout s root ks ke fb mx → boot_layout s' root ks ke fb mx.
Proof.
  intros V V' Hm [L1 L2 L3 L4].
  assert (∀ u, xlate s' T u = xlate s T u) as X by (intros u; unfold xlate; by rewrite Hm).
  split; intros; (eapply (read_skip s s' root T T); auto).
Qed.

Lemma vspace_cr3 s root T c : vspace s root T → vspace (set_cr3 c s) root T.
Proof. intros [H1 H2 [? ? ? ? ? ?]]. by split. Qed.

(** One more region is mapped; everything else reads as before. *)
Ltac skip_region Hm :=
  eapply read_skip; [ | exact (mp_space _ _ _ _ _ _ _ _ _ Hm) | eapply (mapped_skip _ _ _ _ _ _ _ _ _ _ Hm) | ].

Lemma map_regions_ok {A} s root T ks ke fb (cont : M vmm_state A) Q (E : string → Prop) :
  vspace s root T → g_kernel_address_space s = space_at root →
  ks mod 4096 = 0 → 0 ≤ ks ≤ ke → ke - ks ≤ 2 ^ 31 → ke < 2 ^ 47 →
  framebuffer_base fb mod 4096 = 0 → 0 ≤ framebuffer_base fb < 2 ^ 47 →
  0 ≤ framebuffer_pitch fb * framebuffer_height fb < 2 ^ 32 →
  max_address (pmm s) mod 4096 = 0 → 0 ≤ max_address (pmm s) ≤ 2 ^ 44 →
  (∀ e, map_errors e → E e) →
  (∀ s' T', vspace s' root T' → g_kernel_address_space s' = space_at root →
     boot_layout s' root ks ke fb (max_address (pmm s)) → wp cont Q E s') →
  wp (vmm_map_kernel_image ks ke (space_at root) ;; vmm_map_framebuffer (space_at root) fb ;;
      vmm_map_hhdm (space_at root) ;; vmm_map_low_identity (space_at root) ;; cont) Q E s.
Proof.
  intros V0 K0 Hka Hk Hks Hke Hfa Hfb Hfs Hma Hmx HE HK. set (mx := max_address (pmm s)) in *.
  set (fsz := framebuffer_pitch fb * framebuffer_height fb) in *.
  apply wp_bind. unfold vmm_map_kernel_image. rewrite u64_small by lia.
  eapply wp_mono; [apply map_bytes_ok; [exact V0|lia]| |exact HE].
  intros [] s1 (T1 & M1). pose proof (mp_space _ _ _ _ _ _ _ _ _ M1) as V1.
  apply wp_bind. unfold vmm_map_framebuffer. fold fsz. rewrite u32_small by lia.
  eapply wp_mono; [apply map_bytes_ok; [exact V1|lia]| |exact HE].
  intros [] s2 (T2 & M2). pose proof (mp_space _ _ _ _ _ _ _ _ _ M2) as V2.
  apply wp_bind. unfold vmm_map_hhdm. apply wp_bind, wp_zoom. eapply wp_ok; [reflexivity|]. simpl.
  replace (set_pmm (pmm s2) s2) with s2 by (by destruct s2).
  rewrite (gw_max _ _ (mp_pmm _ _ _ _ _ _ _ _ _ M2)), (gw_max _ _ (mp_pmm _ _ _ _ _ _ _ _ _ M1)). fold mx.
  eapply wp_mono; [apply map_bytes_ok; [exact V2|lia]| |exact HE].
  intros [] s3 (T3 & M3). pose proof (mp_space _ _ _ _ _ _ _ _ _ M3) as V3.
  apply wp_bind. unfold vmm_map_low_identity. eapply wp_mono; [apply map_bytes_ok; [exact V3|lia]| |exact HE].
  intros [] s4 (T4 & M4). pose proof (mp_space _ _ _ _ _ _ _ _ _ M4) as V4.
  apply (HK s4 T4 V4).
  { by rewrite (mp_kspace _ _ _ _ _ _ _ _ _ M4), (mp_kspace _ _ _ _ _ _ _ _ _ M3),
      (mp_kspace _ _ _ _ _ _ _ _ _ M2), (mp_kspace _ _ _ _ _ _ _ _ _ M1). }
  split; unfold FB_BASE, KERNEL_BASE, HHDM_BASE in *.
  - intros k Hkk. skip_region M4; [exact V3|unfold page_off, vpn; dlia|].
    skip_region M3; [exact V2|unfold page_off, vpn; dlia|].
    skip_region M2; [exact V1|unfold page_off, vpn; dlia|].
    apply (mapped_read _ _ _ _ _ _ _ _ _ _ M1); done || dlia.
  - intros k Hkk. fold fsz in Hkk. skip_region M4; [exact V3|unfold page_off, vpn; dlia|].
    skip_region M3; [exact V2|unfold page_off, vpn; dlia|].
    apply (mapped_read _ _ _ _ _ _ _ _ _ _ M2); done || dlia.
  - intros a Haa. skip_region M4; [exact V3|unfold page_off, vpn; dlia|].
    rewrite (mapped_read _ _ _ _ _ _ _ _ _ _ M3); done || dlia.
  - intros a Haa. rewrite <- (Z.add_0_l a) at 1.
    rewrite (mapped_read _ _ _ _ _ _ _ _ _ _ M4); done || dlia.
Qed.

(** C2: [vmm_init] builds a kernel address space in which the kernel image, the
    framebuffer, the direct map of memory below [max_address] and the low
    identity range all translate to their physical addresses, adds the kernel
    stack without disturbing them, and loads CR3 with its root; any failure is a
    panic of the frame allocator. *)
Theorem vmm_init_layout s ks ke fb :
  pmm_wf (pmm s) → page_count (pmm s) ≤ 2 ^ 35 →
  ks mod 4096 = 0 → 0 ≤ ks ≤ ke → ke - ks ≤ 2 ^ 31 → ke < 2 ^ 47 →
  framebuffer_base fb mod 4096 = 0 → 0 ≤ framebuffer_base fb < 2 ^ 47 →
  0 ≤ framebuffer_pitch fb * framebuffer_height fb < 2 ^ 32 →
  max_address (pmm s) mod 4096 = 0 → 0 ≤ max_address (pmm s) ≤ 2 ^ 44 →
  wp (vmm_init ks ke fb) (λ _ s', ∃ root T,
    vspace s' root T ∧ g_kernel_address_space s' = space_at root ∧ cr3 s' = root ∧
    boot_layout s' root ks ke fb (max_address (pmm s))) (λ _, True) s.
Proof.
  intros Hwf Hpc Hka Hk Hks Hke Hfa Hfb Hfs Hma Hmx. unfold vmm_init.
  apply wp_bind, wp_zoom. eapply wp_mono; [by apply alloc_page_ok| |done].
  intros a pm (p & -> & Hwf1 & Htk). cbv beta. pose proof (tk_range _ _ _ _ Htk) as [Hp0 _].
  pose proof (takes_grows _ _ _ _ Htk) as [G1 G2 G3].
  destruct (Z.eqb_spec (p * 4096) 0); [done|]. wp_steps.
  eapply wp_mono; [apply memset64_ok; lia| |done]. intros [] s1 (m & -> & Hz & _).
  unfold vmm_pat_init. wp_steps. simpl.
  set (s2 := set_pat _ _). fold (space_at (p * 4096)).
  assert (vspace s2 (p * 4096) {[ [] := p * 4096 ]}) as V.
  { apply root_vspace; simpl; [done|lia|by apply (takes_frame_ok (pmm s))|done]. }
  assert (max_address (pmm s2) = max_address (pmm s)) as Hmx2 by exact G3.
  apply wp_unbind, (map_regions_ok s2 (p * 4096) {[ [] := p * 4096 ]});
    [exact V|reflexivity|assumption..|by rewrite Hmx2|by rewrite Hmx2|by intros|].
  rewrite Hmx2.
  intros s3 T3 V3 K3 L3. apply wp_bind. unfold vmm_setup_stack. apply wp_bind, wp_zoom.
  eapply wp_mono; [apply alloc_pages_ok; [apply V3..|by vm_compute]| |done].
  intros b pm' (q & -> & Hr). cbv beta. pose proof (rt_takes _ _ _ _ Hr) as Htk'.
  assert (0 < KERNEL_STACK_PAGE_COUNT < 2 ^ 20) as Hkc by (by vm_compute).
  pose proof (vspace_takes _ _ _ _ _ _ V3 (run_taken_wf _ _ _ _ (vs_pmm _ _ _ V3) Hkc Hr) Htk') as V4.
  destruct (Z.eqb_spec (q * 4096) 0); [done|]. wp_steps. simpl. rewrite K3.
  eapply wp_mono; [apply map_pages_ok; [exact V4|by vm_compute]| |done].
  intros [] s5 (T5 & M5). unfold vmm_mount_address_space. wp_steps.
  exists (p * 4096), T5. pose proof (mp_space _ _ _ _ _ _ _ _ _ M5) as V5.
  split; [by apply vspace_cr3|]. split; [by simpl; rewrite (mp_kspace _ _ _ _ _ _ _ _ _ M5)|].
  split; [done|]. eapply boot_layout_mem; [exact V5|by apply vspace_cr3|done|].
  eapply boot_layout_skip; [exact V4|exact M5|..|by apply (boot_layout_mem s3 _ _ _ _ _ _ T3)];
    intros; unfold KERNEL_BASE, FB_BASE, HHDM_BASE, KERNEL_STACK_TOP, KERNEL_STACK_PAGE_COUNT,
      PAGE_SIZE, page_off, vpn; dlia.
Qed.

(** ** Witnesses *)

(** Words of a zeroed table frame. *)
Definition zero_table (f : Z) : gmap Z Z :=
  list_to_map ((λ i, (entry_addr (PHYS_TO_HHDM f) i, 0)) <$> seqZ 0 512).

Lemma zero_table_lookup f i : 0 ≤ i < 512 →
  zero_table f !! entry_addr (PHYS_TO_HHDM f) i = Some 0.
Proof.
  intros Hi. unfold zero_table. apply elem_of_list_to_map_1.
  - rewrite <- list_fmap_compose. apply NoDup_fmap_2; [|apply NoDup_seqZ].
    intros a b. unfold compose, entry_addr. simpl. lia.
  - apply list_elem_of_fmap. exists i. split; [done|]. apply elem_of_seqZ. lia.
Qed.

(** Ten frames, six in use: frame 5 holds an empty root table. *)
Definition demo_vmm : vmm_state :=
  mkVmm (mkPmm 0 0 0 (4096 * 6) 10 0 2 6 (2 * 4096) [63; 0]) (zero_table (5 * 4096))
        (space_at (5 * 4096)) 0 0.

Lemma demo_pmm_wf : pmm_wf (pmm demo_vmm).
Proof. split; [split|..]; simpl; try (vm_compute; intuition congruence). repeat constructor; lia. Qed.

Lemma demo_vspace : vspace demo_vmm (5 * 4096) {[ [] := 5 * 4096 ]}.
Proof.
  apply root_vspace; [apply demo_pmm_wf|by vm_compute| |].
  - vm_compute. intuition congruence.
  - intros i Hi. by apply zero_table_lookup.
Qed.

(** A user page mapped in the demonstration space. *)
Definition demo_va : Z := 0x500000000000.
Definition demo_mapped : vmm_state :=
  final (vmm_map_pages (space_at (5 * 4096)) demo_va 0x2000 1 7) demo_vmm.

Lemma demo_map_runs :
  vmm_map_pages (space_at (5 * 4096)) demo_va 0x2000 1 7 demo_vmm = Ok (tt, demo_mapped).
Proof. unfold demo_mapped. rewrite <- (final_ok (vmm_map_pages (space_at (5 * 4096)) demo_va 0x2000 1 7)); [done|]. vm_compute. reflexivity. Qed.

Lemma vmm_map_pages_translates_witness :
  vmm_virt_to_phys (space_at (5 * 4096)) (demo_va + 0x123) demo_mapped = Ok (0x2123, demo_mapped).
Proof.
  destruct (wp_use _ _ _ _ _ _ (vmm_map_pages_translates demo_vmm (5 * 4096) _ demo_va 0x2000 1 7
    demo_vspace ltac:(lia) ltac:(reflexivity)) demo_map_runs) as [_ H].
  destruct (H (demo_va + 0x123)) as (a & _ & Ha). exact Ha.
Defined.

Lemma vmm_kernel_heap_roundtrip_witness :
  is_ok (vmm_kernel_heap_alloc 0 4096 demo_vmm) = true ∧
  wp (vmm_kernel_heap_alloc 0 4096) (λ _ s1,
    wp (vmm_kernel_heap_free 0 4096) (λ _ s2,
      vmm_virt_to_phys (space_at (5 * 4096)) KERNEL_HEAP s2 = Ok (0, s2)) never s1) (λ _, True) demo_vmm.
Proof.
  split; [vm_compute; reflexivity|].
  eapply wp_mono; [apply (vmm_kernel_heap_roundtrip demo_vmm (5 * 4096) _ 0 4096 demo_vspace);
    [reflexivity|by vm_compute]| |done].
  intros [] s1 H. eapply wp_mono; [exact H| |done].
  intros [] s2 (p & _ & Hu & _). apply Hu. by vm_compute.
Defined.

Lemma vmm_map_hhdm_correct_witness :
  is_ok (vmm_map_hhdm (space_at (5 * 4096)) demo_vmm) = true ∧
  wp (vmm_map_hhdm (space_at (5 * 4096)))
     (λ _ s', vmm_virt_to_phys (space_at (5 * 4096)) (PHYS_TO_HHDM 0x1234) s' = Ok (0x1234, s'))
     map_errors demo_vmm.
Proof.
  split; [vm_compute; reflexivity|].
  eapply wp_mono; [apply (vmm_map_hhdm_correct demo_vmm (5 * 4096) _ demo_vspace); by vm_compute| |done].
  intros [] s' (_ & H & _). apply H. by vm_compute.
Defined.

Lemma walk_reads s root T v t : vspace s root T →
  match walk (space_at root) v s with Ok (t', _) => t' | _ => None end = t → PHYS_TO_HHDM <$> T !! vpath v = t.
Proof. intros V <-. by rewrite (walk_ok V). Qed.

Lemma vmm_unmap_unmapped_frees_frame_zero_witness :
  ∃ s', unmap_page (space_at (5 * 4096)) (demo_va + 0x1000) demo_mapped = Ok (tt, s') ∧
        used (pmm s') 0 = false.
Proof.
  destruct (wp_use _ _ _ _ _ _ (map_pages_ok demo_vmm (5 * 4096) _ demo_va 0x2000 1 7
    demo_vspace ltac:(lia)) demo_map_runs) as (T & [V _ _ _ _ _]).
  assert (PHYS_TO_HHDM <$> T !! vpath (demo_va + 0x1000) = Some (PHYS_TO_HHDM (8 * 4096))) as Hw.
  { apply (walk_reads _ _ _ _ _ V). vm_compute. reflexivity. }
  destruct (T !! vpath (demo_va + 0x1000)) as [pt|] eqn:E; [|discriminate].
  apply (vmm_unmap_unmapped_frees_frame_zero demo_mapped (5 * 4096) T (demo_va + 0x1000) pt V E).
  - replace (PHYS_TO_HHDM pt) with (PHYS_TO_HHDM (8 * 4096)) by (by injection Hw).
    vm_compute. reflexivity.
  - vm_compute. reflexivity.
Defined.

(** Enough frames for the boot-time mappings. *)
Definition boot_vmm : vmm_state :=
  mkVmm (mkPmm 0 0 0 4096 1200 0 150 0 0x4000 (1 :: replicate 149 0)) ∅ (mkSpace 0 0) 0 0.

Lemma boot_pmm_wf : pmm_wf (pmm boot_vmm).
Proof.
  split; [split|..]; try (vm_compute; intuition congruence).
  repeat constructor; lia.
Qed.

Lemma vmm_init_layout_witness :
  is_ok (vmm_init 0x200000 0x203000 (mkFb 0x10000 64 8) boot_vmm) = true ∧
  wp (vmm_init 0x200000 0x203000 (mkFb 0x10000 64 8)) (λ _ s', ∃ root T,
    vspace s' root T ∧ g_kernel_address_space s' = space_at root ∧ cr3 s' = root ∧
    boot_layout s' root 0x200000 0x203000 (mkFb 0x10000 64 8) 0x4000) (λ _, True) boot_vmm.
Proof.
  split; [vm_compute; reflexivity|].
  apply (vmm_init_layout boot_vmm); [apply boot_pmm_wf|by vm_compute..].
Defined.

End Vmm.
