(* ===== verification/Heap.v ===== *)
(** * Kernel heap ([kernel/memory/heap.c], [kernel/memory/heap.h])

    A first-fit allocator over a doubly linked list of blocks laid out one
    after the other in the kernel heap window.  Headers live in memory word by
    word ([hmem], keyed by the address of the field), so an access to an
    unmapped address, or a read of a word never written, is a [Fault].  The
    heap obtains pages through the class [PageBacking]; the theorems use only
    its laws, which [Vmm] discharges at the end of the file. *)
From S2P Require Import Prelude Pmm Vmm.
Import Pmm Vmm.

Module Heap.

(** ** What the heap needs from the page layer *)

Class PageBacking (B : Type) := {
  (** [pmm_alloc_pages(count)] *)
  pg_alloc : Z → M B Z;
  (** [vmm_map_pages(&g_kernel_address_space, va, pa, count, flags)] *)
  pg_map : Z → Z → Z → Z → M B unit;
  (** does a kernel access at this address find a present mapping? *)
  pg_valid : B → Z → bool
}.

Definition KERNEL_STACK_BASE : Z := 0xFFFFB00000000000.

Class PageLaws (B : Type) `{PageBacking B} := {
  pg_inv : B → Prop;
  (** how many pages can still be handed out *)
  pg_free : B → Z;
  (** where the heap's window ends *)
  pg_limit : Z;
  pg_limit_stack : pg_limit ≤ KERNEL_STACK_BASE;
  pg_extend b va n :
    pg_inv b → 0 < n < 2 ^ 20 → va mod PAGE_SIZE = 0 →
    KERNEL_HEAP ≤ va → va + PAGE_SIZE * pg_free b ≤ pg_limit →
    wp (pa ← pg_alloc n; pg_map va pa n PAGE_WRITABLE)
       (λ _ b', pg_inv b' ∧ 0 ≤ pg_free b' ∧ pg_free b' + n ≤ pg_free b ∧
                (∀ a, va ≤ a < va + n * PAGE_SIZE → pg_valid b' a = true) ∧
                ∀ a, pg_valid b a = true → pg_valid b' a = true)
       (λ _, True) b
}.
Arguments pg_limit B {_ _}.

(** ** State *)

Definition HEAP_ALIGN_SIZE : Z := 0x10.
Definition HEAP_INITAL_PAGES : Z := 0x04.
Definition HEAP_EXPAND_PAGES : Z := 0x01.

Record heap := mkHeap { start : Z; end_ : Z; first_block : Z }.

Record heap_state (B : Type) := mkHS { g_heap : heap; hmem : gmap Z Z; back : B }.
Arguments mkHS {B}.
Arguments g_heap {B}.
Arguments hmem {B}.
Arguments back {B}.

(** [struct heap_block]: 32 bytes, the fields at these offsets. *)
Definition sizeof_heap_block : Z := 32.
Definition payload_size_of (b : Z) : Z := b.
Definition next_of (b : Z) : Z := b + 8.
Definition prev_of (b : Z) : Z := b + 16.
Definition free_of (b : Z) : Z := b + 24.

Definition align_up (size : Z) : Z :=
  u64 (u64 (size + HEAP_ALIGN_SIZE - 1) / HEAP_ALIGN_SIZE * HEAP_ALIGN_SIZE).
Definition HEAP_BLOCK_MIN_SIZE : Z := align_up (sizeof_heap_block + 1).

(** [ASSERT(expr)] *)
Definition ASSERT {S : Type} (b : bool) : M S unit := if b then mret tt else panic "ASSERT FAILED".

Section ops.
Context {B : Type} `{PageBacking B}.

Definition set_heap (h : heap) (s : heap_state B) : heap_state B := mkHS h (hmem s) (back s).
Definition set_hmem (m : gmap Z Z) (s : heap_state B) : heap_state B := mkHS (g_heap s) m (back s).
Definition set_back (b : B) (s : heap_state B) : heap_state B := mkHS (g_heap s) (hmem s) b.
Definition on_back {A : Type} (m : M B A) : M (heap_state B) A := zoom back set_back m.

Definition hload (a : Z) : M (heap_state B) Z := λ s,
  if pg_valid (back s) a then
    match hmem s !! a with Some v => Ok (v, s) | None => Fault end
  else Fault.
Definition hstore (a v : Z) : M (heap_state B) unit := λ s,
  if pg_valid (back s) a then Ok (tt, set_hmem (<[a := v]> (hmem s)) s) else Fault.

(** [HEAP_BLOCK_END(block)] *)
Definition HEAP_BLOCK_END (block : Z) : M (heap_state B) Z :=
  sz ← hload (payload_size_of block);
  mret (u64 (block + sizeof_heap_block + sz)).

Definition heap_init : M (heap_state B) unit :=
  phys_addr ← on_back (pg_alloc HEAP_INITAL_PAGES);
  on_back (pg_map KERNEL_HEAP phys_addr HEAP_INITAL_PAGES PAGE_WRITABLE) ;;
  let heap_start := KERNEL_HEAP in
  let heap_end := u64 (KERNEL_HEAP + PAGE_SIZE * HEAP_INITAL_PAGES) in
  modify (set_heap (mkHeap heap_start heap_end heap_start)) ;;
  hstore (payload_size_of heap_start) (u64 (heap_end - heap_start - sizeof_heap_block)) ;;
  hstore (free_of heap_start) 1 ;;
  hstore (next_of heap_start) 0 ;;
  hstore (prev_of heap_start) 0.

Definition split_block (block payload_size : Z) : M (heap_state B) unit :=
  old_size ← hload (payload_size_of block);
  hstore (payload_size_of block) payload_size ;;
  next_block ← HEAP_BLOCK_END block;
  nx ← hload (next_of block);
  hstore (next_of next_block) nx ;;
  nn ← hload (next_of next_block);
  when (truthy nn) (hstore (prev_of nn) next_block) ;;
  hstore (prev_of next_block) block ;;
  hstore (free_of next_block) 1 ;;
  hstore (payload_size_of next_block) (u64 (old_size - payload_size - sizeof_heap_block)) ;;
  hstore (next_of block) next_block.

(** A list of blocks is no longer than the window allows, 32 bytes a header. *)
Definition heap_fuel (s : heap_state B) : nat :=
  Z.to_nat ((end_ (g_heap s) - start (g_heap s)) / sizeof_heap_block + 1).

Fixpoint last_loop (fuel : nat) (block : Z) : M (heap_state B) Z :=
  match fuel with
  | O => no_fuel
  | S fuel' =>
      nx ← hload (next_of block);
      if truthy nx then last_loop fuel' nx else mret block
  end.

Definition find_last_block : M (heap_state B) Z :=
  block ← gets (λ s, first_block (g_heap s));
  fuel ← gets heap_fuel;
  last_loop fuel block.

Definition expand_heap (min_size : Z) : M (heap_state B) Z :=
  last_block ← find_last_block;
  e ← HEAP_BLOCK_END last_block;
  h ← gets g_heap;
  ASSERT (e =? end_ h) ;;
  let min_pages := u64 (min_size + PAGE_SIZE - 1) / PAGE_SIZE in
  let page_count := if min_pages <? HEAP_EXPAND_PAGES then HEAP_EXPAND_PAGES else min_pages in
  phys_addr ← on_back (pg_alloc page_count);
  on_back (pg_map (end_ h) phys_addr page_count PAGE_WRITABLE) ;;
  modify (λ s, set_heap (mkHeap (start (g_heap s)) (u64 (end_ (g_heap s) + page_count * PAGE_SIZE))
                                (first_block (g_heap s))) s) ;;
  fr ← hload (free_of last_block);
  if truthy fr then
    sz ← hload (payload_size_of last_block);
    hstore (payload_size_of last_block) (u64 (sz + page_count * PAGE_SIZE)) ;;
    mret last_block
  else
    block ← HEAP_BLOCK_END last_block;
    hstore (free_of block) 1 ;;
    hstore (next_of block) 0 ;;
    hstore (prev_of block) last_block ;;
    hstore (payload_size_of block) (u64 (page_count * PAGE_SIZE - sizeof_heap_block)) ;;
    hstore (next_of last_block) block ;;
    mret block.

Fixpoint find_loop (fuel : nat) (min_size block : Z) : M (heap_state B) Z :=
  match fuel with
  | O => no_fuel
  | S fuel' =>
      if truthy block then
        fr ← hload (free_of block);
        fits ← (if truthy fr then sz ← hload (payload_size_of block); mret (min_size <=? sz)
                else mret false);
        if (fits : bool) then mret block
        else nx ← hload (next_of block); find_loop fuel' min_size nx
      else mret 0
  end.

Definition find_free_block (min_size : Z) : M (heap_state B) Z :=
  block ← gets (λ s, first_block (g_heap s));
  fuel ← gets heap_fuel;
  find_loop (S fuel) min_size block.

Definition kmalloc (size : Z) : M (heap_state B) Z :=
  if size =? 0 then mret 0
  else
    let aligned_size := align_up size in
    found ← find_free_block aligned_size;
    free_block ← (if truthy found then mret found
                  else expand_heap (u64 (sizeof_heap_block + aligned_size)));
    ASSERT (truthy free_block) ;;
    sz ← hload (payload_size_of free_block);
    ASSERT (aligned_size <=? sz) ;;
    when (u64 (aligned_size + HEAP_BLOCK_MIN_SIZE) <=? sz) (split_block free_block aligned_size) ;;
    hstore (free_of free_block) 0 ;;
    mret (u64 (free_block + sizeof_heap_block)).

Definition coalesce_next (block : Z) : M (heap_state B) unit :=
  nx ← hload (next_of block);
  if truthy nx then
    fr ← hload (free_of nx);
    when (truthy fr) (
      sz ← hload (payload_size_of block);
      nsz ← hload (payload_size_of nx);
      hstore (payload_size_of block) (u64 (sz + (sizeof_heap_block + nsz))) ;;
      nn ← hload (next_of nx);
      hstore (next_of block) nn ;;
      when (truthy nn) (hstore (prev_of nn) block))
  else mret tt.

Definition coalesce_prev (block : Z) : M (heap_state B) unit :=
  pv ← hload (prev_of block);
  if truthy pv then
    fr ← hload (free_of pv);
    when (truthy fr) (
      psz ← hload (payload_size_of pv);
      sz ← hload (payload_size_of block);
      hstore (payload_size_of pv) (u64 (psz + (sizeof_heap_block + sz))) ;;
      nx ← hload (next_of block);
      hstore (next_of pv) nx ;;
      when (truthy nx) (hstore (prev_of nx) pv))
  else mret tt.

Definition kfree (addr : Z) : M (heap_state B) unit :=
  let block := u64 (addr - sizeof_heap_block) in
  hstore (free_of block) 1 ;;
  coalesce_next block ;;
  coalesce_prev block.

Definition get_kernel_heap : M (heap_state B) heap := gets g_heap.
End ops.

(** ** Abstract view: the blocks in address order

    A heap is a list of blocks [(payload size, free?)]; addresses follow from
    the sizes. *)

Definition blk : Type := Z * bool.

Fixpoint after (a : Z) (l : list blk) : Z :=
  match l with [] => a | b :: l' => after (a + sizeof_heap_block + b.1) l' end.

(** The last block's address, or [pv] when there is none. *)
Fixpoint last_addr (pv a : Z) (l : list blk) : Z :=
  match l with [] => pv | b :: l' => last_addr a (a + sizeof_heap_block + b.1) l' end.

(** The address a list starts at, or [nx] when it is empty. *)
Definition head_addr (a : Z) (l : list blk) (nx : Z) : Z :=
  match l with [] => nx | _ => a end.

Record hdr (m : gmap Z Z) (a sz nx pv : Z) (fr : bool) : Prop := mkHdr {
  h_size : m !! payload_size_of a = Some sz;
  h_next : m !! next_of a = Some nx;
  h_prev : m !! prev_of a = Some pv;
  h_free : m !! free_of a = Some (Z.b2z fr)
}.

(** The blocks [l] are in memory from address [a], linked both ways. *)
Fixpoint seg (m : gmap Z Z) (pv a : Z) (l : list blk) (nx : Z) : Prop :=
  match l with
  | [] => True
  | b :: l' =>
      let a' := a + sizeof_heap_block + b.1 in
      hdr m a b.1 (head_addr a' l' nx) pv b.2 ∧ seg m a a' l' nx
  end.

Definition sizes_ok (l : list blk) : Prop := Forall (λ b, 16 ≤ b.1 ∧ b.1 mod 16 = 0) l.

Definition head_free (l : list blk) : bool := match l with [] => false | b :: _ => b.2 end.
Fixpoint last_free (l : list blk) : bool :=
  match l with [] => false | [b] => b.2 | _ :: l' => last_free l' end.

(** No two neighbouring blocks are both free. *)
Fixpoint coalesced (l : list blk) : Prop :=
  match l with [] => True | b :: l' => b.2 && head_free l' = false ∧ coalesced l' end.

(** The allocations a list of blocks stands for: payload address to size. *)
Fixpoint live (a : Z) (l : list blk) : gmap Z Z :=
  match l with
  | [] => ∅
  | b :: l' =>
      let rest := live (a + sizeof_heap_block + b.1) l' in
      if b.2 then rest else <[a + sizeof_heap_block := b.1]> rest
  end.

(** *** Lists of blocks *)

Lemma after_app a l1 l2 : after a (l1 ++ l2) = after (after a l1) l2.
Proof. revert a. induction l1 as [|b l1 IH]; intros a; simpl; [done|]. apply IH. Qed.

Lemma last_addr_app pv a l1 l2 :
  last_addr pv a (l1 ++ l2) = last_addr (last_addr pv a l1) (after a l1) l2.
Proof. revert pv a. induction l1 as [|b l1 IH]; intros pv a; simpl; [done|]. apply IH. Qed.

Lemma head_addr_app a l1 l2 nx : head_addr a (l1 ++ l2) nx = head_addr a l1 (head_addr (after a l1) l2 nx).
Proof. by destruct l1. Qed.

Lemma seg_app m pv a l1 l2 nx :
  seg m pv a (l1 ++ l2) nx ↔
  seg m pv a l1 (head_addr (after a l1) l2 nx) ∧ seg m (last_addr pv a l1) (after a l1) l2 nx.
Proof.
  revert pv a. induction l1 as [|b l1 IH]; intros pv a; simpl; [tauto|].
  rewrite IH, head_addr_app. tauto.
Qed.

Lemma sizes_app l1 l2 : sizes_ok (l1 ++ l2) ↔ sizes_ok l1 ∧ sizes_ok l2.
Proof. unfold sizes_ok. by rewrite Forall_app. Qed.

Lemma sizes_cons b l : sizes_ok (b :: l) ↔ (16 ≤ b.1 ∧ b.1 mod 16 = 0) ∧ sizes_ok l.
Proof. unfold sizes_ok. by rewrite Forall_cons. Qed.

Lemma after_ge a l : sizes_ok l → a + 48 * Z.of_nat (length l) ≤ after a l.
Proof.
  revert a. induction l as [|b l IH]; intros a; [simpl; lia|].
  intros [Hb Hl]%sizes_cons. specialize (IH (a + sizeof_heap_block + b.1) Hl). simpl. unfold sizeof_heap_block in *. lia.
Qed.

Lemma after_mod a l : a mod 16 = 0 → sizes_ok l → after a l mod 16 = 0.
Proof.
  revert a. induction l as [|b l IH]; intros a Ha; [done|].
  intros [Hb Hl]%sizes_cons. simpl. apply IH; [|done]. unfold sizeof_heap_block. dlia.
Qed.

Lemma last_free_snoc l b : last_free (l ++ [b]) = b.2.
Proof. induction l as [|c l IH]; [done|]. simpl. rewrite IH. by destruct (l ++ [b]) eqn:E; [destruct l|]. Qed.

Lemma coalesced_app l1 l2 :
  coalesced (l1 ++ l2) ↔ coalesced l1 ∧ coalesced l2 ∧ last_free l1 && head_free l2 = false.
Proof.
  induction l1 as [|b l1 IH]; simpl; [tauto|]. rewrite IH. destruct l1 as [|c l1]; simpl; [|tauto].
  rewrite andb_false_r. tauto.
Qed.

(** *** Memory *)

Lemma hdr_frame m m' a sz nx pv fr :
  hdr m a sz nx pv fr → (∀ x, a ≤ x < a + 32 → m' !! x = m !! x) → hdr m' a sz nx pv fr.
Proof.
  intros [H1 H2 H3 H4] Hf. unfold payload_size_of, next_of, prev_of, free_of in *.
  by split; unfold payload_size_of, next_of, prev_of, free_of; rewrite Hf by lia.
Qed.

Lemma seg_frame m m' pv a l nx :
  seg m pv a l nx → sizes_ok l → (∀ x, a ≤ x < after a l → m' !! x = m !! x) → seg m' pv a l nx.
Proof.
  revert pv a. induction l as [|b l IH]; intros pv a; simpl; [done|].
  intros [Hh Hs] [Hb Hl]%sizes_cons Hf. pose proof (after_ge (a + sizeof_heap_block + b.1) l Hl).
  unfold sizeof_heap_block in *. split; [eapply hdr_frame; [done|]; intros; apply Hf; lia|].
  apply IH; [done..|]. intros; apply Hf; lia.
Qed.

(** Replacing the back link of the first block. *)
Definition relink (m : gmap Z Z) (a : Z) (l : list blk) (pv : Z) : gmap Z Z :=
  match l with [] => m | _ => <[prev_of a := pv]> m end.

Lemma seg_relink m pv pv' a l nx :
  seg m pv a l nx → sizes_ok l → seg (relink m a l pv') pv' a l nx.
Proof.
  destruct l as [|b l]; simpl; [done|]. intros [[H1 H2 H3 H4] Hs] [Hb Hl]%sizes_cons.
  unfold sizeof_heap_block, prev_of in *. split.
  - split; unfold payload_size_of, next_of, prev_of, free_of in *;
      [rewrite lookup_insert_ne by lia; done..|apply lookup_insert_eq|rewrite lookup_insert_ne by lia; done].
  - eapply seg_frame; [done..|]. intros x Hx. rewrite lookup_insert_ne by lia. done.
Qed.

Lemma relink_other m a l pv x : x ≠ prev_of a → relink m a l pv !! x = m !! x.
Proof. intros Hx. destruct l; simpl; [done|]. by rewrite lookup_insert_ne. Qed.

(** *** Allocations *)

Lemma live_bounds a l p sz : sizes_ok l →
  live a l !! p = Some sz → a + sizeof_heap_block ≤ p ∧ p + sz ≤ after a l ∧ 16 ≤ sz.
Proof.
  revert a. induction l as [|b l IH]; intros a; simpl; [by rewrite lookup_empty|].
  intros [Hb Hl]%sizes_cons. pose proof (after_ge (a + sizeof_heap_block + b.1) l Hl).
  specialize (IH (a + sizeof_heap_block + b.1) Hl). unfold sizeof_heap_block in *.
  destruct b.2; [intros Hp; specialize (IH Hp); lia|].
  intros [[<- <-]|[_ Hp]]%lookup_insert_Some; [lia|]. specialize (IH Hp). lia.
Qed.

Lemma live_app a l1 l2 : sizes_ok l1 → sizes_ok l2 →
  live a (l1 ++ l2) = live a l1 ∪ live (after a l1) l2.
Proof.
  revert a. induction l1 as [|b l1 IH]; intros a; simpl; [intros; by rewrite (left_id_L ∅ (∪))|].
  intros [Hb Hl]%sizes_cons Hl2. rewrite IH by done. destruct b.2; [done|]. by rewrite insert_union_l.
Qed.

Lemma live_split a l p sz : live a l !! p = Some sz →
  ∃ l1 l2, l = l1 ++ (sz, false) :: l2 ∧ p = after a l1 + sizeof_heap_block.
Proof.
  revert a. induction l as [|[z fr] l IH]; intros a; simpl; [by rewrite lookup_empty|].
  assert (live (a + sizeof_heap_block + z) l !! p = Some sz →
    ∃ l1 l2, (z, fr) :: l = l1 ++ (sz, false) :: l2 ∧ p = after a l1 + sizeof_heap_block) as Hrec.
  { intros (l1 & l2 & -> & ->)%IH. by exists ((z, fr) :: l1), l2. }
  destruct fr; [done|]. intros [[<- <-]|[_ Hp]]%lookup_insert_Some; [|by apply Hrec].
  by exists [], l.
Qed.

(** Distinct allocations do not overlap. *)
Lemma live_disjoint a l p sz q sz' : sizes_ok l →
  live a l !! p = Some sz → live a l !! q = Some sz' → p < q → p + sz + sizeof_heap_block ≤ q.
Proof.
  revert a. induction l as [|b l IH]; intros a; simpl; [by rewrite lookup_empty|].
  intros [Hb Hl]%sizes_cons. specialize (IH (a + sizeof_heap_block + b.1) Hl).
  pose proof (λ p sz, live_bounds (a + sizeof_heap_block + b.1) l p sz Hl) as Hbd.
  unfold sizeof_heap_block in *. destruct b.2; [done|].
  intros [[<- <-]|[_ Hp]]%lookup_insert_Some [[<- <-]|[_ Hq]]%lookup_insert_Some; try lia; [..|by apply IH].
  - intros _. apply Hbd in Hq. lia.
  - apply Hbd in Hp. lia.
Qed.

Lemma window : 0 < KERNEL_HEAP ∧ KERNEL_HEAP mod 16 = 0 ∧ KERNEL_HEAP mod PAGE_SIZE = 0 ∧
  KERNEL_HEAP + 2 ^ 40 ≤ KERNEL_STACK_BASE ∧ KERNEL_STACK_BASE < 2 ^ 64.
Proof. vm_compute. intuition congruence. Qed.

(** Lookups in a memory after writes to other fields. *)
Ltac mlook :=
  unfold payload_size_of, next_of, prev_of, free_of in *;
  repeat first [rewrite lookup_insert_eq | rewrite lookup_insert_ne by lia]; try done.

Section access.
Context {B : Type} {PB : PageBacking B}.

Lemma hload_wp (s : heap_state B) a v (Q : Z → heap_state B → Prop) E :
  pg_valid (back s) a = true → hmem s !! a = Some v → Q v s → wp (hload a) Q E s.
Proof. intros Hv Hm HQ. unfold wp, hload. by rewrite Hv, Hm. Qed.

Lemma hstore_wp (s : heap_state B) a v (Q : unit → heap_state B → Prop) E :
  pg_valid (back s) a = true → Q tt (set_hmem (<[a := v]> (hmem s)) s) → wp (hstore a v) Q E s.
Proof. intros Hv HQ. unfold wp, hstore. by rewrite Hv. Qed.

End access.

(** One access to a header: the address is in the window and the field known. *)
Ltac hvalid :=
  cbn [back set_hmem set_heap set_back]; match goal with V : ∀ a, _ → pg_valid _ a = true |- _ => apply V; lia end.
Ltac hstep :=
  lazymatch goal with
  | |- wp (hload _) _ _ _ => eapply hload_wp; [hvalid|cbn [hmem set_hmem set_heap set_back]; mlook|]
  | |- wp (hstore _ _) _ _ _ => eapply hstore_wp; [hvalid|]
  | _ => wp_step
  end; cbv beta.

Section proofs.
Context {B : Type} {PB : PageBacking B} {PL : PageLaws B}.
Implicit Types s : heap_state B.

(** The list of blocks fills the mapped window. *)
Record heap_rep s (l : list blk) : Prop := {
  hr_start : start (g_heap s) = KERNEL_HEAP;
  hr_first : first_block (g_heap s) = KERNEL_HEAP;
  hr_seg : seg (hmem s) 0 KERNEL_HEAP l 0;
  hr_end : after KERNEL_HEAP l = end_ (g_heap s);
  hr_ne : l ≠ [];
  (** whatever is still free fits in the window *)
  hr_cap : 0 ≤ pg_free (back s) ∧ end_ (g_heap s) + PAGE_SIZE * pg_free (back s) ≤ pg_limit B;
  hr_page : end_ (g_heap s) mod PAGE_SIZE = 0;
  hr_sizes : sizes_ok l;
  hr_valid a : KERNEL_HEAP ≤ a < end_ (g_heap s) → pg_valid (back s) a = true;
  hr_inv : pg_inv (back s)
}.

(** The heap invariant. *)
Definition heap_wf s (l : list blk) : Prop := heap_rep s l ∧ coalesced l.

Lemma hr_limit s l : heap_rep s l → end_ (g_heap s) ≤ KERNEL_STACK_BASE.
Proof. intros R. pose proof (hr_cap _ _ R). pose proof pg_limit_stack. unfold PAGE_SIZE in *. lia. Qed.

(** What the invariant says of one block. *)
Record at_block s (l1 : list blk) (b : blk) (l2 : list blk) (a : Z) : Prop := {
  ab_hdr : hdr (hmem s) a b.1 (head_addr (a + sizeof_heap_block + b.1) l2 0)
               (last_addr 0 KERNEL_HEAP l1) b.2;
  ab_lo : KERNEL_HEAP ≤ a;
  ab_mod : a mod 16 = 0;
  ab_size : 16 ≤ b.1 ∧ b.1 mod 16 = 0;
  ab_hi : a + sizeof_heap_block + b.1 + 48 * Z.of_nat (length l2) ≤ end_ (g_heap s)
}.

Lemma rep_at s l1 b l2 :
  heap_rep s (l1 ++ b :: l2) → at_block s l1 b l2 (after KERNEL_HEAP l1).
Proof.
  intros [_ _ Hs He _ _ _ Hz _ _]. pose proof window as (W1 & W2 & _).
  apply seg_app in Hs as [_ [Hh _]]. apply sizes_app in Hz as [Hz1 [Hb Hz2]%sizes_cons].
  rewrite after_app in He. simpl in He.
  pose proof (after_ge KERNEL_HEAP l1 Hz1). pose proof (after_ge (after KERNEL_HEAP l1 + sizeof_heap_block + b.1) l2 Hz2).
  split; [done|lia|by apply after_mod|done|lia].
Qed.

Lemma rep_at2 s l1 b c l2 : heap_rep s (l1 ++ b :: c :: l2) →
  at_block s (l1 ++ [b]) c l2 (after KERNEL_HEAP l1 + sizeof_heap_block + b.1).
Proof.
  intros R. pose proof (rep_at s (l1 ++ [b]) c l2) as Hc. rewrite <- app_assoc, after_app in Hc. by apply Hc.
Qed.

(** Rewriting a stretch of blocks in place keeps the representation when the
    new headers are in memory, the stretch ends where it did, and everything
    else is unchanged but for the back link of the block that follows. *)
Lemma rep_replace s l1 mid mid' l2 m' :
  let a := after KERNEL_HEAP l1 in let pv := last_addr 0 KERNEL_HEAP l1 in
  heap_rep s (l1 ++ mid ++ l2) → mid ≠ [] → mid' ≠ [] → sizes_ok mid' →
  after a mid' = after a mid →
  seg m' pv a mid' (head_addr (after a mid) l2 0) →
  (∀ x, ¬ (a ≤ x < after a mid) →
     m' !! x = relink (hmem s) (after a mid) l2 (last_addr pv a mid') !! x) →
  heap_rep (set_hmem m' s) (l1 ++ mid' ++ l2).
Proof.
  intros a pv [R1 R2 Hs He Hn Hl Hp Hz Hv Hi] Hm Hm' Hz' Ha Hseg Hout.
  apply sizes_app in Hz as [Hz1 [Hzm Hz2]%sizes_app].
  apply seg_app in Hs as [Hs1 [_ Hs2]%seg_app]. fold a in Hs1, Hs2. fold pv in Hs2.
  pose proof (after_ge a mid Hzm). pose proof (after_ge KERNEL_HEAP l1 Hz1).
  split; simpl; try done.
  - apply seg_app. split; [|apply seg_app; fold a; rewrite Ha; split; [done|]]; fold a.
    + replace (head_addr a (mid' ++ l2) 0) with (head_addr a (mid ++ l2) 0) by (by destruct mid, mid').
      eapply seg_frame; [exact Hs1|done|]. intros x Hx. fold a in Hx.
      rewrite Hout, relink_other by (unfold prev_of; lia). done.
    + eapply seg_frame; [by eapply seg_relink|done|]. intros x Hx. apply Hout. lia.
  - rewrite <- He, !after_app. fold a. by rewrite Ha.
  - by destruct l1, mid'.
  - by rewrite !sizes_app.
Qed.

Lemma relink_same m pv a l nx x : seg m pv a l nx → relink m a l pv !! x = m !! x.
Proof.
  destruct l as [|b l]; simpl; [done|]. intros [[_ _ Hp _] _]. by rewrite insert_id.
Qed.

Lemma seg_next s l1 mid l2 : heap_rep s (l1 ++ mid ++ l2) →
  seg (hmem s) (last_addr (last_addr 0 KERNEL_HEAP l1) (after KERNEL_HEAP l1) mid)
      (after (after KERNEL_HEAP l1) mid) l2 0.
Proof. intros R. by apply hr_seg, seg_app in R as [_ [_ ?]%seg_app]. Qed.

(** Clearing or setting the [free] field. *)
Lemma mark_ok s l1 sz fr fr' l2 : heap_rep s (l1 ++ (sz, fr) :: l2) →
  heap_rep (set_hmem (<[free_of (after KERNEL_HEAP l1) := Z.b2z fr']> (hmem s)) s)
           (l1 ++ (sz, fr') :: l2).
Proof.
  intros R. destruct (rep_at _ _ _ _ R) as [[H1 H2 H3 H4] _ _ Hz _].
  apply (rep_replace s l1 [(sz, fr)] [(sz, fr')] l2); try done.
  - by apply sizes_cons; split; [|constructor].
  - simpl. split; [|done]. split; mlook.
  - intros x Hx. simpl in Hx |- *. unfold sizeof_heap_block, free_of in *. simpl in Hz.
    rewrite lookup_insert_ne by lia. symmetry. eapply relink_same, (seg_next s l1 [(sz, fr)] l2 R).
Qed.

(** [if (p) p->prev = v;] for the link [p] to the blocks that follow. *)
Lemma relink_wp s c l v (Q : unit → heap_state B → Prop) E :
  0 < c → (l ≠ [] → pg_valid (back s) (prev_of c) = true) →
  Q tt (set_hmem (relink (hmem s) c l v) s) →
  wp (when (truthy (head_addr c l 0)) (hstore (prev_of (head_addr c l 0)) v)) Q E s.
Proof.
  intros Hc Hv HQ. destruct l as [|b l]; simpl in *.
  - apply wp_ret. by destruct s.
  - unfold truthy. destruct (Z.eqb_spec c 0); [lia|]. simpl. apply hstore_wp; [by apply Hv|done].
Qed.

Lemma split_block_ok s l1 sz fr l2 n :
  heap_rep s (l1 ++ (sz, fr) :: l2) → 16 ≤ n → n mod 16 = 0 → n + 48 ≤ sz →
  wp (split_block (after KERNEL_HEAP l1) n)
     (λ _ s', ∃ m', s' = set_hmem m' s ∧
        heap_rep s' (l1 ++ (n, fr) :: (sz - n - sizeof_heap_block, true) :: l2)) never s.
Proof.
  intros R Hn Hm Hsz. pose proof window as (W1 & _ & _ & _ & W5). pose proof (hr_limit _ _ R).
  pose proof (hr_valid _ _ R) as V. pose proof (seg_next s l1 [(sz, fr)] l2 R) as Hnx.
  destruct (rep_at _ _ _ _ R) as [[H1 H2 H3 H4] Hlo _ Hz Hhi]. simpl in *.
  set (a := after KERNEL_HEAP l1) in *. unfold split_block, HEAP_BLOCK_END.
  unfold sizeof_heap_block, payload_size_of, next_of, free_of in *.
  repeat hstep. rewrite !u64_small by lia. repeat hstep.
  apply relink_wp; [lia|intros Hl2; destruct l2; [done|]; simpl in Hhi; unfold prev_of; hvalid|]. cbv beta.
  unfold prev_of. repeat hstep. eexists. split; [reflexivity|].
  apply (rep_replace s l1 [(sz, fr)] [(n, fr); (sz - n - 32, true)] l2); try done.
  - apply sizes_cons; simpl; split; [lia|]. apply sizes_cons; simpl; split; [dlia|constructor].
  - simpl. unfold sizeof_heap_block. fold a. lia.
  - simpl. unfold sizeof_heap_block. fold a. cbn [hmem set_hmem].
    split; [|split; [|done]]; split; mlook; rewrite relink_other by (unfold prev_of; lia); mlook.
  - intros x Hx. simpl in Hx |- *. unfold sizeof_heap_block in *. fold a in Hx |- *. cbn [hmem set_hmem].
    mlook. destruct l2 as [|b l2]; simpl; mlook.
    destruct (decide (x = prev_of (a + 32 + sz))) as [->|]; mlook.
Qed.

Lemma truthy_pos z : 0 < z → truthy z = true.
Proof. intros Hz. unfold truthy. by destruct (Z.eqb_spec z 0); [lia|]. Qed.

Lemma truthy_head c l : 0 < c → truthy (head_addr c l 0) = bool_decide (l ≠ []).
Proof. intros Hc. destruct l; simpl; [done|]. by apply truthy_pos. Qed.

Lemma truthy_b2z b : truthy (Z.b2z b) = b.
Proof. by destruct b. Qed.

Definition fits (n : Z) (b : blk) : bool := b.2 && (n <=? b.1).

(** First fit: the address of the first free block of at least [n] bytes. *)
Fixpoint first_fit (n a : Z) (l : list blk) : option Z :=
  match l with
  | [] => None
  | b :: l' => if fits n b then Some a else first_fit n (a + sizeof_heap_block + b.1) l'
  end.

Lemma first_fit_split n a l r : first_fit n a l = Some r →
  ∃ l1 z l2, l = l1 ++ (z, true) :: l2 ∧ r = after a l1 ∧ n ≤ z.
Proof.
  revert a. induction l as [|[z fr] l IH]; intros a; simpl; [done|]. destruct (fits n (z, fr)) eqn:E.
  - apply andb_true_iff in E as [? ?]. simpl in *. destruct fr; [|done]. intros [= <-].
    exists [], z, l. split_and!; [done..|]. by apply Z.leb_le.
  - intros (l1 & z' & l2 & -> & -> & Hz)%IH. by exists ((z, fr) :: l1), z', l2.
Qed.

Lemma find_loop_ok s n l1 l2 fuel : heap_rep s (l1 ++ l2) → (length l2 < fuel)%nat →
  find_loop fuel n (head_addr (after KERNEL_HEAP l1) l2 0) s
  = Ok (default 0 (first_fit n (after KERNEL_HEAP l1) l2), s).
Proof.
  revert l1 fuel. induction l2 as [|b l2 IH]; intros l1 fuel R Hf; (destruct fuel as [|fuel]; [simpl in Hf; lia|]).
  { done. }
  destruct (rep_at _ _ _ _ R) as [[H1 H2 H3 H4] Hlo _ Hz Hhi]. pose proof (hr_valid _ _ R) as V.
  pose proof window as (W1 & _). cbn [find_loop head_addr]. rewrite truthy_pos by lia.
  assert (∀ x v, hmem s !! x = Some v → after KERNEL_HEAP l1 ≤ x < after KERNEL_HEAP l1 + 32 →
    hload x s = Ok (v, s)) as Hld.
  { intros x v Hxv Hx. unfold hload. rewrite V, Hxv by (unfold sizeof_heap_block in *; lia). done. }
  unfold payload_size_of, next_of, prev_of, free_of in *.
  rewrite (bind_of_ok _ _ _ _ _ (Hld _ _ H4 ltac:(lia))), truthy_b2z.
  replace (first_fit n _ (b :: l2)) with (if fits n b then Some (after KERNEL_HEAP l1)
    else first_fit n (after KERNEL_HEAP l1 + sizeof_heap_block + b.1) l2) by done.
  specialize (IH (l1 ++ [b]) fuel). rewrite <- app_assoc, after_app in IH. simpl in IH.
  specialize (IH R ltac:(simpl in Hf; lia)).
  assert ((nx ← hload (after KERNEL_HEAP l1 + 8); find_loop fuel n nx) s
    = Ok (default 0 (first_fit n (after KERNEL_HEAP l1 + sizeof_heap_block + b.1) l2), s)) as Hgo.
  { by rewrite (bind_of_ok _ _ _ _ _ (Hld _ _ H2 ltac:(lia))). }
  unfold fits. destruct b.2; [|done]. cbn [andb].
  rewrite (bind_of_ok _ _ _ (n <=? b.1) s); [by destruct (n <=? b.1)|].
  by rewrite (bind_of_ok _ _ _ _ _ (Hld _ _ H1 ltac:(lia))).
Qed.

Lemma fuel_enough s l : heap_rep s l → (length l ≤ heap_fuel s)%nat.
Proof.
  intros [R1 _ _ He _ _ _ Hz _ _]. unfold heap_fuel, sizeof_heap_block. rewrite R1, <- He.
  pose proof (after_ge KERNEL_HEAP l Hz). dlia.
Qed.

Lemma find_free_block_ok s l n : heap_rep s l →
  find_free_block n s = Ok (default 0 (first_fit n KERNEL_HEAP l), s).
Proof.
  intros R. pose proof (find_loop_ok s n [] l (S (heap_fuel s)) R) as Hl. simpl after in Hl.
  unfold find_free_block, mbind, M_bind, gets. rewrite (hr_first _ _ R).
  pose proof (hr_ne _ _ R). pose proof (fuel_enough _ _ R).
  destruct l; [done|]. cbn [head_addr] in Hl. apply Hl. lia.
Qed.

Lemma last_loop_ok s l1 l2 b fuel : heap_rep s (l1 ++ l2 ++ [b]) → (length l2 < fuel)%nat →
  last_loop fuel (after KERNEL_HEAP l1) s = Ok (after KERNEL_HEAP (l1 ++ l2), s).
Proof.
  revert l1 fuel. induction l2 as [|c l2 IH]; intros l1 fuel R Hf; (destruct fuel as [|fuel]; [simpl in Hf; lia|]);
    destruct (rep_at _ _ _ _ R) as [[_ Hn _ _] Hlo _ Hz Hhi]; pose proof window as (W1 & _);
    cbn [last_loop]; unfold sizeof_heap_block, next_of in *;
    (assert (pg_valid (back s) (after KERNEL_HEAP l1 + 8) = true) as Hv by (apply (hr_valid _ _ R); lia));
    unfold mbind, M_bind at 1, hload; rewrite Hv, Hn.
  - by rewrite app_nil_r.
  - rewrite truthy_head by lia. rewrite bool_decide_eq_true_2 by (by destruct l2).
    replace (head_addr _ _ _) with (after KERNEL_HEAP (l1 ++ [c])) by (rewrite after_app; by destruct l2).
    specialize (IH (l1 ++ [c]) fuel). rewrite <- !app_assoc in IH. apply IH; [done|simpl in Hf; lia].
Qed.

Lemma find_last_block_ok s l b : heap_rep s (l ++ [b]) →
  find_last_block s = Ok (after KERNEL_HEAP l, s).
Proof.
  intros R. pose proof (fuel_enough _ _ R) as Hf. rewrite length_app in Hf. simpl in Hf.
  unfold find_last_block, mbind, M_bind, gets. rewrite (hr_first _ _ R).
  apply (last_loop_ok s [] l b); [done|lia].
Qed.

(** Two consecutive calls into the page layer. *)
Lemma on_back_bind {A C D} (m : M B A) (f : A → M B C) (k : C → M (heap_state B) D) s Q E :
  wp (x ← m; f x) (λ c b', wp (k c) Q E (set_back b' s)) E (back s) →
  wp (x ← on_back m; c ← on_back (f x); k c) Q E s.
Proof.
  intros H. unfold wp, mbind, M_bind, on_back, zoom in *. destruct (m (back s)) as [[x b]| | |]; try done.
  simpl. destruct (f x b) as [[c b']| | |]; done.
Qed.

(** Mapping further pages behind the window. *)
Definition grow (s : heap_state B) (b' : B) (n : Z) (m' : gmap Z Z) : heap_state B :=
  mkHS (mkHeap (start (g_heap s)) (end_ (g_heap s) + n * PAGE_SIZE) (first_block (g_heap s))) m' b'.

Definition backed_to (s : heap_state B) (b' : B) (n : Z) : Prop :=
  pg_inv b' ∧ (0 ≤ pg_free b' ∧ pg_free b' + n ≤ pg_free (back s)) ∧
  ∀ a, KERNEL_HEAP ≤ a < end_ (g_heap s) + n * PAGE_SIZE → pg_valid b' a = true.

Lemma grow_last_ok s l z fr b' n :
  heap_rep s (l ++ [(z, fr)]) → backed_to s b' n → 0 < n →
  heap_rep (grow s b' n (<[payload_size_of (after KERNEL_HEAP l) := z + n * PAGE_SIZE]> (hmem s)))
           (l ++ [(z + n * PAGE_SIZE, fr)]).
Proof.
  intros R (Hi & Hfr & Hv) Hn. destruct (rep_at _ _ _ _ R) as [[H1 H2 H3 H4] Hlo _ Hz Hhi].
  destruct R as [R1 R2 Hs He _ Hcap Hp Hzs _ _]. apply sizes_app in Hzs as [Hz1 _].
  apply seg_app in Hs as [Hs1 _]. rewrite after_app in He. unfold PAGE_SIZE in *. simpl in *.
  split; simpl; try done; unfold sizeof_heap_block in *.
  - apply seg_app. split.
    + eapply seg_frame; [exact Hs1|done|]. intros x Hx. mlook.
    + simpl. split; [|done]. split; mlook.
  - rewrite after_app. simpl. unfold sizeof_heap_block, PAGE_SIZE. lia.
  - by destruct l.
  - unfold PAGE_SIZE. lia.
  - unfold PAGE_SIZE. dlia.
  - rewrite sizes_app. split; [done|]. apply sizes_cons. split; [simpl; dlia|constructor].
Qed.

Lemma grow_new_ok s l z fr b' n : let a := after KERNEL_HEAP l in let e := end_ (g_heap s) in
  heap_rep s (l ++ [(z, fr)]) → backed_to s b' n → 0 < n →
  heap_rep (grow s b' n (<[next_of a := e]> (<[payload_size_of e := n * PAGE_SIZE - sizeof_heap_block]>
     (<[prev_of e := a]> (<[next_of e := 0]> (<[free_of e := 1]> (hmem s)))))))
           (l ++ [(z, fr); (n * PAGE_SIZE - sizeof_heap_block, true)]).
Proof.
  intros a e R (Hi & Hfr & Hv) Hn. destruct (rep_at _ _ _ _ R) as [[H1 H2 H3 H4] Hlo _ Hz Hhi].
  destruct R as [R1 R2 Hs He _ Hcap Hp Hzs _ _]. apply sizes_app in Hzs as [Hz1 _].
  apply seg_app in Hs as [Hs1 _]. rewrite after_app in He. unfold PAGE_SIZE in *. simpl in *. fold e in Hp, He, Hhi.
  fold a in Hs1, He, Hhi, H1, H2, H3, H4. unfold sizeof_heap_block in *.
  split; simpl; try done; unfold sizeof_heap_block in *.
  - apply seg_app. fold a. split.
    + eapply seg_frame; [exact Hs1|done|]. intros x Hx. fold a in Hx. mlook.
    + simpl. unfold sizeof_heap_block. rewrite He. split; [|split; [|done]]; split; mlook.
  - rewrite after_app. simpl. unfold sizeof_heap_block, PAGE_SIZE. fold a e. lia.
  - by destruct l.
  - unfold PAGE_SIZE. fold e in Hcap |- *. lia.
  - unfold PAGE_SIZE. fold e. dlia.
  - rewrite sizes_app. split; [done|]. apply sizes_cons. split; [done|].
    apply sizes_cons. split; [simpl; dlia|constructor].
Qed.

Lemma expand_heap_ok s l n : heap_wf s l → 16 ≤ n < 2 ^ 32 - 2 ^ 13 →
  wp (expand_heap (u64 (sizeof_heap_block + n)))
     (λ r s', ∃ l1 w, heap_wf s' (l1 ++ [(w, true)]) ∧ r = after KERNEL_HEAP l1 ∧ n ≤ w ∧
        live KERNEL_HEAP (l1 ++ [(w, true)]) = live KERNEL_HEAP l) (λ _, True) s.
Proof.
  intros [R C] Hn. pose proof window as (W1 & _ & W3 & W4 & W5). pose proof (hr_limit _ _ R) as Hlim.
  pose proof (hr_cap _ _ R) as Hcap. pose proof pg_limit_stack as Hls.
  destruct (exists_last (hr_ne _ _ R)) as (l0 & [z fr] & ->).
  pose proof (rep_at _ _ _ _ R) as [[H1 H2 H3 H4] Hlo _ Hz Hhi]. pose proof (hr_valid _ _ R) as V.
  pose proof (hr_sizes _ _ R) as Hzs. pose proof (hr_page _ _ R) as Hpg.
  assert (after KERNEL_HEAP l0 + 32 + z = end_ (g_heap s)) as He.
  { rewrite <- (hr_end _ _ R), after_app. done. }
  set (a := after KERNEL_HEAP l0) in *. simpl in *. unfold sizeof_heap_block, payload_size_of, next_of, prev_of, free_of in *.
  unfold expand_heap. apply wp_bind. eapply wp_ok; [by eapply find_last_block_ok|]. fold a.
  unfold HEAP_BLOCK_END, payload_size_of, sizeof_heap_block. repeat hstep. rewrite (u64_small (a + 32 + z)), He by lia.
  rewrite Z.eqb_refl. unfold ASSERT. repeat hstep. rewrite !(u64_small (32 + n)), u64_small by (unfold PAGE_SIZE; lia).
  set (k := (32 + n + PAGE_SIZE - 1) / PAGE_SIZE).
  assert (n + 32 ≤ k * PAGE_SIZE < n + 32 + PAGE_SIZE) as Hk by (subst k; unfold PAGE_SIZE; dlia).
  assert (0 < k < 2 ^ 20) as Hk' by (unfold PAGE_SIZE in Hk; lia).
  replace (if k <? HEAP_EXPAND_PAGES then HEAP_EXPAND_PAGES else k) with k
    by (unfold HEAP_EXPAND_PAGES; destruct (Z.ltb_spec k 1); lia).
  assert (PAGE_SIZE = 4096) as HPS by done.
  unfold free_of, next_of, prev_of. apply wp_unbind, (on_back_bind _ (λ pa, pg_map (end_ (g_heap s)) pa k PAGE_WRITABLE)).
  eapply wp_mono; [apply pg_extend; [apply R|lia|done|lia|lia]| |done].
  intros [] b' (Hi & Hf0 & Hfr & Hnew & Hold).
  assert (∀ x, KERNEL_HEAP ≤ x < end_ (g_heap s) + k * PAGE_SIZE → pg_valid b' x = true) as V'.
  { intros x Hx. destruct (Z.lt_ge_cases x (end_ (g_heap s))); [apply Hold, V; lia|apply Hnew; lia]. }
  clear V Hnew Hold. cbv beta. repeat hstep. cbn [g_heap set_back end_ start first_block].
  rewrite (u64_small (_ + k * _)), truthy_b2z by lia.
  apply sizes_app in Hzs as Hzs'. destruct Hzs' as [Hz1 _].
  apply coalesced_app in C as (C1 & _ & C3). destruct fr.
  - repeat hstep. rewrite u64_small by lia. exists l0, (z + k * PAGE_SIZE). fold a.
    split; [split|split; [done|split; [lia|]]].
    + apply (grow_last_ok s l0 z true b' k); [done|done|lia].
    + apply coalesced_app. by split_and!.
    + rewrite !live_app; [done|..]; try done; (apply sizes_cons; split; [simpl; dlia|constructor]).
  - repeat hstep. rewrite He, (u64_small (end_ _)), u64_small by lia. repeat hstep.
    exists (l0 ++ [(z, false)]), (k * PAGE_SIZE - 32). rewrite <- !app_assoc. simpl app.
    split; [split|split; [|split; [lia|]]].
    + apply (grow_new_ok s l0 z false b' k); [done|done|lia].
    + apply coalesced_app. split_and!; [done|done|]. simpl in *. by rewrite andb_false_r.
    + rewrite after_app. simpl. unfold sizeof_heap_block. fold a. lia.
    + rewrite !live_app; [done|..]; try done; repeat (apply sizes_cons; split; [simpl; dlia|]); constructor.
Qed.

Lemma live_free_fresh a l1 z l2 : sizes_ok (l1 ++ (z, true) :: l2) →
  live a (l1 ++ (z, true) :: l2) !! (after a l1 + sizeof_heap_block) = None.
Proof.
  intros Hz. pose proof Hz as [Hz1 [Hb Hz2]%sizes_cons]%sizes_app. simpl in Hb.
  destruct (live a _ !! _) as [w|] eqn:E; [exfalso|done]. rewrite live_app in E; [|done|by apply sizes_cons].
  simpl in E. apply lookup_union_Some_raw in E as [E|[_ E]]; apply live_bounds in E; try done; unfold sizeof_heap_block in *; lia.
Qed.

Lemma live_take a l1 z w l2 rest : sizes_ok (l1 ++ (z, true) :: l2) → sizes_ok ((w, false) :: rest) →
  live (after a l1 + sizeof_heap_block + w) rest = live (after a l1 + sizeof_heap_block + z) l2 →
  live a (l1 ++ (w, false) :: rest) = <[after a l1 + sizeof_heap_block := w]> (live a (l1 ++ (z, true) :: l2)).
Proof.
  intros Hz Hw Hr. pose proof (live_free_fresh a l1 z l2 Hz) as Hf. pose proof Hz as [Hz1 Hz2]%sizes_app.
  rewrite !live_app in * by done. simpl in *. rewrite Hr. apply lookup_union_None in Hf as [Hf _].
  by rewrite insert_union_r.
Qed.

Lemma align_up_spec size : 0 < size < 2 ^ 63 →
  size ≤ align_up size < size + 16 ∧ align_up size mod 16 = 0 ∧ 16 ≤ align_up size.
Proof.
  intros Hs. unfold align_up, HEAP_ALIGN_SIZE.
  rewrite (u64_small (size + 16 - 1)) by lia. rewrite u64_small by dlia. dlia.
Qed.

Lemma block_min_size : HEAP_BLOCK_MIN_SIZE = 48.
Proof. by vm_compute. Qed.

(** The end of [kmalloc]: taking a free block that is large enough. *)
Lemma take_ok s l1 z l2 n : heap_wf s (l1 ++ (z, true) :: l2) →
  16 ≤ n < 2 ^ 33 → n mod 16 = 0 → n ≤ z → let p := after KERNEL_HEAP l1 + sizeof_heap_block in
  wp (ASSERT (truthy (after KERNEL_HEAP l1)) ;;
      sz ← hload (payload_size_of (after KERNEL_HEAP l1));
      ASSERT (n <=? sz) ;;
      when (u64 (n + HEAP_BLOCK_MIN_SIZE) <=? sz) (split_block (after KERNEL_HEAP l1) n) ;;
      hstore (free_of (after KERNEL_HEAP l1)) 0 ;;
      mret (u64 (after KERNEL_HEAP l1 + sizeof_heap_block)))
     (λ r s', r = p ∧ ∃ l' w, heap_wf s' l' ∧ n ≤ w ∧
        live KERNEL_HEAP l' = <[p := w]> (live KERNEL_HEAP (l1 ++ (z, true) :: l2))) never s.
Proof.
  intros [R C] Hn Hm Hz p. pose proof window as (W1 & _ & _ & _ & W5). pose proof (hr_limit _ _ R) as Hlim.
  pose proof (hr_valid _ _ R) as V. pose proof (hr_sizes _ _ R) as Hzs.
  destruct (rep_at _ _ _ _ R) as [[H1 _ _ _] Hlo _ Hzz Hhi]. simpl in H1, Hzz, Hhi.
  unfold sizeof_heap_block, payload_size_of in *. rewrite truthy_pos by lia. unfold ASSERT.
  repeat hstep. destruct (Z.leb_spec n z); [|lia]. repeat hstep. rewrite block_min_size, u64_small by lia.
  assert (∀ s' w rest, heap_rep s' (l1 ++ (w, true) :: rest) → back s' = back s → g_heap s' = g_heap s →
    n ≤ w ≤ z → coalesced rest →
    live (after KERNEL_HEAP l1 + 32 + w) rest = live (after KERNEL_HEAP l1 + 32 + z) l2 →
    wp (hstore (free_of (after KERNEL_HEAP l1)) 0;; mret (u64 (after KERNEL_HEAP l1 + 32)))
      (λ r s', r = p ∧ ∃ l' w, heap_wf s' l' ∧ n ≤ w ∧
         live KERNEL_HEAP l' = <[p := w]> (live KERNEL_HEAP (l1 ++ (z, true) :: l2))) never s') as Hend.
  { intros s' w rest R' Eb Eg Hw Hc Hlv. rewrite <- Eb in V. rewrite <- Eg in V, Hhi, Hlim. unfold free_of. repeat hstep.
    rewrite u64_small by lia. split; [done|]. exists (l1 ++ (w, false) :: rest), w.
    split; [split; [by apply (mark_ok s' l1 w true false)|]|split; [lia|]].
    - apply coalesced_app in C as (C1 & _ & _). apply coalesced_app. split_and!; [done|done|apply andb_false_r].
    - apply (live_take KERNEL_HEAP l1 z w l2 rest); [done| |done].
      apply hr_sizes, sizes_app in R' as [_ [? ?]%sizes_cons]. by apply sizes_cons. }
  apply coalesced_app in C as (_ & [C2 C3] & _).
  destruct (Z.leb_spec (n + 48) z); cbn [when].
  - eapply wp_mono; [apply (split_block_ok s l1 z true l2 n); [done|lia|done|lia]| |done]. intros [] s' (m' & -> & R').
    apply (Hend _ n ((z - n - 32, true) :: l2)); [done|done|done|lia|done|]. cbn [live fst snd]. unfold sizeof_heap_block.
    by replace (after KERNEL_HEAP l1 + 32 + n + 32 + (z - n - 32)) with (after KERNEL_HEAP l1 + 32 + z) by lia.
  - apply wp_ret. apply (Hend s z l2); try done.
Qed.

Lemma first_fit_none n a l b : first_fit n a l = None → b ∈ l → b.2 = true → b.1 < n.
Proof.
  revert a. induction l as [|c l IH]; intros a; simpl; [by intros _ ?%elem_of_nil|].
  destruct (fits n c) eqn:E; [done|]. intros Hf [->|Hb]%elem_of_cons; [|by eapply IH].
  intros Hc. unfold fits in E. rewrite Hc in E. simpl in E. by apply Z.leb_gt in E.
Qed.

Lemma kmalloc_ok s l size : heap_wf s l → 0 < size ≤ 2 ^ 31 →
  wp (kmalloc size) (λ p s', ∃ l' w, heap_wf s' l' ∧ align_up size ≤ w ∧
        p mod 16 = 0 ∧ live KERNEL_HEAP l !! p = None ∧
        live KERNEL_HEAP l' = <[p := w]> (live KERNEL_HEAP l))
     (λ _, first_fit (align_up size) KERNEL_HEAP l = None) s.
Proof.
  intros W Hs. pose proof window as (W1 & W2 & _).
  destruct (align_up_spec size ltac:(lia)) as (Ha1 & Ha2 & Ha3). unfold kmalloc.
  destruct (Z.eqb_spec size 0); [lia|]. apply wp_bind. eapply wp_ok; [by apply find_free_block_ok, W|].
  assert (∀ t l1 z l2, heap_wf t (l1 ++ (z, true) :: l2) → align_up size ≤ z →
    live KERNEL_HEAP (l1 ++ (z, true) :: l2) = live KERNEL_HEAP l →
    wp (ASSERT (truthy (after KERNEL_HEAP l1)) ;; sz ← hload (payload_size_of (after KERNEL_HEAP l1));
        ASSERT (align_up size <=? sz) ;;
        when (u64 (align_up size + HEAP_BLOCK_MIN_SIZE) <=? sz) (split_block (after KERNEL_HEAP l1) (align_up size)) ;;
        hstore (free_of (after KERNEL_HEAP l1)) 0 ;;
        mret (u64 (after KERNEL_HEAP l1 + sizeof_heap_block)))
      (λ p s', ∃ l' w, heap_wf s' l' ∧ align_up size ≤ w ∧ p mod 16 = 0 ∧ live KERNEL_HEAP l !! p = None ∧
         live KERNEL_HEAP l' = <[p := w]> (live KERNEL_HEAP l)) (λ _, first_fit (align_up size) KERNEL_HEAP l = None) t) as Htake.
  { intros t l1 z l2 Wt Hz Hlv. eapply wp_mono; [apply (take_ok t l1 z l2 (align_up size)); [done|lia|done|done]| |done].
    intros r s' (-> & l' & w & W' & Hw & Hl'). exists l', w. rewrite <- Hlv.
    pose proof (hr_sizes _ _ (proj1 Wt)) as Hzs.
    split_and!; [done|done| |by apply live_free_fresh|done].
    apply sizes_app in Hzs as [Hz1 _]. pose proof (after_mod KERNEL_HEAP l1 W2 Hz1). unfold sizeof_heap_block. dlia. }
  destruct (first_fit (align_up size) KERNEL_HEAP l) as [r|] eqn:E; simpl.
  - pose proof (first_fit_split _ _ _ _ E) as (l1 & z & l2 & El & Er & Hz). subst l r.
    destruct (rep_at _ _ _ _ (proj1 W)) as [_ Hlo _ _ _]. rewrite truthy_pos at 1 by lia. apply wp_bind, wp_ret.
    by apply (Htake s l1 z l2).
  - apply wp_bind. eapply wp_mono; [apply (expand_heap_ok s l (align_up size)); [done|lia]| |done].
    intros r s' (l1 & w & W' & -> & Hw & Hlv). by apply (Htake s' l1 w []).
Qed.

Lemma coalesce_next_ok s l1 z l2 : heap_rep s (l1 ++ (z, true) :: l2) → coalesced l2 →
  wp (coalesce_next (after KERNEL_HEAP l1))
     (λ _ s', ∃ z' l2', heap_rep s' (l1 ++ (z', true) :: l2') ∧ coalesced l2' ∧ head_free l2' = false ∧
        live (after KERNEL_HEAP l1 + sizeof_heap_block + z') l2' =
        live (after KERNEL_HEAP l1 + sizeof_heap_block + z) l2) never s.
Proof.
  intros R C. pose proof window as (W1 & _ & _ & _ & W5). pose proof (hr_limit _ _ R).
  pose proof (hr_valid _ _ R) as V. destruct (rep_at _ _ _ _ R) as [[H1 H2 H3 H4] Hlo _ Hz Hhi]. simpl in *.
  set (a := after KERNEL_HEAP l1) in *. unfold coalesce_next, sizeof_heap_block, payload_size_of, next_of, free_of in *.
  repeat hstep. rewrite truthy_head by lia. destruct l2 as [|[z2 f2] l2].
  { apply wp_ret. by exists z, []. }
  rewrite bool_decide_eq_true_2 by done. cbn [head_addr].
  destruct (rep_at2 _ _ _ _ _ R) as [[N1 N2 _ N4] _ _ Hz2 Hhi2]. fold a in N1, N2, N4, Hhi2.
  unfold sizeof_heap_block, payload_size_of, next_of, free_of in *. cbn [fst snd] in *.
  repeat hstep. rewrite truthy_b2z. destruct f2; cbn [when]; last first.
  { apply wp_ret. by exists z, ((z2, false) :: l2). }
  destruct C as [Cf C]. simpl in Cf. repeat hstep. rewrite u64_small by lia.
  apply relink_wp; [lia|intros Hl2; destruct l2; [done|]; cbn [length] in Hhi2; unfold prev_of; hvalid|].
  exists (z + (32 + z2)), l2. split; [|split_and!; [done|done|]]; last first.
  { cbn [live fst snd]. unfold sizeof_heap_block. by replace (a + 32 + (z + (32 + z2))) with (a + 32 + z + 32 + z2) by lia. }
  apply (rep_replace s l1 [(z, true); (z2, true)] [(z + (32 + z2), true)] l2); try done.
  - apply sizes_cons; split; [simpl; dlia|constructor].
  - simpl. unfold sizeof_heap_block. fold a. lia.
  - simpl. unfold sizeof_heap_block. fold a. cbn [hmem set_hmem]. split; [|done]. 
    split; mlook; rewrite relink_other by (unfold prev_of; lia); mlook.
  - intros x Hx. simpl in Hx |- *. unfold sizeof_heap_block in *. fold a in Hx |- *. cbn [hmem set_hmem].
    destruct l2 as [|b l2]; simpl; mlook.
    destruct (decide (x = a + 32 + z + 32 + z2 + 16)) as [->|]; mlook.
Qed.

Lemma coalesce_prev_ok s l1 z l2 : heap_rep s (l1 ++ (z, true) :: l2) →
  coalesced l1 → coalesced l2 → head_free l2 = false →
  wp (coalesce_prev (after KERNEL_HEAP l1))
     (λ _ s', ∃ l', heap_wf s' l' ∧
        live KERNEL_HEAP l' = live KERNEL_HEAP (l1 ++ (z, true) :: l2)) never s.
Proof.
  intros R C1 C2 Cf. pose proof window as (W1 & _ & _ & _ & W5). pose proof (hr_limit _ _ R) as Hlim.
  pose proof (hr_valid _ _ R) as V. pose proof (hr_sizes _ _ R) as Hzs.
  assert (last_free l1 = false → heap_wf s (l1 ++ (z, true) :: l2)) as Hsame.
  { intros Hl. split; [done|]. apply coalesced_app. rewrite Hl. by split_and!. }
  destruct (rep_at _ _ _ _ R) as [[H1 H2 H3 H4] Hlo _ Hz Hhi]. cbn [fst snd] in *.
  unfold coalesce_prev, sizeof_heap_block, payload_size_of, next_of, free_of, prev_of in *.
  repeat hstep. destruct l1 as [|[pz pf] l0 _] using rev_ind.
  { apply wp_ret. cbv beta. eexists. split; [by apply Hsame|done]. }
  rewrite <- app_assoc in R, Hzs, Hsame |- *. rewrite last_free_snoc in Hsame. cbn [app snd] in *.
  destruct (rep_at _ _ _ _ R) as [[P1 P2 P3 P4] Plo _ Pz Phi]. cbn [fst snd] in *.
  rewrite last_addr_app. cbn [last_addr]. rewrite after_app in *. cbn [after fst snd] in *.
  set (a := after KERNEL_HEAP l0) in *. unfold sizeof_heap_block, payload_size_of, next_of, free_of in *.
  rewrite truthy_pos by lia. repeat hstep. rewrite truthy_b2z. destruct pf; cbn [when]; last first.
  { apply wp_ret. cbv beta. eexists. split; [by apply Hsame|done]. }
  repeat hstep. rewrite u64_small by lia.
  apply relink_wp; [lia|intros Hl2; destruct l2; [done|]; cbn [length] in Hhi; unfold prev_of; hvalid|].
  exists (l0 ++ (pz + (32 + z), true) :: l2). apply sizes_app in Hzs as Hzs'. destruct Hzs' as [Hz0 _].
  split; [split|].
  - apply (rep_replace s l0 [(pz, true); (z, true)] [(pz + (32 + z), true)] l2); try done.
    + apply sizes_cons; split; [simpl; dlia|constructor].
    + simpl. unfold sizeof_heap_block. fold a. lia.
    + simpl. unfold sizeof_heap_block. fold a. cbn [hmem set_hmem]. split; [|done].
      split; mlook; rewrite relink_other by (unfold prev_of; lia); mlook.
    + intros x Hx. simpl in Hx |- *. unfold sizeof_heap_block in *. fold a in Hx |- *. cbn [hmem set_hmem].
      destruct l2 as [|b l2]; simpl; mlook.
      destruct (decide (x = a + 32 + pz + 32 + z + 16)) as [->|]; mlook.
  - apply coalesced_app in C1 as (C0 & _ & Cl). apply coalesced_app. by split_and!.
  - apply sizes_app in Hzs as [_ [? [? ?]%sizes_cons]%sizes_cons].
    rewrite !live_app; try done; try (repeat (apply sizes_cons; split; [simpl; dlia|]); done).
    fold a. cbn [live fst snd]. unfold sizeof_heap_block.
    by replace (a + 32 + (pz + (32 + z))) with (a + 32 + pz + 32 + z) by lia.
Qed.

Lemma live_delete a l1 z l2 : sizes_ok (l1 ++ (z, false) :: l2) →
  live a (l1 ++ (z, true) :: l2) = delete (after a l1 + sizeof_heap_block) (live a (l1 ++ (z, false) :: l2)).
Proof.
  intros Hz. assert (sizes_ok (l1 ++ (z, true) :: l2)) as Hz'.
  { apply sizes_app in Hz as [? [? ?]%sizes_cons]. apply sizes_app. split; [done|]. by apply sizes_cons. }
  rewrite (live_take a l1 z z l2 l2 Hz'); [|by apply sizes_app in Hz as [_ ?]|done].
  by rewrite delete_insert_id by (by apply live_free_fresh).
Qed.

Lemma kfree_ok s l p sz : heap_wf s l → live KERNEL_HEAP l !! p = Some sz →
  wp (kfree p) (λ _ s', ∃ l', heap_wf s' l' ∧ live KERNEL_HEAP l' = delete p (live KERNEL_HEAP l)) never s.
Proof.
  intros [R C] (l1 & l2 & -> & ->)%live_split. pose proof window as (W1 & _ & _ & _ & W5).
  pose proof (hr_limit _ _ R) as Hlim. pose proof (hr_valid _ _ R) as V. pose proof (hr_sizes _ _ R) as Hzs.
  destruct (rep_at _ _ _ _ R) as [_ Hlo _ Hz Hhi]. cbn [fst snd] in *.
  unfold kfree. rewrite Z.add_simpl_r. rewrite u64_small by (unfold sizeof_heap_block in *; lia).
  apply coalesced_app in C as (C1 & [_ C2] & _).
  apply wp_bind, hstore_wp; [unfold free_of, sizeof_heap_block in *; hvalid|].
  apply wp_bind. eapply wp_mono; [apply (coalesce_next_ok _ l1 sz l2); [by apply (mark_ok s l1 sz false true)|done]| |done].
  intros [] s1 (z' & l2' & R1 & C2' & Cf & Hlv).
  eapply wp_mono; [by apply (coalesce_prev_ok s1 l1 z' l2')| |done].
  intros [] s2 (l' & W2 & Hl'). exists l'. split; [done|]. rewrite Hl'.
  rewrite <- (live_delete KERNEL_HEAP l1 sz l2 Hzs).
  apply hr_sizes in R1. apply sizes_app in R1 as [? ?], Hzs as [? [? ?]%sizes_cons].
  rewrite !live_app; try done; [|by apply sizes_cons]. cbn [live fst snd]. by rewrite Hlv.
Qed.

Lemma heap_init_ok s : pg_inv (back s) → KERNEL_HEAP + PAGE_SIZE * pg_free (back s) ≤ pg_limit B →
  wp heap_init (λ _ s', heap_wf s' [(16352, true)] ∧ end_ (g_heap s') = KERNEL_HEAP + 16384) (λ _, True) s.
Proof.
  intros Hi Hcap. pose proof window as (W1 & W2 & W3 & W4 & W5). unfold heap_init.
  apply (on_back_bind _ (λ pa, pg_map KERNEL_HEAP pa HEAP_INITAL_PAGES PAGE_WRITABLE)).
  assert (PAGE_SIZE = 4096 ∧ HEAP_INITAL_PAGES = 4) as [HP HI] by done. rewrite HP, HI.
  eapply wp_mono; [apply pg_extend; [done|lia|done|lia|lia]| |done].
  intros [] b' (Hi' & Hf0 & Hfr & V & _). rewrite HP in V. cbv beta.
  unfold payload_size_of, next_of, prev_of, free_of, sizeof_heap_block.
  repeat hstep. rewrite (u64_small (KERNEL_HEAP + _)), u64_small by lia.
  split; [|done]. split; [|done]. split; simpl; try done; unfold sizeof_heap_block.
  - split; [|done]. split; mlook.
  - rewrite HP in *. lia.
  - constructor; [split; [simpl; lia|done]|constructor].
Qed.
End proofs.

(** ** The page layer provides the backing *)

(** A kernel access to [a] finds a present leaf entry. *)
Definition vm_valid (s : vmm_state) (a : Z) : bool :=
  match walk (g_kernel_address_space s) a s with
  | Ok (Some pt, _) =>
      match mem s !! entry_addr pt (pt_index a) with Some w => present w | None => false end
  | _ => false
  end.

#[export] Instance vm_backing : PageBacking vmm_state := {
  pg_alloc n := on_pmm (pmm_alloc_pages n);
  pg_map va pa n flags := (k ← gets g_kernel_address_space; vmm_map_pages k va pa n flags);
  pg_valid := vm_valid
}.

Definition vm_inv (s : vmm_state) : Prop :=
  ∃ root T, vspace s root T ∧ g_kernel_address_space s = space_at root.

Lemma vm_valid_xlate s root T a : vspace s root T → g_kernel_address_space s = space_at root →
  vm_valid s a = bool_decide (is_Some (xlate s T a)).
Proof.
  intros V K. unfold vm_valid, xlate. rewrite K, (walk_ok V).
  destruct (T !! vpath a) as [pt|]; simpl; [|done].
  destruct (mem s !! _) as [w|]; simpl; [|done]. by destruct (present w).
Qed.

(** Frames not in use. *)
Definition vm_free (s : vmm_state) : Z := page_count (pmm s) - used_frames (pmm s).

Lemma grows_frames p p' : grows p p' → used_frames p ≤ used_frames p'.
Proof.
  intros [Hp Hu _]. unfold used_frames. rewrite Hp. apply count_upto_mono. intros i Hi. apply Hu. lia.
Qed.

Lemma page_off_in va a n : va mod 4096 = 0 → va ≤ a < va + n * 4096 → n ≤ 2 ^ 36 → page_off va a < n.
Proof.
  intros Hva Ha Hn. unfold page_off, vpn. rewrite <- Zminus_mod, Z.mod_small; dlia.
Qed.

(** Taking a run of frames and mapping it in the kernel's space. *)
Lemma extend_ok s root T va n : vspace s root T → g_kernel_address_space s = space_at root → 0 < n < 2 ^ 20 → va mod PAGE_SIZE = 0 →
  wp (pa ← pg_alloc n; pg_map va pa n PAGE_WRITABLE)
     (λ _ s', ∃ p pm T', run_taken (pmm s) pm p n ∧ pmm_wf pm ∧
        mapped (set_pmm pm s) s' root va (p * 4096) n PAGE_WRITABLE T T' ∧
        0 ≤ vm_free s' ∧ vm_free s' + n ≤ vm_free s ∧ (∀ a, va ≤ a < va + n * PAGE_SIZE → pg_valid s' a = true) ∧
        ∀ a, pg_valid s a = true → pg_valid s' a = true) (λ _, True) s.
Proof.
  intros Hvs Hk Hn Hva. pose proof (vs_pmm _ _ _ Hvs) as Hpm. simpl.
  apply wp_bind, wp_zoom. eapply wp_mono; [apply alloc_pages_ok; [apply Hpm..|lia]| |done].
  intros a pm (p & -> & Hr). pose proof (run_taken_wf _ _ _ _ Hpm Hn Hr) as Hwf.
  pose proof (vspace_takes _ _ _ _ _ _ Hvs Hwf (rt_takes _ _ _ _ Hr)) as Hvs1.
  wp_steps. simpl. rewrite Hk. eapply wp_mono; [apply map_pages_ok; [exact Hvs1|lia]| |done].
  intros [] s' (T' & Hmp). exists p, pm, T'. split; [done|]. split; [done|]. split; [done|]. destruct Hmp as [V _ P _ K X _ _].
  assert (g_kernel_address_space s' = space_at root) as K' by (by rewrite K).
  pose proof (grows_frames _ _ P) as Hg. pose proof (rt_frames _ _ _ _ Hr). pose proof (gw_pages _ _ P) as Hpc.
  pose proof (sl_pages _ _ (tk_layout _ _ _ _ (rt_takes _ _ _ _ Hr))) as Hpl. simpl in Hg, Hpc.
  pose proof (used_frames_range _ (wf_bitmap _ (vs_pmm _ _ _ V))).
  split; [unfold vm_free; lia|]. split; [unfold vm_free; lia|]. split; intros u Hu; rewrite (vm_valid_xlate s' root T' u V K'), X.
  - pose proof (page_off_in va u n Hva Hu ltac:(lia)) as Hp. apply Z.ltb_lt in Hp. rewrite Hp.
    by rewrite bool_decide_eq_true_2 by eauto.
  - rewrite (vm_valid_xlate s root T u Hvs Hk) in Hu. destruct (page_off va u <? n); [|done].
    by rewrite bool_decide_eq_true_2 by eauto.
Qed.

(** The page layer's promise for a window that ends at [lim]. *)
Definition vm_laws_to (lim : Z) (Hlim : lim ≤ KERNEL_STACK_BASE) : PageLaws vmm_state.
Proof.
  refine {| pg_inv := vm_inv; pg_free := vm_free; pg_limit := lim |}.
  - exact Hlim.
  - intros b va n (root & T & Hvs & Hk) Hn Hva _ _. eapply wp_mono; [by apply (extend_ok b root T)| |done].
    intros [] b' (p & pm & T' & _ & _ & Hmp & H0 & Hf & Hv). split; [|done]. exists root, T'.
    split; [apply Hmp|]. by rewrite (mp_kspace _ _ _ _ _ _ _ _ _ Hmp).
Defined.

#[export] Instance vm_laws : PageLaws vmm_state := vm_laws_to KERNEL_STACK_BASE (Z.le_refl _).

(** ** The heap's contract *)

(** [heap_init] on any page layer that keeps its promise ends with the heap
    invariant, one free block covering the four initial pages, and nothing
    allocated. *)
Theorem heap_init_correct {B} {PB : PageBacking B} {PL : PageLaws B} (s : heap_state B) :
  pg_inv (back s) → KERNEL_HEAP + PAGE_SIZE * pg_free (back s) ≤ pg_limit B →
  wp heap_init (λ _ s', heap_wf s' [(16352, true)] ∧ end_ (g_heap s') = KERNEL_HEAP + 16384 ∧
                        live KERNEL_HEAP [(16352, true)] = ∅) (λ _, True) s.
Proof.
  intros Hi Hc. eapply wp_mono; [by apply heap_init_ok| |done]. by intros [] s' [? ?].
Qed.

(** C3: [kmalloc] refines the abstract allocator: it returns a 16-byte aligned
    address that was not live, backed by a block of at least the requested size
    that lies inside the mapped window and overlaps no live block, adds exactly
    that block to the live ones, and keeps the heap invariant (layout, links,
    no two adjacent free blocks).  It neither faults nor loops, and it can panic
    only when no free block is large enough. *)
Theorem kmalloc_correct {B} {PB : PageBacking B} {PL : PageLaws B} (s : heap_state B) l size :
  heap_wf s l → 0 < size ≤ 2 ^ 31 →
  wp (kmalloc size) (λ p s', ∃ l' w, heap_wf s' l' ∧ size ≤ w ∧ p mod 16 = 0 ∧
        KERNEL_HEAP < p ∧ p + w ≤ end_ (g_heap s') ∧
        live KERNEL_HEAP l !! p = None ∧ live KERNEL_HEAP l' = <[p := w]> (live KERNEL_HEAP l) ∧
        ∀ q z, live KERNEL_HEAP l !! q = Some z → p + w ≤ q ∨ q + z ≤ p)
     (λ _, ∀ b, b ∈ l → b.2 = true → b.1 < align_up size) s.
Proof.
  intros W Hs. eapply wp_mono; [by apply kmalloc_ok| |intros e Hn b; by apply (first_fit_none _ KERNEL_HEAP)].
  intros p s' (l' & w & W' & Hw & Ha & Hf & Hlv). exists l', w.
  pose proof (hr_sizes _ _ (proj1 W')) as Hz. pose proof (align_up_spec size ltac:(lia)).
  assert (live KERNEL_HEAP l' !! p = Some w) as Hp by (rewrite Hlv; apply lookup_insert_eq).
  destruct (live_bounds _ _ _ _ Hz Hp) as (B1 & B2 & B3). rewrite (hr_end _ _ (proj1 W')) in B2.
  unfold sizeof_heap_block in *. split_and!; try done; [lia..|]. intros q z Hq.
  assert (p ≠ q) by (intros ->; congruence).
  assert (live KERNEL_HEAP l' !! q = Some z) as Hq' by (by rewrite Hlv, lookup_insert_ne).
  destruct (Z.lt_ge_cases p q).
  - pose proof (live_disjoint _ _ _ _ _ _ Hz Hp Hq'). unfold sizeof_heap_block in *. lia.
  - pose proof (live_disjoint _ _ _ _ _ _ Hz Hq' Hp). unfold sizeof_heap_block in *. lia.
Qed.

(** C4: [kfree] of a live address never panics or faults, removes exactly that
    allocation from the live ones, and coalesces so that no two adjacent blocks
    are free. *)
Theorem kfree_correct {B} {PB : PageBacking B} {PL : PageLaws B} (s : heap_state B) l p sz :
  heap_wf s l → live KERNEL_HEAP l !! p = Some sz →
  wp (kfree p) (λ _ s', ∃ l', heap_wf s' l' ∧
     live KERNEL_HEAP l' = delete p (live KERNEL_HEAP l)) never s.
Proof. apply kfree_ok. Qed.

Lemma align_up_wraps size : 2 ^ 64 - 16 < size < 2 ^ 64 → align_up size = 0.
Proof.
  intros Hs. unfold align_up, HEAP_ALIGN_SIZE.
  replace (u64 (size + 16 - 1)) with (size + 15 - 2 ^ 64)
    by (unfold u64; rewrite (Z.mod_eq _ (2 ^ 64)) by lia; dlia).
  rewrite Z.div_small by lia. done.
Qed.

(** ** Witnesses *)

(** The demonstration frame allocator of [Pmm], with the kernel space of [Vmm],
    cannot back four pages; this one has forty frames, the root in frame 5. *)
Definition heap_vmm : vmm_state :=
  mkVmm (mkPmm 0 0 0 (4096 * 6) 40 0 5 6 (2 * 4096) [63; 0; 0; 0; 0]) (zero_table (5 * 4096))
        (space_at (5 * 4096)) 0 0.

Lemma heap_vm_inv : vm_inv heap_vmm.
Proof.
  exists (5 * 4096), {[ [] := 5 * 4096 ]}. split; [|done]. apply root_vspace.
  - split; [split|..]; simpl; try (vm_compute; intuition congruence). repeat constructor; lia.
  - by vm_compute.
  - vm_compute. intuition congruence.
  - intros i Hi. by apply zero_table_lookup.
Qed.

Definition heap_boot : heap_state vmm_state := mkHS (mkHeap 0 0 0) ∅ heap_vmm.
Definition heap_demo : heap_state vmm_state := final heap_init heap_boot.

Lemma heap_cap : KERNEL_HEAP + PAGE_SIZE * pg_free (back heap_boot) ≤ KERNEL_STACK_BASE.
Proof. vm_compute. congruence. Qed.

Lemma heap_demo_runs : heap_init heap_boot = Ok (tt, heap_demo).
Proof. unfold heap_demo. rewrite <- (final_ok heap_init); [done|]. vm_compute. reflexivity. Qed.

Lemma heap_demo_wf : heap_wf heap_demo [(16352, true)] ∧ end_ (g_heap heap_demo) = KERNEL_HEAP + 16384.
Proof. exact (wp_use _ _ _ _ _ _ (heap_init_ok heap_boot heap_vm_inv heap_cap) heap_demo_runs). Qed.

Lemma heap_init_correct_witness : heap_wf heap_demo [(16352, true)].
Proof. exact (proj1 (wp_use _ _ _ _ _ _ (heap_init_correct heap_boot heap_vm_inv heap_cap) heap_demo_runs)). Defined.

Lemma kmalloc_correct_witness :
  is_ok (kmalloc 100 heap_demo) = true ∧
  wp (kmalloc 100) (λ p s', ∃ l' w, heap_wf s' l' ∧ 100 ≤ w ∧ live KERNEL_HEAP l' !! p = Some w)
     (λ _, True) heap_demo.
Proof.
  destruct heap_demo_wf as [W He]. split; [vm_compute; reflexivity|].
  eapply wp_mono; [apply (kmalloc_correct heap_demo _ 100 W); lia| |done].
  intros p s' (l' & w & W' & Hw & _ & _ & _ & _ & Hl & _). exists l', w.
  split; [exact W'|]. split; [exact Hw|]. rewrite Hl. apply lookup_insert_eq.
Defined.

(** One block in use, and its address. *)
Definition heap_used : heap_state vmm_state := final (kmalloc 100) heap_demo.

Lemma heap_used_wf : ∃ l w, heap_wf heap_used l ∧ live KERNEL_HEAP l !! (KERNEL_HEAP + 32) = Some w.
Proof.
  destruct heap_demo_wf as [W He].
  assert (kmalloc 100 heap_demo = Ok (KERNEL_HEAP + 32, heap_used)) as Hr.
  { unfold heap_used. rewrite <- (final_result (kmalloc 100) heap_demo (KERNEL_HEAP + 32)); [reflexivity|].
    vm_compute. reflexivity. }
  destruct (wp_use _ _ _ _ _ _ (kmalloc_ok heap_demo _ 100 W ltac:(lia)) Hr)
    as (l' & w & W' & _ & _ & _ & Hl). exists l', w. split; [done|]. rewrite Hl. apply lookup_insert_eq.
Qed.

Lemma kfree_correct_witness :
  ∃ l, live KERNEL_HEAP l !! (KERNEL_HEAP + 32) ≠ None ∧
  wp (kfree (KERNEL_HEAP + 32)) (λ _ s', ∃ l', heap_wf s' l' ∧
     live KERNEL_HEAP l' = delete (KERNEL_HEAP + 32) (live KERNEL_HEAP l)) never heap_used.
Proof.
  destruct heap_used_wf as (l & w & W & Hl). exists l. split; [by rewrite Hl|].
  exact (kfree_correct heap_used l (KERNEL_HEAP + 32) w W Hl).
Defined.

(** A request within 15 bytes of [2^64] is rounded up to zero, and
    [kmalloc] then succeeds with a block of no bytes: on a fresh heap it returns
    the first address with a payload size of 0. *)
Theorem kmalloc_huge_wraps :
  (∀ size, 2 ^ 64 - 16 < size < 2 ^ 64 → align_up size = 0) ∧
  result (kmalloc (2 ^ 64 - 1)) heap_demo = Some (KERNEL_HEAP + 32) ∧
  hmem (final (kmalloc (2 ^ 64 - 1)) heap_demo) !! payload_size_of KERNEL_HEAP = Some 0.
Proof. split; [exact align_up_wraps|]. split; vm_compute; reflexivity. Qed.

End Heap.
