(* ===== verification/Space.v ===== *)
(** * Address-space creation ([vmm_create_address_space] of [kernel/memory/vmm.c])

    The one function of [vmm.c] that needs the heap: it allocates the
    [address_space] struct with [kmalloc], takes a frame for the new root
    table, clears it and copies the kernel half of the root table, so that the
    kernel's page tables are shared by every process. *)
From S2P Require Import Prelude Pmm Vmm Heap.
Import Pmm Vmm Heap.

Module Space.

(** Field offsets of [struct address_space], 16 bytes. *)
Definition sizeof_address_space : Z := 16.
Definition pml4_phys_of (space : Z) : Z := space.
Definition pml4_of (space : Z) : Z := space + 8.

(** [space->pml4->entries[i] = g_kernel_address_space.pml4->entries[i];] *)
Definition copy_entry (space i : Z) : M (heap_state vmm_state) unit :=
  k ← gets (λ s, g_kernel_address_space (back s));
  w ← on_back (load (entry_addr (pml4 k) i));
  t ← hload (pml4_of space);
  on_back (store (entry_addr t i) w).

Definition vmm_create_address_space : M (heap_state vmm_state) Z :=
  space ← kmalloc sizeof_address_space;
  if negb (truthy space) then mret 0
  else
    phys ← on_back (on_pmm pmm_alloc_page);
    hstore (pml4_phys_of space) phys ;;
    p ← hload (pml4_phys_of space);
    hstore (pml4_of space) (PHYS_TO_HHDM p) ;;
    t ← hload (pml4_of space);
    on_back (memset64 t 0 512) ;;
    for_range 256 256 (copy_entry space) ;;
    mret space.

(** ** Writes that keep the heap invariant *)

Section keep.
Context {B : Type} {PB : PageBacking B} {PL : PageLaws B}.

(** A live block's owner writes inside its payload. *)
Lemma payload_write (s : heap_state B) l p w x v :
  heap_wf s l → live KERNEL_HEAP l !! p = Some w → p ≤ x < p + w →
  heap_wf (set_hmem (<[x := v]> (hmem s)) s) l.
Proof.
  intros [R C] (l1 & l2 & -> & ->)%live_split Hx. split; [|done].
  destruct R as [R1 R2 Hs He Hn Hl Hp Hz Hv Hi]. split; try done. simpl.
  apply sizes_app in Hz as [Hz1 [Hb Hz2]%sizes_cons]. apply seg_app in Hs as [Hs1 [Hh Hs2]].
  unfold sizeof_heap_block in *. simpl in *. apply seg_app. split; [|split].
  - eapply seg_frame; [exact Hs1|done|]. intros y Hy. rewrite lookup_insert_ne by lia. done.
  - eapply hdr_frame; [exact Hh|]. intros y Hy. rewrite lookup_insert_ne by lia. done.
  - eapply seg_frame; [exact Hs2|done|]. intros y Hy. simpl in Hy. unfold sizeof_heap_block in Hy.
    rewrite lookup_insert_ne by lia. done.
Qed.

(** The page layer moves on without revoking any mapping, perhaps to another
    invariant. *)
Lemma back_relax (PL' : PageLaws B) (s : heap_state B) l b' :
  heap_wf (PL := PL) s l → pg_inv (PageLaws := PL') b' → 0 ≤ pg_free (PageLaws := PL') b' ≤ pg_free (PageLaws := PL) (back s) →
  end_ (g_heap s) + PAGE_SIZE * pg_free (PageLaws := PL') b' ≤ pg_limit B (PageLaws := PL') →
  (∀ a, pg_valid (back s) a = true → pg_valid b' a = true) → heap_wf (PL := PL') (set_back b' s) l.
Proof.
  intros [[R1 R2 Hs He Hn Hl Hp Hz Hv Hi] C] Hi' Hf Hlim Hv'. split; [|done]. split; try done.
  - simpl. lia.
  - intros a Ha. by apply Hv', Hv.
Qed.

Lemma back_change (s : heap_state B) l b' :
  heap_wf s l → pg_inv b' → 0 ≤ pg_free b' ≤ pg_free (back s) → (∀ a, pg_valid (back s) a = true → pg_valid b' a = true) →
  heap_wf (set_back b' s) l.
Proof.
  intros W Hi Hf Hv. apply back_relax; try done. pose proof (hr_cap _ _ (proj1 W)). unfold PAGE_SIZE in *. lia.
Qed.

Lemma payload_valid (s : heap_state B) l p w x :
  heap_wf s l → live KERNEL_HEAP l !! p = Some w → p ≤ x < p + w → pg_valid (back s) x = true.
Proof.
  intros [R C] Hp Hx. apply (hr_valid _ _ R).
  destruct (live_bounds _ _ _ _ (hr_sizes _ _ R) Hp) as (? & ? & _). rewrite (hr_end _ _ R) in *.
  unfold sizeof_heap_block in *. lia.
Qed.
End keep.

(** ** Cloning the kernel half of a page-table tree *)

Definition upper (q : list Z) : bool := match q with i :: _ => 256 <=? i | [] => false end.
Definition clone (T : gmap (list Z) Z) (g : Z) : gmap (list Z) Z :=
  <[ [] := g ]> (filter (λ x, upper x.1 = true) T).

Lemma clone_lookup T g q h :
  clone T g !! q = Some h ↔ (q = [] ∧ h = g) ∨ (upper q = true ∧ T !! q = Some h).
Proof.
  unfold clone. destruct (decide (q = [])) as [->|Hq].
  - rewrite lookup_insert_eq. split; [intros [= <-]; auto|intros [[_ ->]|[? _]]; done].
  - rewrite lookup_insert_ne by done. rewrite map_lookup_filter_Some. simpl. tauto.
Qed.

Lemma clone_below T g i q : clone T g !! (i :: q) = if 256 <=? i then T !! (i :: q) else None.
Proof.
  apply option_eq. intros h. rewrite clone_lookup. simpl.
  destruct (256 <=? i); split; [intros [[? _]|[_ ?]]; done|auto|intros [[? _]|[? _]]; done|done].
Qed.

Section clone.
Context {s : vmm_state} {root : Z} {T : gmap (list Z) Z} (Hvs : vspace s root T).
Context (g : Z) (pm : pmm_state_t) (m : gmap Z Z).
Context (Hg : 0 ≤ g < 2 ^ 47) (Hga : g mod 4096 = 0).
Context (Hpm : pmm_wf pm) (Htk : takes (pmm s) pm (g / 4096) 1).
(** Words of the new frame while the copy loop is at entry [k]. *)
Definition copied (k : Z) (m : gmap Z Z) : Prop :=
  (∀ j, 0 ≤ j < 512 → m !! entry_addr (PHYS_TO_HHDM g) j =
     if (256 <=? j) && (j <? k) then mem s !! entry_addr (PHYS_TO_HHDM root) j else Some 0) ∧
  ∀ a, ¬ in_words (PHYS_TO_HHDM g) 512 a → m !! a = mem s !! a.

Lemma frame_fresh q h : T !! q = Some h → h ≠ g.
Proof.
  intros Hq ->. destruct (t_frame _ _ _ (vs_tree _ _ _ Hvs) q g Hq) as (_ & _ & _ & Hu).
  rewrite (tk_free _ _ _ _ Htk) in Hu by lia. done.
Qed.

Lemma frame_word k q h j : copied k m → T !! q = Some h → 0 ≤ j < 512 →
  m !! entry_addr (PHYS_TO_HHDM h) j = mem s !! entry_addr (PHYS_TO_HHDM h) j.
Proof.
  intros [_ Hout] Hq Hj. destruct (frame_bound Hvs _ _ Hq) as [Hh Hha]. apply Hout. intros (i & Hi & He).
  destruct (word_inj h g j i) as [-> _]; try done. by apply (frame_fresh q g Hq).
Qed.

(** The kernel's own tree is untouched by writes to the new frame. *)
Lemma frame_vspace k : copied k m → vspace (set_mem m (set_pmm pm s)) root T.
Proof.
  intros Hc. pose proof (vspace_takes _ _ _ _ _ _ Hvs Hpm Htk) as [V1 V2 [Hr Hfr Hwd Hinj Hnx Hpre]].
  split; [done|done|]. split; try done.
  - intros q h i Hq Hi. simpl. rewrite (frame_word k q h i) by done. by apply (Hwd q).
  - intros q h i w Hq Hl Hi. simpl. rewrite (frame_word k q h i) by done. by apply Hnx.
Qed.

Lemma frame_xlate k v : copied k m → xlate (set_mem m (set_pmm pm s)) T v = xlate s T v.
Proof.
  intros Hc. unfold xlate. destruct (T !! vpath v) as [pt|] eqn:E; [|done]. simpl.
  rewrite (frame_word k _ pt) by (done || apply index_range). done.
Qed.

Lemma clone_next q h i w : copied 512 m → clone T g !! q = Some h → (length q < 3)%nat → 0 ≤ i < 512 →
  m !! entry_addr (PHYS_TO_HHDM h) i = Some w →
  clone T g !! (q ++ [i]) = if present w then Some (Z.land w PAGE_ADDR_MASK) else None.
Proof.
  intros Hc [[-> ->]|[Hu Hq]]%clone_lookup Hl Hi Hw; destruct (vs_tree _ _ _ Hvs) as [Hr _ _ _ Hnx _].
  - rewrite (proj1 Hc) in Hw by done. simpl. rewrite clone_below. destruct (Z.leb_spec 256 i); simpl in Hw.
    + destruct (Z.ltb_spec i 512); [|lia]. apply (Hnx [] root i w Hr ltac:(simpl; lia) Hi Hw).
    + by injection Hw as <-.
  - rewrite (frame_word 512 q) in Hw by done. rewrite <- (Hnx q h i w Hq Hl Hi Hw).
    destruct q as [|i0 q]; [done|]. simpl in *. by rewrite clone_below, Hu.
Qed.

Lemma clone_vspace : g / 4096 < page_count (pmm s) → copied 512 m →
  vspace (set_mem m (set_pmm pm s)) g (clone T g).
Proof.
  intros Hgp Hc. pose proof (frame_vspace 512 Hc) as [V1 V2 [Hr Hfr Hwd Hinj _ Hpre]]. split; [done|done|]. split.
  - apply clone_lookup. auto.
  - intros q h [[-> ->]|[_ Hq]]%clone_lookup; [|by apply (Hfr q)].
    split; [lia|]. split; [done|]. simpl. rewrite (sl_pages _ _ (tk_layout _ _ _ _ Htk)).
    split; [done|]. rewrite (tk_used _ _ _ _ Htk) by dlia. rewrite Z.leb_refl.
    by destruct (Z.ltb_spec (g / 4096) (g / 4096 + 1)); [|lia].
  - intros q h i [[-> ->]|[_ Hq]]%clone_lookup Hi; simpl; [|by apply (Hwd q)].
    rewrite (proj1 Hc) by done. destruct (_ && _); [|done].
    by apply (t_words _ _ _ (vs_tree _ _ _ Hvs) []); [apply (t_root _ _ _ (vs_tree _ _ _ Hvs))|].
  - intros q1 q2 h [[-> ->]|[_ H1]]%clone_lookup [[-> ?]|[_ H2]]%clone_lookup; try done.
    + by apply frame_fresh in H2.
    + subst h. by apply frame_fresh in H1.
    + by eapply Hinj.
  - intros q h i w. by apply clone_next.
  - intros q i h [[? _]|[Hu Hq]]%clone_lookup; [by destruct q|].
    destruct (Hpre _ _ _ Hq) as (? & ? & [f Hf]). split; [done|]. split; [done|].
    destruct q as [|i0 q]; [exists g|exists f]; apply clone_lookup; auto.
Qed.

End clone.

Lemma clone_xlate s T g v : xlate s (clone T g) v = if 256 <=? pml4_index v then xlate s T v else None.
Proof. unfold xlate, vpath. rewrite clone_below. by destruct (256 <=? pml4_index v). Qed.

Section create.
Context {b : vmm_state} {root : Z} {T : gmap (list Z) Z} (Hvs : vspace b root T).
Context (Hk : g_kernel_address_space b = space_at root).
Context (g : Z) (pm : pmm_state_t) (Hg : 0 ≤ g < 2 ^ 47) (Hga : g mod 4096 = 0).
Context (Hpm : pmm_wf pm) (Htk : takes (pmm b) pm (g / 4096) 1).

Lemma frame_valid k m a : copied (s := b) (root := root) g k m →
  vm_valid (set_mem m (set_pmm pm b)) a = vm_valid b a.
Proof.
  intros Hc. pose proof (frame_vspace Hvs g pm m Hg Hga Hpm Htk k Hc) as V.
  rewrite (vm_valid_xlate _ root T a V Hk), (vm_valid_xlate b root T a Hvs Hk).
  by rewrite (frame_xlate Hvs g pm m Hg Hga Htk k a Hc).
Qed.

Lemma frame_inv k m : copied (s := b) (root := root) g k m → vm_inv (set_mem m (set_pmm pm b)).
Proof. intros Hc. exists root, T. split; [by apply (frame_vspace Hvs g pm m Hg Hga Hpm Htk k Hc)|done]. Qed.

Lemma copied_step k m w : copied (s := b) (root := root) g k m → 256 ≤ k < 512 →
  mem b !! entry_addr (PHYS_TO_HHDM root) k = Some w →
  copied (s := b) (root := root) g (k + 1) (<[entry_addr (PHYS_TO_HHDM g) k := w]> m).
Proof.
  intros [Hin Hout] Hkk Hw. split.
  - intros j Hj. destruct (decide (j = k)) as [->|Hne].
    + rewrite lookup_insert_eq. destruct (Z.leb_spec 256 k), (Z.ltb_spec k (k + 1)); simpl; (done || lia).
    + rewrite lookup_insert_ne by (unfold entry_addr; lia). rewrite Hin by done.
      destruct (Z.ltb_spec j k), (Z.ltb_spec j (k + 1)); (done || lia).
  - intros a Ha. rewrite lookup_insert_ne; [by apply Hout|]. intros <-. apply Ha. exists k. split; [lia|done].
Qed.

Lemma copy_loop_ok (s : heap_state vmm_state) space m :
  pg_valid b (pml4_of space) = true → hmem s !! pml4_of space = Some (PHYS_TO_HHDM g) →
  copied (s := b) (root := root) g 256 m →
  wp (for_range 256 256 (copy_entry space)) (λ _ s', ∃ m',
    s' = set_back (set_mem m' (set_pmm pm b)) s ∧ copied (s := b) (root := root) g 512 m') never
    (set_back (set_mem m (set_pmm pm b)) s).
Proof.
  intros Hv Hp Hc. eapply wp_mono; [apply (for_range_inv (λ k t, 256 ≤ k ∧ ∃ m',
    t = set_back (set_mem m' (set_pmm pm b)) s ∧ copied (s := b) (root := root) g k m'))| |done].
  - split; [lia|]. by exists m.
  - intros k t Hkk [_ (m1 & -> & Hc1)]. unfold copy_entry. wp_steps. cbn [back set_back g_kernel_address_space set_mem set_pmm].
    rewrite Hk. pose proof (t_root _ _ _ (vs_tree _ _ _ Hvs)) as Hr.
    destruct (t_words _ _ _ (vs_tree _ _ _ Hvs) [] root k Hr ltac:(lia)) as [w Hw].
    apply wp_zoom. eapply wp_ok.
    { apply load_ok. cbn [mem back set_back set_mem pml4 space_at].
      rewrite (frame_word Hvs g pm m1 Hg Hga Htk k [] root k Hc1 Hr) by lia. exact Hw. }
    apply wp_bind, (hload_wp _ _ (PHYS_TO_HHDM g)); [|done|].
    { cbn [back set_back]. change (vm_valid (set_mem m1 (set_pmm pm b)) (pml4_of space) = true).
      by rewrite (frame_valid k m1). }
    apply wp_zoom. unfold store. wp_steps. split; [lia|]. eexists. split; [reflexivity|].
    cbn [mem set_mem]. apply copied_step; [done|lia|done].
  - by intros [] s' [_ ?].
Qed.
End create.

(** The new space's tree is the clone of the kernel's, rooted in a fresh frame. *)
Lemma create_ok lim Hlim (s : heap_state vmm_state) l : let PL := vm_laws_to lim Hlim in
  heap_wf (PL := PL) s l →
  wp vmm_create_address_space (λ space s', ∃ l' w g root T,
    heap_wf (PL := PL) s' l' ∧ live KERNEL_HEAP l !! space = None ∧
    live KERNEL_HEAP l' = <[space := w]> (live KERNEL_HEAP l) ∧ sizeof_address_space ≤ w ∧
    hmem s' !! pml4_phys_of space = Some g ∧ hmem s' !! pml4_of space = Some (PHYS_TO_HHDM g) ∧
    vspace (back s') root T ∧ g_kernel_address_space (back s') = space_at root ∧
    vspace (back s') g (clone T g) ∧ ∀ q, T !! q ≠ Some g)
    (λ _, True) s.
Proof.
  intros PL W. unfold vmm_create_address_space. apply wp_bind.
  eapply wp_mono; [apply (kmalloc_ok s l sizeof_address_space W); unfold sizeof_address_space; lia| |done].
  intros p s1 (l' & w & W1 & Hw & Hal & Hfresh & Hlive).
  replace (align_up sizeof_address_space) with 16 in Hw by (by vm_compute).
  assert (live KERNEL_HEAP l' !! p = Some w) as Hp by (rewrite Hlive; apply lookup_insert_eq).
  destruct (live_bounds _ _ _ _ (hr_sizes _ _ (proj1 W1)) Hp) as (Hlo & _ & _).
  pose proof window as (Hw1 & _). rewrite truthy_pos by (unfold sizeof_heap_block in Hlo; lia).
  destruct (hr_inv _ _ (proj1 W1)) as (root & T & Hvs & Hk). cbn [negb].
  set (b := back s1) in *. pose proof (vs_pmm _ _ _ Hvs) as Hwf. pose proof (vs_max _ _ _ Hvs) as Hmax.
  apply wp_bind, wp_zoom, wp_zoom. eapply wp_mono; [by apply alloc_page_ok| |done].
  intros a pm (q & -> & Hpm & Htk). change (takes (pmm b) pm q 1) in Htk.
  pose proof (tk_range _ _ _ _ Htk) as [Hq0 Hq1].
  assert (takes (pmm b) pm (q * 4096 / 4096) 1) as Htk' by (by rewrite Z.div_mul).
  assert (0 ≤ q * 4096 < 2 ^ 47 ∧ q * 4096 mod 4096 = 0) as [Hg Hga] by (split; [lia|by apply Z.mod_mul]).
  set (g := q * 4096) in *.
  assert (∀ x, p ≤ x < p + w → pg_valid (set_pmm pm b) x = true) as V.
  { intros x Hx. pose proof (payload_valid s1 l' p w x W1 Hp Hx) as Hb. simpl in *. fold b in Hb.
    rewrite (vm_valid_xlate b root T x Hvs Hk) in Hb.
    by rewrite (vm_valid_xlate _ root T x (vspace_takes _ _ _ _ _ _ Hvs Hpm Htk') Hk). }
  unfold pml4_phys_of, pml4_of. cbv beta. cbn [negb]. do 8 hstep.
  apply wp_bind, wp_zoom. eapply wp_mono; [apply memset64_ok; lia| |done].
  intros [] b2 (m & -> & Hin & Hout). cbn [back set_hmem set_back] in *.
  assert (copied (s := b) (root := root) g 256 m) as Hc.
  { split; [|exact Hout]. intros j Hj. rewrite Hin by done.
    by destruct (Z.leb_spec 256 j), (Z.ltb_spec j 256); try lia. }
  set (hm := <[p + 8 := PHYS_TO_HHDM g]> (<[p := g]> (hmem s1))).
  change (set_back (set_mem m (set_pmm pm b)) _) with (set_back (set_mem m (set_pmm pm b)) (set_hmem hm s1)).
  apply wp_bind. eapply wp_mono.
  { apply (copy_loop_ok Hvs Hk g pm Hg Hga Hpm Htk' (set_hmem hm s1) p m); [|apply lookup_insert_eq|done].
    apply (payload_valid s1 l' p w); [done..|unfold pml4_of; lia]. }
  2: done.
  intros [] s' (m' & -> & Hc'). apply wp_ret.
  pose proof (frame_vspace Hvs g pm m' Hg Hga Hpm Htk' 512 Hc') as V1.
  pose proof (clone_vspace Hvs g pm m' Hg Hga Hpm Htk' ltac:(unfold g; rewrite Z.div_mul; lia) Hc') as V2.
  pose proof (payload_write s1 l' p w p g W1 Hp ltac:(lia)) as Wa.
  pose proof (payload_write _ l' p w (p + 8) (PHYS_TO_HHDM g) Wa Hp ltac:(lia)) as Wb.
  exists l', w, g, root, T. split_and!; try done.
  - apply (back_change (set_hmem hm s1)); [exact Wb|by apply (frame_inv Hvs Hk g pm Hg Hga Hpm Htk' 512)| |].
    { pose proof (used_frames_range _ (wf_bitmap _ Hpm)). pose proof (grows_frames _ _ (takes_grows _ _ _ _ Htk)).
      pose proof (sl_pages _ _ (tk_layout _ _ _ _ Htk)). cbn. unfold vm_free. cbn. fold b. lia. }
    intros x Hx. simpl in *. by rewrite (frame_valid Hvs Hk g pm Hg Hga Hpm Htk' 512).
  - unfold pml4_phys_of. cbn [hmem set_back set_hmem]. unfold hm. rewrite lookup_insert_ne by lia. apply lookup_insert_eq.
  - apply lookup_insert_eq.
  - intros q' Hq'. by apply (frame_fresh Hvs g pm Htk' q' g Hq').
Qed.

(** C5: [vmm_create_address_space] returns a freshly allocated struct holding
    the root frame and its direct-map address; in the new space every kernel
    address translates as in the kernel's own space, every user address is
    unmapped, and both the heap invariant and the kernel's page tables are
    kept.  The only failures are panics of the two allocators. *)
Theorem vmm_create_address_space_correct (s : heap_state vmm_state) l :
  heap_wf s l →
  wp vmm_create_address_space (λ space s', ∃ l' w g T',
    heap_wf s' l' ∧ live KERNEL_HEAP l !! space = None ∧
    live KERNEL_HEAP l' = <[space := w]> (live KERNEL_HEAP l) ∧ sizeof_address_space ≤ w ∧
    hmem s' !! pml4_phys_of space = Some g ∧ hmem s' !! pml4_of space = Some (PHYS_TO_HHDM g) ∧
    vspace (back s') g T' ∧
    ∀ v, vmm_virt_to_phys (space_at g) v (back s') =
      if 256 <=? pml4_index v
      then vmm_virt_to_phys (g_kernel_address_space (back s')) v (back s') else Ok (0, back s'))
    (λ _, True) s.
Proof.
  intros W. eapply wp_mono; [exact (create_ok KERNEL_STACK_BASE (Z.le_refl _) s l W)| |done].
  intros p s' (l' & w & g & root & T & W' & Hn & Hl & Hw & H1 & H2 & V1 & Hk & V2 & _). exists l', w, g, (clone T g).
  split_and!; try done. intros v. rewrite Hk, (virt_to_phys_ok V2), (virt_to_phys_ok V1), clone_xlate.
  by destruct (256 <=? pml4_index v).
Qed.

Lemma vmm_create_address_space_correct_witness :
  is_ok (vmm_create_address_space heap_demo) = true ∧
  wp vmm_create_address_space (λ space s', ∃ g, hmem s' !! pml4_phys_of space = Some g ∧
    vmm_virt_to_phys (space_at g) KERNEL_HEAP (back s') =
    vmm_virt_to_phys (g_kernel_address_space (back s')) KERNEL_HEAP (back s'))
    (λ _, True) heap_demo.
Proof.
  destruct heap_demo_wf as [W He]. split; [vm_compute; reflexivity|].
  eapply wp_mono; [apply (vmm_create_address_space_correct heap_demo _ W)| |done].
  intros p s' (l' & w & g & T' & _ & _ & _ & _ & Hg & _ & _ & Hv). exists g. split; [exact Hg|].
  exact (Hv KERNEL_HEAP).
Defined.

End Space.
