(* ===== verification/Kobj.v ===== *)
(** * Kernel objects shared by the scheduler, the process manager and IPC
    ([kernel/scheduler/task.h], [process.h], [kernel/ipc/pipe.h], [handle.h],
    [channel.h])

    A heap-allocated struct is a record stored under its address; following a
    pointer to no object (null, or freed) is a [Fault].  Allocation goes through
    the class [Alloc], which the heap implements. *)
From S2P Require Import Prelude Pmm Vmm Heap.

Module Kobj.

(** ** The allocator as its clients see it *)

Class Alloc (A : Type) := {
  al_malloc : Z → M A Z;
  al_free : Z → M A unit
}.

(** [al_live a L]: the allocator's invariant, with live blocks [L]. *)
Class AllocLaws (A : Type) `{Alloc A} := {
  al_live : A → gmap Z Z → Prop;
  al_malloc_ok a L n : al_live a L → 0 < n ≤ 2 ^ 20 →
    wp (al_malloc n) (λ p a', ∃ w, n ≤ w ∧ 0 < p ∧ p + w < 2 ^ 64 ∧ p mod 16 = 0 ∧ L !! p = None ∧
      al_live a' (<[p := w]> L)) (λ _, True) a;
  al_free_ok a L p w : al_live a L → L !! p = Some w →
    wp (al_free p) (λ _ a', al_live a' (delete p L)) never a
}.

#[export] Instance heap_alloc {B} `{Heap.PageBacking B} : Alloc (Heap.heap_state B) := {
  al_malloc := Heap.kmalloc;
  al_free := Heap.kfree
}.

(** The heap's refinement theorems discharge the interface. *)
#[export, refine] Instance heap_alloc_laws {B} {PB : Heap.PageBacking B} {PL : Heap.PageLaws B} :
    AllocLaws (Heap.heap_state B) := {|
  al_live s L := ∃ l, Heap.heap_wf s l ∧ Heap.live Vmm.KERNEL_HEAP l = L
|}.
Proof.
  - intros s L n (l & W & <-) Hn. pose proof Heap.window as (W1 & _ & _ & _ & W5).
    eapply wp_mono; [apply (Heap.kmalloc_ok s l n W); lia| |done].
    intros p s' (l' & w & W' & Hw & Ha & Hf & Hl). exists w.
    pose proof (Heap.align_up_spec n ltac:(lia)).
    assert (Heap.live Vmm.KERNEL_HEAP l' !! p = Some w) as Hp by (rewrite Hl; apply lookup_insert_eq).
    destruct (Heap.live_bounds _ _ _ _ (Heap.hr_sizes _ _ (proj1 W')) Hp) as (B1 & B2 & B3).
    rewrite (Heap.hr_end _ _ (proj1 W')) in B2. pose proof (Heap.hr_limit _ _ (proj1 W')).
    unfold Heap.sizeof_heap_block in B1. split_and!; try done; try lia. by exists l'.
  - intros s L p w (l & W & <-) Hp. eapply wp_mono; [by eapply Heap.kfree_ok| |done].
    intros [] s' (l' & W' & Hl). by exists l'.
Defined.

(** ** Objects *)

Inductive task_state := TASK_READY | TASK_RUNNING | TASK_BLOCKED | TASK_DEAD.
#[export] Instance task_state_eq_dec : EqDecision task_state.
Proof. solve_decision. Defined.

Record task := mkTask {
  t_id : Z;
  t_index : Z;
  t_state : task_state;
  t_owner : Z;
  t_joining : Z;
  t_entry : Z;
  t_args : Z;
  t_kernel_rsp : Z;
  t_user_rsp : Z;
  t_stack_base : Z;
  t_stack_size : Z;
  t_start_argc : Z;
  t_start_argv : Z;
  t_ret_val : Z;
  t_next_in_process : Z;
  t_next : Z;
  t_prev : Z
}.

Inductive handle_type := HANDLE_NONE | HANDLE_PIPE_READ | HANDLE_PIPE_WRITE | HANDLE_FILE | HANDLE_CHANNEL.
#[export] Instance handle_type_eq_dec : EqDecision handle_type.
Proof. solve_decision. Defined.

Record handle_entry := mkHandle { h_type : handle_type; h_ptr : Z }.
Definition MAX_HANDLES : Z := 128.

Record process := mkProc {
  p_pid : Z;
  p_parent_pid : Z;
  p_next_task_index : Z;
  p_name : list Z;
  p_working_directory : list Z;
  p_executable_path : list Z;
  p_address_space : Z;
  p_heap_next : Z;
  p_handles : list handle_entry;
  p_exit_code : Z;
  p_main_task : Z;
  p_waiting_task : Z;
  p_next : Z;
  p_prev : Z;
  p_first_child : Z;
  p_next_sibling : Z
}.

Definition PIPE_BUF_SIZE : Z := 4096.
Record pipe := mkPipe {
  b_buf : list Z;
  b_read_pos : Z;
  b_write_pos : Z;
  b_count : Z;
  b_ref_count : Z;
  b_listener : Z
}.

Record channel := mkChan {
  c_pid0 : Z;
  c_pid1 : Z;
  c_pipe0 : Z;
  c_pipe1 : Z;
  c_listener0 : Z;
  c_listener1 : Z;
  c_closed0 : bool;
  c_closed1 : bool
}.

Definition MAX_SERVERS : Z := 32.
Definition MAX_PENDING : Z := 16.
Record server := mkServer {
  sv_identifier : Z;
  sv_listener : Z;
  sv_incoming : list Z;
  sv_head : Z;
  sv_tail : Z;
  sv_count : Z
}.

Definition SLEEP_QUEUE_MAX : Z := 256.

(** [sizeof] of the structs the kernel allocates. *)
Definition sizeof_task : Z := 152.
Definition sizeof_process : Z := 2680.
Definition sizeof_pipe : Z := 4120.
Definition sizeof_channel : Z := 48.

(** ** The kernel state these components share

    Beside the object stores: the static variables of [scheduler.c],
    [process_manager.c] and [channel.c], the words of the kernel stacks, and
    what a context switch loads ([k_space] is the [address_space] pointer put in
    CR3, 0 for the kernel's own). *)
Record kstate (A : Type) := mkK {
  k_alloc : A;
  k_tasks : gmap Z task;
  k_procs : gmap Z process;
  k_pipes : gmap Z pipe;
  k_chans : gmap Z channel;
  k_servers : list server;
  g_scheduler_running : Z;
  g_current_task : Z;
  g_task_list : Z;
  g_idle : Z;
  s_next_id : Z;
  s_next_pid : Z;
  s_processes : Z;
  s_last_process : Z;
  g_sleep_queue : list (Z * Z);
  g_sleep_queue_len : Z;
  k_stack : gmap Z Z;
  k_space : Z;
  k_tss_rsp0 : Z;
  g_syscall_kernel_rsp : Z
}.

Arguments mkK {A}.
Arguments k_alloc {A}.
Arguments k_tasks {A}.
Arguments k_procs {A}.
Arguments k_pipes {A}.
Arguments k_chans {A}.
Arguments k_servers {A}.
Arguments g_scheduler_running {A}.
Arguments g_current_task {A}.
Arguments g_task_list {A}.
Arguments g_idle {A}.
Arguments s_next_id {A}.
Arguments s_next_pid {A}.
Arguments s_processes {A}.
Arguments s_last_process {A}.
Arguments g_sleep_queue {A}.
Arguments g_sleep_queue_len {A}.
Arguments k_stack {A}.
Arguments k_space {A}.
Arguments k_tss_rsp0 {A}.
Arguments g_syscall_kernel_rsp {A}.

(** Field updates. *)
Definition set_t_id (v : Z) (r : task) : task :=
  mkTask v (t_index r) (t_state r) (t_owner r) (t_joining r) (t_entry r) (t_args r)
    (t_kernel_rsp r) (t_user_rsp r) (t_stack_base r) (t_stack_size r) (t_start_argc r)
    (t_start_argv r) (t_ret_val r) (t_next_in_process r) (t_next r) (t_prev r).
Definition set_t_index (v : Z) (r : task) : task :=
  mkTask (t_id r) v (t_state r) (t_owner r) (t_joining r) (t_entry r) (t_args r) (t_kernel_rsp r)
    (t_user_rsp r) (t_stack_base r) (t_stack_size r) (t_start_argc r) (t_start_argv r)
    (t_ret_val r) (t_next_in_process r) (t_next r) (t_prev r).
Definition set_t_state (v : task_state) (r : task) : task :=
  mkTask (t_id r) (t_index r) v (t_owner r) (t_joining r) (t_entry r) (t_args r) (t_kernel_rsp r)
    (t_user_rsp r) (t_stack_base r) (t_stack_size r) (t_start_argc r) (t_start_argv r)
    (t_ret_val r) (t_next_in_process r) (t_next r) (t_prev r).
Definition set_t_owner (v : Z) (r : task) : task :=
  mkTask (t_id r) (t_index r) (t_state r) v (t_joining r) (t_entry r) (t_args r) (t_kernel_rsp r)
    (t_user_rsp r) (t_stack_base r) (t_stack_size r) (t_start_argc r) (t_start_argv r)
    (t_ret_val r) (t_next_in_process r) (t_next r) (t_prev r).
Definition set_t_joining (v : Z) (r : task) : task :=
  mkTask (t_id r) (t_index r) (t_state r) (t_owner r) v (t_entry r) (t_args r) (t_kernel_rsp r)
    (t_user_rsp r) (t_stack_base r) (t_stack_size r) (t_start_argc r) (t_start_argv r)
    (t_ret_val r) (t_next_in_process r) (t_next r) (t_prev r).
Definition set_t_entry (v : Z) (r : task) : task :=
  mkTask (t_id r) (t_index r) (t_state r) (t_owner r) (t_joining r) v (t_args r) (t_kernel_rsp r)
    (t_user_rsp r) (t_stack_base r) (t_stack_size r) (t_start_argc r) (t_start_argv r)
    (t_ret_val r) (t_next_in_process r) (t_next r) (t_prev r).
Definition set_t_args (v : Z) (r : task) : task :=
  mkTask (t_id r) (t_index r) (t_state r) (t_owner r) (t_joining r) (t_entry r) v (t_kernel_rsp r)
    (t_user_rsp r) (t_stack_base r) (t_stack_size r) (t_start_argc r) (t_start_argv r)
    (t_ret_val r) (t_next_in_process r) (t_next r) (t_prev r).
Definition set_t_kernel_rsp (v : Z) (r : task) : task :=
  mkTask (t_id r) (t_index r) (t_state r) (t_owner r) (t_joining r) (t_entry r) (t_args r) v
    (t_user_rsp r) (t_stack_base r) (t_stack_size r) (t_start_argc r) (t_start_argv r)
    (t_ret_val r) (t_next_in_process r) (t_next r) (t_prev r).
Definition set_t_user_rsp (v : Z) (r : task) : task :=
  mkTask (t_id r) (t_index r) (t_state r) (t_owner r) (t_joining r) (t_entry r) (t_args r)
    (t_kernel_rsp r) v (t_stack_base r) (t_stack_size r) (t_start_argc r) (t_start_argv r)
    (t_ret_val r) (t_next_in_process r) (t_next r) (t_prev r).
Definition set_t_stack_base (v : Z) (r : task) : task :=
  mkTask (t_id r) (t_index r) (t_state r) (t_owner r) (t_joining r) (t_entry r) (t_args r)
    (t_kernel_rsp r) (t_user_rsp r) v (t_stack_size r) (t_start_argc r) (t_start_argv r)
    (t_ret_val r) (t_next_in_process r) (t_next r) (t_prev r).
Definition set_t_stack_size (v : Z) (r : task) : task :=
  mkTask (t_id r) (t_index r) (t_state r) (t_owner r) (t_joining r) (t_entry r) (t_args r)
    (t_kernel_rsp r) (t_user_rsp r) (t_stack_base r) v (t_start_argc r) (t_start_argv r)
    (t_ret_val r) (t_next_in_process r) (t_next r) (t_prev r).
Definition set_t_start_argc (v : Z) (r : task) : task :=
  mkTask (t_id r) (t_index r) (t_state r) (t_owner r) (t_joining r) (t_entry r) (t_args r)
    (t_kernel_rsp r) (t_user_rsp r) (t_stack_base r) (t_stack_size r) v (t_start_argv r)
    (t_ret_val r) (t_next_in_process r) (t_next r) (t_prev r).
Definition set_t_start_argv (v : Z) (r : task) : task :=
  mkTask (t_id r) (t_index r) (t_state r) (t_owner r) (t_joining r) (t_entry r) (t_args r)
    (t_kernel_rsp r) (t_user_rsp r) (t_stack_base r) (t_stack_size r) (t_start_argc r) v
    (t_ret_val r) (t_next_in_process r) (t_next r) (t_prev r).
Definition set_t_ret_val (v : Z) (r : task) : task :=
  mkTask (t_id r) (t_index r) (t_state r) (t_owner r) (t_joining r) (t_entry r) (t_args r)
    (t_kernel_rsp r) (t_user_rsp r) (t_stack_base r) (t_stack_size r) (t_start_argc r)
    (t_start_argv r) v (t_next_in_process r) (t_next r) (t_prev r).
Definition set_t_next_in_process (v : Z) (r : task) : task :=
  mkTask (t_id r) (t_index r) (t_state r) (t_owner r) (t_joining r) (t_entry r) (t_args r)
    (t_kernel_rsp r) (t_user_rsp r) (t_stack_base r) (t_stack_size r) (t_start_argc r)
    (t_start_argv r) (t_ret_val r) v (t_next r) (t_prev r).
Definition set_t_next (v : Z) (r : task) : task :=
  mkTask (t_id r) (t_index r) (t_state r) (t_owner r) (t_joining r) (t_entry r) (t_args r)
    (t_kernel_rsp r) (t_user_rsp r) (t_stack_base r) (t_stack_size r) (t_start_argc r)
    (t_start_argv r) (t_ret_val r) (t_next_in_process r) v (t_prev r).
Definition set_t_prev (v : Z) (r : task) : task :=
  mkTask (t_id r) (t_index r) (t_state r) (t_owner r) (t_joining r) (t_entry r) (t_args r)
    (t_kernel_rsp r) (t_user_rsp r) (t_stack_base r) (t_stack_size r) (t_start_argc r)
    (t_start_argv r) (t_ret_val r) (t_next_in_process r) (t_next r) v.
Definition set_p_pid (v : Z) (r : process) : process :=
  mkProc v (p_parent_pid r) (p_next_task_index r) (p_name r) (p_working_directory r)
    (p_executable_path r) (p_address_space r) (p_heap_next r) (p_handles r) (p_exit_code r)
    (p_main_task r) (p_waiting_task r) (p_next r) (p_prev r) (p_first_child r) (p_next_sibling r).
Definition set_p_parent_pid (v : Z) (r : process) : process :=
  mkProc (p_pid r) v (p_next_task_index r) (p_name r) (p_working_directory r)
    (p_executable_path r) (p_address_space r) (p_heap_next r) (p_handles r) (p_exit_code r)
    (p_main_task r) (p_waiting_task r) (p_next r) (p_prev r) (p_first_child r) (p_next_sibling r).
Definition set_p_next_task_index (v : Z) (r : process) : process :=
  mkProc (p_pid r) (p_parent_pid r) v (p_name r) (p_working_directory r) (p_executable_path r)
    (p_address_space r) (p_heap_next r) (p_handles r) (p_exit_code r) (p_main_task r)
    (p_waiting_task r) (p_next r) (p_prev r) (p_first_child r) (p_next_sibling r).
Definition set_p_name (v : list Z) (r : process) : process :=
  mkProc (p_pid r) (p_parent_pid r) (p_next_task_index r) v (p_working_directory r)
    (p_executable_path r) (p_address_space r) (p_heap_next r) (p_handles r) (p_exit_code r)
    (p_main_task r) (p_waiting_task r) (p_next r) (p_prev r) (p_first_child r) (p_next_sibling r).
Definition set_p_working_directory (v : list Z) (r : process) : process :=
  mkProc (p_pid r) (p_parent_pid r) (p_next_task_index r) (p_name r) v (p_executable_path r)
    (p_address_space r) (p_heap_next r) (p_handles r) (p_exit_code r) (p_main_task r)
    (p_waiting_task r) (p_next r) (p_prev r) (p_first_child r) (p_next_sibling r).
Definition set_p_executable_path (v : list Z) (r : process) : process :=
  mkProc (p_pid r) (p_parent_pid r) (p_next_task_index r) (p_name r) (p_working_directory r) v
    (p_address_space r) (p_heap_next r) (p_handles r) (p_exit_code r) (p_main_task r)
    (p_waiting_task r) (p_next r) (p_prev r) (p_first_child r) (p_next_sibling r).
Definition set_p_address_space (v : Z) (r : process) : process :=
  mkProc (p_pid r) (p_parent_pid r) (p_next_task_index r) (p_name r) (p_working_directory r)
    (p_executable_path r) v (p_heap_next r) (p_handles r) (p_exit_code r) (p_main_task r)
    (p_waiting_task r) (p_next r) (p_prev r) (p_first_child r) (p_next_sibling r).
Definition set_p_heap_next (v : Z) (r : process) : process :=
  mkProc (p_pid r) (p_parent_pid r) (p_next_task_index r) (p_name r) (p_working_directory r)
    (p_executable_path r) (p_address_space r) v (p_handles r) (p_exit_code r) (p_main_task r)
    (p_waiting_task r) (p_next r) (p_prev r) (p_first_child r) (p_next_sibling r).
Definition set_p_handles (v : list handle_entry) (r : process) : process :=
  mkProc (p_pid r) (p_parent_pid r) (p_next_task_index r) (p_name r) (p_working_directory r)
    (p_executable_path r) (p_address_space r) (p_heap_next r) v (p_exit_code r) (p_main_task r)
    (p_waiting_task r) (p_next r) (p_prev r) (p_first_child r) (p_next_sibling r).
Definition set_p_exit_code (v : Z) (r : process) : process :=
  mkProc (p_pid r) (p_parent_pid r) (p_next_task_index r) (p_name r) (p_working_directory r)
    (p_executable_path r) (p_address_space r) (p_heap_next r) (p_handles r) v (p_main_task r)
    (p_waiting_task r) (p_next r) (p_prev r) (p_first_child r) (p_next_sibling r).
Definition set_p_main_task (v : Z) (r : process) : process :=
  mkProc (p_pid r) (p_parent_pid r) (p_next_task_index r) (p_name r) (p_working_directory r)
    (p_executable_path r) (p_address_space r) (p_heap_next r) (p_handles r) (p_exit_code r) v
    (p_waiting_task r) (p_next r) (p_prev r) (p_first_child r) (p_next_sibling r).
Definition set_p_waiting_task (v : Z) (r : process) : process :=
  mkProc (p_pid r) (p_parent_pid r) (p_next_task_index r) (p_name r) (p_working_directory r)
    (p_executable_path r) (p_address_space r) (p_heap_next r) (p_handles r) (p_exit_code r)
    (p_main_task r) v (p_next r) (p_prev r) (p_first_child r) (p_next_sibling r).
Definition set_p_next (v : Z) (r : process) : process :=
  mkProc (p_pid r) (p_parent_pid r) (p_next_task_index r) (p_name r) (p_working_directory r)
    (p_executable_path r) (p_address_space r) (p_heap_next r) (p_handles r) (p_exit_code r)
    (p_main_task r) (p_waiting_task r) v (p_prev r) (p_first_child r) (p_next_sibling r).
Definition set_p_prev (v : Z) (r : process) : process :=
  mkProc (p_pid r) (p_parent_pid r) (p_next_task_index r) (p_name r) (p_working_directory r)
    (p_executable_path r) (p_address_space r) (p_heap_next r) (p_handles r) (p_exit_code r)
    (p_main_task r) (p_waiting_task r) (p_next r) v (p_first_child r) (p_next_sibling r).
Definition set_p_first_child (v : Z) (r : process) : process :=
  mkProc (p_pid r) (p_parent_pid r) (p_next_task_index r) (p_name r) (p_working_directory r)
    (p_executable_path r) (p_address_space r) (p_heap_next r) (p_handles r) (p_exit_code r)
    (p_main_task r) (p_waiting_task r) (p_next r) (p_prev r) v (p_next_sibling r).
Definition set_p_next_sibling (v : Z) (r : process) : process :=
  mkProc (p_pid r) (p_parent_pid r) (p_next_task_index r) (p_name r) (p_working_directory r)
    (p_executable_path r) (p_address_space r) (p_heap_next r) (p_handles r) (p_exit_code r)
    (p_main_task r) (p_waiting_task r) (p_next r) (p_prev r) (p_first_child r) v.
Definition set_b_buf (v : list Z) (r : pipe) : pipe :=
  mkPipe v (b_read_pos r) (b_write_pos r) (b_count r) (b_ref_count r) (b_listener r).
Definition set_b_read_pos (v : Z) (r : pipe) : pipe :=
  mkPipe (b_buf r) v (b_write_pos r) (b_count r) (b_ref_count r) (b_listener r).
Definition set_b_write_pos (v : Z) (r : pipe) : pipe :=
  mkPipe (b_buf r) (b_read_pos r) v (b_count r) (b_ref_count r) (b_listener r).
Definition set_b_count (v : Z) (r : pipe) : pipe :=
  mkPipe (b_buf r) (b_read_pos r) (b_write_pos r) v (b_ref_count r) (b_listener r).
Definition set_b_ref_count (v : Z) (r : pipe) : pipe :=
  mkPipe (b_buf r) (b_read_pos r) (b_write_pos r) (b_count r) v (b_listener r).
Definition set_b_listener (v : Z) (r : pipe) : pipe :=
  mkPipe (b_buf r) (b_read_pos r) (b_write_pos r) (b_count r) (b_ref_count r) v.
Definition set_c_pid0 (v : Z) (r : channel) : channel :=
  mkChan v (c_pid1 r) (c_pipe0 r) (c_pipe1 r) (c_listener0 r) (c_listener1 r) (c_closed0 r)
    (c_closed1 r).
Definition set_c_pid1 (v : Z) (r : channel) : channel :=
  mkChan (c_pid0 r) v (c_pipe0 r) (c_pipe1 r) (c_listener0 r) (c_listener1 r) (c_closed0 r)
    (c_closed1 r).
Definition set_c_pipe0 (v : Z) (r : channel) : channel :=
  mkChan (c_pid0 r) (c_pid1 r) v (c_pipe1 r) (c_listener0 r) (c_listener1 r) (c_closed0 r)
    (c_closed1 r).
Definition set_c_pipe1 (v : Z) (r : channel) : channel :=
  mkChan (c_pid0 r) (c_pid1 r) (c_pipe0 r) v (c_listener0 r) (c_listener1 r) (c_closed0 r)
    (c_closed1 r).
Definition set_c_listener0 (v : Z) (r : channel) : channel :=
  mkChan (c_pid0 r) (c_pid1 r) (c_pipe0 r) (c_pipe1 r) v (c_listener1 r) (c_closed0 r)
    (c_closed1 r).
Definition set_c_listener1 (v : Z) (r : channel) : channel :=
  mkChan (c_pid0 r) (c_pid1 r) (c_pipe0 r) (c_pipe1 r) (c_listener0 r) v (c_closed0 r)
    (c_closed1 r).
Definition set_c_closed0 (v : bool) (r : channel) : channel :=
  mkChan (c_pid0 r) (c_pid1 r) (c_pipe0 r) (c_pipe1 r) (c_listener0 r) (c_listener1 r) v
    (c_closed1 r).
Definition set_c_closed1 (v : bool) (r : channel) : channel :=
  mkChan (c_pid0 r) (c_pid1 r) (c_pipe0 r) (c_pipe1 r) (c_listener0 r) (c_listener1 r)
    (c_closed0 r) v.
Definition set_sv_identifier (v : Z) (r : server) : server :=
  mkServer v (sv_listener r) (sv_incoming r) (sv_head r) (sv_tail r) (sv_count r).
Definition set_sv_listener (v : Z) (r : server) : server :=
  mkServer (sv_identifier r) v (sv_incoming r) (sv_head r) (sv_tail r) (sv_count r).
Definition set_sv_incoming (v : list Z) (r : server) : server :=
  mkServer (sv_identifier r) (sv_listener r) v (sv_head r) (sv_tail r) (sv_count r).
Definition set_sv_head (v : Z) (r : server) : server :=
  mkServer (sv_identifier r) (sv_listener r) (sv_incoming r) v (sv_tail r) (sv_count r).
Definition set_sv_tail (v : Z) (r : server) : server :=
  mkServer (sv_identifier r) (sv_listener r) (sv_incoming r) (sv_head r) v (sv_count r).
Definition set_sv_count (v : Z) (r : server) : server :=
  mkServer (sv_identifier r) (sv_listener r) (sv_incoming r) (sv_head r) (sv_tail r) v.

Section state.
Context {A : Type}.
Local Notation K := (kstate A).

Definition set_k_alloc (v : A) (r : kstate A) : kstate A :=
  mkK v (k_tasks r) (k_procs r) (k_pipes r) (k_chans r) (k_servers r) (g_scheduler_running r)
    (g_current_task r) (g_task_list r) (g_idle r) (s_next_id r) (s_next_pid r) (s_processes r)
    (s_last_process r) (g_sleep_queue r) (g_sleep_queue_len r) (k_stack r) (k_space r)
    (k_tss_rsp0 r) (g_syscall_kernel_rsp r).
Definition set_k_tasks (v : gmap Z task) (r : kstate A) : kstate A :=
  mkK (k_alloc r) v (k_procs r) (k_pipes r) (k_chans r) (k_servers r) (g_scheduler_running r)
    (g_current_task r) (g_task_list r) (g_idle r) (s_next_id r) (s_next_pid r) (s_processes r)
    (s_last_process r) (g_sleep_queue r) (g_sleep_queue_len r) (k_stack r) (k_space r)
    (k_tss_rsp0 r) (g_syscall_kernel_rsp r).
Definition set_k_procs (v : gmap Z process) (r : kstate A) : kstate A :=
  mkK (k_alloc r) (k_tasks r) v (k_pipes r) (k_chans r) (k_servers r) (g_scheduler_running r)
    (g_current_task r) (g_task_list r) (g_idle r) (s_next_id r) (s_next_pid r) (s_processes r)
    (s_last_process r) (g_sleep_queue r) (g_sleep_queue_len r) (k_stack r) (k_space r)
    (k_tss_rsp0 r) (g_syscall_kernel_rsp r).
Definition set_k_pipes (v : gmap Z pipe) (r : kstate A) : kstate A :=
  mkK (k_alloc r) (k_tasks r) (k_procs r) v (k_chans r) (k_servers r) (g_scheduler_running r)
    (g_current_task r) (g_task_list r) (g_idle r) (s_next_id r) (s_next_pid r) (s_processes r)
    (s_last_process r) (g_sleep_queue r) (g_sleep_queue_len r) (k_stack r) (k_space r)
    (k_tss_rsp0 r) (g_syscall_kernel_rsp r).
Definition set_k_chans (v : gmap Z channel) (r : kstate A) : kstate A :=
  mkK (k_alloc r) (k_tasks r) (k_procs r) (k_pipes r) v (k_servers r) (g_scheduler_running r)
    (g_current_task r) (g_task_list r) (g_idle r) (s_next_id r) (s_next_pid r) (s_processes r)
    (s_last_process r) (g_sleep_queue r) (g_sleep_queue_len r) (k_stack r) (k_space r)
    (k_tss_rsp0 r) (g_syscall_kernel_rsp r).
Definition set_k_servers (v : list server) (r : kstate A) : kstate A :=
  mkK (k_alloc r) (k_tasks r) (k_procs r) (k_pipes r) (k_chans r) v (g_scheduler_running r)
    (g_current_task r) (g_task_list r) (g_idle r) (s_next_id r) (s_next_pid r) (s_processes r)
    (s_last_process r) (g_sleep_queue r) (g_sleep_queue_len r) (k_stack r) (k_space r)
    (k_tss_rsp0 r) (g_syscall_kernel_rsp r).
Definition set_g_scheduler_running (v : Z) (r : kstate A) : kstate A :=
  mkK (k_alloc r) (k_tasks r) (k_procs r) (k_pipes r) (k_chans r) (k_servers r) v
    (g_current_task r) (g_task_list r) (g_idle r) (s_next_id r) (s_next_pid r) (s_processes r)
    (s_last_process r) (g_sleep_queue r) (g_sleep_queue_len r) (k_stack r) (k_space r)
    (k_tss_rsp0 r) (g_syscall_kernel_rsp r).
Definition set_g_current_task (v : Z) (r : kstate A) : kstate A :=
  mkK (k_alloc r) (k_tasks r) (k_procs r) (k_pipes r) (k_chans r) (k_servers r)
    (g_scheduler_running r) v (g_task_list r) (g_idle r) (s_next_id r) (s_next_pid r)
    (s_processes r) (s_last_process r) (g_sleep_queue r) (g_sleep_queue_len r) (k_stack r)
    (k_space r) (k_tss_rsp0 r) (g_syscall_kernel_rsp r).
Definition set_g_task_list (v : Z) (r : kstate A) : kstate A :=
  mkK (k_alloc r) (k_tasks r) (k_procs r) (k_pipes r) (k_chans r) (k_servers r)
    (g_scheduler_running r) (g_current_task r) v (g_idle r) (s_next_id r) (s_next_pid r)
    (s_processes r) (s_last_process r) (g_sleep_queue r) (g_sleep_queue_len r) (k_stack r)
    (k_space r) (k_tss_rsp0 r) (g_syscall_kernel_rsp r).
Definition set_g_idle (v : Z) (r : kstate A) : kstate A :=
  mkK (k_alloc r) (k_tasks r) (k_procs r) (k_pipes r) (k_chans r) (k_servers r)
    (g_scheduler_running r) (g_current_task r) (g_task_list r) v (s_next_id r) (s_next_pid r)
    (s_processes r) (s_last_process r) (g_sleep_queue r) (g_sleep_queue_len r) (k_stack r)
    (k_space r) (k_tss_rsp0 r) (g_syscall_kernel_rsp r).
Definition set_s_next_id (v : Z) (r : kstate A) : kstate A :=
  mkK (k_alloc r) (k_tasks r) (k_procs r) (k_pipes r) (k_chans r) (k_servers r)
    (g_scheduler_running r) (g_current_task r) (g_task_list r) (g_idle r) v (s_next_pid r)
    (s_processes r) (s_last_process r) (g_sleep_queue r) (g_sleep_queue_len r) (k_stack r)
    (k_space r) (k_tss_rsp0 r) (g_syscall_kernel_rsp r).
Definition set_s_next_pid (v : Z) (r : kstate A) : kstate A :=
  mkK (k_alloc r) (k_tasks r) (k_procs r) (k_pipes r) (k_chans r) (k_servers r)
    (g_scheduler_running r) (g_current_task r) (g_task_list r) (g_idle r) (s_next_id r) v
    (s_processes r) (s_last_process r) (g_sleep_queue r) (g_sleep_queue_len r) (k_stack r)
    (k_space r) (k_tss_rsp0 r) (g_syscall_kernel_rsp r).
Definition set_s_processes (v : Z) (r : kstate A) : kstate A :=
  mkK (k_alloc r) (k_tasks r) (k_procs r) (k_pipes r) (k_chans r) (k_servers r)
    (g_scheduler_running r) (g_current_task r) (g_task_list r) (g_idle r) (s_next_id r)
    (s_next_pid r) v (s_last_process r) (g_sleep_queue r) (g_sleep_queue_len r) (k_stack r)
    (k_space r) (k_tss_rsp0 r) (g_syscall_kernel_rsp r).
Definition set_s_last_process (v : Z) (r : kstate A) : kstate A :=
  mkK (k_alloc r) (k_tasks r) (k_procs r) (k_pipes r) (k_chans r) (k_servers r)
    (g_scheduler_running r) (g_current_task r) (g_task_list r) (g_idle r) (s_next_id r)
    (s_next_pid r) (s_processes r) v (g_sleep_queue r) (g_sleep_queue_len r) (k_stack r)
    (k_space r) (k_tss_rsp0 r) (g_syscall_kernel_rsp r).
Definition set_g_sleep_queue (v : list (Z * Z)) (r : kstate A) : kstate A :=
  mkK (k_alloc r) (k_tasks r) (k_procs r) (k_pipes r) (k_chans r) (k_servers r)
    (g_scheduler_running r) (g_current_task r) (g_task_list r) (g_idle r) (s_next_id r)
    (s_next_pid r) (s_processes r) (s_last_process r) v (g_sleep_queue_len r) (k_stack r)
    (k_space r) (k_tss_rsp0 r) (g_syscall_kernel_rsp r).
Definition set_g_sleep_queue_len (v : Z) (r : kstate A) : kstate A :=
  mkK (k_alloc r) (k_tasks r) (k_procs r) (k_pipes r) (k_chans r) (k_servers r)
    (g_scheduler_running r) (g_current_task r) (g_task_list r) (g_idle r) (s_next_id r)
    (s_next_pid r) (s_processes r) (s_last_process r) (g_sleep_queue r) v (k_stack r) (k_space r)
    (k_tss_rsp0 r) (g_syscall_kernel_rsp r).
Definition set_k_stack (v : gmap Z Z) (r : kstate A) : kstate A :=
  mkK (k_alloc r) (k_tasks r) (k_procs r) (k_pipes r) (k_chans r) (k_servers r)
    (g_scheduler_running r) (g_current_task r) (g_task_list r) (g_idle r) (s_next_id r)
    (s_next_pid r) (s_processes r) (s_last_process r) (g_sleep_queue r) (g_sleep_queue_len r) v
    (k_space r) (k_tss_rsp0 r) (g_syscall_kernel_rsp r).
Definition set_k_space (v : Z) (r : kstate A) : kstate A :=
  mkK (k_alloc r) (k_tasks r) (k_procs r) (k_pipes r) (k_chans r) (k_servers r)
    (g_scheduler_running r) (g_current_task r) (g_task_list r) (g_idle r) (s_next_id r)
    (s_next_pid r) (s_processes r) (s_last_process r) (g_sleep_queue r) (g_sleep_queue_len r)
    (k_stack r) v (k_tss_rsp0 r) (g_syscall_kernel_rsp r).
Definition set_k_tss_rsp0 (v : Z) (r : kstate A) : kstate A :=
  mkK (k_alloc r) (k_tasks r) (k_procs r) (k_pipes r) (k_chans r) (k_servers r)
    (g_scheduler_running r) (g_current_task r) (g_task_list r) (g_idle r) (s_next_id r)
    (s_next_pid r) (s_processes r) (s_last_process r) (g_sleep_queue r) (g_sleep_queue_len r)
    (k_stack r) (k_space r) v (g_syscall_kernel_rsp r).
Definition set_g_syscall_kernel_rsp (v : Z) (r : kstate A) : kstate A :=
  mkK (k_alloc r) (k_tasks r) (k_procs r) (k_pipes r) (k_chans r) (k_servers r)
    (g_scheduler_running r) (g_current_task r) (g_task_list r) (g_idle r) (s_next_id r)
    (s_next_pid r) (s_processes r) (s_last_process r) (g_sleep_queue r) (g_sleep_queue_len r)
    (k_stack r) (k_space r) (k_tss_rsp0 r) v.

(** Following and writing through pointers. *)
Definition at_ptr {V : Type} (store : K → gmap Z V) (p : Z) : M K V := λ s,
  match store s !! p with Some v => Ok (v, s) | None => Fault end.
Definition upd_ptr {V : Type} (store : K → gmap Z V) (put : gmap Z V → K → K) (p : Z) (f : V → V) : M K unit := λ s,
  match store s !! p with Some v => Ok (tt, put (<[p := f v]> (store s)) s) | None => Fault end.

Definition rd_task : Z → M K task := at_ptr k_tasks.
Definition wr_task : Z → (task → task) → M K unit := upd_ptr k_tasks set_k_tasks.
Definition rd_proc : Z → M K process := at_ptr k_procs.
Definition wr_proc : Z → (process → process) → M K unit := upd_ptr k_procs set_k_procs.
Definition rd_pipe : Z → M K pipe := at_ptr k_pipes.
Definition wr_pipe : Z → (pipe → pipe) → M K unit := upd_ptr k_pipes set_k_pipes.
Definition rd_chan : Z → M K channel := at_ptr k_chans.
Definition wr_chan : Z → (channel → channel) → M K unit := upd_ptr k_chans set_k_chans.

Definition on_alloc {R : Type} (m : M A R) : M K R := zoom k_alloc set_k_alloc m.

Lemma rd_task_wp (s : K) p t (Q : task → K → Prop) E :
  k_tasks s !! p = Some t → Q t s → wp (rd_task p) Q E s.
Proof. intros Hp HQ. unfold wp, rd_task, at_ptr. by rewrite Hp. Qed.
Lemma wr_task_wp (s : K) p t f (Q : unit → K → Prop) E :
  k_tasks s !! p = Some t → Q tt (set_k_tasks (<[p := f t]> (k_tasks s)) s) → wp (wr_task p f) Q E s.
Proof. intros Hp HQ. unfold wp, wr_task, upd_ptr. by rewrite Hp. Qed.
End state.

(** Normalises a state built by field updates. *)
Ltac kflat := cbn [k_alloc k_tasks k_procs k_pipes k_chans k_servers g_scheduler_running g_current_task g_task_list g_idle s_next_id s_next_pid s_processes s_last_process g_sleep_queue g_sleep_queue_len k_stack k_space k_tss_rsp0 g_syscall_kernel_rsp set_k_alloc set_k_tasks set_k_procs set_k_pipes set_k_chans set_k_servers set_g_scheduler_running set_g_current_task set_g_task_list set_g_idle set_s_next_id set_s_next_pid set_s_processes set_s_last_process set_g_sleep_queue set_g_sleep_queue_len set_k_stack set_k_space set_k_tss_rsp0 set_g_syscall_kernel_rsp].

(** A byte string with its terminating NUL, in a buffer of [n] bytes. *)
Definition zeros (n : Z) : list Z := replicate (Z.to_nat n) 0.

End Kobj.
