(* ===== verification/Sched.v ===== *)
(** * Scheduler ([kernel/scheduler/scheduler.c], [scheduler.h], [context_switch.asm])

    Round-robin scheduling over a circular doubly linked list of tasks, the
    sleep queue, task creation and the context switch.  A loop that follows
    [next] pointers runs with a bound, the number of tasks; a list that is not a
    ring makes it exceed any bound. *)
From stdpp Require Import sorting.
From S2P Require Import Prelude Pmm Vmm Heap Kobj.
Import Kobj.

Module Sched.

(** ** The context switch

    Callee-saved registers, the stack pointer and the instruction pointer; the
    stacks are words of memory. *)

Record regs := mkRegs {
  rbx : Z; rbp : Z; r12 : Z; r13 : Z; r14 : Z; r15 : Z; rsp : Z; rip : Z
}.

Definition push (v : Z) (st : gmap Z Z * Z) : gmap Z Z * Z :=
  (<[st.2 - 8 := v]> st.1, st.2 - 8).

(** [context_switch(&old->kernel_rsp, new_rsp)], entered by a [call] that pushed
    the return address [ret]: the saved stack pointer, the memory after the
    pushes and the registers after the final [ret]. *)
Definition context_switch (m : gmap Z Z) (r : regs) (ret new_rsp : Z) : option (Z * gmap Z Z * regs) :=
  let '(m', sp) := push (r15 r) (push (r14 r) (push (r13 r) (push (r12 r)
                   (push (rbp r) (push (rbx r) (push ret (m, rsp r))))))) in
  v15 ← m' !! new_rsp; v14 ← m' !! (new_rsp + 8); v13 ← m' !! (new_rsp + 16);
  v12 ← m' !! (new_rsp + 24); vbp ← m' !! (new_rsp + 32); vbx ← m' !! (new_rsp + 40);
  ip ← m' !! (new_rsp + 48);
  Some (sp, m', mkRegs vbx vbp v12 v13 v14 v15 (new_rsp + 56) ip).

(** ** What task creation needs from the page layer *)

Class UserPages (A : Type) := {
  (** [pmm_alloc_pages(count)] *)
  up_alloc : Z → M A Z;
  (** [vmm_map_pages(space, va, pa, count, flags)], [space] a pointer *)
  up_map : Z → Z → Z → Z → Z → M A unit
}.

Section ops.
Context {A : Type} `{Alloc A} `{UserPages A}.
Local Notation K := (kstate A).

(** Link-time addresses of the two entry trampolines. *)
Context (task_bootstrap user_task_bootstrap : Z).

Definition task_set_ready (t : Z) : M K unit :=
  tk ← rd_task t;
  if decide (t_state tk = TASK_BLOCKED) then wr_task t (set_t_state TASK_READY) else mret tt.

Definition task_set_blocked (t : Z) : M K unit :=
  tk ← rd_task t;
  if decide (t_state tk = TASK_DEAD) then mret tt else wr_task t (set_t_state TASK_BLOCKED).

Definition task_fuel (s : K) : nat := S (size (k_tasks s)).

(** [do { if (t->state == TASK_READY) return t; t = t->next; } while (t != stop);] *)
Fixpoint scan_list (fuel : nat) (t stop : Z) : M K (option Z) :=
  match fuel with
  | O => no_fuel
  | S fuel' =>
      tk ← rd_task t;
      if decide (t_state tk = TASK_READY) then mret (Some t)
      else if t_next tk =? stop then mret None else scan_list fuel' (t_next tk) stop
  end.

(** [while (t != stop) { if (t->state == TASK_READY) return t; t = t->next; }] *)
Fixpoint scan_after (fuel : nat) (t stop : Z) : M K (option Z) :=
  match fuel with
  | O => no_fuel
  | S fuel' =>
      if t =? stop then mret None
      else
        tk ← rd_task t;
        if decide (t_state tk = TASK_READY) then mret (Some t) else scan_after fuel' (t_next tk) stop
  end.

Definition scheduler_pick_next : M K Z :=
  cur ← gets g_current_task;
  lst ← gets g_task_list;
  idle ← gets g_idle;
  fuel ← gets task_fuel;
  if cur =? 0 then mret lst
  else
    ct ← (if cur =? idle then mret None else (tk ← rd_task cur; mret (Some tk)));
    if (match ct with None => true | Some tk => bool_decide (t_state tk = TASK_DEAD) end) then
      if lst =? 0 then mret idle
      else
        r ← scan_list fuel lst lst;
        match r with Some t => mret t | None => mret idle end
    else
      c ← rd_task cur;
      r ← scan_after fuel (t_next c) cur;
      match r with
      | Some t => mret t
      | None =>
          c ← rd_task cur;
          if decide (t_state c = TASK_READY) then mret cur
          else if decide (t_state c = TASK_RUNNING) then mret cur
          else mret idle
      end.

(** [schedule] up to the context switch: the new current task, the states, the
    address space and the kernel stack the CPU will use. *)
Definition schedule : M K unit :=
  run ← gets g_scheduler_running;
  if negb (truthy run) then mret tt
  else
    next ← scheduler_pick_next;
    prev ← gets g_current_task;
    if (next =? 0) || (next =? prev) then mret tt
    else
      (if prev =? 0 then mret tt
       else
         p ← rd_task prev;
         if decide (t_state p = TASK_RUNNING) then wr_task prev (set_t_state TASK_READY)
         else mret tt) ;;
      modify (set_g_current_task next) ;;
      wr_task next (set_t_state TASK_RUNNING) ;;
      n ← rd_task next;
      space ← (if t_owner n =? 0 then mret 0
               else o ← rd_proc (t_owner n); mret (p_address_space o));
      if space =? 0 then modify (set_k_space 0)
      else
        modify (set_k_space space) ;;
        let kstack_top := u64 (t_stack_base n + t_stack_size n) in
        modify (set_k_tss_rsp0 kstack_top) ;;
        modify (set_g_syscall_kernel_rsp kstack_top).

Fixpoint find_task (fuel : nat) (id t stop : Z) : M K Z :=
  match fuel with
  | O => no_fuel
  | S fuel' =>
      tk ← rd_task t;
      if t_id tk =? id then mret t
      else if t_next tk =? stop then mret 0 else find_task fuel' id (t_next tk) stop
  end.

Definition scheduler_find (id : Z) : M K Z :=
  lst ← gets g_task_list;
  fuel ← gets task_fuel;
  if lst =? 0 then mret 0 else find_task fuel id lst lst.

Definition scheduler_add (task : Z) : M K unit :=
  lst ← gets g_task_list;
  if lst =? 0 then
    modify (set_g_task_list task) ;;
    wr_task task (set_t_next task) ;;
    wr_task task (set_t_prev task)
  else
    h ← rd_task lst;
    wr_task task (set_t_prev (t_prev h)) ;;
    wr_task task (set_t_next lst) ;;
    h ← rd_task lst;
    wr_task (t_prev h) (set_t_next task) ;;
    wr_task lst (set_t_prev task).

Definition scheduler_remove (t : Z) : M K unit :=
  tk ← rd_task t;
  wr_task (t_prev tk) (set_t_next (t_next tk)) ;;
  tk ← rd_task t;
  wr_task (t_next tk) (set_t_prev (t_prev tk)).

(** ** Task creation *)

Definition zero_task : task := mkTask 0 0 TASK_READY 0 0 0 0 0 0 0 0 0 0 0 0 0 0.

Definition stack_store (a v : Z) : M K unit := modify (λ s, set_k_stack (<[a := v]> (k_stack s)) s).

Definition task_delete (t : Z) : M K unit :=
  on_alloc (al_free t) ;;
  modify (λ s, set_k_tasks (delete t (k_tasks s)) s).

(** The words pushed on a fresh kernel stack, in order. *)
Fixpoint push_words (vs : list Z) (sp : Z) : M K Z :=
  match vs with
  | [] => mret sp
  | v :: vs' => stack_store (u64 (sp - 8)) v ;; push_words vs' (u64 (sp - 8))
  end.

Definition align16 (sp : Z) : Z := Z.land sp (2 ^ 64 - 16).

Definition task_create (entry args : Z) : M K Z :=
  t ← on_alloc (al_malloc sizeof_task);
  if t =? 0 then mret 0
  else
    modify (λ s, set_k_tasks (<[t := zero_task]> (k_tasks s)) s) ;;
    stack ← on_alloc (al_malloc 4096);
    if stack =? 0 then task_delete t ;; mret 0
    else
      for_range 512 0 (λ i, stack_store (stack + 8 * i) 0) ;;
      id ← gets s_next_id;
      modify (set_s_next_id (u32 (id + 1))) ;;
      wr_task t (set_t_id id) ;;
      wr_task t (set_t_stack_base stack) ;;
      wr_task t (set_t_stack_size 4096) ;;
      wr_task t (set_t_next 0) ;;
      wr_task t (set_t_state TASK_READY) ;;
      wr_task t (set_t_entry entry) ;;
      wr_task t (set_t_args args) ;;
      wr_task t (set_t_index 0) ;;
      sp ← push_words [task_bootstrap; 0; 0; 0; 0; 0; 0] (align16 (u64 (stack + 4096)));
      wr_task t (set_t_kernel_rsp sp) ;;
      mret t.

Definition task_create_kernel (entry args : Z) : M K Z := task_create entry args.

Definition scheduler_init (idle : Z) : M K unit :=
  t ← task_create_kernel idle 0;
  modify (set_g_idle t).

Definition USER_STACK_TOP : Z := 0x0000800000000000.
Definition USER_STACK_PAGES : Z := 4.
Definition USER_HEAP_BASE : Z := 0x0000500000000000.

Definition task_create_user_from_space (space entry task_index : Z) : M K Z :=
  t ← task_create entry 0;
  wr_task t (set_t_index task_index) ;;
  phys_stack ← on_alloc (up_alloc USER_STACK_PAGES);
  let user_stack_top := u64 (USER_STACK_TOP - USER_STACK_PAGES * Vmm.PAGE_SIZE * task_index) in
  let user_stack_base := u64 (user_stack_top - USER_STACK_PAGES * Vmm.PAGE_SIZE) in
  on_alloc (up_map space user_stack_base phys_stack USER_STACK_PAGES
              (Z.lor (Z.lor Vmm.PAGE_PRESENT Vmm.PAGE_WRITABLE) Vmm.PAGE_USER)) ;;
  wr_task t (set_t_user_rsp (u64 (user_stack_top - 8))) ;;
  tk ← rd_task t;
  stack_store (t_kernel_rsp tk + 6 * 8) user_task_bootstrap ;;
  mret t.

(** ** The sleep queue: an array of 256 entries [(task, wake_tick)] *)

Definition sq_read (i : Z) : M K (Z * Z) := λ s,
  if i <? 0 then Fault
  else match g_sleep_queue s !! Z.to_nat i with Some e => Ok (e, s) | None => Fault end.
Definition sq_write (i : Z) (e : Z * Z) : M K unit := λ s,
  if (0 <=? i) && (i <? Z.of_nat (length (g_sleep_queue s)))
  then Ok (tt, set_g_sleep_queue (<[Z.to_nat i := e]> (g_sleep_queue s)) s) else Fault.

(** [while (i > 0 && q[i-1].wake_tick > wake_tick) { q[i] = q[i-1]; i--; }] *)
Fixpoint sift (n : nat) (i wake_tick : Z) : M K Z :=
  match n with
  | O => mret i
  | S n' =>
      if 0 <? i then
        e ← sq_read (i - 1);
        if wake_tick <? e.2 then sq_write i e ;; sift n' (i - 1) wake_tick else mret i
      else mret i
  end.

Definition sleep_queue_enqueue (t wake_tick : Z) : M K bool :=
  len ← gets g_sleep_queue_len;
  if SLEEP_QUEUE_MAX <=? len then mret false
  else
    modify (set_g_sleep_queue_len (len + 1)) ;;
    i ← sift (Z.to_nat len) len wake_tick;
    sq_write i (t, wake_tick) ;;
    mret true.

(** The wake loop, from entry [i]: how many entries are due. *)
Fixpoint wake_loop (n : nat) (i current_tick : Z) : M K Z :=
  match n with
  | O => mret i
  | S n' =>
      len ← gets g_sleep_queue_len;
      if i <? len then
        e ← sq_read i;
        if e.2 <=? current_tick then task_set_ready e.1 ;; wake_loop n' (i + 1) current_tick
        else mret i
      else mret i
  end.

Definition sleep_queue_wake (current_tick : Z) : M K unit :=
  len ← gets g_sleep_queue_len;
  i ← wake_loop (Z.to_nat len) 0 current_tick;
  when (0 <? i) (
    len ← gets g_sleep_queue_len;
    modify (set_g_sleep_queue_len (len - i)) ;;
    for_range (Z.to_nat (len - i)) 0 (λ j, e ← sq_read (i + j); sq_write j e)).
End ops.

(** ** The context switch restores what it saved *)

Lemma context_switch_saves m r ret nsp sp m1 r1 :
  context_switch m r ret nsp = Some (sp, m1, r1) →
  sp = rsp r - 56 ∧ m1 !! sp = Some (r15 r) ∧ m1 !! (sp + 8) = Some (r14 r) ∧ m1 !! (sp + 16) = Some (r13 r) ∧
  m1 !! (sp + 24) = Some (r12 r) ∧ m1 !! (sp + 32) = Some (rbp r) ∧ m1 !! (sp + 40) = Some (rbx r) ∧
  m1 !! (sp + 48) = Some ret ∧
  ∀ a, ¬ (sp ≤ a < rsp r) → m1 !! a = m !! a.
Proof.
  unfold context_switch, push. simpl. intros Hc.
  repeat match type of Hc with (_ ≫= _) = Some _ => apply bind_Some in Hc as (? & _ & Hc) end.
  injection Hc as <- <- _. split; [lia|].
  split_and!; [(rewrite ?lookup_insert_ne by lia; apply lookup_insert_Some; left; split; [lia|reflexivity])..|].
  intros a Ha. by rewrite !lookup_insert_ne by lia.
Qed.

Lemma context_switch_loads m r ret nsp v15 v14 v13 v12 vbp vbx ip :
  rsp r ≤ nsp ∨ nsp + 56 ≤ rsp r - 56 →
  m !! nsp = Some v15 → m !! (nsp + 8) = Some v14 → m !! (nsp + 16) = Some v13 → m !! (nsp + 24) = Some v12 →
  m !! (nsp + 32) = Some vbp → m !! (nsp + 40) = Some vbx → m !! (nsp + 48) = Some ip →
  ∃ sp m1, context_switch m r ret nsp = Some (sp, m1, mkRegs vbx vbp v12 v13 v14 v15 (nsp + 56) ip).
Proof.
  intros Hd H1 H2 H3 H4 H5 H6 H7. unfold context_switch, push. simpl.
  rewrite !lookup_insert_ne by lia. rewrite H1, H2, H3, H4, H5, H6, H7. simpl. eauto.
Qed.

(** ** Rings of tasks *)

(** The tasks [l], linked both ways, between [pv] and [nx]. *)
Fixpoint dll (T : gmap Z task) (pv : Z) (l : list Z) (nx : Z) : Prop :=
  match l with
  | [] => True
  | x :: l' =>
      (∃ tk, T !! x = Some tk ∧ t_prev tk = pv ∧ t_next tk = default nx (head l')) ∧ dll T x l' nx
  end.

(** A circular list, written from one of its tasks. *)
Definition ring (T : gmap Z task) (l : list Z) : Prop :=
  match l with [] => False | x :: _ => NoDup l ∧ dll T (default x (last l)) l x end.

Lemma dll_app T pv l1 l2 nx :
  dll T pv (l1 ++ l2) nx ↔ dll T pv l1 (default nx (head l2)) ∧ dll T (default pv (last l1)) l2 nx.
Proof.
  revert pv. induction l1 as [|x l1 IH]; intros pv; simpl; [tauto|]. rewrite IH.
  replace (default nx (head (l1 ++ l2))) with (default (default nx (head l2)) (head l1)) by (by destruct l1).
  replace (default x (last l1)) with (default pv (last (x :: l1))); [tauto|].
  rewrite last_cons. by destruct (last l1).
Qed.

(** Links survive updates that leave [next] and [prev] alone. *)
Definition same_links (T T' : gmap Z task) (l : list Z) : Prop :=
  ∀ x tk, x ∈ l → T !! x = Some tk → ∃ tk', T' !! x = Some tk' ∧ t_prev tk' = t_prev tk ∧ t_next tk' = t_next tk.

Lemma dll_same T T' pv l nx : same_links T T' l → dll T pv l nx → dll T' pv l nx.
Proof.
  revert pv. induction l as [|x l IH]; intros pv; simpl; [done|]. intros Hs [(tk & Hx & Hp & Hn) Hd]. split.
  - destruct (Hs x tk ltac:(left) Hx) as (tk' & Hx' & Hp' & Hn'). exists tk'. split; [done|]. by rewrite Hp', Hn'.
  - apply IH; [|done]. intros y t Hy. apply Hs. by right.
Qed.

Lemma ring_same T T' l : same_links T T' l → ring T l → ring T' l.
Proof. destruct l as [|x l]; [done|]. intros Hs [Hn Hd]. split; [done|]. by eapply dll_same. Qed.

(** A ring may be written from any of its tasks. *)
Lemma ring_rotate T x l : ring T (x :: l) → l ≠ [] → ring T (l ++ [x]).
Proof.
  intros [Hn Hd] Hl. destruct l as [|y l]; [done|]. split.
  - apply NoDup_app. apply NoDup_cons in Hn as [Hx Hn]. split; [done|]. split; [|apply NoDup_singleton].
    intros z Hz ->%list_elem_of_singleton. done.
  - change (x :: y :: l) with ([x] ++ (y :: l)) in Hd. apply dll_app in Hd as [Hx Hd]. rewrite last_snoc.
    change (default y (Some x)) with x. apply dll_app. split; [|].
    + exact Hd.
    + simpl in Hx. replace (default x (last (y :: l))) with (default x (last (x :: y :: l))); [exact Hx|done].
Qed.

Lemma ring_rot T l1 l2 : ring T (l1 ++ l2) → l2 ≠ [] → ring T (l2 ++ l1).
Proof.
  revert l2. induction l1 as [|x l1 IH]; intros l2 Hr Hl; [by rewrite app_nil_r|]. simpl in Hr.
  apply ring_rotate in Hr; [|destruct l1; [done|]; by destruct l2].
  rewrite <- app_assoc in Hr. apply IH in Hr; [|by destruct l2]. by rewrite <- app_assoc in Hr.
Qed.

(** ** Picking the next task *)

Definition st (T : gmap Z task) (x : Z) : option task_state := t_state <$> T !! x.

Lemma st_at T x tk : T !! x = Some tk → st T x = Some (t_state tk).
Proof. intros Hx. unfold st. by rewrite Hx. Qed.

(** The first task of [l] that is ready. *)
Definition first_ready (T : gmap Z task) (l : list Z) : option Z :=
  head (filter (λ x, st T x = Some TASK_READY) l).

Lemma first_ready_cons T x l :
  first_ready T (x :: l) = if decide (st T x = Some TASK_READY) then Some x else first_ready T l.
Proof. unfold first_ready. rewrite filter_cons. by case_decide. Qed.

Lemma first_ready_in T l x : first_ready T l = Some x → x ∈ l ∧ st T x = Some TASK_READY.
Proof.
  unfold first_ready. intros Hh%head_Some_elem_of. apply list_elem_of_filter in Hh. tauto.
Qed.

Lemma dll_lookup T pv l nx x : dll T pv l nx → x ∈ l → is_Some (T !! x).
Proof.
  revert pv. induction l as [|y l IH]; intros pv; simpl; [by intros _ ?%elem_of_nil|].
  intros [(tk & Hy & _) Hd] [->|Hx]%elem_of_cons; [by eexists|by eapply IH].
Qed.

Lemma ring_lookup T l x : ring T l → x ∈ l → is_Some (T !! x).
Proof. destruct l as [|y l]; [done|]. intros [_ Hd]. by eapply dll_lookup. Qed.

Lemma ring_fuel (T : gmap Z task) l : ring T l → (length l ≤ size T)%nat.
Proof.
  intros Hr. assert (NoDup l) as Hn by (destruct l; [done|apply Hr]).
  rewrite <- (size_list_to_set (C := gset Z) l Hn), <- size_dom.
  apply subseteq_size. intros x Hx%elem_of_list_to_set. apply elem_of_dom. by eapply ring_lookup.
Qed.

Section picking.
Context {A : Type}.
Implicit Types s : kstate A.

Lemma rd_task_ok s p t : k_tasks s !! p = Some t → rd_task p s = Ok (t, s).
Proof. intros Hp. unfold rd_task, at_ptr. by rewrite Hp. Qed.

Lemma scan_after_ok s l pv stop fuel :
  dll (k_tasks s) pv l stop → stop ∉ l → (length l < fuel)%nat →
  scan_after fuel (default stop (head l)) stop s = Ok (first_ready (k_tasks s) l, s).
Proof.
  revert pv fuel. induction l as [|x l IH]; intros pv fuel Hd Hs Hf; (destruct fuel as [|fuel]; [simpl in Hf; lia|]); simpl.
  - by rewrite Z.eqb_refl.
  - destruct Hd as [(tk & Hx & _ & Hn) Hd]. apply not_elem_of_cons in Hs as [Hne Hs].
    destruct (Z.eqb_spec x stop); [congruence|]. rewrite (bind_of_ok _ _ _ _ _ (rd_task_ok _ _ _ Hx)).
    rewrite first_ready_cons. pose proof (st_at _ _ _ Hx) as Hst. do 2 case_decide; try congruence; [done|].
    rewrite Hn. apply (IH x); [done|done|simpl in Hf; lia].
Qed.

Lemma scan_list_ok s x l pv stop fuel :
  dll (k_tasks s) pv (x :: l) stop → stop ∉ l → (length l < fuel)%nat →
  scan_list fuel x stop s = Ok (first_ready (k_tasks s) (x :: l), s).
Proof.
  revert x pv fuel. induction l as [|y l IH]; intros x pv fuel [(tk & Hx & _ & Hn) Hd] Hs Hf;
    (destruct fuel as [|fuel]; [simpl in Hf; lia|]); cbn [scan_list];
    rewrite (bind_of_ok _ _ _ _ _ (rd_task_ok _ _ _ Hx)), first_ready_cons; simpl in Hn;
    pose proof (st_at _ _ _ Hx) as Hst; do 2 case_decide; try congruence; try done; rewrite Hn.
  - by rewrite Z.eqb_refl.
  - apply not_elem_of_cons in Hs as [Hne Hs]. destruct (Z.eqb_spec y stop); [congruence|].
    apply (IH y x); [done|done|simpl in Hf; lia].
Qed.

(** The scheduler's invariant: the task list is a ring from [g_task_list] that
    the idle task is not part of; the current task is a live member of the ring,
    or it is the idle task, or it is dead and unlinked; nothing else is marked
    running, and owners exist. *)
Record sched_wf s (l : list Z) : Prop := {
  sw_ring : ring (k_tasks s) l;
  sw_head : head l = Some (g_task_list s);
  sw_nz : 0 ∉ l;
  sw_idle : g_idle s ∉ l ∧ g_idle s ≠ 0 ∧ is_Some (k_tasks s !! g_idle s);
  sw_cur0 : g_current_task s ≠ 0;
  sw_cur : (g_current_task s ∈ l ∧ st (k_tasks s) (g_current_task s) ≠ Some TASK_DEAD) ∨
           (g_current_task s ∉ l ∧ (g_current_task s = g_idle s ∨
                                     st (k_tasks s) (g_current_task s) = Some TASK_DEAD));
  sw_run x : x ∈ g_idle s :: l → st (k_tasks s) x = Some TASK_RUNNING → x = g_current_task s;
  sw_owner x tk : x ∈ g_idle s :: l → k_tasks s !! x = Some tk →
    t_owner tk = 0 ∨ is_Some (k_procs s !! t_owner tk)
}.

(** What the code's policy selects when the current task is [c], followed in
    the ring by the tasks [after]. *)
Definition policy s (c : Z) (after : list Z) : Z :=
  match first_ready (k_tasks s) after with
  | Some t => t
  | None =>
      if decide (st (k_tasks s) c = Some TASK_READY ∨ st (k_tasks s) c = Some TASK_RUNNING)
      then c else g_idle s
  end.

Lemma pick_next_task s l1 c l2 :
  sched_wf s (l1 ++ c :: l2) → g_current_task s = c → st (k_tasks s) c ≠ Some TASK_DEAD →
  scheduler_pick_next s = Ok (policy s c (l2 ++ l1), s).
Proof.
  intros [Hr Hh Hz [Hi _] _ _ _ _] Hc Hd.
  assert (ring (k_tasks s) (c :: l2 ++ l1)) as Hr' by (by apply (ring_rot _ l1 (c :: l2)) in Hr).
  pose proof (ring_fuel _ _ Hr') as Hf. destruct Hr' as [Hn [(tk & Hct & _ & Hnx) Hdl]].
  apply NoDup_cons in Hn as [Hcn Hn].
  assert (c ≠ 0 ∧ c ≠ g_idle s) as [Hc0 Hci].
  { split; intros ->; [apply Hz|apply Hi]; apply elem_of_app; right; left. }
  pose proof (st_at _ _ _ Hct) as Hst.
  unfold scheduler_pick_next, gets. unfold mbind at 1 2 3 4, M_bind at 1 2 3 4. rewrite Hc.
  destruct (Z.eqb_spec c 0); [done|]. destruct (Z.eqb_spec c (g_idle s)); [done|].
  assert (((tk ← rd_task c; mret (Some tk)) : M (kstate A) _) s = Ok (Some tk, s)) as Hrd.
  { by rewrite (bind_of_ok _ _ _ _ _ (rd_task_ok _ _ _ Hct)). }
  rewrite (bind_of_ok _ _ _ _ _ Hrd).
  rewrite bool_decide_eq_false_2 by congruence. rewrite (bind_of_ok _ _ _ _ _ (rd_task_ok _ _ _ Hct)), Hnx.
  rewrite (bind_of_ok _ _ _ _ _ (scan_after_ok s (l2 ++ l1) c c (task_fuel s) Hdl Hcn
    ltac:(unfold task_fuel; simpl in Hf; lia))).
  unfold policy. destruct (first_ready _ _) as [t|]; [done|].
  rewrite (bind_of_ok _ _ _ _ _ (rd_task_ok _ _ _ Hct)).
  repeat case_decide; intuition congruence.
Qed.

Lemma pick_next_out s l : sched_wf s l → g_current_task s ∉ l →
  scheduler_pick_next s = Ok (default (g_idle s) (first_ready (k_tasks s) l), s).
Proof.
  intros [Hr Hh Hz (Hi & Hi0 & _) Hc0 Hcur _ _] Hc. pose proof (ring_fuel _ _ Hr) as Hf.
  destruct l as [|x l]; [done|]. destruct Hr as [Hn Hd]. injection Hh as ->.
  apply NoDup_cons in Hn as [Hx Hn]. apply not_elem_of_cons in Hz as [Hz _].
  unfold scheduler_pick_next, gets. unfold mbind at 1 2 3 4, M_bind at 1 2 3 4.
  destruct (Z.eqb_spec (g_current_task s) 0); [done|].
  assert (∃ ct, (if g_current_task s =? g_idle s then mret None
    else (tk ← rd_task (g_current_task s); mret (Some tk)) : M (kstate A) _) s = Ok (ct, s) ∧
    match ct with None => true | Some tk => bool_decide (t_state tk = TASK_DEAD) end = true) as (ct & Hct & Hdead).
  { destruct (Z.eqb_spec (g_current_task s) (g_idle s)); [by exists None|].
    destruct Hcur as [[? _]|[_ [?|Hdead]]]; [done|done|]. unfold st in Hdead.
    destruct (k_tasks s !! g_current_task s) as [tk|] eqn:Et; [|done]. exists (Some tk).
    rewrite (bind_of_ok _ _ _ _ _ (rd_task_ok _ _ _ Et)). split; [done|].
    apply bool_decide_eq_true_2. by injection Hdead. }
  rewrite (bind_of_ok _ _ _ _ _ Hct), Hdead.
  destruct (Z.eqb_spec (g_task_list s) 0); [congruence|].
  rewrite (bind_of_ok _ _ _ _ _ (scan_list_ok s _ l _ _ (task_fuel s) Hd Hx ltac:(unfold task_fuel; simpl in Hf; lia))).
  by destruct (first_ready _ _).
Qed.
End picking.

(** ** Switching *)

(** Task states after switching from [c] to [n]. *)
Definition switched (T : gmap Z task) (c n : Z) (x : Z) : option task_state :=
  if decide (x = n) then if decide (n = c) then st T x else Some TASK_RUNNING
  else if decide (x = c ∧ st T c = Some TASK_RUNNING) then Some TASK_READY
  else st T x.

Section switching.
Context {A : Type}.
Implicit Types s : kstate A.

(** Everything but the states is as before. *)
Record only_states (T T' : gmap Z task) : Prop := {
  os_dom x : is_Some (T' !! x) ↔ is_Some (T !! x);
  os_same x tk tk' : T !! x = Some tk → T' !! x = Some tk' → set_t_state TASK_READY tk' = set_t_state TASK_READY tk
}.

Lemma only_states_refl T : only_states T T.
Proof. split; [done|]. intros x tk tk' H1 H2. congruence. Qed.

Lemma only_states_trans T T' T'' : only_states T T' → only_states T' T'' → only_states T T''.
Proof.
  intros [Hd Hs] [Hd' Hs']. split; [intros x; by rewrite Hd', Hd|].
  intros x tk tk'' H1 H3. destruct (proj2 (Hd x) ltac:(by eexists)) as [tk' H2].
  by rewrite (Hs' x tk' tk'' H2 H3), (Hs x tk tk' H1 H2).
Qed.

Lemma only_states_set T T' x tk v : only_states T T' → T' !! x = Some tk →
  only_states T (<[x := set_t_state v tk]> T').
Proof.
  intros [Hd Hs] Hx. split.
  - intros y. rewrite lookup_insert_is_Some. rewrite <- (Hd y). split; [|by destruct (decide (x = y)); auto].
    intros [<-|[_ ?]]; [by eexists|done].
  - intros y t t' Ht. destruct (decide (x = y)) as [<-|Hne].
    + rewrite lookup_insert_eq. intros [= <-]. rewrite <- (Hs x t tk Ht Hx). done.
    + rewrite lookup_insert_ne by done. by apply Hs.
Qed.

Lemma only_states_links T T' l : only_states T T' → same_links T T' l.
Proof.
  intros [Hd Hs] x tk _ Hx. destruct (proj2 (Hd x) ltac:(by eexists)) as [tk' Hx']. exists tk'. split; [done|].
  specialize (Hs x tk tk' Hx Hx'). split; [apply (f_equal t_prev) in Hs|apply (f_equal t_next) in Hs]; exact Hs.
Qed.

Lemma only_states_owner T T' x tk' : only_states T T' → T' !! x = Some tk' →
  ∃ tk, T !! x = Some tk ∧ t_owner tk' = t_owner tk.
Proof.
  intros [Hd Hs] Hx. destruct (proj1 (Hd x) ltac:(by eexists)) as [tk Ht]. exists tk. split; [done|].
  specialize (Hs x tk tk' Ht Hx). by apply (f_equal t_owner) in Hs.
Qed.

Lemma st_insert T x y tk v : T !! x = Some tk →
  st (<[x := set_t_state v tk]> T) y = if decide (y = x) then Some v else st T y.
Proof.
  intros Hx. unfold st. case_decide as Hd; [subst; by rewrite lookup_insert_eq|by rewrite lookup_insert_ne].
Qed.

(** The part of [schedule] after the choice. *)
Lemma switch_ok s l n : sched_wf s l → truthy (g_scheduler_running s) = true →
  scheduler_pick_next s = Ok (n, s) → n ∈ g_idle s :: l → 
  wp schedule (λ _ s', sched_wf s' l ∧ g_current_task s' = n ∧
    only_states (k_tasks s) (k_tasks s') ∧ k_procs s' = k_procs s ∧
    g_scheduler_running s' = g_scheduler_running s ∧ g_idle s' = g_idle s ∧
    ∀ x, st (k_tasks s') x = switched (k_tasks s) (g_current_task s) n x) never s.
Proof.
  intros W Hrun Hpick Hn. unfold schedule. wp_steps. rewrite Hrun. cbn [negb].
  apply wp_bind. eapply wp_ok; [exact Hpick|]. wp_steps.
  destruct W as [Hr Hh Hz Hid Hc0 Hcur Hone Hown]. set (c := g_current_task s) in *. set (T := k_tasks s) in *.
  assert (n ≠ 0) as Hn0. { intros ->. apply elem_of_cons in Hn as [Hn|Hn]; [by destruct Hid as (_ & ? & _)|done]. }
  destruct (Z.eqb_spec n 0); [done|]. cbn [orb].
  assert (is_Some (T !! n)) as [tn Htn].
  { apply elem_of_cons in Hn as [->|Hn]; [apply Hid|by eapply ring_lookup]. }
  destruct (Z.eqb_spec n c) as [->|Hnc].
  { apply wp_ret. split; [done|]. split; [done|]. split; [apply only_states_refl|]. split_and!; try done.
    intros x. unfold switched. repeat case_decide; try done. destruct_and?. by subst. }
  assert (is_Some (T !! c)) as [tc Htc].
  { destruct Hcur as [[Hin _]|[_ [->|Hd]]]; [by eapply ring_lookup|apply Hid|].
    unfold st in Hd. fold T in Hd. by destruct (T !! c). }
  destruct (Z.eqb_spec c 0); [done|].
  apply wp_bind, wp_bind, (rd_task_wp _ _ tc); [done|].
  pose (T1 := if decide (t_state tc = TASK_RUNNING) then <[c := set_t_state TASK_READY tc]> T else T).
  assert (only_states T T1) as Ho1.
  { unfold T1. case_decide; [by apply only_states_set; [apply only_states_refl|]|apply only_states_refl]. }
  destruct (proj2 (os_dom _ _ Ho1 n) ltac:(by eexists)) as [tn1 Htn1].
  set (T2 := <[n := set_t_state TASK_RUNNING tn1]> T1).
  pose proof (only_states_set T T1 n tn1 TASK_RUNNING Ho1 Htn1) as Ho2. fold T2 in Ho2.
  assert (∀ x, st T2 x = switched T c n x) as Hst.
  { intros x. unfold T2, switched. rewrite st_insert by done. destruct (decide (n = c)); [done|].
    case_decide; [done|]. pose proof (st_at _ _ _ Htc) as Hsc. unfold T1. case_decide as Ht.
    - rewrite st_insert by done. repeat case_decide; intuition congruence.
    - case_decide; [|done]. intuition congruence. }
  eapply (wp_ok _ _ _ _ tt (set_k_tasks T1 s)).
  { unfold T1. case_decide; [unfold wr_task, upd_ptr; fold T; by rewrite Htc|by destruct s]. }
  wp_steps. apply (wr_task_wp _ _ tn1); [exact Htn1|]. cbn [k_tasks set_k_tasks set_g_current_task]. fold T2.
  apply wp_bind, (rd_task_wp _ _ (set_t_state TASK_RUNNING tn1)); [apply lookup_insert_eq|].
  assert (∀ s', k_tasks s' = T2 → g_current_task s' = n → g_task_list s' = g_task_list s → g_idle s' = g_idle s →
    k_procs s' = k_procs s → g_scheduler_running s' = g_scheduler_running s →
    sched_wf s' l ∧ g_current_task s' = n ∧ only_states T (k_tasks s') ∧ k_procs s' = k_procs s ∧
    g_scheduler_running s' = g_scheduler_running s ∧ g_idle s' = g_idle s ∧
    ∀ x, st (k_tasks s') x = switched T c n x) as Hpost.
  { intros s' Ht' Hc' Hl' Hi' Hp' Hr'. rewrite Ht'. split_and!; try done. split; rewrite ?Ht', ?Hl', ?Hi', ?Hc', ?Hp'; try done.
    - apply (ring_same T); [by apply only_states_links|done].
    - destruct Hid as (H1 & H2 & H3). split_and!; try done. by apply (os_dom _ _ Ho2).
    - apply elem_of_cons in Hn as [->|Hn]; [right; split; [apply Hid|by left]|left; split; [done|]].
      rewrite Hst. unfold switched. by repeat case_decide.
    - intros x Hx. rewrite Hst. unfold switched. repeat case_decide; try done. intros Hx'.
      pose proof (Hone x Hx Hx'). intuition congruence.
    - intros x tk Hx Htk. destruct (only_states_owner _ _ _ _ Ho2 Htk) as (tk0 & Ht0 & ->). by apply (Hown x). }
  assert (t_owner tn1 = 0 ∨ is_Some (k_procs s !! t_owner tn1)) as Ho.
  { destruct (only_states_owner _ _ _ _ Ho1 Htn1) as (tk0 & Ht0 & ->). by apply (Hown n). }
  cbn [t_owner set_t_state]. apply wp_bind. destruct (Z.eqb_spec (t_owner tn1) 0); [wp_steps; by apply Hpost|].
  destruct Ho as [?|[o Ho]]; [done|]. apply wp_bind.
  eapply wp_ok; [unfold rd_proc, at_ptr; cbn [k_procs set_k_tasks set_g_current_task]; by rewrite Ho|].
  wp_steps. destruct (Z.eqb_spec (p_address_space o) 0); wp_steps; by apply Hpost.
Qed.

Lemma policy_in s l1 c l2 : sched_wf s (l1 ++ c :: l2) → policy s c (l2 ++ l1) ∈ g_idle s :: l1 ++ c :: l2.
Proof.
  intros W. unfold policy. destruct (first_ready _ _) as [t|] eqn:E.
  - apply first_ready_in in E as [E _]. right. apply elem_of_app in E as [E|E]; apply elem_of_app; [right; by right|by left].
  - case_decide; [right; apply elem_of_app; right; left|left].
Qed.

Lemma default_ready_in s l : default (g_idle s) (first_ready (k_tasks s) l) ∈ g_idle s :: l.
Proof.
  destruct (first_ready _ _) as [t|] eqn:E; simpl; [|left].
  apply first_ready_in in E as [E _]. by right.
Qed.

Definition runs s s' l : Prop :=
  sched_wf s' l ∧ only_states (k_tasks s) (k_tasks s') ∧ k_procs s' = k_procs s ∧
  g_scheduler_running s' = g_scheduler_running s ∧ g_idle s' = g_idle s ∧
  ∀ x, st (k_tasks s') x = switched (k_tasks s) (g_current_task s) (g_current_task s') x.

Lemma schedule_in s l1 c l2 : sched_wf s (l1 ++ c :: l2) → truthy (g_scheduler_running s) = true →
  g_current_task s = c → st (k_tasks s) c ≠ Some TASK_DEAD →
  wp schedule (λ _ s', runs s s' (l1 ++ c :: l2) ∧ g_current_task s' = policy s c (l2 ++ l1)) never s.
Proof.
  intros W Hr Hc Hd. eapply wp_mono; [apply (switch_ok s _ (policy s c (l2 ++ l1)) W Hr); [by apply pick_next_task|by apply policy_in]| |done].
  intros [] s' (W' & Hn & Ho & Hp & Hrr & Hi & Hs). split; [|done]. split_and!; try done. by rewrite Hn.
Qed.

Lemma schedule_out s l : sched_wf s l → truthy (g_scheduler_running s) = true → g_current_task s ∉ l →
  wp schedule (λ _ s', runs s s' l ∧
    g_current_task s' = default (g_idle s) (first_ready (k_tasks s) l)) never s.
Proof.
  intros W Hr Hc. eapply wp_mono; [apply (switch_ok s l (default (g_idle s) (first_ready (k_tasks s) l)) W Hr); [by apply pick_next_out|apply default_ready_in]| |done].
  intros [] s' (W' & Hn & Ho & Hp & Hrr & Hi & Hs). split; [|done]. split_and!; try done. by rewrite Hn.
Qed.

(** Repeated calls, as the timer makes them. *)
Fixpoint schedule_n (n : nat) : M (kstate A) unit :=
  match n with O => mret tt | S n' => schedule ;; schedule_n n' end.

Lemma schedule_n_step n s s' s'' : schedule s = Ok (tt, s') → schedule_n n s' = Ok (tt, s'') →
  schedule_n (S n) s = Ok (tt, s'').
Proof. intros H1 H2. simpl. by rewrite (bind_of_ok _ _ _ _ _ H1). Qed.

Lemma first_ready_split T a t b : st T t = Some TASK_READY →
  first_ready T (a ++ t :: b) = Some t ∨
  ∃ a1 x a2, a = a1 ++ x :: a2 ∧ first_ready T (a ++ t :: b) = Some x ∧ st T x = Some TASK_READY.
Proof.
  intros Ht. induction a as [|y a IH]; simpl; rewrite first_ready_cons.
  - left. by case_decide.
  - case_decide as Hy; [right; by exists [], y, a|]. destruct IH as [IH|(a1 & x & a2 & -> & IH & Hx)]; [by left|].
    right. by exists (y :: a1), x, a2.
Qed.

(** A ring seen from another of its tasks. *)
Lemma rotate_to (l1 : list Z) c l2 a1 x a2 : l2 ++ l1 = a1 ++ x :: a2 →
  ∃ l1' l2', l1 ++ c :: l2 = l1' ++ x :: l2' ∧ l2' ++ l1' = a2 ++ c :: a1.
Proof.
  intros [(k & -> & Hk)|(k & -> & ->)]%app_eq_inv.
  - destruct k as [|y k]; simpl in Hk.
    + exists [], (a2 ++ c :: a1). rewrite !app_nil_r. split; [by rewrite <- Hk|done].
    + injection Hk as <- ->. exists (l1 ++ c :: a1), k. split; [by rewrite <- app_assoc|by rewrite <- app_assoc].
  - exists k, (a2 ++ c :: l2). rewrite <- !app_assoc. done.
Qed.

(** Either the next [schedule] reaches [t], or it gets closer. *)
Lemma fair_step s l1 c l2 a t b :
  sched_wf s (l1 ++ c :: l2) → truthy (g_scheduler_running s) = true →
  g_current_task s = c → st (k_tasks s) c ≠ Some TASK_DEAD →
  l2 ++ l1 = a ++ t :: b → st (k_tasks s) t = Some TASK_READY →
  ∃ s', schedule s = Ok (tt, s') ∧ runs s s' (l1 ++ c :: l2) ∧
    ((g_current_task s' = t ∧ st (k_tasks s') t = Some TASK_RUNNING) ∨
     ∃ l1' c' l2' a' b', l1 ++ c :: l2 = l1' ++ c' :: l2' ∧ l2' ++ l1' = a' ++ t :: b' ∧
       (length a' < length a)%nat ∧ g_current_task s' = c' ∧
       st (k_tasks s') c' ≠ Some TASK_DEAD ∧ st (k_tasks s') t = Some TASK_READY).
Proof.
  intros W Hr Hc Hd Hl Ht.
  assert (NoDup (c :: l2 ++ l1)) as [Hcn Hnd]%NoDup_cons.
  { pose proof (sw_ring _ _ W) as Hring. apply (ring_rot _ l1 (c :: l2)) in Hring; [|done]. apply Hring. }
  assert (∀ y, y ∈ l2 ++ l1 → y ∈ g_idle s :: l1 ++ c :: l2 ∧ y ≠ c) as Hin.
  { intros y Hy. split; [|by intros ->].
    right. apply elem_of_app in Hy as [Hy|Hy]; apply elem_of_app; [right; by right|by left]. }
  destruct (wp_run _ _ _ (schedule_in s l1 c l2 W Hr Hc Hd)) as ([] & s1 & Hs1 & R & Hcur).
  exists s1. split; [done|]. split; [done|]. destruct R as (W1 & _ & _ & _ & _ & Hst).
  unfold policy in Hcur. rewrite Hl in Hcur, Hnd, Hin. rewrite Hc in Hst.
  destruct (Hin t) as [Hti Htc]; [apply elem_of_app; right; left|].
  destruct (first_ready_split (k_tasks s) a t b Ht) as [Hf|(a1 & x & a2 & -> & Hf & Hx)]; rewrite Hf in Hcur.
  - left. split; [done|]. rewrite Hst, Hcur by done. unfold switched. by repeat case_decide.
  - right. destruct (Hin x) as [Hxi Hxc]; [apply elem_of_app; left; apply elem_of_app; right; left|].
    rewrite <- app_assoc in Hl. destruct (rotate_to l1 c l2 a1 x (a2 ++ t :: b) Hl) as (l1' & l2' & E1 & E2).
    assert (t ≠ x) as Htx. { intros ->. apply NoDup_app in Hnd as (_ & Hnd & _). apply (Hnd x); [apply elem_of_app; right; left|left]. }
    exists l1', x, l2', a2, (b ++ c :: a1). rewrite E2, <- app_assoc.
    split; [done|]. split; [done|]. split; [rewrite length_app; simpl; lia|]. split; [done|].
    rewrite !Hst, Hcur by done. unfold switched. split; [by repeat case_decide|].
    repeat case_decide; intuition congruence.
Qed.

Lemma fair_from n s l1 c l2 a t b :
  (length a ≤ n)%nat → sched_wf s (l1 ++ c :: l2) → truthy (g_scheduler_running s) = true →
  g_current_task s = c → st (k_tasks s) c ≠ Some TASK_DEAD →
  l2 ++ l1 = a ++ t :: b → st (k_tasks s) t = Some TASK_READY →
  ∃ k s', (k ≤ S n)%nat ∧ schedule_n k s = Ok (tt, s') ∧ g_current_task s' = t ∧
    st (k_tasks s') t = Some TASK_RUNNING ∧ sched_wf s' (l1 ++ c :: l2).
Proof.
  revert s l1 c l2 a b. induction n as [|n IH]; intros s l1 c l2 a b Hlen W Hr Hc Hd Hl Ht;
    destruct (fair_step s l1 c l2 a t b W Hr Hc Hd Hl Ht)
      as (s1 & Hs1 & (W1 & _ & _ & Hrr & _) & [[Hcur Hrun]|(l1' & c' & l2' & a' & b' & E & El & Hlt & Hc' & Hd' & Ht')]);
    [|lia| |].
  1,2: by exists 1%nat, s1; split_and!; [lia|apply (schedule_n_step 0 s s1)|..].
  rewrite E in W1. rewrite <- Hrr in Hr.
  destruct (IH s1 l1' c' l2' a' b' ltac:(lia) W1 Hr Hc' Hd' El Ht') as (k & s' & Hk & Hn & Hres).
  rewrite E. exists (S k), s'. split; [lia|]. split; [by eapply schedule_n_step|done].
Qed.
End switching.

(** ** Adding and removing tasks *)

Section linking.
Context {A : Type}.
Implicit Types s : kstate A.

Lemma head_last_ring T h l : ring T (h :: l) → ∃ th, T !! h = Some th ∧ t_prev th = default h (last (h :: l)).
Proof. intros [_ [(th & Hh & Hp & _) _]]. by exists th. Qed.

Lemma dll_frame T T' pv l nx : (∀ x, x ∈ l → T' !! x = T !! x) → dll T pv l nx → dll T' pv l nx.
Proof.
  intros Hf. apply dll_same. intros x tk Hx Ht. exists tk. by rewrite Hf.
Qed.

(** Redirecting the last task of a stretch. *)
Lemma dll_set_next T pv l y ty nx nx' : dll T pv (l ++ [y]) nx → y ∉ l → T !! y = Some ty →
  dll (<[y := set_t_next nx' ty]> T) pv (l ++ [y]) nx'.
Proof.
  intros [Hl Hy]%dll_app Hn Ht. apply dll_app. split.
  - eapply dll_frame; [|exact Hl]. intros x Hx. rewrite lookup_insert_ne; [done|]. by intros ->.
  - simpl in *. split; [|done]. destruct Hy as [(tk & Hk & Hp & _) _]. eexists. rewrite lookup_insert_eq.
    split; [done|]. simpl. split; [|done]. congruence.
Qed.

Lemma dll_set_prev T pv x l tx nx pv' : dll T pv (x :: l) nx → x ∉ l → T !! x = Some tx →
  dll (<[x := set_t_prev pv' tx]> T) pv' (x :: l) nx.
Proof.
  intros [(tk & Hk & _ & Hn) Hl] Hx Ht. split.
  - eexists. rewrite lookup_insert_eq. split; [done|]. simpl. split; [done|]. congruence.
  - eapply dll_frame; [|exact Hl]. intros y Hy. rewrite lookup_insert_ne; [done|]. by intros ->.
Qed.

Lemma wr_task_ok s p t f : k_tasks s !! p = Some t →
  wr_task p f s = Ok (tt, set_k_tasks (<[p := f t]> (k_tasks s)) s).
Proof. intros Hp. unfold wr_task, upd_ptr. by rewrite Hp. Qed.

(** [scheduler_add] appends at the end of the ring. *)
Lemma scheduler_add_ok s h l t tk :
  ring (k_tasks s) (h :: l) → g_task_list s = h → h ≠ 0 → t ∉ h :: l → k_tasks s !! t = Some tk →
  wp (scheduler_add t) (λ _ s', ∃ T', s' = set_k_tasks T' s ∧ ring T' (h :: l ++ [t]) ∧
    (∀ x, st T' x = st (k_tasks s) x) ∧ ∀ x, x ∉ t :: h :: l → T' !! x = k_tasks s !! x) never s.
Proof.
  intros Hr Hh Hh0 Ht Htk. destruct (head_last_ring _ _ _ Hr) as (th & Hth & Hpv).
  destruct (exists_last (l := h :: l) ltac:(done)) as (l0 & y & Hl). rewrite Hl, last_snoc in Hpv. simpl in Hpv.
  assert (y ∈ h :: l) as Hy by (rewrite Hl; apply elem_of_app; right; left).
  assert (t ≠ h ∧ t ≠ y) as [Hth' Hty] by (split; intros ->; apply Ht; [left|done]).
  destruct (ring_lookup _ _ y Hr Hy) as [ty Hty'].
  destruct Hr as [Hnd Hd]. rewrite Hl, last_snoc in Hd. cbn [default] in Hd. rewrite Hl in Hnd.
  apply NoDup_app in Hnd as (Hnd0 & Hny & _).
  unfold scheduler_add. wp_steps. rewrite Hh. destruct (Z.eqb_spec h 0); [done|].
  apply wp_bind, (rd_task_wp _ _ th); [done|]. rewrite Hpv.
  apply wp_bind, (wr_task_wp _ _ tk); [done|]. cbn [k_tasks set_k_tasks].
  apply wp_bind, (wr_task_wp _ _ (set_t_prev y tk)); [apply lookup_insert_eq|]. cbn [k_tasks set_k_tasks].
  rewrite insert_insert_eq. set (T1 := <[t := set_t_next h (set_t_prev y tk)]> (k_tasks s)).
  assert (∀ x, x ≠ t → T1 !! x = k_tasks s !! x) as HT1 by (intros x Hx; unfold T1; by rewrite lookup_insert_ne).
  apply wp_bind, (rd_task_wp _ _ th); [cbn; by rewrite HT1|]. rewrite Hpv.
  apply wp_bind, (wr_task_wp _ _ ty); [cbn; by rewrite HT1|]. cbn [k_tasks set_k_tasks].
  assert (dll (<[y := set_t_next t ty]> T1) y (l0 ++ [y]) t) as Hd1.
  { apply (dll_set_next _ _ _ _ _ h); [|intros Hy0; apply (Hny y Hy0); left|by rewrite HT1].
    eapply dll_frame; [|exact Hd]. intros x Hx. rewrite <- Hl in Hx. apply HT1. by intros ->. }
  assert (∃ th', <[y := set_t_next t ty]> T1 !! h = Some th' ∧ t_state th' = t_state th) as (th' & Hth1 & Hst').
  { destruct (decide (h = y)) as [->|]; [rewrite lookup_insert_eq; eexists; split; [done|]; simpl; congruence|].
    rewrite lookup_insert_ne by done. exists th. by rewrite HT1. }
  apply (wr_task_wp _ _ th'); [done|]. cbn [k_tasks set_k_tasks].
  set (T2 := <[h := set_t_prev t th']> (<[y := set_t_next t ty]> T1)).
  exists T2. split; [done|]. rewrite <- Hl in Hd1. split_and!.
  - split; [|].
    + change (NoDup ((h :: l) ++ [t])). rewrite Hl. apply NoDup_app. split; [|split; [|apply NoDup_singleton]].
      * apply NoDup_app. split; [done|]. split; [done|apply NoDup_singleton].
      * intros x Hx ->%list_elem_of_singleton. apply Ht. by rewrite Hl.
    + change (h :: l ++ [t]) with ((h :: l) ++ [t]). rewrite last_snoc. cbn [default]. apply dll_app.
      assert (h ∉ l) as Hhl.
      { intros Hin. assert (NoDup (h :: l)) as Hnd by (rewrite Hl; apply NoDup_app; split; [done|]; split; [done|apply NoDup_singleton]).
        by apply NoDup_cons in Hnd as [? _]. }
      split; [by apply (dll_set_prev _ y)|]. rewrite Hl, last_snoc. simpl. split; [|done].
      eexists. unfold T2. rewrite !lookup_insert_ne by done. unfold T1. rewrite lookup_insert_eq. done.
  - intros x. unfold T2, st. destruct (decide (x = h)) as [->|].
    { rewrite lookup_insert_eq, Hth. simpl. by rewrite Hst'. }
    rewrite lookup_insert_ne by done. destruct (decide (x = y)) as [->|]; [by rewrite lookup_insert_eq, Hty'|].
    rewrite lookup_insert_ne by done. unfold T1. destruct (decide (x = t)) as [->|]; [by rewrite lookup_insert_eq, Htk|].
    by rewrite lookup_insert_ne.
  - intros x Hx. apply not_elem_of_cons in Hx as [Hxt Hx]. unfold T2. rewrite !lookup_insert_ne; [by apply HT1|..].
    + by intros ->.
    + intros ->. apply Hx. left.
Qed.

(** [scheduler_remove] unlinks a task; what is left is a ring without it. *)
(** The tables differ only in the links. *)
Definition unlink (tk : task) : task := set_t_next 0 (set_t_prev 0 tk).
Definition relinked (T T' : gmap Z task) : Prop := ∀ x, unlink <$> T' !! x = unlink <$> T !! x.

Lemma relinked_refl T : relinked T T.
Proof. done. Qed.
Lemma relinked_insert T T' x tk tk' : T' !! x = Some tk → unlink tk' = unlink tk → relinked T T' →
  relinked T (<[x := tk']> T').
Proof.
  intros Hx E Hr y. rewrite <- Hr. destruct (decide (x = y)) as [<-|].
  - rewrite lookup_insert_eq, Hx. simpl. by rewrite E.
  - by rewrite lookup_insert_ne.
Qed.

Lemma scheduler_remove_ok s t l :
  ring (k_tasks s) (t :: l) → l ≠ [] →
  wp (scheduler_remove t) (λ _ s', ∃ T', s' = set_k_tasks T' s ∧ ring T' l ∧
    (∀ x, st T' x = st (k_tasks s) x) ∧ T' !! t = k_tasks s !! t ∧ relinked (k_tasks s) T') never s.
Proof.
  intros [Hnd Hd] Hl. apply NoDup_cons in Hnd as [Htl Hnd].
  destruct (exists_last Hl) as (l0 & y & El). destruct l as [|x l']; [done|].
  pose proof Hd as [(tk & Ht & Hp & Hn) Hd']. simpl in Hn.
  rewrite last_cons in Hp. rewrite El, last_snoc in Hp. simpl in Hp.
  assert (y ∈ x :: l') as Hy by (rewrite El; apply elem_of_app; right; left).
  destruct (dll_lookup _ _ _ _ _ Hd' Hy) as [ty Hty].
  assert (t ≠ y ∧ t ≠ x) as [Hty' Htx] by (split; intros ->; apply Htl; [done|left]).
  unfold scheduler_remove. apply wp_bind, (rd_task_wp _ _ tk); [done|]. rewrite Hp, Hn.
  apply wp_bind, (wr_task_wp _ _ ty); [done|]. cbn [k_tasks set_k_tasks].
  set (T1 := <[y := set_t_next x ty]> (k_tasks s)).
  assert (dll T1 t (x :: l') x) as Hd1.
  { rewrite El. apply (dll_set_next _ _ _ _ _ t); [by rewrite <- El| |done]. rewrite El in Hnd.
    apply NoDup_app in Hnd as (_ & Hny & _). intros Hin. apply (Hny y Hin). left. }
  apply wp_bind, (rd_task_wp _ _ tk); [cbn; unfold T1; by rewrite lookup_insert_ne|]. rewrite Hp, Hn.
  pose proof Hd1 as [(tx & Htx1 & _) _].
  apply (wr_task_wp _ _ tx); [done|]. cbn [k_tasks set_k_tasks]. eexists. split; [reflexivity|]. split_and!.
  - split; [done|]. replace (default x (last (x :: l'))) with y by (by rewrite El, last_snoc). apply NoDup_cons in Hnd as [Hx _].
    by apply (dll_set_prev _ t).
  - intros z. unfold st. destruct (decide (z = x)) as [->|].
    + rewrite lookup_insert_eq. simpl. unfold T1 in Htx1. destruct (decide (y = x)) as [->|].
      * rewrite lookup_insert_eq in Htx1. injection Htx1 as <-. by rewrite Hty.
      * rewrite lookup_insert_ne in Htx1 by done. by rewrite Htx1.
    + rewrite lookup_insert_ne by done. unfold T1. destruct (decide (z = y)) as [->|]; [by rewrite lookup_insert_eq, Hty|].
      by rewrite lookup_insert_ne.
  - unfold T1. by rewrite !lookup_insert_ne.
  - apply (relinked_insert _ _ _ tx); [done|done|]. apply (relinked_insert _ _ _ ty); [done|done|apply relinked_refl].
Qed.
End linking.

(** ** The sleep queue *)

Section sleeping.
Context {A : Type}.
Implicit Types s : kstate A.

(** The entries in use, in array order. *)
Definition sleepers s : list (Z * Z) := take (Z.to_nat (g_sleep_queue_len s)) (g_sleep_queue s).

Definition by_tick (e e' : Z * Z) : Prop := e.2 ≤ e'.2.

Record sleep_wf s : Prop := {
  sl_cap : Z.of_nat (length (g_sleep_queue s)) = SLEEP_QUEUE_MAX;
  sl_len : 0 ≤ g_sleep_queue_len s ≤ SLEEP_QUEUE_MAX;
  sl_sorted : StronglySorted by_tick (sleepers s)
}.

Lemma sq_read_ok s i e : 0 ≤ i → g_sleep_queue s !! Z.to_nat i = Some e → sq_read i s = Ok (e, s).
Proof. intros Hi He. unfold sq_read. destruct (Z.ltb_spec i 0); [lia|]. by rewrite He. Qed.

Lemma sq_write_ok s (l1 : list (Z * Z)) x l2 e : g_sleep_queue s = l1 ++ x :: l2 →
  sq_write (Z.of_nat (length l1)) e s = Ok (tt, set_g_sleep_queue (l1 ++ e :: l2) s).
Proof.
  intros Hq. unfold sq_write. rewrite Hq, length_app. cbn [length].
  destruct (Z.leb_spec 0 (Z.of_nat (length l1))); [|lia].
  destruct (Z.ltb_spec (Z.of_nat (length l1)) (Z.of_nat (length l1 + S (length l2)))); [|lia]. cbn [andb].
  by rewrite Nat2Z.id, insert_mid.
Qed.

Lemma sift_ok w a s x rest : g_sleep_queue s = a ++ x :: rest →
  ∃ a1 a2 x', a = a1 ++ a2 ∧ Forall (λ e, w < e.2) a2 ∧ (∀ e, last a1 = Some e → e.2 ≤ w) ∧
    sift (length a) (Z.of_nat (length a)) w s
    = Ok (Z.of_nat (length a1), set_g_sleep_queue (a1 ++ x' :: a2 ++ rest) s).
Proof.
  revert s x rest. induction a as [|e a IH] using rev_ind; intros s x rest Hq.
  - exists [], [], x. split_and!; [done|constructor|done|]. simpl in *. rewrite <- Hq. by destruct s.
  - rewrite length_app, Nat.add_comm. cbn [length Nat.add sift].
    destruct (Z.ltb_spec 0 (Z.of_nat (S (length a)))); [|lia].
    rewrite <- app_assoc in Hq. simpl in Hq.
    assert (sq_read (Z.of_nat (S (length a)) - 1) s = Ok (e, s)) as Hrd.
    { apply sq_read_ok; [lia|]. rewrite Hq. replace (Z.to_nat _) with (length a) by lia. apply lookup_mid. }
    rewrite (bind_of_ok _ _ _ _ _ Hrd). destruct (Z.ltb_spec w e.2) as [Hlt|Hge].
    + assert (sq_write (Z.of_nat (S (length a))) e s = Ok (tt, set_g_sleep_queue (a ++ e :: e :: rest) s)) as Hwr.
      { replace (S (length a)) with (length (a ++ [e])) by (rewrite length_app; simpl; lia).
        rewrite (sq_write_ok s (a ++ [e]) x rest e); [by rewrite <- app_assoc|by rewrite <- app_assoc]. }
      rewrite (bind_of_ok _ _ _ _ _ Hwr).
      destruct (IH (set_g_sleep_queue (a ++ e :: e :: rest) s) e (e :: rest) eq_refl) as (a1 & a2 & x' & -> & Hf & Hl & Hs).
      exists a1, (a2 ++ [e]), x'. rewrite app_assoc. split_and!; [done|by apply Forall_app; split; [|repeat constructor]|done|].
      replace (Z.of_nat (S (length (a1 ++ a2))) - 1) with (Z.of_nat (length (a1 ++ a2))) by lia.
      rewrite Hs. by rewrite <- (app_assoc a2 [e] rest).
    + exists (a ++ [e]), [], x. rewrite app_nil_r, length_app. split_and!; [done|constructor|by rewrite last_snoc; intros ? [= <-]|].
      unfold mret, M_ret. do 2 f_equal; [simpl; lia|]. destruct s; simpl in *. rewrite Hq. by rewrite <- app_assoc.
Qed.

Lemma sorted_app_inv (l1 l2 : list (Z * Z)) : StronglySorted by_tick (l1 ++ l2) →
  StronglySorted by_tick l1 ∧ StronglySorted by_tick l2 ∧ ∀ x y, x ∈ l1 → y ∈ l2 → by_tick x y.
Proof.
  induction l1 as [|x l1 IH]; simpl; intros Hs; [split_and!; [constructor|done|by intros ? ? ?%elem_of_nil]|].
  apply StronglySorted_inv in Hs as [Hs Hf]. destruct (IH Hs) as (H1 & H2 & H3).
  apply Forall_app in Hf as [Hf1 Hf2]. rewrite Forall_forall in Hf2. split_and!; [by constructor|done|].
  intros z y [->|Hz]%elem_of_cons Hy; [by apply Hf2|by apply H3].
Qed.

Lemma sorted_app (l1 l2 : list (Z * Z)) : StronglySorted by_tick l1 → StronglySorted by_tick l2 →
  (∀ x y, x ∈ l1 → y ∈ l2 → by_tick x y) → StronglySorted by_tick (l1 ++ l2).
Proof.
  induction l1 as [|x l1 IH]; simpl; intros H1 H2 H3; [done|]. apply StronglySorted_inv in H1 as [H1 Hf].
  constructor; [apply IH; [done..|]; intros; apply H3; [by right|done]|].
  apply Forall_app. split; [done|]. apply Forall_forall. intros y Hy. apply H3; [left|done].
Qed.

(** Every entry of a sorted list is at most its last. *)
Lemma sorted_last (l : list (Z * Z)) w e : StronglySorted by_tick l → e ∈ l →
  (∀ z, last l = Some z → z.2 ≤ w) → e.2 ≤ w.
Proof.
  destruct l as [|z l _] using rev_ind; [by intros _ ?%elem_of_nil|].
  intros (_ & _ & Hs)%sorted_app_inv He Hl. specialize (Hl z ltac:(by rewrite last_snoc)).
  apply elem_of_app in He as [He|He%list_elem_of_singleton]; [|by subst].
  specialize (Hs e z He ltac:(by apply list_elem_of_singleton)). unfold by_tick in Hs. lia.
Qed.

Lemma enqueue_ok s t w : sleep_wf s → g_sleep_queue_len s < SLEEP_QUEUE_MAX →
  ∃ s' q1 q2, sleep_queue_enqueue t w s = Ok (true, s') ∧ k_tasks s' = k_tasks s ∧ sleep_wf s' ∧
    sleepers s = q1 ++ q2 ∧ Forall (λ e, e.2 ≤ w) q1 ∧ Forall (λ e, w < e.2) q2 ∧
    sleepers s' = q1 ++ (t, w) :: q2.
Proof.
  intros [Hc Hl Hs] Hlt. unfold SLEEP_QUEUE_MAX in *. set (n := Z.to_nat (g_sleep_queue_len s)).
  destruct (drop n (g_sleep_queue s)) as [|x rest] eqn:Ed.
  { apply (f_equal length) in Ed. rewrite length_drop in Ed. simpl in Ed. lia. }
  assert (g_sleep_queue s = sleepers s ++ x :: rest) as Hq by (rewrite <- Ed; unfold sleepers; by rewrite take_drop).
  assert (length (sleepers s) = n) as Hn by (unfold sleepers; rewrite length_take; lia).
  set (s1 := set_g_sleep_queue_len (g_sleep_queue_len s + 1) s).
  destruct (sift_ok w (sleepers s) s1 x rest Hq) as (q1 & q2 & x' & E & H2 & H1 & Hsift).
  rewrite E in Hs. destruct (sorted_app_inv _ _ Hs) as (S1 & S2 & S12).
  assert (Forall (λ e, e.2 ≤ w) q1) as Hq1.
  { apply Forall_forall. intros e He. by apply (sorted_last q1). }
  set (s2 := set_g_sleep_queue (q1 ++ x' :: q2 ++ rest) s1) in *.
  set (s3 := set_g_sleep_queue (q1 ++ (t, w) :: q2 ++ rest) s2).
  assert (sleepers s3 = q1 ++ (t, w) :: q2) as Hs3.
  { unfold sleepers. cbn [g_sleep_queue g_sleep_queue_len s3 s2 s1 set_g_sleep_queue set_g_sleep_queue_len].
    replace (q1 ++ (t, w) :: q2 ++ rest) with ((q1 ++ (t, w) :: q2) ++ rest) by (by rewrite <- app_assoc).
    apply take_app_length'. rewrite E, length_app in Hn. rewrite length_app. simpl. lia. }
  exists s3, q1, q2. split_and!; try done.
  - unfold sleep_queue_enqueue, SLEEP_QUEUE_MAX. unfold mbind at 1, M_bind at 1, gets.
    destruct (Z.leb_spec 256 (g_sleep_queue_len s)); [lia|]. unfold mbind at 1, M_bind at 1, modify.
    assert (sift (Z.to_nat (g_sleep_queue_len s)) (g_sleep_queue_len s) w s1 = Ok (Z.of_nat (length q1), s2)) as Hsift'.
    { rewrite <- Hsift. (do 2 f_equal); lia. }
    rewrite (bind_of_ok _ _ _ _ _ Hsift'). by rewrite (bind_of_ok _ _ _ _ _ (sq_write_ok s2 q1 x' (q2 ++ rest) (t, w) eq_refl)).
  - split; [| |rewrite Hs3].
    + unfold SLEEP_QUEUE_MAX. simpl. rewrite Hq, E, !length_app in Hc. simpl in Hc. rewrite length_app. simpl. rewrite length_app. lia.
    + unfold SLEEP_QUEUE_MAX. simpl. lia.
    + apply sorted_app; [done| |].
      * constructor; [done|]. apply Forall_forall. rewrite Forall_forall in H2. intros e He. specialize (H2 e He). unfold by_tick. simpl. lia.
      * rewrite Forall_forall in Hq1. intros a b Ha [->|Hb]%elem_of_cons; [by apply Hq1|by apply S12].
Qed.

(** Waking: the effect on the tasks. *)
Definition wake_one (T : gmap Z task) (x : Z) : gmap Z task :=
  match T !! x with
  | Some tk => if decide (t_state tk = TASK_BLOCKED) then <[x := set_t_state TASK_READY tk]> T else T
  | None => T
  end.

Definition woken (T : gmap Z task) (xs : list Z) (y : Z) : option task_state :=
  if decide (y ∈ xs ∧ st T y = Some TASK_BLOCKED) then Some TASK_READY else st T y.

Lemma st_wake_one T x y : st (wake_one T x) y = woken T [x] y.
Proof.
  unfold wake_one, woken. destruct (T !! x) as [tk|] eqn:E.
  - pose proof (st_at _ _ _ E) as Hs. case_decide.
    + rewrite st_insert by done. repeat case_decide; try done; try congruence.
      * subst. exfalso. apply H1. split; [left|congruence].
      * destruct H1 as [?%list_elem_of_singleton _]. congruence.
    + case_decide as Hd; [|done]. destruct Hd as [->%list_elem_of_singleton ?]. congruence.
  - case_decide as Hd; [|done]. destruct Hd as [->%list_elem_of_singleton Hb]. unfold st in Hb. by rewrite E in Hb.
Qed.

Lemma wake_one_dom T x y : is_Some (wake_one T x !! y) ↔ is_Some (T !! y).
Proof.
  unfold wake_one. destruct (T !! x) as [tk|] eqn:E; [|done]. case_decide; [|done].
  rewrite lookup_insert_is_Some. destruct (decide (x = y)) as [->|].
  - rewrite E. split; [intros _; by eexists|by left].
  - split; [by intros [?|[_ ?]]|by right].
Qed.

Lemma task_set_ready_ok s x : is_Some (k_tasks s !! x) →
  task_set_ready x s = Ok (tt, set_k_tasks (wake_one (k_tasks s) x) s).
Proof.
  intros [tk Hx]. unfold task_set_ready, wake_one. rewrite (bind_of_ok _ _ _ _ _ (rd_task_ok _ _ _ Hx)), Hx.
  case_decide; [by rewrite (wr_task_ok _ _ _ _ Hx)|by destruct s].
Qed.

Lemma woken_cons T x xs y : woken (wake_one T x) xs y = woken T (x :: xs) y.
Proof.
  unfold woken at 1 2. rewrite st_wake_one. unfold woken.
  destruct (decide (y = x)) as [->|Hne].
  - repeat case_decide; rewrite ?list_elem_of_singleton, ?elem_of_cons in *; try done; intuition congruence.
  - repeat case_decide; rewrite ?list_elem_of_singleton, ?elem_of_cons in *; try done; intuition congruence.
Qed.

Fixpoint due (tick : Z) (l : list (Z * Z)) : list (Z * Z) :=
  match l with [] => [] | e :: l' => if e.2 <=? tick then e :: due tick l' else [] end.

Lemma due_split tick l : StronglySorted by_tick l →
  ∃ q, l = due tick l ++ q ∧ Forall (λ e, e.2 ≤ tick) (due tick l) ∧ Forall (λ e, tick < e.2) q.
Proof.
  induction l as [|e l IH]; simpl; intros Hs; [by exists []|]. apply StronglySorted_inv in Hs as [Hs Hf].
  destruct (IH Hs) as (q & El & H1 & H2). destruct (Z.leb_spec e.2 tick).
  - exists q. simpl. rewrite <- El. split_and!; [done|by constructor|done].
  - exists (e :: l). split_and!; [done|constructor|]. constructor; [done|].
    eapply Forall_impl; [exact Hf|]. unfold by_tick. intros e' He'. simpl in He'. lia.
Qed.

Lemma wake_loop_ok tick todo s done rest :
  g_sleep_queue s = done ++ todo ++ rest → g_sleep_queue_len s = Z.of_nat (length (done ++ todo)) →
  Forall (λ e, is_Some (k_tasks s !! e.1)) todo →
  ∃ T', wake_loop (length todo) (Z.of_nat (length done)) tick s
        = Ok (Z.of_nat (length done + length (due tick todo)), set_k_tasks T' s) ∧
    ∀ y, st T' y = woken (k_tasks s) (fst <$> due tick todo) y.
Proof.
  revert s done. induction todo as [|e todo IH]; intros s done Hq Hl Hf; simpl.
  - exists (k_tasks s). rewrite Nat.add_0_r. split; [by destruct s|]. intros y. unfold woken.
    case_decide as Hd; [|done]. by destruct Hd as [?%elem_of_nil _].
  - unfold mbind at 1, M_bind at 1, gets. rewrite Hl. apply Forall_cons in Hf as [He Hf].
    destruct (Z.ltb_spec (Z.of_nat (length done)) (Z.of_nat (length (done ++ e :: todo)))) as [_|Hx];
      [|rewrite length_app in Hx; simpl in Hx; lia].
    assert (sq_read (Z.of_nat (length done)) s = Ok (e, s)) as Hrd.
    { apply sq_read_ok; [lia|]. rewrite Nat2Z.id, Hq. apply lookup_mid. }
    rewrite (bind_of_ok _ _ _ _ _ Hrd). destruct (e.2 <=? tick); simpl.
    + rewrite (bind_of_ok _ _ _ _ _ (task_set_ready_ok s e.1 He)).
      destruct (IH (set_k_tasks (wake_one (k_tasks s) e.1) s) (done ++ [e])) as (T' & Hw & Hs').
      { simpl. rewrite Hq. by rewrite <- app_assoc. }
      { simpl. rewrite Hl. by rewrite <- app_assoc. }
      { eapply Forall_impl; [exact Hf|]. intros e' He'. by apply wake_one_dom. }
      exists T'. rewrite length_app in Hw. simpl in Hw.
      replace (Z.of_nat (length done) + 1) with (Z.of_nat (length done + 1)) by lia. rewrite Hw. split.
      * do 2 f_equal. lia.
      * intros y. rewrite Hs'. apply woken_cons.
    + exists (k_tasks s). rewrite Nat.add_0_r. split; [by destruct s|]. intros y. unfold woken.
      case_decide as Hd; [|done]. by destruct Hd as [?%elem_of_nil _].
Qed.

(** The copy loop moves the remaining entries to the front. *)
Lemma compact_ok s (q1 q2 rest : list (Z * Z)) : q1 ≠ [] → g_sleep_queue s = q1 ++ q2 ++ rest →
  wp (for_range (length q2) 0 (λ j, e ← sq_read (Z.of_nat (length q1) + j); sq_write j e))
     (λ _ s', ∃ tail, s' = set_g_sleep_queue (q2 ++ tail) s ∧ length (q2 ++ tail) = length (g_sleep_queue s)) never s.
Proof.
  intros Hne Hq. eapply wp_mono; [apply (for_range_inv (λ k t, 0 ≤ k ∧
    t = set_g_sleep_queue (take (Z.to_nat k) q2 ++ drop (Z.to_nat k) (g_sleep_queue s)) s))| |done].
  - split; [lia|]. simpl. by destruct s.
  - intros k t Hk [_ ->]. set (n := Z.to_nat k). simpl in Hk.
    assert (n < length q2)%nat as Hn by lia. destruct (lookup_lt_is_Some_2 q2 n Hn) as [e He].
    assert (0 < length q1)%nat as H1 by (destruct q1; [done|simpl; lia]).
    destruct (drop n (g_sleep_queue s)) as [|y d] eqn:Ed.
    { apply (f_equal length) in Ed. rewrite length_drop, Hq, !length_app in Ed. simpl in Ed. lia. }
    assert (drop (S n) (g_sleep_queue s) = d) as Ed'.
    { change (S n) with (1 + n)%nat. rewrite Nat.add_comm, <- drop_drop, Ed. done. }
    apply wp_bind. eapply wp_ok.
    { apply sq_read_ok; [lia|]. cbn [g_sleep_queue set_g_sleep_queue]. rewrite <- Ed.
      rewrite lookup_app_r by (rewrite length_take; lia). rewrite length_take, lookup_drop.
      replace (n + _)%nat with (length q1 + n)%nat by lia.
      rewrite Hq, lookup_app_r by lia. replace (length q1 + n - length q1)%nat with n by lia.
      rewrite lookup_app_l by done. exact He. }
    eapply wp_ok.
    { replace k with (Z.of_nat (length (take n q2))) by (rewrite length_take; lia). by apply sq_write_ok with (x := y) (l2 := d). }
    split; [lia|]. replace (Z.to_nat (k + 1)) with (S n) by lia. rewrite Ed', (take_S_r _ _ _ He), <- app_assoc. done.
  - intros [] s' [_ ->]. replace (Z.to_nat (0 + Z.of_nat (length q2))) with (length q2) by lia.
    rewrite firstn_all. exists (drop (length q2) (g_sleep_queue s)). split; [done|].
    rewrite length_app, length_drop, Hq, !length_app. lia.
Qed.

Lemma wake_ok s tick : sleep_wf s → Forall (λ e, is_Some (k_tasks s !! e.1)) (sleepers s) →
  wp (sleep_queue_wake tick) (λ _ s', sleep_wf s' ∧ ∃ q1 q2, sleepers s = q1 ++ q2 ∧
    Forall (λ e, e.2 ≤ tick) q1 ∧ Forall (λ e, tick < e.2) q2 ∧ sleepers s' = q2 ∧
    ∀ y, st (k_tasks s') y = woken (k_tasks s) (fst <$> q1) y) never s.
Proof.
  intros [Hc Hl Hs] Hf. destruct (due_split tick (sleepers s) Hs) as (q2 & E & H1 & H2).
  set (q1 := due tick (sleepers s)) in *. set (rest := drop (Z.to_nat (g_sleep_queue_len s)) (g_sleep_queue s)).
  assert (g_sleep_queue s = sleepers s ++ rest) as Hq by (unfold sleepers, rest; by rewrite take_drop).
  unfold SLEEP_QUEUE_MAX in *.
  assert (g_sleep_queue_len s = Z.of_nat (length (sleepers s))) as Hlen by (unfold sleepers; rewrite length_take; lia).
  destruct (wake_loop_ok tick (sleepers s) s [] rest Hq Hlen Hf) as (T' & Hw & Hst). fold q1 in Hw, Hst. simpl in Hw.
  unfold sleep_queue_wake. wp_steps. replace (Z.to_nat (g_sleep_queue_len s)) with (length (sleepers s)) by lia.
  eapply wp_ok; [exact Hw|]. rewrite E in Hs, Hlen. rewrite E, <- app_assoc in Hq. rewrite length_app in Hlen.
  destruct (sorted_app_inv _ _ Hs) as (_ & S2 & _).
  destruct (Z.ltb_spec 0 (Z.of_nat (length q1))) as [Hpos|Hz]; cbn [when].
  - wp_steps. cbn [g_sleep_queue_len set_k_tasks]. rewrite Hlen.
    replace (Z.to_nat (Z.of_nat (length q1 + length q2) - Z.of_nat (length q1))) with (length q2) by lia.
    eapply wp_mono; [eapply (compact_ok _ q1 q2 rest)| |done]; [by destruct q1|exact Hq|].
    intros [] s' (tail & -> & Hlt).
    assert (sleepers (set_g_sleep_queue (q2 ++ tail) (set_g_sleep_queue_len
      (Z.of_nat (length q1 + length q2) - Z.of_nat (length q1)) (set_k_tasks T' s))) = q2) as Hsl.
    { unfold sleepers. cbn. apply take_app_length'. lia. }
    split; [split|]; [unfold SLEEP_QUEUE_MAX; cbn in *; lia|unfold SLEEP_QUEUE_MAX; cbn; lia|by rewrite Hsl|].
    exists q1, q2. rewrite Hsl. split_and!; try done.
  - apply wp_ret. assert (q1 = []) as E1 by (destruct q1; [done|simpl in Hz; lia]). rewrite E1 in *. simpl in *.
    change (sleepers (set_k_tasks T' s)) with (sleepers s). split; [split|].
    + exact Hc.
    + exact Hl.
    + rewrite <- E in Hs. exact Hs.
    + exists [], q2. rewrite E. split_and!; try done.
Qed.
End sleeping.

(** ** Creating tasks *)

Section creating.
Context {A : Type} {AL : Alloc A} {LL : AllocLaws A}.
Implicit Types s : kstate A.

(** The seven words [context_switch] pops from a fresh stack. *)
Definition fresh_frame (m : gmap Z Z) (sp boot : Z) : Prop :=
  m !! sp = Some 0 ∧ m !! (sp + 8) = Some 0 ∧ m !! (sp + 16) = Some 0 ∧ m !! (sp + 24) = Some 0 ∧
  m !! (sp + 32) = Some 0 ∧ m !! (sp + 40) = Some 0 ∧ m !! (sp + 48) = Some boot.

Lemma align16_id z : 0 ≤ z < 2 ^ 64 → z mod 16 = 0 → align16 z = z.
Proof.
  intros Hz Hm. unfold align16. change (2 ^ 64 - 16) with (Z.shiftl (Z.ones 60) 4).
  replace z with (Z.shiftl (Z.shiftr z 4) 4) at 1 by (rewrite Z.shiftl_mul_pow2, Z.shiftr_div_pow2 by lia; dlia).
  rewrite <- Z.shiftl_land, Z.land_ones, Z.shiftr_div_pow2 by lia.
  rewrite Z.mod_small by (split; [apply Z.div_pos; lia|apply Z.div_lt_upper_bound; lia]).
  rewrite Z.shiftl_mul_pow2 by lia. dlia.
Qed.

Lemma zero_stack_ok s stack n : wp (for_range n 0 (λ i, stack_store (stack + 8 * i) 0))
  (λ _ s', ∃ m, s' = set_k_stack m s) never s.
Proof.
  eapply wp_mono; [apply (for_range_inv (λ _ t, ∃ m, t = set_k_stack m s))| |done].
  - exists (k_stack s). by destruct s.
  - intros i t _ [m ->]. unfold stack_store. wp_steps. by eexists.
  - by intros [] s' ?.
Qed.

Lemma task_create_ok boot s L entry args : al_live (k_alloc s) L →
  wp (task_create boot entry args) (λ t s', ∃ stack w w2 m,
    0 < t ∧ L !! t = None ∧ fresh_frame m (stack + 4096 - 56) boot ∧ stack mod 16 = 0 ∧
    al_live (k_alloc s') (<[stack := w2]> (<[t := w]> L)) ∧
    ∃ a, s' = set_k_tasks (<[t := mkTask (s_next_id s) 0 TASK_READY 0 0 entry args (stack + 4096 - 56) 0 stack 4096
                                      0 0 0 0 0 0]> (k_tasks s))
         (set_s_next_id (u32 (s_next_id s + 1)) (set_k_stack m (set_k_alloc a s)))) (λ _, True) s.
Proof.
  intros Hl. unfold task_create. destruct s. cbn [k_alloc] in Hl. apply wp_bind, wp_zoom.
  eapply wp_mono; [apply (al_malloc_ok _ _ sizeof_task Hl); unfold sizeof_task; lia| |done].
  intros t a1 (w & Hw & Ht & _ & _ & Hfresh & Hl1). destruct (Z.eqb_spec t 0); [lia|]. wp_steps.
  apply wp_zoom. eapply wp_mono; [apply (al_malloc_ok _ _ 4096 Hl1); lia| |done].
  intros stack a2 (w2 & Hw2 & Hs0 & Hs1 & Hs16 & Hf2 & Hl2). destruct (Z.eqb_spec stack 0); [lia|].
  apply wp_bind. eapply wp_mono; [apply zero_stack_ok| |done]. intros [] s1 [m0 ->]. wp_steps.
  repeat (eapply wr_task_wp; [apply lookup_insert_eq|]; kflat;
    rewrite insert_insert_eq; wp_step).
  rewrite (u64_small (stack + 4096)), align16_id by dlia.
  unfold push_words, stack_store. wp_steps. kflat.
  repeat match goal with |- context [u64 (?x - 8)] =>
    lazymatch x with context [u64 _] => fail | _ => rewrite (u64_small (x - 8)) by lia end end.
  eapply wr_task_wp; [apply lookup_insert_eq|]. wp_steps.
  kflat. rewrite insert_insert_eq.
  replace (stack + 4096 - 8 - 8 - 8 - 8 - 8 - 8 - 8) with (stack + 4096 - 56) by lia.
  set (m := <[stack + 4096 - 56 := 0]> _).
  exists stack, w, w2, m. split; [exact Ht|]. split; [exact Hfresh|]. split; [|split; [exact Hs16|split; [exact Hl2|]]].
  2: { exists a2. kflat. f_equal. }
  unfold m.
  split_and!; (rewrite ?lookup_insert_ne by lia; apply lookup_insert_Some; left; split; [lia|reflexivity]).
Qed.
End creating.

(** ** A list that has lost its head

    [scheduler_remove] does not move [g_task_list].  When the head is removed,
    a scan that starts at it enters the remaining ring and never meets it
    again. *)

Lemma dll_next_in T pv l nx x tk : dll T pv l nx → x ∈ l → T !! x = Some tk → t_next tk ∈ l ∨ t_next tk = nx.
Proof.
  revert pv. induction l as [|y l IH]; intros pv; simpl; [by intros _ ?%elem_of_nil|].
  intros [(ty & Hy & _ & Hn) Hd] [->|Hx]%elem_of_cons Ht.
  - rewrite Hy in Ht. injection Ht as <-. rewrite Hn. destruct l as [|z l]; simpl; [by right|]. left. right. left.
  - destruct (IH y Hd Hx Ht) as [?|?]; [left; by right|by right].
Qed.

Lemma ring_next_in T l x tk : ring T l → x ∈ l → T !! x = Some tk → t_next tk ∈ l.
Proof.
  destruct l as [|y l]; [done|]. intros [_ Hd] Hx Ht.
  destruct (dll_next_in _ _ _ _ _ _ Hd Hx Ht) as [?| ->]; [done|left].
Qed.

Lemma scan_diverges {A} (s : kstate A) l stop fuel x :
  ring (k_tasks s) l → x ∈ l → stop ∉ l → (∀ y, y ∈ l → st (k_tasks s) y ≠ Some TASK_READY) →
  scan_list fuel x stop s = NoFuel.
Proof.
  intros Hr Hx Hs Hn. revert x Hx. induction fuel as [|fuel IH]; intros x Hx; [done|]. cbn [scan_list].
  destruct (ring_lookup _ _ _ Hr Hx) as [tk Ht]. rewrite (bind_of_ok _ _ _ _ _ (rd_task_ok _ _ _ Ht)).
  pose proof (Hn x Hx) as Hnx. rewrite (st_at _ _ _ Ht) in Hnx. case_decide; [congruence|].
  pose proof (ring_next_in _ _ _ _ Hr Hx Ht) as Hin. destruct (Z.eqb_spec (t_next tk) stop); [congruence|]. by apply IH.
Qed.

(** ** The scheduler's theorems *)




(** Removing the head of the list leaves [g_task_list] at the removed task:
    the scan of [scheduler_pick_next] that starts there then never ends when no
    task is ready, whatever the bound. *)
Theorem scheduler_remove_head_diverges {A} (s : kstate A) t l :
  ring (k_tasks s) (t :: l) → l ≠ [] → g_task_list s = t →
  (∀ x, x ∈ t :: l → st (k_tasks s) x ≠ Some TASK_READY) →
  wp (scheduler_remove t) (λ _ s', g_task_list s' = t ∧ t ∉ l ∧ ring (k_tasks s') l ∧
    ∀ fuel, scan_list fuel (g_task_list s') (g_task_list s') s' = NoFuel) never s.
Proof.
  intros Hr Hl Hh Hn. pose proof Hr as [Hnd Hd]. apply NoDup_cons in Hnd as [Htl _].
  eapply wp_mono; [by apply (scheduler_remove_ok s t l)| |done]. intros [] s' (T' & -> & Hr' & Hs & HT & _).
  split; [done|]. split; [done|]. split; [done|]. cbn [g_task_list set_k_tasks]. rewrite Hh.
  pose proof Hd as [(tk & Ht & _ & Hnx) _]. intros [|fuel]; [done|]. cbn [scan_list].
  rewrite (bind_of_ok _ _ _ tk (set_k_tasks T' s)) by (apply rd_task_ok; cbn; by rewrite HT).
  pose proof (Hn t ltac:(left)) as Hnt. rewrite (st_at _ _ _ Ht) in Hnt. case_decide; [congruence|].
  destruct l as [|x l]; [done|]. simpl in Hnx. rewrite Hnx.
  destruct (Z.eqb_spec x t) as [->|]; [exfalso; apply Htl; left|].
  apply (scan_diverges _ (x :: l)); [done|left|done|]. intros y Hy. cbn. rewrite Hs. apply Hn. by right.
Qed.

(** The sleep queue is a priority queue: [sleep_queue_enqueue] inserts the
    entry after all those due no later and keeps the order (or refuses when 256
    tasks sleep), and [sleep_queue_wake] removes exactly the entries due by the
    tick, making their blocked tasks ready and no other. *)
Theorem sleep_queue_correct {A} (s : kstate A) : sleep_wf s →
  (∀ t w, if g_sleep_queue_len s <? SLEEP_QUEUE_MAX
          then ∃ s' q1 q2, sleep_queue_enqueue t w s = Ok (true, s') ∧ sleep_wf s' ∧
                 sleepers s = q1 ++ q2 ∧ Forall (λ e, e.2 ≤ w) q1 ∧ Forall (λ e, w < e.2) q2 ∧
                 sleepers s' = q1 ++ (t, w) :: q2
          else sleep_queue_enqueue t w s = Ok (false, s)) ∧
  (∀ tick, Forall (λ e, is_Some (k_tasks s !! e.1)) (sleepers s) →
     wp (sleep_queue_wake tick) (λ _ s', sleep_wf s' ∧ ∃ q1 q2, sleepers s = q1 ++ q2 ∧
       Forall (λ e, e.2 ≤ tick) q1 ∧ Forall (λ e, tick < e.2) q2 ∧ sleepers s' = q2 ∧
       ∀ y, st (k_tasks s') y = woken (k_tasks s) (fst <$> q1) y) never s).
Proof.
  intros W. split; [|by intros tick Hf; apply wake_ok]. intros t w.
  destruct (Z.ltb_spec (g_sleep_queue_len s) SLEEP_QUEUE_MAX).
  - destruct (enqueue_ok s t w W) as (s' & q1 & q2 & H1 & _ & H2 & H3); [done|]. by exists s', q1, q2.
  - unfold sleep_queue_enqueue, gets, mbind, M_bind. by destruct (Z.leb_spec SLEEP_QUEUE_MAX (g_sleep_queue_len s)); [|lia].
Qed.

(** C27: a task switched out by [context_switch] and switched back in later
    resumes after its call with its callee-saved registers and stack pointer
    unchanged, if meanwhile nothing wrote to the 56 bytes it saved. *)
Theorem context_switch_roundtrip m r ret nsp sp m1 r1 m2 r2 ret2 :
  context_switch m r ret nsp = Some (sp, m1, r1) →
  (∀ a, sp ≤ a < sp + 56 → m2 !! a = m1 !! a) → rsp r2 ≤ sp ∨ rsp r ≤ rsp r2 - 56 →
  ∃ sp2 m3, context_switch m2 r2 ret2 sp = Some (sp2, m3,
    mkRegs (rbx r) (rbp r) (r12 r) (r13 r) (r14 r) (r15 r) (rsp r) ret).
Proof.
  intros (-> & H1 & H2 & H3 & H4 & H5 & H6 & H7 & _)%context_switch_saves Hm Hd.
  destruct (context_switch_loads m2 r2 ret2 (rsp r - 56) (r15 r) (r14 r) (r13 r) (r12 r) (rbp r) (rbx r) ret)
    as (sp2 & m3 & Hc); [lia|rewrite Hm by lia; done..|]. exists sp2, m3.
  by replace (rsp r - 56 + 56) with (rsp r) in Hc by lia.
Qed.

(** [task_create] returns a new ready task with the next id and an empty
    kernel stack of 4096 bytes on which the first context switch enters
    [task_bootstrap] with the stack pointer at the (16-byte aligned) top; it
    fails only if the allocator panics. *)
Theorem task_create_correct {A} {AL : Alloc A} {LL : AllocLaws A} (s : kstate A) L boot entry args :
  al_live (k_alloc s) L →
  wp (task_create boot entry args) (λ t s', ∃ tk stack L',
    k_tasks s' = <[t := tk]> (k_tasks s) ∧ t ≠ 0 ∧ L !! t = None ∧ al_live (k_alloc s') L' ∧ is_Some (L' !! t) ∧
    t_state tk = TASK_READY ∧ t_id tk = s_next_id s ∧ t_entry tk = entry ∧ t_args tk = args ∧ t_owner tk = 0 ∧
    stack mod 16 = 0 ∧
    ∀ m r ret, (∀ a, t_kernel_rsp tk ≤ a < t_kernel_rsp tk + 56 → m !! a = k_stack s' !! a) →
      (rsp r ≤ t_kernel_rsp tk ∨ t_kernel_rsp tk + 56 ≤ rsp r - 56) →
      ∃ sp m', context_switch m r ret (t_kernel_rsp tk) = Some (sp, m', mkRegs 0 0 0 0 0 0 (stack + 4096) boot))
    (λ _, True) s.
Proof.
  intros Hl. eapply wp_mono; [by apply (task_create_ok boot s L)| |done].
  intros t s' (stack & w & w2 & m & Ht & Hf & (F1 & F2 & F3 & F4 & F5 & F6 & F7) & H16 & Hl' & a & ->).
  eexists _, stack, _. split; [reflexivity|]. split; [lia|]. split; [done|]. split; [exact Hl'|].
  split; [rewrite lookup_insert_is_Some; destruct (decide (stack = t)); [by left|right; split; [done|]; rewrite lookup_insert_eq; by eexists]|].
  split_and!; try done. intros m' r ret Hm Hd. cbn [t_kernel_rsp k_stack set_k_tasks set_s_next_id set_k_stack set_k_alloc] in *.
  destruct (context_switch_loads m' r ret (stack + 4096 - 56) 0 0 0 0 0 0 boot) as (sp & m1 & Hc);
    [done|rewrite Hm by lia; done..|]. exists sp, m1. by replace (stack + 4096 - 56 + 56) with (stack + 4096) in Hc by lia.
Qed.

(** ** Witnesses *)

Definition demo_task (id : Z) (v : task_state) (nx pv : Z) : task :=
  mkTask id 0 v 0 0 0 0 0 0 0 0 0 0 0 0 nx pv.

(** Three tasks in a ring (16 running, 32 ready, 48 in state [v]), the idle task
    at 64, an unlinked task at 80, two sleepers. *)
Definition demo_sched (v16 v32 v48 : task_state) : kstate unit :=
  mkK tt (<[16 := demo_task 1 v16 32 48]> (<[32 := demo_task 2 v32 48 16]> (<[48 := demo_task 3 v48 16 32]>
         (<[64 := demo_task 4 TASK_READY 0 0]> {[80 := demo_task 5 TASK_READY 0 0]}))))
      ∅ ∅ ∅ [] 1 16 16 64 6 1 0 0 ([(32, 5); (48, 9)] ++ replicate 254 (0, 0)) 2 ∅ 0 0 0.

Lemma demo_ring v16 v32 v48 : ring (k_tasks (demo_sched v16 v32 v48)) [16; 32; 48].
Proof.
  split; [apply (bool_decide_unpack _); vm_compute; exact I|].
  split; [by eexists|]. split; [by eexists|]. split; [by eexists|done].
Qed.

Lemma demo_sched_wf : sched_wf (demo_sched TASK_RUNNING TASK_READY TASK_BLOCKED) [16; 32; 48].
Proof.
  split; [apply demo_ring|done|by apply (bool_decide_unpack _)| |done|left|..].
  - split; [by apply (bool_decide_unpack _)|]. split; [done|by eexists].
  - split; [left|done].
  - intros x Hx. repeat (apply elem_of_cons in Hx as [->|Hx]); try done. by apply elem_of_nil in Hx.
  - intros x tk Hx. repeat (apply elem_of_cons in Hx as [->|Hx]); try (intros [= <-]; by left). by apply elem_of_nil in Hx.
Qed.




Lemma scheduler_remove_head_diverges_witness :
  wp (scheduler_remove 16) (λ _ s', ∀ fuel, scan_list fuel (g_task_list s') (g_task_list s') s' = NoFuel) never
     (demo_sched TASK_DEAD TASK_BLOCKED TASK_BLOCKED).
Proof.
  eapply wp_mono; [apply (scheduler_remove_head_diverges (demo_sched TASK_DEAD TASK_BLOCKED TASK_BLOCKED) 16 [32; 48]
    (demo_ring _ _ _)); [done|done|]| |done].
  - intros x Hx. repeat (apply elem_of_cons in Hx as [->|Hx]); try done. by apply elem_of_nil in Hx.
  - by intros [] s' (_ & _ & _ & Hf).
Defined.

Lemma demo_sleep_wf : sleep_wf (demo_sched TASK_RUNNING TASK_READY TASK_BLOCKED).
Proof.
  split; [done|by vm_compute|]. unfold sleepers. simpl. unfold by_tick.
  repeat (constructor; simpl; try lia).
Qed.

Lemma sleep_queue_correct_witness :
  let s := demo_sched TASK_RUNNING TASK_BLOCKED TASK_BLOCKED in
  ∃ s', sleep_queue_wake 7 s = Ok (tt, s') ∧ sleepers s' = [(48, 9)] ∧ st (k_tasks s') 32 = Some TASK_READY.
Proof.
  intros s. assert (sleep_wf s) as W.
  { split; [done|by vm_compute|]. unfold sleepers. simpl. unfold by_tick. repeat (constructor; simpl; try lia). }
  destruct (sleep_queue_correct s W) as [_ Hw].
  destruct (wp_run _ _ _ (Hw 7 ltac:(repeat (constructor; [by eexists|]); constructor))) as ([] & s' & Hs & _).
  exists s'. split; [exact Hs|]. vm_compute in Hs. injection Hs as <-. split; vm_compute; reflexivity.
Defined.

Definition demo_stack : gmap Z Z :=
  list_to_map [(1000, 15); (1008, 14); (1016, 13); (1024, 12); (1032, 11); (1040, 10); (1048, 99)].
Definition demo_regs : regs := mkRegs 1 2 3 4 5 6 2000 0.

Lemma context_switch_roundtrip_witness :
  ∃ sp m1 r1 sp2 m3, context_switch demo_stack demo_regs 77 1000 = Some (sp, m1, r1) ∧ rip r1 = 99 ∧
    context_switch m1 r1 55 sp = Some (sp2, m3, mkRegs 1 2 3 4 5 6 2000 77).
Proof.
  destruct (context_switch demo_stack demo_regs 77 1000) as [[[sp m1] r1]|] eqn:E; [|vm_compute in E; discriminate].
  assert (rsp r1 = 1056 ∧ sp = 1944 ∧ rip r1 = 99) as (H1 & H2 & H3).
  { vm_compute in E. injection E as <- _ <-. vm_compute. auto. }
  destruct (context_switch_roundtrip demo_stack demo_regs 77 1000 sp m1 r1 m1 r1 55 E ltac:(done)) as (sp2 & m3 & Hc).
  - left. rewrite H1, H2. lia.
  - exists sp, m1, r1, sp2, m3. split; [done|]. split; [exact H3|]. exact Hc.
Defined.

#[local] Existing Instance Heap.vm_backing.
#[local] Existing Instance Heap.vm_laws.

Definition demo_kernel : kstate (Heap.heap_state Vmm.vmm_state) :=
  mkK Heap.heap_demo ∅ ∅ ∅ ∅ [] 0 0 0 0 1 1 0 0 (replicate 256 (0, 0)) 0 ∅ 0 0 0.

Lemma demo_kernel_live : al_live (k_alloc demo_kernel) (Heap.live Vmm.KERNEL_HEAP [(16352, true)]).
Proof. exists [(16352, true)]. split; [apply Heap.heap_demo_wf|reflexivity]. Qed.

Lemma task_create_correct_witness :
  is_ok (task_create 4242 7 8 demo_kernel) = true ∧
  wp (task_create 4242 7 8) (λ t s', ∃ tk, k_tasks s' !! t = Some tk ∧ t_state tk = TASK_READY ∧ t_id tk = 1)
     (λ _, True) demo_kernel.
Proof.
  split; [vm_compute; reflexivity|].
  eapply wp_mono; [apply (task_create_correct demo_kernel _ 4242 7 8 demo_kernel_live)| |done].
  intros t s' (tk & stack & L' & Ht & _ & _ & _ & _ & Hs & Hi & _). exists tk. rewrite Ht, lookup_insert_eq. auto.
Defined.

End Sched.
