(* ===== verification/RingBuf.v ===== *)
(** * Ring buffers ([kernel/utils/ring_buf.h])

    The macro [RING_BUF(name, type, cap)] and the array-as-queue representation
    that pipes, IPC servers and sockets also use by hand.  A queue [l] is held
    in an array of [cap] cells from index [r], wrapping around. *)
From S2P Require Import Prelude.

Module RingBuf.

Section ring.
Context {V : Type}.
Implicit Types (l buf : list V) (v : V).

(** [buf] holds [l] from index [r]. *)
Definition holds (cap : Z) buf (r : Z) l : Prop :=
  ∀ k v, l !! k = Some v → buf !! Z.to_nat ((r + Z.of_nat k) mod cap) = Some v.

Lemma holds_nil cap buf r : holds cap buf r [].
Proof. by intros k v. Qed.

Lemma mod_inj cap r i j : 0 ≤ i < cap → 0 ≤ j < cap → (r + i) mod cap = (r + j) mod cap → i = j.
Proof.
  intros Hi Hj He. assert ((i - j) mod cap = 0) as Hm.
  { replace (i - j) with ((r + i) - (r + j)) by lia. rewrite Zminus_mod, He, Z.sub_diag. apply Z.mod_0_l. lia. }
  apply Z.mod_divide in Hm as [q Hq]; [|lia]. assert (q = 0) as -> by nia. lia.
Qed.

Lemma holds_push cap buf r l v :
  holds cap buf r l → Z.of_nat (length l) < cap → Z.of_nat (length buf) = cap →
  holds cap (<[Z.to_nat ((r + Z.of_nat (length l)) mod cap) := v]> buf) r (l ++ [v]).
Proof.
  intros Hh Hl Hb k w Hk. assert (0 ≤ (r + Z.of_nat (length l)) mod cap < cap) by (apply Z.mod_pos_bound; lia).
  destruct (decide (k = length l)) as [->|Hne].
  - rewrite lookup_mid in Hk. injection Hk as ->. apply list_lookup_insert_eq. lia.
  - assert (k < length l)%nat as Hlt by (apply lookup_lt_Some in Hk; rewrite length_app in Hk; simpl in Hk; lia).
    rewrite lookup_app_l in Hk by done.
    assert (0 ≤ (r + Z.of_nat k) mod cap < cap) by (apply Z.mod_pos_bound; lia).
    rewrite list_lookup_insert_ne; [by apply Hh|]. intros He. apply Z2Nat.inj in He; [|lia..].
    apply mod_inj in He; lia.
Qed.

Lemma holds_pop cap buf r v l : holds cap buf r (v :: l) → 0 ≤ r < cap →
  buf !! Z.to_nat r = Some v ∧ holds cap buf ((r + 1) mod cap) l.
Proof.
  intros Hh Hr. split.
  - specialize (Hh 0%nat v eq_refl). rewrite Z.add_0_r, Z.mod_small in Hh by done. done.
  - intros k w Hk. specialize (Hh (S k) w Hk). rewrite Zplus_mod_idemp_l.
    by replace (r + 1 + Z.of_nat k) with (r + Z.of_nat (S k)) by lia.
Qed.

(** ** The [RING_BUF] macro *)

Record ring_buf := mkRing { items : list V; head : Z; tail : Z }.

Definition rb_empty (q : ring_buf) : bool := head q =? tail q.
Definition rb_full (cap : Z) (q : ring_buf) : bool := (head q + 1) mod cap =? tail q.

(** The new buffer, or [None] (a return value of 0) when it is full; an index
    outside the array is a [Fault]. *)
Definition rb_write (cap : Z) (q : ring_buf) (item : V) : outcome (option ring_buf) :=
  if (head q + 1) mod cap =? tail q then Ok None
  else
    match items q !! Z.to_nat (head q) with
    | None => Fault
    | Some _ => Ok (Some (mkRing (<[Z.to_nat (head q) := item]> (items q)) ((head q + 1) mod cap) (tail q)))
    end.

Definition rb_read (cap : Z) (q : ring_buf) : outcome (option (V * ring_buf)) :=
  if head q =? tail q then Ok None
  else
    match items q !! Z.to_nat (tail q) with
    | None => Fault
    | Some v => Ok (Some (v, mkRing (items q) (head q) ((tail q + 1) mod cap)))
    end.

(** The buffer represents the queue [l]: one cell always stays unused. *)
Record rb_rep (cap : Z) (q : ring_buf) (l : list V) : Prop := {
  rb_cap : Z.of_nat (length (items q)) = cap;
  rb_tail : 0 ≤ tail q < cap;
  rb_len : Z.of_nat (length l) < cap;
  rb_head : head q = (tail q + Z.of_nat (length l)) mod cap;
  rb_holds : holds cap (items q) (tail q) l
}.

(** A [RING_BUF] of capacity [cap] is a FIFO queue of at most [cap - 1]
    items: writing appends unless it is full, reading removes the oldest item
    unless it is empty, the two tests say which, and no index leaves the
    array. *)
Theorem ring_buf_fifo cap q l v : rb_rep cap q l →
  rb_empty q = bool_decide (l = []) ∧
  rb_full cap q = (Z.of_nat (length l) =? cap - 1) ∧
  (if Z.of_nat (length l) =? cap - 1 then rb_write cap q v = Ok None
   else ∃ q', rb_write cap q v = Ok (Some q') ∧ rb_rep cap q' (l ++ [v])) ∧
  (match l with
   | [] => rb_read cap q = Ok None
   | x :: l' => ∃ q', rb_read cap q = Ok (Some (x, q')) ∧ rb_rep cap q' l'
   end).
Proof.
  intros [Hc Ht Hl Hh Hd]. assert (0 < cap) as Hpos by lia.
  assert ((head q + 1) mod cap = (tail q + (Z.of_nat (length l) + 1)) mod cap) as Hh1.
  { rewrite Hh, Zplus_mod_idemp_l. f_equal. lia. }
  assert (((head q + 1) mod cap =? tail q) = (Z.of_nat (length l) =? cap - 1)) as Hfull.
  { rewrite Hh1. destruct (Z.eqb_spec (Z.of_nat (length l)) (cap - 1)) as [->|Hne].
    - apply Z.eqb_eq. replace (tail q + (cap - 1 + 1)) with (tail q + 1 * cap) by lia.
      rewrite Z.mod_add by lia. apply Z.mod_small. lia.
    - apply Z.eqb_neq. intros He. rewrite <- (Z.mod_small (tail q) cap) in He at 2 by lia.
      replace (tail q mod cap) with ((tail q + 0) mod cap) in He by (f_equal; lia).
      apply mod_inj in He; lia. }
  assert ((head q =? tail q) = bool_decide (l = [])) as Hempty.
  { rewrite Hh. destruct l as [|x l]; simpl length.
    - rewrite Z.add_0_r, Z.mod_small by lia. by rewrite Z.eqb_refl.
    - rewrite bool_decide_eq_false_2 by done. apply Z.eqb_neq. intros He.
      rewrite <- (Z.mod_small (tail q) cap) in He at 2 by lia.
      replace (tail q mod cap) with ((tail q + 0) mod cap) in He by (f_equal; lia).
      simpl length in Hl. apply mod_inj in He; lia. }
  assert (0 ≤ head q < cap) as Hhd by (rewrite Hh; apply Z.mod_pos_bound; lia).
  split; [done|]. split; [done|]. split.
  - unfold rb_write. rewrite Hfull. destruct (Z.eqb_spec (Z.of_nat (length l)) (cap - 1)); [done|].
    destruct (lookup_lt_is_Some_2 (items q) (Z.to_nat (head q)) ltac:(lia)) as [w Hw]. rewrite Hw.
    eexists. split; [done|]. split; simpl.
    + by rewrite length_insert.
    + done.
    + rewrite length_app. simpl. lia.
    + rewrite length_app, Hh1. simpl. f_equal. lia.
    + rewrite Hh. apply holds_push; [done|lia|done].
  - unfold rb_read. rewrite Hempty. destruct l as [|x l]; [done|]. rewrite bool_decide_eq_false_2 by done.
    destruct (holds_pop cap _ _ _ _ Hd Ht) as [Hx Hd']. rewrite Hx. eexists. split; [done|]. split; simpl.
    + done.
    + apply Z.mod_pos_bound. lia.
    + simpl length in Hl. lia.
    + rewrite Hh, Zplus_mod_idemp_l. simpl length. f_equal. lia.
    + done.
Qed.
End ring.
Arguments ring_buf : clear implicits.

Lemma ring_buf_fifo_witness :
  ∃ q', rb_write 4 (mkRing [0; 7; 8; 0] 3 1) 9 = Ok (Some q') ∧ rb_rep 4 q' [7; 8; 9].
Proof.
  assert (rb_rep 4 (mkRing [0; 7; 8; 0] 3 1) [7; 8]) as R.
  { split; simpl; try lia; try done. intros [|[|k]] v; simpl; [by intros [= <-]..|done]. }
  destruct (ring_buf_fifo 4 _ [7; 8] 9 R) as (_ & _ & Hw & _). exact Hw.
Defined.

End RingBuf.
