(* ===== verification/Ipc.v ===== *)
(** * Inter-process communication ([kernel/ipc/pipe.c], [handle.c], [channel.c])

    Pipes are 4096-byte ring buffers; a channel is a pair of pipes between two
    processes, obtained through a named server; handles name them in a process.
    A call that blocks is split at [schedule()]: the part before it, and the
    part that runs when the task is resumed. *)
From S2P Require Import Prelude Vmm Heap Kobj Sched RingBuf.
Import Kobj Sched RingBuf.

Module Ipc.

Section ops.
Context {A : Type} {AL : Alloc A}.
Local Notation K := (kstate A).

(** ** Pipes *)

(** The null pointer when the allocator fails; the buffer is not initialised by
    the code, so its contents are whatever [kmalloc] returned ([garbage]). *)
Definition pipe_create (garbage : list Z) : M K Z :=
  p ← on_alloc (al_malloc sizeof_pipe);
  if p =? 0 then mret 0
  else
    modify (λ s, set_k_pipes (<[p := mkPipe garbage 0 0 0 1 0]> (k_pipes s)) s) ;;
    mret p.

Definition pipe_retain (p : Z) : M K unit :=
  wr_pipe p (λ b, set_b_ref_count (i32 (b_ref_count b + 1)) b).

Definition pipe_release (p : Z) : M K unit :=
  wr_pipe p (λ b, set_b_ref_count (i32 (b_ref_count b - 1)) b) ;;
  b ← rd_pipe p;
  when (b_ref_count b <=? 0) (
    on_alloc (al_free p) ;;
    modify (λ s, set_k_pipes (delete p (k_pipes s)) s)).

Definition pipe_available (p : Z) : M K Z := b ← rd_pipe p; mret (b_count b).

(** [p->buf[i] = v] and [p->buf[i]] *)
Definition buf_write (p i v : Z) : M K unit :=
  b ← rd_pipe p;
  if (0 <=? i) && (i <? Z.of_nat (length (b_buf b)))
  then wr_pipe p (λ b, set_b_buf (<[Z.to_nat i := v]> (b_buf b)) b) else fault.
Definition buf_read (p i : Z) : M K Z :=
  b ← rd_pipe p;
  if 0 <=? i then of_option (b_buf b !! Z.to_nat i) else fault.

(** The copy loop of [pipe_write] over the [len] bytes that remain. *)
Fixpoint pipe_write_loop (p : Z) (data : list Z) (len : nat) {struct len} : M K unit :=
  match len with
  | O => mret tt
  | S len' =>
      b ← rd_pipe p;
      if PIPE_BUF_SIZE <=? b_count b then mret tt
      else
        match data with
        | [] => fault
        | v :: data' =>
            buf_write p (b_write_pos b) v ;;
            wr_pipe p (λ b, set_b_write_pos (u32 (b_write_pos b + 1) mod PIPE_BUF_SIZE) b) ;;
            wr_pipe p (λ b, set_b_count (u32 (b_count b + 1)) b) ;;
            pipe_write_loop p data' len'
        end
  end.

Definition pipe_write (p : Z) (data : list Z) (len : Z) : M K unit :=
  pipe_write_loop p data (Z.to_nat len) ;;
  b ← rd_pipe p;
  when (truthy (b_listener b)) (
    task_set_ready (b_listener b) ;;
    wr_pipe p (set_b_listener 0)).

(** The bytes read, in order; their number is the return value. *)
Fixpoint pipe_read_loop (p : Z) (max_len : nat) : M K (list Z) :=
  match max_len with
  | O => mret []
  | S n =>
      b ← rd_pipe p;
      if 0 <? b_count b then
        v ← buf_read p (b_read_pos b);
        wr_pipe p (λ b, set_b_read_pos (u32 (b_read_pos b + 1) mod PIPE_BUF_SIZE) b) ;;
        wr_pipe p (λ b, set_b_count (u32 (b_count b - 1)) b) ;;
        rest ← pipe_read_loop p n;
        mret (v :: rest)
      else mret []
  end.

Definition pipe_read (p max_len : Z) : M K (list Z) := pipe_read_loop p (Z.to_nat max_len).

Definition pipe_add_listener (p t : Z) : M K bool :=
  b ← rd_pipe p;
  if truthy (b_listener b) then mret false
  else wr_pipe p (set_b_listener t) ;; mret true.

Definition pipe_close_write (p : Z) : M K unit := mret tt.
Definition pipe_close_read (p : Z) : M K unit := mret tt.

(** ** Handles *)

Fixpoint handle_alloc_loop (p : Z) (type : handle_type) (ptr : Z) (n : nat) (i : Z) : M K Z :=
  match n with
  | O => mret (-1)
  | S n' =>
      pr ← rd_proc p;
      h ← of_option (p_handles pr !! Z.to_nat i);
      if decide (h_type h = HANDLE_NONE) then
        wr_proc p (λ pr, set_p_handles (<[Z.to_nat i := mkHandle type ptr]> (p_handles pr)) pr) ;;
        mret i
      else handle_alloc_loop p type ptr n' (i + 1)
  end.

Definition handle_alloc (p : Z) (type : handle_type) (ptr : Z) : M K Z :=
  handle_alloc_loop p type ptr (Z.to_nat MAX_HANDLES) 0.

Definition handle_get (p h : Z) : M K (option handle_entry) :=
  if (h <? 0) || (MAX_HANDLES <=? h) then mret None
  else
    pr ← rd_proc p;
    e ← of_option (p_handles pr !! Z.to_nat h);
    if decide (h_type e = HANDLE_NONE) then mret None else mret (Some e).

(** ** Channels *)

(** FNV-1a over the bytes before the terminating NUL. *)
Definition hash64 (s : list Z) : Z :=
  foldl (λ hash c, u64 (Z.lxor hash (u8 c) * 1099511628211)) 1469598103934665603 s.

(** [ch->listeners[i]]: wake it, if there is one, and forget it. *)
Definition wake_listener0 (ch : Z) : M K unit :=
  c ← rd_chan ch;
  when (truthy (c_listener0 c)) (task_set_ready (c_listener0 c) ;; wr_chan ch (set_c_listener0 0)).
Definition wake_listener1 (ch : Z) : M K unit :=
  c ← rd_chan ch;
  when (truthy (c_listener1 c)) (task_set_ready (c_listener1 c) ;; wr_chan ch (set_c_listener1 0)).

Definition channel_close (ch pid : Z) : M K unit :=
  c ← rd_chan ch;
  if c_pid0 c =? pid then
    wr_chan ch (set_c_closed0 true) ;; wake_listener1 ch
  else if c_pid1 c =? pid then
    wr_chan ch (set_c_closed1 true) ;; wake_listener0 ch
  else mret tt.

Fixpoint handle_close_loop (p : Z) (n : nat) (i : Z) : M K unit :=
  match n with
  | O => mret tt
  | S n' =>
      pr ← rd_proc p;
      h ← of_option (p_handles pr !! Z.to_nat i);
      match h_type h with
      | HANDLE_NONE => mret tt
      | HANDLE_CHANNEL => channel_close (h_ptr h) (p_pid pr)
      | HANDLE_PIPE_READ => pipe_close_read (h_ptr h)
      | HANDLE_PIPE_WRITE => pipe_close_write (h_ptr h)
      | HANDLE_FILE => mret tt
      end ;;
      handle_close_loop p n' (i + 1)
  end.

Definition handle_close_all (p : Z) : M K unit := handle_close_loop p (Z.to_nat MAX_HANDLES) 0.

(** *** Servers *)

Definition rd_server (i : Z) : M K server := s ← gets k_servers; of_option (s !! Z.to_nat i).
Definition wr_server (i : Z) (f : server → server) : M K unit :=
  sv ← rd_server i;
  modify (λ s, set_k_servers (<[Z.to_nat i := f sv]> (k_servers s)) s).

Fixpoint create_server_loop (n : nat) (i : Z) : M K Z :=
  match n with
  | O => mret (-1)
  | S n' => sv ← rd_server i; if truthy (sv_identifier sv) then create_server_loop n' (i + 1) else mret i
  end.
Definition create_server : M K Z := create_server_loop (Z.to_nat MAX_SERVERS) 0.

(** The index of the server, or [None] for the null pointer. *)
Fixpoint find_server_loop (hash : Z) (n : nat) (i : Z) : M K (option Z) :=
  match n with
  | O => mret None
  | S n' => sv ← rd_server i; if sv_identifier sv =? hash then mret (Some i) else find_server_loop hash n' (i + 1)
  end.
Definition find_server (identifier : list Z) : M K (option Z) :=
  find_server_loop (hash64 identifier) (Z.to_nat MAX_SERVERS) 0.

Definition get_server (h : Z) : option Z := if (h <? 0) || (MAX_SERVERS <=? h) then None else Some h.

Definition free_server (i : Z) : M K unit := wr_server i (set_sv_identifier 0).

(** 0 is the null channel pointer. *)
Definition dequeue_incomming (i : Z) : M K Z :=
  sv ← rd_server i;
  if sv_count sv =? 0 then mret 0
  else
    ch ← of_option (sv_incoming sv !! Z.to_nat (sv_head sv));
    wr_server i (λ sv, set_sv_head ((sv_head sv + 1) mod MAX_PENDING) sv) ;;
    wr_server i (λ sv, set_sv_count (sv_count sv - 1) sv) ;;
    mret ch.

Definition enqueue_incomming (i ch : Z) : M K unit :=
  sv ← rd_server i;
  if sv_count sv =? MAX_PENDING then mret tt
  else
    _ ← of_option (sv_incoming sv !! Z.to_nat (sv_tail sv));
    wr_server i (λ sv, set_sv_incoming (<[Z.to_nat (sv_tail sv) := ch]> (sv_incoming sv)) sv) ;;
    wr_server i (λ sv, set_sv_tail ((sv_tail sv + 1) mod MAX_PENDING) sv) ;;
    wr_server i (λ sv, set_sv_count (sv_count sv + 1) sv).

Definition ipc_server (identifier : list Z) : M K Z :=
  f ← find_server identifier;
  match f with
  | Some _ => mret (-1)
  | None =>
      hnd ← create_server;
      if hnd =? -1 then mret (-1)
      else
        cur ← gets g_current_task;
        wr_server hnd (set_sv_identifier (hash64 identifier)) ;;
        wr_server hnd (set_sv_listener cur) ;;
        mret hnd
  end.

(** The end of both accept calls: bind the channel and return a handle. *)
Definition accept_channel (p ch : Z) : M K Z :=
  pr ← rd_proc p;
  wr_chan ch (set_c_pid1 (p_pid pr)) ;;
  handle_alloc p HANDLE_CHANNEL ch.

(** [ipc_accept] up to its return ([Some]) or to [schedule()] ([None]). *)
Definition ipc_accept (h : Z) : M K (option Z) :=
  t ← gets g_current_task;
  tk ← rd_task t;
  match get_server h with
  | None => mret (Some (-1))
  | Some i =>
      ch ← dequeue_incomming i;
      if truthy ch then r ← accept_channel (t_owner tk) ch; mret (Some r)
      else
        sv ← rd_server i;
        if truthy (sv_listener sv) then mret (Some (-1))
        else
          wr_server i (set_sv_listener t) ;;
          task_set_blocked t ;;
          schedule ;;
          mret None
  end.

(** The rest of [ipc_accept], run when the task [t] that called it resumes. *)
Definition ipc_accept_resume (t h : Z) : M K Z :=
  tk ← rd_task t;
  match get_server h with
  | None => mret (-1)
  | Some i =>
      ch ← dequeue_incomming i;
      if truthy ch then accept_channel (t_owner tk) ch else mret (-1)
  end.

Definition ipc_accept_nb (h : Z) : M K Z :=
  match get_server h with
  | None => mret (-1)
  | Some i =>
      ch ← dequeue_incomming i;
      if truthy ch then
        t ← gets g_current_task;
        tk ← rd_task t;
        accept_channel (t_owner tk) ch
      else mret (-1)
  end.

Definition ipc_connect (garbage : list Z) (identifier : list Z) : M K Z :=
  f ← find_server identifier;
  match f with
  | None => mret (-1)
  | Some i =>
      t ← gets g_current_task;
      tk ← rd_task t;
      let p := t_owner tk in
      ch ← on_alloc (al_malloc sizeof_channel);
      pr ← rd_proc p;
      p0 ← pipe_create garbage;
      p1 ← pipe_create garbage;
      modify (λ s, set_k_chans (<[ch := mkChan (p_pid pr) 0 p0 p1 0 0 false false]> (k_chans s)) s) ;;
      enqueue_incomming i ch ;;
      sv ← rd_server i;
      when (truthy (sv_listener sv)) (task_set_ready (sv_listener sv) ;; wr_server i (set_sv_listener 0)) ;;
      handle_alloc p HANDLE_CHANNEL ch
  end.

Definition channel_send (h : Z) (data : list Z) (len : Z) : M K unit :=
  t ← gets g_current_task;
  tk ← rd_task t;
  let p := t_owner tk in
  e ← handle_get p h;
  match e with
  | None => mret tt
  | Some e =>
      let ch := h_ptr e in
      if ch =? 0 then mret tt
      else
        c ← rd_chan ch;
        pr ← rd_proc p;
        if c_pid0 c =? p_pid pr then pipe_write (c_pipe0 c) data (u32 len) ;; wake_listener1 ch
        else if c_pid1 c =? p_pid pr then pipe_write (c_pipe1 c) data (u32 len) ;; wake_listener0 ch
        else mret tt
  end.

(** The return value and the bytes stored in the caller's buffer. *)
Definition channel_recv (h len : Z) : M K (Z * list Z) :=
  t ← gets g_current_task;
  tk ← rd_task t;
  let p := t_owner tk in
  e ← handle_get p h;
  match e with
  | None => mret (0, [])
  | Some e =>
      let ch := h_ptr e in
      if ch =? 0 then mret (0, [])
      else
        c ← rd_chan ch;
        pr ← rd_proc p;
        if c_pid0 c =? p_pid pr then
          if c_closed1 c then mret (-1, [])
          else bs ← pipe_read (c_pipe1 c) (u32 len); mret (Z.of_nat (length bs), bs)
        else if c_pid1 c =? p_pid pr then
          if c_closed0 c then mret (-1, [])
          else bs ← pipe_read (c_pipe0 c) (u32 len); mret (Z.of_nat (length bs), bs)
        else mret (0, [])
  end.

Definition channel_set_listener (h t : Z) : M K bool :=
  tk ← rd_task t;
  e ← handle_get (t_owner tk) h;
  match e with
  | None => mret false
  | Some e =>
      let ch := h_ptr e in
      if ch =? 0 then mret false
      else
        c ← rd_chan ch;
        pr ← rd_proc (t_owner tk);
        if p_pid pr =? c_pid0 c then
          if truthy (c_listener0 c) then mret false
          else wr_chan ch (set_c_listener0 t) ;; mret true
        else if p_pid pr =? c_pid1 c then
          if truthy (c_listener1 c) then mret false
          else wr_chan ch (set_c_listener1 t) ;; mret true
        else mret false
  end.
End ops.

(** ** Pipes are bounded FIFO queues *)

Record pipe_rep (b : pipe) (l : list Z) : Prop := {
  pr_cap : Z.of_nat (length (b_buf b)) = PIPE_BUF_SIZE;
  pr_read : 0 ≤ b_read_pos b < PIPE_BUF_SIZE;
  pr_len : Z.of_nat (length l) ≤ PIPE_BUF_SIZE;
  pr_count : b_count b = Z.of_nat (length l);
  pr_write : b_write_pos b = (b_read_pos b + Z.of_nat (length l)) mod PIPE_BUF_SIZE;
  pr_holds : holds PIPE_BUF_SIZE (b_buf b) (b_read_pos b) l
}.

(** The bytes a write of [data] gets in behind [l]. *)
Definition room (cap : nat) (l data : list Z) : list Z := take (cap - length l) data.
Definition accepted (l data : list Z) : list Z := room (Z.to_nat PIPE_BUF_SIZE) l data.

Lemma room_nil cap l : room cap l [] = [].
Proof. apply take_nil. Qed.
Lemma room_full cap l data : (cap ≤ length l)%nat → room cap l data = [].
Proof. intros H. unfold room. by replace (cap - length l)%nat with 0%nat by lia. Qed.
Lemma room_cons cap l v data : (length l < cap)%nat → l ++ room cap l (v :: data) = (l ++ [v]) ++ room cap (l ++ [v]) data.
Proof.
  intros H. unfold room. rewrite <- app_assoc, length_app. simpl.
  by replace (cap - length l)%nat with (S (cap - (length l + 1))) by lia.
Qed.
Lemma room_all cap l data : (length l + length data ≤ cap)%nat → room cap l data = data.
Proof. intros H. apply firstn_all2. lia. Qed.

Section pipes.
Context {A : Type} {AL : Alloc A}.
Implicit Types s : kstate A.

Lemma rd_pipe_ok s p b : k_pipes s !! p = Some b → rd_pipe p s = Ok (b, s).
Proof. intros Hp. unfold rd_pipe, at_ptr. by rewrite Hp. Qed.
Lemma wr_pipe_ok s p b f : k_pipes s !! p = Some b →
  wr_pipe p f s = Ok (tt, set_k_pipes (<[p := f b]> (k_pipes s)) s).
Proof. intros Hp. unfold wr_pipe, upd_ptr. by rewrite Hp. Qed.

(** Replacing the pipe at [p]. *)
Definition with_pipe (p : Z) (b : pipe) s : kstate A := set_k_pipes (<[p := b]> (k_pipes s)) s.

Lemma with_pipe_lookup p b s : k_pipes (with_pipe p b s) !! p = Some b.
Proof. apply lookup_insert_eq. Qed.
Lemma with_pipe_twice p b b' s : with_pipe p b' (with_pipe p b s) = with_pipe p b' s.
Proof. unfold with_pipe. cbn. by rewrite insert_insert_eq. Qed.
Lemma with_pipe_same p b s : k_pipes s !! p = Some b → with_pipe p b s = s.
Proof. intros Hp. unfold with_pipe. rewrite insert_id by done. by destruct s. Qed.

Definition pushed (b : pipe) (v : Z) : pipe :=
  mkPipe (<[Z.to_nat (b_write_pos b) := v]> (b_buf b)) (b_read_pos b)
         ((b_write_pos b + 1) mod PIPE_BUF_SIZE) (b_count b + 1) (b_ref_count b) (b_listener b).
Definition popped (b : pipe) : pipe :=
  mkPipe (b_buf b) ((b_read_pos b + 1) mod PIPE_BUF_SIZE) (b_write_pos b) (b_count b - 1)
         (b_ref_count b) (b_listener b).

Lemma pushed_rep b l v : pipe_rep b l → Z.of_nat (length l) < PIPE_BUF_SIZE → pipe_rep (pushed b v) (l ++ [v]).
Proof.
  unfold PIPE_BUF_SIZE. intros [H1 H2 H3 H4 H5 H6] Hl. unfold PIPE_BUF_SIZE in *. split; unfold PIPE_BUF_SIZE; simpl.
  - by rewrite length_insert.
  - done.
  - rewrite length_app. simpl. lia.
  - rewrite length_app. simpl. lia.
  - rewrite H5, Zplus_mod_idemp_l, length_app. simpl. f_equal. lia.
  - rewrite H5. by apply holds_push.
Qed.

Lemma popped_rep b v l : pipe_rep b (v :: l) →
  b_buf b !! Z.to_nat (b_read_pos b) = Some v ∧ pipe_rep (popped b) l.
Proof.
  unfold PIPE_BUF_SIZE. intros [H1 H2 H3 H4 H5 H6]. unfold PIPE_BUF_SIZE in *.
  destruct (holds_pop _ _ _ _ _ H6 H2) as [Hv Hh]. split; [done|]. split; unfold PIPE_BUF_SIZE; simpl in *.
  - done.
  - apply Z.mod_pos_bound. lia.
  - lia.
  - lia.
  - rewrite H5, Zplus_mod_idemp_l. f_equal. lia.
  - done.
Qed.

Lemma push_step s p b l v : k_pipes s !! p = Some b → pipe_rep b l → Z.of_nat (length l) < PIPE_BUF_SIZE →
  (buf_write p (b_write_pos b) v ;;
   wr_pipe p (λ b, set_b_write_pos (u32 (b_write_pos b + 1) mod PIPE_BUF_SIZE) b) ;;
   wr_pipe p (λ b, set_b_count (u32 (b_count b + 1)) b)) s = Ok (tt, with_pipe p (pushed b v) s).
Proof.
  intros Hp [H1 H2 H3 H4 H5 _] Hl. unfold PIPE_BUF_SIZE in *.
  assert (0 ≤ b_write_pos b < 4096) as Hw by (rewrite H5; apply Z.mod_pos_bound; lia).
  unfold buf_write, mbind at 1, M_bind at 1. rewrite (bind_of_ok _ _ _ _ _ (rd_pipe_ok _ _ _ Hp)).
  destruct (Z.leb_spec 0 (b_write_pos b)); [|lia]. destruct (Z.ltb_spec (b_write_pos b) (Z.of_nat (length (b_buf b)))); [|lia].
  cbn [andb]. rewrite (wr_pipe_ok _ _ _ _ Hp). fold (with_pipe p (set_b_buf (<[Z.to_nat (b_write_pos b):=v]> (b_buf b)) b) s).
  rewrite (bind_of_ok _ _ _ _ _ (wr_pipe_ok _ _ _ _ (with_pipe_lookup _ _ _))).
  match goal with |- context [set_k_pipes (<[p := ?x]> _) ?y] => fold (with_pipe p x y) end. rewrite with_pipe_twice.
  rewrite (wr_pipe_ok _ _ _ _ (with_pipe_lookup _ _ _)).
  match goal with |- context [set_k_pipes (<[p := ?x]> _) ?y] => fold (with_pipe p x y) end. rewrite with_pipe_twice.
  do 2 f_equal. unfold with_pipe, pushed, PIPE_BUF_SIZE. do 2 f_equal.
  destruct b; simpl in *. by rewrite !u32_small by lia.
Qed.

Lemma pop_step s p b v l : k_pipes s !! p = Some b → pipe_rep b (v :: l) →
  ∀ {R} (k : Z → M (kstate A) R),
  (w ← buf_read p (b_read_pos b);
   wr_pipe p (λ b, set_b_read_pos (u32 (b_read_pos b + 1) mod PIPE_BUF_SIZE) b) ;;
   wr_pipe p (λ b, set_b_count (u32 (b_count b - 1)) b) ;; k w) s = k v (with_pipe p (popped b) s).
Proof.
  intros Hp Hr R k. destruct (popped_rep _ _ _ Hr) as [Hv _]. destruct Hr as [H1 H2 H3 H4 H5 _]. unfold PIPE_BUF_SIZE in *.
  assert (buf_read p (b_read_pos b) s = Ok (v, s)) as Hb.
  { unfold buf_read. rewrite (bind_of_ok _ _ _ _ _ (rd_pipe_ok _ _ _ Hp)).
    destruct (Z.leb_spec 0 (b_read_pos b)); [|lia]. by rewrite Hv. }
  rewrite (bind_of_ok _ _ _ _ _ Hb), (bind_of_ok _ _ _ _ _ (wr_pipe_ok _ _ _ _ Hp)).
  match goal with |- context [set_k_pipes (<[p := ?x]> _) ?y] => fold (with_pipe p x y) end.
  rewrite (bind_of_ok _ _ _ _ _ (wr_pipe_ok _ _ _ _ (with_pipe_lookup _ _ _))).
  match goal with |- context [set_k_pipes (<[p := ?x]> _) ?y] => fold (with_pipe p x y) end. rewrite with_pipe_twice.
  f_equal. unfold with_pipe, popped, PIPE_BUF_SIZE. do 2 f_equal.
  destruct b; simpl in *. by rewrite !u32_small by lia.
Qed.
End pipes.

Section transfer.
Context {A : Type} {AL : Alloc A}.
Implicit Types s : kstate A.

Lemma write_loop_ok p n : ∀ data s b l, k_pipes s !! p = Some b → pipe_rep b l → (n ≤ length data)%nat →
  ∃ b', pipe_write_loop p data n s = Ok (tt, with_pipe p b' s) ∧
        pipe_rep b' (l ++ accepted l (take n data)) ∧
        b_ref_count b' = b_ref_count b ∧ b_listener b' = b_listener b.
Proof.
  induction n as [|n IH]; intros data s b l Hp Hr Hn.
  { exists b. unfold accepted. rewrite firstn_O, room_nil, app_nil_r, with_pipe_same by done. split_and!; [reflexivity|exact Hr|reflexivity..]. }
  cbn [pipe_write_loop]. rewrite (bind_of_ok _ _ _ _ _ (rd_pipe_ok _ _ _ Hp)).
  pose proof (pr_count _ _ Hr) as Hc. pose proof (pr_len _ _ Hr) as Hl.
  destruct (Z.leb_spec PIPE_BUF_SIZE (b_count b)) as [Hf|Hf].
  { exists b. rewrite with_pipe_same by done. unfold accepted.
    rewrite room_full, app_nil_r by lia. by split_and!. }
  destruct data as [|v data]; [simpl in Hn; lia|]. simpl in Hn.
  pose proof (push_step s p b l v Hp Hr ltac:(lia)) as Hpush.
  destruct (IH data (with_pipe p (pushed b v) s) (pushed b v) (l ++ [v]) (with_pipe_lookup _ _ _))
    as (b' & Hrun & Hrep & Hrc & Hls); [by apply pushed_rep; [|lia]|lia|].
  exists b'. split; [|split; [|done]].
  - rewrite <- (with_pipe_twice p (pushed b v)), <- Hrun. clear Hrun IH.
    revert Hpush. unfold mbind, M_bind. destruct (buf_write _ _ _ _) as [[[] s1]| | |]; try done.
    destruct (wr_pipe _ _ s1) as [[[] s2]| | |]; try done.
    destruct (wr_pipe _ _ s2) as [[[] s3]| | |]; try done. by intros [= ->].
  - cbn [take]. unfold accepted in *. rewrite room_cons by lia. exact Hrep.
Qed.

Lemma read_loop_ok p n : ∀ s b l, k_pipes s !! p = Some b → pipe_rep b l →
  ∃ b', pipe_read_loop p n s = Ok (take n l, with_pipe p b' s) ∧ pipe_rep b' (drop n l) ∧
        b_ref_count b' = b_ref_count b ∧ b_listener b' = b_listener b.
Proof.
  induction n as [|n IH]; intros s b l Hp Hr.
  { exists b. rewrite with_pipe_same by done. by split_and!. }
  cbn [pipe_read_loop]. rewrite (bind_of_ok _ _ _ _ _ (rd_pipe_ok _ _ _ Hp)).
  pose proof (pr_count _ _ Hr) as Hc. destruct l as [|v l].
  { rewrite Hc. simpl. exists b. rewrite with_pipe_same by done. by split_and!. }
  simpl in Hc. destruct (Z.ltb_spec 0 (b_count b)) as [_|?]; [|lia].
  rewrite (pop_step s p b v l Hp Hr). destruct (popped_rep _ _ _ Hr) as [_ Hr'].
  destruct (IH (with_pipe p (popped b) s) (popped b) l (with_pipe_lookup _ _ _) Hr') as (b' & Hrun & Hrep & Hrc & Hls).
  exists b'. rewrite (bind_of_ok _ _ _ _ _ Hrun), with_pipe_twice. by split_and!.
Qed.

(** A listener field holds no task or an existing one. *)
Definition ok_listener s (t : Z) : Prop := t = 0 ∨ is_Some (k_tasks s !! t).

(** The tasks once the listener [t], if any, is woken. *)
Definition wake (t : Z) (m : gmap Z task) : gmap Z task :=
  if t =? 0 then m else wake_one m t.

Lemma wake_states t m : only_states m (wake t m).
Proof.
  unfold wake. destruct (t =? 0); [apply only_states_refl|]. unfold wake_one.
  destruct (m !! t) eqn:E; [|apply only_states_refl]. case_decide; [|apply only_states_refl].
  by apply only_states_set; [apply only_states_refl|].
Qed.

Lemma owner_kept m m' x tk : only_states m m' → m !! x = Some tk →
  ∃ tk', m' !! x = Some tk' ∧ t_owner tk' = t_owner tk.
Proof.
  intros [Hd Hs] Hx. destruct (proj2 (Hd x) ltac:(by eexists)) as [tk' Hx']. exists tk'. split; [done|].
  specialize (Hs x tk tk' Hx Hx'). by apply (f_equal t_owner) in Hs.
Qed.

Lemma pipe_write_ok s p b l data len : k_pipes s !! p = Some b → pipe_rep b l →
  Z.of_nat (length data) = len → ok_listener s (b_listener b) →
  ∃ b', pipe_write p data len s
        = Ok (tt, with_pipe p b' (set_k_tasks (wake (b_listener b) (k_tasks s)) s)) ∧
        pipe_rep b' (l ++ accepted l data) ∧ b_ref_count b' = b_ref_count b ∧ b_listener b' = 0.
Proof.
  intros Hp Hr Hlen Hok. destruct (write_loop_ok p (Z.to_nat len) data s b l Hp Hr ltac:(lia)) as (b1 & Hrun & Hrep & Hrc & Hls).
  rewrite firstn_all2 in Hrep by lia.
  unfold pipe_write. rewrite (bind_of_ok _ _ _ _ _ Hrun), (bind_of_ok _ _ _ _ _ (rd_pipe_ok _ _ _ (with_pipe_lookup _ _ _))).
  rewrite Hls. unfold wake, truthy, when. destruct Hok as [H0|Ht].
  - rewrite H0 in *. simpl. exists b1. split; [|by split_and!]. by destruct s.
  - destruct (Z.eqb_spec (b_listener b) 0) as [E|E]; simpl.
    { exists b1. split; [by destruct s|]. split_and!; congruence. }
    rewrite (bind_of_ok _ _ _ _ _ (task_set_ready_ok (with_pipe p b1 s) _ Ht)).
    rewrite (wr_pipe_ok _ _ b1) by apply lookup_insert_eq. exists (set_b_listener 0 b1). split.
    + unfold with_pipe. destruct s; simpl. kflat. by rewrite insert_insert_eq.
    + split_and!; [|done|done]. destruct Hrep. by split.
Qed.

(** ** Channels deliver in order *)

(** Task [t]'s process is end [side] of the channel [ch], by its handle [h]. *)
Record endpoint s (t h ch : Z) (c : channel) (side : bool) : Prop := {
  ep_h : 0 ≤ h < MAX_HANDLES;
  ep_ch : ch ≠ 0;
  ep_proc : ∃ tk pr ty, k_tasks s !! t = Some tk ∧ k_procs s !! t_owner tk = Some pr ∧
              p_handles pr !! Z.to_nat h = Some (mkHandle ty ch) ∧ ty ≠ HANDLE_NONE ∧
              p_pid pr = (if side then c_pid1 c else c_pid0 c)
}.

(** The pipe that end [side] writes, whether that end is closed, and the task that waits at it. *)
Definition out_pipe (side : bool) (c : channel) : Z := if side then c_pipe1 c else c_pipe0 c.
Definition closed (side : bool) (c : channel) : bool := if side then c_closed1 c else c_closed0 c.
Definition waiting (side : bool) (c : channel) : Z := if side then c_listener1 c else c_listener0 c.
Definition no_waiting (side : bool) (c : channel) : channel :=
  if side then set_c_listener1 0 c else set_c_listener0 0 c.

Lemma rd_chan_ok s p b : k_chans s !! p = Some b → rd_chan p s = Ok (b, s).
Proof. intros Hp. unfold rd_chan, at_ptr. by rewrite Hp. Qed.
Lemma wr_chan_ok s p b f : k_chans s !! p = Some b →
  wr_chan p f s = Ok (tt, set_k_chans (<[p := f b]> (k_chans s)) s).
Proof. intros Hp. unfold wr_chan, upd_ptr. by rewrite Hp. Qed.
Lemma rd_proc_ok s p b : k_procs s !! p = Some b → rd_proc p s = Ok (b, s).
Proof. intros Hp. unfold rd_proc, at_ptr. by rewrite Hp. Qed.
Lemma wr_proc_ok s p b f : k_procs s !! p = Some b →
  wr_proc p f s = Ok (tt, set_k_procs (<[p := f b]> (k_procs s)) s).
Proof. intros Hp. unfold wr_proc, upd_ptr. by rewrite Hp. Qed.

Lemma handle_get_ok s p pr h e : k_procs s !! p = Some pr → 0 ≤ h < MAX_HANDLES →
  p_handles pr !! Z.to_nat h = Some e → h_type e ≠ HANDLE_NONE → handle_get p h s = Ok (Some e, s).
Proof.
  intros Hp Hh He Hty. unfold handle_get.
  destruct (Z.ltb_spec h 0); [lia|]. destruct (Z.leb_spec MAX_HANDLES h); [lia|]. simpl.
  rewrite (bind_of_ok _ _ _ _ _ (rd_proc_ok _ _ _ Hp)), He. simpl.
  rewrite (bind_of_ok _ _ _ e s) by done. by rewrite decide_False.
Qed.

Lemma wake_listener_ok s ch c side : k_chans s !! ch = Some c → ok_listener s (waiting side c) →
  (if side then wake_listener1 ch else wake_listener0 ch) s
  = Ok (tt, set_k_chans (<[ch := no_waiting side c]> (k_chans s)) (set_k_tasks (wake (waiting side c) (k_tasks s)) s)).
Proof.
  intros Hc Hok.
  assert (waiting side c = 0 → set_k_chans (<[ch := no_waiting side c]> (k_chans s)) (set_k_tasks (k_tasks s) s) = s) as Hid.
  { intros E. assert (no_waiting side c = c) as -> by (destruct side, c; unfold waiting in E; simpl in *; by rewrite E).
    rewrite insert_id by done. by destruct s. }
  unfold wake. destruct (Z.eqb_spec (waiting side c) 0) as [E|E].
  - rewrite (Hid E). destruct side; unfold wake_listener1, wake_listener0;
      rewrite (bind_of_ok _ _ _ _ _ (rd_chan_ok _ _ _ Hc)); unfold waiting in E; by rewrite E.
  - destruct Hok as [?|Ht]; [done|]. destruct side; unfold wake_listener1, wake_listener0, waiting, no_waiting in *;
      rewrite (bind_of_ok _ _ _ _ _ (rd_chan_ok _ _ _ Hc)); unfold truthy, when; rewrite (proj2 (Z.eqb_neq _ _) E); simpl;
      rewrite (bind_of_ok _ _ _ _ _ (task_set_ready_ok s _ Ht)); by rewrite (wr_chan_ok _ _ c).
Qed.

Lemma endpoint_transport s s' t h ch c c' side : endpoint s t h ch c side →
  only_states (k_tasks s) (k_tasks s') → k_procs s' = k_procs s →
  c_pid0 c' = c_pid0 c → c_pid1 c' = c_pid1 c → endpoint s' t h ch c' side.
Proof.
  intros [H1 H2 (tk & pr & ty & Ht & Hp & Hh & Hty & Hpid)] Ho Hpr E0 E1. split; [done..|].
  destruct (owner_kept _ _ _ _ Ho Ht) as (tk' & Ht' & Eo). exists tk', pr, ty.
  split_and!; [done|by rewrite Hpr, Eo|done|done|]. rewrite E0, E1. done.
Qed.

Lemma channel_send_ok s t h ch c side b l data len :
  g_current_task s = t → endpoint s t h ch c side → k_chans s !! ch = Some c → c_pid0 c ≠ c_pid1 c →
  k_pipes s !! out_pipe side c = Some b → pipe_rep b l →
  ok_listener s (b_listener b) → ok_listener s (waiting (negb side) c) →
  Z.of_nat (length data) = len → len < 2 ^ 31 →
  ∃ b', channel_send h data len s
        = Ok (tt, set_k_chans (<[ch := no_waiting (negb side) c]> (k_chans s))
                    (set_k_pipes (<[out_pipe side c := b']> (k_pipes s))
                       (set_k_tasks (wake (waiting (negb side) c) (wake (b_listener b) (k_tasks s))) s))) ∧
        pipe_rep b' (l ++ accepted l data) ∧ b_listener b' = 0.
Proof.
  intros Hcur [Hh Hch (tk & pr & ty & Ht & Hp & He & Hty & Hpid)] Hc Hne Hb Hr Hl Hw Hlen Hbig.
  destruct (pipe_write_ok s _ b l data (u32 len) Hb Hr ltac:(rewrite u32_small; lia) Hl) as (b' & Hrun & Hrep & _ & Hb0).
  exists b'. split; [|done]. unfold channel_send.
  rewrite (bind_of_ok _ _ _ t s) by (unfold gets; by rewrite Hcur).
  rewrite (bind_of_ok _ _ _ _ _ (rd_task_ok _ _ _ Ht)), (bind_of_ok _ _ _ _ _ (handle_get_ok _ _ _ _ _ Hp Hh He Hty)). cbn [h_ptr].
  rewrite (proj2 (Z.eqb_neq _ _) Hch), (bind_of_ok _ _ _ _ _ (rd_chan_ok _ _ _ Hc)), (bind_of_ok _ _ _ _ _ (rd_proc_ok _ _ _ Hp)), Hpid.
  set (s1 := with_pipe _ _ _) in Hrun.
  assert (ok_listener s1 (waiting (negb side) c)) as Hw1.
  { destruct Hw as [?|Hw]; [by left|right]. apply (os_dom _ _ (wake_states (b_listener b) (k_tasks s))), Hw. }
  pose proof (wake_listener_ok s1 ch c (negb side) Hc Hw1) as Hwake.
  destruct side; cbn [negb out_pipe] in *.
  - rewrite (proj2 (Z.eqb_neq _ _) Hne), Z.eqb_refl, (bind_of_ok _ _ _ _ _ Hrun), Hwake. by destruct s.
  - rewrite Z.eqb_refl, (bind_of_ok _ _ _ _ _ Hrun), Hwake. by destruct s.
Qed.

Lemma channel_recv_ok s t h ch c side b l len :
  g_current_task s = t → endpoint s t h ch c side → k_chans s !! ch = Some c → c_pid0 c ≠ c_pid1 c →
  k_pipes s !! out_pipe (negb side) c = Some b → pipe_rep b l →
  closed (negb side) c = false → 0 ≤ len < 2 ^ 31 →
  ∃ b', channel_recv h len s
        = Ok ((Z.of_nat (length (take (Z.to_nat len) l)), take (Z.to_nat len) l),
              set_k_pipes (<[out_pipe (negb side) c := b']> (k_pipes s)) s) ∧
        pipe_rep b' (drop (Z.to_nat len) l).
Proof.
  intros Hcur [Hh Hch (tk & pr & ty & Ht & Hp & He & Hty & Hpid)] Hc Hne Hb Hr Hcl Hbig.
  destruct (read_loop_ok (out_pipe (negb side) c) (Z.to_nat len) s b l Hb Hr) as (b' & Hrun & Hrep & _ & _).
  exists b'. split; [|done]. unfold channel_recv.
  rewrite (bind_of_ok _ _ _ t s) by (unfold gets; by rewrite Hcur).
  rewrite (bind_of_ok _ _ _ _ _ (rd_task_ok _ _ _ Ht)), (bind_of_ok _ _ _ _ _ (handle_get_ok _ _ _ _ _ Hp Hh He Hty)). cbn [h_ptr].
  rewrite (proj2 (Z.eqb_neq _ _) Hch), (bind_of_ok _ _ _ _ _ (rd_chan_ok _ _ _ Hc)), (bind_of_ok _ _ _ _ _ (rd_proc_ok _ _ _ Hp)), Hpid.
  unfold pipe_read. rewrite u32_small by lia.
  destruct side; cbn [negb out_pipe closed] in *.
  - rewrite (proj2 (Z.eqb_neq _ _) Hne), Z.eqb_refl, Hcl, (bind_of_ok _ _ _ _ _ Hrun). done.
  - rewrite Z.eqb_refl, Hcl, (bind_of_ok _ _ _ _ _ Hrun). done.
Qed.
End transfer.

(** ** Handle tables *)

Section tables.
Context {A : Type} {AL : Alloc A}.
Implicit Types s : kstate A.

(** The process record with handle slot [i] set. *)
Definition with_handle (p : Z) (pr : process) (i : Z) (e : handle_entry) s : kstate A :=
  set_k_procs (<[p := set_p_handles (<[Z.to_nat i := e]> (p_handles pr)) pr]> (k_procs s)) s.

Definition free_slot (pr : process) (i : Z) : Prop :=
  ∃ e, p_handles pr !! Z.to_nat i = Some e ∧ h_type e = HANDLE_NONE.

Lemma alloc_loop_ok s p pr ty ptr n : ∀ i, k_procs s !! p = Some pr → 0 ≤ i →
  Z.of_nat (length (p_handles pr)) = i + Z.of_nat n → (∀ j, 0 ≤ j < i → ¬ free_slot pr j) →
  (∃ k, i ≤ k < i + Z.of_nat n ∧ free_slot pr k ∧ (∀ j, 0 ≤ j < k → ¬ free_slot pr j) ∧
     handle_alloc_loop p ty ptr n i s = Ok (k, with_handle p pr k (mkHandle ty ptr) s)) ∨
  ((∀ j, 0 ≤ j < i + Z.of_nat n → ¬ free_slot pr j) ∧ handle_alloc_loop p ty ptr n i s = Ok (-1, s)).
Proof.
  induction n as [|n IH]; intros i Hp Hi Hlen Hfree.
  { right. split; [|done]. intros j Hj. apply Hfree. lia. }
  cbn [handle_alloc_loop]. rewrite (bind_of_ok _ _ _ _ _ (rd_proc_ok _ _ _ Hp)).
  destruct (lookup_lt_is_Some_2 (p_handles pr) (Z.to_nat i) ltac:(lia)) as [e He].
  rewrite He. cbn [of_option]. rewrite (bind_of_ok _ _ _ e s) by done.
  case_decide as Hty.
  - left. exists i. split; [lia|]. split; [by exists e|]. split; [done|].
    by rewrite (bind_of_ok _ _ _ _ _ (wr_proc_ok _ _ _ _ Hp)).
  - assert (∀ j, 0 ≤ j < i + 1 → ¬ free_slot pr j) as Hfree'.
    { intros j Hj. destruct (decide (j = i)) as [->|]; [|apply Hfree; lia]. intros (e' & He' & ?). congruence. }
    destruct (IH (i + 1) Hp ltac:(lia) ltac:(lia) Hfree') as [(k & Hk & H1 & H2 & H3)|[H1 H2]].
    + left. exists k. split; [lia|]. done.
    + right. split; [|done]. intros j Hj. apply H1. lia.
Qed.

Lemma handle_alloc_ok s p pr ty ptr : k_procs s !! p = Some pr → Z.of_nat (length (p_handles pr)) = MAX_HANDLES →
  (∃ k, 0 ≤ k < MAX_HANDLES ∧ free_slot pr k ∧ (∀ j, 0 ≤ j < k → ¬ free_slot pr j) ∧
     handle_alloc p ty ptr s = Ok (k, with_handle p pr k (mkHandle ty ptr) s)) ∨
  ((∀ j, 0 ≤ j < MAX_HANDLES → ¬ free_slot pr j) ∧ handle_alloc p ty ptr s = Ok (-1, s)).
Proof. intros Hp Hl. apply (alloc_loop_ok s p pr ty ptr 128 0 Hp); [lia|done|]. intros. lia. Qed.

Lemma handle_get_none s p pr h : k_procs s !! p = Some pr → Z.of_nat (length (p_handles pr)) = MAX_HANDLES →
  free_slot pr h → handle_get p h s = Ok (None, s).
Proof.
  intros Hp Hl (e & He & Hty). unfold handle_get. destruct ((h <? 0) || (MAX_HANDLES <=? h)); [done|].
  rewrite (bind_of_ok _ _ _ _ _ (rd_proc_ok _ _ _ Hp)), He. cbn [of_option]. rewrite (bind_of_ok _ _ _ e s) by done.
  by rewrite decide_True.
Qed.

(** What [handle_get] answers, from the table. *)
Definition slot_of (pr : process) (h : Z) : option handle_entry :=
  if (h <? 0) || (MAX_HANDLES <=? h) then None
  else match p_handles pr !! Z.to_nat h with
       | Some e => if decide (h_type e = HANDLE_NONE) then None else Some e
       | None => None
       end.

Lemma handle_get_slot s p pr h : k_procs s !! p = Some pr → Z.of_nat (length (p_handles pr)) = MAX_HANDLES →
  handle_get p h s = Ok (slot_of pr h, s).
Proof.
  intros Hp Hl. unfold handle_get, slot_of.
  destruct (Z.ltb_spec h 0); [done|]. destruct (Z.leb_spec MAX_HANDLES h); [done|]. simpl.
  rewrite (bind_of_ok _ _ _ _ _ (rd_proc_ok _ _ _ Hp)).
  destruct (lookup_lt_is_Some_2 (p_handles pr) (Z.to_nat h) ltac:(lia)) as [e He]. rewrite He. cbn [of_option].
  rewrite (bind_of_ok _ _ _ e s) by done. by case_decide.
Qed.

(** [handle_alloc] returns the lowest free slot of the process's table, after
    which [handle_get] finds the entry under that handle and everything else as
    before; when the 128 slots are taken it returns -1 and changes nothing. *)
Theorem handle_alloc_correct s p pr ty ptr :
  k_procs s !! p = Some pr → Z.of_nat (length (p_handles pr)) = MAX_HANDLES → ty ≠ HANDLE_NONE →
  (∃ k s', handle_alloc p ty ptr s = Ok (k, s') ∧ 0 ≤ k < MAX_HANDLES ∧
     handle_get p k s = Ok (None, s) ∧ (∀ j, 0 ≤ j < k → ∃ e, handle_get p j s = Ok (Some e, s)) ∧
     handle_get p k s' = Ok (Some (mkHandle ty ptr), s') ∧
     (∀ h e, h ≠ k → handle_get p h s = Ok (e, s) → handle_get p h s' = Ok (e, s')) ∧
     (∀ q, q ≠ p → k_procs s' !! q = k_procs s !! q)) ∨
  (handle_alloc p ty ptr s = Ok (-1, s) ∧ ∀ j, 0 ≤ j < MAX_HANDLES → ∃ e, handle_get p j s = Ok (Some e, s)).
Proof.
  intros Hp Hl Hty.
  assert (∀ j, 0 ≤ j < MAX_HANDLES → ¬ free_slot pr j → ∃ e, handle_get p j s = Ok (Some e, s)) as Hused.
  { intros j Hj Hn. destruct (lookup_lt_is_Some_2 (p_handles pr) (Z.to_nat j) ltac:(lia)) as [e He]. exists e.
    apply (handle_get_ok s p pr); try done. intros E. apply Hn. by exists e. }
  destruct (handle_alloc_ok s p pr ty ptr Hp Hl) as [(k & Hk & Hf & Hlow & Hrun)|[Hfull Hrun]]; [left|right].
  2:{ split; [done|]. intros j Hj. apply Hused; [done|by apply Hfull]. }
  set (pr' := set_p_handles (<[Z.to_nat k := mkHandle ty ptr]> (p_handles pr)) pr).
  assert (k_procs (with_handle p pr k (mkHandle ty ptr) s) !! p = Some pr') as Hp' by apply lookup_insert_eq.
  assert (Z.of_nat (length (p_handles pr')) = MAX_HANDLES) as Hl' by (cbn; by rewrite length_insert).
  exists k, (with_handle p pr k (mkHandle ty ptr) s). split; [done|]. split; [done|].
  split; [by apply (handle_get_none s p pr)|]. split; [intros j Hj; apply Hused; [lia|by apply Hlow]|].
  split; [|split].
  - apply (handle_get_ok _ p pr'); [done|done| |done]. cbn. apply list_lookup_insert_eq. lia.
  - intros h e Hne. rewrite (handle_get_slot s p pr h Hp Hl), (handle_get_slot _ p pr' h Hp' Hl'). intros [= <-].
    do 2 f_equal. unfold slot_of. destruct (Z.ltb_spec h 0); [done|]. simpl. destruct (_ <=? _); [done|].
    by rewrite list_lookup_insert_ne by lia.
  - intros q Hq. by apply lookup_insert_ne.
Qed.
End tables.

(** ** Servers: connect and accept *)

Section servers.
Context {A : Type} {AL : Alloc A}.
Implicit Types s : kstate A.

(** The pending connections of a server, oldest first. *)
Record server_rep (sv : server) (l : list Z) : Prop := {
  sr_cap : Z.of_nat (length (sv_incoming sv)) = MAX_PENDING;
  sr_head : 0 ≤ sv_head sv < MAX_PENDING;
  sr_len : Z.of_nat (length l) ≤ MAX_PENDING;
  sr_count : sv_count sv = Z.of_nat (length l);
  sr_tail : sv_tail sv = (sv_head sv + Z.of_nat (length l)) mod MAX_PENDING;
  sr_holds : holds MAX_PENDING (sv_incoming sv) (sv_head sv) l
}.

Definition with_server (i : Z) (sv : server) s : kstate A :=
  set_k_servers (<[Z.to_nat i := sv]> (k_servers s)) s.

Lemma rd_server_ok s i sv : k_servers s !! Z.to_nat i = Some sv → rd_server i s = Ok (sv, s).
Proof. intros H. unfold rd_server. rewrite (bind_of_ok _ _ _ (k_servers s) s) by done. by rewrite H. Qed.
Lemma wr_server_ok s i sv f : k_servers s !! Z.to_nat i = Some sv → wr_server i f s = Ok (tt, with_server i (f sv) s).
Proof. intros H. unfold wr_server. by rewrite (bind_of_ok _ _ _ _ _ (rd_server_ok _ _ _ H)). Qed.
Lemma with_server_lookup s i sv sv' : k_servers s !! Z.to_nat i = Some sv →
  k_servers (with_server i sv' s) !! Z.to_nat i = Some sv'.
Proof. intros H. apply list_lookup_insert_eq. by eapply lookup_lt_Some. Qed.
Lemma with_server_twice s i sv sv' : with_server i sv' (with_server i sv s) = with_server i sv' s.
Proof. unfold with_server. cbn. by rewrite list_insert_insert_eq. Qed.

Lemma find_server_loop_ok s hash n : ∀ i j sv, 0 ≤ i → i ≤ j < i + Z.of_nat n → (Z.to_nat i + n ≤ length (k_servers s))%nat →
  k_servers s !! Z.to_nat j = Some sv → sv_identifier sv = hash →
  (∀ k sv, i ≤ k < j → k_servers s !! Z.to_nat k = Some sv → sv_identifier sv ≠ hash) →
  find_server_loop hash n i s = Ok (Some j, s).
Proof.
  induction n as [|n IH]; intros i j sv Hi Hj Hlen Hsv Hid Hbefore; [lia|]. cbn [find_server_loop].
  destruct (lookup_lt_is_Some_2 (k_servers s) (Z.to_nat i) ltac:(lia)) as [sv' Hsv'].
  rewrite (bind_of_ok _ _ _ _ _ (rd_server_ok _ _ _ Hsv')). destruct (Z.eqb_spec (sv_identifier sv') hash) as [E|E].
  - destruct (decide (i = j)) as [->|]; [done|]. by destruct (Hbefore i sv' ltac:(lia) Hsv').
  - assert (i ≠ j) by (intros ->; congruence). apply (IH (i + 1) j sv); try done; try lia. intros k sv0 Hk. apply Hbefore. lia.
Qed.

Lemma server_enqueue_ok s i sv l ch : k_servers s !! Z.to_nat i = Some sv → server_rep sv l →
  Z.of_nat (length l) < MAX_PENDING →
  ∃ sv', enqueue_incomming i ch s = Ok (tt, with_server i sv' s) ∧ server_rep sv' (l ++ [ch]) ∧
         sv_identifier sv' = sv_identifier sv ∧ sv_listener sv' = sv_listener sv.
Proof.
  intros Hs [H1 H2 H3 H4 H5 H6] Hl. unfold MAX_PENDING in *. unfold enqueue_incomming.
  rewrite (bind_of_ok _ _ _ _ _ (rd_server_ok _ _ _ Hs)). unfold MAX_PENDING. rewrite (proj2 (Z.eqb_neq _ _)) by lia.
  assert (0 ≤ sv_tail sv < 16) as Ht by (rewrite H5; apply Z.mod_pos_bound; lia).
  destruct (lookup_lt_is_Some_2 (sv_incoming sv) (Z.to_nat (sv_tail sv)) ltac:(lia)) as [x Hx]. rewrite Hx. cbn [of_option].
  rewrite (bind_of_ok _ _ _ x s) by done.
  rewrite (bind_of_ok _ _ _ _ _ (wr_server_ok _ _ _ _ Hs)).
  rewrite (bind_of_ok _ _ _ _ _ (wr_server_ok _ _ _ _ (with_server_lookup _ _ _ _ Hs))), with_server_twice.
  rewrite (wr_server_ok _ _ _ _ (with_server_lookup _ _ _ _ Hs)), with_server_twice.
  eexists. split; [reflexivity|]. split; [|by destruct sv]. destruct sv; cbn in *. split; unfold MAX_PENDING; cbn.
  - by rewrite length_insert.
  - done.
  - rewrite length_app. cbn. lia.
  - rewrite length_app. cbn. lia.
  - rewrite H5, Zplus_mod_idemp_l, length_app. cbn. f_equal. lia.
  - rewrite H5. by apply holds_push.
Qed.

Lemma server_dequeue_ok s i sv ch l : k_servers s !! Z.to_nat i = Some sv → server_rep sv (ch :: l) →
  ∃ sv', dequeue_incomming i s = Ok (ch, with_server i sv' s) ∧ server_rep sv' l ∧
         sv_identifier sv' = sv_identifier sv ∧ sv_listener sv' = sv_listener sv.
Proof.
  intros Hs [H1 H2 H3 H4 H5 H6]. unfold MAX_PENDING in *. destruct (holds_pop _ _ _ _ _ H6 H2) as [Hv Hh].
  unfold dequeue_incomming. rewrite (bind_of_ok _ _ _ _ _ (rd_server_ok _ _ _ Hs)). cbn [length] in *.
  rewrite (proj2 (Z.eqb_neq _ _)), Hv by lia. cbn [of_option]. rewrite (bind_of_ok _ _ _ ch s) by done.
  rewrite (bind_of_ok _ _ _ _ _ (wr_server_ok _ _ _ _ Hs)).
  rewrite (bind_of_ok _ _ _ _ _ (wr_server_ok _ _ _ _ (with_server_lookup _ _ _ _ Hs))), with_server_twice.
  eexists. split; [reflexivity|]. split; [|by destruct sv]. destruct sv; cbn in *. split; unfold MAX_PENDING; cbn.
  - done.
  - apply Z.mod_pos_bound. lia.
  - lia.
  - lia.
  - rewrite H5, Zplus_mod_idemp_l. f_equal. lia.
  - done.
Qed.

Lemma pipe_create_ok {LL : AllocLaws A} s L g : al_live (k_alloc s) L →
  wp (pipe_create g) (λ p s', ∃ a w, s' = with_pipe p (mkPipe g 0 0 0 1 0) (set_k_alloc a s) ∧ p ≠ 0 ∧
    L !! p = None ∧ al_live a (<[p := w]> L)) (λ _, True) s.
Proof.
  intros Hl. unfold pipe_create. apply wp_bind. unfold on_alloc. apply wp_zoom.
  eapply wp_mono; [by apply (al_malloc_ok _ _ sizeof_pipe Hl)| |done].
  intros p a (w & _ & Hp & _ & _ & Hn & Hl'). rewrite (proj2 (Z.eqb_neq _ _)) by lia.
  apply wp_bind. unfold wp, modify, mret, M_ret. exists a, w. split_and!; [by destruct s|lia|done|done].
Qed.
End servers.

Section connect.
Context {A : Type} {AL : Alloc A} {LL : AllocLaws A}.
Implicit Types s : kstate A.

(** The server registered under an identifier: the first with its hash. *)
Definition registered s (identifier : list Z) (i : Z) (sv : server) : Prop :=
  0 ≤ i < MAX_SERVERS ∧ length (k_servers s) = Z.to_nat MAX_SERVERS ∧
  k_servers s !! Z.to_nat i = Some sv ∧ sv_identifier sv = hash64 identifier ∧
  (∀ k sv', 0 ≤ k < i → k_servers s !! Z.to_nat k = Some sv' → sv_identifier sv' ≠ hash64 identifier).

Lemma find_server_ok s identifier i sv : registered s identifier i sv →
  find_server identifier s = Ok (Some i, s).
Proof.
  intros (H1 & H2 & H3 & H4 & H5). apply (find_server_loop_ok s _ _ 0 i sv); try done; unfold MAX_SERVERS in *; lia.
Qed.

(** Waking the task that waits for a connection. *)
Lemma wake_server_ok s i sv : k_servers s !! Z.to_nat i = Some sv → ok_listener s (sv_listener sv) →
  when (truthy (sv_listener sv)) (task_set_ready (sv_listener sv) ;; wr_server i (set_sv_listener 0)) s
  = Ok (tt, with_server i (set_sv_listener 0 sv) (set_k_tasks (wake (sv_listener sv) (k_tasks s)) s)).
Proof.
  intros Hs Hok. unfold wake, truthy, when. destruct (Z.eqb_spec (sv_listener sv) 0) as [E|E]; simpl.
  - assert (set_sv_listener 0 sv = sv) as -> by (destruct sv; simpl in *; by rewrite E).
    unfold with_server. cbn. rewrite list_insert_id by done. by destruct s.
  - destruct Hok as [?|Ht]; [done|]. rewrite (bind_of_ok _ _ _ _ _ (task_set_ready_ok s _ Ht)).
    by rewrite (wr_server_ok _ _ sv).
Qed.

Lemma fresh_pipe_rep g : Z.of_nat (length g) = PIPE_BUF_SIZE → pipe_rep (mkPipe g 0 0 0 1 0) [].
Proof. intros Hg. split; unfold PIPE_BUF_SIZE in *; cbn; done. Qed.

(** [ipc_connect] to a registered server with room in its queue: a new channel
    between the caller and nobody yet, with two empty pipes, becomes the last of
    the server's pending connections, the task waiting in [ipc_accept] is woken,
    and the caller gets a handle to the channel. *)
Theorem ipc_connect_correct s L g identifier i sv l t tk pr :
  al_live (k_alloc s) L → Z.of_nat (length g) = PIPE_BUF_SIZE →
  registered s identifier i sv → server_rep sv l → Z.of_nat (length l) < MAX_PENDING →
  ok_listener s (sv_listener sv) →
  g_current_task s = t → k_tasks s !! t = Some tk → k_procs s !! t_owner tk = Some pr →
  Z.of_nat (length (p_handles pr)) = MAX_HANDLES → (∃ h, 0 ≤ h < MAX_HANDLES ∧ free_slot pr h) →
  wp (ipc_connect g identifier) (λ k s', ∃ ch c sv' b0 b1,
      c_pid0 c = p_pid pr ∧ c_pid1 c = 0 ∧ closed false c = false ∧ closed true c = false ∧
      L !! ch = None ∧ k_chans s' = <[ch := c]> (k_chans s) ∧
      c_pipe0 c ≠ c_pipe1 c ∧ k_pipes s' !! c_pipe0 c = Some b0 ∧ k_pipes s' !! c_pipe1 c = Some b1 ∧
      pipe_rep b0 [] ∧ pipe_rep b1 [] ∧
      k_servers s' = <[Z.to_nat i := sv']> (k_servers s) ∧ server_rep sv' (l ++ [ch]) ∧ sv_listener sv' = 0 ∧
      k_tasks s' = wake (sv_listener sv) (k_tasks s) ∧ endpoint s' t k ch c false)
    (λ _, True) s.
Proof.
  intros Hl Hg Hreg Hrep Hroom Hok Hcur Ht Hp Hlen Hslot. destruct Hreg as (Hi & Hreg').
  unfold ipc_connect. eapply wp_bind, wp_ok; [by apply (find_server_ok s identifier i sv)|]. cbv beta iota.
  destruct Hreg' as (Hn & Hsv & Hid & _).
  eapply wp_bind, wp_ok; [reflexivity|]. rewrite Hcur. eapply wp_bind, wp_ok; [by apply rd_task_ok|]. cbv beta zeta.
  apply wp_bind, wp_zoom. eapply wp_mono; [by apply (al_malloc_ok _ _ sizeof_channel Hl)| |done].
  intros ch a0 (w0 & _ & Hch & _ & _ & Hc0 & Hl0). eapply wp_bind, wp_ok; [by apply (rd_proc_ok _ _ pr)|]. cbv beta.
  apply wp_bind. eapply wp_mono; [by apply (pipe_create_ok (set_k_alloc a0 s) _ g Hl0)| |done]. intros p0 s0 (a1 & w1 & -> & Hp0 & Hf0 & Hl1).
  apply wp_bind. eapply wp_mono; [by apply (pipe_create_ok (with_pipe p0 (mkPipe g 0 0 0 1 0) (set_k_alloc a1 (set_k_alloc a0 s))) _ g Hl1)| |done]. intros p1 s1 (a2 & w2 & -> & Hp1 & Hf1 & Hl2).
  apply lookup_insert_None in Hf1 as [Hf1 Hne]. eapply wp_bind, wp_ok; [reflexivity|]. cbv beta.
  match goal with |- wp _ _ _ ?x => set (s1 := x) end.
  destruct (server_enqueue_ok s1 i sv l ch Hsv Hrep Hroom) as (sv' & Henq & Hrep' & _ & Hlis).
  eapply wp_bind, wp_ok; [exact Henq|]. cbv beta.
  pose proof (with_server_lookup s1 i sv sv' Hsv) as Hsv'.
  eapply wp_bind, wp_ok; [by apply rd_server_ok|]. cbv beta.
  eapply wp_bind, wp_ok; [apply wake_server_ok; [done|by rewrite Hlis]|]. cbv beta.
  match goal with |- wp _ _ _ ?x => set (s2 := x) end.
  destruct (owner_kept _ _ _ _ (wake_states (sv_listener sv) (k_tasks s)) Ht) as (tk' & Ht' & Eo).
  destruct (handle_alloc_ok s2 (t_owner tk) pr HANDLE_CHANNEL ch Hp Hlen) as [(k & Hk & _ & _ & Hrun)|[Hfull _]].
  2:{ destruct Hslot as (h & Hh & Hfree). by destruct (Hfull h Hh). }
  eapply wp_ok; [exact Hrun|].
  eexists ch, _, (set_sv_listener 0 sv'), _, _. split_and!; cycle 5.
  - reflexivity.
  - cbn. by apply not_eq_sym.
  - cbn. rewrite lookup_insert_ne by done. apply lookup_insert_eq.
  - cbn. apply lookup_insert_eq.
  - by apply fresh_pipe_rep.
  - by apply fresh_pipe_rep.
  - cbn. by rewrite list_insert_insert_eq.
  - by destruct Hrep'; split.
  - done.
  - cbn. by rewrite Hlis.
  - split; [done|lia|]. exists tk'. eexists _, HANDLE_CHANNEL. cbn. rewrite Hlis. split_and!; [exact Ht'|rewrite Eo; apply lookup_insert_eq| |discriminate|reflexivity].
    cbn. apply list_lookup_insert_eq. unfold MAX_HANDLES in *. lia.
  - done.
  - done.
  - done.
  - done.
  - done.
Qed.
End connect.

(** ** Properties *)

Section properties.
Context {A : Type} {AL : Alloc A}.
Implicit Types s : kstate A.

(** A pipe is a bounded FIFO queue of bytes. A write appends what fits in the
    4096 bytes, in order, drops the rest, and wakes and forgets the listener; a
    read takes up to [max_len] bytes from the front; neither touches another
    object. *)
Theorem pipe_fifo s p b l :
  k_pipes s !! p = Some b → pipe_rep b l → ok_listener s (b_listener b) →
  (∀ data, ∃ b', pipe_write p data (Z.of_nat (length data)) s
      = Ok (tt, with_pipe p b' (set_k_tasks (wake (b_listener b) (k_tasks s)) s)) ∧
    pipe_rep b' (l ++ accepted l data) ∧ b_listener b' = 0) ∧
  (∀ max_len, 0 ≤ max_len → ∃ b', pipe_read p max_len s = Ok (take (Z.to_nat max_len) l, with_pipe p b' s) ∧
    pipe_rep b' (drop (Z.to_nat max_len) l) ∧ b_listener b' = b_listener b) ∧
  pipe_available p s = Ok (Z.of_nat (length l), s).
Proof.
  intros Hp Hr Hok. split_and!.
  - intros data. destruct (pipe_write_ok s p b l data _ Hp Hr eq_refl Hok) as (b' & H1 & H2 & _ & H4). by exists b'.
  - intros n Hn. destruct (read_loop_ok p (Z.to_nat n) s b l Hp Hr) as (b' & H1 & H2 & _ & H4). by exists b'.
  - unfold pipe_available. rewrite (bind_of_ok _ _ _ _ _ (rd_pipe_ok _ _ _ Hp)). by rewrite (pr_count _ _ Hr).
Qed.

(** C10: What one end of a channel sends the other end receives, in order and
    complete as long as it fits: after [channel_send] by the task [t] and a switch
    to [t'], [channel_recv] returns the oldest bytes of the backlog [l] followed
    by [data] and their number. The task waiting for data is woken by the send. *)
Theorem channel_delivers s t h t' h' ch c side b l data max_len :
  endpoint s t h ch c side → endpoint s t' h' ch c (negb side) →
  k_chans s !! ch = Some c → c_pid0 c ≠ c_pid1 c → closed side c = false →
  k_pipes s !! out_pipe side c = Some b → pipe_rep b l →
  ok_listener s (b_listener b) → ok_listener s (waiting (negb side) c) →
  Z.of_nat (length (l ++ data)) ≤ PIPE_BUF_SIZE → 0 ≤ max_len < 2 ^ 31 → g_current_task s = t →
  ∃ s1 s2 b2, channel_send h data (Z.of_nat (length data)) s = Ok (tt, s1) ∧
    k_tasks s1 = wake (waiting (negb side) c) (wake (b_listener b) (k_tasks s)) ∧
    channel_recv h' max_len (set_g_current_task t' s1)
      = Ok ((Z.of_nat (length (take (Z.to_nat max_len) (l ++ data))), take (Z.to_nat max_len) (l ++ data)), s2) ∧
    k_pipes s2 !! out_pipe side c = Some b2 ∧ pipe_rep b2 (drop (Z.to_nat max_len) (l ++ data)).
Proof.
  intros He He' Hc Hne Hcl Hb Hr Hok Hw Hfit Hn Hcur. rewrite length_app in Hfit. unfold PIPE_BUF_SIZE in Hfit.
  destruct (channel_send_ok s t h ch c side b l data _ Hcur He Hc Hne Hb Hr Hok Hw eq_refl ltac:(lia)) as (b1 & Hs & Hr1 & _).
  unfold accepted in Hr1. rewrite room_all in Hr1 by (unfold PIPE_BUF_SIZE; lia).
  eexists _. match type of Hs with _ = Ok (_, ?x) => set (s1 := x) in Hs end.
  assert (k_chans (set_g_current_task t' s1) !! ch = Some (no_waiting (negb side) c)) as Hc1 by apply lookup_insert_eq.
  assert (k_pipes (set_g_current_task t' s1) !! out_pipe side c = Some b1) as Hb1 by apply lookup_insert_eq.
  assert (only_states (k_tasks s) (k_tasks (set_g_current_task t' s1))) as Ho.
  { eapply only_states_trans; apply wake_states. }
  destruct (channel_recv_ok (set_g_current_task t' s1) t' h' ch (no_waiting (negb side) c) (negb side) b1 (l ++ data) max_len)
    as (b2 & Hrecv & Hr2); try done.
  - eapply endpoint_transport; [exact He'|exact Ho|done|by destruct side..].
  - by destruct side.
  - rewrite negb_involutive. destruct side; exact Hb1.
  - rewrite negb_involutive. destruct side; exact Hcl.
  - eexists _, b2. split; [exact Hs|]. split; [done|]. split; [exact Hrecv|].
    split; [|done]. rewrite negb_involutive. destruct side; apply lookup_insert_eq.
Qed.

(** Accepting, blocking or not, takes the oldest pending connection of the
    server: the caller becomes the other end of that channel and gets a handle to
    it, and the client's end is unaffected. *)
Theorem ipc_accept_correct s i sv ch l c t tk pr :
  0 ≤ i < MAX_SERVERS → k_servers s !! Z.to_nat i = Some sv → server_rep sv (ch :: l) →
  ch ≠ 0 → k_chans s !! ch = Some c →
  g_current_task s = t → k_tasks s !! t = Some tk → k_procs s !! t_owner tk = Some pr →
  Z.of_nat (length (p_handles pr)) = MAX_HANDLES → (∃ h, 0 ≤ h < MAX_HANDLES ∧ free_slot pr h) →
  ∃ k s' sv' c', c' = set_c_pid1 (p_pid pr) c ∧
    ipc_accept i s = Ok (Some k, s') ∧ ipc_accept_nb i s = Ok (k, s') ∧ ipc_accept_resume t i s = Ok (k, s') ∧
    k_servers s' = <[Z.to_nat i := sv']> (k_servers s) ∧ server_rep sv' l ∧
    k_chans s' = <[ch := c']> (k_chans s) ∧ endpoint s' t k ch c' true ∧
    (∀ t0 tk0 h0, k_tasks s !! t0 = Some tk0 → t_owner tk0 ≠ t_owner tk →
       endpoint s t0 h0 ch c false → endpoint s' t0 h0 ch c' false).
Proof.
  intros Hi Hsv Hrep Hch Hc Hcur Ht Hp Hlen (h & Hh & Hfree).
  destruct (server_dequeue_ok s i sv ch l Hsv Hrep) as (sv' & Hdq & Hrep' & _).
  set (s1 := with_server i sv' s) in Hdq.
  set (s2 := set_k_chans (<[ch := set_c_pid1 (p_pid pr) c]> (k_chans s1)) s1).
  destruct (handle_alloc_ok s2 (t_owner tk) pr HANDLE_CHANNEL ch Hp Hlen) as [(k & Hk & _ & _ & Hrun)|[Hfull _]];
    [|by destruct (Hfull h Hh)].
  assert (accept_channel (t_owner tk) ch s1 = Ok (k, with_handle (t_owner tk) pr k (mkHandle HANDLE_CHANNEL ch) s2)) as Hacc.
  { unfold accept_channel. rewrite (bind_of_ok _ _ _ _ _ (rd_proc_ok s1 _ _ Hp)).
    by rewrite (bind_of_ok _ _ _ _ _ (wr_chan_ok s1 ch c _ Hc)). }
  assert (get_server i = Some i) as Hget.
  { unfold get_server. destruct (Z.ltb_spec i 0); [lia|]. by destruct (Z.leb_spec MAX_SERVERS i); [lia|]. }
  assert (truthy ch = true) as Htr by (unfold truthy; by rewrite (proj2 (Z.eqb_neq _ _) Hch)).
  exists k, (with_handle (t_owner tk) pr k (mkHandle HANDLE_CHANNEL ch) s2), sv', (set_c_pid1 (p_pid pr) c).
  split; [done|]. split; [|split; [|split; [|split; [done|split; [done|split; [done|split]]]]]].
  - unfold ipc_accept. rewrite (bind_of_ok _ _ _ t s) by (unfold gets; by rewrite Hcur).
    rewrite (bind_of_ok _ _ _ _ _ (rd_task_ok _ _ _ Ht)), Hget, (bind_of_ok _ _ _ _ _ Hdq), Htr.
    by rewrite (bind_of_ok _ _ _ _ _ Hacc).
  - unfold ipc_accept_nb. rewrite Hget, (bind_of_ok _ _ _ _ _ Hdq), Htr.
    rewrite (bind_of_ok _ _ _ t s1) by (unfold gets; by rewrite <- Hcur).
    by rewrite (bind_of_ok _ _ _ _ _ (rd_task_ok s1 _ _ Ht)).
  - unfold ipc_accept_resume. by rewrite (bind_of_ok _ _ _ _ _ (rd_task_ok _ _ _ Ht)), Hget, (bind_of_ok _ _ _ _ _ Hdq), Htr.
  - split; [done|done|]. eexists tk, _, HANDLE_CHANNEL. split_and!; [done|apply lookup_insert_eq| |done|done].
    cbn. apply list_lookup_insert_eq. unfold MAX_HANDLES in *. lia.
  - intros t0 tk0 h0 Ht0 Hne [E1 E2 (tk1 & pr0 & ty & Ht1 & Hp0 & He & Hty & Hpid)]. split; [done|done|].
    exists tk1, pr0, ty. split_and!; [done| |done|done|done]. cbn. rewrite lookup_insert_ne; [done|]. congruence.
Qed.
End properties.

Section servers_start.
Context {A : Type} {AL : Alloc A}.
Implicit Types s : kstate A.

Lemma create_server_ok s n : ∀ i h s', 0 ≤ i → create_server_loop n i s = Ok (h, s') →
  s' = s ∧ (h = -1 ∨ 0 ≤ h < i + Z.of_nat n ∧ ∃ sv, k_servers s !! Z.to_nat h = Some sv ∧ sv_identifier sv = 0).
Proof.
  induction n as [|n IH]; intros i h s' Hi; cbn [create_server_loop]; [by intros [= <- <-]; auto|].
  unfold rd_server. unfold mbind, M_bind, gets. destruct (k_servers s !! Z.to_nat i) as [sv|] eqn:E; [|done]. cbn.
  unfold truthy. destruct (Z.eqb_spec (sv_identifier sv) 0) as [E0|E0]; cbn.
  - intros [= <- <-]. split; [done|right]. split; [lia|]. by exists sv.
  - intros H. destruct (IH (i + 1) h s' ltac:(lia) H) as [-> [?|[? ?]]]; split; auto; right; split; [lia|done].
Qed.

(** A server that has just been registered cannot be waited on: [ipc_server]
    stores its caller as the listener, so the first [ipc_accept] on the handle,
    with no connection pending, returns -1 at once instead of blocking. *)
Theorem ipc_accept_after_server s identifier h s' :
  ipc_server identifier s = Ok (h, s') → h ≠ -1 →
  (∀ sv, sv ∈ k_servers s → sv_identifier sv = 0 → sv_count sv = 0) →
  g_current_task s ≠ 0 → is_Some (k_tasks s !! g_current_task s) →
  ipc_accept h s' = Ok (Some (-1), s').
Proof.
  intros Hrun Hh Hclean Hcur [tk Ht]. revert Hrun. unfold ipc_server.
  unfold mbind at 1, M_bind at 1. destruct (find_server identifier s) as [[[?|] s0]| | |] eqn:Ef; try done; [by intros [= <- _]|].
  assert (s0 = s) as ->.
  { revert Ef. unfold find_server. generalize (Z.to_nat MAX_SERVERS) 0. intros n. induction n as [|n IH]; intros z; cbn; [by intros [= <-]|].
    unfold rd_server, mbind, M_bind, gets. destruct (k_servers s !! _); [|done]. cbn. destruct (_ =? _); [done|apply IH]. }
  unfold mbind at 1, M_bind at 1. destruct (create_server s) as [[h1 s1]| | |] eqn:Ec; try done.
  destruct (create_server_ok s _ _ _ _ (Z.le_refl 0) Ec) as [-> [->|[Hb (sv & Hsv & Hid)]]]; [by intros [= <- _]|].
  destruct (Z.eqb_spec h1 (-1)); [by intros [= <- _]|].
  rewrite (bind_of_ok _ _ _ (g_current_task s) s) by done.
  rewrite (bind_of_ok _ _ _ _ _ (wr_server_ok _ _ _ _ Hsv)).
  rewrite (bind_of_ok _ _ _ _ _ (wr_server_ok _ _ _ _ (with_server_lookup _ _ _ _ Hsv))), with_server_twice. intros [= <- <-].
  set (sv1 := set_sv_listener _ _). pose proof (with_server_lookup s h1 sv sv1 Hsv) as Hsv1.
  unfold ipc_accept. rewrite (bind_of_ok _ _ _ (g_current_task s) (with_server h1 sv1 s)) by done.
  rewrite (bind_of_ok _ _ _ _ _ (rd_task_ok (with_server h1 sv1 s) _ _ Ht)).
  assert (get_server h1 = Some h1) as ->.
  { unfold get_server. destruct (Z.ltb_spec h1 0); [lia|]. unfold MAX_SERVERS in *. by destruct (Z.leb_spec 32 h1); [lia|]. }
  assert (dequeue_incomming h1 (with_server h1 sv1 s) = Ok (0, with_server h1 sv1 s)) as Hdq.
  { unfold dequeue_incomming. rewrite (bind_of_ok _ _ _ _ _ (rd_server_ok _ _ _ Hsv1)).
    change (sv_count sv1) with (sv_count sv). by rewrite (Hclean sv (list_elem_of_lookup_2 _ _ _ Hsv) Hid). }
  rewrite (bind_of_ok _ _ _ _ _ Hdq). cbn [truthy negb Z.eqb]. rewrite (bind_of_ok _ _ _ _ _ (rd_server_ok _ _ _ Hsv1)).
  unfold truthy. change (sv_listener sv1) with (g_current_task s). by rewrite (proj2 (Z.eqb_neq _ _) Hcur).
Qed.
End servers_start.

(** ** Witnesses *)

Definition demo_handles (ch : Z) : list handle_entry :=
  mkHandle HANDLE_CHANNEL ch :: replicate 127 (mkHandle HANDLE_NONE 0).
Definition demo_proc (pid t : Z) : process :=
  mkProc pid 0 1 [] [] [] 0 0 (demo_handles 3000) 0 t 0 0 0 0 0.
Definition demo_peer (id : Z) (v : task_state) (owner : Z) : task :=
  set_t_owner owner (demo_task id v 0 0).
Definition demo_pipe : pipe := mkPipe (replicate 4096 0) 0 0 0 1 0.
Definition demo_chan : channel := mkChan 1 2 4000 5000 0 32 false false.
Definition no_server : server := mkServer 0 0 (replicate 16 0) 0 0 0.

(** Two processes with a channel between them; the second waits for data, and is
    also a server with one pending connection. *)
Definition demo_ipc {A} (a : A) : kstate A :=
  mkK a (<[16 := demo_peer 1 TASK_RUNNING 1000]> {[32 := demo_peer 2 TASK_BLOCKED 2000]})
      (<[1000 := demo_proc 1 16]> {[2000 := demo_proc 2 32]}) (<[4000 := demo_pipe]> {[5000 := demo_pipe]})
      {[3000 := demo_chan]}
      (mkServer (hash64 [120; 111; 115]) 32 (3000 :: replicate 15 0) 0 1 1 :: replicate 31 no_server)
      1 16 16 16 3 3 1000 2000 (replicate 256 (0, 0)) 0 ∅ 0 0 0.

Lemma demo_pipe_rep : pipe_rep demo_pipe [].
Proof. apply fresh_pipe_rep. vm_compute. reflexivity. Qed.

Lemma demo_server_rep : server_rep (mkServer (hash64 [120; 111; 115]) 32 (3000 :: replicate 15 0) 0 1 1) [3000].
Proof. split; try done. intros [|k] v; simpl; [by intros [= <-]|done]. Qed.

Lemma demo_free_slot pid t : ∃ h, 0 ≤ h < MAX_HANDLES ∧ free_slot (demo_proc pid t) h.
Proof. exists 1. split; [done|]. by exists (mkHandle HANDLE_NONE 0). Qed.

Lemma demo_endpoint {A} (a : A) (side : bool) :
  endpoint (demo_ipc a) (if side then 32 else 16) 0 3000 demo_chan side.
Proof.
  split; [done|done|]. destruct side.
  - exists (demo_peer 2 TASK_BLOCKED 2000), (demo_proc 2 32), HANDLE_CHANNEL. by split_and!.
  - exists (demo_peer 1 TASK_RUNNING 1000), (demo_proc 1 16), HANDLE_CHANNEL. by split_and!.
Qed.

Lemma pipe_fifo_witness :
  ∃ b', pipe_write 4000 [7; 8] 2 (demo_ipc tt) = Ok (tt, with_pipe 4000 b' (demo_ipc tt)) ∧ pipe_rep b' [7; 8].
Proof.
  destruct (pipe_fifo (demo_ipc tt) 4000 demo_pipe [] ltac:(reflexivity) demo_pipe_rep ltac:(by left)) as (Hw & _ & _).
  destruct (Hw [7; 8]) as (b' & H1 & H2 & _). exists b'. split; [exact H1|].
  unfold accepted in H2. rewrite room_all in H2 by (unfold PIPE_BUF_SIZE; cbn [length]; lia). exact H2.
Defined.

Lemma channel_delivers_witness :
  ∃ s1 s2, channel_send 0 [7; 8; 9] 3 (demo_ipc tt) = Ok (tt, s1) ∧
    st (k_tasks s1) 32 = Some TASK_READY ∧
    channel_recv 0 2 (set_g_current_task 32 s1) = Ok ((2, [7; 8]), s2).
Proof.
  destruct (channel_delivers (demo_ipc tt) 16 0 32 0 3000 demo_chan false demo_pipe [] [7; 8; 9] 2
    (demo_endpoint tt false) (demo_endpoint tt true)) as (s1 & s2 & b2 & H1 & H2 & H3 & _).
  - reflexivity.
  - done.
  - reflexivity.
  - reflexivity.
  - exact demo_pipe_rep.
  - by left.
  - right. by eexists.
  - unfold PIPE_BUF_SIZE. simpl. lia.
  - lia.
  - reflexivity.
  - exists s1, s2. split; [exact H1|]. split; [rewrite H2; reflexivity|exact H3].
Defined.

Lemma handle_alloc_correct_witness : ∃ s', handle_alloc 1000 HANDLE_PIPE_READ 77 (demo_ipc tt) = Ok (1, s').
Proof.
  destruct (handle_alloc_correct (demo_ipc tt) 1000 (demo_proc 1 16) HANDLE_PIPE_READ 77) as [(k & s' & H & _)|[H _]];
    [reflexivity|vm_compute; reflexivity|done| |].
  - exists s'. assert (Some k = Some 1) as [= ->]; [|exact H].
    transitivity (result (handle_alloc 1000 HANDLE_PIPE_READ 77) (demo_ipc tt)); [unfold result; by rewrite H|vm_compute; reflexivity].
  - assert (Some (-1) = Some 1); [|done].
    transitivity (result (handle_alloc 1000 HANDLE_PIPE_READ 77) (demo_ipc tt)); [unfold result; by rewrite H|vm_compute; reflexivity].
Defined.

#[local] Existing Instance Heap.vm_backing.
#[local] Existing Instance Heap.vm_laws.

Definition demo_ipc_heap : kstate (Heap.heap_state Vmm.vmm_state) := demo_ipc Heap.heap_demo.

Lemma ipc_connect_correct_witness :
  is_ok (ipc_connect (replicate 4096 0) [120; 111; 115] demo_ipc_heap) = true ∧
  wp (ipc_connect (replicate 4096 0) [120; 111; 115]) (λ k s', ∃ ch c, endpoint s' 16 k ch c false ∧ c_pid0 c = 1)
     (λ _, True) demo_ipc_heap.
Proof.
  split; [vm_compute; reflexivity|].
  eapply wp_mono; [eapply (ipc_connect_correct demo_ipc_heap (Heap.live Vmm.KERNEL_HEAP [(16352, true)])
    (replicate 4096 0) [120; 111; 115] 0 _ [3000] 16 (demo_peer 1 TASK_RUNNING 1000) (demo_proc 1 16))| |done].
  - exists [(16352, true)]. split; [apply Heap.heap_demo_wf|reflexivity].
  - vm_compute. reflexivity.
  - split; [done|]. split; [vm_compute; reflexivity|]. split; [reflexivity|]. split; [reflexivity|]. intros. lia.
  - exact demo_server_rep.
  - done.
  - right. by eexists.
  - reflexivity.
  - reflexivity.
  - reflexivity.
  - vm_compute. reflexivity.
  - apply demo_free_slot.
  - intros k s' (ch & c & sv' & b0 & b1 & H). exists ch, c. split; [apply H|apply H].
Defined.

Lemma ipc_accept_correct_witness :
  ∃ k s' c', ipc_accept_nb 0 (set_g_current_task 32 (demo_ipc tt)) = Ok (k, s') ∧ endpoint s' 32 k 3000 c' true.
Proof.
  destruct (ipc_accept_correct (set_g_current_task 32 (demo_ipc tt)) 0 _ 3000 [] demo_chan 32
    (demo_peer 2 TASK_BLOCKED 2000) (demo_proc 2 32) ltac:(done) ltac:(reflexivity) demo_server_rep ltac:(done)
    ltac:(reflexivity) ltac:(reflexivity) ltac:(reflexivity) ltac:(reflexivity) ltac:(vm_compute; reflexivity)
    (demo_free_slot 2 32)) as (k & s' & sv' & c' & _ & _ & H1 & _ & _ & _ & _ & H2 & _).
  exists k, s', c'. split; [exact H1|exact H2].
Defined.

Lemma ipc_accept_after_server_witness :
  ∃ h s', ipc_server [97] (demo_ipc tt) = Ok (h, s') ∧ ipc_accept h s' = Ok (Some (-1), s').
Proof.
  assert (ipc_server [97] (demo_ipc tt) = Ok (1, final (ipc_server [97]) (demo_ipc tt))) as H
    by (apply final_result; vm_compute; reflexivity).
  exists 1, (final (ipc_server [97]) (demo_ipc tt)). split; [exact H|].
  apply (ipc_accept_after_server (demo_ipc tt) [97] 1 _ H); [done| |done|by eexists].
  intros sv [->|Hsv]%elem_of_cons Hid; [vm_compute in Hid; discriminate|]. by apply elem_of_replicate in Hsv as [-> _].
Defined.

End Ipc.
