(* ===== verification/Path.v ===== *)
(** * Strings and paths ([kernel/utils/string.h], [kernel/utils/path.h])

    A C string is the list of its bytes without the terminating NUL; a [char]
    array is the list of its bytes. *)
From S2P Require Import Prelude.

Module Path.

(** [strcpy] into an array: past its end, the bytes of the next object would be
    overwritten. *)
Definition strcpy (dst src : list Z) : option (list Z) :=
  if Z.of_nat (length dst) <=? Z.of_nat (length src) then None
  else Some (src ++ 0 :: drop (S (length src)) dst).

(** The string an array holds: the bytes before the first NUL. *)
Fixpoint cstr (a : list Z) : list Z :=
  match a with
  | [] => []
  | c :: a' => if c =? 0 then [] else c :: cstr a'
  end.

Definition SLASH : Z := 47.

(** The scan that leaves [last] behind the last slash. *)
Fixpoint filename_loop (p last : list Z) : list Z :=
  match p with
  | [] => last
  | c :: p' => filename_loop p' (if c =? SLASH then p' else last)
  end.
Definition path_filename (path : list Z) : list Z := filename_loop path path.

(** The offset of the last slash, if there is one. *)
Fixpoint last_slash (p : list Z) (i : Z) (last : option Z) : option Z :=
  match p with
  | [] => last
  | c :: p' => last_slash p' (i + 1) (if c =? SLASH then Some i else last)
  end.

(** [out[0..len) = src; out[len] = 0] *)
Definition put_str (out src : list Z) : option (list Z) := strcpy out src.

Definition path_dirname (path out : list Z) (out_size : Z) : option (list Z) :=
  match last_slash path 0 None with
  | None => put_str out [46]
  | Some i =>
      if i =? 0 then put_str out [SLASH]
      else
        let len := if out_size <=? i then out_size - 1 else i in
        put_str out (take (Z.to_nat len) path)
  end.

(** ** Correctness *)

Lemma strcpy_length dst src out : strcpy dst src = Some out → length out = length dst.
Proof.
  unfold strcpy. destruct (Z.leb_spec (Z.of_nat (length dst)) (Z.of_nat (length src))) as [|H]; [done|].
  intros [= <-]. rewrite length_app. cbn [length]. rewrite length_drop. lia.
Qed.

Lemma cstr_app src rest : 0 ∉ src → cstr (src ++ 0 :: rest) = src.
Proof.
  induction src as [|c src IH]; intros Hn; [done|]. apply not_elem_of_cons in Hn as [Hc Hn]. simpl.
  rewrite (proj2 (Z.eqb_neq _ _)) by congruence. by rewrite IH.
Qed.

Lemma strcpy_reads dst src out : 0 ∉ src → strcpy dst src = Some out → cstr out = src.
Proof.
  unfold strcpy. intros Hn. destruct (_ <=? _); [done|]. intros [= <-]. by apply cstr_app.
Qed.

Lemma filename_no_slash p : ∀ l, SLASH ∉ p → filename_loop p l = l.
Proof.
  induction p as [|c p IH]; intros l Hn; [done|]. apply not_elem_of_cons in Hn as [Hc Hn]. cbn [filename_loop].
  rewrite (proj2 (Z.eqb_neq _ _)) by congruence. by apply IH.
Qed.

(** The last slash splits the path. *)
Lemma last_slash_spec p : ∀ i last,
  (SLASH ∉ p ∧ last_slash p i last = last) ∨
  (∃ a b, p = a ++ SLASH :: b ∧ SLASH ∉ b ∧ last_slash p i last = Some (i + Z.of_nat (length a)) ∧
          ∀ l, filename_loop p l = b).
Proof.
  induction p as [|c p IH]; intros i last; [left; split; [apply not_elem_of_nil|done]|].
  cbn [last_slash filename_loop]. destruct (Z.eqb_spec c SLASH) as [->|Hc].
  - right. destruct (IH (i + 1) (Some i)) as [[Hn E]|(a & b & -> & Hb & E & Hf)].
    + exists [], p. split; [done|]. split; [done|]. split; [rewrite E; simpl; f_equal; lia|].
      intros l. by apply filename_no_slash.
    + exists (SLASH :: a), b. split; [done|]. split; [done|]. split; [rewrite E; simpl; f_equal; lia|]. intros l. apply Hf.
  - destruct (IH (i + 1) last) as [[Hn E]|(a & b & -> & Hb & E & Hf)].
    + left. split; [|done]. apply not_elem_of_cons. done.
    + right. exists (c :: a), b. split; [done|]. split; [done|]. split; [rewrite E; simpl; f_equal; lia|]. intros l. apply Hf.
Qed.

(** [path_filename] and [path_dirname] split a path at its last slash; a path
    without one is a name in the directory ".". *)
Theorem path_split path :
  (SLASH ∉ path ∧ path_filename path = path ∧ ∀ out n, path_dirname path out n = put_str out [46]) ∨
  (∃ dir name, path = dir ++ SLASH :: name ∧ SLASH ∉ name ∧ path_filename path = name ∧
     ∀ out n, Z.of_nat (length dir) < n →
       path_dirname path out n = put_str out (if decide (dir = []) then [SLASH] else dir)).
Proof.
  unfold path_filename, path_dirname. destruct (last_slash_spec path 0 None) as [[Hn E]|(a & b & Ep & Hb & E & Hf)].
  - left. rewrite E. split; [done|]. split; [by apply filename_no_slash|done].
  - right. exists a, b. split; [done|]. split; [done|]. split; [apply Hf|]. intros out n Hlen. rewrite E.
    destruct a as [|c a]; [done|]. rewrite decide_False by done. cbn [length] in *.
    rewrite (proj2 (Z.eqb_neq _ _)) by lia. destruct (Z.leb_spec n (0 + Z.of_nat (S (length a)))); [lia|].
    rewrite Z.add_0_l, Nat2Z.id, Ep. change (S (length a)) with (length (c :: a)). by rewrite take_app_length.
Qed.
End Path.
