(* ===== verification/Proc.v ===== *)
(** * Processes and threads ([kernel/scheduler/process_manager.c], and the
    killing of tasks in [kernel/scheduler/scheduler.c])

    Processes are a doubly linked list of objects of the kernel store. A call
    that blocks is split at [schedule()]. Killing recurses between tasks and
    processes, and is run with a bound on the depth. *)
From S2P Require Import Prelude Vmm Heap Kobj Sched RingBuf Ipc Path.
Import Kobj Sched Ipc Path.

Module Proc.

Definition MAX_EXEC_ARGC : Z := 64.
Definition PROCESS_MAX_NAME_LENGTH : Z := 32.

(** [(exit_code)-1] *)
Definition NO_EXIT_CODE : Z := 2 ^ 32 - 1.

(** ** What starting a process needs from the layers below *)

Class Loader (A : Type) := {
  (** [file_open], 0 when it fails, and [file_close] *)
  ld_open : list Z → M A Z;
  ld_close : Z → M A unit;
  (** [vmm_create_address_space], [vmm_destroy_address_space] *)
  ld_new_space : M A Z;
  ld_del_space : Z → M A unit;
  (** [elf_load(handle, space)]: the entry point, 0 when it fails *)
  ld_elf : Z → Z → M A Z;
  (** [vmm_virt_to_phys(space, va)] *)
  ld_v2p : Z → Z → M A Z;
  (** [memcpy8(PHYS_TO_HHDM(pa), bytes)] *)
  ld_copy : Z → list Z → M A unit
}.

(** The bytes of a 64-bit word in memory. *)
Definition le64 (v : Z) : list Z := map (λ i, u8 (Z.shiftr v (8 * Z.of_nat i))) (seq 0 8).

Definition zero_process : process :=
  mkProc 0 0 0 (zeros 32) (zeros 256) (zeros 256) 0 0 (replicate 128 (mkHandle HANDLE_NONE 0)) 0 0 0 0 0 0 0.

Section ops.
Context {A : Type} `{Alloc A} `{UserPages A} `{Loader A}.
Local Notation K := (kstate A).

Context (task_bootstrap user_task_bootstrap : Z).

(** ** The process list *)

Definition create_process : M K Z :=
  p ← on_alloc (al_malloc sizeof_process);
  if p =? 0 then mret 0
  else
    modify (λ s, set_k_procs (<[p := zero_process]> (k_procs s)) s) ;;
    n ← gets s_next_pid;
    modify (set_s_next_pid (u32 (n + 1))) ;;
    wr_proc p (set_p_pid n) ;;
    wr_proc p (set_p_next 0) ;;
    last ← gets s_last_process;
    (if truthy last then wr_proc p (set_p_prev last) ;; wr_proc last (set_p_next p)
     else wr_proc p (set_p_prev 0) ;; modify (set_s_processes p)) ;;
    modify (set_s_last_process p) ;;
    mret p.

Fixpoint find_proc_loop (n : nat) (pid p : Z) : M K Z :=
  match n with
  | O => no_fuel
  | S n' =>
      if truthy p then
        pr ← rd_proc p;
        if p_pid pr =? pid then mret p else find_proc_loop n' pid (p_next pr)
      else mret 0
  end.

Definition proc_fuel (s : K) : nat := S (size (k_procs s)).

(** 0 is the null pointer. *)
Definition find_process (pid : Z) : M K Z :=
  n ← gets proc_fuel;
  p ← gets s_processes;
  find_proc_loop n pid p.

Definition process_manager_init : M K unit := mret tt.

(** The entries [process_list] stores, each [(pid, name, state)]. *)
Fixpoint list_loop (n : nat) (p count : Z) : M K (list (Z * list Z * task_state)) :=
  match n with
  | O => no_fuel
  | S n' =>
      if truthy p && (0 <? count) then
        pr ← rd_proc p;
        tk ← rd_task (p_main_task pr);
        rest ← list_loop n' (p_next pr) (count - 1);
        mret ((p_pid pr, cstr (p_name pr), t_state tk) :: rest)
      else mret []
  end.

Definition process_list (count : Z) : M K (list (Z * list Z * task_state)) :=
  n ← gets proc_fuel;
  p ← gets s_processes;
  list_loop n p count.

(** ** Killing *)

(** The rest of [task_kill(t)], given how to kill a process. *)
Definition task_kill_body (process_kill : Z → M K unit) (t : Z) : M K unit :=
  wr_task t (set_t_state TASK_DEAD) ;;
  scheduler_remove t ;;
  tk ← rd_task t;
  if t_index tk =? 0 then process_kill (t_owner tk)
  else when (truthy (t_joining tk)) (rd_task (t_joining tk) ;; task_set_ready (t_joining tk)).

(** The loop of [process_kill] over the tasks of the process. *)
Fixpoint kill_tasks (task_kill : Z → M K unit) (n : nat) (t : Z) : M K unit :=
  match n with
  | O => no_fuel
  | S n' =>
      when (truthy t) (
        tk ← rd_task t;
        (if decide (t_state tk = TASK_DEAD) then mret tt else task_kill t) ;;
        kill_tasks task_kill n' (t_next_in_process tk))
  end.

Definition process_kill_body (task_kill : Z → M K unit) (p : Z) : M K unit :=
  pr ← rd_proc p;
  n ← gets task_fuel;
  kill_tasks task_kill n (p_main_task pr) ;;
  handle_close_all p ;;
  pr ← rd_proc p;
  when (truthy (p_waiting_task pr)) (task_set_ready (p_waiting_task pr)).

(** [depth] bounds the nesting of the two functions. *)
Fixpoint task_kill (depth : nat) (t : Z) : M K unit :=
  match depth with
  | O => no_fuel
  | S d => task_kill_body (process_kill_body (task_kill d)) t
  end.

Definition process_kill (depth : nat) (p : Z) : M K unit := process_kill_body (task_kill depth) p.

(** Every nested [task_kill] is of a task that was not dead yet. *)
Definition kill_depth (s : K) : nat := task_fuel s.

(** [task_exit] up to the switch away from the dead task. *)
Definition task_exit : M K unit :=
  d ← gets kill_depth;
  t ← gets g_current_task;
  task_kill d t ;;
  schedule.

Definition process_exit (code : Z) : M K unit :=
  d ← gets kill_depth;
  t ← gets g_current_task;
  tk ← rd_task t;
  process_kill d (t_owner tk) ;;
  schedule.

Fixpoint delete_tasks (n : nat) (t : Z) : M K unit :=
  match n with
  | O => no_fuel
  | S n' =>
      when (truthy t) (
        tk ← rd_task t;
        task_delete t ;;
        delete_tasks n' (t_next_in_process tk))
  end.

Definition process_delete (p : Z) : M K unit :=
  pr ← rd_proc p;
  n ← gets task_fuel;
  delete_tasks n (p_main_task pr) ;;
  on_alloc (al_free p) ;;
  modify (λ s, set_k_procs (delete p (k_procs s)) s).

(** ** Waiting and threads *)

(** [process_wait] up to its return ([inl]) or to [schedule()] ([inr p]). *)
Definition process_wait (pid : Z) : M K (Z + Z) :=
  p ← find_process pid;
  if p =? 0 then mret (inl NO_EXIT_CODE)
  else
    pr ← rd_proc p;
    if truthy (p_waiting_task pr) then mret (inl NO_EXIT_CODE)
    else
      t ← gets g_current_task;
      wr_proc p (set_p_waiting_task t) ;;
      task_set_blocked t ;;
      schedule ;;
      mret (inr p).

Definition process_wait_resume (p : Z) : M K Z :=
  pr ← rd_proc p;
  process_delete p ;;
  mret (p_exit_code pr).

Definition process_spawn_thread (entry arg : Z) : M K Z :=
  cur ← gets g_current_task;
  tk ← rd_task cur;
  let p := t_owner tk in
  Heap.ASSERT (negb (p =? 0)) ;;
  pr ← rd_proc p;
  wr_proc p (set_p_next_task_index (u32 (p_next_task_index pr + 1))) ;;
  t ← task_create_user_from_space task_bootstrap user_task_bootstrap (p_address_space pr) entry (p_next_task_index pr);
  if t =? 0 then mret 0
  else
    wr_task t (set_t_start_argc arg) ;;
    wr_task t (set_t_owner p) ;;
    scheduler_add t ;;
    mret t.

(** [process_join_thread] up to its return ([Some]) or to [schedule()] ([None]);
    resumed, it returns [ret_val]. *)
Definition process_join_thread (t : Z) : M K (option Z) :=
  cur ← gets g_current_task;
  tk ← rd_task t;
  rd_task cur ;;
  if decide (t_state tk = TASK_DEAD) then mret (Some (t_ret_val tk))
  else if truthy (t_joining tk) then mret (Some (2 ^ 64 - 1))
  else
    wr_task t (set_t_joining cur) ;;
    task_set_blocked cur ;;
    schedule ;;
    mret None.

Definition process_join_resume (t : Z) : M K Z := tk ← rd_task t; mret (t_ret_val tk).

Definition process_exit_thread (ret_val : Z) : M K unit :=
  t ← gets g_current_task;
  wr_task t (set_t_ret_val ret_val) ;;
  task_exit.

Definition process_kill_thread (t : Z) : M K unit := d ← gets kill_depth; task_kill d t.
(** ** Starting a program *)

(** [push_to_user_stack(space, usp, src, len)] *)
Definition push_to_user_stack (space usp : Z) (src : list Z) : M K Z :=
  let usp := Z.land (u64 (usp - Z.of_nat (length src))) (2 ^ 64 - 8) in
  pa ← on_alloc (ld_v2p space usp);
  on_alloc (ld_copy pa src) ;;
  mret usp.

(** The strings of [argv] from the last to the first, each with its NUL; the
    addresses come back in order, with the final stack pointer. *)
Fixpoint push_args (space usp : Z) (argv : list (list Z)) : M K (Z * list Z) :=
  match argv with
  | [] => mret (usp, [])
  | a :: argv' =>
      r ← push_args space usp argv';
      usp ← push_to_user_stack space r.1 (a ++ [0]);
      mret (usp, usp :: r.2)
  end.

(** The number of arguments passed on. *)
Definition exec_argc (argc : Z) (argv : option (list (list Z))) : Z :=
  let argc := match argv with None => 0 | Some _ => if argc <=? 0 then 0 else argc end in
  if MAX_EXEC_ARGC <? argc then MAX_EXEC_ARGC else argc.

(** [strcpy] into a field of the process. *)
Definition copy_field (f : process → list Z) (set : list Z → process → process) (p : Z) (src : list Z) : M K unit :=
  pr ← rd_proc p;
  out ← of_option (strcpy (f pr) src);
  wr_proc p (set out).

(** [h = handle_get(parent, fd); if (h) p->handles[i] = *h;] *)
Definition inherit_handle (parent fd p i : Z) : M K unit :=
  when (negb (fd =? -1)) (
    h ← handle_get parent fd;
    match h with
    | Some e => wr_proc p (λ pr, set_p_handles (<[Z.to_nat i := e]> (p_handles pr)) pr)
    | None => mret tt
    end).

Definition process_exec (path : list Z) (std_in std_out argc : Z) (argv : option (list (list Z))) : M K Z :=
  handle ← on_alloc (ld_open path);
  if handle =? 0 then mret 0
  else
    cur ← gets g_current_task;
    parent ← (if truthy cur then tk ← rd_task cur; mret (t_owner tk) else mret 0);
    space ← on_alloc ld_new_space;
    entry ← on_alloc (ld_elf handle space);
    if entry =? 0 then on_alloc (ld_del_space space) ;; mret 0
    else
      t ← task_create_user_from_space task_bootstrap user_task_bootstrap space entry 0;
      on_alloc (ld_close handle) ;;
      if t =? 0 then on_alloc (ld_del_space space) ;; mret 0
      else
        let argc := exec_argc argc argv in
        tk ← rd_task t;
        args ← (if Z.of_nat (length (default [] argv)) <? argc then fault
                else mret (take (Z.to_nat argc) (default [] argv)));
        r ← push_args space (t_user_rsp tk) args;
        let usp := Z.land (u64 (r.1 - (argc + 1) * 8)) (2 ^ 64 - 16) in
        pa ← on_alloc (ld_v2p space usp);
        on_alloc (ld_copy pa (concat (map le64 (r.2 ++ [0])))) ;;
        wr_task t (set_t_start_argc argc) ;;
        wr_task t (set_t_start_argv usp) ;;
        wr_task t (set_t_user_rsp (u64 (usp - 8))) ;;
        p ← create_process;
        wr_proc p (set_p_address_space space) ;;
        parent_pid ← (if truthy parent then pp ← rd_proc parent; mret (p_pid pp) else mret 0);
        wr_proc p (set_p_parent_pid parent_pid) ;;
        wr_proc p (set_p_main_task t) ;;
        wr_proc p (set_p_heap_next USER_HEAP_BASE) ;;
        wr_task t (set_t_owner p) ;;
        wr_proc p (set_p_next_task_index 1) ;;
        copy_field p_working_directory set_p_working_directory p path ;;
        pr ← rd_proc p;
        wd ← of_option (path_dirname path (p_working_directory pr) 256);
        wr_proc p (set_p_working_directory wd) ;;
        copy_field p_name set_p_name p (path_filename path) ;;
        copy_field p_executable_path set_p_executable_path p path ;;
        when (truthy parent) (
          pp ← rd_proc parent;
          wr_proc p (set_p_next_sibling (p_first_child pp)) ;;
          wr_proc parent (set_p_first_child p)) ;;
        inherit_handle parent std_in p 0 ;;
        inherit_handle parent std_out p 1 ;;
        scheduler_add t ;;
        pr ← rd_proc p;
        mret (p_pid pr).
End ops.
(** ** Closing the handles of a process *)

(** Tasks change state only by being woken. *)
Record wakes (T T' : gmap Z task) : Prop := {
  wk_only : only_states T T';
  wk_st x : st T' x = st T x ∨ (st T x = Some TASK_BLOCKED ∧ st T' x = Some TASK_READY)
}.

Lemma wakes_refl T : wakes T T.
Proof. split; [apply only_states_refl|by left]. Qed.
Lemma wakes_trans T T' T'' : wakes T T' → wakes T' T'' → wakes T T''.
Proof.
  intros [O W] [O' W']. split; [by eapply only_states_trans|]. intros x.
  destruct (W x) as [H1|[H1 H2]], (W' x) as [H3|[H3 H4]]; [left|right|right|right]; try split; congruence.
Qed.
Lemma wakes_blocked T T' x : wakes T T' → st T x ≠ Some TASK_BLOCKED → st T' x ≠ Some TASK_BLOCKED.
Proof. intros [_ W] Hb. destruct (W x) as [->|[? ?]]; [done|congruence]. Qed.
Lemma wakes_wake t T : wakes T (wake t T).
Proof.
  split; [apply wake_states|]. intros x. unfold wake. destruct (t =? 0); [by left|].
  rewrite st_wake_one. unfold woken. case_decide as H; [right|by left]. split; [apply H|done].
Qed.
Lemma wake_not_blocked t T : t ≠ 0 → st (wake t T) t ≠ Some TASK_BLOCKED.
Proof.
  intros Ht. unfold wake. rewrite (proj2 (Z.eqb_neq _ _) Ht), st_wake_one. unfold woken.
  case_decide as H; [done|]. intros Hb. apply H. split; [left|done].
Qed.
Lemma ok_listener_wakes {A} (s s' : kstate A) t : wakes (k_tasks s) (k_tasks s') → ok_listener s t → ok_listener s' t.
Proof. intros [O _] [?|Ht]; [by left|right]. by apply (os_dom _ _ O). Qed.

(** The process is end [side] of the channel, as [channel_close] decides it. *)
Definition is_end (pr : process) (c : channel) (side : bool) : Prop :=
  if side then c_pid1 c = p_pid pr ∧ c_pid0 c ≠ p_pid pr else c_pid0 c = p_pid pr.
Definition holds_channel (pr : process) (ch : Z) : Prop := mkHandle HANDLE_CHANNEL ch ∈ p_handles pr.

(** One channel before and after: only the process's own end may be closed, and
    a listener is only dropped once it is woken. *)
Definition chan_closing (pr : process) (T' : gmap Z task) (ch : Z) (c c' : channel) : Prop :=
  c_pid0 c' = c_pid0 c ∧ c_pid1 c' = c_pid1 c ∧ c_pipe0 c' = c_pipe0 c ∧ c_pipe1 c' = c_pipe1 c ∧
  ∀ side, (closed side c' = closed side c ∨ (closed side c' = true ∧ is_end pr c side ∧ holds_channel pr ch)) ∧
          (waiting side c' = waiting side c ∨ (waiting side c' = 0 ∧ st T' (waiting side c) ≠ Some TASK_BLOCKED)).

Section closing.
Context {A : Type}.
Implicit Types s : kstate A.

Record closing (pr : process) s s' : Prop := {
  cl_eq : s' = set_k_chans (k_chans s') (set_k_tasks (k_tasks s') s);
  cl_wakes : wakes (k_tasks s) (k_tasks s');
  cl_chan ch c : k_chans s !! ch = Some c →
    ∃ c', k_chans s' !! ch = Some c' ∧ chan_closing pr (k_tasks s') ch c c'
}.

Lemma chan_closing_trans pr T' T'' ch c c' c'' : wakes T' T'' →
  chan_closing pr T' ch c c' → chan_closing pr T'' ch c' c'' → chan_closing pr T'' ch c c''.
Proof.
  intros W (E1 & E2 & E3 & E4 & H) (F1 & F2 & F3 & F4 & H'). split_and!; try congruence. intros side.
  destruct (H side) as [Hc Hw], (H' side) as [Hc' Hw'].
  assert (is_end pr c' side → is_end pr c side) as He by (destruct side; simpl; rewrite E1, ?E2; done). split.
  - destruct Hc' as [->|(? & ? & ?)]; [done|]. right. auto.
  - destruct Hw as [Ew|[Ew Hb]].
    + rewrite <- Ew. done.
    + right. split; [|by eapply wakes_blocked]. destruct Hw' as [->|[-> _]]; done.
Qed.

Lemma closing_refl pr s : closing pr s s.
Proof. split; [by destruct s|apply wakes_refl|]. intros ch c Hc. exists c. split; [done|]. split_and!; auto. Qed.
Lemma closing_trans pr s s' s'' : closing pr s s' → closing pr s' s'' → closing pr s s''.
Proof.
  intros [E W C] [E' W' C']. split.
  - rewrite E' at 1. rewrite E. by destruct s.
  - by eapply wakes_trans.
  - intros ch c Hc. destruct (C ch c Hc) as (c' & Hc' & H1). destruct (C' ch c' Hc') as (c'' & Hc'' & H2).
    exists c''. split; [done|]. by eapply chan_closing_trans.
Qed.
Lemma closing_procs pr s s' : closing pr s s' → k_procs s' = k_procs s.
Proof. intros [E _ _]. by rewrite E. Qed.

(** The channels the process holds exist, with listeners that exist. *)
Definition handles_ok s (pr : process) : Prop :=
  ∀ ch, holds_channel pr ch → ∃ c, k_chans s !! ch = Some c ∧ ∀ side, ok_listener s (waiting side c).

Lemma handles_ok_closing pr s s' : closing pr s s' → handles_ok s pr → handles_ok s' pr.
Proof.
  intros [_ W C] H ch Hch. destruct (H ch Hch) as (c & Hc & Hl). destruct (C ch c Hc) as (c' & Hc' & _ & _ & _ & _ & Hs).
  exists c'. split; [done|]. intros side. destruct (Hs side) as [_ [->|[-> _]]]; [|by left].
  by eapply ok_listener_wakes.
Qed.

(** End [side] of the channel is closed and nobody waits at the other. *)
Definition shut s (ch : Z) (side : bool) : Prop :=
  ∃ c, k_chans s !! ch = Some c ∧ closed side c = true ∧ waiting (negb side) c = 0.

Lemma shut_closing pr s s' ch side : closing pr s s' → shut s ch side → shut s' ch side.
Proof.
  intros [_ _ C] (c & Hc & Hcl & Hw). destruct (C ch c Hc) as (c' & Hc' & _ & _ & _ & _ & Hs).
  exists c'. split; [done|]. split.
  - destruct (Hs side) as [[->|(-> & _)] _]; done.
  - destruct (Hs (negb side)) as [_ [->|[-> _]]]; done.
Qed.
Lemma no_waiting_closing pr s ch c side : is_end pr c side → holds_channel pr ch →
  k_chans s !! ch = Some c →
  ∀ T', wakes (k_tasks s) T' → (waiting (negb side) c ≠ 0 → st T' (waiting (negb side) c) ≠ Some TASK_BLOCKED) →
  let c' := no_waiting (negb side) (if side then set_c_closed1 true c else set_c_closed0 true c) in
  let s' := set_k_chans (<[ch := c']> (k_chans s)) (set_k_tasks T' s) in
  closing pr s s' ∧ shut s' ch side.
Proof.
  intros He Hh Hc T' W Hb c' s'. split; [split|].
  - done.
  - exact W.
  - intros ch1 c1 Hc1. destruct (decide (ch1 = ch)) as [->|Hne].
    + exists c'. split; [apply lookup_insert_eq|]. assert (c1 = c) as -> by congruence. destruct c as [i0 i1 q0 q1 w0 w1 d0 d1].
      destruct side; simpl in *; split_and!; try done; intros []; simpl; split; auto.
      * destruct (decide (w0 = 0)); [left; congruence|right; auto].
      * destruct (decide (w1 = 0)); [left; congruence|right; auto].
    + exists c1. split; [cbn; by rewrite lookup_insert_ne|]. split_and!; auto.
  - exists c'. split; [apply lookup_insert_eq|]. by destruct side, c.
Qed.

Lemma channel_close_ok pr s ch : holds_channel pr ch → handles_ok s pr →
  ∃ s', channel_close ch (p_pid pr) s = Ok (tt, s') ∧ closing pr s s' ∧
        ∀ c side, k_chans s !! ch = Some c → is_end pr c side → shut s' ch side.
Proof.
  intros Hh Hok. destruct (Hok ch Hh) as (c & Hc & Hl).
  assert (∀ side, is_end pr c side →
    closing pr s (set_k_chans (<[ch := no_waiting (negb side) (if side then set_c_closed1 true c else set_c_closed0 true c)]> (k_chans s))
      (set_k_tasks (wake (waiting (negb side) c) (k_tasks s)) s)) ∧
    shut (set_k_chans (<[ch := no_waiting (negb side) (if side then set_c_closed1 true c else set_c_closed0 true c)]> (k_chans s))
      (set_k_tasks (wake (waiting (negb side) c) (k_tasks s)) s)) ch side) as Hend.
  { intros side He. apply no_waiting_closing; [done|done|done|apply wakes_wake|apply wake_not_blocked]. }
  unfold channel_close. rewrite (bind_of_ok _ _ _ _ _ (rd_chan_ok _ _ _ Hc)).
  destruct (Z.eqb_spec (c_pid0 c) (p_pid pr)) as [E|E]; [|destruct (Z.eqb_spec (c_pid1 c) (p_pid pr)) as [E1|E1]].
  - rewrite (bind_of_ok _ _ _ _ _ (wr_chan_ok _ _ _ _ Hc)).
    set (s1 := set_k_chans _ s). pose proof (wake_listener_ok s1 ch (set_c_closed0 true c) true) as Hw.
    rewrite Hw; [|apply lookup_insert_eq|destruct c; exact (Hl true)]. eexists. split; [reflexivity|].
    destruct (Hend false E) as [H1 H2]. unfold s1. cbn. rewrite insert_insert_eq. split.
    + destruct s, c; exact H1.
    + intros c1 side Hc1 He. assert (c1 = c) as -> by congruence. destruct side; [by destruct He|]. destruct s, c; exact H2.
  - rewrite (bind_of_ok _ _ _ _ _ (wr_chan_ok _ _ _ _ Hc)).
    set (s1 := set_k_chans _ s). pose proof (wake_listener_ok s1 ch (set_c_closed1 true c) false) as Hw.
    rewrite Hw; [|apply lookup_insert_eq|destruct c; exact (Hl false)]. eexists. split; [reflexivity|].
    destruct (Hend true (conj E1 E)) as [H1 H2]. unfold s1. cbn. rewrite insert_insert_eq. split.
    + destruct s, c; exact H1.
    + intros c1 side Hc1 He. assert (c1 = c) as -> by congruence. destruct side; [|by destruct (E He)]. destruct s, c; exact H2.
  - exists s. split; [done|]. split; [apply closing_refl|]. intros c1 side Hc1 He. assert (c1 = c) as -> by congruence.
    destruct side; [by destruct He|by destruct (E He)].
Qed.

Lemma close_loop_ok p pr n : ∀ i s, k_procs s !! p = Some pr → 0 ≤ i →
  (Z.to_nat i + n)%nat = length (p_handles pr) → handles_ok s pr →
  ∃ s', handle_close_loop p n i s = Ok (tt, s') ∧ closing pr s s' ∧
    ∀ j ch c side, (Z.to_nat i ≤ j)%nat → p_handles pr !! j = Some (mkHandle HANDLE_CHANNEL ch) →
      k_chans s !! ch = Some c → is_end pr c side → shut s' ch side.
Proof.
  induction n as [|n IH]; intros i s Hp Hi Hlen Hok.
  { exists s. split; [done|]. split; [apply closing_refl|]. intros j ch c side Hj Hh. apply lookup_lt_Some in Hh. lia. }
  cbn [handle_close_loop]. rewrite (bind_of_ok _ _ _ _ _ (rd_proc_ok _ _ _ Hp)).
  destruct (lookup_lt_is_Some_2 (p_handles pr) (Z.to_nat i) ltac:(lia)) as [e He]. rewrite He. cbn [of_option].
  rewrite (bind_of_ok _ _ _ e s) by done.
  assert (∃ s1, match h_type e with HANDLE_CHANNEL => channel_close (h_ptr e) (p_pid pr) | _ => mret tt end s = Ok (tt, s1) ∧
    closing pr s s1 ∧ ∀ ch c side, e = mkHandle HANDLE_CHANNEL ch → k_chans s !! ch = Some c → is_end pr c side → shut s1 ch side)
    as (s1 & Hrun & Hcl & Hsh).
  { destruct e as [[] ptr]; simpl; try (exists s; split; [done|split; [apply closing_refl|congruence]]).
    destruct (channel_close_ok pr s ptr) as (s1 & H1 & H2 & H3); [by eapply list_elem_of_lookup_2|done|].
    exists s1. split; [done|]. split; [done|]. intros ch c side [= <-]. apply H3. }
  assert (match h_type e with HANDLE_NONE => mret tt | HANDLE_PIPE_READ => pipe_close_read (h_ptr e)
          | HANDLE_PIPE_WRITE => pipe_close_write (h_ptr e) | HANDLE_FILE => mret tt
          | HANDLE_CHANNEL => channel_close (h_ptr e) (p_pid pr) end s = Ok (tt, s1)) as Hrun' by (by destruct (h_type e)).
  rewrite (bind_of_ok _ _ _ _ _ Hrun').
  destruct (IH (i + 1) s1) as (s2 & Hrun2 & Hcl2 & Hsh2);
    [by rewrite (closing_procs _ _ _ Hcl)|lia|lia|by eapply handles_ok_closing|].
  exists s2. split; [exact Hrun2|]. split; [by eapply closing_trans|].
  intros j ch c side Hj Hh Hc Hend. destruct (decide (j = Z.to_nat i)) as [->|].
  - eapply shut_closing; [exact Hcl2|]. eapply Hsh; [|done|done]. congruence.
  - destruct (cl_chan _ _ _ Hcl ch c Hc) as (c' & Hc' & F1 & F2 & _). eapply (Hsh2 j ch c'); [lia|done|done|].
    destruct side; simpl in *; by rewrite F1, ?F2.
Qed.

Lemma close_all_ok p pr s : k_procs s !! p = Some pr → Z.of_nat (length (p_handles pr)) = MAX_HANDLES → handles_ok s pr →
  ∃ s', handle_close_all p s = Ok (tt, s') ∧ closing pr s s' ∧
    ∀ ch c side, holds_channel pr ch → k_chans s !! ch = Some c → is_end pr c side → shut s' ch side.
Proof.
  intros Hp Hl Hok. destruct (close_loop_ok p pr (Z.to_nat MAX_HANDLES) 0 s Hp ltac:(lia) ltac:(lia) Hok) as (s' & H1 & H2 & H3).
  exists s'. split; [done|]. split; [done|]. intros ch c side [j Hj]%list_elem_of_lookup. eapply H3; [|exact Hj]. lia.
Qed.
End closing.
(** ** Killing *)

Section killing.
Context {A : Type}.
Implicit Types s : kstate A.

Lemma closing_wake pr s t : closing pr s (set_k_tasks (wake t (k_tasks s)) s).
Proof.
  split; [by destruct s|apply wakes_wake|]. intros ch c Hc. exists c. split; [done|]. split_and!; auto.
Qed.

(** The end of [process_kill]: close the handles, wake the waiting task. *)
Definition kill_tail (p : Z) : M (kstate A) unit :=
  handle_close_all p ;;
  pr ← rd_proc p;
  when (truthy (p_waiting_task pr)) (task_set_ready (p_waiting_task pr)).

(** What a process must satisfy to be killed. *)
Record killable s (p : Z) (pr : process) : Prop := {
  kl_proc : k_procs s !! p = Some pr;
  kl_len : Z.of_nat (length (p_handles pr)) = MAX_HANDLES;
  kl_handles : handles_ok s pr;
  kl_waiting : ok_listener s (p_waiting_task pr)
}.

Lemma killable_closing s s' p pr : closing pr s s' → killable s p pr → killable s' p pr.
Proof.
  intros C [H1 H2 H3 H4]. split; [by rewrite (closing_procs _ _ _ C)|done|by eapply handles_ok_closing|].
  eapply ok_listener_wakes; [apply C|done].
Qed.

(** The channels of the process are shut and its waiting task is not blocked. *)
Definition closed_down s (pr : process) s' : Prop :=
  (∀ ch c side, holds_channel pr ch → k_chans s !! ch = Some c → is_end pr c side → shut s' ch side) ∧
  (p_waiting_task pr ≠ 0 → st (k_tasks s') (p_waiting_task pr) ≠ Some TASK_BLOCKED).

Lemma kill_tail_ok s p pr : killable s p pr →
  ∃ s', kill_tail p s = Ok (tt, s') ∧ closing pr s s' ∧ closed_down s pr s'.
Proof.
  intros [Hp Hl Hok Hw]. destruct (close_all_ok p pr s Hp Hl Hok) as (s1 & Hrun & C & Hsh).
  assert (k_procs s1 !! p = Some pr) as Hp1 by (by rewrite (closing_procs _ _ _ C)).
  unfold kill_tail. rewrite (bind_of_ok _ _ _ _ _ Hrun), (bind_of_ok _ _ _ _ _ (rd_proc_ok _ _ _ Hp1)).
  pose proof (closing_wake pr s1 (p_waiting_task pr)) as C1.
  exists (set_k_tasks (wake (p_waiting_task pr) (k_tasks s1)) s1). split; [|split; [by eapply closing_trans|split]].
  - unfold truthy, wake. destruct (Z.eqb_spec (p_waiting_task pr) 0) as [E|E]; simpl; [by destruct s1|].
    apply task_set_ready_ok. destruct Hw as [?|Hw]; [done|]. by apply (os_dom _ _ (wk_only _ _ (cl_wakes _ _ _ C))).
  - intros ch c side Hh Hc He. eapply shut_closing; [exact C1|]. by eapply Hsh.
  - apply wake_not_blocked.
Qed.

Lemma killable_tasks s p pr T' : (∀ x, is_Some (k_tasks s !! x) → is_Some (T' !! x)) →
  killable s p pr → killable (set_k_tasks T' s) p pr.
Proof.
  intros HT [H1 H2 H3 H4]. assert (∀ x, ok_listener s x → ok_listener (set_k_tasks T' s) x) as Ho.
  { intros x [?|?]; [by left|right; by apply HT]. }
  split; [done|done| |by apply Ho]. intros ch Hch. destruct (H3 ch Hch) as (c & Hc & Hl). exists c. auto.
Qed.

Lemma relinked_dom T T' x : relinked T T' → is_Some (T !! x) → is_Some (T' !! x).
Proof. intros H Hx. specialize (H x). destruct (T' !! x); [done|]. destruct (T !! x); [done|]. by destruct Hx. Qed.

(** A dead main task alone makes the loop over the tasks do nothing. *)
Lemma kill_tasks_dead kill n t tk s : t ≠ 0 → k_tasks s !! t = Some tk → t_state tk = TASK_DEAD →
  t_next_in_process tk = 0 → kill_tasks kill (S (S n)) t s = Ok (tt, s).
Proof.
  intros Ht Htk Hd Hn. cbn [kill_tasks]. unfold when, truthy. rewrite (proj2 (Z.eqb_neq _ _) Ht). cbn [negb].
  rewrite (bind_of_ok _ _ _ _ _ (rd_task_ok _ _ _ Htk)), decide_True by done.
  rewrite (bind_of_ok _ _ _ tt s) by done. by rewrite Hn.
Qed.

Lemma task_fuel_2 s t : is_Some (k_tasks s !! t) → ∃ n, task_fuel s = S (S n).
Proof.
  intros [tk Ht]. unfold task_fuel. destruct (size (k_tasks s)) as [|n] eqn:E; [|by exists n].
  apply map_size_empty_inv in E. rewrite E in Ht. by rewrite lookup_empty in Ht.
Qed.

(** The main task of a process, in the ring with the tasks [l]. *)
Record main_task s (p t : Z) (tk : task) (l : list Z) : Prop := {
  mt_nz : t ≠ 0;
  mt_task : k_tasks s !! t = Some tk;
  mt_index : t_index tk = 0;
  mt_owner : t_owner tk = p;
  mt_next : t_next_in_process tk = 0;
  mt_ring : ring (k_tasks s) (t :: l);
  mt_others : l ≠ []
}.

(** [t] has left the ring for good; the others are as before or woken. *)
Record task_killed (t : Z) (l : list Z) s s' : Prop := {
  kd_dead : st (k_tasks s') t = Some TASK_DEAD;
  kd_ring : ring (k_tasks s') l;
  kd_others x : x ≠ t → st (k_tasks s') x = st (k_tasks s) x ∨
                  (st (k_tasks s) x = Some TASK_BLOCKED ∧ st (k_tasks s') x = Some TASK_READY);
  kd_frame : ∃ T C, s' = set_k_chans C (set_k_tasks T s)
}.

Lemma task_killed_closing t l pr s s1 s2 : task_killed t l s s1 → closing pr s1 s2 → task_killed t l s s2.
Proof.
  intros [H1 H2 H3 (T & C & E)] [E' [O W] _]. split.
  - destruct (W t) as [->|[? _]]; [done|congruence].
  - eapply ring_same; [by eapply only_states_links|done].
  - intros x Hx. destruct (H3 x Hx) as [Hx1|[Hb Hx1]], (W x) as [Hx2|[Hb2 Hx2]]; [left|right|right|right]; try split; congruence.
  - rewrite E', E. eexists _, _. by destruct s.
Qed.

(** The part of [task_kill] common to all tasks. *)
Definition retire (t : Z) : M (kstate A) unit := wr_task t (set_t_state TASK_DEAD) ;; scheduler_remove t.

Lemma retire_ok s t tk l : k_tasks s !! t = Some tk → ring (k_tasks s) (t :: l) → l ≠ [] →
  ∃ T', retire t s = Ok (tt, set_k_tasks T' s) ∧ task_killed t l s (set_k_tasks T' s) ∧
        T' !! t = Some (set_t_state TASK_DEAD tk) ∧ relinked (<[t := set_t_state TASK_DEAD tk]> (k_tasks s)) T'.
Proof.
  intros Ht Hr Hl. unfold retire. rewrite (bind_of_ok _ _ _ _ _ (wr_task_ok _ _ _ _ Ht)).
  set (T1 := <[t := _]> (k_tasks s)).
  assert (ring T1 (t :: l)) as Hr1.
  { eapply ring_same; [|exact Hr]. apply only_states_links. by apply only_states_set; [apply only_states_refl|]. }
  pose proof (scheduler_remove_ok (set_k_tasks T1 s) t l Hr1 Hl) as Hrm. apply wp_run in Hrm as ([] & s2 & Hrun & (T' & -> & Hr' & Hs & Ht' & Hrel)).
  exists T'. rewrite Hrun. split; [by destruct s|]. split; [|split; [rewrite Ht'; apply lookup_insert_eq|exact Hrel]].
  cbn [k_tasks set_k_tasks] in *. split.
  - cbn [k_tasks set_k_tasks]. rewrite Hs. unfold T1. rewrite (st_insert _ _ _ tk) by done. by rewrite decide_True.
  - exact Hr'.
  - intros x Hx. left. cbn [k_tasks set_k_tasks]. rewrite Hs. unfold T1. rewrite (st_insert _ _ _ tk) by done. by rewrite decide_False.
  - exists T', (k_chans s). by destruct s.
Qed.
Lemma task_kill_retire pk t s s1 : retire t s = Ok (tt, s1) →
  task_kill_body pk t s = (tk ← rd_task t;
    if t_index tk =? 0 then pk (t_owner tk)
    else when (truthy (t_joining tk)) (rd_task (t_joining tk) ;; task_set_ready (t_joining tk))) s1.
Proof.
  unfold retire, task_kill_body, mbind, M_bind. destruct (wr_task _ _ s) as [[[] s0]| | |]; try done.
  by intros ->.
Qed.

(** A process whose main task is dead is only closed down. *)
Lemma process_kill_dead kill s p pr t tk : killable s p pr → p_main_task pr = t → t ≠ 0 → k_tasks s !! t = Some tk →
  t_state tk = TASK_DEAD → t_next_in_process tk = 0 →
  ∃ s', process_kill_body kill p s = Ok (tt, s') ∧ closing pr s s' ∧ closed_down s pr s'.
Proof.
  intros Hk Hm Ht0 Ht Hd Hn. destruct (kill_tail_ok s p pr Hk) as (s' & Hrun & H1 & H2). exists s'. split; [|done].
  unfold process_kill_body. rewrite (bind_of_ok _ _ _ _ _ (rd_proc_ok _ _ _ (kl_proc _ _ _ Hk))).
  rewrite (bind_of_ok _ _ _ (task_fuel s) s) by done. rewrite Hm.
  destruct (task_fuel_2 s t ltac:(by eexists)) as [n ->].
  rewrite (bind_of_ok _ _ _ _ _ (kill_tasks_dead kill n t tk s Ht0 Ht Hd Hn)). exact Hrun.
Qed.

(** The main task is killed, and the process closed down on the way. *)
Lemma kill_main_ok d s p pr t tk l : killable s p pr → p_main_task pr = t → main_task s p t tk l →
  ∃ s', task_kill (S d) t s = Ok (tt, s') ∧ task_killed t l s s' ∧ closed_down s pr s' ∧ killable s' p pr ∧
        ∃ tk', k_tasks s' !! t = Some tk' ∧ t_state tk' = TASK_DEAD ∧ t_next_in_process tk' = 0.
Proof.
  intros Hk Hm [Hz Ht Hi Ho Hn Hr Hl].
  destruct (retire_ok s t tk l Ht Hr Hl) as (T' & Hret & Hkd & Ht' & Hrel). set (s1 := set_k_tasks T' s) in *.
  assert (killable s1 p pr) as Hk1.
  { apply killable_tasks; [|done]. intros x Hx. eapply relinked_dom; [exact Hrel|]. apply lookup_insert_is_Some'. by right. }
  destruct (process_kill_dead (task_kill d) s1 p pr t (set_t_state TASK_DEAD tk) Hk1 Hm Hz Ht') as (s2 & Hrun & Hcl & Hcd);
    [done|done|].
  exists s2. split; [|split; [by eapply task_killed_closing|split; [|split; [by eapply killable_closing|]]]].
  - cbn [task_kill]. rewrite (task_kill_retire _ _ _ _ Hret), (bind_of_ok _ _ _ _ _ (rd_task_ok s1 _ _ Ht')).
    destruct tk; simpl in *. subst. exact Hrun.
  - split; [|apply Hcd]. apply (proj1 Hcd).
  - destruct (os_dom _ _ (wk_only _ _ (cl_wakes _ _ _ Hcl)) t) as [_ Hd].
    destruct (Hd ltac:(by eexists)) as [tk' Ht'']. exists tk'. split; [done|].
    pose proof (os_same _ _ (wk_only _ _ (cl_wakes _ _ _ Hcl)) t _ _ Ht' Ht'') as E. split.
    + destruct (wk_st _ _ (cl_wakes _ _ _ Hcl) t) as [Es|[Es _]]; unfold st in Es; cbn [k_tasks set_k_tasks s1] in Es;
        rewrite Ht', ?Ht'' in Es; by injection Es.
    + apply (f_equal t_next_in_process) in E. destruct tk', tk; simpl in *. congruence.
Qed.

(** ** Threads *)

Lemma relinked_field {F} (f : task → F) T T' x tk' : (∀ tk, f (unlink tk) = f tk) → relinked T T' → T' !! x = Some tk' →
  ∃ tk, T !! x = Some tk ∧ f tk' = f tk.
Proof.
  intros Hf H Hx. specialize (H x). rewrite Hx in H. destruct (T !! x) as [tk|]; [|done]. exists tk. split; [done|].
  apply (inj Some) in H. by rewrite <- (Hf tk'), <- (Hf tk), H.
Qed.

Lemma relinked_st T T' x : relinked T T' → st T' x = st T x.
Proof.
  intros H. specialize (H x). unfold st. destruct (T' !! x) as [a|], (T !! x) as [b|]; try done. simpl in *.
  apply (inj Some) in H. f_equal. change (t_state (unlink a) = t_state (unlink b)). by rewrite H.
Qed.

(** Retiring the current task, not the head of the list, leaves a scheduler state
    to switch away from. *)
Lemma retire_sched s h l1 t l2 tk T' : sched_wf s (h :: l1 ++ t :: l2) → g_current_task s = t → k_tasks s !! t = Some tk →
  task_killed t (l2 ++ h :: l1) s (set_k_tasks T' s) → relinked (<[t := set_t_state TASK_DEAD tk]> (k_tasks s)) T' →
  sched_wf (set_k_tasks T' s) (h :: l1 ++ l2).
Proof.
  intros [Hr Hh Hz (Hi1 & Hi2 & Hi3) Hc0 Hcur Hrun Hown] Hc Ht [K1 K2 K3 _] Hrel.
  pose proof Hr as [Hnd _]. change (h :: l1 ++ t :: l2) with ((h :: l1) ++ t :: l2) in Hnd.
  apply NoDup_app in Hnd as (_ & Hnd1 & Hnd2). apply NoDup_cons in Hnd2 as [Ht2 _].
  assert (∀ x, x ∈ h :: l1 ++ l2 → x ∈ h :: l1 ++ t :: l2 ∧ x ≠ t) as Hsub.
  { intros x Hx. split.
    - rewrite !elem_of_cons, !elem_of_app, ?elem_of_cons in *. tauto.
    - intros ->. change (t ∈ (h :: l1) ++ l2) in Hx. apply elem_of_app in Hx as [Hx|Hx]; [|done]. apply (Hnd1 t Hx). left. }
  assert (g_idle s ≠ t) as Hit. { intros E. apply Hi1. rewrite E. rewrite elem_of_cons, elem_of_app, elem_of_cons. tauto. }
  assert (∀ x, x ∈ g_idle s :: h :: l1 ++ l2 → x ∈ g_idle s :: h :: l1 ++ t :: l2 ∧ x ≠ t) as Hsub'.
  { intros x [->|Hx]%elem_of_cons; [split; [left|done]|]. destruct (Hsub x Hx). split; [by right|done]. }
  split; cbn [k_tasks set_k_tasks g_task_list g_idle g_current_task] in *.
  - by apply (ring_rot _ l2 (h :: l1)) in K2.
  - done.
  - intros Hx. by apply Hz, (proj1 (Hsub _ Hx)).
  - split; [intros Hx; by apply Hi1, (proj1 (Hsub _ Hx))|]. split; [done|]. eapply relinked_dom; [exact Hrel|]. apply lookup_insert_is_Some'. by right.
  - done.
  - right. rewrite Hc. split; [intros Hx; by apply Hsub in Hx as [_ Hx]|]. right. exact K1.
  - intros x Hx Hst. destruct (Hsub' x Hx) as [Hx' Hxt]. apply Hrun; [done|]. destruct (K3 x Hxt) as [E|[_ E]]; cbn in E; congruence.
  - intros x tk' Hx Hx'. destruct (Hsub' x Hx) as [Hin Hxt].
    destruct (relinked_field t_owner _ _ _ _ (λ _, eq_refl) Hrel Hx') as (tk0 & H0 & E). rewrite lookup_insert_ne in H0 by done.
    rewrite E. by apply (Hown x).
Qed.
(** The fields the scheduler works with. *)
Definition core (tk : task) : task_state * Z * Z * Z := (t_state tk, t_owner tk, t_next tk, t_prev tk).

Lemma core_field {F} (f : task_state * Z * Z * Z → F) (T T' : gmap Z task) x tk' : (core <$> T' !! x = core <$> T !! x) →
  T' !! x = Some tk' → ∃ tk, T !! x = Some tk ∧ f (core tk') = f (core tk).
Proof.
  intros H Hx. rewrite Hx in H. destruct (T !! x) as [tk|]; [|done]. exists tk. split; [done|].
  apply (inj Some) in H. by rewrite H.
Qed.

Lemma core_st (T T' : gmap Z task) x : core <$> T' !! x = core <$> T !! x → st T' x = st T x.
Proof.
  unfold st. intros H. destruct (T' !! x) as [a|], (T !! x) as [b|]; try done. simpl in *. apply (inj Some) in H.
  by injection H as ->.
Qed.

Lemma sched_wf_core s l T' : sched_wf s l → (∀ x, core <$> T' !! x = core <$> k_tasks s !! x) →
  sched_wf (set_k_tasks T' s) l.
Proof.
  intros [Hr Hh Hz (Hi1 & Hi2 & Hi3) Hc0 Hcur Hrun Hown] Hcore. split; cbn [k_tasks set_k_tasks g_task_list g_idle g_current_task k_procs]; try done.
  - eapply ring_same; [|exact Hr]. intros x tk _ Hx.
    destruct (core_field id T' (k_tasks s) x tk (eq_sym (Hcore x)) Hx) as (tk' & Hx' & E). exists tk'. split; [done|].
    unfold id, core in E. by injection E as _ _ -> ->.
  - split; [done|]. split; [done|]. specialize (Hcore (g_idle s)). destruct Hi3 as [tk Ht]. rewrite Ht in Hcore.
    destruct (T' !! g_idle s); [by eexists|done].
  - by rewrite (core_st _ _ _ (Hcore _)).
  - intros x Hx. rewrite (core_st _ _ _ (Hcore _)). by apply Hrun.
  - intros x tk Hx Ht. destruct (core_field id (k_tasks s) T' x tk (Hcore x) Ht) as (tk' & Hx' & E).
    unfold id, core in E. injection E as _ -> _ _. by apply (Hown x).
Qed.

Lemma sched_wf_wakes s l T' : sched_wf s l → wakes (k_tasks s) T' → sched_wf (set_k_tasks T' s) l.
Proof.
  intros [Hr Hh Hz (Hi1 & Hi2 & Hi3) Hc0 Hcur Hrun Hown] [O W]. split; cbn [k_tasks set_k_tasks g_task_list g_idle g_current_task k_procs]; try done.
  - eapply ring_same; [by apply only_states_links|exact Hr].
  - split; [done|]. split; [done|]. by apply (os_dom _ _ O).
  - destruct Hcur as [[H1 H2]|[H1 [H2|H2]]]; [left|right|right].
    + split; [done|]. destruct (W (g_current_task s)) as [->|[_ ->]]; done.
    + split; [done|]. by left.
    + split; [done|]. right. destruct (W (g_current_task s)) as [->|[? _]]; congruence.
  - intros x Hx Hs. apply Hrun; [done|]. destruct (W x) as [<-|[_ ?]]; congruence.
  - intros x tk Hx Ht. destruct (only_states_owner _ _ _ _ O Ht) as (tk' & Hx' & ->). by apply (Hown x).
Qed.

(** Killing the current thread, which the blocked task [j] has joined. *)
Lemma thread_kill_ok d s h l1 t l2 tk j :
  sched_wf s (h :: l1 ++ t :: l2) → g_current_task s = t → k_tasks s !! t = Some tk → t_index tk ≠ 0 →
  t_joining tk = j → j ∈ h :: l1 ++ l2 → st (k_tasks s) j = Some TASK_BLOCKED →
  ∃ T, task_kill (S d) t s = Ok (tt, set_k_tasks T s) ∧ sched_wf (set_k_tasks T s) (h :: l1 ++ l2) ∧
       T !! t = Some (set_t_state TASK_DEAD tk) ∧ st T j = Some TASK_READY ∧ t ∉ h :: l1 ++ l2.
Proof.
  intros W Hc Ht Hi Hj Hjin Hjb.
  assert (t ∉ h :: l1 ++ l2) as Hout.
  { pose proof (sw_ring _ _ W) as [Hnd _]. change (h :: l1 ++ t :: l2) with ((h :: l1) ++ t :: l2) in Hnd.
    apply NoDup_app in Hnd as (_ & H1 & H2). apply NoDup_cons in H2 as [H2 _].
    change (t ∉ (h :: l1) ++ l2). intros [Hx|Hx]%elem_of_app; [|done]. apply (H1 t Hx). left. }
  assert (j ≠ t) as Htj by congruence.
  pose proof (ring_rot _ (h :: l1) (t :: l2) (sw_ring _ _ W) ltac:(done)) as Hring.
  destruct (retire_ok s t tk (l2 ++ h :: l1) Ht Hring ltac:(by destruct l2)) as (T2 & Hret & Hkd & Ht2 & Hrel).
  pose proof (retire_sched s h l1 t l2 tk T2 W Hc Ht Hkd Hrel) as W2. set (s2 := set_k_tasks T2 s) in *.
  assert (is_Some (k_tasks s2 !! j)) as Hj2 by (by eapply ring_lookup; [apply W2|]).
  assert (st T2 j = Some TASK_BLOCKED) as Hjb2.
  { rewrite (relinked_st _ _ _ Hrel). unfold st in *. by rewrite lookup_insert_ne by done. }
  exists (wake_one T2 j). split; [|split; [|split; [|split; [|done]]]].
  - cbn [task_kill]. rewrite (task_kill_retire _ _ _ _ Hret), (bind_of_ok _ _ _ _ _ (rd_task_ok s2 _ _ Ht2)).
    assert (j ≠ 0) as Hj0 by (intros ->; by apply (sw_nz _ _ W2)).
    destruct Hj2 as [tj Hj2]. destruct tk; cbn in Hi, Hj |- *. rewrite (proj2 (Z.eqb_neq _ _) Hi), Hj. unfold when, truthy.
    rewrite (proj2 (Z.eqb_neq _ _) Hj0). cbn [negb]. rewrite (bind_of_ok _ _ _ _ _ (rd_task_ok s2 _ _ Hj2)).
    rewrite task_set_ready_ok by (by eexists). by destruct s.
  - assert (set_k_tasks (wake_one T2 j) s = set_k_tasks (wake_one T2 j) s2) as -> by (by destruct s).
    apply sched_wf_wakes; [done|]. pose proof (wakes_wake j T2) as Hw. unfold wake in Hw.
    destruct (Z.eqb_spec j 0) as [E|_]; [|exact Hw]. exfalso. rewrite E in Hjin. by apply (sw_nz _ _ W2).
  - rewrite <- Ht2. unfold wake_one. destruct (T2 !! j); [|done]. case_decide; [|done]. by rewrite lookup_insert_ne.
  - rewrite st_wake_one. unfold woken. rewrite decide_True; [done|]. split; [left|done].
Qed.

(** A thread that ends with [process_exit_thread(v)] while a task waits for it
    in [process_join_thread]: the waiting task is woken (and may be the one that
    runs next), the thread is dead and out of the ring, and the join, resumed now
    or called again later, returns [v]. *)
Theorem thread_join_correct s h l1 t l2 tk j v :
  sched_wf s (h :: l1 ++ t :: l2) → truthy (g_scheduler_running s) = true → g_current_task s = t →
  k_tasks s !! t = Some tk → t_index tk ≠ 0 → t_joining tk = j → j ∈ h :: l1 ++ l2 →
  st (k_tasks s) j = Some TASK_BLOCKED →
  wp (process_exit_thread v) (λ _ s', sched_wf s' (h :: l1 ++ l2) ∧ st (k_tasks s') t = Some TASK_DEAD ∧
    (st (k_tasks s') j = Some TASK_READY ∨ g_current_task s' = j ∧ st (k_tasks s') j = Some TASK_RUNNING) ∧
    process_join_resume t s' = Ok (v, s') ∧ process_join_thread t s' = Ok (Some v, s')) never s.
Proof.
  intros W Hrun Hc Ht Hi Hj Hjin Hjb. unfold process_exit_thread. eapply wp_bind, wp_ok; [reflexivity|]. rewrite Hc.
  eapply wp_bind, wp_ok; [by apply (wr_task_ok _ _ tk)|]. cbv beta.
  set (tk1 := set_t_ret_val v tk). set (s1 := set_k_tasks _ s).
  assert (∀ x, core <$> k_tasks s1 !! x = core <$> k_tasks s !! x) as Hcore.
  { intros x. unfold s1. cbn. destruct (decide (t = x)) as [<-|]; [by rewrite lookup_insert_eq, Ht|by rewrite lookup_insert_ne]. }
  pose proof (sched_wf_core s _ _ W Hcore) as W1.
  destruct (thread_kill_ok (size (k_tasks s1)) s1 h l1 t l2 tk1 j) as (T & Hkill & W2 & HtT & HjT & Hout);
    [destruct s; exact W1|done|apply lookup_insert_eq|done|done|done|by rewrite (core_st _ _ _ (Hcore j))|].
  unfold task_exit. eapply wp_bind, wp_ok; [reflexivity|]. eapply wp_bind, wp_ok; [reflexivity|]. cbv beta.
  replace (g_current_task s1) with t by done. eapply wp_bind, wp_ok; [exact Hkill|]. cbv beta.
  eapply wp_mono; [apply (schedule_out _ _ W2); [done|cbn; by rewrite Hc]| |done].
  intros [] s' [(W3 & O & _ & _ & _ & Hst) Hcur].
  assert (g_current_task s' ≠ t) as Hne.
  { intros E. pose proof (default_ready_in (set_k_tasks T s1) (h :: l1 ++ l2)) as Hd. rewrite <- Hcur, E in Hd.
    apply elem_of_cons in Hd as [Hd|Hd]; [|done]. apply (proj1 (sw_idle _ _ W)). change (g_idle s) with (g_idle (set_k_tasks T s1)).
    rewrite <- Hd, elem_of_cons, elem_of_app, elem_of_cons. tauto. }
  change (g_current_task (set_k_tasks T s1)) with (g_current_task s) in Hst. rewrite Hc in Hst.
  assert (st (k_tasks s') t = Some TASK_DEAD) as Hdead.
  { rewrite Hst. unfold switched. rewrite decide_False by congruence.
    assert (st T t = Some TASK_DEAD) as E by (unfold st; by rewrite HtT). cbn [k_tasks set_k_tasks]. rewrite E.
    rewrite decide_False; [done|]. intros [_ ?]. done. }
  destruct (proj2 (os_dom _ _ O t) ltac:(eexists; exact HtT)) as [tk' Ht'].
  pose proof (os_same _ _ O t _ _ HtT Ht') as E. apply (f_equal t_ret_val) in E. cbn in E.
  assert (is_Some (k_tasks s' !! g_current_task s')) as [tc Htc].
  { destruct (sw_cur _ _ W3) as [[Hin _]|[_ [->|Hd]]]; [by eapply ring_lookup; [apply W3|]|apply (sw_idle _ _ W3)|].
    unfold st in Hd. by destruct (k_tasks s' !! g_current_task s'). }
  split; [done|]. split; [done|]. split; [|split].
  - rewrite Hst. unfold switched. cbn [k_tasks set_k_tasks]. destruct (decide (j = g_current_task s')) as [Ej|Ej].
    + right. split; [done|]. by rewrite decide_False.
    + left. rewrite decide_False; [done|]. intros [-> _]. done.
  - unfold process_join_resume. rewrite (bind_of_ok _ _ _ _ _ (rd_task_ok _ _ _ Ht')), E. done.
  - unfold process_join_thread. rewrite (bind_of_ok _ _ _ (g_current_task s') s') by done.
    rewrite (bind_of_ok _ _ _ _ _ (rd_task_ok _ _ _ Ht')), (bind_of_ok _ _ _ _ _ (rd_task_ok _ _ _ Htc)).
    unfold st in Hdead. rewrite Ht' in Hdead. injection Hdead as ->. by rewrite decide_True, E.
Qed.
End killing.
(** ** The process list *)

Section plist.
Context {A : Type}.
Implicit Types s : kstate A.

(** The processes on the list from [p], in order. *)
Fixpoint pchain (P : gmap Z process) (p : Z) (l : list Z) : Prop :=
  match l with
  | [] => p = 0
  | x :: l' => p = x ∧ x ≠ 0 ∧ ∃ pr, P !! x = Some pr ∧ pchain P (p_next pr) l'
  end.

Record procs_wf s (l : list Z) : Prop := {
  pw_chain : pchain (k_procs s) (s_processes s) l;
  pw_nodup : NoDup l;
  pw_last : s_last_process s = default 0 (last l)
}.

Definition pid_of s (x : Z) : option Z := p_pid <$> k_procs s !! x.

Lemma pchain_lookup P p l x : pchain P p l → x ∈ l → is_Some (P !! x).
Proof.
  revert p. induction l as [|y l IH]; intros p; simpl; [by intros _ ?%elem_of_nil|].
  intros (_ & _ & pr & Hy & Hc) [->|Hx]%elem_of_cons; [by eexists|by eapply IH].
Qed.

Lemma pchain_nz P p l x : pchain P p l → x ∈ l → x ≠ 0.
Proof.
  revert p. induction l as [|y l IH]; intros p; simpl; [by intros _ ?%elem_of_nil|].
  intros (_ & Hy & pr & _ & Hc) [->|Hx]%elem_of_cons; [done|by eapply IH].
Qed.

Lemma pchain_fuel P p l : pchain P p l → NoDup l → (length l ≤ size P)%nat.
Proof.
  intros Hc Hn. rewrite <- (size_dom P), <- (size_list_to_set (C := gset Z)) by done. apply subseteq_size.
  intros x Hx%elem_of_list_to_set. apply elem_of_dom. by eapply pchain_lookup.
Qed.

(** The first process of [l] with the pid, 0 if there is none. *)
Definition with_pid s (pid : Z) (l : list Z) : Z := default 0 (head (filter (λ x, pid_of s x = Some pid) l)).

Lemma find_proc_loop_ok s pid n : ∀ p l, pchain (k_procs s) p l → (length l < n)%nat →
  find_proc_loop n pid p s = Ok (with_pid s pid l, s).
Proof.
  unfold with_pid. induction n as [|n IH]; intros p l Hc Hn; [lia|]. destruct l as [|x l]; simpl in Hc; [by subst|].
  destruct Hc as (-> & Hx0 & pr & Hx & Hc). cbn [find_proc_loop]. unfold truthy. rewrite (proj2 (Z.eqb_neq _ _) Hx0). cbn [negb].
  rewrite (bind_of_ok _ _ _ _ _ (rd_proc_ok _ _ _ Hx)), filter_cons.
  assert (pid_of s x = Some (p_pid pr)) as Hpx by (unfold pid_of; by rewrite Hx).
  destruct (Z.eqb_spec (p_pid pr) pid) as [E|E]; [by rewrite decide_True by congruence|].
  rewrite decide_False by congruence. simpl in Hn. apply IH; [done|lia].
Qed.

Lemma find_process_ok s l pid : procs_wf s l → find_process pid s = Ok (with_pid s pid l, s).
Proof.
  intros [Hc Hn _]. apply (find_proc_loop_ok s pid (proc_fuel s) _ _ Hc). pose proof (pchain_fuel _ _ _ Hc Hn). unfold proc_fuel. lia.
Qed.

(** A process missing from the store stops the search with a fault. *)
Lemma find_proc_loop_dangles s pid x l1 : ∀ n p, (length l1 < n)%nat → x ≠ 0 → k_procs s !! x = None →
  (∃ P l2, pchain P p (l1 ++ x :: l2) ∧ ∀ y, y ∈ l1 → P !! y = k_procs s !! y) →
  (∀ y, y ∈ l1 → pid_of s y ≠ Some pid) → find_proc_loop n pid p s = Fault.
Proof.
  induction l1 as [|y l1 IH]; intros n p Hn Hx0 Hx (P & l2 & Hc & HP) Hpid; (destruct n as [|n]; [simpl in Hn; lia|]).
  - destruct Hc as (-> & _ & _). cbn [find_proc_loop]. unfold truthy. rewrite (proj2 (Z.eqb_neq _ _) Hx0). cbn [negb].
    unfold mbind, M_bind, rd_proc, at_ptr. by rewrite Hx.
  - destruct Hc as (-> & Hy0 & pr & Hy & Hc). rewrite HP in Hy by left. cbn [find_proc_loop]. unfold truthy.
    rewrite (proj2 (Z.eqb_neq _ _) Hy0). cbn [negb]. rewrite (bind_of_ok _ _ _ _ _ (rd_proc_ok _ _ _ Hy)).
    destruct (Z.eqb_spec (p_pid pr) pid) as [E|E].
    { exfalso. apply (Hpid y); [left|]. unfold pid_of. rewrite Hy. simpl. congruence. }
    simpl in Hn. apply IH; [lia|done|done| |intros z Hz; apply Hpid; by right].
    exists P, l2. split; [done|]. intros z Hz. apply HP. by right.
Qed.

Context {AL : Alloc A}.

Lemma delete_tasks_frame n : ∀ t s s', delete_tasks n t s = Ok (tt, s') →
  k_procs s' = k_procs s ∧ s_processes s' = s_processes s.
Proof.
  induction n as [|n IH]; intros t s s'; cbn [delete_tasks]; [done|]. unfold when. destruct (truthy t); [|by intros [= <-]].
  unfold mbind, M_bind at 1. destruct (rd_task t s) as [[tk s0]| | |] eqn:E; try done.
  assert (s0 = s) as -> by (unfold rd_task, at_ptr in E; destruct (k_tasks s !! t); congruence).
  unfold M_bind, task_delete, mbind, M_bind, on_alloc, zoom. destruct (al_free t (k_alloc s)) as [[[] a]| | |]; try done.
  cbn. intros H. apply IH in H. done.
Qed.

(** A process that has been waited for is freed but stays on the list: after
    [process_delete(p)] looking up any pid not found before [p] dereferences the
    freed process. *)
Theorem process_delete_dangles s l1 p l2 s' pid :
  procs_wf s (l1 ++ p :: l2) → process_delete p s = Ok (tt, s') →
  (∀ y, y ∈ l1 → pid_of s y ≠ Some pid) → find_process pid s' = Fault.
Proof.
  intros [Hc Hn _] Hdel Hpid.
  assert (k_procs s' = delete p (k_procs s) ∧ s_processes s' = s_processes s) as [HP HS].
  { revert Hdel. unfold process_delete, mbind, M_bind. destruct (rd_proc p s) as [[pr s0]| | |] eqn:E; try done.
    assert (s0 = s) as -> by (unfold rd_proc, at_ptr in E; destruct (k_procs s !! p); congruence). cbn [gets].
    destruct (delete_tasks _ _ s) as [[[] s1]| | |] eqn:Ed; try done. apply delete_tasks_frame in Ed as [E1 E2].
    unfold on_alloc, zoom. destruct (al_free p (k_alloc s1)) as [[[] a]| | |]; try done. cbn. intros [= <-]. cbn.
    by rewrite E1, E2. }
  pose proof (pchain_fuel (k_procs s) _ _ Hc Hn) as Hf. rewrite length_app in Hf. simpl in Hf.
  apply NoDup_app in Hn as (Hn1 & Hn2 & _). assert (p ∉ l1) as Hp by (intros Hx; apply (Hn2 p Hx); left).
  assert (∀ y, y ∈ l1 → k_procs s' !! y = k_procs s !! y) as Hsame.
  { intros y Hy. rewrite HP, lookup_delete_ne; [done|]. congruence. }
  assert (is_Some (k_procs s !! p)) as [pr Hpr] by (eapply pchain_lookup; [exact Hc|]; apply elem_of_app; right; left).
  assert (p ≠ 0) as Hp0 by (eapply pchain_nz; [exact Hc|]; apply elem_of_app; right; left).
  unfold find_process. rewrite (bind_of_ok _ _ _ (proc_fuel s') s'), (bind_of_ok _ _ _ (s_processes s') s') by done.
  eapply (find_proc_loop_dangles s' pid p l1); [|done|by rewrite HP, lookup_delete_eq| |].
  - unfold proc_fuel. rewrite HP, map_size_delete_Some by (by eexists).
    lia.
  - exists (k_procs s), l2. rewrite HS. split; [done|]. intros y Hy. by rewrite Hsame.
  - intros y Hy. unfold pid_of. rewrite Hsame by done. by apply Hpid.
Qed.

(** Appending to the list. *)
Lemma pchain_snoc P p l x pr y py : pchain P p (l ++ [x]) → P !! x = Some pr → y ∉ l ++ [x] → y ≠ 0 → NoDup (l ++ [x]) →
  p_next py = 0 → pchain (<[x := set_p_next y pr]> (<[y := py]> P)) p (l ++ [x; y]).
Proof.
  revert p. induction l as [|z l IH]; intros p Hc Hx Hy Hy0 Hn Hpy; simpl in *.
  - destruct Hc as (-> & Hx0 & _). split; [done|]. split; [done|]. eexists. split; [apply lookup_insert_eq|].
    split; [done|]. split; [done|]. exists py. split; [|done]. rewrite lookup_insert_ne, lookup_insert_eq; [done|].
    intros ->. apply Hy. left.
  - destruct Hc as (-> & Hz0 & pz & Hz & Hc). apply not_elem_of_cons in Hy as [Hyz Hy]. apply NoDup_cons in Hn as [Hzn Hn].
    split; [done|]. split; [done|]. exists pz. split; [|by apply IH].
    rewrite !lookup_insert_ne; [done|done|]. intros ->. apply Hzn, elem_of_app. right. left.
Qed.

(** The new process, and the list it is appended to. *)
Definition fresh_process (pid prev : Z) : process := set_p_prev prev (set_p_next 0 (set_p_pid pid zero_process)).

Lemma create_process_ok {LL : AllocLaws A} s l L :
  procs_wf s l → al_live (k_alloc s) L → (∀ x, is_Some (k_procs s !! x) → is_Some (L !! x)) →
  wp create_process (λ p s', procs_wf s' (l ++ [p]) ∧ p ≠ 0 ∧ k_procs s !! p = None ∧
    k_procs s' !! p = Some (fresh_process (s_next_pid s) (s_last_process s)) ∧
    s_next_pid s' = u32 (s_next_pid s + 1) ∧ ∀ y, y ≠ p → pid_of s' y = pid_of s y) (λ _, True) s.
Proof.
  intros [Hc Hn Hlast] Hl HL. unfold create_process. apply wp_bind, wp_zoom.
  eapply wp_mono; [by apply (al_malloc_ok _ _ sizeof_process Hl)| |done].
  intros p a (w & _ & Hp & _ & _ & Hf & _). rewrite (proj2 (Z.eqb_neq _ _)) by lia.
  assert (k_procs s !! p = None) as HpN.
  { destruct (k_procs s !! p) eqn:E; [|done]. destruct (HL p ltac:(by eexists)). congruence. }
  eapply wp_bind, wp_ok; [reflexivity|]. eapply wp_bind, wp_ok; [reflexivity|]. eapply wp_bind, wp_ok; [reflexivity|].
  eapply wp_bind, wp_ok; [apply wr_proc_ok, lookup_insert_eq|]. cbv beta.
  eapply wp_bind, wp_ok; [apply wr_proc_ok, lookup_insert_eq|]. cbv beta.
  eapply wp_bind, wp_ok; [reflexivity|]. cbv beta. kflat. rewrite !insert_insert_eq.
  assert (p ∉ l) as Hpl. { intros Hin. destruct (pchain_lookup _ _ _ _ Hc Hin). congruence. }
  unfold fresh_process. rewrite Hlast. destruct (last l) as [x|] eqn:El; simpl.
  - apply last_Some in El as [l0 ->].
    assert (∃ px, k_procs s !! x = Some px) as [px Hpx].
    { eapply pchain_lookup; [exact Hc|]. apply elem_of_app. right. left. }
    assert (x ≠ p) as Hxp by congruence.
    assert (x ≠ 0) as Hx0 by (eapply pchain_nz; [exact Hc|]; apply elem_of_app; right; left).
    unfold truthy. rewrite (proj2 (Z.eqb_neq _ _) Hx0). cbn [negb].
    eapply wp_bind, wp_bind, wp_ok; [apply wr_proc_ok, lookup_insert_eq|]. cbv beta. kflat. rewrite insert_insert_eq.
    eapply wp_ok; [apply wr_proc_ok; kflat; rewrite lookup_insert_ne by done; exact Hpx|]. kflat.
    eapply wp_bind, wp_ok; [reflexivity|]. apply wp_ret. kflat. split_and!; try done; try lia.
    + split; kflat.
      * rewrite <- app_assoc. by apply pchain_snoc; [..|lia| |].
      * apply NoDup_app. split; [done|]. split; [|apply NoDup_singleton]. by intros y Hy ->%list_elem_of_singleton.
      * by rewrite last_snoc.
    + by rewrite lookup_insert_ne, lookup_insert_eq.
    + intros y Hy. unfold pid_of. kflat. destruct (decide (x = y)) as [<-|]; [by rewrite lookup_insert_eq, Hpx|].
      by rewrite !lookup_insert_ne.
  - apply last_None in El as ->. simpl in Hc.
    eapply wp_bind, wp_bind, wp_ok; [apply wr_proc_ok, lookup_insert_eq|]. cbv beta. kflat. rewrite insert_insert_eq.
    eapply wp_ok; [reflexivity|]. eapply wp_bind, wp_ok; [reflexivity|]. apply wp_ret. kflat. split_and!; try done; try lia.
    + split; kflat; [|apply NoDup_singleton|done]. split; [done|]. split; [lia|]. eexists. split; [apply lookup_insert_eq|done].
    + apply lookup_insert_eq.
    + intros y Hy. unfold pid_of. kflat. by rewrite lookup_insert_ne.
Qed.

(** [create_process] appends a zeroed process with the next pid to the list of
    processes, where [find_process] finds it by that pid; the processes already
    there are found as before. *)
Theorem create_process_correct {LL : AllocLaws A} s l L :
  procs_wf s l → al_live (k_alloc s) L → (∀ x, is_Some (k_procs s !! x) → is_Some (L !! x)) →
  (∀ y, y ∈ l → pid_of s y ≠ Some (s_next_pid s)) →
  wp create_process (λ p s', procs_wf s' (l ++ [p]) ∧ p ≠ 0 ∧ k_procs s !! p = None ∧
    (∃ pr, k_procs s' !! p = Some pr ∧ p_handles pr = p_handles zero_process ∧ p_main_task pr = 0) ∧
    s_next_pid s' = u32 (s_next_pid s + 1) ∧ find_process (s_next_pid s) s' = Ok (p, s') ∧
    ∀ pid x, pid ≠ s_next_pid s → find_process pid s = Ok (x, s) → find_process pid s' = Ok (x, s'))
    (λ _, True) s.
Proof.
  intros W Hl HL Hnew. eapply wp_mono; [by apply (create_process_ok s l L)| |done].
  intros p s' (W' & Hp & HpN & Hpr & Hn & Hsame).
  assert (p ∉ l) as Hpl. { intros Hin. destruct (pchain_lookup _ _ _ _ (pw_chain _ _ W) Hin). congruence. }
  assert (∀ y, y ∈ l → pid_of s' y = pid_of s y) as Hs by (intros y Hy; apply Hsame; congruence).
  assert (pid_of s' p = Some (s_next_pid s)) as Hpid by (unfold pid_of; by rewrite Hpr).
  assert (∀ pid, with_pid s' pid (l ++ [p]) = default (if decide (Some (s_next_pid s) = Some pid) then p else 0)
            (head (filter (λ x, pid_of s x = Some pid) l))) as Hw.
  { intros pid. unfold with_pid. rewrite filter_app, filter_cons, Hpid.
    assert (filter (λ x, pid_of s' x = Some pid) l = filter (λ x, pid_of s x = Some pid) l) as ->.
    { clear -Hs. induction l as [|y l IH]; [done|]. rewrite !filter_cons, (Hs y) by left. rewrite IH; [done|].
      intros z Hz. apply Hs. by right. }
    destruct (filter _ l); simpl; repeat case_decide; done. }
  split; [done|]. split; [done|]. split; [done|]. split; [by eexists|]. split; [done|]. split.
  - rewrite (find_process_ok s' _ _ W'), Hw, decide_True by done. do 2 f_equal.
    destruct (filter _ l) as [|y l'] eqn:E; [done|]. exfalso. assert (y ∈ y :: l') as Hy by left. rewrite <- E in Hy.
    apply list_elem_of_filter in Hy as [H1 H2]. by destruct (Hnew y H2).
  - intros pid x Hne. rewrite (find_process_ok s l _ W), (find_process_ok s' _ _ W'), Hw, decide_False by congruence.
    unfold with_pid. congruence.
Qed.
End plist.
(** ** Witnesses *)

Definition demo_thread (id index : Z) (v : task_state) (owner joining nx pv : Z) : task :=
  mkTask id index v owner joining 0 0 0 0 0 0 0 0 0 0 nx pv.

(** Three tasks in a ring: 16 and 32 are the main tasks of the processes 1000 and
    2000, and 48 is a second thread of 1000 that 16 has joined; 64 is idle. *)
Definition demo_procs {A} (a : A) (v16 v48 : task_state) (cur : Z) : kstate A :=
  mkK a (<[16 := demo_thread 1 0 v16 1000 0 32 48]> (<[32 := demo_thread 2 0 TASK_BLOCKED 2000 0 48 16]>
          (<[48 := demo_thread 3 1 v48 1000 16 16 32]> {[64 := demo_thread 4 0 TASK_READY 0 0 0 0]})))
      (<[1000 := set_p_next 2000 (demo_proc 1 16)]> {[2000 := demo_proc 2 32]})
      (<[4000 := demo_pipe]> {[5000 := demo_pipe]}) {[3000 := demo_chan]} (replicate 32 no_server)
      1 cur 16 64 5 3 1000 2000 (replicate 256 (0, 0)) 0 ∅ 0 0 0.

Lemma demo_procs_ring {A} (a : A) v16 v48 cur l : l = [16; 32; 48] ∨ l = [32; 48; 16] →
  ring (k_tasks (demo_procs a v16 v48 cur)) l.
Proof.
  intros [->| ->]; (split; [apply (bool_decide_unpack _); vm_compute; exact I|]);
    (split; [by eexists|]); (split; [by eexists|]); (split; [by eexists|done]).
Qed.

Lemma demo_killable {A} (a : A) v16 v48 cur : killable (demo_procs a v16 v48 cur) 2000 (demo_proc 2 32).
Proof.
  split; [reflexivity|vm_compute; reflexivity| |by left].
  intros ch Hch. apply elem_of_cons in Hch as [[= ->]|Hch]; [|by apply elem_of_replicate in Hch as [[=] _]].
  exists demo_chan. split; [reflexivity|]. intros []; [right; by eexists|by left].
Qed.


Lemma thread_join_correct_witness :
  ∃ s', process_exit_thread 77 (demo_procs tt TASK_BLOCKED TASK_RUNNING 48) = Ok (tt, s') ∧
        st (k_tasks s') 48 = Some TASK_DEAD ∧ process_join_resume 48 s' = Ok (77, s').
Proof.
  assert (sched_wf (demo_procs tt TASK_BLOCKED TASK_RUNNING 48) (16 :: [32] ++ 48 :: [])) as W.
  { split; [apply demo_procs_ring; by left|done|by apply (bool_decide_unpack _)| |done|left|..].
    - split; [by apply (bool_decide_unpack _)|]. split; [done|by eexists].
    - split; [by apply (bool_decide_unpack _)|done].
    - intros x Hx. repeat (apply elem_of_cons in Hx as [->|Hx]; [done|]). by apply elem_of_nil in Hx.
    - intros x tk Hx Ht. repeat (apply elem_of_cons in Hx as [->|Hx]; [injection Ht as <-; first [by left|right; by eexists]|]).
      by apply elem_of_nil in Hx. }
  pose proof (thread_join_correct (demo_procs tt TASK_BLOCKED TASK_RUNNING 48) 16 [32] 48 []
    (demo_thread 3 1 TASK_RUNNING 1000 16 16 32) 16 77 W eq_refl eq_refl eq_refl ltac:(done) eq_refl ltac:(left) eq_refl) as H.
  apply wp_run in H as ([] & s' & Hrun & _ & Hd & _ & Hj & _). exists s'. split; [exact Hrun|]. split; [exact Hd|exact Hj].
Defined.

#[local] Existing Instance Heap.vm_backing.
#[local] Existing Instance Heap.vm_laws.

Lemma create_process_correct_witness :
  is_ok (create_process demo_kernel) = true ∧
  wp create_process (λ p s', procs_wf s' [p] ∧ find_process 1 s' = Ok (p, s')) (λ _, True) demo_kernel.
Proof.
  split; [vm_compute; reflexivity|].
  eapply wp_mono; [apply (create_process_correct demo_kernel [] (Heap.live Vmm.KERNEL_HEAP [(16352, true)]))| |done].
  - split; [done|apply NoDup_nil_2|done].
  - exact demo_kernel_live.
  - intros x [pr Hx]. cbn in Hx. by rewrite lookup_empty in Hx.
  - intros y Hy. by apply elem_of_nil in Hy.
  - intros p s' (W & _ & _ & _ & _ & Hf & _). split; [exact W|exact Hf].
Defined.

(** An allocator that accepts every free. *)
Definition demo_free : Alloc unit := {| al_malloc := λ _, mret 0; al_free := λ _, mret tt |}.

Lemma process_delete_dangles_witness :
  let s := demo_procs tt TASK_RUNNING TASK_READY 16 in
  find_process 9 (final (process_delete (H := demo_free) 2000) s) = Fault.
Proof.
  intros s. apply (process_delete_dangles (AL := demo_free) s [1000] 2000 [] _ 9).
  - split; [|by apply (bool_decide_unpack _)|done]. split; [done|]. split; [done|]. eexists. split; [reflexivity|].
    split; [done|]. split; [done|]. eexists. split; [reflexivity|done].
  - rewrite <- (final_ok (process_delete (H := demo_free) 2000)); [reflexivity|]. vm_compute. reflexivity.
  - intros y [->|Hy]%elem_of_cons; [done|]. by apply elem_of_nil in Hy.
Defined.
End Proc.
