(* ===== verification/Bytes.v ===== *)
(** * Integers in byte buffers

    The kernel reads packed structs straight out of byte buffers (disk sectors,
    network packets); these are the little-endian loads and stores it relies on. *)
From S2P Require Import Prelude.

Module Bytes.

(** Byte [i] of a buffer, 0 past its end (callers stay inside). *)
Definition byte (b : list Z) (i : nat) : Z := nth i b 0.

Definition le16 (b : list Z) (i : nat) : Z := byte b i + 2 ^ 8 * byte b (i + 1).
Definition le32 (b : list Z) (i : nat) : Z := le16 b i + 2 ^ 16 * le16 b (i + 2).
Definition le64 (b : list Z) (i : nat) : Z := le32 b i + 2 ^ 32 * le32 b (i + 4).

(** The bytes of an integer of [n] bytes. *)
Fixpoint le_bytes (n : nat) (v : Z) : list Z :=
  match n with
  | O => []
  | S n' => u8 v :: le_bytes n' (Z.shiftr v 8)
  end.

Definition is_byte (v : Z) : Prop := 0 ≤ v < 256.

(** [n] bytes from offset [i]. *)
Definition slice (b : list Z) (i n : nat) : list Z := take n (drop i b).

(** The value of a little-endian byte string. *)
Fixpoint le_val (b : list Z) : Z :=
  match b with [] => 0 | c :: b' => c + 256 * le_val b' end.

Lemma le_bytes_length n v : length (le_bytes n v) = n.
Proof. revert v. induction n as [|n IH]; intros v; simpl; [done|by rewrite IH]. Qed.

Lemma le_bytes_val n v : 0 ≤ v → le_val (le_bytes n v) = v mod 2 ^ (8 * Z.of_nat n).
Proof.
  revert v. induction n as [|n IH]; intros v Hv; [simpl; by rewrite Z.mod_1_r|].
  cbn [le_bytes le_val]. rewrite IH by (by apply Z.shiftr_nonneg).
  rewrite Z.shiftr_div_pow2 by lia. unfold u8. change (2 ^ 8) with 256.
  replace (8 * Z.of_nat (S n)) with (8 + 8 * Z.of_nat n) by lia. rewrite Z.pow_add_r by lia. change (2 ^ 8) with 256.
  rewrite Z.rem_mul_r; [lia|lia|]. apply Z.pow_pos_nonneg; lia.
Qed.

Lemma byte_range b i : Forall is_byte b → 0 ≤ byte b i < 256.
Proof.
  intros H. unfold byte. destruct (nth_lookup_or_length b i 0) as [E|E].
  - exact (Forall_lookup_1 _ _ _ _ H E).
  - rewrite nth_overflow by lia. lia.
Qed.

Lemma le16_range b i : Forall is_byte b → 0 ≤ le16 b i < 2 ^ 16.
Proof. intros H. unfold le16. pose proof (byte_range b i H). pose proof (byte_range b (i + 1) H). lia. Qed.

Lemma le32_range b i : Forall is_byte b → 0 ≤ le32 b i < 2 ^ 32.
Proof. intros H. unfold le32. pose proof (le16_range b i H). pose proof (le16_range b (i + 2) H). lia. Qed.

Lemma slice_length b i n : (i + n ≤ length b)%nat → length (slice b i n) = n.
Proof. intros H. unfold slice. rewrite length_take, length_drop. lia. Qed.

(** Stores read back: the bytes written at an offset are the value loaded there. *)
Lemma le16_bytes a v b : 0 ≤ v < 2 ^ 16 → le16 (a ++ le_bytes 2 v ++ b) (length a) = v.
Proof.
  intros Hv. unfold le16, byte. rewrite (app_nth2 a _ 0 (n := length a)), (app_nth2 a _ 0 (n := length a + 1)), Nat.sub_diag by lia.
  replace (length a + 1 - length a)%nat with 1%nat by lia. cbn [le_bytes app nth].
  unfold u8. rewrite Z.shiftr_div_pow2 by lia. change (2 ^ 16) with 65536 in *. change (2 ^ 8) with 256. dlia.
Qed.

Lemma le32_bytes a v b : 0 ≤ v < 2 ^ 32 → le32 (a ++ le_bytes 4 v ++ b) (length a) = v.
Proof.
  intros Hv. unfold le32.
  assert (a ++ le_bytes 4 v ++ b = a ++ le_bytes 2 (v mod 2 ^ 16) ++ le_bytes 2 (v / 2 ^ 16) ++ b) as ->.
  { f_equal. cbn [le_bytes app]. unfold u8. rewrite !Z.shiftr_div_pow2 by lia. change (2 ^ 16) with 65536. change (2 ^ 8) with 256.
    change (2 ^ 32) with 4294967296 in *. f_equal; [dlia|f_equal; [dlia|f_equal; [dlia|f_equal; dlia]]]. }
  rewrite le16_bytes by (apply Z.mod_pos_bound; lia).
  rewrite app_assoc, <- (app_assoc a). rewrite (app_assoc a). 
  replace (length a + 2)%nat with (length (a ++ le_bytes 2 (v mod 2 ^ 16))) by (rewrite length_app; done).
  rewrite le16_bytes; [pose proof (Z.div_mod v (2 ^ 16)); lia|].
  change (2 ^ 16) with 65536. change (2 ^ 32) with 4294967296 in *. dlia.
Qed.

Lemma slice_app a m b : slice (a ++ m ++ b) (length a) (length m) = m.
Proof. unfold slice. by rewrite drop_app_length, take_app_length. Qed.

Lemma le16_at d n v a b : d = a ++ le_bytes 2 v ++ b → length a = n → 0 ≤ v < 2 ^ 16 → le16 d n = v.
Proof. intros -> <-. apply le16_bytes. Qed.

Lemma le32_at d n v a b : d = a ++ le_bytes 4 v ++ b → length a = n → 0 ≤ v < 2 ^ 32 → le32 d n = v.
Proof. intros -> <-. apply le32_bytes. Qed.

Lemma slice_at d n k m a b : d = a ++ m ++ b → length a = n → length m = k → slice d n k = m.
Proof. intros -> <- <-. apply slice_app. Qed.
End Bytes.
