(* ===== verification/Fat32.v ===== *)
(** * The FAT32 driver ([kernel/filesystem/fat32.c])

    Reading only, as in the code. The disk is behind the function pointer
    [g_block_read]; a read that fails leaves the caller's buffer as it was, which
    the code does not notice. Loops over cluster chains take a bound, since a
    damaged chain may be circular. *)
From S2P Require Import Prelude Vmm Heap Kobj Bytes.
Import Kobj Bytes.

Module Fat32.

Definition FAT32_ATTR_VOLUME : Z := 0x08.
Definition FAT32_ATTR_DIRECTORY : Z := 0x10.
Definition FAT32_ATTR_LFN : Z := 0x0F.
Definition FAT32_LFN_ENTRY_LAST : Z := 0x40.
Definition FAT32_LFN_SEQUENCE_MASK : Z := 0x1F.
Definition FAT32_MAX_OPEN_FILES : Z := 16.
Definition END_OF_CHAIN : Z := 0x0FFFFFF8.

(** Fields of the boot sector [fat32_bpb], from its bytes. *)
Definition sectors_per_cluster (bpb : list Z) : Z := byte bpb 13.
Definition reserved_sectors (bpb : list Z) : Z := le16 bpb 14.
Definition fat_count (bpb : list Z) : Z := byte bpb 16.
Definition sectors_per_fat_32 (bpb : list Z) : Z := le32 bpb 36.
Definition root_cluster (bpb : list Z) : Z := le32 bpb 44.

(** A directory entry is 32 bytes, a [fat32_directory_entry] or, by its
    attributes, a [fat32_lfn_entry]. *)
Definition e_name (e : list Z) : list Z := take 11 e.
Definition e_attributes (e : list Z) : Z := byte e 11.
Definition e_cluster_high (e : list Z) : Z := le16 e 20.
Definition e_cluster_low (e : list Z) : Z := le16 e 26.
Definition e_size (e : list Z) : Z := le32 e 28.
Definition e_sequence_number (e : list Z) : Z := byte e 0.

(** [((uint)cluster_high << 0x10) | cluster_low] *)
Definition e_cluster (e : list Z) : Z := Z.lor (Z.shiftl (e_cluster_high e) 16) (e_cluster_low e).

Record fat32_file := mkFile { ff_first_cluster : Z; ff_size : Z; ff_is_dir : bool }.

Record file_dirent := mkDirent { d_name : list Z; d_is_dir : bool; d_file_size : Z }.

Definition block_read_fn : Type := Z → Z → option (list Z).

Record fat_state (A : Type) := mkFat {
  f_alloc : A;
  g_block_read : option block_read_fn;
  g_bpb : list Z;
  g_lba_start : Z;
  fat_pool : list fat32_file;
  fat_pool_used : list bool
}.
Arguments mkFat {A}.
Arguments f_alloc {A}.
Arguments g_block_read {A}.
Arguments g_bpb {A}.
Arguments g_lba_start {A}.
Arguments fat_pool {A}.
Arguments fat_pool_used {A}.

(** ** Names *)

(** The [char] with the given byte. *)
Definition schar (c : Z) : Z := if c <? 128 then c else c - 256.

Definition to_upper (c : Z) : Z := if (97 <=? c) && (c <=? 122) then c - 0x20 else c.

(** Fill [padded] from [component] while [more] holds, from index [i] up to
    [lim]: [None] if it does not fit, else what is left of the component. *)
Fixpoint fill_name (more : Z → bool) (lim i : nat) (component padded : list Z) : option (list Z * list Z) :=
  match component with
  | [] => Some ([], padded)
  | c :: rest =>
      if more c then
        if (lim <=? i)%nat then None
        else fill_name more lim (S i) rest (<[i := to_upper (schar c)]> padded)
      else Some (component, padded)
  end.

Definition name_matches (fat_name component : list Z) : bool :=
  match fill_name (λ c, negb (c =? 46)) 8 0 component (replicate 11 32) with
  | None => false
  | Some (rest, padded) =>
      match match rest with
            | [] => Some padded
            | _ :: ext => snd <$> fill_name (λ _, true) 11 8 ext padded
            end with
      | None => false
      | Some padded => bool_decide (fat_name = padded)
      end
  end.

(** [str1] the [len] characters to compare; past the end of [str2], [None]. *)
Fixpoint path_matches (str1 str2 : list Z) : option bool :=
  match str1, str2 with
  | [], _ => Some true
  | _ :: _, [] => None
  | c1 :: str1', c2 :: str2' =>
      if to_upper (schar c1) =? to_upper (schar c2) then
        if c1 =? 0 then Some true else path_matches str1' str2'
      else Some false
  end.

(** The 13 characters of a long-name entry. *)
Definition lfn_chars (e : list Z) : list Z :=
  map (λ i, u8 (le16 e i)) [1; 3; 5; 7; 9; 14; 16; 18; 20; 22; 24; 28; 30]%nat.

(** Store bytes at an index of a buffer; outside it, a fault ([None]). *)
Definition store_at (buf : list Z) (i : Z) (bs : list Z) : option (list Z) :=
  if (0 <=? i) && (i + Z.of_nat (length bs) <=? Z.of_nat (length buf))
  then Some (take (Z.to_nat i) buf ++ bs ++ drop (Z.to_nat i + length bs) buf) else None.

Definition parse_lfn_name (e buf : list Z) (i : Z) : option (list Z) := store_at buf i (lfn_chars e).

(** The long-name part an entry contributes to the name buffer. *)
Definition store_lfn (e buf : list Z) : option (list Z) :=
  let seq := Z.land (e_sequence_number e) FAT32_LFN_SEQUENCE_MASK in
  buf ← (if truthy (Z.land (e_sequence_number e) FAT32_LFN_ENTRY_LAST) then store_at buf (seq * 13) [0] else Some buf);
  parse_lfn_name e buf ((seq - 1) * 13).
(** ** Walking the disk *)

(** What looking at directory entries leads to. *)
Inductive scan :=
| NotFound
| Found (f : fat32_file)
| Enter (cluster : Z) (name_buf : list Z)
| More (has_lfn : bool) (name_buf : list Z).

(** One entry, against a component of the path ([last]: nothing follows it). *)
Definition open_entry (comp : list Z) (last : bool) (e : list Z) (has_lfn : bool) (name_buf : list Z) : outcome scan :=
  if byte e 0 =? 0x00 then Ok NotFound
  else if byte e 0 =? 0xE5 then Ok (More false name_buf)
  else if e_attributes e =? FAT32_ATTR_LFN then
    match store_lfn e name_buf with Some nb => Ok (More true nb) | None => Fault end
  else if truthy (Z.land (e_attributes e) FAT32_ATTR_VOLUME) then Ok (More false name_buf)
  else
    match (if has_lfn then path_matches comp name_buf else Some false) with
    | None => Fault
    | Some m =>
        if m || name_matches (e_name e) comp then
          if last then
            Ok (Found (mkFile (e_cluster e) (e_size e) (truthy (Z.land (e_attributes e) FAT32_ATTR_DIRECTORY))))
          else Ok (Enter (e_cluster e) name_buf)
        else Ok (More false name_buf)
    end.

Fixpoint scan_entries (comp : list Z) (last : bool) (es : list (list Z)) (has_lfn : bool) (name_buf : list Z) : outcome scan :=
  match es with
  | [] => Ok (More has_lfn name_buf)
  | e :: es' =>
      match open_entry comp last e has_lfn name_buf with
      | Ok (More has_lfn name_buf) => scan_entries comp last es' has_lfn name_buf
      | r => r
      end
  end.

(** The 16 entries of a sector. *)
Definition sector_entries (buf : list Z) : list (list Z) := map (λ j, slice buf (32 * j) 32) (seq 0 16).

Fixpoint split_component (l : list Z) : list Z * list Z :=
  match l with
  | [] => ([], [])
  | c :: l' => if c =? 47 then ([], l) else (c :: fst (split_component l'), snd (split_component l'))
  end.

Section ops.
Context {A : Type} `{Alloc A}.
Local Notation F := (fat_state A).

(** Contents of the uninitialised local buffers. *)
Context (entries0 buf0 name_buf0 : list Z).

Definition set_alloc (a : A) (s : F) : F := mkFat a (g_block_read s) (g_bpb s) (g_lba_start s) (fat_pool s) (fat_pool_used s).
Definition set_pool (p : list fat32_file) (u : list bool) (s : F) : F :=
  mkFat (f_alloc s) (g_block_read s) (g_bpb s) (g_lba_start s) p u.

Definition fat32_set_block_read (fn : block_read_fn) : M F unit :=
  modify (λ s, mkFat (f_alloc s) (Some fn) (g_bpb s) (g_lba_start s) (fat_pool s) (fat_pool_used s)).

(** [g_block_read(lba, count, buf)]: the new contents of the buffer. *)
Definition block_read (lba count : Z) (buf : list Z) : M F (list Z) :=
  f ← gets g_block_read;
  match f with
  | None => fault
  | Some f => mret (match f lba count with Some bs => bs ++ drop (length bs) buf | None => buf end)
  end.

Definition cluster_to_sector (cluster : Z) : M F Z :=
  bpb ← gets g_bpb;
  lba ← gets g_lba_start;
  let data_start := u32 (reserved_sectors bpb + fat_count bpb * sectors_per_fat_32 bpb) in
  mret (u32 (lba + data_start + (cluster - 2) * sectors_per_cluster bpb)).

Definition next_cluster (cluster : Z) : M F Z :=
  bpb ← gets g_bpb;
  start ← gets g_lba_start;
  let lba := u32 (start + reserved_sectors bpb + u32 (cluster * 4) / 512) in
  let offset := (cluster mod 128) * 4 in
  buf ← block_read lba 1 buf0;
  mret (Z.land (le32 buf (Z.to_nat offset)) 0x0FFFFFFF).

(** The sectors of a cluster, [n] of them left; the sector buffer is kept. *)
Fixpoint open_sectors (comp : list Z) (last : bool) (n : nat) (sector : Z) (entries : list Z)
    (has_lfn : bool) (name_buf : list Z) : M F (scan * list Z) :=
  match n with
  | O => mret (More has_lfn name_buf, entries)
  | S n' =>
      entries ← block_read sector 1 entries;
      match scan_entries comp last (sector_entries entries) has_lfn name_buf with
      | Ok (More has_lfn name_buf) => open_sectors comp last n' (u32 (sector + 1)) entries has_lfn name_buf
      | Ok r => mret (r, entries)
      | Panic m => panic m
      | Fault => fault
      | NoFuel => no_fuel
      end
  end.

(** The clusters of a directory. *)
Fixpoint open_dir (fuel : nat) (comp : list Z) (last : bool) (cluster : Z) (entries : list Z)
    (has_lfn : bool) (name_buf : list Z) : M F (scan * list Z) :=
  match fuel with
  | O => no_fuel
  | S fuel' =>
      if cluster <? END_OF_CHAIN then
        sector ← cluster_to_sector cluster;
        bpb ← gets g_bpb;
        r ← open_sectors comp last (Z.to_nat (sectors_per_cluster bpb)) sector entries has_lfn name_buf;
        match r with
        | (More has_lfn name_buf, entries) =>
            cluster ← next_cluster cluster;
            open_dir fuel' comp last cluster entries has_lfn name_buf
        | r => mret r
        end
      else mret (NotFound, entries)
  end.

(** The components of the path; a trailing slash takes the scan for the next
    component past the end of the string. *)
Fixpoint open_path (n fuel : nat) (path_start : list Z) (cluster : Z) (entries name_buf : list Z) : M F (option fat32_file) :=
  match n with
  | O => no_fuel
  | S n' =>
      match path_start with
      | [] => fault
      | c :: l =>
          let comp := c :: fst (split_component l) in
          let path_end := snd (split_component l) in
          r ← open_dir fuel comp (bool_decide (path_end = [])) cluster entries false name_buf;
          match r with
          | (Found f, _) => mret (Some f)
          | (Enter cluster name_buf, entries) => open_path n' fuel (tail path_end) cluster entries name_buf
          | _ => mret None
          end
      end
  end.

(** [None] when the path is not found (the code's 1). *)
Definition open (fuel : nat) (path : list Z) : M F (option fat32_file) :=
  bpb ← gets g_bpb;
  match path with
  | [] => fault
  | c :: rest =>
      if (c =? 47) && bool_decide (rest = []) then mret (Some (mkFile (root_cluster bpb) 0 true))
      else open_path (length path) fuel rest (root_cluster bpb) entries0 name_buf0
  end.

Fixpoint alloc_file_loop (used : list bool) (i : Z) : option Z :=
  match used with
  | [] => None
  | u :: used' => if u then alloc_file_loop used' (i + 1) else Some i
  end.

(** The index of the pool entry taken. *)
Definition alloc_file : M F (option Z) :=
  used ← gets fat_pool_used;
  match alloc_file_loop used 0 with
  | None => mret None
  | Some i => modify (λ s, set_pool (fat_pool s) (<[Z.to_nat i := true]> (fat_pool_used s)) s) ;; mret (Some i)
  end.

Definition free_file (idx : Z) : M F unit :=
  when ((0 <=? idx) && (idx <? FAT32_MAX_OPEN_FILES))
    (modify (λ s, set_pool (fat_pool s) (<[Z.to_nat idx := false]> (fat_pool_used s)) s)).

(** The [priv] and [size] of the handle, [None] on failure (the code's -1). *)
Definition fat32_open (fuel : nat) (path : list Z) : M F (option (Z * Z)) :=
  o ← alloc_file;
  match o with
  | None => mret None
  | Some i =>
      r ← open fuel path;
      match r with
      | None => free_file i ;; mret None
      | Some f =>
          modify (λ s, set_pool (<[Z.to_nat i := f]> (fat_pool s)) (fat_pool_used s) s) ;;
          mret (Some (i, ff_size f))
      end
  end.

Definition fat32_close (priv : Z) : M F unit := free_file priv.

(** The copy loop of [read]: the bytes stored so far are [dst]. *)
Fixpoint read_loop (fuel : nat) (cluster count cluster_size : Z) (tmp dst : list Z) : M F (list Z) :=
  match fuel with
  | O => no_fuel
  | S fuel' =>
      let bytes_read := Z.of_nat (length dst) in
      if (cluster <? END_OF_CHAIN) && (bytes_read <? count) then
        lba ← cluster_to_sector cluster;
        bpb ← gets g_bpb;
        tmp ← block_read lba (sectors_per_cluster bpb) tmp;
        let remaining := count - bytes_read in
        let to_copy := if remaining <? cluster_size then remaining else cluster_size in
        cluster ← next_cluster cluster;
        read_loop fuel' cluster count cluster_size tmp (dst ++ take (Z.to_nat to_copy) tmp)
      else mret dst
  end.

(** The bytes stored; their number is the return value. [tmp0] is what [kmalloc]
    returned. *)
Definition read (fuel : nat) (tmp0 : list Z) (file : fat32_file) (count : Z) : M F (list Z) :=
  bpb ← gets g_bpb;
  let cluster_size := sectors_per_cluster bpb * 512 in
  p ← zoom f_alloc set_alloc (al_malloc cluster_size);
  bs ← read_loop fuel (ff_first_cluster file) count cluster_size tmp0 [];
  zoom f_alloc set_alloc (al_free p) ;;
  mret bs.

Definition fat32_read (fuel : nat) (tmp0 : list Z) (priv count : Z) : M F (list Z) :=
  pool ← gets fat_pool;
  f ← of_option (pool !! Z.to_nat priv);
  read fuel tmp0 f count.

(** The boot sector overwrites [g_bpb] (and one byte behind it: the struct has
    511 bytes). *)
Definition fat32_init (lba_start : Z) : M F unit :=
  modify (λ s, mkFat (f_alloc s) (g_block_read s) (g_bpb s) lba_start (fat_pool s) (fat_pool_used s)) ;;
  old ← gets g_bpb;
  bpb ← block_read lba_start 1 old;
  modify (λ s, mkFat (f_alloc s) (g_block_read s) bpb (g_lba_start s) (fat_pool s) (fat_pool_used s)).
End ops.
(** ** Listing a directory *)

(** The 8.3 name with its dot, spaces dropped. *)
Definition short_name (fat_name : list Z) : list Z :=
  concat (imap (λ k ch, (if ch =? 32 then [] else [ch]) ++
                        (if (k =? 7)%nat && negb (byte fat_name 8 =? 32) then [46] else [])) fat_name).

(** The listing so far, and whether it is finished. *)
Record listing := mkListing { l_done : bool; l_has_lfn : bool; l_out : list file_dirent; l_count : Z }.

Definition upd_dirent (f : file_dirent → option file_dirent) (i : Z) (out : list file_dirent) : option (list file_dirent) :=
  d ← out !! Z.to_nat i;
  d' ← f d;
  Some (<[Z.to_nat i := d']> out).

Definition readdir_entry (max : Z) (e : list Z) (s : listing) : option listing :=
  if byte e 0 =? 0x00 then Some (mkListing true (l_has_lfn s) (l_out s) (l_count s))
  else if (byte e 0 =? 0xE5) || (byte e 0 =? 46) then Some s
  else if e_attributes e =? FAT32_ATTR_LFN then
    out ← upd_dirent (λ d, nb ← store_lfn e (d_name d); Some (mkDirent nb (d_is_dir d) (d_file_size d))) (l_count s) (l_out s);
    Some (mkListing false true out (l_count s))
  else
    out ← upd_dirent (λ d,
      nm ← (if l_has_lfn s then Some (d_name d) else store_at (d_name d) 0 (short_name (e_name e) ++ [0]));
      Some (mkDirent nm (truthy (Z.land (e_attributes e) FAT32_ATTR_DIRECTORY)) (e_size e))) (l_count s) (l_out s);
    Some (mkListing (l_count s + 1 =? max) false out (l_count s + 1)).

Fixpoint readdir_entries (max : Z) (es : list (list Z)) (s : listing) : option listing :=
  match es with
  | [] => Some s
  | e :: es' => s' ← readdir_entry max e s; if l_done s' then Some s' else readdir_entries max es' s'
  end.

Section readdir.
Context {A : Type} `{Alloc A}.
Local Notation F := (fat_state A).
Context (entries0 buf0 name_buf0 : list Z).

Fixpoint readdir_sectors (max : Z) (n : nat) (sector : Z) (entries : list Z) (s : listing) : M F (listing * list Z) :=
  match n with
  | O => mret (s, entries)
  | S n' =>
      entries ← block_read sector 1 entries;
      s ← of_option (readdir_entries max (sector_entries entries) s);
      if l_done s then mret (s, entries) else readdir_sectors max n' (u32 (sector + 1)) entries s
  end.

Fixpoint readdir_dir (fuel : nat) (max cluster : Z) (entries : list Z) (s : listing) : M F listing :=
  match fuel with
  | O => no_fuel
  | S fuel' =>
      if cluster <? END_OF_CHAIN then
        sector ← cluster_to_sector cluster;
        bpb ← gets g_bpb;
        r ← readdir_sectors max (Z.to_nat (sectors_per_cluster bpb)) sector entries s;
        if l_done (fst r) then mret (fst r)
        else cluster ← next_cluster buf0 cluster; readdir_dir fuel' max cluster (snd r) (fst r)
      else mret s
  end.

(** The entries stored and their number. *)
Definition fat32_readdir (fuel : nat) (path : list Z) (out : list file_dirent) (max : Z) : M F (Z * list file_dirent) :=
  r ← open entries0 buf0 name_buf0 fuel path;
  match r with
  | None => mret (0, out)
  | Some f =>
      if ff_is_dir f then
        s ← readdir_dir fuel max (ff_first_cluster f) entries0 (mkListing false false out 0);
        mret (l_count s, l_out s)
      else mret (0, out)
  end.
End readdir.
(** ** The volume the driver reads *)

(** A disk of 512-byte sectors that never fails. *)
Definition disk_fn (disk : Z → list Z) : block_read_fn :=
  λ lba n, Some (concat (map (λ i, disk (lba + i)) (seqZ 0 n))).

Section volume.
Context (disk : Z → list Z).
Context (bpb : list Z) (start : Z) (nclusters : Z).

Definition spc : Z := sectors_per_cluster bpb.
Definition fat_lba : Z := start + reserved_sectors bpb.
Definition data_lba : Z := fat_lba + fat_count bpb * sectors_per_fat_32 bpb.

(** The FAT is an array of 32-bit entries of which 28 bits count. *)
Definition fat_entry (c : Z) : Z := Z.land (le32 (disk (fat_lba + 4 * c / 512)) (Z.to_nat ((4 * c) mod 512))) 0x0FFFFFFF.

Definition cluster_lba (c : Z) : Z := data_lba + (c - 2) * spc.
Definition cluster_sectors (c : Z) : list (list Z) := map (λ i, disk (cluster_lba c + i)) (seqZ 0 spc).
Definition cluster_data (c : Z) : list Z := concat (cluster_sectors c).

(** [l] are the clusters of the chain from [c]. *)
Fixpoint chain (c : Z) (l : list Z) : Prop :=
  match l with
  | [] => END_OF_CHAIN ≤ c
  | x :: l' => c = x ∧ 2 ≤ x < nclusters + 2 ∧ chain (fat_entry x) l'
  end.

Definition chain_data (l : list Z) : list Z := concat (map cluster_data l).
Definition dir_entries (l : list Z) : list (list Z) := concat (map (λ c, concat (map sector_entries (cluster_sectors c))) l).

(** Sectors are whole, and every sector number fits in 32 bits. *)
Record volume_ok : Prop := {
  vo_sector lba : length (disk lba) = 512%nat;
  vo_spc : 0 < spc < 256;
  vo_start : 0 ≤ start;
  vo_bytes : Forall is_byte bpb;
  vo_clusters : nclusters + 2 ≤ END_OF_CHAIN;
  vo_fits : data_lba + nclusters * spc ≤ 2 ^ 32
}.

Context (V : volume_ok).

Lemma bpb_ranges : 0 ≤ reserved_sectors bpb ∧ 0 ≤ fat_count bpb ∧ 0 ≤ sectors_per_fat_32 bpb ∧
  0 ≤ fat_count bpb * sectors_per_fat_32 bpb.
Proof.
  pose proof (vo_bytes V) as Hb. pose proof (le16_range bpb 14 Hb). pose proof (byte_range bpb 16 Hb). pose proof (le32_range bpb 36 Hb).
  unfold reserved_sectors, fat_count, sectors_per_fat_32. split_and!; nia.
Qed.

Section run.
Context {A : Type} `{Alloc A}.
Implicit Types s : fat_state A.
Context (entries0 buf0 name_buf0 : list Z).

(** The sectors of the volume end here. *)
Definition volume_end : Z := data_lba + nclusters * spc.

(** [f] reads the volume's sectors as they are on the disk. *)
Definition serves (f : block_read_fn) : Prop :=
  ∀ lba n, 0 ≤ lba → 0 < n < 256 → lba + n ≤ volume_end → f lba n = disk_fn disk lba n.

(** The driver's state is set up for this volume. *)
Record mounted s : Prop := {
  mo_fn : ∃ f, g_block_read s = Some f ∧ serves f;
  mo_bpb : g_bpb s = bpb;
  mo_start : g_lba_start s = start
}.

Lemma block_read_ok s lba n buf : mounted s → 0 ≤ lba → 0 < n < 256 → lba + n ≤ volume_end →
  block_read lba n buf s = Ok (concat (map (λ i, disk (lba + i)) (seqZ 0 n)) ++
    drop (length (concat (map (λ i, disk (lba + i)) (seqZ 0 n)))) buf, s).
Proof.
  intros [(f & H1 & Hf) _ _] H0 Hn He. unfold block_read. rewrite (bind_of_ok _ _ _ (g_block_read s) s) by done.
  rewrite H1, Hf by done. done.
Qed.

Lemma block_read_1 s lba buf : mounted s → 0 ≤ lba < volume_end → (length buf ≤ 512)%nat →
  block_read lba 1 buf s = Ok (disk lba, s).
Proof.
  intros Hm Hl Hb. rewrite block_read_ok by (done || lia).
  assert (concat (map (λ i, disk (lba + i)) (seqZ 0 1)) = disk lba) as ->.
  { change (seqZ 0 1) with [0]. simpl. rewrite app_nil_r. f_equal. lia. }
  rewrite drop_ge by (rewrite (vo_sector V); lia). by rewrite app_nil_r.
Qed.

Lemma cluster_to_sector_ok s c : mounted s → 2 ≤ c < nclusters + 2 → cluster_to_sector c s = Ok (cluster_lba c, s).
Proof.
  intros [_ H2 H3] Hc. unfold cluster_to_sector. rewrite (bind_of_ok _ _ _ (g_bpb s) s), (bind_of_ok _ _ _ (g_lba_start s) s) by done.
  rewrite H2, H3. unfold mret, M_ret. do 2 f_equal. pose proof bpb_ranges. pose proof (vo_fits V) as Hf. pose proof (vo_spc V) as Hs.
  pose proof (vo_start V). unfold cluster_lba, data_lba, fat_lba, spc, END_OF_CHAIN in *.
  rewrite (u32_small (reserved_sectors bpb + _)) by nia. rewrite u32_small; [lia|]. nia.
Qed.

Lemma next_cluster_ok s c : mounted s → 2 ≤ c < nclusters + 2 → (length buf0 ≤ 512)%nat →
  next_cluster buf0 c s = Ok (fat_entry c, s).
Proof.
  intros Hm Hc Hb. unfold next_cluster. rewrite (bind_of_ok _ _ _ (g_bpb s) s), (bind_of_ok _ _ _ (g_lba_start s) s) by done.
  pose proof (mo_bpb _ Hm) as ->. pose proof (mo_start _ Hm) as ->. pose proof bpb_ranges. pose proof (vo_fits V) as Hf. pose proof (vo_spc V) as Hs.
  pose proof (vo_start V). unfold END_OF_CHAIN, data_lba, fat_lba in *.
  pose proof (vo_clusters V). unfold END_OF_CHAIN in *.
  rewrite (u32_small (c * 4)) by lia.
  assert (0 ≤ c * 4 / 512 < nclusters) by (split; [apply Z.div_pos; lia|apply Z.div_lt_upper_bound; lia]).
  rewrite u32_small by nia.
  rewrite (bind_of_ok _ _ _ _ _ (block_read_1 s (start + reserved_sectors bpb + c * 4 / 512) _ Hm ltac:(unfold volume_end, data_lba, fat_lba; nia) Hb)). unfold mret, M_ret, fat_entry, fat_lba.
  replace ((c mod 128) * 4) with ((4 * c) mod 512); [by replace (c * 4) with (4 * c) by lia|].
  replace 512 with (4 * 128) by done. rewrite Z.mul_mod_distr_l by lia. lia.
Qed.
Lemma sectors_length l : length (concat (map disk l)) = (512 * length l)%nat.
Proof. induction l as [|x l IH]; simpl; [done|]. rewrite length_app, (vo_sector V), IH. lia. Qed.

Lemma cluster_data_length c : Z.of_nat (length (cluster_data c)) = spc * 512.
Proof.
  unfold cluster_data, cluster_sectors. pose proof (vo_spc V).
  rewrite <- (map_map (λ i, cluster_lba c + i) disk), sectors_length, length_map, length_seqZ. lia.
Qed.

Lemma read_cluster_ok s c tmp : mounted s → 2 ≤ c < nclusters + 2 → Z.of_nat (length tmp) ≤ spc * 512 →
  block_read (cluster_lba c) spc tmp s = Ok (cluster_data c, s).
Proof.
  intros Hm Hc Ht. pose proof (vo_spc V). pose proof bpb_ranges. pose proof (vo_start V).
  rewrite block_read_ok by (done || unfold volume_end, cluster_lba, data_lba, fat_lba; nia). fold (cluster_sectors c). fold (cluster_data c).
  rewrite drop_ge by (pose proof (cluster_data_length c); lia). by rewrite app_nil_r.
Qed.

Lemma take_fill (n : nat) (dst cd rest : list Z) : (length dst ≤ n)%nat →
  let k := Nat.min (n - length dst) (length cd) in
  take n ((dst ++ take k cd) ++ rest) = take n (dst ++ cd ++ rest) ∧ (length (dst ++ take k cd) ≤ n)%nat.
Proof.
  intros Hl k. subst k. destruct (Nat.min_spec (n - length dst) (length cd)) as [[Hlt ->]|[Hge ->]].
  - split; [|rewrite length_app, length_take; lia].
    rewrite (take_app_le (dst ++ _)) by (rewrite length_app, length_take; lia).
    rewrite (take_app_ge dst (cd ++ rest)) by done. rewrite (take_app_le cd) by lia.
    rewrite firstn_all2; [done|]. rewrite length_app, length_take. lia.
  - rewrite firstn_all. split; [by rewrite <- app_assoc|]. rewrite length_app. lia.
Qed.

Lemma fat_read_loop_ok s count : mounted s → (length buf0 ≤ 512)%nat → 0 ≤ count → ∀ l c fuel tmp dst,
  chain c l → (length l < fuel)%nat → Z.of_nat (length tmp) ≤ spc * 512 → (length dst ≤ Z.to_nat count)%nat →
  read_loop buf0 fuel c count (spc * 512) tmp dst s = Ok (take (Z.to_nat count) (dst ++ chain_data l), s).
Proof.
  intros Hm Hb Hc l. induction l as [|x l IH]; intros c fuel tmp dst Hch Hf Ht Hd; (destruct fuel as [|fuel]; [simpl in Hf; lia|]);
    cbn [read_loop].
  - simpl in Hch. rewrite (proj2 (Z.ltb_ge _ _)) by done. cbn [andb]. unfold chain_data. cbn. rewrite app_nil_r.
    by rewrite firstn_all2.
  - destruct Hch as (-> & Hx & Hch). pose proof (vo_clusters V) as Hn. rewrite (proj2 (Z.ltb_lt x END_OF_CHAIN)) by lia. cbn [andb].
    destruct (Z.ltb_spec (Z.of_nat (length dst)) count) as [Hlt|Hge].
    2:{ rewrite take_app_le by lia. rewrite firstn_all2 by lia. done. }
    rewrite (bind_of_ok _ _ _ _ _ (cluster_to_sector_ok s x Hm Hx)), (bind_of_ok _ _ _ (g_bpb s) s) by done.
    rewrite (mo_bpb _ Hm). rewrite (bind_of_ok _ _ _ _ _ (read_cluster_ok s x tmp Hm Hx Ht)).
    rewrite (bind_of_ok _ _ _ _ _ (next_cluster_ok s x Hm Hx Hb)). cbn zeta.
    pose proof (cluster_data_length x) as Hcd. pose proof (vo_spc V).
    replace (Z.to_nat (if count - Z.of_nat (length dst) <? spc * 512 then count - Z.of_nat (length dst) else spc * 512))
      with (Nat.min (Z.to_nat count - length dst) (length (cluster_data x))).
    2:{ destruct (Z.ltb_spec (count - Z.of_nat (length dst)) (spc * 512)); lia. }
    destruct (take_fill (Z.to_nat count) dst (cluster_data x) (chain_data l) Hd) as [E El].
    rewrite IH; [|done|simpl in Hf; lia|lia|exact El]. by rewrite E.
Qed.

Lemma fat32_read_ok {LL : AllocLaws A} s L fuel tmp0 priv count f l :
  mounted s → (length buf0 ≤ 512)%nat → 0 ≤ count → fat_pool s !! Z.to_nat priv = Some f →
  chain (ff_first_cluster f) l → (length l < fuel)%nat → Z.of_nat (length tmp0) ≤ spc * 512 →
  al_live (f_alloc s) L →
  wp (fat32_read buf0 fuel tmp0 priv count) (λ bs s', bs = take (Z.to_nat count) (chain_data l) ∧
    ∃ a, s' = set_alloc a s ∧ al_live a L) (λ _, True) s.
Proof.
  intros Hm Hb Hc Hp Hch Hf Ht Hl. unfold fat32_read. eapply wp_bind, wp_ok; [reflexivity|]. rewrite Hp.
  eapply wp_bind, wp_ok; [reflexivity|]. unfold read. eapply wp_bind, wp_ok; [reflexivity|]. rewrite (mo_bpb _ Hm).
  pose proof (vo_spc V). apply wp_bind, wp_zoom. fold spc.
  eapply wp_mono; [apply (al_malloc_ok _ _ (spc * 512) Hl); lia| |done].
  intros p a (w & _ & _ & _ & _ & Hn & Hl').
  eapply wp_bind, wp_ok; [apply (fat_read_loop_ok (set_alloc a s) count); [by destruct Hm|done|done|exact Hch|done|done|simpl; lia]|].
  cbv beta. apply wp_bind, wp_zoom. eapply wp_mono; [apply (al_free_ok _ _ p w Hl'), lookup_insert_eq| |done].
  intros [] a' Ha. apply wp_ret. split; [done|]. exists a'. split; [by destruct s|].
  rewrite delete_insert_id in Ha; done.
Qed.
(** ** Finding a file *)

(** A scan's outcome as the result of a walk_end that ends with the sector buffer [b]. *)
Definition walk_end (r : outcome scan) (b : list Z) s : outcome (scan * list Z * fat_state A) :=
  match r with
  | Ok r => Ok (r, b, s)
  | Panic m => Panic m
  | Fault => Fault
  | NoFuel => NoFuel
  end.

Lemma scan_app comp last es1 es2 has nb :
  scan_entries comp last (es1 ++ es2) has nb =
  match scan_entries comp last es1 has nb with
  | Ok (More has nb) => scan_entries comp last es2 has nb
  | r => r
  end.
Proof.
  revert has nb. induction es1 as [|e es1 IH]; intros has nb; [done|]. cbn [scan_entries app].
  destruct (open_entry comp last e has nb) as [[]| | |]; [done|done|done|apply IH|done..].
Qed.

Lemma open_sectors_ok s comp last n : mounted s → ∀ sector buf has nb,
  (length buf ≤ 512)%nat → 0 ≤ sector → sector + Z.of_nat n ≤ volume_end →
  ∃ buf', (length buf' ≤ 512)%nat ∧ open_sectors comp last n sector buf has nb s =
    walk_end (scan_entries comp last (concat (map (λ i, sector_entries (disk (sector + i))) (seqZ 0 (Z.of_nat n)))) has nb) buf' s.
Proof.
  intros Hm. induction n as [|n IH]; intros sector buf has nb Hb Hs Hn; [by exists buf|].
  cbn [open_sectors]. rewrite (bind_of_ok _ _ _ _ _ (block_read_1 s sector _ Hm ltac:(lia) Hb)).
  rewrite seqZ_cons by lia. replace (Z.pred (Z.of_nat (S n))) with (Z.of_nat n) by lia. cbn [map concat].
  rewrite scan_app, Z.add_0_r.
  assert (length (disk sector) ≤ 512)%nat as Hd by (rewrite (vo_sector V); lia).
  destruct (scan_entries comp last (sector_entries (disk sector)) has nb) as [[| | |has' nb']| | |]; try (by exists (disk sector)).
  replace (map (λ i, sector_entries (disk (sector + i))) (seqZ (Z.succ 0) (Z.of_nat n)))
    with (map (λ i, sector_entries (disk (sector + 1 + i))) (seqZ 0 (Z.of_nat n))).
  2:{ change (Z.succ 0) with (1 + 0). rewrite <- fmap_add_seqZ, map_map. apply map_ext. intros i. do 2 f_equal. lia. }
  destruct n as [|n]; [by exists (disk sector)|].
  pose proof (vo_fits V) as Hfit. rewrite u32_small by (unfold volume_end in *; lia). apply IH; [done|lia|lia].
Qed.

Lemma open_dir_ok s comp last : mounted s → (length buf0 ≤ 512)%nat → ∀ l c fuel buf has nb,
  chain c l → (length l < fuel)%nat → (length buf ≤ 512)%nat →
  ∃ buf', (length buf' ≤ 512)%nat ∧ open_dir buf0 fuel comp last c buf has nb s =
    walk_end (match scan_entries comp last (dir_entries l) has nb with Ok (More _ _) => Ok NotFound | r => r end) buf' s.
Proof.
  intros Hm Hb0 l. induction l as [|x l IH]; intros c fuel buf has nb Hc Hf Hb; (destruct fuel as [|fuel]; [simpl in Hf; lia|]);
    cbn [open_dir].
  - simpl in Hc. rewrite (proj2 (Z.ltb_ge _ _)) by done. by exists buf.
  - destruct Hc as (-> & Hx & Hc). pose proof (vo_clusters V) as Hn. rewrite (proj2 (Z.ltb_lt x END_OF_CHAIN)) by lia.
    rewrite (bind_of_ok _ _ _ _ _ (cluster_to_sector_ok s x Hm Hx)), (bind_of_ok _ _ _ (g_bpb s) s) by done.
    rewrite (mo_bpb _ Hm). fold spc. pose proof (vo_spc V) as Hs. pose proof (vo_fits V) as Hfit. pose proof bpb_ranges. pose proof (vo_start V).
    destruct (open_sectors_ok s comp last (Z.to_nat spc) Hm (cluster_lba x) buf has nb Hb) as (buf1 & Hb1 & Hrun).
    { unfold cluster_lba, data_lba, fat_lba in *. nia. }
    { unfold volume_end, cluster_lba. nia. }
    rewrite Z2Nat.id in Hrun by lia.
    unfold dir_entries. cbn [map concat]. rewrite scan_app. unfold cluster_sectors at 1. rewrite map_map.
    unfold mbind, M_bind. rewrite Hrun.
    destruct (scan_entries comp last (concat _) has nb) as [[| | |has' nb']| | |]; try (by exists buf1).
    cbn [walk_end]. rewrite (next_cluster_ok s x Hm Hx Hb0). apply IH; [done|simpl in Hf; lia|done].
Qed.
(** What [open] looks for, on directories without long names: the first entry in
    use with the 8.3 name. *)
Definition usable (e : list Z) : bool :=
  negb (byte e 0 =? 0xE5) && negb (truthy (Z.land (e_attributes e) FAT32_ATTR_VOLUME)).
Fixpoint lookup83 (comp : list Z) (es : list (list Z)) : option (list Z) :=
  match es with
  | [] => None
  | e :: es' =>
      if byte e 0 =? 0 then None
      else if usable e && name_matches (e_name e) comp then Some e else lookup83 comp es'
  end.
Fixpoint plain (es : list (list Z)) : Prop :=
  match es with
  | [] => True
  | e :: es' => byte e 0 = 0 ∨ (e_attributes e ≠ FAT32_ATTR_LFN ∧ plain es')
  end.

Definition file_of (e : list Z) : fat32_file :=
  mkFile (e_cluster e) (e_size e) (truthy (Z.land (e_attributes e) FAT32_ATTR_DIRECTORY)).

Lemma scan_plain comp last nb es : plain es →
  match scan_entries comp last es false nb with Ok (More _ _) => Ok NotFound | r => r end =
  Ok (match lookup83 comp es with
      | Some e => if last then Found (file_of e) else Enter (e_cluster e) nb
      | None => NotFound
      end).
Proof.
  induction es as [|e es IH]; [done|]. cbn [plain scan_entries lookup83]. intros [E|[Hl Hp]].
  { unfold open_entry. by rewrite E. }
  unfold open_entry, usable. destruct (byte e 0 =? 0); [done|]. destruct (byte e 0 =? 0xE5); [by apply IH|].
  rewrite (proj2 (Z.eqb_neq _ _) Hl). destruct (truthy (Z.land (e_attributes e) FAT32_ATTR_VOLUME)); [by apply IH|].
  cbn [orb andb negb]. destruct (name_matches (e_name e) comp); [|by apply IH]. by destruct last.
Qed.

(** The directory whose chain starts at [c]. *)
Definition dir_at (fuel : nat) (c : Z) (es : list (list Z)) : Prop :=
  ∃ l, chain c l ∧ (length l < fuel)%nat ∧ es = dir_entries l ∧ plain es.

(** The file a path of components leads to from the directory at [c], [None] if a
    component is missing. *)
Inductive path_file (fuel : nat) : Z → list (list Z) → option fat32_file → Prop :=
| pf_last c x es : dir_at fuel c es → path_file fuel c [x] (file_of <$> lookup83 x es)
| pf_missing c x y rest es : dir_at fuel c es → lookup83 x es = None → path_file fuel c (x :: y :: rest) None
| pf_dir c x y rest es e r : dir_at fuel c es → lookup83 x es = Some e →
    path_file fuel (e_cluster e) (y :: rest) r → path_file fuel c (x :: y :: rest) r.

Definition join (comps : list (list Z)) : list Z := concat (map (λ x, 47 :: x) comps).

Lemma split_join a rest : 47 ∉ a → split_component (a ++ join rest) = (a, join rest).
Proof.
  induction a as [|c a IH]; intros Hn.
  - destruct rest as [|x rest]; [done|]. reflexivity.
  - apply not_elem_of_cons in Hn as [Hc Hn]. cbn [app split_component]. rewrite (proj2 (Z.eqb_neq _ _)) by congruence.
    by rewrite (IH Hn).
Qed.

Definition component (x : list Z) : Prop := x ≠ [] ∧ 47 ∉ x.

Lemma open_path_ok s fuel : mounted s → (length buf0 ≤ 512)%nat → ∀ c comps r, path_file fuel c comps r →
  ∀ n buf nb, Forall component comps → (length comps ≤ n)%nat → (length buf ≤ 512)%nat →
  open_path buf0 n fuel (tail (join comps)) c buf nb s = Ok (r, s).
Proof.
  intros Hm Hb0 c comps r Hp.
  assert (∀ c x rest es n buf nb, dir_at fuel c es → component x → (length buf ≤ 512)%nat →
    ∃ buf', (length buf' ≤ 512)%nat ∧ open_path buf0 (S n) fuel (tail (join (x :: rest))) c buf nb s =
      match lookup83 x es with
      | Some e => if bool_decide (join rest = []) then Ok (Some (file_of e), s)
                  else open_path buf0 n fuel (tail (join rest)) (e_cluster e) buf' nb s
      | None => Ok (None, s)
      end) as Hstep.
  { clear -V Hm Hb0. intros c x rest es n buf nb (l & Hc & Hf & -> & Hpl) [Hx0 Hx] Hb.
    destruct x as [|k a]; [done|]. apply not_elem_of_cons in Hx as [_ Hx].
    destruct (open_dir_ok s (k :: a) (bool_decide (join rest = [])) Hm Hb0 l c fuel buf false nb Hc Hf Hb) as (buf' & Hb' & Hrun).
    exists buf'. split; [done|]. unfold join at 1. cbn [map concat tail app open_path]. fold (join rest). rewrite split_join by done.
    cbn [fst snd]. unfold mbind, M_bind. rewrite Hrun, scan_plain by done. cbn [walk_end].
    destruct (lookup83 (k :: a) (dir_entries l)) as [e|]; [|done]. by case_bool_decide. }
  induction Hp as [c x es Hd|c x y rest es Hd Hno|c x y rest es e r Hd He Hp IH]; intros n buf nb Hcs Hn Hb;
    apply Forall_cons in Hcs as [Hx Hcs]; (destruct n as [|n]; [simpl in Hn; lia|]).
  - destruct (Hstep c x [] es n buf nb Hd Hx Hb) as (buf' & Hb' & ->). by destruct (lookup83 x es).
  - destruct (Hstep c x (y :: rest) es n buf nb Hd Hx Hb) as (buf' & Hb' & ->). by rewrite Hno.
  - destruct (Hstep c x (y :: rest) es n buf nb Hd Hx Hb) as (buf' & Hb' & ->). rewrite He.
    apply IH; [done|simpl in *; lia|done].
Qed.

Lemma open_ok s fuel comps r : mounted s → (length buf0 ≤ 512)%nat → (length entries0 ≤ 512)%nat →
  comps ≠ [] → Forall component comps → path_file fuel (root_cluster bpb) comps r →
  open entries0 buf0 name_buf0 fuel (join comps) s = Ok (r, s).
Proof.
  intros Hm Hb0 He0 Hne Hcs Hp. unfold open. rewrite (bind_of_ok _ _ _ (g_bpb s) s) by done. rewrite (mo_bpb _ Hm).
  destruct comps as [|x rest]; [done|]. pose proof Hcs as [[Hx0 _] _]%Forall_cons. destruct x as [|k a]; [done|].
  assert (length ((k :: a) :: rest) ≤ length (join ((k :: a) :: rest)))%nat as Hlen.
  { clear. induction ((k :: a) :: rest) as [|z zs IH]; [done|]. unfold join in *. cbn [map concat app length]. rewrite length_app. lia. }
  change (join ((k :: a) :: rest)) with (47 :: tail (join ((k :: a) :: rest))) in *.
  cbv iota. rewrite Z.eqb_refl, bool_decide_false by done. cbn [andb].
  by apply open_path_ok.
Qed.
End run.
End volume.

(** ** 8.3 names *)

Definition up (c : Z) : Z := to_upper (schar c).
Definition pad (n : nat) (l : list Z) : list Z := l ++ replicate (n - length l) 32.

Lemma fill_name_ok more lim a rest : ∀ i pre post, Forall (λ c, more c = true) a →
  match rest with [] => True | c :: _ => more c = false end → length pre = i → (length a ≤ length post)%nat →
  (lim ≤ length pre + length post)%nat →
  fill_name more lim i (a ++ rest) (pre ++ post) =
    (if decide (i + length a ≤ lim)%nat then Some (rest, pre ++ map up a ++ drop (length a) post)
     else if decide (a = []) then Some (rest, pre ++ post) else None).
Proof.
  induction a as [|c a IH]; intros i pre post Ha Hr Hi Hp Hlim.
  { assert (fill_name more lim i rest (pre ++ post) = Some (rest, pre ++ post)) as E.
    { destruct rest as [|c rest]; [done|]. cbn [fill_name]. by rewrite Hr. }
    cbn [app map length]. rewrite drop_0, E. case_decide; [done|]. by rewrite decide_True. }
  apply Forall_cons in Ha as [Hc Ha]. cbn [app fill_name]. rewrite Hc. destruct post as [|q post]; [simpl in Hp; lia|].
  destruct (Nat.leb_spec lim i) as [Hlt|Hge].
  { rewrite !decide_False; [done|done|]. simpl. lia. }
  subst i. rewrite insert_mid. replace (pre ++ to_upper (schar c) :: post) with ((pre ++ [up c]) ++ post) by (by rewrite <- app_assoc).
  simpl in Hp, Hlim. rewrite IH; [|done|done|rewrite length_app; simpl; lia|lia|rewrite length_app; simpl; lia]. clear IH.
  replace (S (length pre) + length a)%nat with (length pre + length (c :: a))%nat by (simpl; lia).
  destruct (decide (length pre + length (c :: a) ≤ lim)%nat) as [H|H].
  - rewrite <- app_assoc. by destruct post.
  - destruct (decide (a = [])) as [->|]; [simpl in H; lia|done].
Qed.

(** [name_matches] compares with the component's upper-cased, space-padded 8.3
    form; what does not fit in 8 and 3 characters matches nothing. *)
Lemma name_matches_83 fat base ext : 46 ∉ base → (length base ≤ 11)%nat → (length ext ≤ 3)%nat →
  name_matches fat (base ++ 46 :: ext) =
  bool_decide ((length base ≤ 8)%nat ∧ fat = pad 8 (map up base) ++ pad 3 (map up ext)).
Proof.
  intros Hb Hlb Hle. unfold name_matches.
  assert (Forall (λ c, negb (c =? 46) = true) base) as Hf.
  { apply Forall_forall. intros c Hc. destruct (Z.eqb_spec c 46); [congruence|done]. }
  pose proof (fill_name_ok (λ c, negb (c =? 46)) 8 base (46 :: ext) 0 [] (replicate 11 32) Hf) as E.
  cbn [app length] in E. rewrite E; [|done|done|rewrite length_replicate; lia|rewrite length_replicate; lia]. clear E.
  cbn [Nat.add app]. destruct (decide (length base ≤ 8)%nat) as [H8|H8].
  - rewrite drop_replicate. pose proof (fill_name_ok (λ _, true) 11 ext [] 8 (pad 8 (map up base)) (replicate 3 32)) as E.
    rewrite app_nil_r in E.
    assert (map up base ++ replicate (11 - length base) 32 = pad 8 (map up base) ++ replicate 3 32) as ->.
    { unfold pad. rewrite <- app_assoc, <- replicate_add, length_map. do 2 f_equal. lia. }
    rewrite E; [|by apply Forall_forall|done|unfold pad; rewrite length_app, length_replicate, length_map; lia|rewrite length_replicate; lia|
      unfold pad; rewrite length_app, !length_replicate, length_map; lia].
    rewrite decide_True by lia. cbn [fmap option_fmap option_map snd]. rewrite drop_replicate. apply bool_decide_ext.
    assert (pad 3 (map up ext) = map up ext ++ replicate (3 - length ext) 32) as -> by (unfold pad; by rewrite length_map). tauto.
  - rewrite decide_False by (intros ->; simpl in H8; lia). rewrite bool_decide_false; [done|]. tauto.
Qed.

(** ** Long names *)

Lemma path_matches_prefix comp name rest : 0 ∉ comp → (length comp ≤ length name)%nat →
  map up comp = map up (take (length comp) name) → path_matches comp (name ++ rest) = Some true.
Proof.
  revert name. induction comp as [|c comp IH]; intros name Hn Hl E; [by destruct (name ++ rest)|].
  destruct name as [|d name]; [simpl in Hl; lia|]. simpl in E. injection E as E1 E2. cbn [app path_matches].
  unfold up in E1. rewrite E1, Z.eqb_refl. apply not_elem_of_cons in Hn as [Hc Hn].
  rewrite (proj2 (Z.eqb_neq _ _)) by congruence. apply IH; [done|simpl in Hl; lia|done].
Qed.
(** ** Properties *)

Lemma alloc_file_loop_free used : ∀ k i, alloc_file_loop used k = Some i → k ≤ i ∧ used !! Z.to_nat (i - k) = Some false.
Proof.
  induction used as [|u used IH]; intros k i; [done|]. cbn [alloc_file_loop]. destruct u.
  - intros H. apply IH in H as [H1 H2]. split; [lia|]. replace (Z.to_nat (i - k)) with (S (Z.to_nat (i - (k + 1)))) by lia. done.
  - intros [= ->]. split; [lia|]. by rewrite Z.sub_diag.
Qed.

(** [fat32_open] in full: the slot taken holds the file found, and closing gives it back. *)
Lemma fat32_open_ok {A} disk bpb start n (s : fat_state A) entries0 buf0 name_buf0 fuel comps r i :
  volume_ok disk bpb start n → mounted disk bpb start n s →
  (length buf0 ≤ 512)%nat → (length entries0 ≤ 512)%nat →
  comps ≠ [] → Forall component comps → path_file disk bpb start n fuel (root_cluster bpb) comps r →
  Z.of_nat (length (fat_pool s)) = FAT32_MAX_OPEN_FILES → Z.of_nat (length (fat_pool_used s)) = FAT32_MAX_OPEN_FILES →
  alloc_file_loop (fat_pool_used s) 0 = Some i →
  0 ≤ i < FAT32_MAX_OPEN_FILES ∧
  fat32_open entries0 buf0 name_buf0 fuel (join comps) s =
    match r with
    | None => Ok (None, s)
    | Some f => Ok (Some (i, ff_size f), set_pool (<[Z.to_nat i := f]> (fat_pool s)) (<[Z.to_nat i := true]> (fat_pool_used s)) s)
    end ∧
  ∀ s2 : fat_state A, fat_pool_used s2 = <[Z.to_nat i := true]> (fat_pool_used s) →
    fat32_close i s2 = Ok (tt, set_pool (fat_pool s2) (fat_pool_used s) s2).
Proof.
  intros V Hm Hb0 He0 Hne Hcs Hp Hl1 Hl2 Hi. destruct (alloc_file_loop_free _ _ _ Hi) as [Hi0 Hfree]. rewrite Z.sub_0_r in Hfree.
  pose proof (lookup_lt_Some _ _ _ Hfree) as Hlt. unfold FAT32_MAX_OPEN_FILES in *.
  set (s1 := set_pool (fat_pool s) (<[Z.to_nat i := true]> (fat_pool_used s)) s).
  assert (alloc_file s = Ok (Some i, s1)) as Ha.
  { unfold alloc_file. rewrite (bind_of_ok _ _ _ (fat_pool_used s) s) by done. by rewrite Hi. }
  assert (open entries0 buf0 name_buf0 fuel (join comps) s1 = Ok (r, s1)) as Hopen.
  { eapply open_ok; try done. by destruct Hm. }
  assert (∀ s2 : fat_state A, fat_pool_used s2 = fat_pool_used s1 → free_file i s2 = Ok (tt, set_pool (fat_pool s2) (fat_pool_used s) s2)) as Hclose.
  { intros s2 E. unfold free_file, FAT32_MAX_OPEN_FILES. destruct (Z.leb_spec 0 i); [|lia]. destruct (Z.ltb_spec i 16); [|lia].
    cbn [andb when]. unfold modify. rewrite E. cbn. rewrite list_insert_insert_eq, list_insert_id by done. done. }
  split; [lia|]. split; [|exact Hclose].
  unfold fat32_open. rewrite (bind_of_ok _ _ _ _ _ Ha). destruct r as [f|]; rewrite (bind_of_ok _ _ _ _ _ Hopen).
  - done.
  - rewrite (bind_of_ok _ _ _ _ _ (Hclose s1 eq_refl)). unfold mret, M_ret. by destruct s.
Qed.

(** [fat32_open] on a volume whose directories have 8.3 names: a path leads to
    the first matching entry of each directory in turn. A path that exists fills
    the lowest free slot of the pool with the entry's first cluster and size, and
    closing it gives the slot back; a path that does not leaves the pool as it
    was. *)
Theorem fat32_open_correct {A} disk bpb start n (s : fat_state A) entries0 buf0 name_buf0 fuel comps r i :
  volume_ok disk bpb start n → mounted disk bpb start n s →
  (length buf0 ≤ 512)%nat → (length entries0 ≤ 512)%nat →
  comps ≠ [] → Forall component comps → path_file disk bpb start n fuel (root_cluster bpb) comps r →
  Z.of_nat (length (fat_pool s)) = FAT32_MAX_OPEN_FILES → Z.of_nat (length (fat_pool_used s)) = FAT32_MAX_OPEN_FILES →
  alloc_file_loop (fat_pool_used s) 0 = Some i →
  match r with
  | None => fat32_open entries0 buf0 name_buf0 fuel (join comps) s = Ok (None, s)
  | Some f => ∃ s' s'', fat32_open entries0 buf0 name_buf0 fuel (join comps) s = Ok (Some (i, ff_size f), s') ∧
      mounted disk bpb start n s' ∧ fat_pool s' !! Z.to_nat i = Some f ∧ fat_pool_used s' !! Z.to_nat i = Some true ∧
      fat32_close i s' = Ok (tt, s'') ∧ fat_pool_used s'' = fat_pool_used s
  end.
Proof.
  intros V Hm Hb0 He0 Hne Hcs Hp Hl1 Hl2 Hi.
  destruct (fat32_open_ok disk bpb start n s entries0 buf0 name_buf0 fuel comps r i) as (Hi16 & Ho & Hc); [done..|].
  unfold FAT32_MAX_OPEN_FILES in *. destruct r as [f|]; [|done]. eexists _, _. split; [exact Ho|]. split; [by destruct Hm|].
  split; [cbn; rewrite list_lookup_insert_eq; [done|lia]|]. split; [cbn; rewrite list_lookup_insert_eq; [done|lia]|].
  split; [by apply Hc|done].
Qed.

(** [fat32_read] returns the first [count] bytes of the file's cluster chain, or
    all of the chain if it is shorter, whatever the recorded file size; the
    temporary cluster buffer is given back. *)
Theorem fat32_read_correct {A} {AL : Alloc A} {LL : AllocLaws A} disk bpb start n (s : fat_state A) L buf0 fuel tmp0 priv count f l :
  volume_ok disk bpb start n → mounted disk bpb start n s → (length buf0 ≤ 512)%nat → 0 ≤ count →
  fat_pool s !! Z.to_nat priv = Some f → chain disk bpb start n (ff_first_cluster f) l → (length l < fuel)%nat →
  Z.of_nat (length tmp0) ≤ spc bpb * 512 → al_live (f_alloc s) L →
  wp (fat32_read buf0 fuel tmp0 priv count) (λ bs s',
    bs = take (Z.to_nat count) (concat (map (cluster_data disk bpb start) l)) ∧
    ∃ a, s' = set_alloc a s ∧ al_live a L) (λ _, True) s.
Proof. intros V Hm Hb Hc Hp Hch Hf Ht Hl. by eapply fat32_read_ok. Qed.

(** A path component matches a long name it is only a prefix of: an entry
    preceded by the long name is opened under any shorter name that begins it. *)
Theorem fat32_open_prefix comp name rest e :
  0 ∉ comp → (length comp < length name)%nat → map up comp = map up (take (length comp) name) →
  byte e 0 ≠ 0 → byte e 0 ≠ 0xE5 → e_attributes e ≠ FAT32_ATTR_LFN → Z.land (e_attributes e) FAT32_ATTR_VOLUME = 0 →
  open_entry comp true e true (name ++ 0 :: rest) = Ok (Found (file_of e)).
Proof.
  intros Hn Hl Hp H0 H5 Ha Hv. unfold open_entry. rewrite !(proj2 (Z.eqb_neq _ _)) by done. rewrite Hv. cbn [truthy negb Z.eqb].
  rewrite path_matches_prefix by (try done; lia). done.
Qed.
(** ** Witnesses *)

(** A volume of one-sector clusters: boot sector, one FAT sector, the root
    directory in cluster 2, and [FOO.TXT] in the clusters 3 and 4. *)
Definition demo_bpb : list Z :=
  zeros 13 ++ [1] ++ le_bytes 2 1 ++ [1] ++ zeros 19 ++ le_bytes 4 1 ++ zeros 4 ++ le_bytes 4 2 ++ zeros 464.
Definition demo_fat : list Z :=
  le_bytes 4 0x0FFFFFF8 ++ le_bytes 4 0x0FFFFFFF ++ le_bytes 4 0x0FFFFFFF ++ le_bytes 4 4 ++ le_bytes 4 0x0FFFFFFF ++ zeros 492.
Definition demo_entry : list Z :=
  [70; 79; 79; 32; 32; 32; 32; 32; 84; 88; 84; 0x20] ++ zeros 8 ++ le_bytes 2 0 ++ zeros 4 ++ le_bytes 2 3 ++ le_bytes 4 600.
Definition demo_root : list Z := demo_entry ++ zeros 480.
Definition demo_disk (lba : Z) : list Z :=
  if lba =? 0 then demo_bpb else if lba =? 1 then demo_fat else if lba =? 2 then demo_root
  else if lba =? 3 then replicate 512 7 else replicate 512 9.

Definition demo_fs {A} (a : A) (used : list bool) : fat_state A :=
  mkFat a (Some (disk_fn demo_disk)) demo_bpb 0 (mkFile 3 600 false :: replicate 15 (mkFile 0 0 false)) used.

Lemma demo_volume : volume_ok demo_disk demo_bpb 0 3.
Proof.
  split; [|vm_compute; auto|lia| |vm_compute; discriminate|vm_compute; discriminate].
  - intros lba. unfold demo_disk. repeat (destruct (_ =? _); [vm_compute; reflexivity|]). vm_compute. reflexivity.
  - apply (bool_decide_unpack _). vm_compute. exact I.
Qed.

Lemma demo_mounted {A} (a : A) used : mounted demo_disk demo_bpb 0 3 (demo_fs a used).
Proof. split; [|done..]. by exists (disk_fn demo_disk). Qed.

Lemma fat32_open_correct_witness :
  ∃ s', fat32_open [] [] (zeros 255) 2 [47; 102; 111; 111; 46; 116; 120; 116] (demo_fs tt (replicate 16 false)) = Ok (Some (0, 600), s') ∧
        fat_pool s' !! 0%nat = Some (mkFile 3 600 false).
Proof.
  destruct (fat32_open_correct demo_disk demo_bpb 0 3 (demo_fs tt (replicate 16 false)) [] [] (zeros 255) 2
    [[102; 111; 111; 46; 116; 120; 116]] (Some (mkFile 3 600 false)) 0 demo_volume (demo_mounted _ _)) as (s' & s'' & H1 & _ & H2 & _).
  - simpl. lia.
  - simpl. lia.
  - done.
  - apply Forall_singleton. split; [done|]. apply (bool_decide_unpack _). vm_compute. exact I.
  - replace (Some (mkFile 3 600 false)) with (file_of <$> lookup83 [102; 111; 111; 46; 116; 120; 116] (dir_entries demo_disk demo_bpb 0 [2]))
      by (vm_compute; reflexivity).
    change (root_cluster demo_bpb) with 2. apply pf_last. exists [2]. split; [|split; [simpl; lia|split; [done|]]].
    + split; [done|]. split; [lia|]. vm_compute. discriminate.
    + vm_compute. right. split; [discriminate|]. by left.
  - vm_compute. reflexivity.
  - vm_compute. reflexivity.
  - reflexivity.
  - exists s'. split; [exact H1|exact H2].
Defined.

Lemma fat32_open_prefix_witness :
  open_entry [97] true demo_entry true ([65; 66; 67] ++ 0 :: zeros 251) = Ok (Found (mkFile 3 600 false)).
Proof.
  apply (fat32_open_prefix [97] [65; 66; 67] (zeros 251) demo_entry); try (vm_compute; congruence).
  - apply (bool_decide_unpack _). vm_compute. exact I.
  - simpl. lia.
Defined.

#[local] Existing Instance Heap.vm_backing.
#[local] Existing Instance Heap.vm_laws.

Definition demo_heap_fs : fat_state (Heap.heap_state Vmm.vmm_state) := demo_fs Heap.heap_demo (true :: replicate 15 false).

Lemma fat32_read_correct_witness :
  is_ok (fat32_read [] 3 [] 0 600 demo_heap_fs) = true ∧
  wp (fat32_read [] 3 [] 0 600) (λ bs s', bs = replicate 512 7 ++ replicate 88 9) (λ _, True) demo_heap_fs.
Proof.
  split; [vm_compute; reflexivity|].
  eapply wp_mono; [apply (fat32_read_correct demo_disk demo_bpb 0 3 demo_heap_fs (Heap.live Vmm.KERNEL_HEAP [(16352, true)])
    [] 3 [] 0 600 (mkFile 3 600 false) [3; 4] demo_volume (demo_mounted _ _))| |done].
  - simpl. lia.
  - lia.
  - reflexivity.
  - split; [done|]. split; [lia|]. split; [vm_compute; reflexivity|]. split; [lia|]. vm_compute. discriminate.
  - simpl. lia.
  - vm_compute. discriminate.
  - exists [(16352, true)]. split; [apply Heap.heap_demo_wf|reflexivity].
  - intros bs s' [-> _]. vm_compute. reflexivity.
Defined.
End Fat32.
