(* ===== verification/Net.v ===== *)
(** * Network data and helpers ([kernel/net/net_types.h], [net.h], [networking.h],
    [routing.h], [arp.h], [socket.h], [udp.c], [tcp.h], [drivers/*.c],
    [kernel/utils/random.c])

    The static tables of the network stack are the fields of one record, on top
    of the kernel objects of [Kobj] (a packet wakes the task that waits for it).
    An [ipv4_addr] is its [uint] value, with part 0 in the low byte; a [mac_addr]
    is its six bytes.  Scratch buffers that a function allocates, fills and frees
    before it returns are byte lists: what is kept of the allocation is its size,
    so that a copy larger than the buffer is a [Fault].  [Fault] also stands for
    the value of a function whose body has no [return]. *)
From S2P Require Import Prelude Pmm Vmm Heap Kobj RingBuf Bytes.
Import Kobj.

Module Net.

Definition MAX_NICS : Z := 4.
Definition ROUTING_TABLE_MAX_ENTREIS : Z := 256.
Definition ARP_TABLE_SIZE : Z := 16.
Definition MAX_PENDING_FRAMES : Z := 128.
Definition FRAME_SIZE : Z := 1022.
Definition BUFFER_LEN : Z := 32.
Definition SOCKET_QUEUE_SIZE : Z := 8.
Definition MAX_RAW_SOCKETS : Z := 2.
Definition UDP_MAX_SOCKETS : Z := 16.
Definition TCP_MAX_LISTENERS : Z := 4.
Definition TCP_MAX_CONNECTIONS : Z := 4.
Definition TCP_BACKLOG_SIZE : Z := 4.
Definition IP_MAX_PACKET_SIZE : Z := 1500.

Inductive socket_protocol := SOCKET_RAW | SOCKET_ICMP | SOCKET_TCP | SOCKET_UDP.
Inductive nic_config_field := NIC_ADDRESS | NIC_NETMASK | NIC_GATEWAY | NIC_METRIC.

(** The two drivers whose operation tables exist. *)
Inductive net_ops := g_loopback_ops | g_e1000_ops.

Inductive tcp_state :=
| TCP_CLOSED | TCP_LISTEN | TCP_SYN_SENT | TCP_SYN_RECEIVED | TCP_ESTABLISHED | TCP_FIN_WAIT_1
| TCP_FIN_WAIT_2 | TCP_CLOSE_WAIT | TCP_CLOSING | TCP_TIME_WAIT | TCP_LAST_ACK.

#[export] Instance socket_protocol_eq : EqDecision socket_protocol.
Proof. solve_decision. Defined.
#[export] Instance net_ops_eq : EqDecision net_ops.
Proof. solve_decision. Defined.
#[export] Instance tcp_state_eq : EqDecision tcp_state.
Proof. solve_decision. Defined.

(** [socket_addr]; the TCP and UDP members of its union have the same layout. *)
Record socket_addr := mkAddr { sa_protocol : socket_protocol; sa_addr : Z; sa_port : Z }.
Record socket_handle := mkHandle { h_protocol : socket_protocol; h_id : Z }.
Record ip_send_opts := mkOpts { o_src_addr : Z; o_nic_id : Z }.
Record arp_entry := mkArp { e_ip : Z; e_mac : list Z }.

(** [route] *)
Record route := mkRoute {
  r_destination : Z;
  r_netmask : Z;
  r_gateway : Z;
  r_nic_id : Z;
  r_metric : Z
}.


(** [nic] *)
Record nic := mkNic {
  n_used : bool;
  n_is_up : bool;
  n_nic_id : Z;
  n_addr : Z;
  n_netmask : Z;
  n_default_gateway : Z;
  n_conf : Z;
  n_driver : option net_ops
}.
Definition set_n_addr (v : Z) (r : nic) : nic :=
  mkNic (n_used r) (n_is_up r) (n_nic_id r) v (n_netmask r) (n_default_gateway r) (n_conf r)
    (n_driver r).
Definition set_n_netmask (v : Z) (r : nic) : nic :=
  mkNic (n_used r) (n_is_up r) (n_nic_id r) (n_addr r) v (n_default_gateway r) (n_conf r)
    (n_driver r).
Definition set_n_default_gateway (v : Z) (r : nic) : nic :=
  mkNic (n_used r) (n_is_up r) (n_nic_id r) (n_addr r) (n_netmask r) v (n_conf r) (n_driver r).

(** [pending_frame]: the frame pointer is null or the copied bytes. *)
Record pending_frame := mkPending {
  f_waiting_for : Z;
  f_driver : option net_ops;
  f_frame : option (list Z);
  f_len : Z
}.
Definition set_f_frame (v : option (list Z)) (r : pending_frame) : pending_frame :=
  mkPending (f_waiting_for r) (f_driver r) v (f_len r).

(** [loopback_frame] *)
Record loopback_frame := mkLoop {
  l_data : list Z;
  l_len : Z
}.


(** [socket_packet]; its [ip_header] member is never used. *)
Record socket_packet := mkPacket {
  q_len : Z;
  q_data : list Z
}.


(** [socket_queue] *)
Record socket_queue := mkQueue {
  q_packets : list socket_packet;
  q_head : Z;
  q_tail : Z
}.


(** [udp_socket]; the receiver is a task or null. *)
Record udp_socket := mkUdp {
  u_id : Z;
  u_remote_port : Z;
  u_local_port : Z;
  u_remote_addr : Z;
  u_local_addr : Z;
  u_nic_id : Z;
  u_is_listening : bool;
  u_receiver : Z;
  u_packets : socket_queue
}.
Definition set_u_id (v : Z) (r : udp_socket) : udp_socket :=
  mkUdp v (u_remote_port r) (u_local_port r) (u_remote_addr r) (u_local_addr r) (u_nic_id r)
    (u_is_listening r) (u_receiver r) (u_packets r).
Definition set_u_remote_port (v : Z) (r : udp_socket) : udp_socket :=
  mkUdp (u_id r) v (u_local_port r) (u_remote_addr r) (u_local_addr r) (u_nic_id r)
    (u_is_listening r) (u_receiver r) (u_packets r).
Definition set_u_local_port (v : Z) (r : udp_socket) : udp_socket :=
  mkUdp (u_id r) (u_remote_port r) v (u_remote_addr r) (u_local_addr r) (u_nic_id r)
    (u_is_listening r) (u_receiver r) (u_packets r).
Definition set_u_remote_addr (v : Z) (r : udp_socket) : udp_socket :=
  mkUdp (u_id r) (u_remote_port r) (u_local_port r) v (u_local_addr r) (u_nic_id r)
    (u_is_listening r) (u_receiver r) (u_packets r).
Definition set_u_local_addr (v : Z) (r : udp_socket) : udp_socket :=
  mkUdp (u_id r) (u_remote_port r) (u_local_port r) (u_remote_addr r) v (u_nic_id r)
    (u_is_listening r) (u_receiver r) (u_packets r).
Definition set_u_nic_id (v : Z) (r : udp_socket) : udp_socket :=
  mkUdp (u_id r) (u_remote_port r) (u_local_port r) (u_remote_addr r) (u_local_addr r) v
    (u_is_listening r) (u_receiver r) (u_packets r).
Definition set_u_is_listening (v : bool) (r : udp_socket) : udp_socket :=
  mkUdp (u_id r) (u_remote_port r) (u_local_port r) (u_remote_addr r) (u_local_addr r)
    (u_nic_id r) v (u_receiver r) (u_packets r).
Definition set_u_receiver (v : Z) (r : udp_socket) : udp_socket :=
  mkUdp (u_id r) (u_remote_port r) (u_local_port r) (u_remote_addr r) (u_local_addr r)
    (u_nic_id r) (u_is_listening r) v (u_packets r).
Definition set_u_packets (v : socket_queue) (r : udp_socket) : udp_socket :=
  mkUdp (u_id r) (u_remote_port r) (u_local_port r) (u_remote_addr r) (u_local_addr r)
    (u_nic_id r) (u_is_listening r) (u_receiver r) v.

(** [tcp_active_socket] *)
Record tcp_active_socket := mkActive {
  a_id : Z;
  a_claimed : bool;
  a_state : tcp_state;
  a_local_ip : Z;
  a_remote_ip : Z;
  a_local_port : Z;
  a_remote_port : Z;
  a_seq : Z;
  a_ack : Z;
  a_initial_seq : Z;
  a_recv_buf : list Z;
  a_recv_head : Z;
  a_recv_tail : Z;
  a_send_buf : list Z;
  a_send_head : Z;
  a_send_tail : Z
}.
Definition set_a_id (v : Z) (r : tcp_active_socket) : tcp_active_socket :=
  mkActive v (a_claimed r) (a_state r) (a_local_ip r) (a_remote_ip r) (a_local_port r)
    (a_remote_port r) (a_seq r) (a_ack r) (a_initial_seq r) (a_recv_buf r) (a_recv_head r)
    (a_recv_tail r) (a_send_buf r) (a_send_head r) (a_send_tail r).
Definition set_a_claimed (v : bool) (r : tcp_active_socket) : tcp_active_socket :=
  mkActive (a_id r) v (a_state r) (a_local_ip r) (a_remote_ip r) (a_local_port r)
    (a_remote_port r) (a_seq r) (a_ack r) (a_initial_seq r) (a_recv_buf r) (a_recv_head r)
    (a_recv_tail r) (a_send_buf r) (a_send_head r) (a_send_tail r).
Definition set_a_state (v : tcp_state) (r : tcp_active_socket) : tcp_active_socket :=
  mkActive (a_id r) (a_claimed r) v (a_local_ip r) (a_remote_ip r) (a_local_port r)
    (a_remote_port r) (a_seq r) (a_ack r) (a_initial_seq r) (a_recv_buf r) (a_recv_head r)
    (a_recv_tail r) (a_send_buf r) (a_send_head r) (a_send_tail r).
Definition set_a_seq (v : Z) (r : tcp_active_socket) : tcp_active_socket :=
  mkActive (a_id r) (a_claimed r) (a_state r) (a_local_ip r) (a_remote_ip r) (a_local_port r)
    (a_remote_port r) v (a_ack r) (a_initial_seq r) (a_recv_buf r) (a_recv_head r) (a_recv_tail r)
    (a_send_buf r) (a_send_head r) (a_send_tail r).
Definition set_a_ack (v : Z) (r : tcp_active_socket) : tcp_active_socket :=
  mkActive (a_id r) (a_claimed r) (a_state r) (a_local_ip r) (a_remote_ip r) (a_local_port r)
    (a_remote_port r) (a_seq r) v (a_initial_seq r) (a_recv_buf r) (a_recv_head r) (a_recv_tail r)
    (a_send_buf r) (a_send_head r) (a_send_tail r).
Definition set_a_recv_buf (v : list Z) (r : tcp_active_socket) : tcp_active_socket :=
  mkActive (a_id r) (a_claimed r) (a_state r) (a_local_ip r) (a_remote_ip r) (a_local_port r)
    (a_remote_port r) (a_seq r) (a_ack r) (a_initial_seq r) v (a_recv_head r) (a_recv_tail r)
    (a_send_buf r) (a_send_head r) (a_send_tail r).
Definition set_a_recv_head (v : Z) (r : tcp_active_socket) : tcp_active_socket :=
  mkActive (a_id r) (a_claimed r) (a_state r) (a_local_ip r) (a_remote_ip r) (a_local_port r)
    (a_remote_port r) (a_seq r) (a_ack r) (a_initial_seq r) (a_recv_buf r) v (a_recv_tail r)
    (a_send_buf r) (a_send_head r) (a_send_tail r).
Definition set_a_recv_tail (v : Z) (r : tcp_active_socket) : tcp_active_socket :=
  mkActive (a_id r) (a_claimed r) (a_state r) (a_local_ip r) (a_remote_ip r) (a_local_port r)
    (a_remote_port r) (a_seq r) (a_ack r) (a_initial_seq r) (a_recv_buf r) (a_recv_head r) v
    (a_send_buf r) (a_send_head r) (a_send_tail r).
Definition set_a_send_buf (v : list Z) (r : tcp_active_socket) : tcp_active_socket :=
  mkActive (a_id r) (a_claimed r) (a_state r) (a_local_ip r) (a_remote_ip r) (a_local_port r)
    (a_remote_port r) (a_seq r) (a_ack r) (a_initial_seq r) (a_recv_buf r) (a_recv_head r)
    (a_recv_tail r) v (a_send_head r) (a_send_tail r).
Definition set_a_send_head (v : Z) (r : tcp_active_socket) : tcp_active_socket :=
  mkActive (a_id r) (a_claimed r) (a_state r) (a_local_ip r) (a_remote_ip r) (a_local_port r)
    (a_remote_port r) (a_seq r) (a_ack r) (a_initial_seq r) (a_recv_buf r) (a_recv_head r)
    (a_recv_tail r) (a_send_buf r) v (a_send_tail r).
Definition set_a_send_tail (v : Z) (r : tcp_active_socket) : tcp_active_socket :=
  mkActive (a_id r) (a_claimed r) (a_state r) (a_local_ip r) (a_remote_ip r) (a_local_port r)
    (a_remote_port r) (a_seq r) (a_ack r) (a_initial_seq r) (a_recv_buf r) (a_recv_head r)
    (a_recv_tail r) (a_send_buf r) (a_send_head r) v.

(** [tcp_passive_socket] *)
Record tcp_passive_socket := mkPassive {
  v_id : Z;
  v_local_port : Z;
  v_backlog : @RingBuf.ring_buf Z
}.
Definition set_v_backlog (v : @RingBuf.ring_buf Z) (r : tcp_passive_socket) : tcp_passive_socket :=
  mkPassive (v_id r) (v_local_port r) v.

(** [raw_socket] *)
Record raw_socket := mkRaw {
  w_id : Z;
  w_protocol : Z;
  w_packets : socket_queue;
  w_remote_addr : Z
}.


(** The static variables of the stack.  [n_wire] lists the frames given to the
    hardware driver's [transmit], oldest first. *)
Record net_state (A : Type) := mkNet {
  n_kernel : kstate A;
  rng_state : Z;
  g_nics : list nic;
  s_routing_table : list route;
  s_is_route_used : list bool;
  arp_table : list arp_entry;
  s_pending : list pending_frame;
  s_buffer : @RingBuf.ring_buf loopback_frame;
  g_mac : list Z;
  n_wire : list (list Z);
  ip_id : Z;
  s_sockets : list udp_socket;
  g_passive_sockets : list tcp_passive_socket;
  g_active_sockets : list tcp_active_socket;
  tcp_port : Z;
  g_raw_sockets : list raw_socket;
  g_next_socket_id : Z;
  g_dns_server_addr : Z
}.
Arguments mkNet {A}.
Arguments n_kernel {A} _.
Arguments rng_state {A} _.
Arguments g_nics {A} _.
Arguments s_routing_table {A} _.
Arguments s_is_route_used {A} _.
Arguments arp_table {A} _.
Arguments s_pending {A} _.
Arguments s_buffer {A} _.
Arguments g_mac {A} _.
Arguments n_wire {A} _.
Arguments ip_id {A} _.
Arguments s_sockets {A} _.
Arguments g_passive_sockets {A} _.
Arguments g_active_sockets {A} _.
Arguments tcp_port {A} _.
Arguments g_raw_sockets {A} _.
Arguments g_next_socket_id {A} _.
Arguments g_dns_server_addr {A} _.

Definition set_n_kernel {A : Type} (v : kstate A) (r : net_state A) : net_state A :=
  mkNet v (rng_state r) (g_nics r) (s_routing_table r) (s_is_route_used r) (arp_table r)
    (s_pending r) (s_buffer r) (g_mac r) (n_wire r) (ip_id r) (s_sockets r) (g_passive_sockets r)
    (g_active_sockets r) (tcp_port r) (g_raw_sockets r) (g_next_socket_id r) (g_dns_server_addr r).
Definition set_rng_state {A : Type} (v : Z) (r : net_state A) : net_state A :=
  mkNet (n_kernel r) v (g_nics r) (s_routing_table r) (s_is_route_used r) (arp_table r)
    (s_pending r) (s_buffer r) (g_mac r) (n_wire r) (ip_id r) (s_sockets r) (g_passive_sockets r)
    (g_active_sockets r) (tcp_port r) (g_raw_sockets r) (g_next_socket_id r) (g_dns_server_addr r).
Definition set_g_nics {A : Type} (v : list nic) (r : net_state A) : net_state A :=
  mkNet (n_kernel r) (rng_state r) v (s_routing_table r) (s_is_route_used r) (arp_table r)
    (s_pending r) (s_buffer r) (g_mac r) (n_wire r) (ip_id r) (s_sockets r) (g_passive_sockets r)
    (g_active_sockets r) (tcp_port r) (g_raw_sockets r) (g_next_socket_id r) (g_dns_server_addr r).
Definition set_s_routing_table {A : Type} (v : list route) (r : net_state A) : net_state A :=
  mkNet (n_kernel r) (rng_state r) (g_nics r) v (s_is_route_used r) (arp_table r) (s_pending r)
    (s_buffer r) (g_mac r) (n_wire r) (ip_id r) (s_sockets r) (g_passive_sockets r)
    (g_active_sockets r) (tcp_port r) (g_raw_sockets r) (g_next_socket_id r) (g_dns_server_addr r).
Definition set_s_is_route_used {A : Type} (v : list bool) (r : net_state A) : net_state A :=
  mkNet (n_kernel r) (rng_state r) (g_nics r) (s_routing_table r) v (arp_table r) (s_pending r)
    (s_buffer r) (g_mac r) (n_wire r) (ip_id r) (s_sockets r) (g_passive_sockets r)
    (g_active_sockets r) (tcp_port r) (g_raw_sockets r) (g_next_socket_id r) (g_dns_server_addr r).
Definition set_arp_table {A : Type} (v : list arp_entry) (r : net_state A) : net_state A :=
  mkNet (n_kernel r) (rng_state r) (g_nics r) (s_routing_table r) (s_is_route_used r) v
    (s_pending r) (s_buffer r) (g_mac r) (n_wire r) (ip_id r) (s_sockets r) (g_passive_sockets r)
    (g_active_sockets r) (tcp_port r) (g_raw_sockets r) (g_next_socket_id r) (g_dns_server_addr r).
Definition set_s_pending {A : Type} (v : list pending_frame) (r : net_state A) : net_state A :=
  mkNet (n_kernel r) (rng_state r) (g_nics r) (s_routing_table r) (s_is_route_used r)
    (arp_table r) v (s_buffer r) (g_mac r) (n_wire r) (ip_id r) (s_sockets r)
    (g_passive_sockets r) (g_active_sockets r) (tcp_port r) (g_raw_sockets r) (g_next_socket_id r)
    (g_dns_server_addr r).
Definition set_s_buffer {A : Type} (v : @RingBuf.ring_buf loopback_frame) (r : net_state A) : net_state A :=
  mkNet (n_kernel r) (rng_state r) (g_nics r) (s_routing_table r) (s_is_route_used r)
    (arp_table r) (s_pending r) v (g_mac r) (n_wire r) (ip_id r) (s_sockets r)
    (g_passive_sockets r) (g_active_sockets r) (tcp_port r) (g_raw_sockets r) (g_next_socket_id r)
    (g_dns_server_addr r).
Definition set_g_mac {A : Type} (v : list Z) (r : net_state A) : net_state A :=
  mkNet (n_kernel r) (rng_state r) (g_nics r) (s_routing_table r) (s_is_route_used r)
    (arp_table r) (s_pending r) (s_buffer r) v (n_wire r) (ip_id r) (s_sockets r)
    (g_passive_sockets r) (g_active_sockets r) (tcp_port r) (g_raw_sockets r) (g_next_socket_id r)
    (g_dns_server_addr r).
Definition set_n_wire {A : Type} (v : list (list Z)) (r : net_state A) : net_state A :=
  mkNet (n_kernel r) (rng_state r) (g_nics r) (s_routing_table r) (s_is_route_used r)
    (arp_table r) (s_pending r) (s_buffer r) (g_mac r) v (ip_id r) (s_sockets r)
    (g_passive_sockets r) (g_active_sockets r) (tcp_port r) (g_raw_sockets r) (g_next_socket_id r)
    (g_dns_server_addr r).
Definition set_ip_id {A : Type} (v : Z) (r : net_state A) : net_state A :=
  mkNet (n_kernel r) (rng_state r) (g_nics r) (s_routing_table r) (s_is_route_used r)
    (arp_table r) (s_pending r) (s_buffer r) (g_mac r) (n_wire r) v (s_sockets r)
    (g_passive_sockets r) (g_active_sockets r) (tcp_port r) (g_raw_sockets r) (g_next_socket_id r)
    (g_dns_server_addr r).
Definition set_s_sockets {A : Type} (v : list udp_socket) (r : net_state A) : net_state A :=
  mkNet (n_kernel r) (rng_state r) (g_nics r) (s_routing_table r) (s_is_route_used r)
    (arp_table r) (s_pending r) (s_buffer r) (g_mac r) (n_wire r) (ip_id r) v
    (g_passive_sockets r) (g_active_sockets r) (tcp_port r) (g_raw_sockets r) (g_next_socket_id r)
    (g_dns_server_addr r).
Definition set_g_passive_sockets {A : Type} (v : list tcp_passive_socket) (r : net_state A) : net_state A :=
  mkNet (n_kernel r) (rng_state r) (g_nics r) (s_routing_table r) (s_is_route_used r)
    (arp_table r) (s_pending r) (s_buffer r) (g_mac r) (n_wire r) (ip_id r) (s_sockets r) v
    (g_active_sockets r) (tcp_port r) (g_raw_sockets r) (g_next_socket_id r) (g_dns_server_addr r).
Definition set_g_active_sockets {A : Type} (v : list tcp_active_socket) (r : net_state A) : net_state A :=
  mkNet (n_kernel r) (rng_state r) (g_nics r) (s_routing_table r) (s_is_route_used r)
    (arp_table r) (s_pending r) (s_buffer r) (g_mac r) (n_wire r) (ip_id r) (s_sockets r)
    (g_passive_sockets r) v (tcp_port r) (g_raw_sockets r) (g_next_socket_id r)
    (g_dns_server_addr r).
Definition set_tcp_port {A : Type} (v : Z) (r : net_state A) : net_state A :=
  mkNet (n_kernel r) (rng_state r) (g_nics r) (s_routing_table r) (s_is_route_used r)
    (arp_table r) (s_pending r) (s_buffer r) (g_mac r) (n_wire r) (ip_id r) (s_sockets r)
    (g_passive_sockets r) (g_active_sockets r) v (g_raw_sockets r) (g_next_socket_id r)
    (g_dns_server_addr r).
Definition set_g_raw_sockets {A : Type} (v : list raw_socket) (r : net_state A) : net_state A :=
  mkNet (n_kernel r) (rng_state r) (g_nics r) (s_routing_table r) (s_is_route_used r)
    (arp_table r) (s_pending r) (s_buffer r) (g_mac r) (n_wire r) (ip_id r) (s_sockets r)
    (g_passive_sockets r) (g_active_sockets r) (tcp_port r) v (g_next_socket_id r)
    (g_dns_server_addr r).
Definition set_g_next_socket_id {A : Type} (v : Z) (r : net_state A) : net_state A :=
  mkNet (n_kernel r) (rng_state r) (g_nics r) (s_routing_table r) (s_is_route_used r)
    (arp_table r) (s_pending r) (s_buffer r) (g_mac r) (n_wire r) (ip_id r) (s_sockets r)
    (g_passive_sockets r) (g_active_sockets r) (tcp_port r) (g_raw_sockets r) v
    (g_dns_server_addr r).
Definition set_g_dns_server_addr {A : Type} (v : Z) (r : net_state A) : net_state A :=
  mkNet (n_kernel r) (rng_state r) (g_nics r) (s_routing_table r) (s_is_route_used r)
    (arp_table r) (s_pending r) (s_buffer r) (g_mac r) (n_wire r) (ip_id r) (s_sockets r)
    (g_passive_sockets r) (g_active_sockets r) (tcp_port r) (g_raw_sockets r) (g_next_socket_id r)
    v.

(** The values before [networking_init]: zero, apart from the four initialisers
    the sources give. *)
Definition zero_queue : socket_queue :=
  mkQueue (replicate (Z.to_nat SOCKET_QUEUE_SIZE) (mkPacket 0 (replicate (Z.to_nat IP_MAX_PACKET_SIZE) 0))) 0 0.
Definition zero_udp : udp_socket := mkUdp 0 0 0 0 0 0 false 0 zero_queue.
Definition zero_active : tcp_active_socket :=
  mkActive 0 false TCP_CLOSED 0 0 0 0 0 0 0 (replicate 4096 0) 0 0 (replicate 4096 0) 0 0.
Definition zero_passive : tcp_passive_socket :=
  mkPassive 0 0 (RingBuf.mkRing (replicate (Z.to_nat TCP_BACKLOG_SIZE) 0) 0 0).
Definition zero_raw : raw_socket := mkRaw 0 0 zero_queue 0.

Definition net_boot {A : Type} (k : kstate A) : net_state A :=
  mkNet k 88172645463325252
    (replicate (Z.to_nat MAX_NICS) (mkNic false false 0 0 0 0 0 None))
    (replicate (Z.to_nat ROUTING_TABLE_MAX_ENTREIS) (mkRoute 0 0 0 0 0))
    (replicate (Z.to_nat ROUTING_TABLE_MAX_ENTREIS) false)
    (replicate (Z.to_nat ARP_TABLE_SIZE) (mkArp 0 (replicate 6 0)))
    (replicate (Z.to_nat MAX_PENDING_FRAMES) (mkPending 0 None None 0))
    (RingBuf.mkRing (replicate (Z.to_nat BUFFER_LEN) (mkLoop (replicate (Z.to_nat FRAME_SIZE) 0) 0)) 0 0)
    (replicate 6 0) [] 0
    (replicate (Z.to_nat UDP_MAX_SOCKETS) zero_udp)
    (replicate (Z.to_nat TCP_MAX_LISTENERS) zero_passive)
    (replicate (Z.to_nat TCP_MAX_CONNECTIONS) zero_active)
    49152
    (replicate (Z.to_nat MAX_RAW_SOCKETS) zero_raw)
    1 0x0302000A.

(** A kernel with no object but the given tasks. *)
Definition idle_kernel (tasks : gmap Z task) : kstate unit :=
  mkK tt tasks ∅ ∅ ∅ [] 0 0 0 0 0 0 0 0 [] 0 ∅ 0 0 0.

(** ** Arrays searched from the front

    [for (i = 0; i < n; i++) if (p(a[i])) return &a[i]; return 0;] *)
Fixpoint first {X : Type} (p : X → bool) (l : list X) : option nat :=
  match l with
  | [] => None
  | x :: l' => if p x then Some 0%nat else S <$> first p l'
  end.

(** Reading [n] bytes through a pointer; past the end of the buffer it is a [Fault]. *)
Definition bytes_at {S : Type} (n : Z) (b : list Z) : M S (list Z) :=
  if n <=? Z.of_nat (length b) then mret (take (Z.to_nat n) b) else fault.

(** ** Byte order ([net.h]) and addresses *)

Definition htons (x : Z) : Z := u16 (Z.lor (Z.shiftr x 8) (Z.shiftl x 8)).
Definition ntohs (x : Z) : Z := u16 (Z.lor (Z.shiftr x 8) (Z.shiftl x 8)).
Definition htonl (x : Z) : Z :=
  u32 (Z.lor (Z.lor (Z.lor (Z.shiftl (Z.land x 255) 24) (Z.shiftl (Z.land (Z.shiftr x 8) 255) 16))
    (Z.shiftl (Z.land (Z.shiftr x 16) 255) 8)) (Z.shiftr x 24)).
Definition ntohl (x : Z) : Z := htonl x.

Definition IP (a b c d : Z) : Z :=
  u32 (Z.lor (Z.lor (Z.lor (Z.shiftl d 24) (Z.shiftl c 16)) (Z.shiftl b 8)) a).
Definition part (ip : Z) (i : Z) : Z := u8 (Z.shiftr ip (8 * i)).

(** ** The random number generator ([random.c]) *)

Definition xorshift (x : Z) : Z :=
  let x := Z.lxor x (u64 (Z.shiftl x 13)) in
  let x := Z.lxor x (Z.shiftr x 7) in
  Z.lxor x (u64 (Z.shiftl x 17)).

Section state.
Context {A : Type}.
Notation N := (M (net_state A)).

Definition next : N Z :=
  x ← gets (λ s, xorshift (rng_state s));
  modify (set_rng_state x) ;; mret x.
Definition rand64 : N Z := next.
Definition rand32 : N Z := x ← next; mret (u32 x).
Definition rand16 : N Z := x ← next; mret (u16 x).
Definition rand8 : N Z := x ← next; mret (u8 x).

(** [max == min] divides by zero. *)
Definition rand_range (min max : Z) : N Z :=
  x ← next;
  if u64 (max - min) =? 0 then fault else mret (u64 (min + x mod u64 (max - min))).
End state.

Lemma first_Some {X} (p : X → bool) l i :
  first p l = Some i ↔ (∃ x, l !! i = Some x ∧ p x = true) ∧ ∀ j y, (j < i)%nat → l !! j = Some y → p y = false.
Proof.
  revert i. induction l as [|x l IH]; intros i; simpl.
  - split; [done|]. intros [(y & Hy & _) _]. done.
  - destruct (p x) eqn:Hp.
    + split.
      * intros [= <-]. split; [by exists x|]. lia.
      * intros [_ H]. destruct i as [|i]; [done|]. rewrite (H 0%nat x) in Hp; [done|lia|done].
    + destruct i as [|i].
      * split; [by destruct (first p l)|]. intros [(y & [= <-] & Hy) _]. congruence.
      * transitivity (first p l = Some i).
        { destruct (first p l); simpl; split; congruence. }
        rewrite IH. split; intros [H1 H2]; (split; [done|]).
        -- intros [|j] y Hj Hy; [by injection Hy as ->|]. eapply H2; [|done]. lia.
        -- intros j y Hj Hy. apply (H2 (S j)); [lia|done].
Qed.

Lemma first_None {X} (p : X → bool) l : first p l = None ↔ ∀ i x, l !! i = Some x → p x = false.
Proof.
  induction l as [|x l IH]; simpl; [done|].
  destruct (p x) eqn:Hp.
  - split; [done|]. intros H. by rewrite (H 0%nat x) in Hp.
  - transitivity (first p l = None); [by destruct (first p l)|]. rewrite IH. split.
    + intros H [|i] y Hy; [by injection Hy as ->|by eapply H].
    + intros H i y Hy. by apply (H (S i)).
Qed.

Lemma first_lt {X} (p : X → bool) l i : first p l = Some i → (i < length l)%nat.
Proof. intros H. apply first_Some in H as [(x & Hx & _) _]. by eapply lookup_lt_Some. Qed.

Lemma bytes_at_ok {S} b (s : S) n : n = Z.of_nat (length b) → bytes_at n b s = Ok (b, s).
Proof. intros ->. unfold bytes_at. by rewrite Z.leb_refl, Nat2Z.id, take_ge. Qed.

(** *** Byte order *)

Lemma htons_spec x : 0 ≤ x < 2 ^ 16 → htons x = 256 * (x mod 256) + x / 256.
Proof.
  intros Hx. unfold htons, u16. rewrite Z.shiftr_div_pow2 by lia.
  change (2 ^ 16) with 65536 in *. change (2 ^ 8) with 256.
  rewrite lor_add by (change (2 ^ 8) with 256; dlia). change (2 ^ 8) with 256. dlia.
Qed.

Lemma htons_range x : 0 ≤ htons x < 2 ^ 16.
Proof. apply u16_range. Qed.

Lemma ntohs_htons x : 0 ≤ x < 2 ^ 16 → ntohs (htons x) = x.
Proof.
  intros Hx. change ntohs with htons. rewrite htons_spec by apply htons_range. rewrite htons_spec by done.
  change (2 ^ 16) with 65536 in *. dlia.
Qed.

Lemma land255 x : Z.land x 255 = x mod 256.
Proof. change 255 with (Z.ones 8). rewrite Z.land_ones by lia. done. Qed.

Lemma htonl_spec x : 0 ≤ x < 2 ^ 32 →
  htonl x = x / 2 ^ 24 + 2 ^ 8 * (x / 2 ^ 16 mod 256) + 2 ^ 16 * (x / 2 ^ 8 mod 256) + 2 ^ 24 * (x mod 256).
Proof.
  intros Hx. unfold htonl, u32. rewrite !land255, !Z.shiftr_div_pow2 by lia.
  change (2 ^ 32) with 4294967296 in *. change (2 ^ 24) with 16777216. change (2 ^ 16) with 65536.
  change (2 ^ 8) with 256.
  set (d := x / 16777216). set (c := x / 65536 mod 256). set (b := x / 256 mod 256). set (a := x mod 256).
  assert (0 ≤ a < 256 ∧ 0 ≤ b < 256 ∧ 0 ≤ c < 256 ∧ 0 ≤ d < 256) by (unfold a, b, c, d; dlia).
  replace (Z.lor _ d) with (Z.lor (Z.lor (Z.lor d (Z.shiftl c 8)) (Z.shiftl b 16)) (Z.shiftl a 24)).
  - rewrite (lor_add d c 8), (lor_add _ b 16), (lor_add _ a 24) by lia. rewrite Z.mod_small; lia.
  - apply Z.bits_inj'. intros n _. rewrite !Z.lor_spec. by destruct (Z.testbit d n), (Z.testbit (Z.shiftl c 8) n),
      (Z.testbit (Z.shiftl b 16) n), (Z.testbit (Z.shiftl a 24) n).
Qed.

Lemma htonl_parts a b c d : 0 ≤ a < 256 → 0 ≤ b < 256 → 0 ≤ c < 256 → 0 ≤ d < 256 →
  htonl (a + 2 ^ 8 * b + 2 ^ 16 * c + 2 ^ 24 * d) = d + 2 ^ 8 * c + 2 ^ 16 * b + 2 ^ 24 * a.
Proof.
  intros Ha Hb Hc Hd. rewrite htonl_spec by lia.
  change (2 ^ 24) with 16777216. change (2 ^ 16) with 65536. change (2 ^ 8) with 256.
  remember (a + 256 * b + 65536 * c + 16777216 * d) as x eqn:Hx.
  rewrite <- (Z.div_unique x 16777216 d (a + 256 * b + 65536 * c)) by lia.
  rewrite <- (Z.div_unique x 65536 (c + 256 * d) (a + 256 * b)) by lia.
  rewrite <- (Z.div_unique x 256 (b + 256 * c + 65536 * d) a) by lia.
  rewrite <- (Z.mod_unique x 256 (b + 256 * c + 65536 * d) a) by lia.
  rewrite <- (Z.mod_unique (c + 256 * d) 256 d c) by lia.
  rewrite <- (Z.mod_unique (b + 256 * c + 65536 * d) 256 (c + 256 * d) b) by lia. lia.
Qed.

Lemma parts_of x : 0 ≤ x < 2 ^ 32 → ∃ a b c d, 0 ≤ a < 256 ∧ 0 ≤ b < 256 ∧ 0 ≤ c < 256 ∧ 0 ≤ d < 256 ∧
  x = a + 2 ^ 8 * b + 2 ^ 16 * c + 2 ^ 24 * d.
Proof.
  intros Hx. exists (x mod 256), (x / 256 mod 256), (x / 256 / 256 mod 256), (x / 256 / 256 / 256).
  change (2 ^ 24) with 16777216. change (2 ^ 16) with 65536. change (2 ^ 8) with 256.
  change (2 ^ 32) with 4294967296 in *. dlia.
Qed.

Lemma htonl_range x : 0 ≤ htonl x < 2 ^ 32.
Proof. apply u32_range. Qed.

Lemma ntohl_htonl x : 0 ≤ x < 2 ^ 32 → ntohl (htonl x) = x.
Proof.
  intros Hx. unfold ntohl. destruct (parts_of x Hx) as (a & b & c & d & Ha & Hb & Hc & Hd & ->).
  by rewrite !htonl_parts.
Qed.

Lemma alter_at {X} (f : X → X) (l : list X) (i : nat) x : l !! i = Some x → alter f i l = <[i := f x]> l.
Proof.
  revert i. induction l as [|y l IH]; intros i Hi; [done|].
  destruct i as [|i]; [by injection Hi as ->|]. cbn. f_equal. exact (IH i Hi).
Qed.

(** Replacing an element by one the search treats alike. *)
Lemma first_insert_same {X} (p : X → bool) (l : list X) (i : nat) x y : l !! i = Some y → p x = p y →
  first p (<[i := x]> l) = first p l.
Proof.
  intros Hi Hp. revert i Hi. induction l as [|z l IH]; intros i Hi; [done|].
  destruct i as [|i]; cbn; [injection Hi as ->; by rewrite Hp|]. destruct (p z); [done|]. f_equal. exact (IH i Hi).
Qed.

End Net.
