(* ===== verification/Routing.v ===== *)
(** * Routes and network interfaces ([kernel/net/routing.c], [networking.c])

    The routing table with its longest-prefix search, and the table of
    interfaces whose configuration feeds it. *)
From S2P Require Import Prelude Pmm Vmm Heap Kobj RingBuf Bytes Net.
Import Kobj Net.

Module Routing.

(** An entry of the table is looked at when it is in use and [keep] holds. *)
Definition route_matches (dst : Z) (r : route) : bool :=
  Z.land dst (r_netmask r) =? Z.land (r_destination r) (r_netmask r).

(** The search loop; [best->metric] with [best] null is a [Fault]. *)
Fixpoint best_loop (keep : route → bool) (dst : Z) (tbl : list (bool * route))
    (best : option route) (best_mask : Z) : outcome (option route) :=
  match tbl with
  | [] => Ok best
  | (used, r) :: tbl' =>
      if used && keep r && route_matches dst r then
        if best_mask <? r_netmask r then best_loop keep dst tbl' (Some r) (r_netmask r)
        else if r_netmask r =? best_mask then
          match best with
          | None => Fault
          | Some b =>
              if r_metric r <? r_metric b then best_loop keep dst tbl' (Some r) (r_netmask r)
              else best_loop keep dst tbl' best best_mask
          end
        else best_loop keep dst tbl' best best_mask
      else best_loop keep dst tbl' best best_mask
  end.

Section routing.
Context {A : Type}.
Notation N := (M (net_state A)).

Definition table (s : net_state A) : list (bool * route) := zip (s_is_route_used s) (s_routing_table s).

(** [None]: [route_out] is left as the caller set it. *)
Definition find_best_route (dst : Z) : N (option route) := λ s,
  match best_loop (λ _, true) dst (table s) None 0 with
  | Ok b => Ok (b, s)
  | _ => Fault
  end.

(** The interface id is widened to [ulong] by the call and compared as such. *)
Definition find_best_route_for_nic (nic_id : Z) (dst : Z) : N (option route) := λ s,
  match best_loop (λ r, u64 (r_nic_id r) =? nic_id) dst (table s) None 0 with
  | Ok b => Ok (b, s)
  | _ => Fault
  end.

Definition same_key (rt r : route) : bool :=
  (r_destination r =? r_destination rt) && (r_netmask r =? r_netmask rt) && (r_nic_id r =? r_nic_id rt).

Definition set_route (i : nat) (rt : route) (s : net_state A) : net_state A :=
  set_s_routing_table (<[i := rt]> (s_routing_table s)) s.

Definition route_upsert (rt : route) : N unit :=
  tbl ← gets table;
  match first (λ e, e.1 && same_key rt e.2) tbl with
  | Some i => modify (set_route i rt)
  | None =>
      match first (λ e : bool * route, negb e.1) tbl with
      | Some i =>
          modify (set_route i rt) ;;
          modify (λ s, set_s_is_route_used (<[i := true]> (s_is_route_used s)) s)
      | None => mret tt
      end
  end.

(** The entries written to [buf]; the bound is tested after each one. *)
Fixpoint routes_loop (tbl : list (bool * route)) (c len : Z) : list route :=
  match tbl with
  | [] => []
  | (used, r) :: tbl' =>
      if used then r :: (if len <=? c + 1 then [] else routes_loop tbl' (c + 1) len)
      else routes_loop tbl' c len
  end.

Definition get_routes (len : Z) : N (list route * Z) :=
  tbl ← gets table;
  let rs := routes_loop tbl 0 len in
  mret (rs, Z.of_nat (length rs)).

(** ** Interfaces *)

Definition get_driver (vendor device : Z) : option net_ops :=
  if vendor =? 0x8086 then
    if (device =? 0x100E) || (device =? 0x15D8) || (device =? 0x10D3) then Some g_e1000_ops else None
  else None.

Definition register_nic (ops : net_ops) : N Z :=
  nics ← gets g_nics;
  match first (λ n, negb (n_used n)) nics with
  | None => mret (-1)
  | Some i =>
      r ← rand32;
      let id := i32 r in
      modify (λ s, set_g_nics (<[i := mkNic true true id 0 0 0 0 (Some ops)]> (g_nics s)) s) ;;
      route_upsert (mkRoute (IP 255 255 255 255) (IP 255 255 255 255) (IP 0 0 0 0) id 100) ;;
      mret id
  end.

(** The interface's slot, or null. *)
Definition get_nic (nic_id : Z) : N (option nat) :=
  gets (λ s, first (λ n, n_used n && (n_nic_id n =? nic_id)) (g_nics s)).

Definition upd_nic (i : nat) (f : nic → nic) (s : net_state A) : net_state A :=
  set_g_nics (alter f i (g_nics s)) s.

(** The route to the interface's own subnet, as [NIC_ADDRESS] and [NIC_NETMASK] install it. *)
Definition subnet_route (n : nic) (nic_id : Z) : route :=
  mkRoute (Z.land (n_addr n) (n_netmask n)) (n_netmask n) (IP 0 0 0 0) nic_id 0.

Definition configure_nic (nic_id : Z) (field : nic_config_field) (value : Z) : N unit :=
  o ← get_nic nic_id;
  match o with
  | None => mret tt
  | Some i =>
      match field with
      | NIC_ADDRESS =>
          modify (upd_nic i (set_n_addr (u32 value))) ;;
          n ← (o ← gets (λ s, g_nics s !! i); of_option o);
          when (truthy (n_netmask n)) (route_upsert (subnet_route n nic_id))
      | NIC_NETMASK =>
          modify (upd_nic i (set_n_netmask (u32 value))) ;;
          n ← (o ← gets (λ s, g_nics s !! i); of_option o);
          when (truthy (n_addr n)) (route_upsert (subnet_route n nic_id))
      | NIC_GATEWAY =>
          modify (upd_nic i (set_n_default_gateway (u32 value))) ;;
          route_upsert (mkRoute (IP 0 0 0 0) (IP 0 0 0 0) (u32 value) nic_id 100)
      | NIC_METRIC => mret tt
      end
  end.

(** [networking_init] up to the PCI scan. *)
Definition register_loopback : N unit :=
  id ← register_nic g_loopback_ops;
  o ← get_nic id;
  i ← of_option o;
  modify (upd_nic i (set_n_addr (IP 127 0 0 1))) ;;
  modify (upd_nic i (set_n_netmask (IP 255 0 0 0))) ;;
  route_upsert (mkRoute (IP 127 0 0 0) (IP 255 0 0 0) (IP 0 0 0 0) id 10).
End routing.

(** ** What the search promises *)

(** The entries the search looks at, in table order. *)
Definition candidates (keep : route → bool) (dst : Z) (tbl : list (bool * route)) : list route :=
  (filter (λ e, e.1 && keep e.2 && route_matches dst e.2 = true) tbl).*2.

(** The netmask of a prefix of [p] bits, in network byte order. *)
Definition prefix_mask (p : Z) : Z := htonl (2 ^ 32 - 2 ^ (32 - p)).

(** [r] has the largest netmask of [l] and, among those, the smallest metric. *)
Definition is_best (l : list route) (r : route) : Prop :=
  r ∈ l ∧ ∀ r', r' ∈ l → r_netmask r' < r_netmask r ∨ r_netmask r' = r_netmask r ∧ r_metric r ≤ r_metric r'.

Definition longest_prefix (l : list route) (r : route) : Prop :=
  ∀ r' p p', r' ∈ l → 0 ≤ p ≤ 32 → 0 ≤ p' ≤ 32 →
    r_netmask r = prefix_mask p → r_netmask r' = prefix_mask p' → p' ≤ p.

(** The outcome the search must have: a default route that comes before every
    other match is a null dereference, and after one it is passed over. *)
Definition search_spec {A} (l : list route) (s : net_state A) (o : outcome (option route * net_state A)) : Prop :=
  match l with
  | [] => o = Ok (None, s)
  | r0 :: _ =>
      if r_netmask r0 =? 0 then o = Fault
      else ∃ r, o = Ok (Some r, s) ∧ is_best l r ∧ longest_prefix l r
  end.

Lemma prefix_mask_mono p q : 0 ≤ p < q → q ≤ 32 → prefix_mask p < prefix_mask q.
Proof.
  intros Hp Hq.
  assert (forallb (λ i, forallb (λ j, implb (i <? j)%nat (prefix_mask (Z.of_nat i) <? prefix_mask (Z.of_nat j)))
    (seq 0 33)) (seq 0 33) = true) as H by (vm_compute; reflexivity).
  rewrite forallb_forall in H. specialize (H (Z.to_nat p)). rewrite forallb_forall in H.
  specialize (H ltac:(apply in_seq; lia) (Z.to_nat q) ltac:(apply in_seq; lia)).
  rewrite !Z2Nat.id in H by lia. replace (Z.to_nat p <? Z.to_nat q)%nat with true in H; [by apply Z.ltb_lt|].
  symmetry. apply Nat.ltb_lt. lia.
Qed.

Lemma best_longest l r : is_best l r → longest_prefix l r.
Proof.
  intros [_ H] r' p p' Hr' Hp Hp' E E'. destruct (decide (p < p')); [|lia].
  pose proof (prefix_mask_mono p p' ltac:(lia) ltac:(lia)). destruct (H r' Hr'); lia.
Qed.

Lemma is_best_snoc_new l r b : is_best l b →
  r_netmask b < r_netmask r ∨ r_netmask r = r_netmask b ∧ r_metric r < r_metric b → is_best (l ++ [r]) r.
Proof.
  intros [_ H] Hr. split; [set_solver|]. intros r' [Hr'| ->%list_elem_of_singleton]%elem_of_app; [|lia].
  destruct (H r' Hr'); lia.
Qed.

Lemma is_best_snoc_old l r b : is_best l b →
  r_netmask r < r_netmask b ∨ r_netmask r = r_netmask b ∧ r_metric b ≤ r_metric r → is_best (l ++ [r]) b.
Proof.
  intros [Hb H] Hr. split; [set_solver|]. intros r' [Hr'| ->%list_elem_of_singleton]%elem_of_app; [by apply H|lia].
Qed.

(** The loop once it has a candidate. *)
Lemma best_loop_some keep dst tbl seen b : is_best seen b →
  ∃ r, best_loop keep dst tbl (Some b) (r_netmask b) = Ok (Some r) ∧ is_best (seen ++ candidates keep dst tbl) r.
Proof.
  revert seen b. induction tbl as [|[u r] tbl IH]; intros seen b Hb.
  - exists b. by rewrite app_nil_r.
  - unfold candidates in *. cbn [best_loop]. rewrite filter_cons. cbn [fst snd].
    destruct (u && keep r && route_matches dst r) eqn:E; [|rewrite decide_False by done; by apply IH].
    rewrite decide_True by done. cbn [fmap list_fmap snd]. rewrite (cons_middle r), (app_assoc seen [r]).
    destruct (Z.ltb_spec (r_netmask b) (r_netmask r)).
    { apply IH. eapply is_best_snoc_new; [done|lia]. }
    destruct (Z.eqb_spec (r_netmask r) (r_netmask b)) as [En|].
    + destruct (Z.ltb_spec (r_metric r) (r_metric b)); apply IH;
        [eapply is_best_snoc_new; [done|lia]|apply is_best_snoc_old; [done|lia]].
    + apply IH. apply is_best_snoc_old; [done|lia].
Qed.

Lemma best_loop_spec {A} keep dst tbl (s : net_state A) :
  Forall (λ e, 0 ≤ r_netmask e.2) tbl →
  search_spec (candidates keep dst tbl) s
    match best_loop keep dst tbl None 0 with Ok b => Ok (b, s) | _ => Fault end.
Proof.
  induction 1 as [|[u r] tbl Hr _ IH]; [done|].
  unfold candidates in *. cbn [best_loop]. rewrite filter_cons. cbn [fst snd] in *.
  destruct (u && keep r && route_matches dst r) eqn:E; [|rewrite decide_False by done; done].
  rewrite decide_True by done. cbn [fmap list_fmap snd search_spec].
  destruct (Z.eqb_spec (r_netmask r) 0) as [Ez|Ez].
  - rewrite Ez. done.
  - rewrite (proj2 (Z.ltb_lt 0 (r_netmask r))) by lia.
    assert (is_best [r] r) as H1.
    { split; [set_solver|]. intros r' ->%list_elem_of_singleton. lia. }
    destruct (best_loop_some keep dst tbl [r] r H1) as (b & -> & Hb). exists b.
    split; [done|]. split; [exact Hb|]. by apply best_longest.
Qed.

(** ** The table and its updates *)

Section table.
Context {A : Type}.
Implicit Types (s : net_state A) (r rt : route).

Definition active s r : Prop := (true, r) ∈ table s.

(** The arrays have their size, masks are unsigned, and no two entries in use share a key. *)
Record routes_wf s : Prop := {
  rw_table : Z.of_nat (length (s_routing_table s)) = ROUTING_TABLE_MAX_ENTREIS;
  rw_used : Z.of_nat (length (s_is_route_used s)) = ROUTING_TABLE_MAX_ENTREIS;
  rw_masks : Forall (λ r, 0 ≤ r_netmask r) (s_routing_table s);
  rw_unique i j r r' : table s !! i = Some (true, r) → table s !! j = Some (true, r') →
    same_key r r' = true → i = j
}.

Lemma same_key_spec r r' : same_key r r' = true ↔
  r_destination r' = r_destination r ∧ r_netmask r' = r_netmask r ∧ r_nic_id r' = r_nic_id r.
Proof. unfold same_key. rewrite !andb_true_iff, !Z.eqb_eq. tauto. Qed.

Lemma table_lookup s i u r :
  table s !! i = Some (u, r) ↔ s_is_route_used s !! i = Some u ∧ s_routing_table s !! i = Some r.
Proof.
  unfold table. rewrite lookup_zip_with_Some. split.
  - intros (x & y & [= <- <-] & ? & ?). done.
  - intros [? ?]. by exists u, r.
Qed.

(** Entry [i] becomes a route in use. *)
Definition put_route (i : nat) rt s : net_state A :=
  set_s_is_route_used (<[i := true]> (s_is_route_used s)) (set_route i rt s).

Lemma table_put i rt s e : table s !! i = Some e → table (put_route i rt s) = <[i := (true, rt)]> (table s).
Proof. intros _. symmetry. apply insert_zip_with. Qed.

Lemma put_wf i rt s e :
  routes_wf s → 0 ≤ r_netmask rt → table s !! i = Some e →
  (∀ j r, table s !! j = Some (true, r) → same_key rt r = true → j = i) → routes_wf (put_route i rt s).
Proof.
  intros [Ht Hu Hm Hq] Hrt He Hk.
  assert (i < length (table s))%nat as Hi by (by eapply lookup_lt_Some).
  split.
  - cbn. by rewrite length_insert.
  - cbn. by rewrite length_insert.
  - by apply Forall_insert.
  - rewrite (table_put i rt s e He). intros j k r r' Hj Hr' Hs. apply same_key_spec in Hs.
    destruct (decide (j = i)) as [->|Hji]; destruct (decide (k = i)) as [->|Hki]; [done| | |].
    + rewrite list_lookup_insert_eq in Hj by done. rewrite list_lookup_insert_ne in Hr' by done. injection Hj as <-.
      symmetry. apply (Hk k r'); [done|]. by apply same_key_spec.
    + rewrite list_lookup_insert_ne in Hj by done. rewrite list_lookup_insert_eq in Hr' by done. injection Hr' as <-.
      apply (Hk j r); [done|]. apply same_key_spec. lia.
    + rewrite list_lookup_insert_ne in Hj, Hr' by done. eapply Hq; [done..|]. by apply same_key_spec.
Qed.

(** Only entries with the key of [rt] appear or disappear. *)
Lemma put_active i rt s u r0 : table s !! i = Some (u, r0) → (u = true → same_key rt r0 = true) →
  active (put_route i rt s) rt ∧
  ∀ r, same_key rt r = false → active (put_route i rt s) r ↔ active s r.
Proof.
  intros He Hu. assert (i < length (table s))%nat as Hi by (by eapply lookup_lt_Some).
  unfold active. rewrite (table_put i rt s _ He). split.
  - apply list_elem_of_lookup. exists i. by apply list_lookup_insert_eq.
  - intros r Hr. rewrite !list_elem_of_lookup. split; intros [j Hj]; destruct (decide (j = i)) as [->|Hji].
    + rewrite list_lookup_insert_eq in Hj by done. injection Hj as <-.
      rewrite (proj2 (same_key_spec rt rt)) in Hr; done.
    + rewrite list_lookup_insert_ne in Hj by done. by exists j.
    + rewrite He in Hj. injection Hj as -> ->. rewrite Hu in Hr; done.
    + exists j. by rewrite list_lookup_insert_ne.
Qed.

(** [route_upsert] keeps the table well formed (one entry in use per
    destination, mask and interface): the new route is active afterwards unless
    every entry is in use by another key, in which case nothing changes, and
    no route with another key is added, changed or lost. *)
Theorem route_upsert_correct s rt : routes_wf s → 0 ≤ r_netmask rt →
  ∃ s', route_upsert rt s = Ok (tt, s') ∧ routes_wf s' ∧
    (∀ r, same_key rt r = false → active s' r ↔ active s r) ∧
    (active s' rt ∨ s' = s ∧ ∀ e, e ∈ table s → e.1 = true ∧ same_key rt e.2 = false).
Proof.
  intros W Hrt. unfold route_upsert. rewrite (bind_of_ok _ _ s (table s) s eq_refl).
  destruct (first _ (table s)) as [i|] eqn:F.
  - apply first_Some in F as [([u r0] & He & Hp) _]. cbn in Hp. apply andb_true_iff in Hp as [-> Hp].
    assert (set_route i rt s = put_route i rt s) as Es.
    { unfold put_route. apply table_lookup in He as [Hu _]. cbn [s_is_route_used set_route set_s_routing_table].
      rewrite (list_insert_id _ _ _ Hu). by destruct s. }
    exists (put_route i rt s). rewrite <- Es at 1. split; [done|].
    destruct (put_active i rt s true r0 He) as [Ha Hb]; [done|]. split_and!; [|exact Hb|by left].
    eapply put_wf; [done..|]. intros j r Hj Hk. eapply (rw_unique s W); [done..|].
    apply same_key_spec in Hk, Hp. apply same_key_spec. lia.
  - destruct (first _ (table s)) as [i|] eqn:G in |- *.
    + apply first_Some in G as [([u r0] & He & Hp) _]. cbn in Hp. apply negb_true_iff in Hp as ->.
      exists (put_route i rt s). split; [done|].
      destruct (put_active i rt s false r0 He) as [Ha Hb]; [done|]. split_and!; [|exact Hb|by left].
      eapply put_wf; [done..|]. intros j r Hj Hk. rewrite first_None in F. specialize (F j _ Hj).
      cbn in F. congruence.
    + exists s. split_and!; [done..|]. right. split; [done|]. rewrite first_None in F, G.
      intros [u r] [j Hj]%list_elem_of_lookup. specialize (F j _ Hj). specialize (G j _ Hj). cbn in *.
      apply negb_false_iff in G as ->. done.
Qed.

(** [find_best_route] and [find_best_route_for_nic] return, among the routes
    in use that match the destination (and belong to the interface), one with
    the largest netmask, hence the longest prefix, and the smallest metric of
    those; no match leaves the result unset.  When the first match in the table
    is a default route (netmask 0), the code follows a null pointer. *)
Theorem find_best_route_correct s dst nic_id : routes_wf s →
  search_spec (candidates (λ _, true) dst (table s)) s (find_best_route dst s) ∧
  search_spec (candidates (λ r, u64 (r_nic_id r) =? nic_id) dst (table s)) s
    (find_best_route_for_nic nic_id dst s).
Proof.
  intros W. assert (Forall (λ e, 0 ≤ r_netmask e.2) (table s)) as Hm.
  { apply Forall_lookup. intros i [u r] [_ Hr]%table_lookup. exact (Forall_lookup_1 _ _ _ _ (rw_masks s W) Hr). }
  split; by apply best_loop_spec.
Qed.

Lemma boot_routes_wf (k : kstate A) : routes_wf (net_boot k).
Proof.
  split; [done..| |].
  - apply Forall_replicate. done.
  - intros i j r r' [Hu _]%table_lookup. apply lookup_replicate in Hu as [? _]. done.
Qed.
End table.

Lemma route_upsert_correct_witness :
  let s := net_boot (idle_kernel ∅) in let rt := mkRoute (IP 127 0 0 0) (IP 255 0 0 0) 0 7 10 in
  routes_wf s ∧ ∃ s', route_upsert rt s = Ok (tt, s') ∧ routes_wf s' ∧
    (∀ r, same_key rt r = false → active s' r ↔ active s r) ∧
    (active s' rt ∨ s' = s ∧ ∀ e, e ∈ table s → e.1 = true ∧ same_key rt e.2 = false).
Proof.
  intros s rt. split; [apply boot_routes_wf|]. apply (route_upsert_correct s rt); [apply boot_routes_wf|].
  vm_compute. discriminate.
Defined.

(** A table with a subnet route and a default route, in this order. *)
Definition demo_routes : net_state unit :=
  put_route 1 (mkRoute 0 0 (IP 10 0 2 2) 7 100)
    (put_route 0 (mkRoute (IP 10 0 2 0) (IP 255 255 255 0) 0 7 0) (net_boot (idle_kernel ∅))).

Lemma demo_routes_wf : routes_wf demo_routes.
Proof.
  unfold demo_routes. eapply put_wf; [eapply put_wf; [apply boot_routes_wf|by vm_compute|by vm_compute|]|done|by vm_compute|].
  - intros j r [Hu _]%table_lookup. apply lookup_replicate in Hu as [? _]. done.
  - intros j r [Hu Hr]%table_lookup Hk. destruct j as [|[|j]]; [|done|].
    + cbn in Hr. injection Hr as <-. vm_compute in Hk. discriminate.
    + cbn in Hu. apply lookup_replicate in Hu as [? _]. done.
Qed.

Lemma find_best_route_correct_witness :
  routes_wf demo_routes ∧
  find_best_route (IP 10 0 2 15) demo_routes
    = Ok (Some (mkRoute (IP 10 0 2 0) (IP 255 255 255 0) 0 7 0), demo_routes) ∧
  search_spec (candidates (λ _, true) (IP 8 8 8 8) (table demo_routes)) demo_routes
    (find_best_route (IP 8 8 8 8) demo_routes) ∧
  search_spec (candidates (λ r, u64 (r_nic_id r) =? 7) (IP 8 8 8 8) (table demo_routes)) demo_routes
    (find_best_route_for_nic 7 (IP 8 8 8 8) demo_routes).
Proof.
  split; [apply demo_routes_wf|]. split; [vm_compute; reflexivity|].
  apply (find_best_route_correct demo_routes (IP 8 8 8 8) 7). apply demo_routes_wf.
Defined.

(** The default route of [demo_routes] is never used: it is the first match. *)
Lemma default_route_faults : find_best_route (IP 8 8 8 8) demo_routes = Fault.
Proof. vm_compute. reflexivity. Qed.
End Routing.
