(* ===== verification/Link.v ===== *)
(** * The link layer ([kernel/net/arp.c], [ethernet.c],
    [drivers/ethernet_driver.c], [drivers/loopback.c])

    Address resolution, framing, the queue of frames that wait for an address,
    and the loopback queue. *)
From S2P Require Import Prelude Pmm Vmm Heap Kobj RingBuf Bytes Net.
Import Kobj Net Bytes.

Module Link.

Definition ETHERTYPE_ARP : Z := 0x0806.
Definition ETHERTYPE_IPV4 : Z := 0x0800.
Definition ARP_REQUEST : Z := 1.
Definition ARP_REPLY : Z := 2.
Definition sizeof_ethernet_frame : Z := 14.
Definition sizeof_arp_packet_ipv4 : Z := 28.

(** The packed struct [arp_packet_ipv4], as [arp_reply_ipv4] and [arp_send_ipv4] fill it. *)
Definition arp_packet (op : Z) (sender_mac : list Z) (sender_ip : Z) (target_mac : list Z) (target_ip : Z) : list Z :=
  le_bytes 2 (htons 1) ++ le_bytes 2 (htons ETHERTYPE_IPV4) ++ [6; 4] ++ le_bytes 2 (htons op) ++
  sender_mac ++ le_bytes 4 sender_ip ++ target_mac ++ le_bytes 4 target_ip.

(** The packed struct [ethernet_frame]. *)
Definition ethernet_header (dst src : list Z) (ethertype : Z) : list Z :=
  dst ++ src ++ le_bytes 2 (htons ethertype).

Definition ETH_BROADCAST : list Z := [0xFF; 0xFF; 0xFF; 0xFF; 0xFF; 0xFF].

Section link.
Context {A : Type}.
Notation N := (M (net_state A)).

(** ** Driver tables: a null entry is a [Fault] *)

Definition e1000_get_mac : N (list Z) := gets g_mac.

Definition get_mac (d : net_ops) : N (list Z) :=
  match d with g_e1000_ops => e1000_get_mac | g_loopback_ops => fault end.

Definition transmit (d : net_ops) (frame : list Z) : N unit :=
  match d with
  | g_e1000_ops => modify (λ s, set_n_wire (n_wire s ++ [frame]) s)
  | g_loopback_ops => fault
  end.

(** ** Ethernet *)

Definition ethernet_send (dst : list Z) (ethertype : Z) (payload : list Z) (payload_len : Z)
    (driver : option net_ops) : N unit :=
  let total := u16 (sizeof_ethernet_frame + payload_len) in
  d ← of_option driver;
  src ← get_mac d;
  body ← bytes_at payload_len payload;
  if total <? sizeof_ethernet_frame + payload_len then fault
  else transmit d (ethernet_header dst src ethertype ++ body).

(** ** ARP *)

Definition arp_reply_ipv4 (from_addr : Z) (from_mac : list Z) (n : nic) : N unit :=
  mac ← e1000_get_mac;
  ethernet_send from_mac ETHERTYPE_ARP (arp_packet ARP_REPLY mac (n_addr n) from_mac from_addr)
    sizeof_arp_packet_ipv4 (n_driver n).

Definition arp_send_ipv4 (addr : Z) (n : nic) : N unit :=
  mac ← e1000_get_mac;
  ethernet_send ETH_BROADCAST ETHERTYPE_ARP (arp_packet ARP_REQUEST mac (n_addr n) (replicate 6 0) addr)
    sizeof_arp_packet_ipv4 (n_driver n).

Definition arp_table_add (ip : Z) (mac : list Z) : N unit :=
  o ← gets (λ s, first (λ e, e_ip e =? 0) (arp_table s));
  match o with
  | Some i => modify (λ s, set_arp_table (<[i := mkArp ip mac]> (arp_table s)) s)
  | None => mret tt
  end.

(** The address written to [mac_out], or a return value of 0. *)
Definition arp_table_lookup (ip : Z) : N (option (list Z)) :=
  if ip =? 0xFFFFFFFF then mret (Some ETH_BROADCAST)
  else gets (λ s, i ← first (λ e, e_ip e =? ip) (arp_table s); e_mac <$> arp_table s !! i).

(** ** Frames waiting for an address *)

Definition get_pending_slot : N (option nat) :=
  gets (λ s, first (λ f, match f_frame f with None => true | Some _ => false end) (s_pending s)).

Definition free_pending_slot (i : nat) : N unit :=
  modify (λ s, set_s_pending (alter (set_f_frame None) i (s_pending s)) s).

Definition ethernet_driver_send (n : nic) (data : list Z) (len : Z) (gateway : Z) : N unit :=
  o ← arp_table_lookup gateway;
  match o with
  | None =>
      slot ← get_pending_slot;
      i ← of_option slot;
      body ← bytes_at len data;
      modify (λ s, set_s_pending (<[i := mkPending gateway (n_driver n) (Some body) len]> (s_pending s)) s) ;;
      arp_send_ipv4 gateway n
  | Some dst_mac => ethernet_send dst_mac ETHERTYPE_IPV4 data len (n_driver n)
  end.

Definition flush_slot (resolved : Z) (dst_mac : list Z) (i : Z) : N unit :=
  f ← (o ← gets (λ s, s_pending s !! Z.to_nat i); of_option o);
  when (truthy (f_len f) && (f_waiting_for f =? resolved))
    (frame ← of_option (f_frame f);
     ethernet_send dst_mac ETHERTYPE_IPV4 frame (f_len f) (f_driver f) ;;
     free_pending_slot (Z.to_nat i)).

Definition ethernet_driver_flush_pending (resolved : Z) : N unit :=
  o ← arp_table_lookup resolved;
  match o with
  | None => panic "Error"
  | Some dst_mac => for_range (Z.to_nat MAX_PENDING_FRAMES) 0 (flush_slot resolved dst_mac)
  end.

Definition arp_receive (data : list Z) (len : Z) (n : nic) : N unit :=
  if len <? sizeof_arp_packet_ipv4 then mret tt
  else
    let op := ntohs (le16 data 6) in
    let sender_mac := slice data 8 6 in
    let sender_ip := le32 data 14 in
    let target_ip := le32 data 24 in
    if op =? ARP_REPLY then
      arp_table_add sender_ip sender_mac ;;
      ethernet_driver_flush_pending sender_ip
    else if op =? ARP_REQUEST then
      when (target_ip =? n_addr n) (arp_reply_ipv4 sender_ip sender_mac n)
    else mret tt.

(** ** Loopback

    [junk] is what the uninitialised stack object [frame] holds before the copy:
    [FRAME_SIZE] bytes of data and the two bytes of its length. *)
Definition loopback_send (junk : list Z) (data : list Z) (len : Z) : N unit :=
  body ← bytes_at len data;
  if FRAME_SIZE + 2 <? len then fault
  else
    let raw := body ++ drop (Z.to_nat len) junk in
    let frame := mkLoop (take (Z.to_nat FRAME_SIZE) raw) (le16 raw (Z.to_nat FRAME_SIZE)) in
    λ s, match RingBuf.rb_write BUFFER_LEN (s_buffer s) frame with
         | Ok None => Ok (tt, s)
         | Ok (Some q') => Ok (tt, set_s_buffer q' s)
         | _ => Fault
         end.

(** [nic->driver->send] *)
Definition driver_send (junk : list Z) (n : nic) (data : list Z) (len : Z) (next_hop : Z) : N unit :=
  d ← of_option (n_driver n);
  match d with
  | g_loopback_ops => loopback_send junk data len
  | g_e1000_ops => ethernet_driver_send n data len next_hop
  end.
End link.

(** ** Behaviour *)

Section spec.
Context {A : Type}.
Implicit Types (s : net_state A) (f : pending_frame).

Lemma ethernet_send_ok s dst ty p :
  sizeof_ethernet_frame + Z.of_nat (length p) < 2 ^ 16 →
  ethernet_send dst ty p (Z.of_nat (length p)) (Some g_e1000_ops) s
  = Ok (tt, set_n_wire (n_wire s ++ [ethernet_header dst (g_mac s) ty ++ p]) s).
Proof.
  intros Hl. unfold ethernet_send. rewrite (bind_of_ok _ _ s g_e1000_ops s eq_refl).
  rewrite (bind_of_ok _ _ s (g_mac s) s eq_refl), (bind_of_ok _ _ s p s) by (by apply bytes_at_ok).
  unfold sizeof_ethernet_frame in *. rewrite u16_small by lia. by rewrite Z.ltb_irrefl.
Qed.

(** *** The table of addresses *)

Definition knows s (ip : Z) : option (list Z) :=
  i ← first (λ e, e_ip e =? ip) (arp_table s); e_mac <$> arp_table s !! i.

Lemma arp_table_lookup_ok s ip : ip ≠ 0xFFFFFFFF → arp_table_lookup ip s = Ok (knows s ip, s).
Proof. intros H. unfold arp_table_lookup. by rewrite (proj2 (Z.eqb_neq _ _) H). Qed.

Lemma first_insert {X} (p : X → bool) l i x : p x = true → (i < length l)%nat →
  first p (<[i := x]> l) = match first p l with Some j => Some (j `min` i)%nat | None => Some i end.
Proof.
  intros Hp. revert i. induction l as [|y l IH]; intros i Hi; [simpl in Hi; lia|].
  destruct i as [|i]; cbn.
  - rewrite Hp. destruct (p y); [done|]. destruct (first p l); done.
  - destruct (p y); [done|]. cbn in Hi. rewrite IH by lia. by destruct (first p l).
Qed.

Lemma knows_Some s ip mac : knows s ip = Some mac →
  ∃ i, first (λ e, e_ip e =? ip) (arp_table s) = Some i ∧ arp_table s !! i = Some (mkArp ip mac).
Proof.
  unfold knows. destruct (first _ _) as [i|] eqn:F; [|done]. simpl. intros H.
  pose proof F as [([jp m] & Hj & Hp) _]%first_Some. cbn in Hp. apply Z.eqb_eq in Hp as ->.
  exists i. split; [done|]. rewrite Hj in *. by injection H as <-.
Qed.

(** Slots are taken in order and never given back. *)
Definition arp_wf s : Prop := ∀ i j e e', (i < j)%nat → arp_table s !! i = Some e → arp_table s !! j = Some e' →
  e_ip e = 0 → e_ip e' = 0.

Lemma arp_insert_wf s i ip mac : arp_wf s → first (λ e, e_ip e =? 0) (arp_table s) = Some i →
  arp_wf (set_arp_table (<[i := mkArp ip mac]> (arp_table s)) s).
Proof.
  intros W F. pose proof (first_lt _ _ _ F) as Hi. apply first_Some in F as [(e0 & H0 & Hz) Hlt].
  apply Z.eqb_eq in Hz. intros j k e e' Hjk Hj Hk Ez. cbn in Hj, Hk.
  destruct (decide (j = i)) as [->|]; [|rewrite list_lookup_insert_ne in Hj by done].
  - rewrite list_lookup_insert_ne in Hk by lia. by eapply (W i k).
  - destruct (decide (j < i)%nat); [by specialize (Hlt j e ltac:(done) Hj); apply Z.eqb_neq in Hlt|].
    rewrite list_lookup_insert_ne in Hk by lia. by eapply (W j k).
Qed.

(** What a reply teaches about its own address. *)
Definition learned s (ip : Z) (mac : list Z) : option (list Z) :=
  match knows s ip with
  | Some old => Some old
  | None => if first (λ e, e_ip e =? 0) (arp_table s) then Some mac else None
  end.

(** The state [arp_table_add] leaves. *)
Definition taught (ip : Z) (mac : list Z) s : net_state A :=
  match first (λ e, e_ip e =? 0) (arp_table s) with
  | Some i => set_arp_table (<[i := mkArp ip mac]> (arp_table s)) s
  | None => s
  end.

Lemma arp_table_add_ok s ip mac : arp_table_add ip mac s = Ok (tt, taught ip mac s).
Proof. unfold arp_table_add, taught. rewrite (bind_of_ok _ _ s _ s eq_refl). by destruct (first _ _). Qed.

Lemma taught_lookup s ip mac : arp_wf s → 0 < ip < 0xFFFFFFFF →
  arp_wf (taught ip mac s) ∧ arp_table_lookup ip (taught ip mac s) = Ok (learned s ip mac, taught ip mac s) ∧
  (∀ ip', 0 < ip' < 0xFFFFFFFF → ip' ≠ ip →
    arp_table_lookup ip' (taught ip mac s) = Ok (knows s ip', taught ip mac s)).
Proof.
  intros W Hip. unfold taught, learned. destruct (first (λ e, e_ip e =? 0) (arp_table s)) as [i|] eqn:F.
  2: { split_and!; [done..| |].
       - rewrite arp_table_lookup_ok by lia. by destruct (knows s ip).
       - intros ip' ? ?. by rewrite arp_table_lookup_ok by lia. }
  set (s' := set_arp_table (<[i := mkArp ip mac]> (arp_table s)) s).
  split; [by apply arp_insert_wf|]. pose proof (first_lt _ _ _ F) as Hi.
  apply first_Some in F as [(e & He & Hz) _]. apply Z.eqb_eq in Hz.
  split; [|intros ip' Hip' Hne]; rewrite arp_table_lookup_ok by lia; do 2 f_equal; unfold knows; cbn [arp_table s' set_arp_table].
  - rewrite first_insert by (done || apply Z.eqb_refl).
    destruct (first _ (arp_table s)) as [j|] eqn:G; cbn [mbind option_bind]; [|by rewrite list_lookup_insert_eq].
    apply first_Some in G as [(e' & He' & Hp') _]. apply Z.eqb_eq in Hp'. rewrite He'. cbn.
    destruct (decide (j < i)%nat); [|assert (i ≠ j → e_ip e' = 0) by (intros; eapply (W i j); [lia|done..])].
    + rewrite Nat.min_l by lia. rewrite list_lookup_insert_ne by lia. by rewrite He'.
    + destruct (decide (i = j)) as [->|]; [|lia]. rewrite He in He'. injection He' as ->. lia.
  - rewrite (first_insert_same _ _ _ _ e) by (done || (cbn; rewrite !(proj2 (Z.eqb_neq _ _)) by lia; done)).
    destruct (first _ (arp_table s)) as [j|] eqn:G; [|done]. cbn [mbind option_bind].
    apply first_Some in G as [(e' & He' & Hp') _]. apply Z.eqb_eq in Hp'.
    rewrite list_lookup_insert_ne; [done|]. intros ->. rewrite He in He'. injection He' as ->. lia.
Qed.

Lemma taught_pending ip mac s : s_pending (taught ip mac s) = s_pending s ∧ g_mac (taught ip mac s) = g_mac s ∧
  n_wire (taught ip mac s) = n_wire s.
Proof. unfold taught. by destruct (first _ _). Qed.

(** What an ARP reply teaches: [arp_table_add] of a proper address is found by
    [arp_table_lookup] if it was unknown and the table had a free slot; an
    address already in the table keeps the hardware address it was first seen
    with, and a full table ignores it.  Other addresses are not affected, and
    slots stay filled in order. *)
Theorem arp_table_add_correct s ip mac : arp_wf s → 0 < ip < 0xFFFFFFFF →
  ∃ s', arp_table_add ip mac s = Ok (tt, s') ∧ arp_wf s' ∧
    arp_table_lookup ip s' = Ok (learned s ip mac, s') ∧
    (∀ ip', 0 < ip' < 0xFFFFFFFF → ip' ≠ ip → arp_table_lookup ip' s' = Ok (knows s ip', s')).
Proof.
  intros W Hip. exists (taught ip mac s). split; [apply arp_table_add_ok|]. by apply taught_lookup.
Qed.

(** *** Packets *)

Lemma arp_packet_length op smac sip tmac tip : length smac = 6%nat → length tmac = 6%nat →
  length (arp_packet op smac sip tmac tip) = 28%nat.
Proof. intros H1 H2. unfold arp_packet. rewrite !length_app, !le_bytes_length, H1, H2. done. Qed.

(** A packet is read back as it was filled in, whatever padding follows it. *)
Lemma arp_fields op smac sip tmac tip pad d :
  d = arp_packet op smac sip tmac tip ++ pad → length smac = 6%nat → length tmac = 6%nat →
  0 ≤ op < 2 ^ 16 → 0 ≤ sip < 2 ^ 32 → 0 ≤ tip < 2 ^ 32 →
  ntohs (le16 d 6) = op ∧ slice d 8 6 = smac ∧ le32 d 14 = sip ∧ le32 d 24 = tip.
Proof.
  intros -> H1 H2 Ho Hs Ht. unfold arp_packet.
  set (h := le_bytes 2 (htons 1) ++ le_bytes 2 (htons ETHERTYPE_IPV4) ++ [6; 4]).
  split_and!.
  - rewrite (le16_at _ 6 (htons op) h (smac ++ le_bytes 4 sip ++ tmac ++ le_bytes 4 tip ++ pad));
      [by apply ntohs_htons|by rewrite <- !app_assoc|done|apply htons_range].
  - apply (slice_at _ 8 6 smac (h ++ le_bytes 2 (htons op)) (le_bytes 4 sip ++ tmac ++ le_bytes 4 tip ++ pad));
      [by rewrite <- !app_assoc|done..].
  - apply (le32_at _ 14 sip (h ++ le_bytes 2 (htons op) ++ smac) (tmac ++ le_bytes 4 tip ++ pad));
      [by rewrite <- !app_assoc|by rewrite !length_app, H1|done].
  - apply (le32_at _ 24 tip (h ++ le_bytes 2 (htons op) ++ smac ++ le_bytes 4 sip ++ tmac) pad);
      [by rewrite <- !app_assoc|by rewrite !length_app, H1, H2|done].
Qed.

(** A request for the interface's own address is answered to its sender with
    the adapter's hardware address; a request for another address is ignored. *)
Theorem arp_receive_request s n smac sip tmac tip pad len :
  n_driver n = Some g_e1000_ops → length smac = 6%nat → length tmac = 6%nat → length (g_mac s) = 6%nat →
  0 ≤ sip < 2 ^ 32 → 0 ≤ tip < 2 ^ 32 → 28 ≤ len →
  arp_receive (arp_packet ARP_REQUEST smac sip tmac tip ++ pad) len n s =
  Ok (tt, if tip =? n_addr n
          then set_n_wire (n_wire s ++ [ethernet_header smac (g_mac s) ETHERTYPE_ARP ++
                 arp_packet ARP_REPLY (g_mac s) (n_addr n) smac sip]) s
          else s).
Proof.
  intros Hd H1 H2 Hm Hs Ht Hl. unfold arp_receive, sizeof_arp_packet_ipv4.
  rewrite (proj2 (Z.ltb_ge len 28)) by done.
  destruct (arp_fields ARP_REQUEST smac sip tmac tip pad _ eq_refl H1 H2 ltac:(done) Hs Ht) as (-> & -> & -> & ->).
  change (ARP_REQUEST =? ARP_REPLY) with false. change (ARP_REQUEST =? ARP_REQUEST) with true.
  cbn iota. unfold when. destruct (tip =? n_addr n); [|done].
  unfold arp_reply_ipv4. rewrite (bind_of_ok _ _ s (g_mac s) s eq_refl), Hd. unfold sizeof_arp_packet_ipv4.
  rewrite <- (ethernet_send_ok s); rewrite arp_packet_length by done; done.
Qed.

(** *** Frames that wait for an address *)

Definition waits (ip : Z) f : bool := truthy (f_len f) && (f_waiting_for f =? ip).

(** A waiting slot holds a frame the adapter can send. *)
Definition sendable f : Prop :=
  ∃ body, f_frame f = Some body ∧ f_driver f = Some g_e1000_ops ∧ f_len f = Z.of_nat (length body) ∧
    sizeof_ethernet_frame + f_len f < 2 ^ 16.

Definition release (ip : Z) f : pending_frame := if waits ip f then set_f_frame None f else f.

Definition frames_for (ip : Z) (dst src : list Z) (l : list pending_frame) : list (list Z) :=
  omap (λ f, if waits ip f then (λ b, ethernet_header dst src ETHERTYPE_IPV4 ++ b) <$> f_frame f else None) l.

Definition flushed (ip : Z) (mac : list Z) s : net_state A :=
  set_n_wire (n_wire s ++ frames_for ip mac (g_mac s) (s_pending s))
    (set_s_pending (release ip <$> s_pending s) s).

Lemma flush_slot_ok ip mac s l1 f l2 : s_pending s = l1 ++ f :: l2 → (waits ip f = true → sendable f) →
  flush_slot ip mac (Z.of_nat (length l1)) s =
  Ok (tt, set_n_wire (n_wire s ++ frames_for ip mac (g_mac s) [f])
       (set_s_pending (l1 ++ release ip f :: l2) s)).
Proof.
  intros E Hf. unfold flush_slot, frames_for, release. rewrite Nat2Z.id.
  rewrite (bind_of_ok _ _ s f s) by (unfold gets, mbind, M_bind; by rewrite E, lookup_app_r, Nat.sub_diag).
  fold (waits ip f). cbn [omap list_omap]. destruct (waits ip f); cbn [when].
  - destruct (Hf eq_refl) as (b & Hb & Hd & Hl & Hr). rewrite Hb, Hd, Hl.
    rewrite (bind_of_ok _ _ s b s eq_refl). rewrite Hl in Hr.
    rewrite (bind_of_ok _ _ _ _ _ (ethernet_send_ok s mac ETHERTYPE_IPV4 b Hr)).
    unfold free_pending_slot, modify. cbn [s_pending set_n_wire]. rewrite E, alter_app_r_alt, Nat.sub_diag by done. done.
  - rewrite app_nil_r, <- E. by destruct s.
Qed.

Lemma flush_loop ip mac l1 l2 s : s_pending s = l1 ++ l2 → Forall (λ f, waits ip f = true → sendable f) l2 →
  for_range (length l2) (Z.of_nat (length l1)) (flush_slot ip mac) s =
  Ok (tt, set_n_wire (n_wire s ++ frames_for ip mac (g_mac s) l2)
       (set_s_pending (l1 ++ (release ip <$> l2)) s)).
Proof.
  revert l1 s. induction l2 as [|f l2 IH]; intros l1 s E Hl.
  - cbn. rewrite !app_nil_r. rewrite app_nil_r in E. rewrite <- E. by destruct s.
  - apply Forall_cons in Hl as [Hf Hl]. cbn [for_range length].
    rewrite (bind_of_ok _ _ _ _ _ (flush_slot_ok ip mac s l1 f l2 E Hf)).
    set (s1 := set_n_wire _ _). replace (Z.of_nat (length l1) + 1) with (Z.of_nat (length (l1 ++ [release ip f])))
      by (rewrite length_app; simpl; lia).
    rewrite (IH (l1 ++ [release ip f]) s1); [|by rewrite <- app_assoc|done].
    cbn [fmap list_fmap]. unfold s1. cbn [n_wire g_mac set_n_wire set_s_pending].
    change (f :: l2) with ([f] ++ l2). unfold frames_for. rewrite omap_app, <- !app_assoc. done.
Qed.

Lemma flush_pending_ok ip mac s :
  Z.of_nat (length (s_pending s)) = MAX_PENDING_FRAMES → arp_table_lookup ip s = Ok (Some mac, s) →
  Forall (λ f, waits ip f = true → sendable f) (s_pending s) →
  ethernet_driver_flush_pending ip s = Ok (tt, flushed ip mac s).
Proof.
  intros Hlen Ha Hf. unfold ethernet_driver_flush_pending. rewrite (bind_of_ok _ _ _ _ _ Ha).
  rewrite <- Hlen, Nat2Z.id. exact (flush_loop ip mac [] (s_pending s) s eq_refl Hf).
Qed.

(** A slot that kept its length but lost its frame: the next flush reads through a null pointer. *)
Lemma flush_loop_stale ip mac l1 l2 s : s_pending s = l1 ++ l2 →
  Forall (λ f, waits ip f = true → f_frame f = None) l2 → Exists (λ f, waits ip f = true) l2 →
  for_range (length l2) (Z.of_nat (length l1)) (flush_slot ip mac) s = Fault.
Proof.
  revert l1 s. induction l2 as [|f l2 IH]; intros l1 s E Hn He; [by inversion He|].
  apply Forall_cons in Hn as [Hf Hn]. cbn [for_range length].
  destruct (waits ip f) eqn:W.
  - unfold mbind at 1, M_bind at 1. unfold flush_slot. rewrite Nat2Z.id.
    rewrite (bind_of_ok _ _ s f s) by (unfold gets, mbind, M_bind; by rewrite E, lookup_app_r, Nat.sub_diag).
    fold (waits ip f). rewrite W. cbn [when]. by rewrite Hf.
  - rewrite (bind_of_ok _ _ _ _ _ (flush_slot_ok ip mac s l1 f l2 E ltac:(by rewrite W))).
    unfold release, frames_for. cbn [omap list_omap]. rewrite W, app_nil_r.
    replace (Z.of_nat (length l1) + 1) with (Z.of_nat (length (l1 ++ [f]))) by (rewrite length_app; simpl; lia).
    apply IH; [by rewrite <- app_assoc|done|]. apply Exists_cons in He as [?|?]; [congruence|done].
Qed.

Lemma arp_receive_reply_run s n smac sip tmac tip pad len :
  length smac = 6%nat → length tmac = 6%nat → 0 ≤ sip < 2 ^ 32 → 0 ≤ tip < 2 ^ 32 → 28 ≤ len →
  arp_receive (arp_packet ARP_REPLY smac sip tmac tip ++ pad) len n s
  = ethernet_driver_flush_pending sip (taught sip smac s).
Proof.
  intros H1 H2 Hs Ht Hl. unfold arp_receive, sizeof_arp_packet_ipv4. rewrite (proj2 (Z.ltb_ge len 28)) by done.
  destruct (arp_fields ARP_REPLY smac sip tmac tip pad _ eq_refl H1 H2 ltac:(done) Hs Ht) as (-> & -> & -> & ->).
  change (ARP_REPLY =? ARP_REPLY) with true. cbn iota.
  by rewrite (bind_of_ok _ _ _ _ _ (arp_table_add_ok s sip smac)).
Qed.

(** An ARP reply sends every frame that waits for its address, in slot order and
    to the hardware address now in the table, and frees their slots.  A freed
    slot keeps its length, so if any frame waited, the next reply from the same
    host makes the code send a null pointer. *)
Theorem arp_reply_flushes s n smac sip tmac tip pad len m :
  arp_wf s → Z.of_nat (length (s_pending s)) = MAX_PENDING_FRAMES →
  Forall (λ f, waits sip f = true → sendable f) (s_pending s) →
  length smac = 6%nat → length tmac = 6%nat → 0 < sip < 0xFFFFFFFF → 0 ≤ tip < 2 ^ 32 → 28 ≤ len →
  learned s sip smac = Some m →
  let reply := arp_packet ARP_REPLY smac sip tmac tip ++ pad in
  ∃ s', arp_receive reply len n s = Ok (tt, s') ∧
    n_wire s' = n_wire s ++ frames_for sip m (g_mac s) (s_pending s) ∧
    s_pending s' = release sip <$> s_pending s ∧
    knows s' sip = Some m ∧
    (Exists (λ f, waits sip f = true) (s_pending s) → arp_receive reply len n s' = Fault).
Proof.
  intros W Hlen Hf H1 H2 Hs Ht Hl Hm reply. destruct (taught_lookup s sip smac W Hs) as (W1 & L1 & _).
  destruct (taught_pending sip smac s) as (Ep & Eg & Ew). set (s1 := taught sip smac s) in *.
  rewrite Hm in L1. exists (flushed sip m s1).
  assert (knows (flushed sip m s1) sip = Some m) as Hk.
  { rewrite arp_table_lookup_ok in L1 by lia. injection L1 as L1. exact L1. }
  split_and!; [| |by cbn; rewrite Ep|done|].
  - unfold reply. rewrite arp_receive_reply_run by (done || lia). apply flush_pending_ok; [by rewrite Ep|done|by rewrite Ep].
  - cbn. by rewrite Ep, Eg, Ew.
  - intros He. unfold reply. rewrite arp_receive_reply_run by (done || lia).
    assert (arp_wf (flushed sip m s1)) as W2 by exact W1.
    destruct (taught_lookup (flushed sip m s1) sip smac W2 Hs) as (_ & L2 & _).
    destruct (taught_pending sip smac (flushed sip m s1)) as (Ep2 & _ & _).
    unfold learned in L2. rewrite Hk in L2. unfold ethernet_driver_flush_pending.
    rewrite (bind_of_ok _ _ _ _ _ L2), <- Hlen, Nat2Z.id, <- (length_fmap (release sip)).
    apply (flush_loop_stale sip m []); [by rewrite Ep2; cbn; rewrite Ep| |].
    + apply Forall_fmap, Forall_true. intros f. unfold release. cbn. destruct (waits sip f) eqn:Wf; [done|]. by rewrite Wf.
    + apply Exists_fmap. eapply Exists_impl; [exact He|]. intros f Wf. cbn. unfold release. rewrite Wf. exact Wf.
Qed.

Lemma boot_arp_wf (k : kstate A) : arp_wf (net_boot k).
Proof. intros i j e e' _ _ Hj _. apply lookup_replicate in Hj as [-> _]. done. Qed.
End spec.

(** A frame for 10.0.2.2 waits in slot 0. *)
Definition demo_pending : net_state unit :=
  let s := net_boot (idle_kernel ∅) in
  set_s_pending (<[0%nat := mkPending (IP 10 0 2 2) (Some g_e1000_ops) (Some [1; 2; 3]) 3]> (s_pending s)) s.

Lemma arp_reply_flushes_witness :
  let reply := arp_packet ARP_REPLY [82; 85; 10; 0; 2; 2] (IP 10 0 2 2) (replicate 6 0) (IP 10 0 2 15) ++ [] in
  let n := mkNic true true 7 (IP 10 0 2 15) 0 0 0 (Some g_e1000_ops) in
  ∃ s', arp_receive reply 28 n demo_pending = Ok (tt, s') ∧
    n_wire s' = n_wire demo_pending ++
      frames_for (IP 10 0 2 2) [82; 85; 10; 0; 2; 2] (g_mac demo_pending) (s_pending demo_pending) ∧
    s_pending s' = release (IP 10 0 2 2) <$> s_pending demo_pending ∧
    knows s' (IP 10 0 2 2) = Some [82; 85; 10; 0; 2; 2] ∧
    (Exists (λ f, waits (IP 10 0 2 2) f = true) (s_pending demo_pending) → arp_receive reply 28 n s' = Fault).
Proof.
  apply (arp_reply_flushes demo_pending _ [82; 85; 10; 0; 2; 2] (IP 10 0 2 2) (replicate 6 0) (IP 10 0 2 15) [] 28).
  all: try (vm_compute; reflexivity). all: try (by split; vm_compute). 3: lia.
  - apply boot_arp_wf.
  - apply Forall_insert; [apply Forall_replicate; done|]. intros _. exists [1; 2; 3]. done.
Defined.
End Link.
