(* ===== verification/Checksum.v ===== *)
(** * The Internet checksum ([ip_checksum] of [kernel/net/ip.c], [checksum] of
    [icmp.c], the loops of [tcp_checksum] in [tcp.c])

    The kernel sums the words of a buffer as the machine reads them, little
    endian, in a [uint] whose carries it folds at the end; TCP builds big-endian
    words and swaps the result.  Both are compared with the definition of
    RFC 1071: the complement of the one's complement sum of big-endian words. *)
From S2P Require Import Prelude Pmm Vmm Heap Kobj RingBuf Bytes Net.
Import Bytes Net.

Module Checksum.

(** ** The checksum loops *)

(** [while (len > 1) { sum += *ptr++; len -= 2; }], then the odd byte if there is one. *)
Fixpoint add_words (sum : Z) (b : list Z) : Z :=
  match b with
  | [] => sum
  | [x] => u32 (sum + x)
  | x :: y :: b' => add_words (u32 (sum + (x + 256 * y))) b'
  end.

(** [while (sum >> 16) sum = (sum & 0xFFFF) + (sum >> 16);] *)
Fixpoint fold_carry (fuel : nat) (sum : Z) : outcome Z :=
  if Z.shiftr sum 16 =? 0 then Ok sum
  else
    match fuel with
    | O => NoFuel
    | S fuel' => fold_carry fuel' (u32 (Z.land sum 0xFFFF + Z.shiftr sum 16))
    end.

(** Two rounds are enough for any [uint]. *)
Definition CARRY_ROUNDS : nat := 2.

(** [return ~sum] as a [ushort]. *)
Definition finish_sum (sum : Z) : outcome Z :=
  match fold_carry CARRY_ROUNDS sum with
  | Ok s => Ok (u16 (Z.lnot s))
  | Panic e => Panic e
  | Fault => Fault
  | NoFuel => NoFuel
  end.

Definition lift {S X : Type} (o : outcome X) : M S X := λ s,
  match o with
  | Ok x => Ok (x, s)
  | Panic e => Panic e
  | Fault => Fault
  | NoFuel => NoFuel
  end.

Definition ip_checksum {S : Type} (data : list Z) (len : Z) : M S Z :=
  b ← bytes_at len data; lift (finish_sum (add_words 0 b)).

(** The ICMP module has its own copy of the routine. *)
Definition checksum {S : Type} (data : list Z) (len : Z) : M S Z :=
  b ← bytes_at len data; lift (finish_sum (add_words 0 b)).

(** The words of a TCP segment, built big endian; the odd byte is the high one. *)
Fixpoint add_words_be (sum : Z) (b : list Z) : Z :=
  match b with
  | [] => sum
  | [x] => u32 (sum + Z.shiftl x 8)
  | x :: y :: b' => add_words_be (u32 (sum + Z.lor (Z.shiftl x 8) y)) b'
  end.

(** ** The reference definition *)

(** One's complement addition of 16-bit words: the carry goes around. *)
Definition oc_add (x y : Z) : Z := if x + y <? 65536 then x + y else x + y - 65535.

Fixpoint be_words (b : list Z) : list Z :=
  match b with
  | [] => []
  | [x] => [256 * x]
  | x :: y :: b' => (256 * x + y) :: be_words b'
  end.

Definition rfc1071 (b : list Z) : Z := 65535 - foldr oc_add 0 (be_words b).

(** ** Equivalence *)

(** The representative of [n] modulo 65535 that one's complement sums arrive at: 0 only for 0. *)
Definition norm (n : Z) : Z := if n =? 0 then 0 else (n - 1) mod 65535 + 1.

Lemma norm_unique n y : 0 ≤ y ≤ 65535 → (y = 0 ↔ n = 0) → (∃ q, n = y + 65535 * q) → y = norm n.
Proof.
  intros Hy Hz [q ->]. unfold norm. destruct (Z.eqb_spec (y + 65535 * q) 0); [lia|].
  replace (y + 65535 * q - 1) with (y - 1 + q * 65535) by lia. rewrite Z_mod_plus_full, Z.mod_small; lia.
Qed.

Lemma norm_spec n : 0 ≤ n →
  0 ≤ norm n ≤ 65535 ∧ (norm n = 0 ↔ n = 0) ∧ ∃ q, n = norm n + 65535 * q.
Proof.
  intros Hn. unfold norm. destruct (Z.eqb_spec n 0) as [->|].
  - split_and!; [lia..|done|]. by exists 0.
  - pose proof (Z.mod_pos_bound (n - 1) 65535 ltac:(lia)). split_and!; [lia..|].
    exists ((n - 1) / 65535). pose proof (Z.div_mod (n - 1) 65535). lia.
Qed.

Lemma norm_small n : 0 ≤ n ≤ 65535 → norm n = n.
Proof. intros H. symmetry. apply norm_unique; [done|done|]. exists 0. lia. Qed.

Lemma norm_step n : 0 ≤ n → norm (n mod 65536 + n / 65536) = norm n.
Proof.
  intros Hn. pose proof (Z.div_mod n 65536). pose proof (Z.mod_pos_bound n 65536 ltac:(lia)).
  assert (0 ≤ n / 65536) by (apply Z.div_pos; lia).
  destruct (norm_spec (n mod 65536 + n / 65536)) as (R & Z & q & E); [lia|].
  apply norm_unique; [done|lia|]. exists (q + n / 65536). lia.
Qed.

Lemma carry_step n : 0 ≤ n < 2 ^ 32 → Z.shiftr n 16 = n / 65536 ∧
  u32 (Z.land n 0xFFFF + Z.shiftr n 16) = n mod 65536 + n / 65536.
Proof.
  intros Hn. rewrite Z.shiftr_div_pow2 by lia. change (2 ^ 16) with 65536. split; [done|].
  change 0xFFFF with (Z.ones 16). rewrite Z.land_ones by lia. change (2 ^ 16) with 65536.
  rewrite u32_small; [done|]. change (2 ^ 32) with 4294967296 in *. dlia.
Qed.

Lemma fold_carry_S f n : fold_carry (S f) n =
  if Z.shiftr n 16 =? 0 then Ok n else fold_carry f (u32 (Z.land n 0xFFFF + Z.shiftr n 16)).
Proof. done. Qed.

(** The folding loop ends within two rounds and leaves the one's complement sum. *)
Lemma fold_carry_ok n : 0 ≤ n < 2 ^ 32 → fold_carry CARRY_ROUNDS n = Ok (norm n).
Proof.
  intros Hn. assert (∀ m f, 0 ≤ m ≤ 65535 → fold_carry f m = Ok (norm m)) as Hbase.
  { intros m f Hm. destruct (carry_step m ltac:(lia)) as [E _].
    rewrite norm_small by done. destruct f; cbn [fold_carry]; rewrite E, Z.div_small by lia; done. }
  assert (∀ m f, 0 ≤ m ≤ 131070 → fold_carry (S f) m = Ok (norm m)) as H1.
  { intros m f Hm. rewrite fold_carry_S. destruct (carry_step m ltac:(lia)) as [E ->]. rewrite E.
    destruct (Z.eqb_spec (m / 65536) 0) as [Ez|]; [rewrite norm_small; [done|dlia]|].
    rewrite Hbase by dlia. by rewrite norm_step by lia. }
  unfold CARRY_ROUNDS. rewrite fold_carry_S.
  destruct (carry_step n Hn) as [E ->]. rewrite E. change (2 ^ 32) with 4294967296 in *.
  destruct (Z.eqb_spec (n / 65536) 0) as [Ez|]; [rewrite norm_small; [done|dlia]|].
  rewrite H1 by dlia. by rewrite norm_step by lia.
Qed.

Lemma finish_sum_ok n : 0 ≤ n < 2 ^ 32 → finish_sum n = Ok (65535 - norm n).
Proof.
  intros Hn. unfold finish_sum. rewrite fold_carry_ok by done. destruct (norm_spec n) as (R & _); [lia|].
  unfold u16, Z.lnot. f_equal. change (2 ^ 16) with 65536. rewrite <- (Z.mod_add _ 1) by lia. rewrite Z.mod_small; lia.
Qed.

(** *** The sums themselves *)

Fixpoint le_sum (b : list Z) : Z :=
  match b with [] => 0 | [x] => x | x :: y :: b' => x + 256 * y + le_sum b' end.
Definition be_sum (b : list Z) : Z := foldr Z.add 0 (be_words b).

(** Induction two bytes at a time. *)
Lemma pair_ind (P : list Z → Prop) :
  P [] → (∀ x, P [x]) → (∀ x y b, P b → P (x :: y :: b)) → ∀ b, P b.
Proof.
  intros H0 H1 H2 b. enough (P b ∧ ∀ x, P (x :: b)) by tauto. induction b as [|y b [IH1 IH2]]; [done|].
  split; [done|]. intros x. by apply H2.
Qed.

Lemma byte_pair x y b : Forall is_byte (x :: y :: b) → 0 ≤ x < 256 ∧ 0 ≤ y < 256 ∧ Forall is_byte b.
Proof. by intros [? [? ?]%Forall_cons]%Forall_cons. Qed.

Lemma sums_spec b : Forall is_byte b →
  0 ≤ le_sum b ≤ 65535 * ((Z.of_nat (length b) + 1) / 2) ∧ 0 ≤ be_sum b ≤ 65535 * ((Z.of_nat (length b) + 1) / 2) ∧
  (le_sum b = 0 ↔ be_sum b = 0) ∧ ∃ q, 256 * be_sum b = le_sum b + 65535 * q.
Proof.
  induction b as [|x|x y b IH] using pair_ind; intros Hb.
  - split_and!; [done..|]. by exists 0.
  - apply Forall_singleton in Hb as [? ?]. unfold be_sum. cbn [le_sum be_words foldr length].
    change ((Z.of_nat 1 + 1) / 2) with 1. split_and!; [lia..|]. exists x. lia.
  - apply byte_pair in Hb as (Hx & Hy & Hb). destruct (IH Hb) as (H1 & H2 & H3 & q & Hq).
    unfold be_sum in *. cbn [le_sum be_words foldr length].
    replace ((Z.of_nat (S (S (length b))) + 1) / 2) with ((Z.of_nat (length b) + 1) / 2 + 1)
      by (rewrite <- Z.div_add by lia; f_equal; lia).
    split_and!; [lia..|]. exists (q + x). lia.
Qed.

Lemma add_words_ok n b : Forall is_byte b → 0 ≤ n → n + le_sum b < 2 ^ 32 → add_words n b = n + le_sum b.
Proof.
  revert n. induction b as [|x|x y b IH] using pair_ind; intros n Hb Hn Hl; cbn [add_words le_sum] in *; [lia| |].
  - apply Forall_singleton in Hb as [? ?]. by rewrite u32_small by lia.
  - apply byte_pair in Hb as (Hx & Hy & Hb). destruct (sums_spec b Hb) as ([? _] & _).
    rewrite u32_small by lia. rewrite IH by (done || lia). lia.
Qed.

Lemma lor_shl8 x y : 0 ≤ y < 256 → Z.lor (Z.shiftl x 8) y = 256 * x + y.
Proof. intros Hy. rewrite Z.lor_comm, lor_add by (done || lia). lia. Qed.

Lemma add_words_be_ok n b : Forall is_byte b → 0 ≤ n → n + be_sum b < 2 ^ 32 → add_words_be n b = n + be_sum b.
Proof.
  unfold be_sum. revert n.
  induction b as [|x|x y b IH] using pair_ind; intros n Hb Hn Hl; cbn [add_words_be be_words foldr] in *; [lia| |].
  - apply Forall_singleton in Hb as [? ?]. rewrite Z.shiftl_mul_pow2 by lia. rewrite u32_small by lia. lia.
  - apply byte_pair in Hb as (Hx & Hy & Hb). destruct (sums_spec b Hb) as (_ & [? _] & _). unfold be_sum in *.
    rewrite lor_shl8 by done. rewrite u32_small by lia. rewrite IH by (done || lia). lia.
Qed.

Lemma oc_add_norm x n : 0 ≤ x ≤ 65535 → 0 ≤ n → oc_add x (norm n) = norm (x + n).
Proof.
  intros Hx Hn. destruct (norm_spec n Hn) as (R & Hz & q & E). unfold oc_add.
  destruct (Z.ltb_spec (x + norm n) 65536); apply norm_unique; try lia.
  - exists q. lia.
  - exists (q + 1). lia.
Qed.

Lemma rfc1071_norm b : Forall is_byte b → rfc1071 b = 65535 - norm (be_sum b).
Proof.
  intros Hb. unfold rfc1071. f_equal. unfold be_sum.
  induction b as [|x|x y b IH] using pair_ind; [done|..]; cbn [be_words foldr].
  - apply Forall_singleton in Hb as [? ?]. change 0 with (norm 0) at 1. by apply oc_add_norm; lia.
  - apply byte_pair in Hb as (Hx & Hy & Hb). destruct (sums_spec b Hb) as (_ & [? _] & _).
    rewrite IH by done. by apply oc_add_norm; [lia|].
Qed.

(** Swapping the bytes of a one's complement sum is multiplying it by 256. *)
Lemma htons_norm m n q : 0 ≤ m → 0 ≤ n → (m = 0 ↔ n = 0) → 256 * n = m + 65535 * q →
  norm m = htons (norm n).
Proof.
  intros Hm Hn Hz Hq. destruct (norm_spec n Hn) as (R & Hzn & p & E).
  rewrite htons_spec by lia. symmetry. remember (norm n) as y eqn:Ey. clear Ey.
  pose proof (Z.div_mod y 256 ltac:(lia)). pose proof (Z.mod_pos_bound y 256 ltac:(lia)).
  apply norm_unique; [dlia|lia|]. exists (y / 256 + 256 * p - q). lia.
Qed.

Lemma htons_compl y : 0 ≤ y ≤ 65535 → htons (65535 - y) = 65535 - htons y.
Proof. intros Hy. rewrite !htons_spec by lia. dlia. Qed.

Lemma bytes_at_app {S} b pad (s : S) : bytes_at (Z.of_nat (length b)) (b ++ pad) s = Ok (b, s).
Proof.
  unfold bytes_at. rewrite (proj2 (Z.leb_le _ _)) by (rewrite length_app; lia).
  by rewrite Nat2Z.id, take_app_length.
Qed.

Lemma sum_bound b : Forall is_byte b → Z.of_nat (length b) ≤ 2 ^ 16 → le_sum b < 2 ^ 31 ∧ be_sum b < 2 ^ 31.
Proof.
  intros Hb Hl. destruct (sums_spec b Hb) as (H1 & H2 & _). change (2 ^ 16) with 65536 in *.
  assert ((Z.of_nat (length b) + 1) / 2 ≤ 32768) by dlia. lia.
Qed.

Lemma ip_checksum_ok {S} b pad (s : S) : Forall is_byte b → Z.of_nat (length b) < 2 ^ 16 →
  ip_checksum (b ++ pad) (Z.of_nat (length b)) s = Ok (65535 - norm (le_sum b), s).
Proof.
  intros Hb Hl. unfold ip_checksum. rewrite (bind_of_ok _ _ _ _ _ (bytes_at_app b pad s)).
  destruct (sum_bound b Hb ltac:(lia)) as [H1 _]. destruct (sums_spec b Hb) as ([? _] & _).
  rewrite add_words_ok by (done || lia). unfold lift. by rewrite finish_sum_ok by lia.
Qed.

Lemma checksum_network {S} b pad (s : S) : Forall is_byte b → Z.of_nat (length b) < 2 ^ 16 →
  ip_checksum (b ++ pad) (Z.of_nat (length b)) s = Ok (htons (rfc1071 b), s).
Proof.
  intros Hb Hl. destruct (sums_spec b Hb) as ([H1 _] & [H2 _] & Hz & q & Hq). rewrite ip_checksum_ok by done.
  rewrite rfc1071_norm by done. destruct (norm_spec (be_sum b) H2) as (R & _).
  rewrite htons_compl by lia. by rewrite (htons_norm _ _ q H1 H2 Hz Hq).
Qed.

(** C20: [ip_checksum] and the [checksum] of ICMP, which add little-endian words and
    fold the carries of a [uint] at the end, terminate and compute the
    Internet checksum of RFC 1071 over big-endian words, ready to be stored in
    network byte order, for every buffer whose length is a [ushort]. *)
Theorem ip_checksum_rfc1071 {S} b pad (s : S) : Forall is_byte b → Z.of_nat (length b) < 2 ^ 16 →
  ip_checksum (b ++ pad) (Z.of_nat (length b)) s = Ok (htons (rfc1071 b), s) ∧
  checksum (b ++ pad) (Z.of_nat (length b)) s = Ok (htons (rfc1071 b), s).
Proof.
  intros Hb Hl. split; exact (checksum_network b pad s Hb Hl).
Qed.

Lemma ip_checksum_rfc1071_witness :
  ip_checksum ([0x45; 0; 0; 0x3C] ++ []) (Z.of_nat 4) tt = Ok (htons (rfc1071 [0x45; 0; 0; 0x3C]), tt) ∧
  checksum ([0x45; 0; 0; 0x3C] ++ []) (Z.of_nat 4) tt = Ok (htons (rfc1071 [0x45; 0; 0; 0x3C]), tt).
Proof.
  apply (ip_checksum_rfc1071 [0x45; 0; 0; 0x3C] [] tt); [|done]. repeat constructor; unfold is_byte; lia.
Defined.

Lemma le_sum_app a b : Nat.Even (length a) → le_sum (a ++ b) = le_sum a + le_sum b.
Proof.
  induction a as [|x|x y a IH] using pair_ind; intros He; [done| |].
  - destruct He as [k Hk]. simpl in Hk. lia.
  - cbn [app le_sum length] in *. rewrite IH; [lia|]. destruct He as [k Hk]. exists (k - 1)%nat. lia.
Qed.

Lemma le_sum_bytes v : 0 ≤ v < 2 ^ 16 → le_sum (le_bytes 2 v) = v.
Proof.
  intros Hv. cbn [le_bytes le_sum]. unfold u8. rewrite Z.shiftr_div_pow2 by lia.
  change (2 ^ 16) with 65536 in *. change (2 ^ 8) with 256. dlia.
Qed.

(** A packet whose checksum field was zero while it was summed passes the
    receiver's test once the result is stored there. *)
Lemma checksum_verifies {S} a c b (s : S) :
  Forall is_byte a → Forall is_byte b → Nat.Even (length a) → Z.of_nat (length a + length b) < 2 ^ 16 - 2 →
  ip_checksum (a ++ le_bytes 2 0 ++ b) (Z.of_nat (length a + 2 + length b)) s = Ok (c, s) →
  ip_checksum (a ++ le_bytes 2 c ++ b) (Z.of_nat (length a + 2 + length b)) s = Ok (0, s).
Proof.
  intros Ha Hb He Hl. assert (∀ v, 0 ≤ v < 2 ^ 16 →
    ip_checksum (a ++ le_bytes 2 v ++ b) (Z.of_nat (length a + 2 + length b)) s
    = Ok (65535 - norm (le_sum a + v + le_sum b), s)) as H.
  { intros v Hv. assert (Forall is_byte (a ++ le_bytes 2 v ++ b)) as Hf.
    { rewrite !Forall_app. split_and!; [done| |done]. repeat constructor; apply u8_range. }
    assert (length (a ++ le_bytes 2 v ++ b) = (length a + 2 + length b)%nat) as El
      by (rewrite !length_app, le_bytes_length; lia).
    rewrite <- El. rewrite <- (app_nil_r (a ++ le_bytes 2 v ++ b)) at 1. rewrite ip_checksum_ok by (done || lia).
    do 3 f_equal. rewrite le_sum_app, le_sum_app by (done || by exists 1%nat). rewrite le_sum_bytes by done. f_equal. lia. }
  destruct (sums_spec a Ha) as ([A1 _] & _). destruct (sums_spec b Hb) as ([B1 _] & _).
  destruct (norm_spec (le_sum a + 0 + le_sum b)) as (R & Hz & q & E); [lia|].
  rewrite H by lia. intros [= <-]. rewrite H by lia. do 2 f_equal.
  rewrite <- (norm_unique _ 65535); [lia|lia|lia|]. exists q. lia.
Qed.
End Checksum.
