(* ===== verification/Inet.v ===== *)
(** * Internet layer ([kernel/net/ip.c], [icmp.c])

    Sending a datagram, and ICMP echo. *)
From S2P Require Import Prelude Pmm Vmm Heap Kobj RingBuf Bytes Checksum Net Routing Link.
Import Kobj Net Bytes Checksum.

Module Inet.

Definition PROTOCOL_ICMP : Z := 1.
Definition PROTOCOL_TCP : Z := 6.
Definition PROTOCOL_UDP : Z := 17.
Definition ICMP_ECHO_REPLY : Z := 0.
Definition ICMP_ECHO_REQUEST : Z := 8.
Definition sizeof_ipv4_header : Z := 20.
Definition sizeof_icmp_header : Z := 8.

(** The packed struct [ipv4_header]. *)
Definition ipv4_header (total id protocol sum src dst : Z) : list Z :=
  [0x45; 0] ++ le_bytes 2 (htons total) ++ le_bytes 2 (htons id) ++ le_bytes 2 (htons (Z.shiftl 1 14)) ++
  [64; protocol] ++ le_bytes 2 sum ++ le_bytes 4 src ++ le_bytes 4 dst.

(** The packed struct [icmp_header]. *)
Definition icmp_header (type code sum rest : Z) : list Z :=
  [type; code] ++ le_bytes 2 sum ++ le_bytes 4 rest.

Section inet.
Context {A : Type}.
Notation N := (M (net_state A)).

(** What uninitialised stack memory holds (see [Link.loopback_send]). *)
Context (junk : list Z).

Definition zero_route : route := mkRoute 0 0 0 0 0.

(** The interface (an index into [g_nics], or null) and the route [ip_send] uses. *)
Definition ip_route (dst_addr : Z) (opts : ip_send_opts) : N (option Z * route) :=
  if truthy (o_nic_id opts) then
    o ← gets (λ s, first (λ n, n_nic_id n =? o_nic_id opts) (g_nics s));
    match o with
    | None => mret (None, zero_route)
    | Some i =>
        r ← Routing.find_best_route_for_nic (u64 (o_nic_id opts)) dst_addr;
        mret (Some (Z.of_nat i), default zero_route r)
    end
  else if o_src_addr opts =? 0 then
    r ← Routing.find_best_route dst_addr;
    mret (Some (r_nic_id (default zero_route r)), default zero_route r)
  else
    o ← gets (λ s, first (λ n, n_addr n =? o_src_addr opts) (g_nics s));
    match o with
    | None => mret (None, zero_route)
    | Some i =>
        n ← (o ← gets (λ s, g_nics s !! i); of_option o);
        r ← Routing.find_best_route_for_nic (u64 (n_nic_id n)) dst_addr;
        mret (Some (Z.of_nat i), default zero_route r)
    end.

(** [g_nics[i]]; outside the array it is a [Fault]. *)
Definition nic_at (i : Z) : N nic :=
  if i <? 0 then fault else (o ← gets (λ s, g_nics s !! Z.to_nat i); of_option o).

Definition ip_send (dst_addr protocol : Z) (payload : list Z) (payload_len : Z) (opts : ip_send_opts) : N unit :=
  '(ni, best_route) ← ip_route dst_addr opts;
  match ni with
  | None => mret tt
  | Some i =>
      if r_nic_id best_route =? 0 then mret tt
      else
        n ← nic_at i;
        id ← gets ip_id;
        modify (set_ip_id (u16 (id + 1))) ;;
        let total := u16 (sizeof_ipv4_header + payload_len) in
        sum ← ip_checksum (ipv4_header total id protocol 0 (n_addr n) dst_addr) sizeof_ipv4_header;
        body ← bytes_at payload_len payload;
        if total <? sizeof_ipv4_header + payload_len then fault
        else
          let next_hop := if truthy (r_gateway best_route) then r_gateway best_route else dst_addr in
          Link.driver_send junk n (ipv4_header total id protocol sum (n_addr n) dst_addr ++ body) total next_hop
  end.

Definition no_opts : ip_send_opts := mkOpts 0 0.

Definition icmp_send_ping (dst_addr : Z) : N unit :=
  sum ← checksum (icmp_header ICMP_ECHO_REQUEST 0 0 0) sizeof_icmp_header;
  ip_send dst_addr PROTOCOL_ICMP (icmp_header ICMP_ECHO_REQUEST 0 sum 0) sizeof_icmp_header no_opts.

Definition icmp_receive (src_addr : Z) (data : list Z) (data_len : Z) : N unit :=
  if data_len <? sizeof_icmp_header then mret tt
  else if byte data 0 =? ICMP_ECHO_REQUEST then
    sum ← checksum (icmp_header ICMP_ECHO_REPLY 0 0 0) sizeof_icmp_header;
    ip_send src_addr PROTOCOL_ICMP (icmp_header ICMP_ECHO_REPLY 0 sum 0) sizeof_icmp_header no_opts
  else mret tt.
End inet.

(** ** What goes out *)

(** A datagram with its checksum filled in. *)
Definition datagram (id protocol src dst : Z) (payload : list Z) : list Z :=
  let total := sizeof_ipv4_header + Z.of_nat (length payload) in
  ipv4_header total id protocol (htons (rfc1071 (ipv4_header total id protocol 0 src dst))) src dst ++ payload.

Lemma ipv4_header_length total id protocol sum src dst : length (ipv4_header total id protocol sum src dst) = 20%nat.
Proof. done. Qed.

Lemma le_bytes_is_byte n v : Forall is_byte (le_bytes n v).
Proof. revert v. induction n as [|n IH]; intros v; constructor; [apply u8_range|apply IH]. Qed.

Lemma ipv4_header_bytes total id protocol sum src dst : 0 ≤ protocol < 256 →
  Forall is_byte (ipv4_header total id protocol sum src dst).
Proof.
  intros Hp. unfold ipv4_header.
  repeat (apply Forall_app; split); try apply le_bytes_is_byte; repeat constructor; unfold is_byte; lia.
Qed.

Section send.
Context {A : Type}.
Context (junk : list Z).
Implicit Types (s : net_state A).

Lemma ip_send_run s dst protocol payload opts i r n :
  ip_route dst opts s = Ok ((Some i, r), s) → r_nic_id r ≠ 0 → 0 ≤ i → g_nics s !! Z.to_nat i = Some n →
  0 ≤ protocol < 256 → sizeof_ipv4_header + Z.of_nat (length payload) < 2 ^ 16 →
  ip_send junk dst protocol payload (Z.of_nat (length payload)) opts s =
  Link.driver_send junk n (datagram (ip_id s) protocol (n_addr n) dst payload)
    (sizeof_ipv4_header + Z.of_nat (length payload))
    (if truthy (r_gateway r) then r_gateway r else dst) (set_ip_id (u16 (ip_id s + 1)) s).
Proof.
  intros Hr Hn0 Hi Hn Hp Hl. unfold ip_send. rewrite (bind_of_ok _ _ _ _ _ Hr).
  rewrite (proj2 (Z.eqb_neq _ _) Hn0).
  rewrite (bind_of_ok _ _ s n s).
  2: { unfold nic_at. rewrite (proj2 (Z.ltb_ge i 0)) by done. unfold gets, mbind, M_bind. by rewrite Hn. }
  rewrite (bind_of_ok _ _ s (ip_id s) s eq_refl).
  rewrite (bind_of_ok _ _ s tt (set_ip_id (u16 (ip_id s + 1)) s) eq_refl).
  rewrite u16_small by (unfold sizeof_ipv4_header in *; lia). set (s1 := set_ip_id _ s).
  set (h0 := ipv4_header _ _ _ 0 _ _).
  assert (ip_checksum h0 sizeof_ipv4_header s1 = Ok (htons (rfc1071 h0), s1)) as Hc.
  { rewrite <- (app_nil_r h0) at 1. change sizeof_ipv4_header with (Z.of_nat (length h0)).
    apply checksum_network; [by apply ipv4_header_bytes|done]. }
  rewrite (bind_of_ok _ _ _ _ _ Hc), (bind_of_ok _ _ s1 payload s1) by (by apply bytes_at_ok).
  by rewrite Z.ltb_irrefl.
Qed.

(** The fields a receiver reads. *)
Lemma datagram_fields id protocol src dst payload pad d :
  d = datagram id protocol src dst payload ++ pad → 0 ≤ src < 2 ^ 32 → 0 ≤ dst < 2 ^ 32 →
  sizeof_ipv4_header + Z.of_nat (length payload) < 2 ^ 16 →
  ntohs (le16 d 2) = sizeof_ipv4_header + Z.of_nat (length payload) ∧ byte d 9 = protocol ∧
  le32 d 12 = src ∧ le32 d 16 = dst ∧ drop 20 d = payload ++ pad.
Proof.
  intros -> Hs Hd Hl. unfold datagram. set (total := sizeof_ipv4_header + _) in *. set (sum := htons (rfc1071 _)).
  assert (0 ≤ total < 2 ^ 16) by (unfold total, sizeof_ipv4_header in *; lia). split_and!.
  - rewrite (le16_at _ 2 (htons total) [0x45; 0] (drop 4 (ipv4_header total id protocol sum src dst) ++ payload ++ pad));
      [by apply ntohs_htons|by rewrite <- !app_assoc|done|apply htons_range].
  - reflexivity.
  - apply (le32_at _ 12 src (take 12 (ipv4_header total id protocol sum src dst)) (le_bytes 4 dst ++ payload ++ pad));
      [by rewrite <- !app_assoc|done|done].
  - apply (le32_at _ 16 dst (take 16 (ipv4_header total id protocol sum src dst)) (payload ++ pad));
      [by rewrite <- !app_assoc|done|done].
  - rewrite <- app_assoc. reflexivity.
Qed.

Lemma datagram_verifies {S} id protocol src dst payload (u : S) : 0 ≤ protocol < 256 →
  ip_checksum (datagram id protocol src dst payload) sizeof_ipv4_header u = Ok (0, u).
Proof.
  intros Hp. unfold datagram. set (total := sizeof_ipv4_header + _). set (h0 := ipv4_header total id protocol 0 src dst).
  set (c := htons (rfc1071 h0)). pose proof (ipv4_header_bytes total id protocol c src dst Hp) as Hb.
  assert (Forall is_byte (take 10 h0)) as Ba by (apply Forall_take, ipv4_header_bytes; done).
  assert (Forall is_byte (drop 12 h0)) as Bb by (apply Forall_drop, ipv4_header_bytes; done).
  assert (ip_checksum (ipv4_header total id protocol c src dst) 20 u = Ok (0, u)) as H0.
  { apply (checksum_verifies (take 10 h0) c (drop 12 h0) u Ba Bb); [by exists 5%nat|done|].
    change (take 10 h0 ++ le_bytes 2 0 ++ drop 12 h0) with h0. rewrite <- (app_nil_r h0) at 1.
    apply (checksum_network h0 [] u); [by apply ipv4_header_bytes|done]. }
  pose proof (ip_checksum_ok _ payload u Hb ltac:(done)) as E1.
  pose proof (ip_checksum_ok _ [] u Hb ltac:(done)) as E2. rewrite app_nil_r in E2.
  rewrite ipv4_header_length in E1, E2. change (Z.of_nat 20) with 20 in E1, E2. rewrite H0 in E2.
  change sizeof_ipv4_header with 20. by rewrite E1, <- E2.
Qed.

Lemma driver_send_known s n data hop mac :
  n_driver n = Some g_e1000_ops → Link.arp_table_lookup hop s = Ok (Some mac, s) →
  Link.sizeof_ethernet_frame + Z.of_nat (length data) < 2 ^ 16 →
  Link.driver_send junk n data (Z.of_nat (length data)) hop s =
  Ok (tt, set_n_wire (n_wire s ++ [Link.ethernet_header mac (g_mac s) Link.ETHERTYPE_IPV4 ++ data]) s).
Proof.
  intros Hd Ha Hl. unfold Link.driver_send. rewrite Hd, (bind_of_ok _ _ s g_e1000_ops s eq_refl).
  unfold Link.ethernet_driver_send. rewrite (bind_of_ok _ _ _ _ _ Ha), Hd. by apply Link.ethernet_send_ok.
Qed.

Lemma datagram_length id protocol src dst payload :
  Z.of_nat (length (datagram id protocol src dst payload)) = sizeof_ipv4_header + Z.of_nat (length payload).
Proof. unfold datagram. rewrite length_app, ipv4_header_length. unfold sizeof_ipv4_header. lia. Qed.

(** The next hop of a route. *)
Definition next_hop (r : route) (dst : Z) : Z := if truthy (r_gateway r) then r_gateway r else dst.

(** [ip_send] puts this on the wire. *)
Definition sent (n : nic) (mac : list Z) (protocol dst : Z) (payload : list Z) s : net_state A :=
  set_n_wire (n_wire s ++ [Link.ethernet_header mac (g_mac s) Link.ETHERTYPE_IPV4 ++
      datagram (ip_id s) protocol (n_addr n) dst payload]) (set_ip_id (u16 (ip_id s + 1)) s).

Lemma ip_send_known s dst protocol payload opts i r n mac :
  ip_route dst opts s = Ok ((Some i, r), s) → r_nic_id r ≠ 0 → 0 ≤ i → g_nics s !! Z.to_nat i = Some n →
  n_driver n = Some g_e1000_ops → Link.arp_table_lookup (next_hop r dst) s = Ok (Some mac, s) →
  0 ≤ protocol < 256 → Z.of_nat (length payload) < 2 ^ 16 - 34 →
  ip_send junk dst protocol payload (Z.of_nat (length payload)) opts s = Ok (tt, sent n mac protocol dst payload s).
Proof.
  intros Hr Hn0 Hi Hn Hd Ha Hp Hl. rewrite (ip_send_run s dst protocol payload opts i r n);
    try (done || unfold sizeof_ipv4_header; lia). fold (next_hop r dst).
  rewrite <- (datagram_length (ip_id s) protocol (n_addr n) dst). apply (driver_send_known (set_ip_id (u16 (ip_id s + 1)) s) n _ _ mac); [done| |].
  - unfold Link.arp_table_lookup in *. destruct (_ =? _); injection Ha as Ha; [by rewrite <- Ha|].
    unfold gets. by rewrite <- Ha.
  - rewrite datagram_length. unfold Link.sizeof_ethernet_frame, sizeof_ipv4_header. lia.
Qed.

(** [dst] can be reached through the interface [n] and the hardware address [mac]. *)
Definition reaches s (dst : Z) (opts : ip_send_opts) (n : nic) (mac : list Z) : Prop :=
  ∃ i r, ip_route dst opts s = Ok ((Some i, r), s) ∧ r_nic_id r ≠ 0 ∧ 0 ≤ i ∧ g_nics s !! Z.to_nat i = Some n ∧
    n_driver n = Some g_e1000_ops ∧ Link.arp_table_lookup (next_hop r dst) s = Ok (Some mac, s).

Lemma ip_send_reaches s dst protocol payload opts n mac :
  reaches s dst opts n mac → 0 ≤ protocol < 256 → Z.of_nat (length payload) < 2 ^ 16 - 34 →
  ip_send junk dst protocol payload (Z.of_nat (length payload)) opts s = Ok (tt, sent n mac protocol dst payload s).
Proof. intros (i & r & ? & ? & ? & ? & ? & ?) Hp Hl. by eapply ip_send_known. Qed.

(** [ip_send] to a destination with a route and a known hardware address puts
    exactly one frame on the wire, addressed to that hardware address.  Its
    datagram has a header checksum that verifies, the length, protocol,
    source (the interface's address) and destination the caller asked for, and
    the payload; the identification counter advances. *)
Theorem ip_send_correct s dst protocol payload opts n mac :
  reaches s dst opts n mac → 0 ≤ protocol < 256 → Z.of_nat (length payload) < 2 ^ 16 - 34 →
  0 ≤ n_addr n < 2 ^ 32 → 0 ≤ dst < 2 ^ 32 →
  ∃ d, ip_send junk dst protocol payload (Z.of_nat (length payload)) opts s =
      Ok (tt, set_n_wire (n_wire s ++ [Link.ethernet_header mac (g_mac s) Link.ETHERTYPE_IPV4 ++ d])
                (set_ip_id (u16 (ip_id s + 1)) s)) ∧
    ip_checksum d sizeof_ipv4_header s = Ok (0, s) ∧
    ntohs (le16 d 2) = Z.of_nat (length d) ∧ byte d 9 = protocol ∧ le32 d 12 = n_addr n ∧ le32 d 16 = dst ∧
    drop 20 d = payload.
Proof.
  intros Hr Hp Hl Hs Hd. exists (datagram (ip_id s) protocol (n_addr n) dst payload).
  rewrite (ip_send_reaches s dst protocol payload opts n mac Hr Hp Hl).
  destruct (datagram_fields (ip_id s) protocol (n_addr n) dst payload [] _ eq_refl Hs Hd) as (E1 & E2 & E3 & E4 & E5);
    [unfold sizeof_ipv4_header; lia|]. rewrite app_nil_r in *. rewrite app_nil_r in E5.
  split_and!; try done; [by apply datagram_verifies|by rewrite E1, datagram_length].
Qed.

(** Without a source address or interface, [ip_send] uses the identifier of the
    route's interface, a random number, as an index into the interface table:
    with no route nothing is sent, and with a route the access is outside the
    table unless the identifier happens to be an index.  ICMP and TCP send
    only in this way. *)
Theorem ip_send_unbound s dst protocol payload len :
  match Routing.find_best_route dst s with
  | Ok (None, _) => ip_send junk dst protocol payload len no_opts s = Ok (tt, s)
  | Ok (Some r, _) =>
      r_nic_id r ≠ 0 → r_nic_id r < 0 ∨ Z.of_nat (length (g_nics s)) ≤ r_nic_id r →
      ip_send junk dst protocol payload len no_opts s = Fault
  | _ => ip_send junk dst protocol payload len no_opts s = Fault
  end.
Proof.
  assert (∀ o, Routing.find_best_route dst s = Ok (o, s) →
    ip_route dst no_opts s = Ok ((Some (r_nic_id (default zero_route o)), default zero_route o), s)) as Hip.
  { intros o Ho. unfold ip_route. cbn [o_nic_id o_src_addr no_opts truthy negb Z.eqb]. by rewrite (bind_of_ok _ _ _ _ _ Ho). }
  destruct (Routing.find_best_route dst s) as [[[r|] s']|e| |] eqn:E.
  - assert (s' = s) as -> by (unfold Routing.find_best_route in E; by destruct (Routing.best_loop _ _ _ _ _); inversion E).
    intros Hz Hr. unfold ip_send. rewrite (bind_of_ok _ _ _ _ _ (Hip _ eq_refl)). change (default zero_route (Some r)) with r.
    rewrite (proj2 (Z.eqb_neq _ _) Hz). unfold nic_at. destruct (Z.ltb_spec (r_nic_id r) 0); [done|].
    unfold gets, mbind, M_bind. by rewrite lookup_ge_None_2 by lia.
  - assert (s' = s) as -> by (unfold Routing.find_best_route in E; by destruct (Routing.best_loop _ _ _ _ _); inversion E).
    unfold ip_send. by rewrite (bind_of_ok _ _ _ _ _ (Hip _ eq_refl)).
  - unfold Routing.find_best_route in E. by destruct (Routing.best_loop _ _ _ _ _).
  - unfold ip_send, ip_route. cbn [o_nic_id o_src_addr no_opts truthy negb Z.eqb]. unfold mbind, M_bind. by rewrite E.
  - unfold Routing.find_best_route in E. by destruct (Routing.best_loop _ _ _ _ _).
Qed.
End send.

Definition demo_inet : net_state unit :=
  mkNet (idle_kernel ∅) 1 [mkNic true true 7 (IP 10 0 2 15) (IP 255 255 255 0) 0 0 (Some g_e1000_ops)]
    [mkRoute (IP 10 0 2 0) (IP 255 255 255 0) 0 7 0] [true] [mkArp (IP 10 0 2 2) [82; 85; 10; 0; 2; 2]] []
    (RingBuf.mkRing [] 0 0) [82; 84; 0; 18; 52; 86] [] 0 [] [] [] 49152 [] 1 0.

Lemma ip_send_correct_witness :
  ∃ d, ip_send [] (IP 10 0 2 2) PROTOCOL_UDP [1; 2; 3] 3 (mkOpts 0 7) demo_inet =
      Ok (tt, set_n_wire ([] ++ [Link.ethernet_header [82; 85; 10; 0; 2; 2] (g_mac demo_inet) Link.ETHERTYPE_IPV4 ++ d])
                (set_ip_id (u16 (0 + 1)) demo_inet)) ∧
    ip_checksum d sizeof_ipv4_header demo_inet = Ok (0, demo_inet) ∧
    ntohs (le16 d 2) = Z.of_nat (length d) ∧ byte d 9 = PROTOCOL_UDP ∧ le32 d 12 = IP 10 0 2 15 ∧
    le32 d 16 = IP 10 0 2 2 ∧ drop 20 d = [1; 2; 3].
Proof.
  apply (ip_send_correct [] demo_inet (IP 10 0 2 2) PROTOCOL_UDP [1; 2; 3] (mkOpts 0 7)
    (mkNic true true 7 (IP 10 0 2 15) (IP 255 255 255 0) 0 0 (Some g_e1000_ops))); try (by split; vm_compute).
  exists 0, (mkRoute (IP 10 0 2 0) (IP 255 255 255 0) 0 7 0). by split_and!; vm_compute.
Defined.

Lemma ip_send_unbound_witness : ip_send [] (IP 10 0 2 2) PROTOCOL_ICMP [8; 0] 2 no_opts demo_inet = Fault.
Proof.
  pose proof (ip_send_unbound [] demo_inet (IP 10 0 2 2) PROTOCOL_ICMP [8; 0] 2) as H.
  assert (Routing.find_best_route (IP 10 0 2 2) demo_inet =
    Ok (Some (mkRoute (IP 10 0 2 0) (IP 255 255 255 0) 0 7 0), demo_inet)) as E by (vm_compute; reflexivity).
  rewrite E in H. apply H; [discriminate|]. right. cbn. lia.
Defined.
End Inet.
