(* ===== verification/Udp.v ===== *)
(** * UDP ([kernel/net/udp.c] and the packet queue of [socket.c]) *)
From S2P Require Import Prelude Pmm Vmm Heap Kobj Sched RingBuf Ipc Bytes Net Routing Link Checksum Inet.
Import Kobj Net Bytes.

Module Udp.

Inductive udp_error := UDP_OK | UDP_PORT_RESERVED | UDP_PORT_USED | UDP_SOCKET_LIMIT_EXCEEDED | UDP_SOCKET_NOT_FOUND.

Definition UDP_PORT_DNS : Z := 53.
Definition sizeof_udp_header : Z := 8.

(** ** The packet queue *)

(** The return value and the queue; a packet longer than its slot is a [Fault]. *)
Definition socket_queue_write (q : socket_queue) (data : list Z) (len : Z) : outcome (Z * socket_queue) :=
  if (q_head q + 1) mod SOCKET_QUEUE_SIZE =? q_tail q then Ok (0, q)
  else
    match q_packets q !! Z.to_nat (q_head q) with
    | None => Fault
    | Some p =>
        if (Z.of_nat (length data) <? len) || (IP_MAX_PACKET_SIZE <? len) then Fault
        else
          let p' := mkPacket len (take (Z.to_nat len) data ++ drop (Z.to_nat len) (q_data p)) in
          Ok (1, mkQueue (<[Z.to_nat (q_head q) := p']> (q_packets q))
            ((q_head q + 1) mod SOCKET_QUEUE_SIZE) (q_tail q))
    end.

(** The return value, the bytes copied to the caller's buffer, and the queue. *)
Definition socket_queue_read (q : socket_queue) (max_len : Z) : outcome (Z * list Z * socket_queue) :=
  if q_head q =? q_tail q then Ok (0, [], q)
  else
    match q_packets q !! Z.to_nat (q_tail q) with
    | None => Fault
    | Some p =>
        let copy_len := if max_len <? q_len p then max_len else q_len p in
        if Z.of_nat (length (q_data p)) <? copy_len then Fault
        else Ok (1, take (Z.to_nat copy_len) (q_data p),
               mkQueue (q_packets q) (q_head q) ((q_tail q + 1) mod SOCKET_QUEUE_SIZE))
    end.

(** The struct [udp_header]. *)
Definition udp_header (src_port dst_port length sum : Z) : list Z :=
  le_bytes 2 (htons src_port) ++ le_bytes 2 (htons dst_port) ++ le_bytes 2 (htons length) ++ le_bytes 2 sum.

Definition s_reserved_ports : list Z := [UDP_PORT_DNS].
Definition is_reserved (port : Z) : bool := existsb (λ p, p =? port) s_reserved_ports.

Section udp.
Context {A : Type}.
Notation N := (M (net_state A)).
Context (junk : list Z).

Definition is_port_used (port : Z) : N bool :=
  gets (λ s, existsb (λ k, truthy (u_id k) && (u_local_port k =? port)) (s_sockets s)).
Definition get_socket_for_port (port : Z) : N (option nat) :=
  gets (λ s, first (λ k, truthy (u_id k) && (u_local_port k =? port)) (s_sockets s)).
Definition find_free_socket : N (option nat) := gets (λ s, first (λ k, u_id k =? 0) (s_sockets s)).
Definition get_socket (id : Z) : N (option nat) := gets (λ s, first (λ k, u_id k =? id) (s_sockets s)).

Definition sock (i : nat) : N udp_socket := o ← gets (λ s, s_sockets s !! i); of_option o.
Definition upd_sock (i : nat) (f : udp_socket → udp_socket) : N unit :=
  modify (λ s, set_s_sockets (alter f i (s_sockets s)) s).

Definition udp_init : N unit := modify (λ s, set_s_sockets (const zero_udp <$> s_sockets s) s).

(** The packet queue is the only field that is not reset. *)
Definition udp_create_socket (id : Z) : N udp_error :=
  o ← find_free_socket;
  match o with
  | None => mret UDP_SOCKET_LIMIT_EXCEEDED
  | Some i =>
      upd_sock i (λ k, mkUdp id 0 0 (IP 0 0 0 0) (IP 0 0 0 0) 0 false 0 (u_packets k)) ;;
      mret UDP_OK
  end.

Definition udp_bind_socket (id : Z) (addr : socket_addr) : N udp_error :=
  o ← get_socket id;
  match o with
  | None => mret UDP_SOCKET_NOT_FOUND
  | Some i =>
      if is_reserved (sa_port addr) then mret UDP_PORT_RESERVED
      else
        used ← is_port_used (sa_port addr);
        if (used : bool) then mret UDP_PORT_USED
        else
          upd_sock i (set_u_local_port (sa_port addr)) ;;
          upd_sock i (set_u_local_addr (sa_addr addr)) ;;
          mret UDP_OK
  end.

Definition udp_bind_nic (id nic_id : Z) : N udp_error :=
  o ← get_socket id;
  match o with
  | None => mret UDP_SOCKET_NOT_FOUND
  | Some i => upd_sock i (set_u_nic_id nic_id) ;; mret UDP_OK
  end.

Definition udp_listen_socket (id : Z) : N udp_error :=
  o ← get_socket id;
  match o with
  | None => mret UDP_SOCKET_NOT_FOUND
  | Some i => upd_sock i (set_u_is_listening true) ;; mret UDP_OK
  end.

Definition udp_close_socket (id : Z) : N unit :=
  o ← get_socket id;
  match o with
  | None => mret tt
  | Some i => upd_sock i (set_u_id 0)
  end.

Definition udp_connect (id : Z) (remote : socket_addr) : N udp_error :=
  o ← get_socket id;
  match o with
  | None => mret UDP_SOCKET_NOT_FOUND
  | Some i =>
      upd_sock i (set_u_is_listening true) ;;
      upd_sock i (set_u_remote_port (sa_port remote)) ;;
      upd_sock i (set_u_remote_addr (sa_addr remote)) ;;
      mret UDP_OK
  end.

(** Header and payload in a buffer of [total_len] bytes. *)
Definition udp_packet (src_port dst_port : Z) (payload : list Z) (payload_len : Z) : N (list Z * Z) :=
  let total_len := u16 (sizeof_udp_header + payload_len) in
  body ← bytes_at payload_len payload;
  if total_len <? sizeof_udp_header + payload_len then fault
  else mret (udp_header src_port dst_port total_len 0 ++ body, total_len).

Definition udp_send_old (dst_addr src_port dst_port : Z) (payload : list Z) (payload_len : Z) : N unit :=
  '(packet, total_len) ← udp_packet src_port dst_port payload payload_len;
  Inet.ip_send junk dst_addr Inet.PROTOCOL_UDP packet total_len Inet.no_opts.

Definition udp_send (id : Z) (payload : list Z) (payload_len : Z) : N Z :=
  o ← get_socket id;
  match o with
  | None => mret 0
  | Some i =>
      k ← sock i;
      '(packet, total_len) ← udp_packet (u_local_port k) (u_remote_port k) payload payload_len;
      Inet.ip_send junk (u_remote_addr k) Inet.PROTOCOL_UDP packet total_len
        (mkOpts (u_local_addr k) (u_nic_id k)) ;;
      mret payload_len
  end.

Definition udp_receive (id data_len : Z) : N (Z * list Z) :=
  o ← get_socket id;
  match o with
  | None => mret (0, [])
  | Some i =>
      k ← sock i;
      '(r, out, q) ← Checksum.lift (socket_queue_read (u_packets k) data_len);
      upd_sock i (set_u_packets q) ;;
      mret (r, out)
  end.

Definition udp_on_data (data : list Z) (data_len : Z) : N unit :=
  if data_len <? sizeof_udp_header then mret tt
  else
    let dst_port := ntohs (le16 data 2) in
    let payload := drop 8 data in
    let payload_len := data_len - sizeof_udp_header in
    o ← get_socket_for_port dst_port;
    match o with
    | None => mret tt
    | Some i =>
        k ← sock i;
        if negb (u_is_listening k) then mret tt
        else
          '(_, q) ← Checksum.lift (socket_queue_write (u_packets k) payload payload_len);
          upd_sock i (set_u_packets q) ;;
          when (truthy (u_receiver k))
            (zoom n_kernel set_n_kernel (Sched.task_set_ready (u_receiver k)) ;;
             upd_sock i (set_u_receiver 0))
    end.

Definition udp_set_receiver (id t : Z) : N bool :=
  o ← get_socket id;
  match o with
  | None => mret false
  | Some i =>
      k ← sock i;
      if truthy (u_receiver k) then mret false
      else upd_sock i (set_u_receiver t) ;; mret true
  end.
End udp.

(** ** The queue as a list of payloads *)

Definition payload_of (p : socket_packet) : list Z := take (Z.to_nat (q_len p)) (q_data p).

Definition packet_wf (p : socket_packet) : Prop :=
  Z.of_nat (length (q_data p)) = IP_MAX_PACKET_SIZE ∧ 0 ≤ q_len p ≤ IP_MAX_PACKET_SIZE.

(** The queue [q] holds the packets [l], oldest first. *)
Record queue_rep (q : socket_queue) (l : list socket_packet) : Prop := {
  qr_len : Z.of_nat (length (q_packets q)) = SOCKET_QUEUE_SIZE;
  qr_tail : 0 ≤ q_tail q < SOCKET_QUEUE_SIZE;
  qr_head : q_head q = (q_tail q + Z.of_nat (length l)) mod SOCKET_QUEUE_SIZE;
  qr_count : Z.of_nat (length l) < SOCKET_QUEUE_SIZE;
  qr_holds : RingBuf.holds SOCKET_QUEUE_SIZE (q_packets q) (q_tail q) l;
  qr_wf : Forall packet_wf (q_packets q)
}.

Lemma zero_queue_rep : queue_rep zero_queue [].
Proof.
  split; [done|done|done|done|apply RingBuf.holds_nil|]. apply Forall_replicate. split; [done|].
  unfold IP_MAX_PACKET_SIZE. cbn. lia.
Qed.

(** A full queue ([SOCKET_QUEUE_SIZE - 1] packets) drops what arrives; otherwise the packet is appended. *)
Lemma queue_write_ok q l data payload pad :
  queue_rep q l → data = payload ++ pad → Z.of_nat (length payload) ≤ IP_MAX_PACKET_SIZE →
  if Z.of_nat (length l) <? SOCKET_QUEUE_SIZE - 1 then
    ∃ p q', socket_queue_write q data (Z.of_nat (length payload)) = Ok (1, q') ∧ payload_of p = payload ∧
      queue_rep q' (l ++ [p])
  else socket_queue_write q data (Z.of_nat (length payload)) = Ok (0, q).
Proof.
  intros [H1 H2 H3 H4 H5 H6] -> Hl. unfold socket_queue_write, SOCKET_QUEUE_SIZE in *.
  rewrite H3, Zplus_mod_idemp_l.
  destruct (Z.ltb_spec (Z.of_nat (length l)) (8 - 1)) as [Hlt|Hge].
  2: { replace (q_tail q + Z.of_nat (length l) + 1) with (q_tail q + 1 * 8) by lia.
       by rewrite Z_mod_plus_full, Z.mod_small, Z.eqb_refl by done. }
  destruct (Z.eqb_spec ((q_tail q + Z.of_nat (length l) + 1) mod 8) (q_tail q)) as [E|_].
  { pose proof (RingBuf.mod_inj 8 (q_tail q) (Z.of_nat (length l) + 1) 0 ltac:(lia) ltac:(lia)) as Hi.
    rewrite Z.add_0_r, (Z.mod_small (q_tail q)), Z.add_assoc in Hi by done. specialize (Hi E). lia. }
  pose proof (Z.mod_pos_bound (q_tail q + Z.of_nat (length l)) 8 ltac:(lia)) as Hm.
  set (h := (q_tail q + Z.of_nat (length l)) mod 8) in *.
  destruct (lookup_lt_is_Some_2 (q_packets q) (Z.to_nat h) ltac:(lia)) as [p Hp]. rewrite Hp.
  rewrite (proj2 (Z.ltb_ge (Z.of_nat (length (payload ++ pad))) _)) by (rewrite length_app; lia).
  rewrite (proj2 (Z.ltb_ge IP_MAX_PACKET_SIZE _)) by done.
  cbn [orb]. rewrite Nat2Z.id, take_app_length.
  set (p' := mkPacket _ _). set (q' := mkQueue _ _ _). exists p', q'. split; [done|].
  pose proof (Forall_lookup_1 _ _ _ _ H6 Hp) as [Hd _].
  split; [unfold payload_of; cbn; by rewrite Nat2Z.id, take_app_length|]. split; cbn.
  - by rewrite length_insert.
  - done.
  - rewrite length_app. cbn. f_equal. lia.
  - rewrite length_app. cbn. unfold SOCKET_QUEUE_SIZE. lia.
  - apply RingBuf.holds_push; [done|unfold SOCKET_QUEUE_SIZE; lia|done].
  - apply Forall_insert; [done|]. split; cbn; [|lia]. rewrite length_app, length_drop. lia.
Qed.

(** Reading returns the oldest packet, cut to the caller's buffer. *)
Lemma queue_read_ok q l max_len : queue_rep q l → 0 ≤ max_len →
  match l with
  | [] => socket_queue_read q max_len = Ok (0, [], q)
  | p :: l' => ∃ q', socket_queue_read q max_len = Ok (1, take (Z.to_nat max_len) (payload_of p), q') ∧ queue_rep q' l'
  end.
Proof.
  intros [H1 H2 H3 H4 H5 H6] Hm. unfold socket_queue_read, SOCKET_QUEUE_SIZE in *. rewrite H3.
  destruct l as [|p l].
  { cbn [length]. by rewrite Z.add_0_r, Z.mod_small, Z.eqb_refl by done. }
  cbn [length] in *. destruct (Z.eqb_spec ((q_tail q + Z.of_nat (S (length l))) mod 8) (q_tail q)) as [E|_].
  { pose proof (RingBuf.mod_inj 8 (q_tail q) (Z.of_nat (S (length l))) 0 ltac:(lia) ltac:(lia)) as Hi.
    rewrite Z.add_0_r, (Z.mod_small (q_tail q)) in Hi by done. specialize (Hi E). lia. }
  destruct (RingBuf.holds_pop _ _ _ _ _ H5 H2) as [Hp Hh]. rewrite Hp.
  pose proof (Forall_lookup_1 _ _ _ _ H6 Hp) as [Hd Hq].
  rewrite (proj2 (Z.ltb_ge _ _)) by (destruct (Z.ltb_spec max_len (q_len p)); lia).
  set (q' := mkQueue _ _ _). exists q'. split.
  - do 3 f_equal. unfold payload_of. rewrite take_take. f_equal. destruct (Z.ltb_spec max_len (q_len p)); lia.
  - split; cbn; [done|apply Z.mod_pos_bound; done| |unfold SOCKET_QUEUE_SIZE; lia|exact Hh|done].
    rewrite Zplus_mod_idemp_l. f_equal. lia.
Qed.

(** ** Sending and receiving *)

Section transfer.
Context {A : Type}.
Context (junk : list Z).
Implicit Types (s : net_state A) (k : udp_socket).

Lemma sock_ok s i k : s_sockets s !! i = Some k → sock i s = Ok (k, s).
Proof. intros H. unfold sock, gets, mbind, M_bind. by rewrite H. Qed.

(** Replacing socket [i]. *)
Definition with_sock (i : nat) k s : net_state A := set_s_sockets (<[i := k]> (s_sockets s)) s.

Lemma upd_sock_ok s i k f : s_sockets s !! i = Some k → upd_sock i f s = Ok (tt, with_sock i (f k) s).
Proof. intros H. unfold upd_sock, modify, with_sock. by rewrite (alter_at _ _ _ _ H). Qed.

Lemma with_sock_lookup s i k k' : s_sockets s !! i = Some k → s_sockets (with_sock i k' s) !! i = Some k'.
Proof. intros H. apply list_lookup_insert_eq. by eapply lookup_lt_Some. Qed.

Lemma with_sock_twice s i k k' : with_sock i k' (with_sock i k s) = with_sock i k' s.
Proof. unfold with_sock. cbn. by rewrite list_insert_insert_eq. Qed.

Lemma udp_header_length sp dp n sum : length (udp_header sp dp n sum) = 8%nat.
Proof. done. Qed.

Lemma udp_fields sp dp n sum rest : 0 ≤ dp < 2 ^ 16 →
  ntohs (le16 (udp_header sp dp n sum ++ rest) 2) = dp ∧ drop 8 (udp_header sp dp n sum ++ rest) = rest.
Proof.
  intros Hd. split; [|done]. unfold udp_header.
  rewrite (le16_at _ 2 (htons dp) (le_bytes 2 (htons sp)) (le_bytes 2 (htons n) ++ le_bytes 2 sum ++ rest));
    [by apply ntohs_htons|by rewrite <- !app_assoc|done|apply htons_range].
Qed.

(** The UDP segment of a payload. *)
Definition segment (src_port dst_port : Z) (payload : list Z) : list Z :=
  udp_header src_port dst_port (sizeof_udp_header + Z.of_nat (length payload)) 0 ++ payload.

Lemma segment_length sp dp payload : Z.of_nat (length (segment sp dp payload)) = sizeof_udp_header + Z.of_nat (length payload).
Proof. unfold segment. rewrite length_app, udp_header_length. unfold sizeof_udp_header. lia. Qed.

Lemma udp_packet_ok s sp dp payload : sizeof_udp_header + Z.of_nat (length payload) < 2 ^ 16 →
  udp_packet sp dp payload (Z.of_nat (length payload)) s
  = Ok ((segment sp dp payload, sizeof_udp_header + Z.of_nat (length payload)), s).
Proof.
  intros H. unfold udp_packet. rewrite (bind_of_ok _ _ s payload s) by (by apply bytes_at_ok).
  rewrite u16_small by (unfold sizeof_udp_header in *; lia). by rewrite Z.ltb_irrefl.
Qed.

Lemma udp_send_ok s id i k payload n mac :
  get_socket id s = Ok (Some i, s) → s_sockets s !! i = Some k →
  Inet.reaches s (u_remote_addr k) (mkOpts (u_local_addr k) (u_nic_id k)) n mac →
  Z.of_nat (length payload) < 2 ^ 16 - 42 →
  udp_send junk id payload (Z.of_nat (length payload)) s =
  Ok (Z.of_nat (length payload), Inet.sent n mac Inet.PROTOCOL_UDP (u_remote_addr k)
    (segment (u_local_port k) (u_remote_port k) payload) s).
Proof.
  intros Hi Hk Hr Hl. unfold udp_send. rewrite (bind_of_ok _ _ _ _ _ Hi), (bind_of_ok _ _ _ _ _ (sock_ok s i k Hk)).
  rewrite (bind_of_ok _ _ _ _ _ (udp_packet_ok s _ _ payload ltac:(unfold sizeof_udp_header; lia))).
  rewrite <- (segment_length (u_local_port k) (u_remote_port k)).
  erewrite bind_of_ok; [|apply Inet.ip_send_reaches; [exact Hr|done|]]; [done|].
  rewrite segment_length. unfold sizeof_udp_header. lia.
Qed.

(** A socket [k] once a segment has arrived and left the queue [q]. *)
Definition arrived (q : socket_queue) k : udp_socket := set_u_receiver 0 (set_u_packets q k).

Lemma udp_on_data_ok s sp dp sum payload pad i k q r :
  0 ≤ dp < 2 ^ 16 → get_socket_for_port dp s = Ok (Some i, s) → s_sockets s !! i = Some k →
  u_is_listening k = true → Ipc.ok_listener (n_kernel s) (u_receiver k) →
  socket_queue_write (u_packets k) (payload ++ pad) (Z.of_nat (length payload)) = Ok (r, q) →
  udp_on_data (udp_header sp dp (sizeof_udp_header + Z.of_nat (length payload)) sum ++ payload ++ pad)
    (sizeof_udp_header + Z.of_nat (length payload)) s =
  Ok (tt, with_sock i (arrived q k)
    (set_n_kernel (set_k_tasks (Ipc.wake (u_receiver k) (k_tasks (n_kernel s))) (n_kernel s)) s)).
Proof.
  intros Hd Hi Hk Hls Hok Hq. unfold udp_on_data. rewrite (proj2 (Z.ltb_ge _ _)) by (unfold sizeof_udp_header; lia).
  destruct (udp_fields sp dp (sizeof_udp_header + Z.of_nat (length payload)) sum (payload ++ pad) Hd) as [-> ->].
  rewrite (bind_of_ok _ _ _ _ _ Hi), (bind_of_ok _ _ _ _ _ (sock_ok s i k Hk)), Hls. cbn [negb].
  replace (sizeof_udp_header + Z.of_nat (length payload) - sizeof_udp_header) with (Z.of_nat (length payload)) by lia.
  rewrite Hq, (bind_of_ok _ _ s (r, q) s) by done. cbn beta iota.
  rewrite (bind_of_ok _ _ _ _ _ (upd_sock_ok s i k (set_u_packets q) Hk)).
  unfold Ipc.wake, truthy, when, arrived. destruct (Z.eqb_spec (u_receiver k) 0) as [E|E]; cbn [negb].
  - destruct s as [[]], k. cbn in *. by rewrite E.
  - destruct Hok as [?|Ht]; [done|]. unfold zoom at 1. 
    erewrite bind_of_ok.
    2: { unfold zoom. cbn [n_kernel with_sock set_s_sockets]. by rewrite (Sched.task_set_ready_ok _ _ Ht). }
    erewrite upd_sock_ok by (apply (with_sock_lookup s i k); exact Hk). do 2 f_equal.
    unfold with_sock. cbn. by rewrite list_insert_insert_eq.
Qed.

Lemma udp_receive_ok s id i k l max : get_socket id s = Ok (Some i, s) → s_sockets s !! i = Some k →
  queue_rep (u_packets k) l → 0 ≤ max →
  ∃ s', udp_receive id max s =
    Ok (match l with [] => (0, []) | p :: _ => (1, take (Z.to_nat max) (payload_of p)) end, s').
Proof.
  intros Hi Hk Hq Hm. unfold udp_receive. rewrite (bind_of_ok _ _ _ _ _ Hi), (bind_of_ok _ _ _ _ _ (sock_ok s i k Hk)).
  pose proof (queue_read_ok _ l max Hq Hm) as Hr. destruct l as [|p l].
  - rewrite Hr, (bind_of_ok _ _ s (0, [], u_packets k) s) by done. cbn beta iota.
    rewrite (bind_of_ok _ _ _ _ _ (upd_sock_ok s i k _ Hk)). by eexists.
  - destruct Hr as (q' & Hr & _). rewrite Hr, (bind_of_ok _ _ s (1, take (Z.to_nat max) (payload_of p), q') s) by done.
    cbn beta iota. rewrite (bind_of_ok _ _ _ _ _ (upd_sock_ok s i k _ Hk)). by eexists.
Qed.
End transfer.
End Udp.
