(* ===== verification/Tcp.v ===== *)
(** * TCP ([kernel/net/tcp.c], [tcp.h]) *)
From S2P Require Import Prelude Pmm Vmm Heap Kobj RingBuf Bytes Net Routing Link Checksum Inet.
Import Kobj Net Bytes Checksum.

Module Tcp.

Inductive tcp_error :=
| TCP_OK | TCP_PORT_RESERVED | TCP_PORT_USED | TCP_SOCKET_LIMIT_EXCEEDED | TCP_NO_PORT_PROVIDED | TCP_INVALID_ID.

Definition TCP_FIN : Z := 1.
Definition TCP_SYN : Z := 2.
Definition TCP_RST : Z := 4.
Definition TCP_ACK : Z := 16.
Definition sizeof_tcp_header : Z := 20.
Definition BUF_SIZE : Z := 4096.

(** [flags & mask] *)
Definition has (flags mask : Z) : bool := truthy (Z.land flags mask).

(** The packed struct [tcp_header] as [create_header] fills it. *)
Definition create_header (conn : tcp_active_socket) (flags sum : Z) : list Z :=
  le_bytes 2 (htons (a_local_port conn)) ++ le_bytes 2 (htons (a_remote_port conn)) ++
  le_bytes 4 (htonl (a_seq conn)) ++ le_bytes 4 (htonl (a_ack conn)) ++
  [u8 (Z.shiftl 5 4); flags] ++ le_bytes 2 (htons 8192) ++ le_bytes 2 sum ++ le_bytes 2 0.

Definition be_part (ip i : Z) : Z := Z.lor (Z.shiftl (part ip i) 8) (part ip (i + 1)).

Definition tcp_checksum {S : Type} (conn : tcp_active_socket) (segment : list Z) (segment_len : Z) : M S Z :=
  let src := a_local_ip conn in
  let sum := u32 (0 + be_part src 0) in
  let sum := u32 (sum + be_part src 2) in
  let sum := u32 (sum + be_part (a_remote_ip conn) 0) in
  let sum := u32 (sum + be_part (a_remote_ip conn) 2) in
  let sum := u32 (sum + Inet.PROTOCOL_TCP) in
  let sum := u32 (sum + segment_len) in
  b ← bytes_at segment_len segment;
  r ← lift (finish_sum (add_words_be sum b));
  mret (htons r).

(** [buf[head++ % sizeof(buf)] = b] for each byte. *)
Fixpoint ring_push (buf : list Z) (head : Z) (bytes : list Z) : list Z * Z :=
  match bytes with
  | [] => (buf, head)
  | b :: bytes' => ring_push (<[Z.to_nat (head mod BUF_SIZE) := b]> buf) (u32 (head + 1)) bytes'
  end.

(** [n] times [buf[tail++ % sizeof(buf)]]. *)
Fixpoint ring_pull (n : nat) (buf : list Z) (tail : Z) : list Z * Z :=
  match n with
  | O => ([], tail)
  | S n' =>
      let '(bytes, tail') := ring_pull n' buf (u32 (tail + 1)) in
      (nth (Z.to_nat (tail mod BUF_SIZE)) buf 0 :: bytes, tail')
  end.

Section tcp.
Context {A : Type}.
Notation N := (M (net_state A)).
Context (junk : list Z).

Definition conn (i : nat) : N tcp_active_socket := o ← gets (λ s, g_active_sockets s !! i); of_option o.
Definition upd_conn (i : nat) (f : tcp_active_socket → tcp_active_socket) : N unit :=
  modify (λ s, set_g_active_sockets (alter f i (g_active_sockets s)) s).

Definition conn_matches (local_addr remote_addr local_port remote_port : Z) (c : tcp_active_socket) : bool :=
  a_claimed c && (a_local_ip c =? local_addr) && (a_remote_ip c =? remote_addr) &&
  (a_local_port c =? local_port) && (a_remote_port c =? remote_port).

Definition resolve_conn (local_addr remote_addr local_port remote_port : Z) : N (option nat) :=
  gets (λ s, first (conn_matches local_addr remote_addr local_port remote_port) (g_active_sockets s)).
Definition resolve_passive (local_port : Z) : N (option nat) :=
  gets (λ s, first (λ p, truthy (v_id p) && (v_local_port p =? local_port)) (g_passive_sockets s)).
Definition get_conn (conn_id : Z) : N (option nat) :=
  gets (λ s, first (λ c, a_id c =? conn_id) (g_active_sockets s)).
Definition get_passive (id : Z) : N (option nat) :=
  gets (λ s, first (λ p, v_id p =? id) (g_passive_sockets s)).

Definition create_active (id local_addr remote_addr local_port remote_port : Z) : N (option nat) :=
  o ← gets (λ s, first (λ c, negb (a_claimed c)) (g_active_sockets s));
  match o with
  | None => mret None
  | Some i =>
      isn ← rand32;
      upd_conn i (λ _, mkActive id true TCP_CLOSED local_addr remote_addr local_port remote_port isn 0 isn
        (replicate (Z.to_nat BUF_SIZE) 0) 0 0 (replicate (Z.to_nat BUF_SIZE) 0) 0 0) ;;
      mret (Some i)
  end.

Definition create_passive (id local_port : Z) : N (option nat) :=
  o ← gets (λ s, first (λ p, v_id p =? 0) (g_passive_sockets s));
  match o with
  | None => mret None
  | Some i =>
      modify (λ s, set_g_passive_sockets (alter (λ p,
        mkPassive id local_port (RingBuf.mkRing (RingBuf.items (v_backlog p)) 0 0)) i (g_passive_sockets s)) s) ;;
      mret (Some i)
  end.

(** Four functions have an empty body but a result: using it is undefined. *)
Definition tcp_socket (id : Z) : N Z := fault.
Definition tcp_bind (id : Z) (addr : socket_addr) : N Z := fault.
Definition tcp_listen (id : Z) : N Z := fault.
Definition tcp_connect (id : Z) (remote : socket_addr) : N Z := fault.

Definition send_header (i : nat) (flags : Z) : N unit :=
  c ← conn i;
  when (has flags (Z.lor TCP_SYN TCP_FIN)) (upd_conn i (set_a_seq (u32 (a_seq c + 1)))) ;;
  sum ← tcp_checksum c (create_header c flags 0) sizeof_tcp_header;
  Inet.ip_send junk (a_remote_ip c) Inet.PROTOCOL_TCP (create_header c flags sum) sizeof_tcp_header Inet.no_opts.

Definition is_port_used (port : Z) : N bool :=
  gets (λ s, existsb (λ p, truthy (v_id p) && (v_local_port p =? port)) (g_passive_sockets s)
    || existsb (λ c, truthy (a_id c) && (a_local_port c =? port)) (g_active_sockets s)).

Definition get_ephemeral_port : N Z :=
  p ← gets tcp_port;
  let port := if p =? 0 then 49152 else p in
  modify (set_tcp_port (u16 (port + 1))) ;; mret port.

Definition tcp_active (id remote_addr remote_port local_port : Z) : N tcp_error :=
  if remote_port =? 0 then mret TCP_NO_PORT_PROVIDED
  else
    o ← (if local_port =? 0 then p ← get_ephemeral_port; mret (Some p)
         else used ← is_port_used local_port; mret (if (used : bool) then None else Some local_port));
    match o with
    | None => mret TCP_PORT_USED
    | Some local_port =>
        o ← create_active id 0 remote_addr local_port remote_port;
        match o with
        | None => mret TCP_SOCKET_LIMIT_EXCEEDED
        | Some i =>
            upd_conn i (set_a_state TCP_SYN_SENT) ;;
            send_header i TCP_SYN ;;
            mret TCP_OK
        end
    end.

Definition tcp_passive (id port : Z) : N tcp_error :=
  if port =? 0 then mret TCP_NO_PORT_PROVIDED
  else
    used ← is_port_used port;
    if (used : bool) then mret TCP_PORT_USED
    else
      o ← create_passive id port;
      match o with
      | None => mret TCP_SOCKET_LIMIT_EXCEEDED
      | Some _ => mret TCP_OK
      end.

Definition passive (i : nat) : N tcp_passive_socket := o ← gets (λ s, g_passive_sockets s !! i); of_option o.
Definition set_backlog (i : nat) (q : RingBuf.ring_buf Z) : N unit :=
  modify (λ s, set_g_passive_sockets (alter (set_v_backlog q) i (g_passive_sockets s)) s).

Definition tcp_accept (new_id id : Z) : N bool :=
  o ← get_passive id;
  match o with
  | None => mret false
  | Some l =>
      p ← passive l;
      o ← lift (RingBuf.rb_read TCP_BACKLOG_SIZE (v_backlog p));
      match o with
      | None => mret false
      | Some (conn_id, q) =>
          set_backlog l q ;;
          if conn_id =? 0 then mret false
          else
            o ← get_conn conn_id;
            match o with
            | None => mret false
            | Some i => upd_conn i (set_a_id new_id) ;; mret true
            end
      end
  end.

Definition tcp_terminate_connection (conn_id : Z) : N Z :=
  o ← get_conn conn_id;
  match o with
  | None => mret 0
  | Some i =>
      upd_conn i (set_a_state TCP_FIN_WAIT_1) ;;
      send_header i TCP_FIN ;;
      mret 1
  end.

(** One connection of [tcp_send_buffered_data].  More than 65535 bytes to send
    keep the [ushort] counter of the copy loop below its bound for ever. *)
Definition send_buffered (i : Z) : N unit :=
  c ← conn (Z.to_nat i);
  when (bool_decide (a_state c = TCP_ESTABLISHED))
    (let payload_len := u32 (a_send_head c - a_send_tail c) in
     if payload_len =? 0 then mret tt
     else if 65535 <? payload_len then no_fuel
     else
       let data_len := u32 (payload_len + sizeof_tcp_header) in
       let '(bytes, tail) := ring_pull (Z.to_nat payload_len) (a_send_buf c) (a_send_tail c) in
       upd_conn (Z.to_nat i) (set_a_send_tail tail) ;;
       sum ← tcp_checksum c (create_header c TCP_ACK 0 ++ bytes) (u16 data_len);
       Inet.ip_send junk (a_remote_ip c) Inet.PROTOCOL_TCP (create_header c TCP_ACK sum ++ bytes) (u16 data_len)
         Inet.no_opts ;;
       upd_conn (Z.to_nat i) (set_a_seq (u32 (a_seq c + payload_len)))).

Definition tcp_send_buffered_data : N unit := for_range (Z.to_nat TCP_MAX_CONNECTIONS) 0 send_buffered.

Definition tcp_send (conn_id : Z) (data : list Z) (data_len : Z) : N Z :=
  if data_len =? 0 then mret 0
  else
    o ← get_conn conn_id;
    match o with
    | None => mret 0
    | Some i =>
        b ← bytes_at data_len data;
        upd_conn i (λ c, let '(buf, head) := ring_push (a_send_buf c) (a_send_head c) b in
          set_a_send_head head (set_a_send_buf buf c)) ;;
        tcp_send_buffered_data ;;
        mret 1
    end.

(** The return value and the bytes copied to the caller. *)
Definition tcp_receive (conn_id data_len : Z) : N (Z * list Z) :=
  o ← get_conn conn_id;
  match o with
  | None => mret (0, [])
  | Some i =>
      c ← conn i;
      let avail_len := u32 (a_recv_head c - a_recv_tail c) in
      let len := if data_len <? avail_len then data_len else avail_len in
      let '(bytes, tail) := ring_pull (Z.to_nat len) (a_recv_buf c) (a_recv_tail c) in
      upd_conn i (set_a_recv_tail tail) ;;
      mret (len, bytes)
  end.

Definition tcp_set_receiver (id t : Z) : N bool := mret false.

Definition release_conn (i : nat) : N unit :=
  upd_conn i (set_a_state TCP_CLOSED) ;; upd_conn i (set_a_claimed false) ;; upd_conn i (set_a_id 0).

(** A segment for no connection: a SYN to a listening port creates one. *)
Definition on_incoming (src_addr dst_port src_port flags seq_num : Z) : N unit :=
  o ← resolve_passive dst_port;
  match o with
  | None => mret tt
  | Some l =>
      p ← passive l;
      if RingBuf.rb_full TCP_BACKLOG_SIZE (v_backlog p) then mret tt
      else if negb (flags =? TCP_SYN) then mret tt
      else
        conn_id ← rand16;
        o ← create_active conn_id 0 src_addr dst_port src_port;
        match o with
        | None => mret tt
        | Some i =>
            upd_conn i (set_a_state TCP_SYN_RECEIVED) ;;
            upd_conn i (set_a_ack (u32 (ntohl seq_num + 1))) ;;
            send_header i (Z.lor TCP_SYN TCP_ACK)
        end
  end.

(** The [switch (conn->state)] of [tcp_on_data]. *)
Definition on_state (i : nat) (dst_port flags : Z) (payload : list Z) (payload_len : Z) : N unit :=
  c ← conn i;
  match a_state c with
  | TCP_CLOSED | TCP_LISTEN => mret tt
  | TCP_SYN_SENT =>
      if Z.land flags (Z.lor TCP_SYN TCP_ACK) =? Z.lor TCP_SYN TCP_ACK then
        upd_conn i (set_a_state TCP_ESTABLISHED) ;;
        send_header i TCP_ACK ;;
        tcp_send_buffered_data
      else send_header i TCP_RST
  | TCP_SYN_RECEIVED =>
      if has flags TCP_ACK then
        o ← resolve_passive dst_port;
        match o with
        | None => mret tt
        | Some l =>
            p ← passive l;
            w ← lift (RingBuf.rb_write TCP_BACKLOG_SIZE (v_backlog p) (a_id c));
            match w with Some q => set_backlog l q | None => mret tt end ;;
            upd_conn i (set_a_state TCP_ESTABLISHED) ;;
            tcp_send_buffered_data
        end
      else send_header i TCP_RST
  | TCP_ESTABLISHED =>
      when (0 <? payload_len)
        (b ← bytes_at payload_len payload;
         upd_conn i (λ c, let '(buf, head) := ring_push (a_recv_buf c) (a_recv_head c) b in
           set_a_recv_head head (set_a_recv_buf buf c)) ;;
         send_header i TCP_ACK) ;;
      when (has flags TCP_FIN)
        (upd_conn i (set_a_state TCP_LAST_ACK) ;;
         send_header i (Z.lor TCP_ACK TCP_FIN))
  | TCP_FIN_WAIT_1 =>
      when (has flags TCP_ACK) (upd_conn i (set_a_state TCP_FIN_WAIT_2)) ;;
      when (has flags TCP_FIN)
        (upd_conn i (set_a_state TCP_TIME_WAIT) ;; send_header i TCP_ACK)
  | TCP_FIN_WAIT_2 =>
      when (has flags TCP_FIN)
        (upd_conn i (set_a_state TCP_TIME_WAIT) ;; send_header i TCP_ACK)
  | TCP_CLOSE_WAIT | TCP_CLOSING | TCP_TIME_WAIT | TCP_LAST_ACK =>
      when (has flags TCP_ACK) (release_conn i)
  end.

(** Sequence number, acknowledgement and send window of a segment for a
    connection; [false] when its sequence number is not the expected one. *)
Definition on_sequence (i : nat) (flags seq_num ack_num payload_len : Z) : N bool :=
  c ← conn i;
  let syn_sent := bool_decide (a_state c = TCP_SYN_SENT) in
  when syn_sent (upd_conn i (set_a_ack (ntohl seq_num))) ;;
  if negb syn_sent && negb (ntohl seq_num =? a_ack c) then mret false
  else
    when (has flags (Z.lor TCP_SYN TCP_FIN)) (upd_conn i (λ c, set_a_ack (u32 (a_ack c + 1)) c)) ;;
    upd_conn i (λ c, set_a_ack (u32 (a_ack c + payload_len)) c) ;;
    let acked_offset := u32 (ntohl ack_num - a_initial_seq c - 1) in
    when (a_send_tail c <? acked_offset) (upd_conn i (set_a_send_tail acked_offset)) ;;
    mret true.

Definition tcp_on_data (src_addr : Z) (data : list Z) (data_len : Z) : N unit :=
  if data_len <? sizeof_tcp_header then mret tt
  else
    let flags := byte data 13 in
    let seq_num := le32 data 4 in
    let ack_num := le32 data 8 in
    let header_len := u16 (Z.shiftr (byte data 12) 4 * 4) in
    let payload_len := u16 (data_len - header_len) in
    let payload := drop (Z.to_nat header_len) data in
    let dst_port := ntohs (le16 data 2) in
    let src_port := ntohs (le16 data 0) in
    o ← resolve_conn 0 src_addr dst_port src_port;
    match o with
    | None => on_incoming src_addr dst_port src_port flags seq_num
    | Some i =>
        if has flags TCP_RST then release_conn i
        else
          ok ← on_sequence i flags seq_num ack_num payload_len;
          if (ok : bool) then on_state i dst_port flags payload payload_len else mret tt
    end.
End tcp.

(** ** The checksum *)

(** The pseudo header of RFC 793: addresses, protocol and segment length. *)
Definition pseudo_header (src dst len : Z) : list Z :=
  le_bytes 4 src ++ le_bytes 4 dst ++ [0; Inet.PROTOCOL_TCP] ++ le_bytes 2 (htons len).

Lemma be_part_range ip i : 0 ≤ be_part ip i < 65536.
Proof.
  unfold be_part. pose proof (u8_range (Z.shiftr ip (8 * i))). pose proof (u8_range (Z.shiftr ip (8 * (i + 1)))).
  change (2 ^ 8) with 256 in *. unfold part. rewrite lor_shl8 by done. lia.
Qed.

Lemma le_bytes_4 v : 0 ≤ v → le_bytes 4 v = [part v 0; part v 1; part v 2; part v 3].
Proof. intros Hv. cbn [le_bytes]. rewrite !Z.shiftr_shiftr by lia. reflexivity. Qed.

Lemma be_words_cons2 x y b : 0 ≤ y < 256 → be_sum (x :: y :: b) = Z.lor (Z.shiftl x 8) y + be_sum b.
Proof. intros Hy. unfold be_sum. cbn [be_words foldr]. by rewrite lor_shl8. Qed.

Lemma be_sum_pseudo src dst len b : 0 ≤ src → 0 ≤ dst → 0 ≤ len < 2 ^ 16 →
  be_sum (pseudo_header src dst len ++ b) =
  be_part src 0 + be_part src 2 + be_part dst 0 + be_part dst 2 + Inet.PROTOCOL_TCP + len + be_sum b.
Proof.
  intros Hs Hd Hl. unfold pseudo_header. rewrite !le_bytes_4 by done. cbn [app le_bytes].
  pose proof (htons_spec len Hl) as Hh. change (2 ^ 16) with 65536 in *.
  rewrite !be_words_cons2 by (apply u8_range || done). unfold be_part.
  change (Z.lor (Z.shiftl 0 8) Inet.PROTOCOL_TCP) with Inet.PROTOCOL_TCP.
  replace (Z.lor (Z.shiftl (u8 (htons len)) 8) (u8 (Z.shiftr (htons len) 8))) with len.
  { change (0 + 1) with 1. change (2 + 1) with 3. lia. }
  rewrite lor_shl8 by apply u8_range. unfold u8. rewrite Z.shiftr_div_pow2 by lia. change (2 ^ 8) with 256. rewrite Hh. dlia.
Qed.

Lemma pseudo_bytes src dst len : Forall is_byte (pseudo_header src dst len).
Proof.
  unfold pseudo_header. repeat (apply Forall_app; split); try apply Inet.le_bytes_is_byte.
  repeat constructor; unfold is_byte, Inet.PROTOCOL_TCP; lia.
Qed.

Lemma tcp_checksum_ok {S} c seg pad (s : S) :
  0 ≤ a_local_ip c → 0 ≤ a_remote_ip c → Forall is_byte seg → Z.of_nat (length seg) < 2 ^ 16 →
  tcp_checksum c (seg ++ pad) (Z.of_nat (length seg)) s =
  Ok (htons (rfc1071 (pseudo_header (a_local_ip c) (a_remote_ip c) (Z.of_nat (length seg)) ++ seg)), s).
Proof.
  intros Hl Hr Hb Hn. unfold tcp_checksum.
  pose proof (be_part_range (a_local_ip c) 0). pose proof (be_part_range (a_local_ip c) 2).
  pose proof (be_part_range (a_remote_ip c) 0). pose proof (be_part_range (a_remote_ip c) 2).
  destruct (sum_bound seg Hb ltac:(lia)) as [_ Hbs]. destruct (sums_spec seg Hb) as (_ & [Hs0 _] & _).
  rewrite (bind_of_ok _ _ _ _ _ (bytes_at_app seg pad s)).
  unfold Inet.PROTOCOL_TCP. cbv zeta. unwrap32. rewrite add_words_be_ok by (done || lia).
  rewrite rfc1071_norm by (apply Forall_app; split; [apply pseudo_bytes|done]).
  rewrite be_sum_pseudo by lia. unfold Inet.PROTOCOL_TCP.
  set (n := 0 + be_part _ 0 + _ + _ + _ + 6 + _ + be_sum seg). assert (0 ≤ n < 2 ^ 32) as Hn' by (unfold n; lia).
  unfold lift. rewrite finish_sum_ok by done. unfold mbind, M_bind, mret, M_ret. by do 4 f_equal.
Qed.
End Tcp.
