(* ===== verification/Socket.v ===== *)
(** * Sockets and the receive path ([kernel/net/socket.c], [ip_receive] of
    [ip.c], [ethernet_receive] of [ethernet.c], [loopback_poll] of
    [drivers/loopback.c], [dns.c]) *)
From S2P Require Import Prelude Pmm Vmm Heap Kobj Sched RingBuf Ipc Bytes Net Routing Link Checksum Inet Udp Tcp.
Import Kobj Net Bytes.

Module Socket.

(** The answer of a name server is not read: a query is built and sent. *)
Definition dns_header : list Z :=
  le_bytes 2 (htons 0x1337) ++ le_bytes 2 (htons 0x0100) ++ le_bytes 2 (htons 1) ++
  le_bytes 2 0 ++ le_bytes 2 0 ++ le_bytes 2 0.

(** [qname_buf[i] = v]; outside the array it is a [Fault]. *)
Definition put_byte (buf : list Z) (i v : Z) : option (list Z) :=
  if (0 <=? i) && (i <? Z.of_nat (length buf)) then Some (<[Z.to_nat i := u8 v]> buf) else None.

(** The loop over the host name: [qnl] is the place of the current label's length. *)
Fixpoint qname_loop (host : list Z) (buf : list Z) (qnl qni : Z) : option (list Z * Z * Z) :=
  match host with
  | [] => Some (buf, qnl, qni)
  | c :: host' =>
      if c =? 46 then
        buf ← put_byte buf qnl (qni - qnl - 1);
        qname_loop host' buf qni (qni + 1)
      else
        buf ← put_byte buf qni c;
        qname_loop host' buf qnl (qni + 1)
  end.

(** The bytes of the name in the query; [uninit] is the array before the loop. *)
Definition dns_qname (uninit : list Z) (host : list Z) : option (list Z) :=
  '(buf, qnl, qni) ← qname_loop host uninit 0 1;
  buf ← put_byte buf qnl (qni - qnl - 1);
  buf ← put_byte buf qni 0;
  Some (take (Z.to_nat (qni + 1)) buf).

Section socket.
Context {A : Type}.
Notation N := (M (net_state A)).
Context (junk : list Z).

Definition generate_socket_id : N Z :=
  id ← gets g_next_socket_id;
  modify (set_g_next_socket_id (u16 (id + 1))) ;; mret id.

Definition socket_init : N unit :=
  modify (λ s, set_g_raw_sockets (const zero_raw <$> g_raw_sockets s) s) ;; Udp.udp_init.

Definition udp_err (e : Udp.udp_error) : Z :=
  match e with
  | Udp.UDP_OK => 0
  | Udp.UDP_PORT_RESERVED => 1
  | Udp.UDP_PORT_USED => 2
  | Udp.UDP_SOCKET_LIMIT_EXCEEDED => 3
  | Udp.UDP_SOCKET_NOT_FOUND => 4
  end.

Definition err_of (m : N Udp.udp_error) : N Z := e ← m; mret (udp_err e).

Definition socket (protocol : socket_protocol) : N socket_handle :=
  id ← generate_socket_id;
  err ← match protocol with
        | SOCKET_RAW | SOCKET_ICMP => mret 0
        | SOCKET_TCP => Tcp.tcp_socket id
        | SOCKET_UDP => err_of (Udp.udp_create_socket id)
        end;
  if truthy err then mret (mkHandle SOCKET_RAW 0) else mret (mkHandle protocol id).

Definition socket_bind (h : socket_handle) (local : socket_addr) : N Z :=
  match h_protocol h with
  | SOCKET_RAW | SOCKET_ICMP => mret 0
  | SOCKET_TCP => Tcp.tcp_bind (h_id h) local
  | SOCKET_UDP => err_of (Udp.udp_bind_socket (h_id h) local)
  end.

Definition socket_bind_nic (h : socket_handle) (nic_id : Z) : N Z :=
  match h_protocol h with
  | SOCKET_UDP => err_of (Udp.udp_bind_nic (h_id h) nic_id)
  | _ => panic "Not implemented"
  end.

Definition socket_listen (h : socket_handle) : N Z :=
  match h_protocol h with
  | SOCKET_RAW | SOCKET_ICMP => mret 0
  | SOCKET_TCP => Tcp.tcp_listen (h_id h)
  | SOCKET_UDP => err_of (Udp.udp_listen_socket (h_id h))
  end.

Definition socket_connect (h : socket_handle) (remote : socket_addr) : N Z :=
  match h_protocol h with
  | SOCKET_RAW | SOCKET_ICMP => mret 0
  | SOCKET_TCP => Tcp.tcp_connect (h_id h) remote
  | SOCKET_UDP => err_of (Udp.udp_connect (h_id h) remote)
  end.

(** [socket_accept] up to its return or to [schedule()]; [accept_try] is one
    round of its loop. *)
Definition accept_try (new_id id : Z) : N (option socket_handle) :=
  ok ← Tcp.tcp_accept new_id id;
  mret (if (ok : bool) then Some (mkHandle SOCKET_TCP new_id) else None).

Definition socket_accept (h : socket_handle) : N (Z * option socket_handle) :=
  if decide (h_protocol h = SOCKET_TCP) then
    new_id ← generate_socket_id;
    r ← accept_try new_id (h_id h);
    mret (new_id, r)
  else panic "INVALID USE".

Definition socket_close (h : socket_handle) : N unit :=
  match h_protocol h with
  | SOCKET_RAW | SOCKET_ICMP => panic "not implemented!"
  | SOCKET_TCP => Tcp.tcp_terminate_connection junk (h_id h) ;; mret tt
  | SOCKET_UDP => Udp.udp_close_socket (h_id h)
  end.

Definition socket_on_data (data : list Z) (data_len : Z) : N unit :=
  if data_len <? Inet.sizeof_ipv4_header then mret tt
  else
    let ip_total := ntohs (le16 data 2) in
    if (ip_total <? Inet.sizeof_ipv4_header) || (data_len <? ip_total) then mret tt
    else
      let payload := drop 20 data in
      let payload_len := ip_total - Inet.sizeof_ipv4_header in
      let protocol := byte data 9 in
      if protocol =? Inet.PROTOCOL_TCP then Tcp.tcp_on_data junk (le32 data 12) payload payload_len
      else if protocol =? Inet.PROTOCOL_UDP then Udp.udp_on_data payload payload_len
      else mret tt.

Definition socket_recv (h : socket_handle) (len : Z) : N (Z * list Z) :=
  match h_protocol h with
  | SOCKET_TCP => Tcp.tcp_receive (h_id h) len
  | SOCKET_UDP => Udp.udp_receive (h_id h) len
  | _ => panic "Not implemented"
  end.

Definition socket_send (h : socket_handle) (buf : list Z) (len : Z) : N Z :=
  match h_protocol h with
  | SOCKET_TCP => Tcp.tcp_send junk (h_id h) buf len ;; mret 1
  | SOCKET_UDP => Udp.udp_send junk (h_id h) buf len ;; mret 1
  | _ => panic "Not implemented"
  end.

Definition socket_set_receiver (h : socket_handle) (t : Z) : N bool :=
  match h_protocol h with
  | SOCKET_TCP => Tcp.tcp_set_receiver (h_id h) t
  | SOCKET_UDP => Udp.udp_set_receiver (h_id h) t
  | _ => panic "Not implemented"
  end.

(** ** Receiving *)

Definition ip_receive (data : list Z) (data_len : Z) : N unit :=
  if data_len <? Inet.sizeof_ipv4_header then mret tt else socket_on_data data data_len.

Definition ethernet_receive (data : list Z) (len : Z) (n : nic) : N unit :=
  if len <? Link.sizeof_ethernet_frame then mret tt
  else
    let ethertype := ntohs (le16 data 12) in
    let payload := drop 14 data in
    let plen := u16 (len - Link.sizeof_ethernet_frame) in
    if ethertype =? Link.ETHERTYPE_ARP then Link.arp_receive payload plen n
    else if ethertype =? Link.ETHERTYPE_IPV4 then ip_receive payload plen
    else mret tt.

Definition loopback_poll : N unit :=
  o ← (λ s, Checksum.lift (RingBuf.rb_read BUFFER_LEN (s_buffer s)) s);
  match o with
  | None => mret tt
  | Some (out, q) => modify (set_s_buffer q) ;; ip_receive (l_data out) (l_len out)
  end.

(** ** Names *)

Definition dns_set_server_ip (ip : Z) : N unit := modify (set_g_dns_server_addr ip).

Definition dns_resolve (uninit host : list Z) : N unit :=
  qname ← of_option (dns_qname uninit host);
  let payload := dns_header ++ qname ++ le_bytes 2 (htons 1) ++ le_bytes 2 (htons 1) in
  let total_size := u16 (12 + Z.of_nat (length qname) + 4) in
  sh ← socket SOCKET_UDP;
  server ← gets g_dns_server_addr;
  socket_connect sh (mkAddr SOCKET_UDP server 53) ;;
  socket_send sh payload total_size ;;
  socket_close sh.
End socket.

(** ** The receive path *)

Section receive.
Context {A : Type}.
Context (junk : list Z).
Implicit Types (s : net_state A).

(** A frame with an IPv4 datagram and any padding after it. *)
Lemma ethernet_receive_ip s n mac src d :
  length mac = 6%nat → length src = 6%nat → Z.of_nat (length d) < 2 ^ 16 - 14 →
  ethernet_receive junk (Link.ethernet_header mac src Link.ETHERTYPE_IPV4 ++ d) (14 + Z.of_nat (length d)) n s
  = ip_receive junk d (Z.of_nat (length d)) s.
Proof.
  intros H1 H2 Hl. unfold ethernet_receive, Link.sizeof_ethernet_frame.
  rewrite (proj2 (Z.ltb_ge _ _)) by lia. unfold Link.ethernet_header.
  rewrite (le16_at _ 12 (htons Link.ETHERTYPE_IPV4) (mac ++ src) d);
    [|by rewrite <- !app_assoc|by rewrite length_app, H1, H2|apply htons_range].
  rewrite ntohs_htons by done. cbn [Z.eqb Pos.eqb Link.ETHERTYPE_IPV4 Link.ETHERTYPE_ARP].
  rewrite u16_small by lia. f_equal; [|lia].
  replace 14%nat with (length (mac ++ src ++ le_bytes 2 (htons Link.ETHERTYPE_IPV4)))
    by (rewrite !length_app, H1, H2, le_bytes_length; done).
  apply drop_app_length.
Qed.

Lemma ip_receive_datagram s id protocol src dst payload pad :
  0 ≤ src < 2 ^ 32 → 0 ≤ dst < 2 ^ 32 → Inet.sizeof_ipv4_header + Z.of_nat (length payload) < 2 ^ 16 →
  let d := Inet.datagram id protocol src dst payload ++ pad in
  ip_receive junk d (Z.of_nat (length d)) s =
  if protocol =? Inet.PROTOCOL_TCP then Tcp.tcp_on_data junk src (payload ++ pad) (Z.of_nat (length payload)) s
  else if protocol =? Inet.PROTOCOL_UDP then Udp.udp_on_data (payload ++ pad) (Z.of_nat (length payload)) s
  else Ok (tt, s).
Proof.
  intros Hs Hd Hl d. pose proof (Inet.datagram_length id protocol src dst payload) as Hlen.
  destruct (Inet.datagram_fields id protocol src dst payload pad d eq_refl Hs Hd Hl) as (E1 & E2 & E3 & _ & E5).
  assert (Inet.sizeof_ipv4_header + Z.of_nat (length payload) ≤ Z.of_nat (length d)) by (unfold d; rewrite length_app; lia).
  unfold ip_receive, socket_on_data. rewrite E1, E2, E3, E5. unfold Inet.sizeof_ipv4_header in *.
  rewrite !(proj2 (Z.ltb_ge _ _)) by lia. cbn [orb].
  replace (20 + Z.of_nat (length payload) - 20) with (Z.of_nat (length payload)) by lia. by repeat case_match.
Qed.
End receive.

Section udp.
Context {A : Type}.
Context (junkA junkB : list Z).
Implicit Types (sA sB : net_state A).

(** C35: A UDP payload sent on one machine is received on another: the one frame
    [udp_send] puts on the wire, handed (with any padding) to the other
    machine's [ethernet_receive], appends exactly that payload to the queue of
    the listening socket bound to the destination port, wakes the task that
    waits for it and changes nothing else; [udp_receive] then returns the oldest
    payload of the queue, which is this one if the queue was empty. *)
Theorem udp_delivers sA sB id i kA n mac payload j kB l pad nB :
  Udp.get_socket id sA = Ok (Some i, sA) → s_sockets sA !! i = Some kA →
  Inet.reaches sA (u_remote_addr kA) (mkOpts (u_local_addr kA) (u_nic_id kA)) n mac →
  length mac = 6%nat → length (g_mac sA) = 6%nat → 0 ≤ n_addr n < 2 ^ 32 → 0 ≤ u_remote_addr kA < 2 ^ 32 →
  0 ≤ u_remote_port kA < 2 ^ 16 →
  Udp.get_socket_for_port (u_remote_port kA) sB = Ok (Some j, sB) → s_sockets sB !! j = Some kB →
  u_is_listening kB = true → Ipc.ok_listener (n_kernel sB) (u_receiver kB) →
  Udp.queue_rep (u_packets kB) l → Z.of_nat (length l) < SOCKET_QUEUE_SIZE - 1 →
  Udp.get_socket (u_id kB) sB = Ok (Some j, sB) →
  Z.of_nat (length payload) ≤ IP_MAX_PACKET_SIZE → Z.of_nat (length pad) ≤ 64 →
  ∃ frame sA', Udp.udp_send junkA id payload (Z.of_nat (length payload)) sA = Ok (Z.of_nat (length payload), sA') ∧
    n_wire sA' = n_wire sA ++ [frame] ∧
    ∃ p q, Udp.payload_of p = payload ∧ Udp.queue_rep q (l ++ [p]) ∧
      let sB' := Udp.with_sock j (Udp.arrived q kB)
        (set_n_kernel (set_k_tasks (Ipc.wake (u_receiver kB) (k_tasks (n_kernel sB))) (n_kernel sB)) sB) in
      ethernet_receive junkB (frame ++ pad) (Z.of_nat (length (frame ++ pad))) nB sB = Ok (tt, sB') ∧
      ∀ max, 0 ≤ max → ∃ sB'', Udp.udp_receive (u_id kB) max sB' =
        Ok ((1, take (Z.to_nat max) (hd payload (Udp.payload_of <$> l))), sB'').
Proof.
  intros Hi Hk Hr Hm HmA Ha Hra Hrp Hj Hkb Hls Hok Hq Hroom Hid Hlen Hpad. unfold IP_MAX_PACKET_SIZE in Hlen.
  pose proof (Udp.udp_send_ok junkA sA id i kA payload n mac Hi Hk Hr ltac:(lia)) as Hsend.
  set (seg := Udp.segment (u_local_port kA) (u_remote_port kA) payload) in *.
  set (d := Inet.datagram (ip_id sA) Inet.PROTOCOL_UDP (n_addr n) (u_remote_addr kA) seg).
  exists (Link.ethernet_header mac (g_mac sA) Link.ETHERTYPE_IPV4 ++ d). eexists. split; [exact Hsend|]. split; [done|].
  pose proof (Udp.queue_write_ok (u_packets kB) l (payload ++ pad) payload pad Hq eq_refl ltac:(unfold IP_MAX_PACKET_SIZE; lia)) as Hw.
  rewrite (proj2 (Z.ltb_lt _ _)) in Hw by done. destruct Hw as (p & q & Hw & Hp & Hq').
  exists p, q. split; [done|]. split; [done|]. intros sB'. split.
  2: { intros max Hmax. destruct (Udp.udp_receive_ok sB' (u_id kB) j (Udp.arrived q kB) (l ++ [p]) max) as (s'' & H'').
       - unfold Udp.get_socket, gets in *. injection Hid as Hid. cbn.
         rewrite (first_insert_same _ _ _ _ kB Hkb) by done. by rewrite Hid.
       - by apply (Udp.with_sock_lookup _ j kB).
       - done.
       - done.
       - exists s''. destruct l as [|p0 l]; cbn in *; [by rewrite <- Hp|done]. }
  pose proof (Udp.segment_length (u_local_port kA) (u_remote_port kA) payload) as Hseg. fold seg in Hseg.
  pose proof (Inet.datagram_length (ip_id sA) Inet.PROTOCOL_UDP (n_addr n) (u_remote_addr kA) seg) as Hd. fold d in Hd.
  unfold Inet.sizeof_ipv4_header, Udp.sizeof_udp_header in *.
  rewrite <- app_assoc. replace (Z.of_nat (length _)) with (14 + Z.of_nat (length (d ++ pad)))
    by (unfold Link.ethernet_header; rewrite !length_app, Hm, HmA, le_bytes_length; lia).
  rewrite ethernet_receive_ip by (done || (rewrite length_app; lia)).
  unfold d. rewrite ip_receive_datagram by (done || (unfold Inet.sizeof_ipv4_header; lia)).
  cbn [Z.eqb Pos.eqb Inet.PROTOCOL_UDP Inet.PROTOCOL_TCP]. rewrite Hseg. unfold seg, Udp.segment.
  rewrite <- app_assoc. by apply (Udp.udp_on_data_ok sB _ _ _ payload pad j kB q 1).
Qed.
End udp.

(** Two machines on one network: 10.0.2.15 knows the hardware address of 10.0.2.2. *)
Definition demo_nic : nic := mkNic true true 7 (IP 10 0 2 15) (IP 255 255 255 0) 0 0 (Some g_e1000_ops).
Definition demo_mac : list Z := [82; 85; 10; 0; 2; 2].

Definition demo_host (k : udp_socket) : net_state unit :=
  mkNet (idle_kernel ∅) 1 [demo_nic] [mkRoute (IP 10 0 2 0) (IP 255 255 255 0) 0 7 0] [true]
    [mkArp (IP 10 0 2 2) demo_mac] [] (RingBuf.mkRing [] 0 0) [82; 84; 0; 18; 52; 86] [] 0 [k] [] [] 49152 [] 1 0.

Definition demo_client : udp_socket := mkUdp 1 9 5000 (IP 10 0 2 2) 0 7 true 0 zero_queue.
Definition demo_server : udp_socket := mkUdp 4 0 9 0 0 0 true 0 zero_queue.

Lemma udp_delivers_witness :
  ∃ frame sA', Udp.udp_send [] 1 [1; 2; 3] 3 (demo_host demo_client) = Ok (3, sA') ∧
    n_wire sA' = n_wire (demo_host demo_client) ++ [frame] ∧
    ∃ p q, Udp.payload_of p = [1; 2; 3] ∧ Udp.queue_rep q ([] ++ [p]) ∧
      let sB' := Udp.with_sock 0 (Udp.arrived q demo_server)
        (set_n_kernel (set_k_tasks (Ipc.wake 0 ∅) (idle_kernel ∅)) (demo_host demo_server)) in
      ethernet_receive [] (frame ++ []) (Z.of_nat (length (frame ++ []))) demo_nic (demo_host demo_server) = Ok (tt, sB') ∧
      ∀ max, 0 ≤ max → ∃ sB'', Udp.udp_receive 4 max sB' =
        Ok ((1, take (Z.to_nat max) (hd [1; 2; 3] (Udp.payload_of <$> []))), sB'').
Proof.
  apply (udp_delivers [] [] (demo_host demo_client) (demo_host demo_server) 1 0 demo_client demo_nic demo_mac
    [1; 2; 3] 0 demo_server [] [] demo_nic); try reflexivity; try (by split; vm_compute);
    try (unfold IP_MAX_PACKET_SIZE; cbn; lia).
  - exists 0, (mkRoute (IP 10 0 2 0) (IP 255 255 255 0) 0 7 0). by split_and!; vm_compute.
  - by left.
  - apply Udp.zero_queue_rep.
Defined.
End Socket.
