(* ===== verification/Connection.v ===== *)
(** * TCP between two machines

    What the operations of [Tcp] do to a connection, and that a client and a
    server running them on two machines set up a connection and move data over
    it: the frames one machine's driver transmits are handed to the other's
    [ethernet_receive]. *)
From S2P Require Import Prelude Pmm Vmm Heap Kobj Sched RingBuf Ipc Bytes Net Routing Link Checksum Inet Udp Tcp Socket.
Import Kobj Net Bytes Checksum Tcp.

Module Connection.

(** ** Segments *)

Definition tcp_sum (c : tcp_active_socket) (flags : Z) (payload : list Z) : Z :=
  htons (rfc1071 (pseudo_header (a_local_ip c) (a_remote_ip c) (sizeof_tcp_header + Z.of_nat (length payload)) ++
    create_header c flags 0 ++ payload)).

Definition seg (c : tcp_active_socket) (flags : Z) (payload : list Z) : list Z :=
  create_header c flags (tcp_sum c flags payload) ++ payload.

(** Ports, sequence numbers and addresses are in the range of their fields. *)
Record conn_wf (c : tcp_active_socket) : Prop := {
  cw_local_ip : 0 ≤ a_local_ip c < 2 ^ 32;
  cw_remote_ip : 0 ≤ a_remote_ip c < 2 ^ 32;
  cw_local_port : 0 ≤ a_local_port c < 2 ^ 16;
  cw_remote_port : 0 ≤ a_remote_port c < 2 ^ 16;
  cw_seq : 0 ≤ a_seq c < 2 ^ 32;
  cw_ack : 0 ≤ a_ack c < 2 ^ 32
}.

Lemma create_header_length c flags sum : length (create_header c flags sum) = 20%nat.
Proof. done. Qed.

Lemma create_header_bytes c flags sum : 0 ≤ flags < 256 → Forall is_byte (create_header c flags sum).
Proof.
  intros Hf. unfold create_header. repeat (apply Forall_app; split); try apply Inet.le_bytes_is_byte.
  apply Forall_cons. split; [by vm_compute|]. by apply Forall_singleton.
Qed.

Lemma seg_length c flags payload : Z.of_nat (length (seg c flags payload)) = sizeof_tcp_header + Z.of_nat (length payload).
Proof. unfold seg. rewrite length_app, create_header_length. unfold sizeof_tcp_header. lia. Qed.

Lemma create_header_fields c flags sum rest d : conn_wf c → d = create_header c flags sum ++ rest →
  byte d 13 = flags ∧ byte d 12 = 80 ∧ ntohs (le16 d 0) = a_local_port c ∧ ntohs (le16 d 2) = a_remote_port c ∧
  ntohl (le32 d 4) = a_seq c ∧ ntohl (le32 d 8) = a_ack c ∧ drop 20 d = rest.
Proof.
  intros [] ->. split_and!; [done|done|..|done]; unfold create_header; rewrite <- !app_assoc.
  - rewrite le16_at with (a := []) (v := htons (a_local_port c)) (b := drop 2 (create_header c flags sum) ++ rest);
      [by apply ntohs_htons|done|done|apply htons_range].
  - rewrite le16_at with (a := take 2 (create_header c flags sum)) (v := htons (a_remote_port c))
      (b := drop 4 (create_header c flags sum) ++ rest); [by apply ntohs_htons|done|done|apply htons_range].
  - rewrite le32_at with (a := take 4 (create_header c flags sum)) (v := htonl (a_seq c))
      (b := drop 8 (create_header c flags sum) ++ rest); [by apply ntohl_htonl|done|done|apply htonl_range].
  - rewrite le32_at with (a := take 8 (create_header c flags sum)) (v := htonl (a_ack c))
      (b := drop 12 (create_header c flags sum) ++ rest); [by apply ntohl_htonl|done|done|apply htonl_range].
Qed.

Section steps.
Context {A : Type}.
Context (junk : list Z).
Implicit Types (s : net_state A) (c : tcp_active_socket).

(** ** Reaching the peer *)

(** The route to [dst] leads through the interface [n], whose identifier is its
    index, to a known hardware address. *)
Definition uplink s (dst : Z) (n : nic) (mac : list Z) : Prop :=
  ∃ r, Routing.best_loop (λ _, true) dst (Routing.table s) None 0 = Ok (Some r) ∧ 0 < r_nic_id r ∧
    g_nics s !! Z.to_nat (r_nic_id r) = Some n ∧ n_driver n = Some g_e1000_ops ∧
    Inet.next_hop r dst ≠ 0xFFFFFFFF ∧ Link.knows s (Inet.next_hop r dst) = Some mac ∧
    length mac = 6%nat ∧ length (g_mac s) = 6%nat ∧ 0 ≤ n_addr n < 2 ^ 32 ∧ 0 ≤ dst < 2 ^ 32.

Lemma uplink_reaches s dst n mac : uplink s dst n mac → Inet.reaches s dst Inet.no_opts n mac.
Proof.
  intros (r & Hr & Hp & Hn & Hd & Hh & Hk & _). exists (r_nic_id r), r. split_and!; try (done || lia).
  - unfold Inet.ip_route. cbn [o_nic_id o_src_addr Inet.no_opts truthy negb Z.eqb].
    rewrite (bind_of_ok _ _ s (Some r) s); [done|]. unfold Routing.find_best_route. by rewrite Hr.
  - by rewrite Link.arp_table_lookup_ok, Hk.
Qed.

Lemma ip_send_uplink s dst payload n mac : uplink s dst n mac → Z.of_nat (length payload) < 2 ^ 16 - 34 →
  Inet.ip_send junk dst Inet.PROTOCOL_TCP payload (Z.of_nat (length payload)) Inet.no_opts s
  = Ok (tt, Inet.sent n mac Inet.PROTOCOL_TCP dst payload s).
Proof. intros Hu Hl. apply Inet.ip_send_reaches; [by apply uplink_reaches|done|done]. Qed.

(** The frame [ip_send] transmits. *)
Definition frame s (n : nic) (mac : list Z) (dst : Z) (payload : list Z) : list Z :=
  Link.ethernet_header mac (g_mac s) Link.ETHERTYPE_IPV4 ++
  Inet.datagram (ip_id s) Inet.PROTOCOL_TCP (n_addr n) dst payload.

(** A frame from a machine in state [s'] reaches [tcp_on_data] as its segment. *)
Lemma frame_received s s' n mac dst payload nic : uplink s' dst n mac → Z.of_nat (length payload) ≤ 1480 →
  Socket.ethernet_receive junk (frame s' n mac dst payload) (Z.of_nat (length (frame s' n mac dst payload))) nic s
  = tcp_on_data junk (n_addr n) payload (Z.of_nat (length payload)) s.
Proof.
  intros (r & _ & _ & _ & _ & _ & _ & Hm & Hg & Ha & Hd) Hl. unfold frame.
  set (d := Inet.datagram _ _ _ _ _). pose proof (Inet.datagram_length (ip_id s') Inet.PROTOCOL_TCP (n_addr n) dst payload) as Hlen.
  fold d in Hlen. unfold Inet.sizeof_ipv4_header in Hlen.
  replace (Z.of_nat (length (_ ++ d))) with (14 + Z.of_nat (length d))
    by (unfold Link.ethernet_header; rewrite !length_app, Hm, Hg, le_bytes_length; lia).
  rewrite Socket.ethernet_receive_ip by (done || lia). unfold d. rewrite <- (app_nil_r (Inet.datagram _ _ _ _ _)).
  rewrite Socket.ip_receive_datagram by (done || (unfold Inet.sizeof_ipv4_header; lia)).
  rewrite app_nil_r. done.
Qed.

(** ** Connections *)

Definition with_conn (i : nat) c s : net_state A := set_g_active_sockets (<[i := c]> (g_active_sockets s)) s.

Lemma conn_ok s i c : g_active_sockets s !! i = Some c → conn i s = Ok (c, s).
Proof. intros H. unfold conn, gets, mbind, M_bind. by rewrite H. Qed.

Lemma upd_conn_ok s i c f : g_active_sockets s !! i = Some c → upd_conn i f s = Ok (tt, with_conn i (f c) s).
Proof. intros H. unfold upd_conn, modify, with_conn. by rewrite (alter_at _ _ _ _ H). Qed.

Lemma with_conn_lookup s i c c' : g_active_sockets s !! i = Some c → g_active_sockets (with_conn i c' s) !! i = Some c'.
Proof. intros H. apply list_lookup_insert_eq. by eapply lookup_lt_Some. Qed.

Lemma with_conn_twice s i c c' : with_conn i c' (with_conn i c s) = with_conn i c' s.
Proof. unfold with_conn. cbn. by rewrite list_insert_insert_eq. Qed.

Lemma with_conn_id s i c : g_active_sockets s !! i = Some c → with_conn i c s = s.
Proof. intros H. unfold with_conn. rewrite list_insert_id by done. by destruct s. Qed.

(** SYN and FIN take a sequence number. *)
Definition bump (flags : Z) c : tcp_active_socket :=
  if has flags (Z.lor TCP_SYN TCP_FIN) then set_a_seq (u32 (a_seq c + 1)) c else c.

Lemma send_header_ok s i c flags n mac :
  g_active_sockets s !! i = Some c → uplink s (a_remote_ip c) n mac → conn_wf c → 0 ≤ flags < 256 →
  send_header junk i flags s =
  Ok (tt, Inet.sent n mac Inet.PROTOCOL_TCP (a_remote_ip c) (seg c flags []) (with_conn i (bump flags c) s)).
Proof.
  intros Hi Hu W Hf. unfold send_header. rewrite (bind_of_ok _ _ _ _ _ (conn_ok s i c Hi)).
  rewrite (bind_of_ok _ _ s tt (with_conn i (bump flags c) s)).
  2: { unfold when, bump. destruct (has flags _); [by apply upd_conn_ok|]. by rewrite with_conn_id. }
  set (s1 := with_conn i (bump flags c) s).
  assert (tcp_checksum c (create_header c flags 0) sizeof_tcp_header s1 = Ok (tcp_sum c flags [], s1)) as Hc.
  { unfold tcp_sum. rewrite app_nil_r. rewrite <- (app_nil_r (create_header c flags 0)) at 1.
    change sizeof_tcp_header with (Z.of_nat (length (create_header c flags 0))).
    apply (tcp_checksum_ok c (create_header c flags 0) [] s1); [apply W..|by apply create_header_bytes|done]. }
  rewrite (bind_of_ok _ _ _ _ _ Hc). unfold seg. rewrite app_nil_r.
  change sizeof_tcp_header with (Z.of_nat (length (create_header c flags (tcp_sum c flags [])))).
  apply ip_send_uplink; [exact Hu|done].
Qed.

(** What [tcp_on_data] does with a segment of the connection [c] of the peer. *)
Lemma tcp_on_data_seg s src c flags payload :
  conn_wf c → Z.of_nat (length payload) ≤ 1460 →
  tcp_on_data junk src (seg c flags payload) (Z.of_nat (length (seg c flags payload))) s =
  match first (conn_matches 0 src (a_remote_port c) (a_local_port c)) (g_active_sockets s) with
  | None => on_incoming junk src (a_remote_port c) (a_local_port c) flags (le32 (seg c flags payload) 4) s
  | Some i =>
      (if has flags TCP_RST then release_conn i
       else
         ok ← on_sequence i flags (le32 (seg c flags payload) 4) (le32 (seg c flags payload) 8) (Z.of_nat (length payload));
         if (ok : bool) then on_state junk i (a_remote_port c) flags payload (Z.of_nat (length payload)) else mret tt) s
  end.
Proof.
  intros W Hl. pose proof (seg_length c flags payload) as Hs. unfold sizeof_tcp_header in Hs.
  destruct (create_header_fields c flags (tcp_sum c flags payload) payload (seg c flags payload) W eq_refl)
    as (E1 & E2 & E3 & E4 & _ & _ & E7).
  unfold tcp_on_data. rewrite E1, E2, E3, E4. change (u16 (Z.shiftr 80 4 * 4)) with 20.
  change (Z.to_nat 20) with 20%nat. rewrite E7, Hs. unfold sizeof_tcp_header. rewrite (proj2 (Z.ltb_ge _ _)) by lia.
  replace (20 + Z.of_nat (length payload) - 20) with (Z.of_nat (length payload)) by lia. rewrite u16_small by lia.
  unfold resolve_conn, gets. erewrite bind_of_ok by done. by destruct (first _ _).
Qed.

Lemma seg_numbers c flags payload : conn_wf c →
  ntohl (le32 (seg c flags payload) 4) = a_seq c ∧ ntohl (le32 (seg c flags payload) 8) = a_ack c.
Proof.
  intros W. destruct (create_header_fields c flags (tcp_sum c flags payload) payload (seg c flags payload) W eq_refl)
    as (_ & _ & _ & _ & E5 & E6 & _). done.
Qed.

(** ** Buffered data *)

(** A connection with nothing to send. *)
Definition idle c : Prop := a_state c = TCP_ESTABLISHED → a_send_head c = a_send_tail c.

Lemma send_buffered_idle s i c : g_active_sockets s !! Z.to_nat i = Some c → idle c →
  send_buffered junk i s = Ok (tt, s).
Proof.
  intros Hi Hc. unfold send_buffered. rewrite (bind_of_ok _ _ _ _ _ (conn_ok s _ c Hi)). unfold when.
  case_bool_decide as Hs; [|done]. rewrite (Hc Hs), Z.sub_diag. done.
Qed.

Lemma send_buffered_all_idle s n lo :
  (∀ i, lo ≤ i < lo + Z.of_nat n → ∃ c, g_active_sockets s !! Z.to_nat i = Some c ∧ idle c) →
  for_range n lo (send_buffered junk) s = Ok (tt, s).
Proof.
  revert lo. induction n as [|n IH]; intros lo H; [done|]. cbn [for_range].
  destruct (H lo ltac:(lia)) as (c & Hc & Hi). rewrite (bind_of_ok _ _ _ _ _ (send_buffered_idle s lo c Hc Hi)).
  apply IH. intros i Hi'. apply H. lia.
Qed.

Definition all_idle s : Prop :=
  Z.of_nat (length (g_active_sockets s)) = TCP_MAX_CONNECTIONS ∧ Forall idle (g_active_sockets s).

Lemma tcp_send_buffered_idle s : all_idle s → tcp_send_buffered_data junk s = Ok (tt, s).
Proof.
  intros [Hl Hf]. apply send_buffered_all_idle. intros i Hi. rewrite Z2Nat.id in Hi by done.
  destruct (lookup_lt_is_Some_2 (g_active_sockets s) (Z.to_nat i) ltac:(lia)) as [c Hc]. exists c.
  split; [done|]. exact (Forall_lookup_1 _ _ _ _ Hf Hc).
Qed.

Lemma all_idle_with s i c : all_idle s → idle c → all_idle (with_conn i c s).
Proof. intros [Hl Hf] Hc. split; cbn; [by rewrite length_insert|by apply Forall_insert]. Qed.

(** ** Opening *)

(** A connection as [create_active] leaves it. *)
Definition fresh (id remote_ip local_port remote_port isn : Z) : tcp_active_socket :=
  mkActive id true TCP_CLOSED 0 remote_ip local_port remote_port isn 0 isn
    (replicate (Z.to_nat BUF_SIZE) 0) 0 0 (replicate (Z.to_nat BUF_SIZE) 0) 0 0.

Definition free_slot s (i : nat) : Prop := first (λ c, negb (a_claimed c)) (g_active_sockets s) = Some i.

Lemma free_slot_lookup s i : free_slot s i → ∃ c, g_active_sockets s !! i = Some c.
Proof. intros H. apply first_Some in H as [(c & Hc & _) _]. by exists c. Qed.

Lemma create_active_ok s i id ra lp rp : free_slot s i →
  create_active id 0 ra lp rp s =
  Ok (Some i, with_conn i (fresh id ra lp rp (u32 (xorshift (rng_state s)))) (set_rng_state (xorshift (rng_state s)) s)).
Proof.
  intros Hi. destruct (free_slot_lookup s i Hi) as [c Hc]. unfold create_active.
  rewrite (bind_of_ok _ _ s (Some i) s) by (unfold gets; by rewrite Hi).
  erewrite bind_of_ok by done. erewrite bind_of_ok by (apply (upd_conn_ok _ i c); exact Hc). done.
Qed.

Definition syn_sent (id ra lp rp isn : Z) : tcp_active_socket := set_a_state TCP_SYN_SENT (fresh id ra lp rp isn).

Lemma tcp_active_ok s i id ra rp lp n mac :
  0 < rp < 2 ^ 16 → 0 < lp < 2 ^ 16 → is_port_used lp s = Ok (false, s) → free_slot s i → uplink s ra n mac →
  let x := xorshift (rng_state s) in
  tcp_active junk id ra rp lp s =
  Ok (TCP_OK, Inet.sent n mac Inet.PROTOCOL_TCP ra (seg (syn_sent id ra lp rp (u32 x)) TCP_SYN [])
    (with_conn i (bump TCP_SYN (syn_sent id ra lp rp (u32 x))) (set_rng_state x s))).
Proof.
  intros Hrp Hlp Hused Hi Hu x. destruct (free_slot_lookup s i Hi) as [c Hc]. unfold tcp_active.
  rewrite (proj2 (Z.eqb_neq rp 0)), (proj2 (Z.eqb_neq lp 0)) by lia.
  rewrite (bind_of_ok _ _ s (Some lp) s) by (by rewrite (bind_of_ok _ _ _ _ _ Hused)).
  rewrite (bind_of_ok _ _ _ _ _ (create_active_ok s i id ra lp rp Hi)). fold x.
  set (s1 := set_rng_state x s). assert (g_active_sockets s1 !! i = Some c) as Hc1 by exact Hc.
  rewrite (bind_of_ok _ _ _ _ _ (upd_conn_ok _ i _ (set_a_state TCP_SYN_SENT) (with_conn_lookup s1 i c _ Hc1))).
  rewrite with_conn_twice. fold (syn_sent id ra lp rp (u32 x)).
  assert (conn_wf (syn_sent id ra lp rp (u32 x))) as W.
  { pose proof Hu as (r & _ & _ & _ & _ & _ & _ & _ & _ & _ & Hd). split; cbn; try lia. apply u32_range. }
  rewrite (bind_of_ok _ _ _ _ _ (send_header_ok _ i (syn_sent id ra lp rp (u32 x)) TCP_SYN n mac
    (with_conn_lookup s1 i c _ Hc1) Hu W ltac:(done))).
  by rewrite with_conn_twice.
Qed.

Definition syn_received (id ra lp rp isn ack : Z) : tcp_active_socket :=
  set_a_ack ack (set_a_state TCP_SYN_RECEIVED (fresh id ra lp rp isn)).

(** A listening socket with room in its backlog [bl]. *)
Definition listening s (port : Z) (l : nat) (p : tcp_passive_socket) (bl : list Z) : Prop :=
  first (λ p, truthy (v_id p) && (v_local_port p =? port)) (g_passive_sockets s) = Some l ∧
  g_passive_sockets s !! l = Some p ∧ RingBuf.rb_rep TCP_BACKLOG_SIZE (v_backlog p) bl ∧
  Z.of_nat (length bl) < TCP_BACKLOG_SIZE - 1.

Lemma on_incoming_ok s src dp sp seq_num l p bl j n mac :
  0 ≤ dp < 2 ^ 16 → 0 ≤ sp < 2 ^ 16 → listening s dp l p bl → free_slot s j → uplink s src n mac →
  let x1 := xorshift (rng_state s) in let x2 := xorshift x1 in
  let c := syn_received (u16 x1) src dp sp (u32 x2) (u32 (ntohl seq_num + 1)) in
  on_incoming junk src dp sp TCP_SYN seq_num s =
  Ok (tt, Inet.sent n mac Inet.PROTOCOL_TCP src (seg c (Z.lor TCP_SYN TCP_ACK) [])
    (with_conn j (bump (Z.lor TCP_SYN TCP_ACK) c) (set_rng_state x2 (set_rng_state x1 s)))).
Proof.
  intros Hdp Hsp (Hl & Hp & Hq & Hroom) Hj Hu x1 x2 c. destruct (free_slot_lookup s j Hj) as [c0 Hc0].
  unfold on_incoming. rewrite (bind_of_ok _ _ s (Some l) s) by (unfold resolve_passive, gets; by rewrite Hl).
  rewrite (bind_of_ok _ _ s p s) by (unfold passive, gets, mbind, M_bind; by rewrite Hp).
  destruct (RingBuf.ring_buf_fifo _ _ _ 0 Hq) as (_ & -> & _).
  rewrite (proj2 (Z.eqb_neq _ _)) by (unfold TCP_BACKLOG_SIZE in *; lia). cbn [negb TCP_SYN Z.eqb Pos.eqb].
  rewrite (bind_of_ok _ _ s (u16 x1) (set_rng_state x1 s)) by done. set (s1 := set_rng_state x1 s).
  rewrite (bind_of_ok _ _ _ _ _ (create_active_ok s1 j (u16 x1) src dp sp Hj)).
  change (xorshift (rng_state s1)) with x2. set (s2 := set_rng_state x2 s1).
  assert (g_active_sockets s2 !! j = Some c0) as Hc2 by exact Hc0.
  rewrite (bind_of_ok _ _ _ _ _ (upd_conn_ok _ j _ (set_a_state TCP_SYN_RECEIVED) (with_conn_lookup s2 j c0 _ Hc2))).
  rewrite with_conn_twice.
  rewrite (bind_of_ok _ _ _ _ _ (upd_conn_ok _ j _ (set_a_ack (u32 (ntohl seq_num + 1))) (with_conn_lookup s2 j c0 _ Hc2))).
  rewrite with_conn_twice. change (set_a_ack _ _) with c.
  rewrite (send_header_ok _ j c (Z.lor TCP_SYN TCP_ACK) n mac (with_conn_lookup s2 j c0 _ Hc2) Hu); [|split|done].
  { by rewrite with_conn_twice. }
  all: cbn; try lia; try apply u32_range. by pose proof Hu as (r & _ & _ & _ & _ & _ & _ & _ & _ & _ & Hd).
Qed.

(** ** Sequence numbers *)

Lemma when_upd_conn s i c b f : g_active_sockets s !! i = Some c →
  when b (upd_conn i f) s = Ok (tt, with_conn i (if b then f c else c) s).
Proof. intros H. destruct b; cbn [when]; [by apply upd_conn_ok|]. by rewrite with_conn_id. Qed.

(** The connection after a segment with these numbers was accepted. *)
Definition sequenced (flags seq ack payload_len : Z) c : tcp_active_socket :=
  let a := if bool_decide (a_state c = TCP_SYN_SENT) then seq else a_ack c in
  let a := if has flags (Z.lor TCP_SYN TCP_FIN) then u32 (a + 1) else a in
  let off := u32 (ack - a_initial_seq c - 1) in
  set_a_send_tail (if a_send_tail c <? off then off else a_send_tail c) (set_a_ack (u32 (a + payload_len)) c).

Lemma on_sequence_ok s i c flags seq_num ack_num payload_len :
  g_active_sockets s !! i = Some c → a_state c = TCP_SYN_SENT ∨ ntohl seq_num = a_ack c →
  on_sequence i flags seq_num ack_num payload_len s =
  Ok (true, with_conn i (sequenced flags (ntohl seq_num) (ntohl ack_num) payload_len c) s).
Proof.
  intros Hi Hs. unfold on_sequence. rewrite (bind_of_ok _ _ _ _ _ (conn_ok s i c Hi)).
  rewrite (bind_of_ok _ _ _ _ _ (when_upd_conn s i c _ _ Hi)).
  assert (negb (bool_decide (a_state c = TCP_SYN_SENT)) && negb (ntohl seq_num =? a_ack c) = false) as ->.
  { destruct Hs as [->| ->]; [by rewrite bool_decide_eq_true_2|]. rewrite Z.eqb_refl. apply andb_false_r. }
  rewrite (bind_of_ok _ _ _ _ _ (when_upd_conn _ i _ _ _ (with_conn_lookup s i c _ Hi))), with_conn_twice.
  rewrite (bind_of_ok _ _ _ _ _ (upd_conn_ok _ i _ _ (with_conn_lookup s i c _ Hi))), with_conn_twice.
  rewrite (bind_of_ok _ _ _ _ _ (when_upd_conn _ i _ _ _ (with_conn_lookup s i c _ Hi))), with_conn_twice.
  unfold sequenced. do 3 f_equal. destruct c, (bool_decide _), (has _ _), (_ <? _); done.
Qed.

(** ** Becoming established *)

Definition established c : tcp_active_socket := set_a_state TCP_ESTABLISHED c.

Lemma on_state_syn_sent s i c dp payload plen n mac :
  g_active_sockets s !! i = Some c → a_state c = TCP_SYN_SENT → a_send_head c = a_send_tail c → conn_wf c →
  uplink s (a_remote_ip c) n mac → all_idle s →
  on_state junk i dp (Z.lor TCP_SYN TCP_ACK) payload plen s =
  Ok (tt, Inet.sent n mac Inet.PROTOCOL_TCP (a_remote_ip c) (seg (established c) TCP_ACK [])
    (with_conn i (established c) s)).
Proof.
  intros Hi Hs Ht W Hu Hidle. unfold on_state. rewrite (bind_of_ok _ _ _ _ _ (conn_ok s i c Hi)), Hs.
  change (Z.land (Z.lor TCP_SYN TCP_ACK) (Z.lor TCP_SYN TCP_ACK) =? Z.lor TCP_SYN TCP_ACK) with true. cbn iota.
  rewrite (bind_of_ok _ _ _ _ _ (upd_conn_ok s i c (set_a_state TCP_ESTABLISHED) Hi)).
  assert (conn_wf (established c)) as W' by (destruct W; by split).
  rewrite (bind_of_ok _ _ _ _ _ (send_header_ok (with_conn i (established c) s) i (established c) TCP_ACK n mac
    (with_conn_lookup s i c _ Hi) Hu W' ltac:(done))).
  rewrite with_conn_twice. change (bump TCP_ACK (established c)) with (established c).
  apply tcp_send_buffered_idle. apply (all_idle_with s i (established c) Hidle). intros _. exact Ht.
Qed.

Definition with_backlog (l : nat) (q : RingBuf.ring_buf Z) s : net_state A :=
  set_g_passive_sockets (alter (set_v_backlog q) l (g_passive_sockets s)) s.

Lemma on_state_syn_received s j c dp l p bl payload plen :
  g_active_sockets s !! j = Some c → a_state c = TCP_SYN_RECEIVED → a_send_head c = a_send_tail c →
  listening s dp l p bl → all_idle s →
  ∃ q, RingBuf.rb_rep TCP_BACKLOG_SIZE q (bl ++ [a_id c]) ∧
    on_state junk j dp TCP_ACK payload plen s = Ok (tt, with_conn j (established c) (with_backlog l q s)).
Proof.
  intros Hj Hs Ht (Hl & Hp & Hq & Hroom) Hidle.
  destruct (RingBuf.ring_buf_fifo _ _ _ (a_id c) Hq) as (_ & _ & Hw & _).
  rewrite (proj2 (Z.eqb_neq _ _)) in Hw by (unfold TCP_BACKLOG_SIZE in *; lia). destruct Hw as (q & Hw & Hq').
  exists q. split; [done|]. unfold on_state. rewrite (bind_of_ok _ _ _ _ _ (conn_ok s j c Hj)), Hs.
  change (has TCP_ACK TCP_ACK) with true. cbn iota.
  rewrite (bind_of_ok _ _ s (Some l) s) by (unfold resolve_passive, gets; by rewrite Hl).
  rewrite (bind_of_ok _ _ s p s) by (unfold passive, gets, mbind, M_bind; by rewrite Hp).
  rewrite Hw, (bind_of_ok _ _ s (Some q) s) by done.
  rewrite (bind_of_ok _ _ s tt (with_backlog l q s)) by done.
  rewrite (bind_of_ok _ _ _ _ _ (upd_conn_ok (with_backlog l q s) j c (set_a_state TCP_ESTABLISHED) Hj)).
  apply tcp_send_buffered_idle. apply (all_idle_with (with_backlog l q s) j (established c) Hidle). intros _. exact Ht.
Qed.
End steps.

(** ** The handshake *)

(** Two established ends of one connection: each sends from where the other expects. *)
Record synced (ipA ipB : Z) (cA cB : tcp_active_socket) : Prop := {
  sy_stateA : a_state cA = TCP_ESTABLISHED;
  sy_stateB : a_state cB = TCP_ESTABLISHED;
  sy_seq : a_seq cA = a_ack cB;
  sy_ack : a_seq cB = a_ack cA;
  sy_ipA : a_remote_ip cB = ipA;
  sy_ipB : a_remote_ip cA = ipB;
  sy_portA : a_local_port cA = a_remote_port cB;
  sy_portB : a_local_port cB = a_remote_port cA
}.

Section handshake.
Context {A : Type}.
Context (junkA junkB : list Z).
Implicit Types (sA sB : net_state A).

(** A receives what B's [frame] holds, as B's driver delivers it. *)
Definition deliver (junk : list Z) (f : list Z) (n : nic) : M (net_state A) unit :=
  Socket.ethernet_receive junk f (Z.of_nat (length f)) n.

Lemma u32_idem z : u32 (u32 z) = u32 z.
Proof. apply Zmod_mod. Qed.

(** The SYN|ACK acknowledges the SYN and nothing else. *)
Lemma sequenced_syn_ack seq ack c : a_state c = TCP_SYN_SENT → a_send_tail c = 0 → u32 (ack - a_initial_seq c - 1) = 0 →
  sequenced (Z.lor TCP_SYN TCP_ACK) seq ack 0 c = set_a_ack (u32 (seq + 1)) c.
Proof.
  intros Hs Ht Ho. unfold sequenced. rewrite Hs, Ht, Ho. change (has _ _) with true.
  rewrite bool_decide_eq_true_2 by done. rewrite Z.add_0_r, u32_idem.
  destruct c. cbn in *. by subst.
Qed.

Lemma established_wf c : conn_wf (established c) → conn_wf c.
Proof. intros []. by split. Qed.

Lemma established_tail c : a_send_head (established c) = a_send_tail (established c) → a_send_head c = a_send_tail c.
Proof. done. Qed.

(** The server's answer to a SYN. *)
Lemma server_syn sA sB id isn l p bl j nA nB macA macB rp lp :
  uplink sA (n_addr nB) nA macB → uplink sB (n_addr nA) nB macA → 0 < rp < 2 ^ 16 → 0 < lp < 2 ^ 16 →
  0 ≤ isn < 2 ^ 32 → listening sB rp l p bl → free_slot sB j →
  first (conn_matches 0 (n_addr nA) rp lp) (g_active_sockets sB) = None →
  let x1 := xorshift (rng_state sB) in let x2 := xorshift x1 in
  let c := syn_received (u16 x1) (n_addr nA) rp lp (u32 x2) (u32 (isn + 1)) in
  deliver junkB (frame sA nA macB (n_addr nB) (seg (syn_sent id (n_addr nB) lp rp isn) TCP_SYN [])) nB sB =
  Ok (tt, Inet.sent nB macA Inet.PROTOCOL_TCP (n_addr nA) (seg c (Z.lor TCP_SYN TCP_ACK) [])
    (with_conn j (bump (Z.lor TCP_SYN TCP_ACK) c) (set_rng_state x2 (set_rng_state x1 sB)))).
Proof.
  intros HuA HuB Hrp Hlp Hisn Hls Hj Hm x1 x2 c. pose proof HuA as (r & _ & _ & _ & _ & _ & _ & _ & _ & _ & Hip).
  set (c1 := syn_sent id (n_addr nB) lp rp isn). assert (conn_wf c1) as W by (split; cbn; lia).
  unfold deliver. rewrite frame_received by (done || (rewrite seg_length; cbn; lia)).
  rewrite tcp_on_data_seg by (done || (cbn; lia)). cbn [a_remote_port a_local_port c1 syn_sent fresh set_a_state]. rewrite Hm.
  rewrite (on_incoming_ok junkB sB (n_addr nA) rp lp _ l p bl j nB macA) by (done || lia).
  by rewrite (proj1 (seg_numbers c1 TCP_SYN [] W)).
Qed.

(** The client's ends of the connection before and after the SYN|ACK. *)
Definition client1 (id ip lp rp isn : Z) : tcp_active_socket := bump TCP_SYN (syn_sent id ip lp rp isn).
Definition client2 (id ip lp rp isn peer_isn : Z) : tcp_active_socket :=
  established (set_a_ack (u32 (peer_isn + 1)) (client1 id ip lp rp isn)).

Lemma client2_wf id ip lp rp isn peer : 0 ≤ ip < 2 ^ 32 → 0 < lp < 2 ^ 16 → 0 < rp < 2 ^ 16 →
  conn_wf (client2 id ip lp rp isn peer).
Proof.
  intros. unfold client2, client1, bump. change (has TCP_SYN _) with true. split; cbn; try lia; apply u32_range.
Qed.

Lemma client_syn_ack sA sB id isn isnB idB i nA nB macA macB rp lp :
  uplink sA (n_addr nB) nA macB → uplink sB (n_addr nA) nB macA → 0 < rp < 2 ^ 16 → 0 < lp < 2 ^ 16 →
  0 ≤ isn < 2 ^ 32 → 0 ≤ isnB < 2 ^ 32 → g_active_sockets sA !! i = Some (client1 id (n_addr nB) lp rp isn) →
  first (conn_matches 0 (n_addr nB) lp rp) (g_active_sockets sA) = Some i → all_idle sA →
  let c := client2 id (n_addr nB) lp rp isn isnB in
  deliver junkA (frame sB nB macA (n_addr nA)
    (seg (syn_received idB (n_addr nA) rp lp isnB (u32 (isn + 1))) (Z.lor TCP_SYN TCP_ACK) [])) nA sA =
  Ok (tt, Inet.sent nA macB Inet.PROTOCOL_TCP (n_addr nB) (seg c TCP_ACK []) (with_conn i c sA)).
Proof.
  intros HuA HuB Hrp Hlp Hisn HisnB Hi Hm Hidle c. pose proof HuB as (r & _ & _ & _ & _ & _ & _ & _ & _ & _ & HipA).
  pose proof HuA as (r' & _ & _ & _ & _ & _ & _ & _ & _ & _ & HipB).
  set (c2 := syn_received idB (n_addr nA) rp lp isnB (u32 (isn + 1))).
  assert (conn_wf c2) as W by (split; cbn; try lia; apply u32_range).
  unfold deliver. rewrite frame_received by (done || (rewrite seg_length; cbn; lia)).
  rewrite tcp_on_data_seg by (done || (cbn; lia)). cbn [a_remote_port a_local_port c2 syn_received fresh set_a_state set_a_ack].
  rewrite Hm. change (has (Z.lor TCP_SYN TCP_ACK) TCP_RST) with false. cbn iota.
  destruct (seg_numbers c2 (Z.lor TCP_SYN TCP_ACK) [] W) as [E1 E2].
  rewrite (bind_of_ok _ _ _ _ _ (on_sequence_ok sA i _ (Z.lor TCP_SYN TCP_ACK) _ _ _ Hi (or_introl eq_refl))).
  rewrite E1, E2. set (c' := sequenced _ _ _ _ _).
  assert (established c' = c) as Ec.
  { unfold c', c, client2. f_equal. apply sequenced_syn_ack; [done|done|]. change (a_ack c2) with (u32 (isn + 1)).
    change (a_initial_seq _) with isn. unfold u32. rewrite <- Z.sub_add_distr, Zminus_mod_idemp_l. by rewrite Z.sub_diag. }
  rewrite (on_state_syn_sent junkA (with_conn i c' sA) i c' lp [] _ nA macB).
  - by rewrite with_conn_twice, Ec.
  - by eapply with_conn_lookup.
  - done.
  - apply established_tail. by rewrite Ec.
  - assert (conn_wf c) as Wc by (by apply client2_wf). rewrite <- Ec in Wc. by apply established_wf.
  - exact HuA.
  - by apply all_idle_with.
Qed.
(** An acknowledgement of nothing new. *)
Lemma sequenced_ack seq ack c : a_state c ≠ TCP_SYN_SENT → 0 ≤ a_ack c < 2 ^ 32 →
  u32 (ack - a_initial_seq c - 1) ≤ a_send_tail c → sequenced TCP_ACK seq ack 0 c = c.
Proof.
  intros Hs Ha Ho. unfold sequenced. change (has _ _) with false. rewrite bool_decide_eq_false_2 by done.
  cbv zeta. rewrite Z.add_0_r, (u32_small (a_ack c)) by done. rewrite (proj2 (Z.ltb_ge _ _)) by done. by destruct c.
Qed.

(** The server's end of the connection after its SYN|ACK. *)
Definition server1 (id ip lp rp isn ack : Z) : tcp_active_socket :=
  bump (Z.lor TCP_SYN TCP_ACK) (syn_received id ip lp rp isn ack).

Lemma server_ack sA sB id isn isnB idB j l p bl nA nB macB rp lp :
  uplink sA (n_addr nB) nA macB → 0 < rp < 2 ^ 16 → 0 < lp < 2 ^ 16 → 0 ≤ isn < 2 ^ 32 → 0 ≤ isnB < 2 ^ 32 →
  g_active_sockets sB !! j = Some (server1 idB (n_addr nA) rp lp isnB (u32 (isn + 1))) →
  first (conn_matches 0 (n_addr nA) rp lp) (g_active_sockets sB) = Some j → listening sB rp l p bl → all_idle sB →
  ∃ q, RingBuf.rb_rep TCP_BACKLOG_SIZE q (bl ++ [idB]) ∧
    deliver junkB (frame sA nA macB (n_addr nB) (seg (client2 id (n_addr nB) lp rp isn isnB) TCP_ACK [])) nB sB =
    Ok (tt, with_conn j (established (server1 idB (n_addr nA) rp lp isnB (u32 (isn + 1)))) (with_backlog l q sB)).
Proof.
  intros HuA Hrp Hlp Hisn HisnB Hj Hm Hls Hidle. pose proof HuA as (r & _ & _ & _ & _ & _ & _ & _ & _ & _ & HipB).
  set (c := server1 idB (n_addr nA) rp lp isnB (u32 (isn + 1))) in *.
  pose proof (client2_wf id (n_addr nB) lp rp isn isnB HipB Hlp Hrp) as W.
  set (c3 := client2 id (n_addr nB) lp rp isn isnB) in *.
  destruct (on_state_syn_received junkB sB j c rp l p bl [] 0 Hj eq_refl eq_refl Hls Hidle) as (q & Hq & Hrun).
  exists q. split; [exact Hq|]. unfold deliver. rewrite frame_received by (done || (rewrite seg_length; cbn; lia)).
  rewrite tcp_on_data_seg by (done || (cbn; lia)). change (a_remote_port c3) with rp. change (a_local_port c3) with lp.
  rewrite Hm. change (has TCP_ACK TCP_RST) with false. cbn iota. destruct (seg_numbers c3 TCP_ACK [] W) as [E1 E2].
  rewrite (bind_of_ok _ _ _ _ _ (on_sequence_ok sB j c TCP_ACK _ _ _ Hj (or_intror E1))). rewrite E1, E2.
  change (Z.of_nat (length [])) with 0. rewrite sequenced_ack; [by rewrite with_conn_id|done|apply u32_range|].
  change (a_ack c3) with (u32 (isnB + 1)). change (a_initial_seq c) with isnB. change (a_send_tail c) with 0.
  unfold u32. rewrite <- Z.sub_add_distr, Zminus_mod_idemp_l. by rewrite Z.sub_diag.
Qed.

(** A connection put into a table without one for its ports is the one found. *)
Lemma match_inserted (s : net_state A) i c0 c P : g_active_sockets s !! i = Some c0 →
  first P (g_active_sockets s) = None → P c = true → first P (<[i := c]> (g_active_sockets s)) = Some i.
Proof. intros Hi Hn Hp. rewrite Link.first_insert by (done || by eapply lookup_lt_Some). by rewrite Hn. Qed.

End handshake.

(** ** Data *)

Lemma index_u32 h k : (u32 h + k) mod BUF_SIZE = (h + k) mod BUF_SIZE.
Proof.
  unfold u32, BUF_SIZE. rewrite <- (Zplus_mod_idemp_l (h mod 2 ^ 32)), <- (Zplus_mod_idemp_l h). f_equal. f_equal.
  change (2 ^ 32) with (4096 * 1048576). rewrite Z.rem_mul_r by lia.
  by rewrite Z.mul_comm, Z_mod_plus_full, Zmod_mod.
Qed.

(** Storing bytes appends them to the contents [l] that start at [tail]. *)
Lemma ring_push_ok buf tail l bytes buf' head' :
  RingBuf.holds BUF_SIZE buf tail l → Z.of_nat (length buf) = BUF_SIZE →
  Z.of_nat (length l + length bytes) ≤ BUF_SIZE →
  ring_push buf (u32 (tail + Z.of_nat (length l))) bytes = (buf', head') →
  RingBuf.holds BUF_SIZE buf' tail (l ++ bytes) ∧ Z.of_nat (length buf') = BUF_SIZE ∧
  head' = u32 (tail + Z.of_nat (length l + length bytes)).
Proof.
  revert buf l. induction bytes as [|b bytes IH]; intros buf l Hh Hl Hn; cbn [ring_push length].
  - intros [= <- <-]. rewrite app_nil_r, Nat.add_0_r. done.
  - rewrite <- (Z.add_0_r (u32 _)) at 1. rewrite index_u32, Z.add_0_r. cbn [length] in Hn.
    replace (u32 (u32 (tail + Z.of_nat (length l)) + 1)) with (u32 (tail + Z.of_nat (length (l ++ [b])))).
    2: { unfold u32. rewrite Zplus_mod_idemp_l, length_app. cbn [length]. f_equal. lia. }
    intros E. apply IH in E as (H1 & H2 & H3).
    + rewrite <- app_assoc in H1. split_and!; [done|done|]. rewrite H3, length_app. cbn [length]. f_equal. lia.
    + apply RingBuf.holds_push; [done|lia|done].
    + by rewrite length_insert.
    + rewrite length_app. cbn [length]. lia.
Qed.

(** Reading back removes from the front. *)
Lemma ring_pull_ok buf tail l1 l2 : RingBuf.holds BUF_SIZE buf tail (l1 ++ l2) →
  ring_pull (length l1) buf (u32 tail) = (l1, u32 (tail + Z.of_nat (length l1))) ∧
  RingBuf.holds BUF_SIZE buf (tail + Z.of_nat (length l1)) l2.
Proof.
  revert tail. induction l1 as [|b l1 IH]; intros tail Hh; cbn [ring_pull length].
  - by rewrite Z.add_0_r.
  - replace (u32 (u32 tail + 1)) with (u32 (tail + 1)) by (unfold u32; by rewrite Zplus_mod_idemp_l).
    destruct (IH (tail + 1)) as [-> H2].
    { intros k v Hk. specialize (Hh (S k) v Hk). by replace (tail + 1 + Z.of_nat k) with (tail + Z.of_nat (S k)) by lia. }
    replace (tail + Z.of_nat (S (length l1))) with (tail + 1 + Z.of_nat (length l1)) by lia. split; [|done].
    do 2 f_equal. rewrite <- (Z.add_0_r (u32 tail)), index_u32. apply nth_lookup_Some. exact (Hh 0%nat b eq_refl).
Qed.

(** An established end that has sent everything and holds [l] for its reader. *)
Record endpoint {A} (s : net_state A) (i : nat) (c : tcp_active_socket) (l : list Z) : Prop := {
  ep_conn : g_active_sockets s !! i = Some c;
  ep_match : first (conn_matches 0 (a_remote_ip c) (a_local_port c) (a_remote_port c)) (g_active_sockets s) = Some i;
  ep_idle : all_idle s;
  ep_wf : conn_wf c;
  ep_state : a_state c = TCP_ESTABLISHED;
  ep_sent : a_send_head c = a_send_tail c;
  ep_tail : 0 ≤ a_send_tail c < 2 ^ 32;
  ep_seq : a_seq c = u32 (a_initial_seq c + 1 + a_send_tail c);
  ep_send_buf : Z.of_nat (length (a_send_buf c)) = BUF_SIZE;
  ep_recv_buf : Z.of_nat (length (a_recv_buf c)) = BUF_SIZE;
  ep_recv_tail : 0 ≤ a_recv_tail c < 2 ^ 32;
  ep_recv_head : a_recv_head c = u32 (a_recv_tail c + Z.of_nat (length l));
  ep_recv_len : Z.of_nat (length l) ≤ BUF_SIZE;
  ep_recv : RingBuf.holds BUF_SIZE (a_recv_buf c) (a_recv_tail c) l
}.

Section data.
Context {A : Type}.
Context (junk : list Z).
Implicit Types (s : net_state A) (c : tcp_active_socket).

(** Exactly one connection has something to send. *)
Lemma for_range_one (body : Z → M (net_state A) unit) s s' i n lo :
  lo ≤ i < lo + Z.of_nat n → body i s = Ok (tt, s') →
  (∀ k, lo ≤ k < lo + Z.of_nat n → k ≠ i → body k s = Ok (tt, s) ∧ body k s' = Ok (tt, s')) →
  for_range n lo body s = Ok (tt, s').
Proof.
  assert (∀ n lo, (∀ k, lo ≤ k < lo + Z.of_nat n → body k s' = Ok (tt, s')) → for_range n lo body s' = Ok (tt, s')) as H0.
  { clear. induction n as [|n IH]; intros lo H; [done|]. cbn [for_range].
    rewrite (bind_of_ok _ _ _ _ _ (H lo ltac:(lia))). apply IH. intros k Hk. apply H. lia. }
  revert lo. induction n as [|n IH]; intros lo Hi Hb Ho; [lia|]. cbn [for_range].
  destruct (decide (lo = i)) as [->|Hne].
  - rewrite (bind_of_ok _ _ _ _ _ Hb). apply H0. intros k Hk. apply (Ho k); lia.
  - rewrite (bind_of_ok _ _ _ _ _ (proj1 (Ho lo ltac:(lia) Hne))). apply IH; [lia|done|]. intros k Hk. apply Ho. lia.
Qed.

(** The connection [c] after [data] was put into its buffer and sent. *)
Definition after_send (buf : list Z) (n : Z) c : tcp_active_socket :=
  set_a_seq (u32 (a_seq c + n)) (set_a_send_tail (u32 (a_send_tail c + n))
    (set_a_send_head (u32 (a_send_head c + n)) (set_a_send_buf buf c))).

Lemma send_buffered_ok s i c data n mac :
  g_active_sockets s !! i = Some c → conn_wf c → a_state c = TCP_ESTABLISHED → uplink s (a_remote_ip c) n mac →
  RingBuf.holds BUF_SIZE (a_send_buf c) (a_send_tail c) data → Forall is_byte data →
  0 ≤ a_send_tail c < 2 ^ 32 → a_send_head c = u32 (a_send_tail c + Z.of_nat (length data)) →
  0 < Z.of_nat (length data) ≤ 1460 →
  send_buffered junk (Z.of_nat i) s =
  Ok (tt, Inet.sent n mac Inet.PROTOCOL_TCP (a_remote_ip c) (seg c TCP_ACK data)
    (with_conn i (set_a_seq (u32 (a_seq c + Z.of_nat (length data)))
      (set_a_send_tail (u32 (a_send_tail c + Z.of_nat (length data))) c)) s)).
Proof.
  intros Hi W Hs Hu Hh Hb Ht Hhd Hl. unfold send_buffered. rewrite Nat2Z.id, (bind_of_ok _ _ _ _ _ (conn_ok s i c Hi)).
  rewrite bool_decide_eq_true_2 by done. cbn [when].
  replace (u32 (a_send_head c - a_send_tail c)) with (Z.of_nat (length data)).
  2: { rewrite Hhd. unfold u32. rewrite Zminus_mod_idemp_l, Z.add_simpl_l, Z.mod_small; lia. }
  rewrite (proj2 (Z.eqb_neq _ _)), (proj2 (Z.ltb_ge _ _)) by lia. rewrite Nat2Z.id.
  rewrite <- (app_nil_r data) in Hh. destruct (ring_pull_ok _ _ _ _ Hh) as [Hp _]. rewrite u32_small in Hp by done.
  rewrite Hp. cbv zeta. rewrite (bind_of_ok _ _ _ _ _ (upd_conn_ok s i c _ Hi)).
  set (s1 := with_conn i _ s).
  assert (u16 (u32 (Z.of_nat (length data) + sizeof_tcp_header)) = Z.of_nat (length (create_header c TCP_ACK 0 ++ data))) as El.
  { rewrite length_app, create_header_length. unfold sizeof_tcp_header. rewrite u32_small, u16_small by lia. lia. }
  assert (tcp_checksum c (create_header c TCP_ACK 0 ++ data) (u16 (u32 (Z.of_nat (length data) + sizeof_tcp_header))) s1
    = Ok (tcp_sum c TCP_ACK data, s1)) as Hc.
  { rewrite El, <- (app_nil_r (create_header c TCP_ACK 0 ++ data)) at 1. rewrite tcp_checksum_ok.
    - unfold tcp_sum. replace (Z.of_nat (length (create_header c TCP_ACK 0 ++ data)))
        with (sizeof_tcp_header + Z.of_nat (length data)); [done|].
      rewrite length_app, create_header_length. unfold sizeof_tcp_header. lia.
    - apply W.
    - apply W.
    - apply Forall_app. split; [by apply create_header_bytes|done].
    - rewrite length_app, create_header_length. lia. }
  rewrite (bind_of_ok _ _ _ _ _ Hc), El.
  replace (length (create_header c TCP_ACK 0 ++ data)) with (length (seg c TCP_ACK data)) by (unfold seg; by rewrite !length_app).
  fold (seg c TCP_ACK data). rewrite (bind_of_ok _ _ _ _ _ (ip_send_uplink junk s1 _ (seg c TCP_ACK data) n mac Hu
    ltac:(rewrite seg_length; unfold sizeof_tcp_header; lia))).
  rewrite (upd_conn_ok _ i (set_a_send_tail (u32 (a_send_tail c + Z.of_nat (length data))) c)).
  - do 2 f_equal. unfold Inet.sent, s1, with_conn. cbn. by rewrite list_insert_insert_eq.
  - exact (with_conn_lookup s i c _ Hi).
Qed.

Lemma tcp_send_ok s i c l id data n mac :
  endpoint s i c l → get_conn id s = Ok (Some i, s) → uplink s (a_remote_ip c) n mac → Forall is_byte data →
  0 < Z.of_nat (length data) ≤ 1460 →
  ∃ buf, Z.of_nat (length buf) = BUF_SIZE ∧
    tcp_send junk id data (Z.of_nat (length data)) s =
    Ok (1, Inet.sent n mac Inet.PROTOCOL_TCP (a_remote_ip c) (seg c TCP_ACK data)
      (with_conn i (after_send buf (Z.of_nat (length data)) c) s)).
Proof.
  intros E Hid Hu Hb Hl. pose proof (ep_conn _ _ _ _ E) as Hi. pose proof (ep_tail _ _ _ _ E) as Ht.
  destruct (ring_push (a_send_buf c) (a_send_head c) data) as [buf head] eqn:Ep.
  assert (a_send_head c = u32 (a_send_tail c + Z.of_nat (length (@nil Z)))) as Eh
    by (cbn [length]; rewrite Z.add_0_r, (ep_sent _ _ _ _ E); symmetry; by apply u32_small).
  pose proof Ep as Hpush. rewrite Eh in Hpush. apply ring_push_ok in Hpush as (Hh & Hlen & Ehd);
    [|apply RingBuf.holds_nil|apply (ep_send_buf _ _ _ _ E)|unfold BUF_SIZE; cbn; lia].
  change (length [] + length data)%nat with (length data) in Ehd. subst head.
  exists buf. split; [done|]. unfold tcp_send. rewrite (proj2 (Z.eqb_neq _ _)) by lia.
  rewrite (bind_of_ok _ _ _ _ _ Hid), (bind_of_ok _ _ s data s) by (by apply bytes_at_ok).
  rewrite (bind_of_ok _ _ _ _ _ (upd_conn_ok s i c _ Hi)), Ep.
  set (c1 := set_a_send_head _ (set_a_send_buf buf c)). set (s1 := with_conn i c1 s).
  assert (send_buffered junk (Z.of_nat i) s1 = Ok (tt, Inet.sent n mac Inet.PROTOCOL_TCP (a_remote_ip c) (seg c TCP_ACK data)
    (with_conn i (after_send buf (Z.of_nat (length data)) c) s))) as H1.
  { rewrite (send_buffered_ok s1 i c1 data n mac); try done.
    - unfold s1. rewrite with_conn_twice. unfold after_send. by rewrite (ep_sent _ _ _ _ E).
    - exact (with_conn_lookup s i c _ Hi).
    - destruct (ep_wf _ _ _ _ E). by split.
    - exact (ep_state _ _ _ _ E). }
  destruct (ep_idle _ _ _ _ E) as [Hn4 Hidle]. assert (i < length (g_active_sockets s))%nat by (by eapply lookup_lt_Some).
  assert (tcp_send_buffered_data junk s1 = Ok (tt, Inet.sent n mac Inet.PROTOCOL_TCP (a_remote_ip c) (seg c TCP_ACK data)
    (with_conn i (after_send buf (Z.of_nat (length data)) c) s))) as H2.
  { apply (for_range_one _ _ _ (Z.of_nat i)); [rewrite <- Hn4; lia|exact H1|].
    intros k Hk Hne. rewrite <- Hn4 in Hk.
    destruct (lookup_lt_is_Some_2 (g_active_sockets s) (Z.to_nat k) ltac:(lia)) as [ck Hck].
    pose proof (Forall_lookup_1 _ _ _ _ Hidle Hck).
    split; apply (send_buffered_idle _ _ _ ck); try done; cbn; by rewrite list_lookup_insert_ne by lia. }
  by rewrite (bind_of_ok _ _ _ _ _ H2).
Qed.

(** The receiving end after [data] arrived. *)
Definition after_receive (buf : list Z) (n : Z) c : tcp_active_socket :=
  set_a_recv_head (u32 (a_recv_head c + n)) (set_a_recv_buf buf (set_a_ack (u32 (a_ack c + n)) c)).

(** Acknowledgements of everything sent leave the send window as it is. *)
Lemma sequenced_data s i c l seq ack n : endpoint s i c l → ack = a_seq c →
  sequenced TCP_ACK seq ack n c = set_a_ack (u32 (a_ack c + n)) c.
Proof.
  intros E ->. unfold sequenced. change (has _ _) with false. rewrite (ep_state _ _ _ _ E).
  cbv zeta. rewrite bool_decide_eq_false_2 by done.
  replace (u32 (a_seq c - a_initial_seq c - 1)) with (a_send_tail c).
  { rewrite Z.ltb_irrefl. by destruct c. }
  rewrite (ep_seq _ _ _ _ E), <- Z.sub_add_distr. unfold u32. rewrite Zminus_mod_idemp_l, Z.add_simpl_l.
  symmetry. apply Z.mod_small, (ep_tail _ _ _ _ E).
Qed.

Lemma receive_data s i c l peer data n mac :
  endpoint s i c l → conn_wf peer → a_seq peer = a_ack c → a_ack peer = a_seq c →
  a_remote_port peer = a_local_port c → a_local_port peer = a_remote_port c → uplink s (a_remote_ip c) n mac →
  0 < Z.of_nat (length data) ≤ 1460 → Z.of_nat (length l + length data) ≤ BUF_SIZE →
  ∃ buf, let c' := after_receive buf (Z.of_nat (length data)) c in
    Z.of_nat (length buf) = BUF_SIZE ∧ RingBuf.holds BUF_SIZE buf (a_recv_tail c) (l ++ data) ∧
    a_recv_head c' = u32 (a_recv_tail c + Z.of_nat (length (l ++ data))) ∧
    tcp_on_data junk (a_remote_ip c) (seg peer TCP_ACK data) (Z.of_nat (length (seg peer TCP_ACK data))) s =
    Ok (tt, Inet.sent n mac Inet.PROTOCOL_TCP (a_remote_ip c) (seg c' TCP_ACK []) (with_conn i c' s)).
Proof.
  intros E W Hseq Hack Hp1 Hp2 Hu Hl Hroom. pose proof (ep_conn _ _ _ _ E) as Hi.
  destruct (ring_push (a_recv_buf c) (a_recv_head c) data) as [buf head] eqn:Ep. pose proof Ep as Hpush.
  rewrite (ep_recv_head _ _ _ _ E) in Hpush. apply ring_push_ok in Hpush as (Hh & Hlen & Ehd);
    [|apply (ep_recv _ _ _ _ E)|apply (ep_recv_buf _ _ _ _ E)|done].
  exists buf. intros c'. assert (u32 (a_recv_head c + Z.of_nat (length data)) = head) as Eh.
  { rewrite Ehd, (ep_recv_head _ _ _ _ E). unfold u32. rewrite Zplus_mod_idemp_l. f_equal. lia. }
  split_and!; [done|done|by cbn; rewrite Eh, Ehd, length_app|].
  rewrite tcp_on_data_seg by (done || lia). rewrite Hp1, Hp2, (ep_match _ _ _ _ E).
  change (has TCP_ACK TCP_RST) with false. cbn iota. destruct (seg_numbers peer TCP_ACK data W) as [E1 E2].
  rewrite (bind_of_ok _ _ _ _ _ (on_sequence_ok s i c TCP_ACK _ _ _ Hi (or_intror (eq_trans E1 Hseq)))).
  rewrite E1, E2, (sequenced_data s i c l) by done. set (c1 := set_a_ack _ c). set (s1 := with_conn i c1 s).
  pose proof (with_conn_lookup s i c c1 Hi) as Hi1. unfold on_state. rewrite (bind_of_ok _ _ _ _ _ (conn_ok s1 i c1 Hi1)).
  change (a_state c1) with (a_state c). rewrite (ep_state _ _ _ _ E), (proj2 (Z.ltb_lt 0 _)) by lia. cbn [when].
  rewrite (bind_of_ok _ _ s1 tt (Inet.sent n mac Inet.PROTOCOL_TCP (a_remote_ip c) (seg c' TCP_ACK []) (with_conn i c' s))); [done|].
  rewrite (bind_of_ok _ _ s1 data s1) by (by apply bytes_at_ok).
  rewrite (bind_of_ok _ _ _ _ _ (upd_conn_ok s1 i c1 _ Hi1)). change (a_recv_buf c1) with (a_recv_buf c).
  change (a_recv_head c1) with (a_recv_head c). rewrite Ep. unfold s1. rewrite with_conn_twice.
  replace (set_a_recv_head head (set_a_recv_buf buf c1)) with c' by (unfold c', after_receive; by rewrite Eh).
  rewrite (send_header_ok junk (with_conn i c' s) i c' TCP_ACK n mac); [by rewrite with_conn_twice| | | |done].
  - exact (with_conn_lookup s i c _ Hi).
  - exact Hu.
  - destruct (ep_wf _ _ _ _ E). split; try done. apply u32_range.
Qed.

(** An acknowledgement without data changes nothing. *)
Lemma receive_ack s i c l peer :
  endpoint s i c l → conn_wf peer → a_seq peer = a_ack c → a_ack peer = a_seq c →
  a_remote_port peer = a_local_port c → a_local_port peer = a_remote_port c →
  tcp_on_data junk (a_remote_ip c) (seg peer TCP_ACK []) (Z.of_nat (length (seg peer TCP_ACK []))) s = Ok (tt, s).
Proof.
  intros E W Hseq Hack Hp1 Hp2. pose proof (ep_conn _ _ _ _ E) as Hi.
  rewrite tcp_on_data_seg by (done || (cbn; lia)). rewrite Hp1, Hp2, (ep_match _ _ _ _ E).
  change (has TCP_ACK TCP_RST) with false. cbn iota. destruct (seg_numbers peer TCP_ACK [] W) as [E1 E2].
  rewrite (bind_of_ok _ _ _ _ _ (on_sequence_ok s i c TCP_ACK _ _ _ Hi (or_intror (eq_trans E1 Hseq)))).
  rewrite E1, E2, (sequenced_data s i c l) by done. change (Z.of_nat (length [])) with 0.
  rewrite Z.add_0_r, u32_small by apply (ep_wf _ _ _ _ E).
  replace (set_a_ack (a_ack c) c) with c by (by destruct c). rewrite with_conn_id by done.
  unfold on_state. rewrite (bind_of_ok _ _ _ _ _ (conn_ok s i c Hi)). by rewrite (ep_state _ _ _ _ E).
Qed.

(** ** Keeping both ends in step *)

(** Updating a connection keeps it found by its addresses and its identifier. *)
Definition same_names c c' : Prop :=
  a_id c' = a_id c ∧ a_claimed c' = a_claimed c ∧ a_local_ip c' = a_local_ip c ∧ a_remote_ip c' = a_remote_ip c ∧
  a_local_port c' = a_local_port c ∧ a_remote_port c' = a_remote_port c.

Lemma conn_matches_names la ra lp rp c c' : same_names c c' → conn_matches la ra lp rp c' = conn_matches la ra lp rp c.
Proof. intros (_ & E2 & E3 & E4 & E5 & E6). unfold conn_matches. by rewrite E2, E3, E4, E5, E6. Qed.

Lemma get_conn_names s i c c' id : get_conn id s = Ok (Some i, s) → g_active_sockets s !! i = Some c → same_names c c' →
  get_conn id (with_conn i c' s) = Ok (Some i, with_conn i c' s).
Proof.
  unfold get_conn, gets. intros [= H] Hi (E1 & _). cbn. rewrite (first_insert_same _ _ _ _ c Hi) by (by rewrite E1).
  by rewrite H.
Qed.

Lemma endpoint_same s s' i c l : g_active_sockets s' = g_active_sockets s → endpoint s i c l → endpoint s' i c l.
Proof. intros Es []. split; try done; unfold all_idle in *; by rewrite Es. Qed.

Lemma endpoint_sent s i c l buf n : endpoint s i c l → Z.of_nat (length buf) = BUF_SIZE →
  endpoint (with_conn i (after_send buf n c) s) i (after_send buf n c) l.
Proof.
  intros E Hb. pose proof (ep_conn _ _ _ _ E) as Hi.
  assert (same_names c (after_send buf n c)) as Hn by done.
  destruct E as [_ Hm Hid [] Hs Hst Ht Hq _ Hrb Hrt Hrh Hrl Hr].
  split; try done.
  - by eapply with_conn_lookup.
  - cbn [g_active_sockets with_conn set_g_active_sockets].
    rewrite (first_insert_same _ _ _ _ c Hi) by (by apply conn_matches_names). exact Hm.
  - apply all_idle_with; [done|]. intros _. cbn. by rewrite Hst.
  - split; try done. apply u32_range.
  - cbn. by rewrite Hst.
  - apply u32_range.
  - cbn. rewrite Hq. unfold u32. rewrite Zplus_mod_idemp_l, Zplus_mod_idemp_r. f_equal. lia.
Qed.

Lemma endpoint_received s i c l buf data : endpoint s i c l → Z.of_nat (length buf) = BUF_SIZE →
  let c' := after_receive buf (Z.of_nat (length data)) c in
  RingBuf.holds BUF_SIZE buf (a_recv_tail c) (l ++ data) → Z.of_nat (length (l ++ data)) ≤ BUF_SIZE →
  a_recv_head c' = u32 (a_recv_tail c + Z.of_nat (length (l ++ data))) →
  endpoint (with_conn i c' s) i c' (l ++ data).
Proof.
  intros E Hb c' Hh Hl Hrh. pose proof (ep_conn _ _ _ _ E) as Hi. assert (same_names c c') as Hn by done.
  destruct E as [_ Hm Hid [] Hs Hst Ht Hq Hsb _ Hrt _ _ _].
  split; try done.
  - by eapply with_conn_lookup.
  - cbn [g_active_sockets with_conn set_g_active_sockets].
    rewrite (first_insert_same _ _ _ _ c Hi) by (by apply conn_matches_names). exact Hm.
  - apply all_idle_with; [done|]. intros _. exact Hst.
  - split; try done. apply u32_range.
Qed.

Lemma tcp_receive_ok s i c l id max : endpoint s i c l → get_conn id s = Ok (Some i, s) → 0 ≤ max →
  ∃ s', tcp_receive id max s = Ok ((Z.min max (Z.of_nat (length l)), take (Z.to_nat max) l), s').
Proof.
  intros E Hid Hm. pose proof (ep_conn _ _ _ _ E) as Hi. pose proof (ep_recv_len _ _ _ _ E) as Hl. unfold BUF_SIZE in Hl.
  unfold tcp_receive. rewrite (bind_of_ok _ _ _ _ _ Hid), (bind_of_ok _ _ _ _ _ (conn_ok s i c Hi)).
  replace (u32 (a_recv_head c - a_recv_tail c)) with (Z.of_nat (length l)).
  2: { rewrite (ep_recv_head _ _ _ _ E). unfold u32. rewrite Zminus_mod_idemp_l, Z.add_simpl_l, Z.mod_small; lia. }
  cbv zeta. replace (if max <? Z.of_nat (length l) then max else Z.of_nat (length l)) with (Z.min max (Z.of_nat (length l)))
    by (destruct (Z.ltb_spec max (Z.of_nat (length l))); lia).
  pose proof (ep_recv _ _ _ _ E) as Hh. rewrite <- (take_drop (Z.to_nat max) l) in Hh.
  destruct (ring_pull_ok _ _ _ _ Hh) as [Hp _]. rewrite u32_small in Hp by apply (ep_recv_tail _ _ _ _ E).
  rewrite length_take in Hp. replace (Z.to_nat (Z.min max (Z.of_nat (length l)))) with (Z.to_nat max `min` length l)%nat by lia.
  rewrite Hp. rewrite (bind_of_ok _ _ _ _ _ (upd_conn_ok s i c _ Hi)). by eexists.
Qed.

(** ** Acknowledgements that are not checked *)

Lemma for_range_stuck (body : Z → M (net_state A) unit) s i n lo : lo ≤ i < lo + Z.of_nat n → body i s = NoFuel →
  (∀ k, lo ≤ k < i → body k s = Ok (tt, s)) → for_range n lo body s = NoFuel.
Proof.
  revert lo. induction n as [|n IH]; intros lo Hi Hb Ho; [lia|]. cbn [for_range].
  destruct (decide (lo = i)) as [->|Hne]; [unfold mbind, M_bind; by rewrite Hb|].
  rewrite (bind_of_ok _ _ _ _ _ (Ho lo ltac:(lia))). apply IH; [lia|done|]. intros k Hk. apply Ho. lia.
Qed.

(** An acknowledgement moves the tail of the send window wherever it says. *)
Lemma ack_moves_tail s i c l peer :
  endpoint s i c l → conn_wf peer → a_seq peer = a_ack c →
  a_remote_port peer = a_local_port c → a_local_port peer = a_remote_port c →
  let off := u32 (a_ack peer - a_initial_seq c - 1) in a_send_tail c < off →
  tcp_on_data junk (a_remote_ip c) (seg peer TCP_ACK []) (Z.of_nat (length (seg peer TCP_ACK []))) s
  = Ok (tt, with_conn i (set_a_send_tail off c) s).
Proof.
  intros E W Hseq Hp1 Hp2 off Hoff. pose proof (ep_conn _ _ _ _ E) as Hi. set (c' := set_a_send_tail off c).
  rewrite tcp_on_data_seg by (done || (cbn; lia)). rewrite Hp1, Hp2, (ep_match _ _ _ _ E).
  change (has TCP_ACK TCP_RST) with false. cbn iota. destruct (seg_numbers peer TCP_ACK [] W) as [E1 E2].
  rewrite (bind_of_ok _ _ _ _ _ (on_sequence_ok s i c TCP_ACK _ _ _ Hi (or_intror (eq_trans E1 Hseq)))).
  rewrite E1, E2. replace (sequenced _ _ _ _ c) with c'.
  + unfold on_state. rewrite (bind_of_ok _ _ _ _ _ (conn_ok _ i c' (with_conn_lookup s i c _ Hi))).
    change (a_state c') with (a_state c). by rewrite (ep_state _ _ _ _ E).
  + unfold sequenced. change (has _ _) with false. rewrite (ep_state _ _ _ _ E), bool_decide_eq_false_2 by done.
    cbv zeta. fold off. rewrite (proj2 (Z.ltb_lt _ _)) by lia. change (Z.of_nat (length [])) with 0.
    rewrite Z.add_0_r, u32_small by apply (ep_wf _ _ _ _ E). unfold c'. by destruct c.
Qed.

(** Once the tail is past the head, sending never ends. *)
Lemma tcp_send_stuck s i c l id off data :
  endpoint s i c l → get_conn id s = Ok (Some i, s) → 0 < Z.of_nat (length data) ≤ 1460 →
  a_send_tail c + Z.of_nat (length data) < off < 2 ^ 32 - 2 ^ 16 →
  tcp_send junk id data (Z.of_nat (length data)) (with_conn i (set_a_send_tail off c) s) = NoFuel.
Proof.
  intros E Hid Hl Hoff. pose proof (ep_conn _ _ _ _ E) as Hi. pose proof (ep_tail _ _ _ _ E) as Ht.
  set (c' := set_a_send_tail off c).
  destruct (ring_push (a_send_buf c) (a_send_head c) data) as [buf head] eqn:Ep.
  pose proof Ep as Hpush. rewrite (ep_sent _ _ _ _ E) in Hpush.
  rewrite <- (u32_small (a_send_tail c)), <- (Z.add_0_r (a_send_tail c)) in Hpush by done.
  apply (ring_push_ok _ _ []) in Hpush as (_ & _ & Ehd);
    [|apply RingBuf.holds_nil|apply (ep_send_buf _ _ _ _ E)|unfold BUF_SIZE; cbn; lia].
  change (length [] + length data)%nat with (length data) in Ehd.
  unfold tcp_send. rewrite (proj2 (Z.eqb_neq _ _)) by lia.
  rewrite (bind_of_ok _ _ _ _ _ (get_conn_names s i c c' id Hid Hi ltac:(done))).
  rewrite (bind_of_ok _ _ _ data (with_conn i c' s)) by (by apply bytes_at_ok).
  rewrite (bind_of_ok _ _ _ _ _ (upd_conn_ok _ i c' _ (with_conn_lookup s i c _ Hi))), with_conn_twice.
  change (a_send_buf c') with (a_send_buf c). change (a_send_head c') with (a_send_head c). rewrite Ep.
  destruct (ep_idle _ _ _ _ E) as [Hn4 Hidle]. assert (i < length (g_active_sockets s))%nat by (by eapply lookup_lt_Some).
  unfold mbind at 1, M_bind at 1, tcp_send_buffered_data. rewrite (for_range_stuck _ _ (Z.of_nat i)); [done|rewrite <- Hn4; lia| |].
  + unfold send_buffered. rewrite Nat2Z.id, (bind_of_ok _ _ _ _ _ (conn_ok _ i _ (with_conn_lookup s i c _ Hi))).
    change (a_state _) with (a_state c). rewrite (ep_state _ _ _ _ E), bool_decide_eq_true_2 by done. cbn [when].
    change (a_send_head _) with head. change (a_send_tail _) with off.
    replace (u32 (head - off)) with (2 ^ 32 + a_send_tail c + Z.of_nat (length data) - off).
    { rewrite (proj2 (Z.eqb_neq _ _)), (proj2 (Z.ltb_lt _ _)) by lia. done. }
    rewrite Ehd. unfold u32. rewrite Zminus_mod_idemp_l. rewrite <- (Z_mod_plus_full _ 1). rewrite Z.mod_small; lia.
  + intros k Hk. destruct (lookup_lt_is_Some_2 (g_active_sockets s) (Z.to_nat k) ltac:(lia)) as [ck Hck].
    apply (send_buffered_idle _ _ _ ck); [cbn; by rewrite list_lookup_insert_ne by lia|].
    exact (Forall_lookup_1 _ _ _ _ Hidle Hck).
Qed.

(** The acknowledgement number of a segment is not compared with what was
    sent.  A segment with the expected sequence number that acknowledges
    bytes beyond the send window moves the window's tail past its head, and
    the next [tcp_send] on the connection never returns: the number of bytes
    to send wraps around, and a [ushort] counter cannot reach it. *)
Theorem tcp_ack_beyond_sent s i c l id peer data :
  endpoint s i c l → get_conn id s = Ok (Some i, s) → conn_wf peer → a_seq peer = a_ack c →
  a_remote_port peer = a_local_port c → a_local_port peer = a_remote_port c → 0 < Z.of_nat (length data) ≤ 1460 →
  let off := u32 (a_ack peer - a_initial_seq c - 1) in
  a_send_tail c + Z.of_nat (length data) < off < 2 ^ 32 - 2 ^ 16 →
  ∃ s', tcp_on_data junk (a_remote_ip c) (seg peer TCP_ACK []) (Z.of_nat (length (seg peer TCP_ACK []))) s = Ok (tt, s') ∧
    tcp_send junk id data (Z.of_nat (length data)) s' = NoFuel.
Proof.
  intros E Hid W Hseq Hp1 Hp2 Hl off Hoff. exists (with_conn i (set_a_send_tail off c) s).
  split; [apply (ack_moves_tail s i c l peer); try done; lia|by eapply tcp_send_stuck].
Qed.
End data.

Section transfer.
Context {A : Type}.
Context (junkA junkB : list Z).
Implicit Types (sA sB : net_state A).

End transfer.

(** ** Two machines *)

Definition demo_nic (ip : Z) : nic := mkNic true true 1 ip (IP 255 255 255 0) 0 0 (Some g_e1000_ops).
Definition demo_machine (ip peer seed : Z) (mac peer_mac : list Z) (conns : list tcp_active_socket)
    (listeners : list tcp_passive_socket) : net_state unit :=
  mkNet (idle_kernel ∅) seed [demo_nic 0; demo_nic ip] [mkRoute (IP 10 0 2 0) (IP 255 255 255 0) 0 1 0] [true]
    [mkArp peer peer_mac] [] (RingBuf.mkRing [] 0 0) mac [] 0 [] listeners conns 49152 [] 1 0.

Definition mac1 : list Z := [82; 84; 0; 0; 0; 1].
Definition mac2 : list Z := [82; 84; 0; 0; 0; 2].
Definition ip1 : Z := IP 10 0 2 1.
Definition ip2 : Z := IP 10 0 2 2.
Definition demo_client (conns : list tcp_active_socket) : net_state unit := demo_machine ip1 ip2 5 mac1 mac2 conns [].
Definition demo_server (conns : list tcp_active_socket) : net_state unit :=
  demo_machine ip2 ip1 6 mac2 mac1 conns [mkPassive 3 80 (RingBuf.mkRing [0; 0; 0; 0] 0 0)].

Lemma demo_uplinks cs cs' :
  uplink (demo_client cs) ip2 (demo_nic ip1) mac2 ∧ uplink (demo_server cs') ip1 (demo_nic ip2) mac1.
Proof.
  split; exists (mkRoute (IP 10 0 2 0) (IP 255 255 255 0) 0 1 0); split_and!; try (vm_compute; reflexivity);
    try (vm_compute; discriminate); by split; vm_compute.
Qed.


(** Both ends after a handshake with initial sequence numbers 100 and 200. *)
Definition demo_conn (id ip lp rp isn ack : Z) : tcp_active_socket :=
  set_a_ack ack (set_a_seq (isn + 1) (established (fresh id ip lp rp isn))).
Definition demo_conns (c : tcp_active_socket) : list tcp_active_socket := [c; zero_active; zero_active; zero_active].

Lemma demo_tcp_endpoint (s : net_state unit) id ip lp rp isn ack :
  g_active_sockets s = demo_conns (demo_conn id ip lp rp isn ack) →
  0 ≤ ip < 2 ^ 32 → 0 ≤ lp < 2 ^ 16 → 0 ≤ rp < 2 ^ 16 → 0 ≤ isn < 2 ^ 31 → 0 ≤ ack < 2 ^ 32 →
  endpoint s 0 (demo_conn id ip lp rp isn ack) [].
Proof.
  intros Es Hip Hlp Hrp Hisn Hack. assert (Z.of_nat (length (replicate (Z.to_nat BUF_SIZE) 0)) = BUF_SIZE) as Hl
    by (rewrite length_replicate; done).
  split.
  - by rewrite Es.
  - rewrite Es. cbn. unfold conn_matches. cbn. by rewrite !Z.eqb_refl.
  - unfold all_idle. rewrite Es. split; [done|]. repeat constructor; discriminate || done.
  - split; cbn; lia.
  - done.
  - done.
  - cbn. lia.
  - cbn. rewrite u32_small; lia.
  - exact Hl.
  - exact Hl.
  - cbn. lia.
  - done.
  - cbn. unfold BUF_SIZE. lia.
  - apply RingBuf.holds_nil.
Qed.


Lemma tcp_ack_beyond_sent_witness :
  let s := demo_client (demo_conns (demo_conn 9 ip2 5000 80 100 201)) in
  let peer := demo_conn 4 ip1 80 5000 200 10000 in
  ∃ s', tcp_on_data [] ip2 (seg peer TCP_ACK []) (Z.of_nat (length (seg peer TCP_ACK []))) s = Ok (tt, s') ∧
    tcp_send [] 9 [71] (Z.of_nat (length [71])) s' = NoFuel.
Proof.
  intros s peer. apply (tcp_ack_beyond_sent [] s 0 (demo_conn 9 ip2 5000 80 100 201) [] 9 peer [71]); try done.
  - by apply demo_tcp_endpoint.
Defined.
End Connection.
