(* ===== verification/Disasm.v ===== *)
(** * The disassembler of the crash screen ([kernel/debug/disasm.c])

    Memory is a total function from addresses to bytes (the faulting code is
    mapped); text is a [string].  A prefix scan that does not meet an opcode
    within its bound, and an array access outside the array, are outcomes. *)
From S2P Require Import Prelude.
From Stdlib Require Import Ascii String.

Declare Scope disasm_scope.
Notation "s '▷' f" := (f s) (at level 61, left associativity, only parsing) : disasm_scope.
Open Scope string_scope.
Open Scope disasm_scope.
Open Scope Z_scope.

Module Disasm.

(** ** String buffer: the first [n] characters of [d]; 94 fit *)

Definition SB_MAX : nat := 94.

Definition sb_c (c : ascii) (s : string) : string :=
  if (String.length s <? SB_MAX)%nat then s ++ String c "" else s.

Fixpoint sb_s (t : string) (s : string) : string :=
  match t with
  | "" => s
  | String c t' => sb_s t' (sb_c c s)
  end.

Definition hex_digit (v : Z) : ascii :=
  match String.get (Z.to_nat v) "0123456789abcdef" with Some c => c | None => "?"%char end.

(** [while (v) { tmp[i++] = h[v & 0xf]; v >>= 4; }], least significant first;
    sixteen rounds cover a [ulong]. *)
Fixpoint hex_loop (fuel : nat) (v : Z) : list ascii :=
  match fuel with
  | O => []
  | S fuel' => if v =? 0 then [] else hex_digit (Z.land v 0xf) :: hex_loop fuel' (Z.shiftr v 4)
  end.

Definition sb_hex (v : Z) (s : string) : string :=
  let s := sb_s "0x" s in
  if v =? 0 then sb_c "0"%char s
  else fold_left (λ s c, sb_c c s) (rev (hex_loop 16 v)) s.

Definition sb_disp (v : Z) (s : string) : string :=
  if v <? 0 then s ▷ sb_c "-"%char ▷ sb_hex (u32 (- v))
  else s ▷ sb_c "+"%char ▷ sb_hex (u32 v).

(** ** Register names *)

Definition rn64 : list string :=
  ["rax"; "rcx"; "rdx"; "rbx"; "rsp"; "rbp"; "rsi"; "rdi"; "r8"; "r9"; "r10"; "r11"; "r12"; "r13"; "r14"; "r15"].
Definition rn32 : list string :=
  ["eax"; "ecx"; "edx"; "ebx"; "esp"; "ebp"; "esi"; "edi";
   "r8d"; "r9d"; "r10d"; "r11d"; "r12d"; "r13d"; "r14d"; "r15d"].
Definition rn16 : list string :=
  ["ax"; "cx"; "dx"; "bx"; "sp"; "bp"; "si"; "di"; "r8w"; "r9w"; "r10w"; "r11w"; "r12w"; "r13w"; "r14w"; "r15w"].
Definition rn8n : list string :=
  ["al"; "cl"; "dl"; "bl"; "ah"; "ch"; "dh"; "bh"; "r8b"; "r9b"; "r10b"; "r11b"; "r12b"; "r13b"; "r14b"; "r15b"].
Definition rn8r : list string :=
  ["al"; "cl"; "dl"; "bl"; "spl"; "bpl"; "sil"; "dil";
   "r8b"; "r9b"; "r10b"; "r11b"; "r12b"; "r13b"; "r14b"; "r15b"].

Definition pick (l : list string) (i : Z) : string := nth (Z.to_nat i) l "".

Definition regname (idx size : Z) (has_rex : bool) : string :=
  let idx := Z.land idx 15 in
  if size =? 64 then pick rn64 idx
  else if size =? 32 then pick rn32 idx
  else if size =? 16 then pick rn16 idx
  else if has_rex then pick rn8r idx else pick rn8n idx.

(** ** Prefixes *)

Record pfx := mkPfx {
  rex : bool; rex_w : Z; rex_r : Z; rex_x : Z; rex_b : Z; p66 : bool; p67 : bool; len : Z
}.

Definition is_legacy (b : Z) : bool :=
  (b =? 0xF0) || (b =? 0xF2) || (b =? 0xF3) || (b =? 0x26) || (b =? 0x2E) || (b =? 0x36) ||
  (b =? 0x3E) || (b =? 0x64) || (b =? 0x65).
Definition is_rex (b : Z) : bool := (0x40 <=? b) && (b <=? 0x4F).

Section memory.
Context (mem : Z → Z).

(** The byte at an address. *)
Definition at_ (p : Z) : Z := mem (u64 p).

Fixpoint parse_pfx (fuel : nat) (p : Z) (f : pfx) : outcome pfx :=
  match fuel with
  | O => NoFuel
  | S fuel' =>
      let b := at_ (p + len f) in
      if b =? 0x66 then parse_pfx fuel' p (mkPfx (rex f) (rex_w f) (rex_r f) (rex_x f) (rex_b f) true (p67 f) (len f + 1))
      else if b =? 0x67 then parse_pfx fuel' p (mkPfx (rex f) (rex_w f) (rex_r f) (rex_x f) (rex_b f) (p66 f) true (len f + 1))
      else if is_legacy b then
        parse_pfx fuel' p (mkPfx (rex f) (rex_w f) (rex_r f) (rex_x f) (rex_b f) (p66 f) (p67 f) (len f + 1))
      else if is_rex b then
        parse_pfx fuel' p (mkPfx true (Z.land (Z.shiftr b 3) 1) (Z.land (Z.shiftr b 2) 1) (Z.land (Z.shiftr b 1) 1)
          (Z.land b 1) (p66 f) (p67 f) (len f + 1))
      else Ok f
  end.

Definition no_pfx : pfx := mkPfx false 0 0 0 0 false false 0.

Definition nat_size (f : pfx) : Z := if truthy (rex_w f) then 64 else if p66 f then 16 else 32.

(** ** Immediates *)

Definition rd_i8 (p : Z) : Z := let v := at_ p in if v <? 128 then v else v - 256.
Definition rd_u16 (p : Z) : Z := Z.lor (at_ p) (Z.shiftl (at_ (p + 1)) 8).
Definition rd_i16 (p : Z) : Z := let v := rd_u16 p in if v <? 2 ^ 15 then v else v - 2 ^ 16.
Definition rd_i32 (p : Z) : Z :=
  i32 (Z.lor (Z.lor (Z.lor (at_ p) (Z.shiftl (at_ (p + 1)) 8)) (Z.shiftl (at_ (p + 2)) 16)) (Z.shiftl (at_ (p + 3)) 24)).
Definition rd_u64 (p : Z) : Z :=
  fold_left (λ v k, Z.lor v (Z.shiftl (at_ (p + k)) (8 * k))) [1; 2; 3; 4; 5; 6; 7] (at_ p).

(** ** ModRM operands *)

(** [if (d) sb_disp(s, d);] *)
Definition opt_disp (d : Z) (s : string) : string := if truthy d then sb_disp d s else s.

(** The base and index of a SIB byte. *)
Definition fmt_sib (f : pfx) (sib : Z) (nobase : bool) (s : string) : string :=
  let scale := Z.shiftl 1 (Z.land (Z.shiftr sib 6) 3) in
  let idx := Z.lor (Z.land (Z.shiftr sib 3) 7) (Z.shiftl (rex_x f) 3) in
  let base := Z.lor (Z.land sib 7) (Z.shiftl (rex_b f) 3) in
  let s := if nobase then s else sb_s (pick rn64 base) s in
  if negb (Z.land idx 7 =? 4) then
    let s := if nobase then s else sb_c "+"%char s in
    let s := sb_s (pick rn64 idx) s in
    if 1 <? scale then s ▷ sb_c "*"%char ▷ sb_c (ascii_of_nat (Z.to_nat (48 + scale))) else s
  else s.

(** What stands between the brackets, and the bytes consumed with the ModRM byte. *)
Definition fmt_addr (p : Z) (f : pfx) (next_rip : Z) (s : string) : string * Z :=
  let modrm := at_ p in
  let mod_ := Z.land (Z.shiftr modrm 6) 3 in
  let rm := Z.lor (Z.land modrm 7) (Z.shiftl (rex_b f) 3) in
  if Z.land rm 7 =? 4 then
    let sib := at_ (p + 1) in
    let base := Z.lor (Z.land sib 7) (Z.shiftl (rex_b f) 3) in
    let nobase := (mod_ =? 0) && (Z.land base 7 =? 5) in
    let s := fmt_sib f sib nobase s in
    if nobase || (mod_ =? 2) then (opt_disp (rd_i32 (p + 2)) s, 6)
    else if mod_ =? 1 then (opt_disp (rd_i8 (p + 2)) s, 3)
    else (s, 2)
  else if (mod_ =? 0) && (Z.land rm 7 =? 5) then
    let d := rd_i32 (p + 1) in
    let abs_addr := u64 (next_rip + d) in
    (s ▷ sb_s "rip" ▷ opt_disp d ▷ sb_s " {" ▷ sb_hex abs_addr ▷ sb_c "}"%char, 5)
  else
    let s := sb_s (pick rn64 rm) s in
    if mod_ =? 1 then (opt_disp (rd_i8 (p + 1)) s, 2)
    else if mod_ =? 2 then (opt_disp (rd_i32 (p + 1)) s, 5)
    else (s, 1).

Definition fmt_rm (p : Z) (f : pfx) (size next_rip : Z) (s : string) : string * Z :=
  let modrm := at_ p in
  let mod_ := Z.land (Z.shiftr modrm 6) 3 in
  let rm := Z.lor (Z.land modrm 7) (Z.shiftl (rex_b f) 3) in
  if mod_ =? 3 then (sb_s (regname rm size (rex f)) s, 1)
  else
    let s := sb_s (if size =? 8 then "byte [" else if size =? 16 then "word [" else if size =? 32 then "dword [" else "[") s in
    let '(s, consumed) := fmt_addr p f next_rip s in
    (sb_c "]"%char s, consumed).

Definition modrm_reg (modrm : Z) (f : pfx) (size : Z) : string :=
  regname (Z.lor (Z.land (Z.shiftr modrm 3) 7) (Z.shiftl (rex_r f) 3)) size (rex f).
Definition modrm_subop (modrm : Z) : Z := Z.land (Z.shiftr modrm 3) 7.

Definition grp1_nm : list string := ["add"; "or"; "adc"; "sbb"; "and"; "sub"; "xor"; "cmp"].
Definition grp2_nm : list string := ["rol"; "ror"; "rcl"; "rcr"; "shl"; "shr"; "???"; "sar"].
Definition grp3_nm : list string := ["test"; "test"; "not"; "neg"; "mul"; "imul"; "div"; "idiv"].
Definition grp5_nm : list string := ["inc"; "dec"; "call"; "callf"; "jmp"; "jmpf"; "push"; "???"].

(** ** Instruction length *)

Definition M_ : Z := 0x01.
Definition I8 : Z := 0x02.
Definition I16 : Z := 0x04.
Definition IZ : Z := 0x06.

Definition op1f : list Z := [
   1; 1; 1; 1; 2; 6; 0; 0; 1; 1; 1; 1; 2; 6; 0; 0;
   1; 1; 1; 1; 2; 6; 0; 0; 1; 1; 1; 1; 2; 6; 0; 0;
   1; 1; 1; 1; 2; 6; 0; 0; 1; 1; 1; 1; 2; 6; 0; 0;
   1; 1; 1; 1; 2; 6; 0; 0; 1; 1; 1; 1; 2; 6; 0; 0;
   0; 0; 0; 0; 0; 0; 0; 0; 0; 0; 0; 0; 0; 0; 0; 0;
   0; 0; 0; 0; 0; 0; 0; 0; 0; 0; 0; 0; 0; 0; 0; 0;
   0; 0; 1; 1; 0; 0; 0; 0; 6; 7; 2; 3; 0; 0; 0; 0;
   2; 2; 2; 2; 2; 2; 2; 2; 2; 2; 2; 2; 2; 2; 2; 2;
   3; 7; 3; 3; 1; 1; 1; 1; 1; 1; 1; 1; 1; 1; 1; 1;
   0; 0; 0; 0; 0; 0; 0; 0; 0; 0; 0; 0; 0; 0; 0; 0;
   0; 0; 0; 0; 0; 0; 0; 0; 2; 6; 0; 0; 0; 0; 0; 0;
   2; 2; 2; 2; 2; 2; 2; 2; 6; 6; 6; 6; 6; 6; 6; 6;
   3; 3; 4; 0; 0; 0; 3; 7; 0; 0; 4; 0; 2; 2; 0; 0;
   1; 1; 1; 1; 2; 2; 0; 0; 1; 1; 1; 1; 1; 1; 1; 1;
   2; 2; 2; 2; 2; 2; 2; 2; 6; 6; 0; 2; 0; 0; 0; 0;
   0; 0; 0; 0; 0; 0; 1; 1; 0; 0; 0; 0; 0; 0; 1; 1].
Definition op2f : list Z := [
   1; 1; 1; 1; 0; 0; 0; 0; 0; 0; 0; 0; 0; 0; 1; 1;
   1; 1; 1; 1; 1; 1; 1; 1; 1; 1; 1; 1; 1; 1; 1; 1;
   1; 1; 1; 1; 1; 1; 1; 1; 1; 1; 1; 1; 1; 1; 1; 1;
   0; 0; 0; 0; 0; 0; 0; 0; 0; 0; 0; 0; 0; 0; 0; 0;
   1; 1; 1; 1; 1; 1; 1; 1; 1; 1; 1; 1; 1; 1; 1; 1;
   1; 1; 1; 1; 1; 1; 1; 1; 1; 1; 1; 1; 1; 1; 1; 1;
   1; 1; 1; 1; 1; 1; 1; 1; 1; 1; 1; 1; 1; 1; 1; 1;
   3; 3; 3; 3; 1; 1; 1; 1; 1; 1; 1; 1; 1; 1; 1; 1;
   6; 6; 6; 6; 6; 6; 6; 6; 6; 6; 6; 6; 6; 6; 6; 6;
   1; 1; 1; 1; 1; 1; 1; 1; 1; 1; 1; 1; 1; 1; 1; 1;
   0; 0; 0; 1; 3; 1; 0; 0; 0; 0; 0; 1; 3; 1; 1; 1;
   1; 1; 1; 1; 1; 1; 1; 1; 1; 0; 3; 1; 1; 1; 1; 1;
   1; 1; 3; 1; 3; 3; 3; 1; 0; 0; 0; 0; 0; 0; 0; 0;
   1; 1; 1; 1; 1; 1; 1; 1; 1; 1; 1; 1; 1; 1; 1; 1;
   1; 1; 1; 1; 1; 1; 1; 1; 1; 1; 1; 1; 1; 1; 1; 1;
   1; 1; 1; 1; 1; 1; 1; 1; 1; 1; 1; 1; 1; 1; 1; 1].

Definition modrm_extra_len (mrm : Z) : Z :=
  let m := at_ mrm in
  let mod_ := Z.land (Z.shiftr m 6) 3 in
  let rm := Z.land m 7 in
  if mod_ =? 3 then 0
  else
    let extra := if rm =? 4 then 1 + (if (mod_ =? 0) && (Z.land (at_ (mrm + 1)) 7 =? 5) then 4 else 0) else 0 in
    if (mod_ =? 0) && (rm =? 5) then extra + 4
    else if mod_ =? 1 then extra + 1
    else if mod_ =? 2 then extra + 4
    else extra.

(** At most [n] prefixes: the address behind them, REX.W, 66 and 67. *)
Fixpoint skip_prefixes (n : nat) (p rexw : Z) (op66 op67 : bool) : Z * Z * bool * bool :=
  match n with
  | O => (p, rexw, op66, op67)
  | S n' =>
      let b := at_ p in
      if b =? 0x66 then skip_prefixes n' (p + 1) rexw true op67
      else if b =? 0x67 then skip_prefixes n' (p + 1) rexw op66 true
      else if is_legacy b then skip_prefixes n' (p + 1) rexw op66 op67
      else if is_rex b then skip_prefixes n' (p + 1) (Z.land (Z.shiftr b 3) 1) op66 op67
      else (p, rexw, op66, op67)
  end.

(** Operand and immediate after an opcode whose table entry is [flags]. *)
Definition tail_len (p op flags rexw : Z) (op66 : bool) : Z :=
  let p' := if truthy (Z.land flags M_) then p + 1 + modrm_extra_len p else p in
  let kind := Z.land flags 0x06 in
  let imm :=
    if kind =? I8 then 1
    else if kind =? I16 then 2
    else if kind =? IZ then
      if (op =? 0xE8) || (op =? 0xE9) then 4
      else if truthy rexw then (if (0xB8 <=? op) && (op <=? 0xBF) then 8 else 4)
      else if op66 then 2 else 4
    else 0 in
  p' + imm.

Definition x86_len (ip : Z) : Z :=
  let '(p, rexw, op66, op67) := skip_prefixes 15 ip 0 false false in
  let op := at_ p in
  let p := p + 1 in
  let clamp l := if l <? 1 then 1 else l in
  if op =? 0x0F then
    let o2 := at_ p in
    let p := p + 1 in
    if (o2 =? 0x38) || (o2 =? 0x3A) then
      let p := p + 1 in
      let p := p + 1 + modrm_extra_len p in
      (if o2 =? 0x3A then p + 1 else p) - ip
    else clamp (tail_len p op (nth (Z.to_nat o2) op2f 0) rexw op66 - ip)
  else if op =? 0xC4 then
    let p := p + 2 in
    p + 1 + modrm_extra_len p + 1 - ip
  else if op =? 0xC5 then
    let p := p + 1 in
    p + 1 + modrm_extra_len p - ip
  else if op =? 0xC8 then p - ip + 3
  else if (0xA0 <=? op) && (op <=? 0xA3) then p - ip + (if op67 : bool then 4 else 8)
  else if (op =? 0xF6) || (op =? 0xF7) then
    let m := at_ p in
    let p := p + 1 + modrm_extra_len p in
    (if Z.land (Z.shiftr m 3) 7 <=? 1 then p + (if op =? 0xF6 then 1 else if op66 : bool then 2 else 4) else p) - ip
  else clamp (tail_len p op (nth (Z.to_nat op) op1f 0) rexw op66 - ip).

(** ** Formatting *)

Definition jcc : list string :=
  ["jo"; "jno"; "jb"; "jae"; "je"; "jne"; "jbe"; "ja"; "js"; "jns"; "jp"; "jnp"; "jl"; "jge"; "jle"; "jg"].
Definition setcc : list string :=
  ["seto"; "setno"; "setb"; "setae"; "sete"; "setne"; "setbe"; "seta";
   "sets"; "setns"; "setp"; "setnp"; "setl"; "setge"; "setle"; "setg"].
Definition cmov : list string :=
  ["cmovo"; "cmovno"; "cmovb"; "cmovae"; "cmove"; "cmovne"; "cmovbe"; "cmova";
   "cmovs"; "cmovns"; "cmovp"; "cmovnp"; "cmovl"; "cmovge"; "cmovle"; "cmovg"].

(** [fmt_rm] when the bytes it consumed do not matter. *)
Definition rm_text (p : Z) (f : pfx) (size nrip : Z) (s : string) : string := (fmt_rm p f size nrip s).1.

(** Mnemonic, then [reg, r/m] or [r/m, reg]. *)
Definition reg_rm (name : string) (p : Z) (f : pfx) (rsz msz nrip : Z) (s : string) : string :=
  s ▷ sb_s name ▷ sb_s (modrm_reg (at_ p) f rsz) ▷ sb_s ", " ▷ rm_text p f msz nrip.
Definition rm_reg (name : string) (p : Z) (f : pfx) (sz nrip : Z) (s : string) : string :=
  s ▷ sb_s name ▷ rm_text p f sz nrip ▷ sb_s ", " ▷ sb_s (modrm_reg (at_ p) f sz).

(** Opcodes [0F xx]; [p] is behind the second byte. *)
Definition insn_0f (o2 p : Z) (f : pfx) (sz nrip : Z) (s : string) : string :=
  if (0x80 <=? o2) && (o2 <=? 0x8F) then
    s ▷ sb_s (pick jcc (Z.land o2 0xf)) ▷ sb_c " "%char ▷ sb_hex (u64 (nrip + rd_i32 p))
  else if (0x90 <=? o2) && (o2 <=? 0x9F) then
    s ▷ sb_s (pick setcc (Z.land o2 0xf)) ▷ sb_c " "%char ▷ rm_text p f 8 nrip
  else if (0x40 <=? o2) && (o2 <=? 0x4F) then
    s ▷ sb_s (pick cmov (Z.land o2 0xf)) ▷ sb_c " "%char ▷ reg_rm "" p f sz sz nrip
  else if o2 =? 0x05 then sb_s "syscall" s
  else if o2 =? 0x07 then sb_s "sysret" s
  else if o2 =? 0x0B then sb_s "ud2" s
  else if o2 =? 0x31 then sb_s "rdtsc" s
  else if o2 =? 0x34 then sb_s "sysenter" s
  else if o2 =? 0x35 then sb_s "sysexit" s
  else if o2 =? 0xAF then reg_rm "imul " p f sz sz nrip s
  else if o2 =? 0xB6 then reg_rm "movzx " p f sz 8 nrip s
  else if o2 =? 0xB7 then reg_rm "movzx " p f sz 16 nrip s
  else if o2 =? 0xBE then reg_rm "movsx " p f sz 8 nrip s
  else if o2 =? 0xBF then reg_rm "movsx " p f sz 16 nrip s
  else if o2 =? 0xA3 then rm_reg "bt " p f sz nrip s
  else if o2 =? 0xAB then rm_reg "bts " p f sz nrip s
  else if o2 =? 0xBC then reg_rm "bsf " p f sz sz nrip s
  else if o2 =? 0xBD then reg_rm "bsr " p f sz sz nrip s
  else sb_s "0f ??" s.

(** ADD to CMP (00-3D). *)
Definition insn_alu (op p : Z) (f : pfx) (sz nrip : Z) (s : string) : string :=
  let s := s ▷ sb_s (pick grp1_nm (Z.land (Z.shiftr op 3) 7)) ▷ sb_c " "%char in
  let k := Z.land op 7 in
  if k =? 0 then rm_reg "" p f 8 nrip s
  else if k =? 1 then rm_reg "" p f sz nrip s
  else if k =? 2 then reg_rm "" p f 8 8 nrip s
  else if k =? 3 then reg_rm "" p f sz sz nrip s
  else if k =? 4 then s ▷ sb_s "al, " ▷ sb_hex (at_ p)
  else s ▷ sb_s (regname 0 sz false) ▷ sb_s ", " ▷ sb_hex (u32 (rd_i32 p)).

(** Operand [r/m], a comma, and an immediate at the end of the operand. *)
Definition rm_imm (p : Z) (f : pfx) (size nrip : Z) (imm : Z → Z) (s : string) : string :=
  let '(s, c) := fmt_rm p f size nrip s in
  s ▷ sb_s ", " ▷ sb_hex (imm (p + c)).

(** The immediate of 81 and C7. *)
Definition imm_z (f : pfx) (q : Z) : Z :=
  if truthy (rex_w f) then u32 (rd_i32 q) else if p66 f then u16 (rd_i16 q) else u32 (rd_i32 q).

Definition insn_lea (p : Z) (f : pfx) (sz nrip : Z) (s : string) : string :=
  let s := s ▷ sb_s "lea " ▷ sb_s (modrm_reg (at_ p) f sz) ▷ sb_s ", " ▷ sb_c "["%char in
  (fmt_addr p f nrip s).1 ▷ sb_c "]"%char.

(** Shifts: C0, C1 by an immediate, D0, D1 by one, D2, D3 by CL. *)
Definition insn_shift (op p : Z) (f : pfx) (size nrip : Z) (s : string) : string :=
  let s := s ▷ sb_s (pick grp2_nm (modrm_subop (at_ p))) ▷ sb_c " "%char in
  let '(s, c) := fmt_rm p f size nrip s in
  if (op =? 0xC0) || (op =? 0xC1) then s ▷ sb_s ", " ▷ sb_hex (at_ (p + c))
  else if (op =? 0xD0) || (op =? 0xD1) then sb_s ", 1" s
  else sb_s ", cl" s.

Definition insn_grp3 (op p : Z) (f : pfx) (sz nrip : Z) (s : string) : string :=
  let rsz := if op =? 0xF6 then 8 else sz in
  let sub := modrm_subop (at_ p) in
  let s := s ▷ sb_s (pick grp3_nm sub) ▷ sb_c " "%char in
  let '(s, c) := fmt_rm p f rsz nrip s in
  if sub <=? 1 then s ▷ sb_s ", " ▷ sb_hex (if op =? 0xF6 then at_ (p + c) else u32 (rd_i32 (p + c))) else s.

(** One-byte opcodes; [p] is behind the opcode. *)
Definition insn_1 (op p : Z) (f : pfx) (sz nrip : Z) (s : string) : string :=
  let reg := Z.lor (Z.land op 7) (Z.shiftl (rex_b f) 3) in
  if (op <=? 0x3D) && (Z.land op 7 <=? 5) then insn_alu op p f sz nrip s
  else if (0x50 <=? op) && (op <=? 0x5F) then
    s ▷ sb_s (if op <? 0x58 then "push " else "pop ") ▷ sb_s (pick rn64 reg)
  else if op =? 0x63 then reg_rm "movsxd " p f sz 32 nrip s
  else if op =? 0x68 then s ▷ sb_s "push " ▷ sb_hex (u32 (rd_i32 p))
  else if op =? 0x6A then s ▷ sb_s "push " ▷ sb_hex (u8 (rd_i8 p))
  else if op =? 0x69 then
    s ▷ sb_s "imul " ▷ sb_s (modrm_reg (at_ p) f sz) ▷ sb_s ", " ▷ rm_imm p f sz nrip (λ q, u32 (rd_i32 q))
  else if op =? 0x6B then
    s ▷ sb_s "imul " ▷ sb_s (modrm_reg (at_ p) f sz) ▷ sb_s ", " ▷ rm_imm p f sz nrip (λ q, u8 (rd_i8 q))
  else if (0x70 <=? op) && (op <=? 0x7F) then
    s ▷ sb_s (pick jcc (Z.land op 0xf)) ▷ sb_c " "%char ▷ sb_hex (u64 (nrip + rd_i8 p))
  else if (op =? 0x80) || (op =? 0x81) || (op =? 0x83) then
    s ▷ sb_s (pick grp1_nm (modrm_subop (at_ p))) ▷ sb_c " "%char ▷
      rm_imm p f (if op =? 0x80 then 8 else sz) nrip
        (λ q, if (op =? 0x80) || (op =? 0x83) then u8 (rd_i8 q) else imm_z f q)
  else if op =? 0x84 then rm_reg "test " p f 8 nrip s
  else if op =? 0x85 then rm_reg "test " p f sz nrip s
  else if op =? 0x86 then rm_reg "xchg " p f 8 nrip s
  else if op =? 0x87 then rm_reg "xchg " p f sz nrip s
  else if op =? 0x88 then rm_reg "mov " p f 8 nrip s
  else if op =? 0x89 then rm_reg "mov " p f sz nrip s
  else if op =? 0x8A then reg_rm "mov " p f 8 8 nrip s
  else if op =? 0x8B then reg_rm "mov " p f sz sz nrip s
  else if op =? 0x8D then insn_lea p f sz nrip s
  else if op =? 0x8F then s ▷ sb_s "pop " ▷ rm_text p f sz nrip
  else if op =? 0x90 then sb_s "nop" s
  else if (0x91 <=? op) && (op <=? 0x97) then
    s ▷ sb_s "xchg " ▷ sb_s (regname 0 sz false) ▷ sb_s ", " ▷ sb_s (regname reg sz (rex f))
  else if op =? 0x98 then sb_s (if truthy (rex_w f) then "cdqe" else if p66 f then "cbw" else "cwde") s
  else if op =? 0x99 then sb_s (if truthy (rex_w f) then "cqo" else if p66 f then "cwd" else "cdq") s
  else if op =? 0xA8 then s ▷ sb_s "test al, " ▷ sb_hex (at_ p)
  else if op =? 0xA9 then s ▷ sb_s "test " ▷ sb_s (regname 0 sz false) ▷ sb_s ", " ▷ sb_hex (u32 (rd_i32 p))
  else if (0xB0 <=? op) && (op <=? 0xB7) then
    s ▷ sb_s "mov " ▷ sb_s (regname reg 8 (rex f)) ▷ sb_s ", " ▷ sb_hex (at_ p)
  else if (0xB8 <=? op) && (op <=? 0xBF) then
    s ▷ sb_s "mov " ▷ sb_s (regname reg sz (rex f)) ▷ sb_s ", " ▷
      sb_hex (if truthy (rex_w f) then rd_u64 p else if p66 f then u16 (rd_i16 p) else u32 (rd_i32 p))
  else if (op =? 0xC0) || (op =? 0xD0) || (op =? 0xD2) then insn_shift op p f 8 nrip s
  else if (op =? 0xC1) || (op =? 0xD1) || (op =? 0xD3) then insn_shift op p f sz nrip s
  else if op =? 0xC3 then sb_s "ret" s
  else if op =? 0xC2 then s ▷ sb_s "ret " ▷ sb_hex (u16 (rd_i16 p))
  else if op =? 0xC9 then sb_s "leave" s
  else if op =? 0xC6 then s ▷ sb_s "mov " ▷ rm_imm p f 8 nrip at_
  else if op =? 0xC7 then s ▷ sb_s "mov " ▷ rm_imm p f sz nrip (imm_z f)
  else if op =? 0xCC then sb_s "int3" s
  else if op =? 0xCD then s ▷ sb_s "int " ▷ sb_hex (at_ p)
  else if op =? 0xE8 then s ▷ sb_s "call " ▷ sb_hex (u64 (nrip + rd_i32 p))
  else if op =? 0xE9 then s ▷ sb_s "jmp " ▷ sb_hex (u64 (nrip + rd_i32 p))
  else if op =? 0xEB then s ▷ sb_s "jmp " ▷ sb_hex (u64 (nrip + rd_i8 p))
  else if op =? 0xF4 then sb_s "hlt" s
  else if op =? 0xFA then sb_s "cli" s
  else if op =? 0xFB then sb_s "sti" s
  else if op =? 0xFC then sb_s "cld" s
  else if op =? 0xFD then sb_s "std" s
  else if op =? 0xF8 then sb_s "clc" s
  else if op =? 0xF9 then sb_s "stc" s
  else if (op =? 0xF6) || (op =? 0xF7) then insn_grp3 op p f sz nrip s
  else if op =? 0xFE then
    s ▷ sb_s (if modrm_subop (at_ p) =? 0 then "inc " else "dec ") ▷ rm_text p f 8 nrip
  else if op =? 0xFF then
    s ▷ sb_s (pick grp5_nm (modrm_subop (at_ p))) ▷ sb_c " "%char ▷ rm_text p f sz nrip
  else s ▷ sb_s "db 0x" ▷ sb_c (hex_digit (Z.shiftr op 4)) ▷ sb_c (hex_digit (Z.land op 0xf)).

(** The bound of the prefix scan, which the code does not have. *)
Definition PFX_FUEL : nat := 64.

(** The text written to [out] (without its NUL) and the length of the instruction. *)
Definition disasm_insn (ip out_sz : Z) : outcome (string * Z) :=
  match parse_pfx PFX_FUEL ip no_pfx with
  | Ok f =>
      let p := ip + len f in
      let l := x86_len ip in
      let nrip := u64 (ip + l) in
      let sz := nat_size f in
      let op := at_ p in
      let s := if op =? 0x0F then insn_0f (at_ (p + 1)) (p + 2) f sz nrip "" else insn_1 op (p + 1) f sz nrip "" in
      Ok (String.substring 0 (Z.to_nat (out_sz - 1)) s, l)
  | Panic e => Panic e
  | Fault => Fault
  | NoFuel => NoFuel
  end.

(** ** Scanning *)

(** [addrs[i] = v], a [Fault] outside the array. *)
Definition put_addr (addrs : list Z) (i v : Z) : outcome (list Z) :=
  if (0 <=? i) && (i <? Z.of_nat (List.length addrs)) then Ok (<[Z.to_nat i := v]> addrs) else Fault.

(** The array once the oldest of [max] addresses is dropped for [p]. *)
Definition shift_addrs (addrs : list Z) (max p : Z) : outcome (list Z) :=
  let k := Z.to_nat (max - 1) in
  put_addr (take k (drop 1 addrs) ++ drop k addrs)%list (max - 1) p.

Fixpoint collect_loop (fuel : nat) (p end_ : Z) (addrs : list Z) (count max : Z) : outcome (list Z * Z * Z) :=
  if p <? end_ then
    match fuel with
    | O => NoFuel
    | S fuel' =>
        let r := if count <? max then put_addr addrs count p else shift_addrs addrs max p in
        match r with
        | Ok addrs' => collect_loop fuel' (u64 (p + x86_len p)) end_ addrs' (if count <? max then count + 1 else count) max
        | _ => Fault
        end
    end
  else Ok (addrs, count, p).

(** The array after the scan, and the count or -1. *)
Definition collect_before (start rip : Z) (addrs : list Z) (max : Z) : outcome (list Z * Z) :=
  match collect_loop (Z.to_nat (rip - start)) start rip addrs 0 max with
  | Ok (addrs', count, p) => Ok (addrs', if p =? rip then count else -1)
  | Panic e => Panic e
  | Fault => Fault
  | NoFuel => NoFuel
  end.

(** The search for a start from which the instructions end at [rip]. *)
Fixpoint search_back (n : nat) (back rip want : Z) (addrs : list Z) (before_count : Z) : outcome (list Z * Z) :=
  match n with
  | O => Ok (addrs, before_count)
  | S n' =>
      match collect_before (u64 (rip - back)) rip addrs want with
      | Ok (addrs', c) =>
          if before_count <? c then
            if want <=? c then Ok (addrs', c) else search_back n' (back + 1) rip want addrs' c
          else search_back n' (back + 1) rip want addrs' before_count
      | o => o
      end
  end.

(** ** Output *)

Fixpoint hex_fixed (n : nat) (v : Z) : string :=
  match n with
  | O => ""
  | S n' => hex_fixed n' (Z.shiftr v 4) ++ String (hex_digit (Z.land v 0xf)) ""
  end.
Definition print_hex64 (v : Z) : string := hex_fixed 16 v.
Definition print_hex8 (b : Z) : string := hex_fixed 2 b.

Fixpoint dump_bytes (n : nat) (p : Z) : string :=
  match n with
  | O => ""
  | S n' => print_hex8 (at_ p) ++ " " ++ dump_bytes n' (p + 1)
  end.
Fixpoint repeat_str (n : nat) (t : string) : string :=
  match n with O => "" | S n' => t ++ repeat_str n' t end.

(** One line: marker, address, up to eight bytes, text. *)
Definition print_line (mark : string) (addr : Z) (tail : string) : outcome (string * Z) :=
  match disasm_insn addr 96 with
  | Ok (text, ilen) =>
      Ok (mark ++ print_hex64 addr ++ ":  " ++ dump_bytes (Z.to_nat (Z.min ilen 8)) addr ++
          repeat_str (Z.to_nat (8 - ilen)) "   " ++ " " ++ text ++ tail, ilen)
  | Panic e => Panic e
  | Fault => Fault
  | NoFuel => NoFuel
  end.

Definition newline : string := String (ascii_of_nat 10) "".

Fixpoint print_before (addrs : list Z) : outcome string :=
  match addrs with
  | [] => Ok ""
  | a :: addrs' =>
      match print_line "   " a newline, print_before addrs' with
      | Ok (t, _), Ok rest => Ok (t ++ rest)
      | Ok _, o => o
      | Panic e, _ => Panic e
      | Fault, _ => Fault
      | NoFuel, _ => NoFuel
      end
  end.

Fixpoint print_after (n : nat) (p : Z) : outcome string :=
  match n with
  | O => Ok ""
  | S n' =>
      match print_line "   " p newline with
      | Ok (t, ilen) =>
          match print_after n' (u64 (p + ilen)) with
          | Ok rest => Ok (t ++ rest)
          | o => o
          end
      | Panic e => Panic e
      | Fault => Fault
      | NoFuel => NoFuel
      end
  end.

(** What is written to console and serial port; [uninit] is the address array
    before the search. *)
Definition disasm_around (uninit : list Z) (rip n : Z) : outcome string :=
  let want := if n <? 15 then n else 15 in
  match search_back (Z.to_nat (15 * (n + 1))) 1 rip want uninit 0 with
  | Ok (addrs, before_count) =>
      match print_before (take (Z.to_nat before_count) addrs), print_line ">> " rip ("   <-- RIP" ++ newline),
            print_after (Z.to_nat n) (u64 (rip + x86_len rip)) with
      | Ok b, Ok (h, _), Ok a => Ok (newline ++ "--- disasm ---" ++ newline ++ b ++ h ++ a ++ "--------------" ++ newline)
      | Ok _, Ok _, o => o
      | Ok _, Panic e, _ => Panic e
      | Ok _, Fault, _ => Fault
      | Ok _, NoFuel, _ => NoFuel
      | o, _, _ => o
      end
  | Panic e => Panic e
  | Fault => Fault
  | NoFuel => NoFuel
  end.
End memory.

(** ** The string buffer never overflows *)

Definition fits (s : string) : Prop := (String.length s ≤ SB_MAX)%nat.

Create HintDb fits.

Lemma string_length_app (s t : string) : String.length (s ++ t) = (String.length s + String.length t)%nat.
Proof. induction s as [|c s IH]; simpl; [done|by rewrite IH]. Qed.

Lemma sb_c_fits c s : fits s → fits (sb_c c s).
Proof.
  unfold fits, sb_c. destruct (Nat.ltb_spec (String.length s) SB_MAX); [|done].
  rewrite string_length_app. simpl. lia.
Qed.
#[export] Hint Resolve sb_c_fits : fits.

Lemma sb_s_fits t s : fits s → fits (sb_s t s).
Proof. revert s. induction t; simpl; eauto 12 with fits. Qed.
#[export] Hint Resolve sb_s_fits : fits.

Lemma sb_hex_fits v s : fits s → fits (sb_hex v s).
Proof.
  intros H. unfold sb_hex. case_match; [by auto 12 with fits|].
  apply (sb_s_fits "0x") in H. revert H. generalize (sb_s "0x" s).
  induction (rev (hex_loop 16 v)); simpl; auto 12 with fits.
Qed.
#[export] Hint Resolve sb_hex_fits : fits.

Lemma opt_disp_fits d s : fits s → fits (opt_disp d s).
Proof. intros H. unfold opt_disp, sb_disp. repeat case_match; auto 12 with fits. Qed.
#[export] Hint Resolve opt_disp_fits : fits.

Lemma fmt_sib_fits f sib nobase s : fits s → fits (fmt_sib f sib nobase s).
Proof. intros H. unfold fmt_sib. repeat case_match; auto 12 with fits. Qed.
#[export] Hint Resolve fmt_sib_fits : fits.

(** ** Prefixes *)

Lemma substring_length (t : string) n :
  (String.length (String.substring 0 n t) ≤ n)%nat ∧ (String.length (String.substring 0 n t) ≤ String.length t)%nat.
Proof. revert n. induction t as [|c t IH]; intros [|n]; simpl; try lia. destruct (IH n). lia. Qed.

Definition is_prefix (b : Z) : bool := (b =? 0x66) || (b =? 0x67) || is_legacy b || is_rex b.

Section decode.
Context (mem : Z → Z).
Implicit Types (p ip start rip : Z) (f : pfx) (s : string).

Lemma fmt_addr_fits p f nrip s : fits s → fits (fmt_addr mem p f nrip s).1.
Proof. intros H. unfold fmt_addr. repeat case_match; simpl; auto 12 with fits. Qed.
Hint Resolve fmt_addr_fits : fits.

Lemma fmt_rm_fits p f size nrip s : fits s → fits (fmt_rm mem p f size nrip s).1.
Proof.
  intros H. unfold fmt_rm. case_match; simpl; [auto 12 with fits|].
  match goal with |- context [fmt_addr mem p f nrip ?t] =>
    pose proof (fmt_addr_fits p f nrip t) as Ha; destruct (fmt_addr mem p f nrip t) end.
  simpl in *. auto 12 with fits.
Qed.
Hint Resolve fmt_rm_fits : fits.

Lemma rm_text_fits p f size nrip s : fits s → fits (rm_text mem p f size nrip s).
Proof. apply fmt_rm_fits. Qed.
Hint Resolve rm_text_fits : fits.

Lemma reg_rm_fits name p f r m nrip s : fits s → fits (reg_rm mem name p f r m nrip s).
Proof. unfold reg_rm. auto 12 with fits. Qed.
Hint Resolve reg_rm_fits : fits.

Lemma rm_reg_fits name p f sz nrip s : fits s → fits (rm_reg mem name p f sz nrip s).
Proof. unfold rm_reg. auto 12 with fits. Qed.
Hint Resolve rm_reg_fits : fits.

(** Runs [fmt_rm] in the goal, keeping that its text fits. *)
Ltac step_rm :=
  match goal with |- context [fmt_rm mem ?p ?f ?z ?n ?t] =>
    pose proof (fmt_rm_fits p f z n t); destruct (fmt_rm mem p f z n t); simpl in * end.

Lemma rm_imm_fits p f size nrip imm s : fits s → fits (rm_imm mem p f size nrip imm s).
Proof. intros H. unfold rm_imm. step_rm. auto 12 with fits. Qed.
Hint Resolve rm_imm_fits : fits.

Lemma insn_shift_fits op p f size nrip s : fits s → fits (insn_shift mem op p f size nrip s).
Proof. intros H. unfold insn_shift. step_rm. repeat case_match; auto 12 with fits. Qed.
Hint Resolve insn_shift_fits : fits.

Lemma insn_grp3_fits op p f sz nrip s : fits s → fits (insn_grp3 mem op p f sz nrip s).
Proof. intros H. unfold insn_grp3. step_rm. repeat case_match; auto 12 with fits. Qed.
Hint Resolve insn_grp3_fits : fits.

Lemma insn_0f_fits o2 p f sz nrip s : fits s → fits (insn_0f mem o2 p f sz nrip s).
Proof. intros H. unfold insn_0f. repeat case_match; auto 12 with fits. Qed.
Hint Resolve insn_0f_fits : fits.

Lemma insn_alu_fits op p f sz nrip s : fits s → fits (insn_alu mem op p f sz nrip s).
Proof. intros H. unfold insn_alu. repeat case_match; auto 12 with fits. Qed.
Hint Resolve insn_alu_fits : fits.

Lemma insn_lea_fits p f sz nrip s : fits s → fits (insn_lea mem p f sz nrip s).
Proof. intros H. unfold insn_lea. auto 12 with fits. Qed.
Hint Resolve insn_lea_fits : fits.

Lemma insn_1_fits op p f sz nrip s : fits s → fits (insn_1 mem op p f sz nrip s).
Proof.
  intros H. unfold insn_1. cbv zeta.
  repeat (match goal with |- fits (if ?b then _ else _) => destruct b end; [by auto 12 with fits|]).
  auto 12 with fits.
Qed.
Hint Resolve insn_1_fits : fits.

(** ** Operand lengths *)

Lemma land7_reg a b : Z.land (Z.lor (Z.land a 7) (Z.shiftl b 3)) 7 = Z.land a 7.
Proof.
  change 7 with (Z.ones 3). apply Z.bits_inj'. intros n Hn.
  rewrite !Z.land_spec, Z.lor_spec, !Z.land_spec, Z.shiftl_spec by done.
  destruct (decide (n < 3)).
  - rewrite (Z.testbit_neg_r b) by lia. rewrite orb_false_r. by destruct (Z.testbit a n), (Z.testbit (Z.ones 3) n).
  - rewrite Z.ones_spec_high by lia. by rewrite !andb_false_r.
Qed.

Lemma land3_cases a : Z.land a 3 = 0 ∨ Z.land a 3 = 1 ∨ Z.land a 3 = 2 ∨ Z.land a 3 = 3.
Proof.
  change 3 with (Z.ones 2). rewrite Z.land_ones by done.
  pose proof (Z.mod_pos_bound a (2 ^ 2)). change (Z.ones 2) with 3. lia.
Qed.

Lemma fmt_rm_len p f size nrip s : (fmt_rm mem p f size nrip s).2 = 1 + modrm_extra_len mem p.
Proof.
  unfold fmt_rm, fmt_addr, modrm_extra_len. rewrite !land7_reg.
  destruct (land3_cases (Z.shiftr (at_ mem p) 6)) as [E|[E|[E|E]]]; rewrite E; simpl; try done;
    repeat case_match; simplify_eq/=; lia.
Qed.

Lemma modrm_extra_bounds p : 0 ≤ modrm_extra_len mem p ≤ 5.
Proof. unfold modrm_extra_len. repeat case_match; lia. Qed.

Lemma skip_prefixes_bounds n p w a b p' w' a' b' :
  skip_prefixes mem n p w a b = (p', w', a', b') → p ≤ p' ≤ p + Z.of_nat n.
Proof.
  revert p w a b. induction n as [|n IH]; intros p w a b; simpl; [intros ?; simplify_eq; lia|].
  repeat case_match; try (intros Hs%IH; lia). intros ?; simplify_eq; lia.
Qed.

Lemma tail_len_bounds p op flags w a :
  ¬ (0xB8 ≤ op ≤ 0xBF) ∨ Z.land flags M_ = 0 → p ≤ tail_len mem p op flags w a ≤ p + 10.
Proof.
  intros Hop. unfold tail_len, truthy in *. pose proof (modrm_extra_bounds p).
  destruct Hop as [Hop| ->]; simpl; repeat case_match; lia.
Qed.

Lemma op2f_flags n : nth n op2f 0 ∈ [0; 1; 3; 6].
Proof.
  destruct (decide (n < 256)%nat) as [Hn|Hn].
  - assert (Forall (λ v, v ∈ [0; 1; 3; 6]) op2f) as HF by (apply (bool_decide_unpack _); by vm_compute).
    rewrite Forall_forall in HF. apply HF, list_elem_of_In, nth_In. done.
  - rewrite nth_overflow by (simpl; lia). by left.
Qed.

Lemma tail_len_0f p n w a : p ≤ tail_len mem p 0x0F (nth n op2f 0) w a ≤ p + 7.
Proof.
  pose proof (op2f_flags n) as H. pose proof (modrm_extra_bounds p).
  rewrite !elem_of_cons, elem_of_nil in H.
  destruct H as [->|[->|[->|[->|[]]]]]; unfold tail_len; simpl; repeat case_match; lia.
Qed.

Lemma op1f_mov_imm op : 0xB8 ≤ op ≤ 0xBF → nth (Z.to_nat op) op1f 0 = IZ.
Proof.
  intros H. assert (op ∈ [0xB8; 0xB9; 0xBA; 0xBB; 0xBC; 0xBD; 0xBE; 0xBF]) as Hin
    by (rewrite !elem_of_cons; lia).
  rewrite !elem_of_cons, elem_of_nil in Hin.
  by repeat destruct Hin as [->|Hin].
Qed.

Lemma x86_len_bounds ip : 1 ≤ x86_len mem ip ≤ 26.
Proof.
  unfold x86_len. destruct (skip_prefixes mem 15 ip 0 false false) as [[[p w] a] b] eqn:Hs.
  apply skip_prefixes_bounds in Hs. simpl in Hs. cbv zeta.
  pose proof (modrm_extra_bounds (p + 1 + 1 + 1)). pose proof (modrm_extra_bounds (p + 1 + 2)).
  pose proof (modrm_extra_bounds (p + 1 + 1)). pose proof (modrm_extra_bounds (p + 1)).
  destruct (Z.eqb_spec (at_ mem p) 0x0F) as [->|_].
  { pose proof (tail_len_0f (p + 1 + 1) (Z.to_nat (at_ mem (p + 1))) w a). repeat case_match; lia. }
  pose proof (tail_len_bounds (p + 1) (at_ mem p) (nth (Z.to_nat (at_ mem p)) op1f 0) w a) as Ht.
  destruct Ht as [Hlo Hhi].
  { destruct (decide (0xB8 ≤ at_ mem p ≤ 0xBF)) as [H'|]; [right|by left]. by rewrite op1f_mov_imm. }
  repeat case_match; lia.
Qed.

(** The opcode of the instruction at [ip] stands behind [k] prefixes. *)
Definition opcode_at (ip : Z) (k : nat) : Prop :=
  (∀ i, (i < k)%nat → is_prefix (at_ mem (ip + Z.of_nat i)) = true) ∧
  is_prefix (at_ mem (ip + Z.of_nat k)) = false.

Lemma prefixes_agree_from ip k r fuel n f :
  opcode_at ip k → len f = Z.of_nat k - Z.of_nat r → (r ≤ k)%nat → (r < fuel)%nat →
  ∃ f', parse_pfx mem fuel ip f = Ok f' ∧ len f' = Z.of_nat k ∧
    ((r ≤ n)%nat → skip_prefixes mem n (ip + len f) (rex_w f) (p66 f) (p67 f)
      = (ip + Z.of_nat k, rex_w f', p66 f', p67 f')).
Proof.
  intros [Hpre Hop]. revert fuel n f. induction r as [|r IH]; intros [|fuel] n f Hf Hr Hfuel; try lia.
  - replace (len f) with (Z.of_nat k) by lia. exists f.
    unfold is_prefix in Hop. rewrite !orb_false_iff in Hop. destruct Hop as [[[H66 H67] Hl] Hr'].
    simpl. replace (len f) with (Z.of_nat k) by lia. rewrite H66, H67, Hl, Hr'. split_and!; [done|lia|].
    intros _. destruct n; simpl; [done|]. by rewrite H66, H67, Hl, Hr'.
  - assert (is_prefix (at_ mem (ip + len f)) = true) as Hp.
    { replace (len f) with (Z.of_nat (k - S r)) by lia. apply Hpre. lia. }
    assert (∀ f1, len f1 = len f + 1 →
      ∃ f', parse_pfx mem fuel ip f1 = Ok f' ∧ len f' = Z.of_nat k ∧
        ((r ≤ pred n)%nat → skip_prefixes mem (pred n) (ip + len f + 1) (rex_w f1) (p66 f1) (p67 f1)
          = (ip + Z.of_nat k, rex_w f', p66 f', p67 f'))) as Hstep.
    { intros f1 H1. destruct (IH fuel (pred n) f1) as (f' & Hok & Hlen & Hskip); [lia..|].
      exists f'. rewrite <- Z.add_assoc, <- H1. done. }
    unfold is_prefix in Hp. simpl.
    destruct (at_ mem (ip + len f) =? 0x66) eqn:H66; [|destruct (at_ mem (ip + len f) =? 0x67) eqn:H67;
      [|destruct (is_legacy (at_ mem (ip + len f))) eqn:Hl; [|simpl in Hp; rewrite Hp]]];
      (edestruct Hstep as (f' & Hok & Hlen & Hskip); [|exists f'; split; [exact Hok|]; split; [exact Hlen|]];
       [done|]; intros Hn; destruct n as [|n]; [lia|]; simpl in *; rewrite H66, ?H67, ?Hl, ?Hp; apply Hskip; lia).
Qed.

Lemma prefixes_agree ip k :
  opcode_at ip k → (k ≤ 15)%nat →
  ∃ f, parse_pfx mem PFX_FUEL ip no_pfx = Ok f ∧ len f = Z.of_nat k ∧
    skip_prefixes mem 15 ip 0 false false = (ip + Z.of_nat k, rex_w f, p66 f, p67 f).
Proof.
  intros Hop Hk. destruct (prefixes_agree_from ip k k PFX_FUEL 15 no_pfx Hop) as (f & Hok & Hlen & Hs);
    [change (len no_pfx) with 0; lia|lia|unfold PFX_FUEL; lia|].
  exists f. split_and!; [done..|]. change (len no_pfx) with 0 in Hs. rewrite Z.add_0_r in Hs. by apply Hs.
Qed.

(** Bytes of immediate behind a ModRM operand, by the table entry and the
    prefixes the formatter parsed. *)
Definition imm_bytes (flags : Z) (f : pfx) : Z :=
  let kind := Z.land flags 0x06 in
  if kind =? I8 then 1
  else if kind =? I16 then 2
  else if kind =? IZ then (if negb (truthy (rex_w f)) && p66 f then 2 else 4)
  else 0.

Lemma imm_bytes_nonneg flags f : 0 ≤ imm_bytes flags f.
Proof. unfold imm_bytes. repeat case_match; lia. Qed.

(** One-byte opcodes whose length comes from [op1f], with a ModRM byte. *)
Definition plain_modrm (op : Z) : bool :=
  negb ((op =? 0x0F) || (op =? 0xC4) || (op =? 0xC5) || (op =? 0xC8) || (op =? 0xF6) || (op =? 0xF7)) &&
  truthy (Z.land (nth (Z.to_nat op) op1f 0) M_).

(** The opcodes without ModRM among those [x86_len] treats apart. *)
Definition no_modrm_ops : list Z :=
  [0xA0; 0xA1; 0xA2; 0xA3; 0xE8; 0xE9; 0xB8; 0xB9; 0xBA; 0xBB; 0xBC; 0xBD; 0xBE; 0xBF].

Lemma plain_modrm_not op : op ∈ no_modrm_ops → plain_modrm op = false.
Proof.
  unfold no_modrm_ops. intros H. rewrite !elem_of_cons, elem_of_nil in H. by repeat destruct H as [->|H].
Qed.

(** Rewrites the chain of tests of [x86_len] for an opcode with [plain_modrm]. *)
Lemma plain_modrm_tests op :
  plain_modrm op = true →
  (op =? 0x0F) = false ∧ (op =? 0xC4) = false ∧ (op =? 0xC5) = false ∧ (op =? 0xC8) = false ∧
  (0xA0 <=? op) && (op <=? 0xA3) = false ∧ (op =? 0xF6) || (op =? 0xF7) = false ∧
  (op =? 0xE8) || (op =? 0xE9) = false ∧ (0xB8 <=? op) && (op <=? 0xBF) = false ∧
  truthy (Z.land (nth (Z.to_nat op) op1f 0) M_) = true.
Proof.
  intros H. assert (op ∉ no_modrm_ops) as Hn by (intros Hin; by rewrite plain_modrm_not in H).
  unfold plain_modrm in H. apply andb_true_iff in H as [H HM]. apply negb_true_iff in H.
  rewrite !orb_false_iff in H. destruct H as [[[[[H1 H2] H3] H4] H5] H6].
  unfold no_modrm_ops in Hn. rewrite !not_elem_of_cons in Hn.
  split_and!; try done; [apply not_true_iff_false; intros Hc; lia|by rewrite H5, H6| |]; lia.
Qed.

Lemma tail_len_modrm p op flags f size nrip s :
  truthy (Z.land flags M_) = true → (op =? 0xE8) || (op =? 0xE9) = false → (0xB8 <=? op) && (op <=? 0xBF) = false →
  tail_len mem p op flags (rex_w f) (p66 f) = p + (fmt_rm mem p f size nrip s).2 + imm_bytes flags f.
Proof.
  intros HM HE HB. unfold tail_len, imm_bytes. rewrite HM, HE, HB, fmt_rm_len.
  repeat case_match; simplify_eq/=; try lia; by destruct (truthy (rex_w f)), (p66 f).
Qed.

(** ** Scanning *)

(** [l] are the addresses of the instructions from [p] up to [q]. *)
Inductive sweep : Z → list Z → Z → Prop :=
| sweep_done p : sweep p [] p
| sweep_step p l q : sweep (p + x86_len mem p) l q → sweep p (p :: l) q.

Lemma sweep_snoc p l q : sweep p l q → sweep p (l ++ [q])%list (q + x86_len mem q).
Proof. induction 1; simpl; repeat constructor. done. Qed.

Lemma sweep_le p l q : sweep p l q → p ≤ q.
Proof. induction 1 as [|p l q _ IH]; [done|]. pose proof (x86_len_bounds p). lia. Qed.

Lemma sweep_past p l q l' rip : sweep p l q → Forall (λ a, a < rip) l → rip < q → ¬ sweep p l' rip.
Proof.
  intros Hs. revert l'. induction Hs as [p|p l q _ IH]; intros l' Hl Hq Hs'.
  - apply sweep_le in Hs'. lia.
  - inversion Hl as [|?? Hp Hl']; subst. inversion Hs' as [|? l1 ? Hs1]; subst; [lia|]. by eapply IH.
Qed.

(** The [c] latest addresses of [l] stand at the front of [addrs]. *)
Definition window (addrs l : list Z) (c max : nat) : Prop :=
  c = Nat.min (List.length l) max ∧ take c addrs = drop (List.length l - c) l.

Lemma put_addr_ok addrs i v :
  (i < List.length addrs)%nat → put_addr addrs (Z.of_nat i) v = Ok (<[i := v]> addrs).
Proof.
  intros Hi. unfold put_addr. rewrite Nat2Z.id.
  destruct (Z.leb_spec 0 (Z.of_nat i)); [|lia]. by destruct (Z.ltb_spec (Z.of_nat i) (Z.of_nat (List.length addrs))); [|lia].
Qed.

Lemma take_put (l : list Z) i v : (i < List.length l)%nat → take (S i) (<[i := v]> l) = (take i l ++ [v])%list.
Proof.
  intros Hi. erewrite take_S_r by by apply list_lookup_insert_eq. by rewrite take_insert_ge.
Qed.

Lemma window_push addrs l c max p :
  window addrs l c max → (c < max)%nat → (max ≤ List.length addrs)%nat →
  window (<[c := p]> addrs) (l ++ [p])%list (S c) max.
Proof.
  intros [Hc Hw] Hlt Hmax. assert (c = List.length l) as -> by lia.
  split; rewrite length_app; simpl; [lia|].
  rewrite take_put by lia. rewrite Hw. replace (List.length l - List.length l)%nat with 0%nat by lia.
  by replace (List.length l + 1 - S (List.length l))%nat with 0%nat by lia.
Qed.

Lemma window_shift addrs l max p addrs' :
  window addrs l max max → (0 < max ≤ List.length addrs)%nat →
  shift_addrs addrs (Z.of_nat max) p = Ok addrs' →
  window addrs' (l ++ [p])%list max max ∧ List.length addrs' = List.length addrs.
Proof.
  intros [Hc Hw] Hmax. unfold shift_addrs.
  replace (Z.of_nat max - 1) with (Z.of_nat (max - 1)) by lia. rewrite Nat2Z.id.
  assert (List.length (take (max - 1) (drop 1 addrs)) = (max - 1)%nat) as Hlen
    by (rewrite length_take, length_drop; lia).
  assert (List.length (take (max - 1) (drop 1 addrs) ++ drop (max - 1) addrs)%list = List.length addrs) as Hall
    by (rewrite length_app, Hlen, length_drop; lia).
  rewrite put_addr_ok by lia. intros [= <-]. rewrite length_insert. split; [|done].
  split; rewrite length_app; simpl; [lia|].
  replace max with (S (max - 1)) at 1 by lia. rewrite take_put by lia.
  rewrite take_app_le, take_ge by (rewrite ?Hlen; lia).
  rewrite drop_app_le by lia. f_equal.
  rewrite (firstn_skipn_comm (max - 1) 1 addrs). replace (1 + (max - 1))%nat with max by lia.
  rewrite Hw, drop_drop. f_equal. lia.
Qed.

Lemma shift_addrs_ok addrs max p :
  (0 < max ≤ List.length addrs)%nat → ∃ addrs', shift_addrs addrs (Z.of_nat max) p = Ok addrs'.
Proof.
  intros Hmax. unfold shift_addrs. replace (Z.of_nat max - 1) with (Z.of_nat (max - 1)) by lia.
  rewrite put_addr_ok; [eauto|]. rewrite Nat2Z.id, length_app, length_take, !length_drop. lia.
Qed.

Lemma collect_loop_ok fuel start p rip addrs l c max :
  sweep start l p → Forall (λ a, a < rip) l → window addrs l c max →
  0 ≤ p → rip + 26 < 2 ^ 64 → rip - p ≤ Z.of_nat fuel → (0 < max ≤ List.length addrs)%nat →
  ∃ addrs' l' c' p',
    collect_loop mem fuel p rip addrs (Z.of_nat c) (Z.of_nat max) = Ok (addrs', Z.of_nat c', p') ∧
    sweep start l' p' ∧ Forall (λ a, a < rip) l' ∧ window addrs' l' c' max ∧ rip ≤ p' ∧
    List.length addrs' = List.length addrs.
Proof.
  revert p addrs l c. induction fuel as [|fuel IH]; intros p addrs l c Hs Hl Hw Hp Hrip Hfuel Hmax; simpl.
  { rewrite (proj2 (Z.ltb_ge p rip)) by lia. exists addrs, l, c, p. split_and!; try done; lia. }
  destruct (Z.ltb_spec p rip) as [Hlt|Hge]; [|exists addrs, l, c, p; by split_and!].
  pose proof (x86_len_bounds p) as Hlen.
  assert (u64 (p + x86_len mem p) = p + x86_len mem p) as -> by (unfold u64; apply Z.mod_small; lia).
  apply sweep_snoc in Hs.
  assert (Forall (λ a, a < rip) (l ++ [p])%list) as Hl' by (apply Forall_app; auto).
  destruct (Z.ltb_spec (Z.of_nat c) (Z.of_nat max)) as [Hc|Hc].
  - assert (c < List.length addrs)%nat as Hi by lia. rewrite (put_addr_ok _ _ p Hi).
    replace (Z.of_nat c + 1) with (Z.of_nat (S c)) by lia.
    assert (window (<[c := p]> addrs) (l ++ [p])%list (S c) max) as Hw' by (apply window_push; [done|lia..]).
    destruct (IH (p + x86_len mem p) (<[c := p]> addrs) (l ++ [p])%list (S c) Hs Hl' Hw')
      as (addrs' & l' & c' & p' & Hok & Hrest); [lia..|rewrite length_insert; lia|].
    exists addrs', l', c', p'. by rewrite length_insert in Hrest.
  - assert (c = max) as -> by (destruct Hw; lia).
    destruct (shift_addrs_ok addrs max p Hmax) as [addrs1 H1]. rewrite H1.
    destruct (window_shift addrs l max p addrs1 Hw Hmax H1) as [Hw' Hlen'].
    destruct (IH (p + x86_len mem p) addrs1 (l ++ [p])%list max Hs Hl' Hw')
      as (addrs' & l' & c' & p' & Hok & Hrest); [lia..|].
    exists addrs', l', c', p'. by rewrite Hlen' in Hrest.
Qed.

(** The two decoders of an instruction agree. When the opcode stands behind
    at most fifteen prefixes, the formatter's prefix parser and the length decoder
    find the same prefixes, and the bytes the formatter consumes for a ModRM
    operand, with the opcode before and the immediate behind it, are exactly the
    length [x86_len] reports: for one-byte opcodes with a ModRM byte, for
    two-byte opcodes with one, and for the group F6 and F7. *)
Theorem operand_lengths_agree ip k size nrip s :
  opcode_at ip k → (k ≤ 15)%nat →
  ∃ f, parse_pfx mem PFX_FUEL ip no_pfx = Ok f ∧ len f = Z.of_nat k ∧
    let p := ip + len f in
    let op := at_ mem p in
    let o2 := at_ mem (p + 1) in
    let flags2 := nth (Z.to_nat o2) op2f 0 in
    let used q := (fmt_rm mem q f size nrip s).2 in
    (plain_modrm op = true →
      x86_len mem ip = len f + 1 + used (p + 1) + imm_bytes (nth (Z.to_nat op) op1f 0) f) ∧
    (op = 0x0F → o2 ≠ 0x38 → o2 ≠ 0x3A → truthy (Z.land flags2 M_) = true →
      x86_len mem ip = len f + 2 + used (p + 2) + imm_bytes flags2 f) ∧
    (op = 0xF6 ∨ op = 0xF7 →
      x86_len mem ip = len f + 1 + used (p + 1) +
        (if modrm_subop o2 <=? 1 then (if op =? 0xF6 then 1 else if p66 f then 2 else 4) else 0)).
Proof.
  intros Hop Hk. destruct (prefixes_agree ip k Hop Hk) as (f & Hok & Hlen & Hskip).
  exists f. split; [done|]. split; [done|]. cbv zeta. rewrite Hlen.
  unfold x86_len. rewrite Hskip. cbv zeta beta iota.
  remember (ip + Z.of_nat k) as p eqn:Ep. split_and!.
  - intros Hm. destruct (plain_modrm_tests _ Hm) as (E1 & E2 & E3 & E4 & E5 & E6 & E7 & E8 & HM).
    rewrite E1, E2, E3, E4, E5, E6. rewrite (tail_len_modrm _ _ _ f size nrip s HM E7 E8), fmt_rm_len.
    pose proof (modrm_extra_bounds (p + 1)). pose proof (imm_bytes_nonneg (nth (Z.to_nat (at_ mem p)) op1f 0) f).
    case_match; lia.
  - intros E0 N38 N3A HM. rewrite E0. change (15 =? 15) with true. cbv iota.
    rewrite (proj2 (Z.eqb_neq _ 0x38)), (proj2 (Z.eqb_neq _ 0x3A)) by done. cbn [orb].
    rewrite (tail_len_modrm _ 15 _ f size nrip s HM), !fmt_rm_len by done.
    replace (p + 1 + 1) with (p + 2) by lia. pose proof (modrm_extra_bounds (p + 2)).
    pose proof (imm_bytes_nonneg (nth (Z.to_nat (at_ mem (p + 1))) op2f 0) f). case_match; lia.
  - intros Hg. rewrite fmt_rm_len. unfold modrm_subop.
    destruct Hg as [Hg|Hg]; rewrite Hg; cbn [Z.eqb Z.leb andb orb Pos.eqb Z.compare Pos.compare Pos.compare_cont];
      repeat case_match; lia.
Qed.

(** The text of an instruction always fits its buffers. For any bytes whose
    opcode stands behind fewer than sixty-four prefixes the formatter returns, with a
    length between one and twenty-six bytes, and a text of at most
    ninety-four characters cut to the caller's size less the NUL. *)
Theorem disasm_insn_fits ip out_sz k :
  opcode_at ip k → (k < PFX_FUEL)%nat → 1 ≤ out_sz →
  ∃ t, disasm_insn mem ip out_sz = Ok (t, x86_len mem ip) ∧ 1 ≤ x86_len mem ip ≤ 26 ∧
    Z.of_nat (String.length t) < out_sz ∧ fits t.
Proof.
  intros Hop Hk Hsz. destruct (prefixes_agree_from ip k k PFX_FUEL 15 no_pfx Hop) as (f & Hok & Hlen & _);
    [change (len no_pfx) with 0; lia|lia|done|].
  unfold disasm_insn. rewrite Hok. eexists. split; [reflexivity|]. split; [apply x86_len_bounds|].
  assert (fits "") as H0 by (unfold fits; simpl; lia).
  match goal with |- context [String.substring 0 ?n ?t] =>
    assert (fits t) as Ht by (case_match; auto with fits); destruct (substring_length t n) as [Hl1 Hl2] end.
  unfold fits in *. split; lia.
Qed.

(** C37: the backward scan terminates and is exact. From any start at or
    below the instruction pointer the scan ends within one round per byte, in
    bounds of the address array; it reports a count exactly when decoding from
    the start meets the instruction pointer, and the array then begins with
    the latest of the addresses decoded, in order. *)
Theorem collect_before_exact start rip addrs max :
  0 ≤ start ≤ rip → rip + 26 < 2 ^ 64 → (0 < max ≤ List.length addrs)%nat →
  ∃ addrs' c, collect_before mem start rip addrs (Z.of_nat max) = Ok (addrs', c) ∧
    List.length addrs' = List.length addrs ∧
    ((∃ l, sweep start l rip ∧ c = Z.of_nat (Nat.min (List.length l) max) ∧
        take (Z.to_nat c) addrs' = drop (List.length l - Z.to_nat c) l) ∨
     (c = -1 ∧ ∀ l, ¬ sweep start l rip)).
Proof.
  intros Hstart Hrip Hmax.
  destruct (collect_loop_ok (Z.to_nat (rip - start)) start start rip addrs [] 0 max)
    as (addrs' & l & c & p & Hok & Hs & Hl & [Hc Hw] & Hp & Hlen);
    [constructor|constructor|split; [done|by destruct addrs]|lia..|].
  unfold collect_before. change 0 with (Z.of_nat 0) at 1. rewrite Hok.
  exists addrs'. destruct (Z.eqb_spec p rip) as [->|Hne].
  - exists (Z.of_nat c). split_and!; [done..|]. left. exists l. rewrite Nat2Z.id. by rewrite <- Hc.
  - exists (-1). split_and!; [done..|]. right. split; [done|]. intros l'. eapply sweep_past; [done..|lia].
Qed.
End decode.

(** ** Examples *)

(** Memory of no-operations but for [code] at [base]. *)
Definition code_at (base : Z) (code : list Z) (a : Z) : Z :=
  if base <=? a then nth (Z.to_nat (a - base)) code 0x90 else 0x90.

Definition demo_rip : Z := 0xffffffff80101000.

(** [add word [rax+0x10], 0x1234]. *)
Definition demo_add : Z → Z := code_at demo_rip [0x66; 0x81; 0x40; 0x10; 0x34; 0x12].

Lemma demo_add_opcode : opcode_at demo_add demo_rip 1.
Proof.
  split; [|by vm_compute]. intros i Hi. assert (i = 0%nat) as -> by lia. by vm_compute.
Qed.

Lemma operand_lengths_agree_witness :
  ∃ f, parse_pfx demo_add PFX_FUEL demo_rip no_pfx = Ok f ∧
    x86_len demo_add demo_rip = 1 + 1 + (fmt_rm demo_add (demo_rip + 1 + 1) f 16 0 "").2 + imm_bytes 7 f.
Proof.
  destruct (operand_lengths_agree demo_add demo_rip 1 16 0 "" demo_add_opcode (le_S_n 1 15 ltac:(lia)))
    as (f & Hok & Hlen & Hplain & _).
  exists f. split; [exact Hok|]. cbv zeta in Hplain. rewrite Hlen in Hplain. apply Hplain. by vm_compute.
Defined.

Lemma disasm_insn_fits_witness :
  ∃ t, disasm_insn demo_add demo_rip 96 = Ok (t, x86_len demo_add demo_rip) ∧ fits t.
Proof.
  destruct (disasm_insn_fits demo_add demo_rip 96 1 demo_add_opcode) as (t & Hok & _ & _ & Ht);
    [unfold PFX_FUEL; lia|lia|]. exists t. split; [exact Hok|exact Ht].
Defined.

Lemma collect_before_exact_witness :
  ∃ addrs c, collect_before demo_add demo_rip (demo_rip + 7) (replicate 16 0) (Z.of_nat 5) = Ok (addrs, c) ∧
    List.length addrs = 16%nat ∧ c = 2.
Proof.
  destruct (collect_before_exact demo_add demo_rip (demo_rip + 7) (replicate 16 0) 5)
    as (addrs & c & Hok & Hlen & _); [by vm_compute|by vm_compute|simpl; lia|].
  exists addrs, c. split; [exact Hok|]. split; [exact Hlen|]. vm_compute in Hok. congruence.
Defined.

(** A call whose last byte is not decoded as part of it: only the scan from
    one byte back meets [demo_rip]. *)
Definition demo_split : Z → Z := code_at (demo_rip - 4) [0xE8; 0xE8; 0xE8; 0x90].

(** A scan that fails still overwrites the addresses of one that
    succeeded. Five lines of context are asked for; among the ninety starts only the scan
    from one byte back reaches the instruction pointer, and it finds
    one instruction. The search keeps its count, but the array it returns
    begins with the address eight bytes back, left by the last failed scan, and decoding
    from there does not meet the instruction pointer. *)
Theorem disasm_stale_address :
  (∀ back, 1 ≤ back ≤ 90 → ∃ addrs,
     collect_before demo_split (demo_rip - back) demo_rip (replicate 16 0) 5 = Ok (addrs, if back =? 1 then 1 else -1)) ∧
  ∃ addrs, search_back demo_split 90 1 demo_rip 5 (replicate 16 0) 0 = Ok (addrs, 1) ∧
    addrs !! 0%nat = Some (demo_rip - 8) ∧
    ∃ addrs', collect_before demo_split (demo_rip - 8) demo_rip (replicate 16 0) 5 = Ok (addrs', -1).
Proof.
  split.
  - intros back Hb. set (c := λ b, match collect_before demo_split (demo_rip - b) demo_rip (replicate 16 0) 5 with
      | Ok (_, c) => c =? (if b =? 1 then 1 else -1) | _ => false end).
    assert (Forall (λ b, c b = true) (seqZ 1 90)) as Hall by (apply (bool_decide_unpack _); by vm_compute).
    rewrite Forall_forall in Hall. specialize (Hall back (proj2 (elem_of_seqZ 1 90 back) ltac:(lia))).
    unfold c in Hall. clear c. destruct (collect_before _ _ _ _ _) as [[addrs n]| | |]; try done.
    exists addrs. apply Z.eqb_eq in Hall. by subst.
  - eexists. split; [by vm_compute|]. split; [by vm_compute|]. eexists. by vm_compute.
Qed.

(** A 16-bit immediate is printed with two bytes of the next instructions. *)
Lemma disasm_imm16_overread :
  disasm_insn (code_at demo_rip [0x66; 0xA9; 0x34; 0x12]) demo_rip 96 = Ok ("test ax, 0x90901234", 4).
Proof. by vm_compute. Qed.

End Disasm.
