(* ===== verification/Ports.v ===== *)
(** * Port input and output ([kernel/io/io.c])

    The processor's [in] and [out] instructions act on the devices of the
    machine, which are not part of the kernel: [D] is their state, and a
    [Ports] instance says how it answers.  The drivers are written against the
    class; a theorem about a driver names the device it talks to. *)
From S2P Require Import Prelude.

Class Ports (D : Type) := {
  port_in : Z → Z → D → Z * D;       (* width in bytes, port *)
  port_out : Z → Z → Z → D → D       (* width in bytes, port, value *)
}.

Section io.
Context {D : Type} `{!Ports D}.

Definition port_read (width port : Z) : M D Z := λ d, Ok (port_in width (u16 port) d).
Definition port_write (width port value : Z) : M D unit := λ d, Ok (tt, port_out width (u16 port) value d).

Definition inb (port : Z) : M D Z := v ← port_read 1 port; mret (u8 v).
Definition outb (port value : Z) : M D unit := port_write 1 port (u8 value).
Definition inw (port : Z) : M D Z := v ← port_read 2 port; mret (u16 v).
Definition outw (port value : Z) : M D unit := port_write 2 port (u16 value).
Definition inl (port : Z) : M D Z := v ← port_read 4 port; mret (u32 v).
Definition outl (port value : Z) : M D unit := port_write 4 port (u32 value).
Definition io_wait : M D unit := outb 0x80 0.
End io.
