(* ===== verification/Moves.v ===== *)
(** * Monotone moves over a stream

    The decoders of the kernel walk a byte stream with a position that grows.
    [rel] says what one operation may do to the state, [guard] that the
    operation returns and does so; both compose. *)
From S2P Require Import Prelude.

Section moves.
Context {S : Type} (pos : S → Z) (inv : S → S → Prop) `{!PreOrder inv} (top : Z).

(** From [s] to [s'] the position grows, up to [k] behind [e]. *)
Definition rel (e k : Z) (s s' : S) : Prop := inv s s' ∧ pos s ≤ pos s' ≤ Z.max (pos s) (e + k).

Definition guard {A} (lo e k : Z) (m : M S A) : Prop :=
  ∀ s, lo ≤ pos s ≤ top → wp m (λ _, rel e k s) never s.

Lemma rel_refl e k s : rel e k s s.
Proof. split; [reflexivity|lia]. Qed.

Lemma rel_trans e k s1 s2 s3 : 0 ≤ k → rel e k s1 s2 → rel e k s2 s3 → rel e k s1 s3.
Proof. intros Hk [H1 H2] [H3 H4]. split; [by transitivity s2|lia]. Qed.

Lemma rel_mono e k k' s s' : k ≤ k' → rel e k s s' → rel e k' s s'.
Proof. intros Hk [H1 H2]. split; [done|lia]. Qed.

Lemma guard_ret {A} lo e k (a : A) : guard lo e k (mret a).
Proof. intros s _. apply wp_ret, rel_refl. Qed.

Lemma guard_gets {A} lo e k (f : S → A) : guard lo e k (gets f).
Proof. intros s _. eapply wp_ok; [done|apply rel_refl]. Qed.

Lemma guard_bind {A B} lo e k (m : M S A) (f : A → M S B) :
  0 ≤ k → e + k ≤ top → guard lo e k m → (∀ a, guard lo e k (f a)) → guard lo e k (m ≫= f).
Proof.
  intros Hk He Hm Hf s Hs. apply wp_bind. eapply wp_mono; [by apply Hm| |done].
  intros a s1 H1. assert (lo ≤ pos s1 ≤ top) as Hs1 by (destruct H1; lia).
  eapply wp_mono; [by apply Hf| |done]. intros b s2 H2.
  apply (rel_trans e k s s1 s2); [lia|exact H1|exact H2].
Qed.

Lemma guard_mono {A} lo lo' e k k' (m : M S A) :
  lo ≤ lo' → k ≤ k' → guard lo e k m → guard lo' e k' m.
Proof.
  intros Hlo Hk Hm s Hs. eapply wp_mono; [apply Hm; lia| |done]. intros a s'. by apply rel_mono.
Qed.

(** Running a guarded operation inside a larger one. *)
Lemma wp_guard {A B} lo e k (m : M S A) (f : A → M S B) s (Q : B → S → Prop) :
  guard lo e k m → lo ≤ pos s ≤ top →
  (∀ a s', rel e k s s' → wp (f a) Q never s') → wp (m ≫= f) Q never s.
Proof. intros Hm Hs Hf. apply wp_bind. eapply wp_mono; [by apply Hm|done|done]. Qed.
End moves.

(** [lor] and shifted bytes stay below a power of two. *)
Lemma lor_bound a b n : 0 ≤ n → 0 ≤ a < 2 ^ n → 0 ≤ b < 2 ^ n → 0 ≤ Z.lor a b < 2 ^ n.
Proof.
  intros Hn Ha Hb. split; [apply Z.lor_nonneg; lia|].
  destruct (decide (Z.lor a b = 0)) as [->|Hne]; [lia|].
  apply Z.log2_lt_pow2; [pose proof (proj2 (Z.lor_nonneg a b) ltac:(lia)); lia|].
  rewrite Z.log2_lor by lia. apply Z.max_lub_lt.
  - destruct (decide (a = 0)) as [->|]; [|apply Z.log2_lt_pow2; lia].
    simpl. destruct (decide (n = 0)) as [->|]; [|lia]. assert (b = 0) by lia. by subst.
  - destruct (decide (b = 0)) as [->|]; [|apply Z.log2_lt_pow2; lia].
    simpl. destruct (decide (n = 0)) as [->|]; [|lia]. assert (a = 0) by lia. by subst.
Qed.

Definition is_byte (b : Z) : Prop := 0 ≤ b < 256.
#[export] Instance is_byte_dec b : Decision (is_byte b).
Proof. unfold is_byte. apply _. Defined.

Lemma shifted_byte b i : is_byte b → 0 ≤ i ≤ 2 → 0 ≤ u32 (Z.shiftl b (4 + 8 * i)) < 2 ^ 28.
Proof.
  intros Hb Hi. unfold is_byte in Hb. rewrite Z.shiftl_mul_pow2 by lia.
  assert (i = 0 ∨ i = 1 ∨ i = 2) as [-> | [-> | ->]] by lia; simpl; rewrite u32_small; lia.
Qed.

Lemma land_small b m : 0 ≤ m → 0 ≤ Z.land b (Z.ones m) < 2 ^ m.
Proof. intros Hm. rewrite Z.land_ones by done. apply Z.mod_pos_bound. lia. Qed.
