(* ===== verification/Aml.v ===== *)
(** * The ACPI machine-language scanner and evaluator ([kernel/acpi/aml.c])

    A table is a list of bytes.  The scanner keeps a position and the global
    tables of embedded-controller fields and batteries; a pointer into a table
    is the list of bytes from it on.  Reading a byte outside the table is a
    [Fault].  The embedded controller is the function [ec_read], over the state of
    the machine's devices. *)
From S2P Require Import Prelude.

Module Aml.

(** ** Opcodes *)

Definition AML_ZERO := 0x00.
Definition AML_ONE := 0x01.
Definition AML_ONES := 0xFF.
Definition AML_NAME := 0x08.
Definition AML_BYTE := 0x0A.
Definition AML_WORD := 0x0B.
Definition AML_DWORD := 0x0C.
Definition AML_STRING := 0x0D.
Definition AML_QWORD := 0x0E.
Definition AML_SCOPE := 0x10.
Definition AML_BUFFER := 0x11.
Definition AML_PACKAGE := 0x12.
Definition AML_VARPACKAGE := 0x13.
Definition AML_METHOD := 0x14.
Definition AML_DUAL_NAME := 0x2E.
Definition AML_MULTI_NAME := 0x2F.
Definition AML_ROOT_CHAR := 0x5C.
Definition AML_PARENT_CHAR := 0x5E.
Definition AML_EXT_PREFIX := 0x5B.
Definition AML_EXT_MUTEX := 0x01.
Definition AML_EXT_EVENT := 0x02.
Definition AML_EXT_OPREGION := 0x80.
Definition AML_EXT_FIELD := 0x81.
Definition AML_EXT_DEVICE := 0x82.
Definition AML_EXT_PROCESSOR := 0x83.
Definition AML_EXT_POWER := 0x84.
Definition AML_EXT_THERMAL := 0x85.
Definition AML_EXT_IDXFIELD := 0x86.
Definition AML_EXT_BANKFIELD := 0x87.
Definition AML_LOCAL0 := 0x60.
Definition AML_LOCAL7 := 0x67.
Definition AML_ARG0 := 0x68.
Definition AML_ARG5 := 0x6D.
Definition AML_STORE := 0x70.
Definition AML_ADD := 0x72.
Definition AML_CONCAT := 0x73.
Definition AML_SUBTRACT := 0x74.
Definition AML_INC := 0x75.
Definition AML_DEC := 0x76.
Definition AML_MULTIPLY := 0x77.
Definition AML_DIVIDE := 0x78.
Definition AML_SHIFTL := 0x79.
Definition AML_SHIFTR := 0x7A.
Definition AML_AND := 0x7B.
Definition AML_NAND := 0x7C.
Definition AML_OR := 0x7D.
Definition AML_NOR := 0x7E.
Definition AML_XOR := 0x7F.
Definition AML_NOT := 0x80.
Definition AML_DEREFOF := 0x83.
Definition AML_SIZEOF := 0x87.
Definition AML_INDEX := 0x88.
Definition AML_LAND := 0x90.
Definition AML_LOR := 0x91.
Definition AML_LNOT := 0x92.
Definition AML_LEQ := 0x93.
Definition AML_LGT := 0x94.
Definition AML_LLT := 0x95.
Definition AML_TOINT := 0x99.
Definition AML_IF := 0xA0.
Definition AML_ELSE := 0xA1.
Definition AML_WHILE := 0xA2.
Definition AML_NOOP := 0xA3.
Definition AML_RETURN := 0xA4.
Definition AML_BREAK := 0xA5.

(** A [switch] with several labels. *)
Definition case (op : Z) (labels : list Z) : bool := existsb (Z.eqb op) labels.

(** [(b >= 'A' && b <= 'Z') || b == '_'] *)
Definition lead_char (b : Z) : bool := ((65 <=? b) && (b <=? 90)) || (b =? 95).

(** ** Global tables *)

Definition MAX_EC_FIELDS : Z := 128.
Definition MAX_BATTERIES : Z := 4.

Record ec_field := mkField { f_name : list Z; bit_offset : Z; bit_width : Z }.

Record battery_dev := mkBattery {
  present : bool; bst_aml : option (list Z); bst_len : Z; bif_aml : option (list Z); bif_len : Z
}.

(** [g_ec_fields] up to [g_ec_field_count], [g_batteries] and [g_battery_count]. *)
Record aml := mkAml { g_ec_fields : list ec_field; g_batteries : list battery_dev; g_battery_count : Z }.

Definition no_battery : battery_dev := mkBattery false None 0 None 0.
Definition aml_boot : aml := mkAml [] (replicate 4 no_battery) 0.

Definition aml_battery_count (g : aml) : Z := g_battery_count g.

Definition find_ec_field (g : aml) (name : list Z) : option ec_field :=
  List.find (λ f, bool_decide (take 4 (f_name f) = take 4 name)) (g_ec_fields g).

(** ** The scanner's stream *)

Record scan := mkScan { pos : Z; glob : aml }.

Definition set_pos (p : Z) : M scan unit := modify (λ s, mkScan p (glob s)).
Definition advance (n : Z) : M scan unit := modify (λ s, mkScan (u32 (pos s + n)) (glob s)).
Definition set_glob (f : aml → aml) : M scan unit := modify (λ s, mkScan (pos s) (f (glob s))).

Section scanner.
Context (data : list Z).

Definition byte_at (p : Z) : M scan Z := of_option (if 0 <=? p then data !! Z.to_nat p else None).

Definition sc_peek (end_ : Z) : M scan Z :=
  p ← gets pos; if p <? end_ then byte_at p else mret 0.

Definition sc_read (end_ : Z) : M scan Z :=
  p ← gets pos;
  if p <? end_ then b ← byte_at p; advance 1 ;; mret b else mret 0.

(** [for (i < n && pos < lim) len |= sc_read(s) << (4 + 8 * i);] *)
Fixpoint pkglen_bytes (n : nat) (i len lim end_ : Z) : M scan Z :=
  match n with
  | O => mret len
  | S n' =>
      p ← gets pos;
      if p <? lim then
        b ← sc_read end_; pkglen_bytes n' (i + 1) (Z.lor len (u32 (Z.shiftl b (4 + 8 * i)))) lim end_
      else mret len
  end.

(** The value of a PkgLength whose first byte is [b0]. *)
Definition pkglen_rest (b0 lim end_ : Z) : M scan Z :=
  let n := Z.land (Z.shiftr b0 6) 3 in
  if n =? 0 then mret (Z.land b0 0x3F) else pkglen_bytes (Z.to_nat n) 0 (Z.land b0 0x0F) lim end_.

Definition sc_pkglen (end_ : Z) : M scan Z :=
  start ← gets pos;
  if end_ <=? start then mret start
  else b0 ← sc_read end_; len ← pkglen_rest b0 end_ end_; mret (u32 (start + len)).

Fixpoint nameseg_chars (n : nat) (end_ : Z) : M scan (list Z) :=
  match n with
  | O => mret []
  | S n' =>
      p ← gets pos;
      c ← (if p <? end_ then sc_read end_ else mret 95);
      cs ← nameseg_chars n' end_; mret (c :: cs)
  end.
Definition sc_nameseg (end_ : Z) : M scan (list Z) := nameseg_chars 4 end_.

(** Skip root and parent characters. *)
Fixpoint skip_roots (fuel : nat) (end_ : Z) : M scan unit :=
  match fuel with
  | O => no_fuel
  | S fuel' =>
      p ← gets pos; b ← sc_peek end_;
      if (p <? end_) && ((b =? AML_ROOT_CHAR) || (b =? AML_PARENT_CHAR)) then sc_read end_ ;; skip_roots fuel' end_
      else mret tt
  end.

(** The segments of a MultiName: the last of [count] is kept. *)
Fixpoint multi_name (n : nat) (seg : list Z) (end_ : Z) : M scan (list Z) :=
  match n with
  | O => mret seg
  | S n' =>
      p ← gets pos;
      if u32 (p + 4) <=? end_ then
        cs ← sc_nameseg end_; multi_name n' (if (n' =? 0)%nat then cs else seg) end_
      else mret seg
  end.

(** Bound of the loops over the stream: each round takes a byte. *)
Definition FUEL : nat := S (length data).

(** The name behind the root and parent characters. *)
Definition sc_name (end_ : Z) : M scan (list Z) :=
  p ← gets pos;
  if end_ <=? p then mret [0; 0; 0; 0]
  else
    b ← sc_peek end_;
    if b =? 0 then sc_read end_ ;; mret [0; 0; 0; 0]
    else if b =? AML_DUAL_NAME then sc_read end_ ;; sc_nameseg end_ ;; sc_nameseg end_
    else if b =? AML_MULTI_NAME then
      sc_read end_ ;; count ← sc_read end_; multi_name (Z.to_nat count) [0; 0; 0; 0] end_
    else if lead_char b then sc_nameseg end_
    else mret [0; 0; 0; 0].
Definition sc_namestring (end_ : Z) : M scan (list Z) := skip_roots FUEL end_ ;; sc_name end_.

(** [while (pos < end && data[pos]) pos++; if (pos < end) pos++;] *)
Fixpoint skip_string (fuel : nat) (end_ : Z) : M scan unit :=
  match fuel with
  | O => no_fuel
  | S fuel' =>
      p ← gets pos;
      if p <? end_ then
        b ← byte_at p; advance 1 ;; if b =? 0 then mret tt else skip_string fuel' end_
      else mret tt
  end.

(** Jump behind a PkgLength block. *)
Definition skip_pkg (end_ : Z) : M scan unit :=
  e ← sc_pkglen end_; set_pos (if e <? end_ then e else end_).

(** The extended opcodes of [sc_skip_term]; [arg] skips a TermArg. *)
Definition skip_ext (arg : M scan unit) (end_ : Z) : M scan unit :=
  p ← gets pos;
  if end_ <=? p then mret tt
  else
    extop ← sc_read end_;
    if extop =? AML_EXT_MUTEX then sc_namestring end_ ;; advance 1
    else if extop =? AML_EXT_EVENT then sc_namestring end_ ;; mret tt
    else if extop =? AML_EXT_OPREGION then sc_namestring end_ ;; advance 1 ;; arg ;; arg
    else if case extop [AML_EXT_FIELD; AML_EXT_DEVICE; AML_EXT_PROCESSOR; AML_EXT_POWER; AML_EXT_THERMAL;
                        AML_EXT_IDXFIELD; AML_EXT_BANKFIELD] then skip_pkg end_
    else mret tt.

(** What follows opcode [op] in [sc_skip_term]. *)
Definition skip_op (arg : M scan unit) (op end_ : Z) : M scan unit :=
  if case op [AML_ZERO; AML_ONE; AML_ONES; AML_NOOP; AML_BREAK] then mret tt
  else if op =? AML_BYTE then advance 1
  else if op =? AML_WORD then advance 2
  else if op =? AML_DWORD then advance 4
  else if op =? AML_QWORD then advance 8
  else if op =? AML_STRING then skip_string FUEL end_
  else if (AML_LOCAL0 <=? op) && (op <=? AML_ARG5) then mret tt
  else if case op [AML_SCOPE; AML_BUFFER; AML_PACKAGE; AML_VARPACKAGE; AML_METHOD; AML_IF; AML_ELSE; AML_WHILE]
    then skip_pkg end_
  else if op =? AML_NAME then sc_namestring end_ ;; arg
  else if op =? AML_STORE then arg ;; arg
  else if case op [AML_INC; AML_DEC; AML_NOT; AML_LNOT; AML_DEREFOF; AML_SIZEOF] then arg
  else if case op [AML_ADD; AML_SUBTRACT; AML_MULTIPLY; AML_SHIFTL; AML_SHIFTR; AML_AND; AML_NAND; AML_OR; AML_NOR;
                   AML_XOR; AML_CONCAT; AML_LEQ; AML_LGT; AML_LLT; AML_LAND; AML_LOR; AML_INDEX] then arg ;; arg ;; arg
  else if op =? AML_DIVIDE then arg ;; arg ;; arg ;; arg
  else if case op [AML_RETURN; AML_TOINT] then arg
  else if op =? AML_EXT_PREFIX then skip_ext arg end_
  else if case op [AML_ROOT_CHAR; AML_PARENT_CHAR] then advance (-1) ;; sc_namestring end_ ;; mret tt
  else if lead_char op then advance 3
  else mret tt.

Fixpoint sc_skip_term (fuel : nat) (end_ : Z) : M scan unit :=
  p ← gets pos;
  if end_ <=? p then mret tt
  else
    match fuel with
    | O => no_fuel
    | S fuel' => op ← sc_read end_; skip_op (sc_skip_term fuel' end_) op end_
    end.

(** ** The field list of a FieldOp *)

Definition add_field (f : ec_field) : M scan unit :=
  set_glob (λ g, if Z.of_nat (length (g_ec_fields g)) <? MAX_EC_FIELDS
                 then mkAml (g_ec_fields g ++ [f]) (g_batteries g) (g_battery_count g) else g).

Fixpoint sc_parse_field_list (fuel : nat) (lim ec_bit_base end_ : Z) : M scan unit :=
  p ← gets pos;
  if p <? lim then
    match fuel with
    | O => no_fuel
    | S fuel' =>
        b ← sc_peek end_;
        if b =? 0 then
          sc_read end_ ;; pb ← sc_read end_; bits ← pkglen_rest pb lim end_;
          sc_parse_field_list fuel' lim (u32 (ec_bit_base + bits)) end_
        else if b =? 1 then
          sc_read end_ ;; sc_read end_ ;; sc_read end_ ;; sc_parse_field_list fuel' lim ec_bit_base end_
        else if b =? 2 then
          sc_read end_ ;; sc_skip_term FUEL end_ ;; sc_parse_field_list fuel' lim ec_bit_base end_
        else if lead_char b then
          seg ← sc_nameseg end_; pb ← sc_read end_; bits ← pkglen_rest pb lim end_;
          add_field (mkField seg ec_bit_base bits) ;;
          sc_parse_field_list fuel' lim (u32 (ec_bit_base + bits)) end_
        else mret tt
    end
  else mret tt.

(** ** The scan *)

Definition seg_eq (seg name : list Z) : bool := bool_decide (seg = name).
Definition name_BST : list Z := [95; 66; 83; 84].
Definition name_HID : list Z := [95; 72; 73; 68].
Definition is_bif (seg : list Z) : bool := seg_eq seg [95; 66; 73; 70] || seg_eq seg [95; 66; 73; 88].

Definition min_end (e end_ : Z) : Z := if end_ <? e then end_ else e.

(** Scope and Device: scan the body with [termlist]. *)
Definition scan_body (termlist : Z → M scan unit) (end_ : Z) : M scan unit :=
  e ← sc_pkglen end_;
  let body_end := min_end e end_ in
  sc_namestring end_ ;; termlist body_end ;; set_pos body_end.

(** Attach the method body at [p] to the current battery. *)
Definition attach_method (seg : list Z) (p body_end : Z) (g : aml) : aml :=
  if (seg_eq seg name_BST || is_bif seg) && (g_battery_count g <? MAX_BATTERIES) then
    let bidx := if 0 <? g_battery_count g then g_battery_count g - 1 else 0 in
    let upd f := mkAml (g_ec_fields g) (alter f (Z.to_nat bidx) (g_batteries g)) (g_battery_count g) in
    let body := drop (Z.to_nat p) data in
    let len := u32 (body_end - p) in
    match g_batteries g !! Z.to_nat bidx with
    | Some bat =>
        if seg_eq seg name_BST && bool_decide (bst_aml bat = None) then
          upd (λ b, mkBattery true (Some body) len (bif_aml b) (bif_len b))
        else if is_bif seg && bool_decide (bif_aml bat = None) then
          upd (λ b, mkBattery (present b) (bst_aml b) (bst_len b) (Some body) len)
        else g
    | None => g
    end
  else g.

Definition scan_method (end_ : Z) : M scan unit :=
  sc_read end_ ;;
  e ← sc_pkglen end_;
  let body_end := min_end e end_ in
  seg ← sc_namestring end_;
  advance 1 ;;
  p ← gets pos;
  set_glob (attach_method seg p body_end) ;;
  set_pos body_end.

(** [uint] read from the table, little-endian. *)
Fixpoint le_at (n : nat) (p : Z) : M scan Z :=
  match n with
  | O => mret 0
  | S n' => b ← byte_at p; v ← le_at n' (p + 1); mret (b + 256 * v)
  end.

(** [for (j; want[j]) if (i >= end || data[i] != want[j]) break;] *)
Fixpoint match_string (want : list Z) (i end_ : Z) : M scan bool :=
  match want with
  | [] => mret true
  | c :: want' =>
      if end_ <=? i then mret false
      else b ← byte_at i; if b =? c then match_string want' (u32 (i + 1)) end_ else mret false
  end.

Definition BATTERY_HID : Z := 0x0AC80D41.
Definition battery_string : list Z := [80; 78; 80; 48; 67; 48; 65].

Definition count_battery (g : aml) : aml :=
  if g_battery_count g <? MAX_BATTERIES then
    if (g_battery_count g =? 0) ||
       match g_batteries g !! Z.to_nat (g_battery_count g - 1) with
       | Some b => bool_decide (bst_aml b ≠ None) | None => false end
    then mkAml (g_ec_fields g) (g_batteries g) (g_battery_count g + 1)
    else g
  else g.

(** Whether the value of [_HID] at the position is that of a battery. *)
Definition battery_hid (end_ : Z) : M scan bool :=
  p ← gets pos;
  if p <? end_ then
    vop ← sc_peek end_;
    if (vop =? AML_DWORD) && (u32 (p + 5) <=? end_) then v ← le_at 4 (p + 1); mret (v =? BATTERY_HID)
    else if vop =? AML_STRING then match_string battery_string (u32 (p + 1)) end_
    else mret false
  else mret false.

Definition scan_name (end_ : Z) : M scan unit :=
  sc_read end_ ;;
  seg ← sc_namestring end_;
  is_battery ← (if seg_eq seg name_HID then battery_hid end_ else mret false);
  sc_skip_term FUEL end_ ;;
  if is_battery : bool then set_glob count_battery else mret tt.

(** The second test of the extended prefix: OperationRegion and Field. *)
Definition scan_ext (end_ : Z) : M scan unit :=
  sc_read end_ ;;
  p ← gets pos;
  if end_ <=? p then mret tt
  else
    extop ← sc_read end_;
    if extop =? AML_EXT_OPREGION then
      sc_namestring end_ ;; sc_read end_ ;; sc_skip_term FUEL end_ ;; sc_skip_term FUEL end_
    else if extop =? AML_EXT_FIELD then
      e ← sc_pkglen end_;
      let body_end := min_end e end_ in
      sc_namestring end_ ;; sc_read end_ ;;
      sc_parse_field_list FUEL body_end 0 body_end ;;
      set_pos body_end
    else advance (-2) ;; sc_skip_term FUEL end_.

Definition sc_scan_term (termlist : Z → M scan unit) (end_ : Z) : M scan unit :=
  p ← gets pos;
  if end_ <=? p then mret tt
  else
    op ← sc_peek end_;
    if (op =? AML_SCOPE) || (op =? AML_EXT_PREFIX) then
      if op =? AML_EXT_PREFIX then
        advance 1 ;;
        p ← gets pos;
        if end_ <=? p then mret tt
        else
          extop ← sc_peek end_;
          if negb (extop =? AML_EXT_DEVICE) then advance (-1) ;; sc_skip_term FUEL end_
          else sc_read end_ ;; scan_body termlist end_
      else sc_read end_ ;; scan_body termlist end_
    else if op =? AML_METHOD then scan_method end_
    else if op =? AML_NAME then scan_name end_
    else if op =? AML_EXT_PREFIX then scan_ext end_
    else sc_skip_term FUEL end_.

Fixpoint sc_scan_termlist (fuel : nat) (end_ : Z) : M scan unit :=
  p ← gets pos;
  if p <? end_ then
    match fuel with
    | O => no_fuel
    | S fuel' => sc_scan_term (sc_scan_termlist fuel') end_ ;; sc_scan_termlist fuel' end_
    end
  else mret tt.
End scanner.

Definition aml_scan (data : list Z) (len : Z) : M aml unit := λ g,
  match sc_scan_termlist data (Z.to_nat len) len (mkScan 0 g) with
  | Ok (_, s) => Ok (tt, glob s)
  | Panic e => Panic e
  | Fault => Fault
  | NoFuel => NoFuel
  end.
(** ** The evaluator *)

Record eval_val := mkVal { valid : bool; is_pkg : bool; integer : Z; pkg_elems : list Z }.
Definition EVAL_INVALID : eval_val := mkVal false false 0 [].
Definition int_val (v : Z) : eval_val := mkVal true false v [].

Section evaluator.
Context {D : Type} (ec_read : Z → M D Z) (g : aml) (data : list Z).

(** [for (i < bytes) val |= ec_read(byte_off + i) << (8 * i);] *)
Fixpoint read_bytes (n : nat) (i byte_off val : Z) : M D Z :=
  match n with
  | O => mret val
  | S n' =>
      b ← ec_read (u8 (byte_off + i));
      read_bytes n' (i + 1) byte_off (Z.lor val (Z.shiftl b (8 * i)))
  end.

Definition read_ec_field (f : ec_field) : M D Z :=
  let byte_off := bit_offset f / 8 in
  let bytes := Z.min (u32 (bit_width f + 7) / 8) 8 in
  val ← read_bytes (Z.to_nat bytes) 0 byte_off 0;
  mret (if bit_width f <? 64 then Z.land val (Z.shiftl 1 (bit_width f) - 1) else val).

Record ev := mkEv { epos : Z; locals : list Z; done : bool; dev : D }.

Definition ev_set_pos (p : Z) : M ev unit := modify (λ e, mkEv p (locals e) (done e) (dev e)).
Definition ev_advance (n : Z) : M ev unit := e ← get; ev_set_pos (u32 (epos e + n)).
Definition set_local (i v : Z) : M ev unit :=
  modify (λ e, mkEv (epos e) (<[Z.to_nat i := v]> (locals e)) (done e) (dev e)).
Definition local (i : Z) (e : ev) : Z := nth (Z.to_nat i) (locals e) 0.
Definition set_done : M ev unit := modify (λ e, mkEv (epos e) (locals e) true (dev e)).

Definition ev_byte_at (p : Z) : M ev Z := of_option (if 0 <=? p then data !! Z.to_nat p else None).

Definition ev_read (end_ : Z) : M ev Z :=
  p ← gets epos; if p <? end_ then b ← ev_byte_at p; ev_advance 1 ;; mret b else mret 0.
Definition ev_peek (end_ : Z) : M ev Z :=
  p ← gets epos; if p <? end_ then ev_byte_at p else mret 0.

Fixpoint ev_pkglen_bytes (n : nat) (i len end_ : Z) : M ev Z :=
  match n with
  | O => mret len
  | S n' =>
      p ← gets epos;
      if p <? end_ then
        b ← ev_read end_; ev_pkglen_bytes n' (i + 1) (Z.lor len (u32 (Z.shiftl b (4 + 8 * i)))) end_
      else mret len
  end.

Definition ev_pkglen (end_ : Z) : M ev Z :=
  start ← gets epos;
  if end_ <=? start then mret start
  else
    b0 ← ev_read end_;
    let n := Z.land (Z.shiftr b0 6) 3 in
    if n =? 0 then mret (u32 (start + Z.land b0 0x3F))
    else len ← ev_pkglen_bytes (Z.to_nat n) 0 (Z.land b0 0x0F) end_; mret (u32 (start + len)).

Definition EV_FUEL : nat := S (length data).

Fixpoint ev_skip_roots (fuel : nat) (end_ : Z) : M ev unit :=
  match fuel with
  | O => no_fuel
  | S fuel' =>
      p ← gets epos; b ← ev_peek end_;
      if (p <? end_) && ((b =? AML_ROOT_CHAR) || (b =? AML_PARENT_CHAR)) then ev_read end_ ;; ev_skip_roots fuel' end_
      else mret tt
  end.

(** [for (j < 4) seg[j] = ev_read(e);] *)
Fixpoint ev_chars (n : nat) (end_ : Z) : M ev (list Z) :=
  match n with
  | O => mret []
  | S n' => c ← ev_read end_; cs ← ev_chars n' end_; mret (c :: cs)
  end.

(** [for (i < n && pos < end) seg[i] = ev_read(e);], keeping the rest of [seg]. *)
Fixpoint ev_chars_in (seg : list Z) (end_ : Z) : M ev (list Z) :=
  match seg with
  | [] => mret []
  | c0 :: seg' =>
      p ← gets epos;
      if p <? end_ then c ← ev_read end_; cs ← ev_chars_in seg' end_; mret (c :: cs) else mret seg
  end.

Fixpoint ev_multi_name (n : nat) (seg : list Z) (end_ : Z) : M ev (list Z) :=
  match n with
  | O => mret seg
  | S n' =>
      p ← gets epos;
      if u32 (p + 4) <=? end_ then cs ← ev_chars 4 end_; ev_multi_name n' cs end_ else mret seg
  end.

Definition ev_name (end_ : Z) : M ev (list Z) :=
  p ← gets epos;
  if end_ <=? p then mret [0; 0; 0; 0]
  else
    b ← ev_peek end_;
    if b =? 0 then ev_read end_ ;; mret [0; 0; 0; 0]
    else if b =? AML_DUAL_NAME then ev_read end_ ;; first ← ev_chars 4 end_; ev_chars_in first end_
    else if b =? AML_MULTI_NAME then
      ev_read end_ ;; cnt ← ev_read end_; ev_multi_name (Z.to_nat cnt) [0; 0; 0; 0] end_
    else if lead_char b then ev_chars_in [0; 0; 0; 0] end_
    else mret [0; 0; 0; 0].
Definition ev_namestring (end_ : Z) : M ev (list Z) := ev_skip_roots EV_FUEL end_ ;; ev_name end_.

Definition ev_skip_supername (end_ : Z) : M ev unit :=
  p ← gets epos;
  if end_ <=? p then mret tt
  else
    b ← ev_peek end_;
    if (AML_LOCAL0 <=? b) && (b <=? AML_ARG5) then ev_read end_ ;; mret tt
    else if (b =? AML_ROOT_CHAR) || (b =? AML_PARENT_CHAR) || (b =? AML_DUAL_NAME) || (b =? AML_MULTI_NAME) ||
            lead_char b then ev_namestring end_ ;; mret tt
    else ev_read end_ ;; mret tt.

(** An integer of [n] bytes, 0 when it does not fit the method. *)
Fixpoint ev_le_at (n : nat) (p : Z) : M ev Z :=
  match n with
  | O => mret 0
  | S n' => b ← ev_byte_at p; v ← ev_le_at n' (p + 1); mret (b + 256 * v)
  end.
Definition ev_const (n : nat) (end_ : Z) : M ev eval_val :=
  p ← gets epos;
  v ← (if u32 (p + Z.of_nat n) <=? end_ then ev_le_at n p else mret 0);
  ev_advance (Z.of_nat n) ;; mret (int_val v).

Definition in_dev {A} (m : M D A) : M ev A :=
  zoom dev (λ d e, mkEv (epos e) (locals e) (done e) d) m.

(** The value of a name: its field, or 0. *)
Definition name_value (seg : list Z) : M ev eval_val :=
  match find_ec_field g seg with
  | Some f => v ← in_dev (read_ec_field f); mret (int_val v)
  | None => mret (int_val 0)
  end.

Definition is_local (b : Z) : bool := (AML_LOCAL0 <=? b) && (b <=? AML_LOCAL7).

Definition binary_ops : list Z :=
  [AML_ADD; AML_SUBTRACT; AML_MULTIPLY; AML_AND; AML_NAND; AML_OR; AML_NOR; AML_XOR; AML_SHIFTL; AML_SHIFTR].

(** The result of a binary operator; the processor takes a shift count modulo 64. *)
Definition binary (op a b : Z) : Z :=
  if op =? AML_ADD then u64 (a + b)
  else if op =? AML_SUBTRACT then u64 (a - b)
  else if op =? AML_AND then Z.land a b
  else if op =? AML_OR then Z.lor a b
  else if op =? AML_XOR then Z.lxor a b
  else if op =? AML_SHIFTL then u64 (Z.shiftl a (Z.land b 63))
  else if op =? AML_SHIFTR then Z.shiftr a (Z.land b 63)
  else if op =? AML_MULTIPLY then u64 (a * b)
  else 0.

(** Elements of a Package; [term] evaluates one. *)
Fixpoint pkg_loop (n : nat) (elems : list Z) (body_end : Z) (term : M ev eval_val) : M ev (list Z) :=
  match n with
  | O => mret elems
  | S n' =>
      p ← gets epos;
      if (p <? body_end) && (length elems <? 16)%nat then
        elem ← term; pkg_loop n' (elems ++ [if valid elem then integer elem else 0]) body_end term
      else mret elems
  end.

Definition ev_eval_package (term : M ev eval_val) (end_ : Z) : M ev eval_val :=
  e ← ev_pkglen end_;
  let body_end := min_end e end_ in
  num_elems ← ev_read end_;
  elems ← pkg_loop (Z.to_nat num_elems) [] body_end term;
  ev_set_pos body_end ;; mret (mkVal true true 0 elems).

(** [Store]: a Local is set, any other target is skipped. *)
Definition store_to (v : eval_val) (end_ : Z) : M ev unit :=
  dest ← ev_peek end_;
  if is_local dest then ev_read end_ ;; set_local (dest - AML_LOCAL0) (if valid v then integer v else 0)
  else ev_skip_supername end_.

(** [Increment] and [Decrement]. *)
Definition bump (d end_ : Z) : M ev eval_val :=
  dest ← ev_peek end_;
  (if is_local dest then
     ev_read end_ ;; v ← gets (local (dest - AML_LOCAL0)); set_local (dest - AML_LOCAL0) (u64 (v + d))
   else ev_skip_supername end_) ;;
  mret EVAL_INVALID.

(** Jump behind a PkgLength block. *)
Definition ev_skip_pkg (end_ : Z) : M ev unit := e ← ev_pkglen end_; ev_set_pos (min_end e end_).

(** [If]: the predicate is evaluated, both branches are skipped. *)
Definition eval_if (term : M ev eval_val) (end_ : Z) : M ev eval_val :=
  e ← ev_pkglen end_;
  term ;;
  ev_set_pos (min_end e end_) ;;
  p ← gets epos; b ← ev_peek end_;
  (if (p <? end_) && (b =? AML_ELSE) then ev_read end_ ;; ev_skip_pkg end_ else mret tt) ;;
  mret EVAL_INVALID.

Definition eval_op (term : M ev eval_val) (op end_ : Z) : M ev eval_val :=
  if op =? AML_ZERO then mret (int_val 0)
  else if op =? AML_ONE then mret (int_val 1)
  else if op =? AML_ONES then mret (int_val 0xFFFFFFFFFFFFFFFF)
  else if op =? AML_BYTE then v ← ev_read end_; mret (int_val v)
  else if op =? AML_WORD then ev_const 2 end_
  else if op =? AML_DWORD then ev_const 4 end_
  else if op =? AML_QWORD then ev_const 8 end_
  else if op =? AML_NOOP then mret EVAL_INVALID
  else if is_local op then v ← gets (local (op - AML_LOCAL0)); mret (int_val v)
  else if (AML_ARG0 <=? op) && (op <=? AML_ARG5) then mret (int_val 0)
  else if op =? AML_PACKAGE then ev_eval_package term end_
  else if op =? AML_RETURN then v ← term; set_done ;; mret v
  else if op =? AML_STORE then src ← term; store_to src end_ ;; mret src
  else if case op binary_ops then
    a ← term; b ← term; ev_skip_supername end_ ;;
    mret (int_val (if valid a && valid b then binary op (integer a) (integer b) else 0))
  else if op =? AML_DIVIDE then
    a ← term; b ← term; ev_skip_supername end_ ;; ev_skip_supername end_ ;;
    mret (int_val (if valid a && valid b && truthy (integer b) then integer a / integer b else 0))
  else if op =? AML_INC then bump 1 end_
  else if op =? AML_DEC then bump (-1) end_
  else if op =? AML_IF then eval_if term end_
  else if (op =? AML_WHILE) || (op =? AML_ELSE) then ev_skip_pkg end_ ;; mret EVAL_INVALID
  else if case op [AML_ROOT_CHAR; AML_PARENT_CHAR; AML_DUAL_NAME; AML_MULTI_NAME] then
    ev_advance (-1) ;; seg ← ev_namestring end_; name_value seg
  else if lead_char op then cs ← ev_chars_in [0; 0; 0] end_; name_value (op :: cs)
  else mret EVAL_INVALID.

Fixpoint ev_eval_term (fuel : nat) (end_ : Z) : M ev eval_val :=
  e ← get;
  if (end_ <=? epos e) || done e then mret EVAL_INVALID
  else
    match fuel with
    | O => no_fuel
    | S fuel' => op ← ev_read end_; eval_op (ev_eval_term fuel' end_) op end_
    end.

Fixpoint run_loop (fuel : nat) (end_ : Z) : M ev eval_val :=
  e ← get;
  if (epos e <? end_) && negb (done e) then
    match fuel with
    | O => no_fuel
    | S fuel' =>
        v ← ev_eval_term EV_FUEL end_;
        e' ← get;
        if done e' then mret v else run_loop fuel' end_
    end
  else mret EVAL_INVALID.

Definition ev_run_method (len : Z) : M D eval_val := λ d,
  match run_loop EV_FUEL len (mkEv 0 (replicate 8 0) false d) with
  | Ok (v, e) => Ok (v, dev e)
  | Panic m => Panic m
  | Fault => Fault
  | NoFuel => NoFuel
  end.
End evaluator.

(** ** Public interface *)

Record bst := mkBst { state : Z; rate : Z; remaining : Z; voltage : Z }.
Record bif := mkBif { power_unit : Z; design_capacity : Z; full_capacity : Z; design_voltage : Z }.

Definition elem (v : eval_val) (i : nat) : Z := u32 (nth i (pkg_elems v) 0).

Section api.
Context {D : Type} (ec_read : Z → M D Z) (g : aml).

Definition aml_eval_bst (idx : Z) : M D (option bst) :=
  if g_battery_count g <=? idx then mret None
  else
    bat ← of_option (g_batteries g !! Z.to_nat idx);
    match bst_aml bat with
    | None => mret None
    | Some body =>
        v ← ev_run_method ec_read g body (bst_len bat);
        mret (if negb (valid v) || negb (is_pkg v) || (length (pkg_elems v) <? 4)%nat then None
              else Some (mkBst (elem v 0) (elem v 1) (elem v 2) (elem v 3)))
    end.

Definition aml_eval_bif (idx : Z) : M D (option bif) :=
  if g_battery_count g <=? idx then mret None
  else
    bat ← of_option (g_batteries g !! Z.to_nat idx);
    match bif_aml bat with
    | None => mret None
    | Some body =>
        v ← ev_run_method ec_read g body (bif_len bat);
        mret (if negb (valid v) || negb (is_pkg v) || (length (pkg_elems v) <? 5)%nat then None
              else Some (mkBif (elem v 0) (elem v 1) (elem v 2) (elem v 4)))
    end.
End api.
End Aml.
