(* ===== verification/AmlScan.v ===== *)
(** * The ACPI scan terminates, stays inside the table and keeps its tables

    The moves of the scanner are monotone ([Moves]); helpers leave the global
    tables alone. *)
From S2P Require Import Prelude Moves Aml.
Import Aml.

Module AmlScan.

(** The global tables within their arrays. *)
Record wf (g : aml) : Prop := {
  wf_batteries : Z.of_nat (length (g_batteries g)) = MAX_BATTERIES;
  wf_count : 0 ≤ g_battery_count g ≤ MAX_BATTERIES;
  wf_fields : Z.of_nat (length (g_ec_fields g)) ≤ MAX_EC_FIELDS
}.

Section scan.
Context (data : list Z).
Let N : Z := Z.of_nat (length data).
Context (Hbytes : Forall is_byte data) (Hsize : N < 2 ^ 31).

Definition same_glob (s s' : scan) : Prop := glob s' = glob s.
Instance same_glob_preorder : PreOrder same_glob.
Proof. split; unfold same_glob; [done|]. intros s1 s2 s3. congruence. Qed.

Local Notation rel := (Moves.rel pos same_glob).
Local Notation guard := (Moves.guard pos same_glob (N + 9)).
Local Notation rel_refl := (Moves.rel_refl pos same_glob).
Local Notation rel_trans := (Moves.rel_trans pos same_glob).
Local Notation rel_mono := (Moves.rel_mono pos same_glob).
Local Notation guard_ret := (Moves.guard_ret pos same_glob (N + 9)).
Local Notation guard_gets := (Moves.guard_gets pos same_glob (N + 9)).
Local Notation guard_bind := (Moves.guard_bind pos same_glob (N + 9)).
Local Notation guard_mono := (Moves.guard_mono pos same_glob (N + 9)).
Local Notation wp_guard := (Moves.wp_guard pos same_glob (N + 9)).

(** ** Reading *)

Lemma byte_at_ok p s :
  0 ≤ p < N → ∃ b, byte_at data p s = Ok (b, s) ∧ is_byte b ∧ data !! Z.to_nat p = Some b.
Proof.
  intros Hp. destruct (lookup_lt_is_Some_2 data (Z.to_nat p)) as [b Hb]; [lia|].
  exists b. unfold byte_at. rewrite (proj2 (Z.leb_le 0 p)) by lia. rewrite Hb. split_and!; [done| |done].
  rewrite Forall_forall in Hbytes. apply Hbytes. by eapply list_elem_of_lookup_2.
Qed.

Lemma sc_peek_ok e s :
  0 ≤ pos s → pos s < e → e ≤ N →
  ∃ b, sc_peek data e s = Ok (b, s) ∧ is_byte b ∧ data !! Z.to_nat (pos s) = Some b.
Proof.
  intros Hp He HN. destruct (byte_at_ok (pos s) s ltac:(lia)) as (b & Hb & Hr & Hl).
  exists b. split; [|done]. unfold sc_peek. rewrite (bind_of_ok _ _ s (pos s) s) by done.
  by rewrite (proj2 (Z.ltb_lt _ _) He).
Qed.

Lemma sc_peek_end e s : e ≤ pos s → sc_peek data e s = Ok (0, s).
Proof.
  intros He. unfold sc_peek. rewrite (bind_of_ok _ _ s (pos s) s) by done.
  by rewrite (proj2 (Z.ltb_ge _ _) He).
Qed.

Lemma sc_read_ok e s :
  0 ≤ pos s → pos s < e → e ≤ N →
  ∃ b, sc_read data e s = Ok (b, mkScan (pos s + 1) (glob s)) ∧ is_byte b ∧ data !! Z.to_nat (pos s) = Some b.
Proof.
  intros Hp He HN. destruct (byte_at_ok (pos s) s ltac:(lia)) as (b & Hb & Hr & Hl).
  exists b. split; [|done]. unfold sc_read. rewrite (bind_of_ok _ _ s (pos s) s) by done.
  rewrite (proj2 (Z.ltb_lt _ _) He). rewrite (bind_of_ok _ _ _ _ _ Hb).
  unfold advance. rewrite (bind_of_ok _ _ s tt (mkScan (u32 (pos s + 1)) (glob s))) by done.
  by rewrite u32_small by lia.
Qed.

Lemma sc_read_end e s : e ≤ pos s → sc_read data e s = Ok (0, s).
Proof.
  intros He. unfold sc_read. rewrite (bind_of_ok _ _ s (pos s) s) by done.
  by rewrite (proj2 (Z.ltb_ge _ _) He).
Qed.

Lemma sc_read_wp e s :
  0 ≤ pos s → e ≤ N → wp (sc_read data e) (λ b s', is_byte b ∧ rel e 0 s s') never s.
Proof.
  intros Hp He. destruct (decide (pos s < e)) as [Hlt|Hge].
  - destruct (sc_read_ok e s) as (b & Hb & Hr & _); [done..|]. eapply wp_ok; [exact Hb|].
    split; [done|]. split; simpl; [done|lia].
  - eapply wp_ok; [apply sc_read_end; lia|]. split; [split; lia|apply rel_refl].
Qed.

Lemma sc_read_guard lo e : 0 ≤ lo → e ≤ N → guard lo e 0 (sc_read data e).
Proof. intros Hlo He s Hs. eapply wp_mono; [apply sc_read_wp; lia|by intros ?? []|done]. Qed.

Lemma sc_peek_guard lo e : 0 ≤ lo → e ≤ N → guard lo e 0 (sc_peek data e).
Proof.
  intros Hlo He s Hs. destruct (decide (pos s < e)) as [Hlt|Hge].
  - destruct (sc_peek_ok e s) as (b & Hb & _); [lia..|]. eapply wp_ok; [exact Hb|apply rel_refl].
  - eapply wp_ok; [apply sc_peek_end; lia|apply rel_refl].
Qed.

(** ** PkgLength *)

Lemma pkglen_bytes_wp n i len lim e s :
  0 ≤ i → i + Z.of_nat n ≤ 3 → 0 ≤ len < 2 ^ 28 → 0 ≤ pos s → e ≤ N →
  wp (pkglen_bytes data n i len lim e) (λ r s', 0 ≤ r < 2 ^ 28 ∧ rel e 0 s s') never s.
Proof.
  revert i len s. induction n as [|n IH]; intros i len s Hi Hn Hlen Hp He; simpl.
  { apply wp_ret. split; [done|apply rel_refl]. }
  wp_steps. destruct (pos s <? lim).
  - apply wp_bind. eapply wp_mono; [by apply sc_read_wp| |done]. intros b s1 [Hb H1].
    assert (0 ≤ pos s1) by (destruct H1; lia).
    eapply wp_mono; [apply IH; try lia| |done].
    + apply lor_bound; [lia|lia|apply shifted_byte; [done|lia]].
    + intros r s2 [Hr H2]. split; [done|]. eapply rel_trans; [|eassumption..]; lia.
  - apply wp_ret. split; [done|apply rel_refl].
Qed.

Lemma pkglen_rest_wp b0 lim e s :
  is_byte b0 → 0 ≤ pos s → e ≤ N →
  wp (pkglen_rest data b0 lim e) (λ r s', 0 ≤ r < 2 ^ 28 ∧ rel e 0 s s') never s.
Proof.
  intros Hb Hp He. unfold pkglen_rest.
  pose proof (land_small b0 6 ltac:(lia)) as H6. pose proof (land_small b0 4 ltac:(lia)) as H4.
  pose proof (land_small (Z.shiftr b0 6) 2 ltac:(lia)) as H3.
  change (Z.ones 6) with 0x3F in H6. change (Z.ones 4) with 0x0F in H4. change (Z.ones 2) with 3 in H3.
  destruct (Z.eqb_spec (Z.land (Z.shiftr b0 6) 3) 0).
  - apply wp_ret. split; [lia|apply rel_refl].
  - apply pkglen_bytes_wp; lia.
Qed.

(** The end of a block lies at or behind the length field. *)
Lemma sc_pkglen_wp e s :
  0 ≤ pos s ≤ N + 9 → e ≤ N →
  wp (sc_pkglen data e) (λ r s', pos s ≤ r ∧ rel e 0 s s') never s.
Proof.
  intros Hp He. unfold sc_pkglen. wp_steps. destruct (Z.leb_spec e (pos s)).
  - apply wp_ret. split; [lia|apply rel_refl].
  - apply wp_bind. eapply wp_mono; [apply sc_read_wp; lia| |done]. intros b s1 [Hb H1].
    apply wp_bind. eapply wp_mono; [apply pkglen_rest_wp; [done|destruct H1; lia|done]| |done].
    intros r s2 [Hr H2]. apply wp_ret. split; [rewrite u32_small; lia|eapply rel_trans; [|eassumption..]; lia].
Qed.

(** ** Names *)

Lemma nameseg_chars_guard lo n e : 0 ≤ lo → e ≤ N → guard lo e 0 (nameseg_chars data n e).
Proof.
  intros Hlo He. induction n as [|n IH]; simpl; [apply guard_ret|].
  apply guard_bind; [lia|lia|apply guard_gets|]. intros p.
  apply guard_bind; [lia|lia| |intros c].
  - destruct (p <? e); [by apply sc_read_guard|apply guard_ret].
  - apply guard_bind; [lia|lia|done|intros; apply guard_ret].
Qed.

Lemma multi_name_guard lo n seg e : 0 ≤ lo → e ≤ N → guard lo e 0 (multi_name data n seg e).
Proof.
  intros Hlo He. revert seg. induction n as [|n IH]; intros seg; simpl; [apply guard_ret|].
  apply guard_bind; [lia|lia|apply guard_gets|]. intros p.
  destruct (_ <=? _); [|apply guard_ret].
  apply guard_bind; [lia|lia|by apply nameseg_chars_guard|done].
Qed.

Definition is_root (b : Z) : bool := (b =? AML_ROOT_CHAR) || (b =? AML_PARENT_CHAR).

Lemma skip_roots_wp fuel e s :
  0 ≤ pos s → e ≤ N → Z.max 0 (e - pos s) < Z.of_nat fuel →
  wp (skip_roots data fuel e) (λ _, rel e 0 s) never s.
Proof.
  revert s. induction fuel as [|fuel IH]; intros s Hp He Hf; [lia|]. simpl. wp_steps.
  destruct (decide (pos s < e)) as [Hlt|Hge].
  - destruct (sc_peek_ok e s) as (b & Hb & _); [done..|]. eapply wp_ok; [exact Hb|].
    destruct (_ && _); [|apply wp_ret, rel_refl].
    destruct (sc_read_ok e s) as (b' & Hb' & _); [done..|].
    apply wp_bind. eapply wp_ok; [exact Hb'|]. eapply wp_mono; [apply IH; simpl; lia| |done].
    intros ? s' [H1 H2]. simpl in *. split; [done|lia].
  - eapply wp_ok; [apply sc_peek_end; lia|]. rewrite (proj2 (Z.ltb_ge _ _)) by lia. apply wp_ret, rel_refl.
Qed.

Lemma skip_roots_guard lo e : 0 ≤ lo → e ≤ N → guard lo e 0 (skip_roots data (FUEL data) e).
Proof. intros Hlo He s Hs. apply skip_roots_wp; unfold FUEL, N in *; lia. Qed.

Lemma sc_name_guard lo e : 0 ≤ lo → e ≤ N → guard lo e 0 (sc_name data e).
Proof.
  intros Hlo He. unfold sc_name.
  apply guard_bind; [lia|lia|apply guard_gets|intros p].
  destruct (e <=? p); [apply guard_ret|].
  apply guard_bind; [lia|lia|by apply sc_peek_guard|intros b].
  repeat case_match; try apply guard_ret; try (by apply nameseg_chars_guard);
    (apply guard_bind; [lia|lia|by apply sc_read_guard|intros ?]).
  - apply guard_ret.
  - apply guard_bind; [lia|lia|by apply nameseg_chars_guard|intros _; by apply nameseg_chars_guard].
  - apply guard_bind; [lia|lia|by apply sc_read_guard|intros c; by apply multi_name_guard].
Qed.

Lemma sc_namestring_guard lo e : 0 ≤ lo → e ≤ N → guard lo e 0 (sc_namestring data e).
Proof.
  intros Hlo He. apply guard_bind; [lia|lia|by apply skip_roots_guard|intros _; by apply sc_name_guard].
Qed.

(** A name that starts with a root or parent character takes it. *)
Lemma skip_roots_root fuel e s b :
  0 ≤ pos s < e → e ≤ N → data !! Z.to_nat (pos s) = Some b → is_root b = true → e - pos s < Z.of_nat fuel →
  wp (skip_roots data fuel e) (λ _ s', glob s' = glob s ∧ pos s + 1 ≤ pos s' ≤ e) never s.
Proof.
  intros Hp He Hb Hroot Hf. destruct fuel as [|fuel]; [lia|]. simpl. wp_steps.
  destruct (sc_peek_ok e s) as (b1 & Hpk & _ & Hb1); [lia..|]. eapply wp_ok; [exact Hpk|].
  assert (b1 = b) as -> by congruence. rewrite (proj2 (Z.ltb_lt _ _)) by lia.
  unfold is_root in Hroot. rewrite Hroot. simpl. apply wp_bind.
  destruct (sc_read_ok e s) as (b2 & Hrd & _); [lia..|]. eapply wp_ok; [exact Hrd|].
  eapply wp_mono; [apply skip_roots_wp; simpl; lia| |done].
  intros ? s' [H1 H2]. simpl in *. split; [done|lia].
Qed.

Lemma sc_namestring_root e s b :
  0 ≤ pos s < e → e ≤ N → data !! Z.to_nat (pos s) = Some b → is_root b = true →
  wp (sc_namestring data e) (λ _ s', glob s' = glob s ∧ pos s + 1 ≤ pos s' ≤ e) never s.
Proof.
  intros Hp He Hb Hroot. apply wp_bind.
  eapply wp_mono; [apply (skip_roots_root _ _ _ b); unfold FUEL, N in *; (done || lia)| |done].
  intros ? s1 [H1 H2]. eapply wp_mono; [apply (sc_name_guard 0); [lia..|unfold N in *; lia]| |done].
  intros ? s2 [H3 H4]. split; [congruence|lia].
Qed.

(** ** Skipping *)

Lemma skip_string_wp fuel e s :
  0 ≤ pos s → e ≤ N → Z.max 0 (e - pos s) < Z.of_nat fuel →
  wp (skip_string data fuel e) (λ _, rel e 0 s) never s.
Proof.
  revert s. induction fuel as [|fuel IH]; intros s Hp He Hf; [lia|]. simpl. wp_steps.
  destruct (Z.ltb_spec (pos s) e) as [Hlt|Hge]; [|apply wp_ret, rel_refl].
  destruct (byte_at_ok (pos s) s) as (b & Hb & _); [lia|]. apply wp_bind. eapply wp_ok; [exact Hb|].
  unfold advance. wp_steps. rewrite u32_small by lia. destruct (b =? 0).
  - apply wp_ret. split; simpl; [done|lia].
  - eapply wp_mono; [apply IH; simpl; lia| |done]. intros ? s' [H1 H2]. simpl in *. split; [done|lia].
Qed.

Lemma skip_pkg_wp e s :
  0 ≤ pos s ≤ e → e ≤ N → wp (skip_pkg data e) (λ _, rel e 0 s) never s.
Proof.
  intros Hp He. unfold skip_pkg. apply wp_bind. eapply wp_mono; [apply sc_pkglen_wp; lia| |done].
  intros r s1 [Hr H1]. eapply wp_ok; [done|]. destruct H1. split; simpl; [done|].
  destruct (Z.ltb_spec r e); lia.
Qed.

Lemma advance_wp n e k s :
  0 ≤ n ≤ k → k ≤ 9 → 0 ≤ pos s ≤ e → e ≤ N → wp (advance n) (λ _, rel e k s) never s.
Proof.
  intros Hn Hk Hp He. eapply wp_ok; [done|]. split; simpl; [done|]. rewrite u32_small; lia.
Qed.

Section skip.
Context (lo e : Z) (arg : M scan unit) (Hlo : 0 ≤ lo) (He : e ≤ N) (Harg : guard lo e 9 arg).

Lemma arg_seq (m : M scan unit) : guard lo e 9 m → guard lo e 9 (arg ;; m).
Proof. intros Hm. apply guard_bind; [lia|lia|done|done]. Qed.

Lemma skip_ext_wp s : lo ≤ pos s ≤ e → wp (skip_ext data arg e) (λ _, rel e 9 s) never s.
Proof.
  intros Hs. unfold skip_ext. wp_steps. destruct (Z.leb_spec e (pos s)); [apply wp_ret, rel_refl|].
  destruct (sc_read_ok e s) as (b & Hb & _); [lia..|]. apply wp_bind. eapply wp_ok; [exact Hb|].
  assert (∀ s', rel e 9 (mkScan (pos s + 1) (glob s)) s' → rel e 9 s s') as Hback
    by (intros s' [H1 H2]; simpl in *; split; [done|lia]).
  assert (∀ (f : list Z → M scan unit), (∀ l s', lo ≤ pos s' ≤ e → wp (f l) (λ _, rel e 9 s') never s') →
    wp (sc_namestring data e ≫= f) (λ _, rel e 9 s) never (mkScan (pos s + 1) (glob s))) as Hname.
  { intros f Hf. eapply wp_guard; [apply (sc_namestring_guard lo); lia|simpl; lia|].
    intros l s1 H1. assert (lo ≤ pos s1 ≤ e) as Hs1 by (destruct H1 as [_ H1]; simpl in H1; lia).
    eapply wp_mono; [by apply Hf| |done]. intros ? s2 H2. apply Hback.
    eapply rel_trans; [lia|eapply rel_mono; [|exact H1]; lia|exact H2]. }
  repeat match goal with |- wp (if ?b then _ else _) _ _ _ => destruct b end.
  - apply Hname. intros ? s' Hs'. apply (advance_wp 1); lia.
  - apply Hname. intros ? s' Hs'. apply wp_ret, rel_refl.
  - apply Hname. intros ? s' Hs'. apply wp_bind. eapply wp_mono; [apply (advance_wp 1 e 9); lia| |done].
    intros ? s1 H1. eapply wp_mono; [apply (arg_seq arg Harg); destruct H1; lia| |done].
    intros ? s2 H2. eapply rel_trans; [lia|exact H1|exact H2].
  - eapply wp_mono; [apply skip_pkg_wp; simpl; lia| |done].
    intros ? s1 H1. apply Hback. eapply rel_mono; [|exact H1]; lia.
  - apply wp_ret, Hback, rel_refl.
Qed.

Lemma skip_op_wp op s :
  lo ≤ pos s ≤ e → 1 ≤ pos s → data !! Z.to_nat (pos s - 1) = Some op →
  wp (skip_op data arg op e) (λ _, rel e 9 s) never s.
Proof.
  intros Hs H1 Hop. unfold skip_op.
  destruct (case op [AML_ROOT_CHAR; AML_PARENT_CHAR]) eqn:Hroot; cbv iota;
  repeat match goal with |- wp (if ?b then _ else _) _ _ _ => destruct b end;
    try (apply wp_ret, rel_refl); try (apply advance_wp; lia); try (apply Harg; lia);
    try (apply (arg_seq arg Harg); lia); try (apply skip_ext_wp; lia).
  all: try (eapply wp_mono; [apply skip_string_wp; unfold FUEL, N in *; lia|intros ? s'; apply rel_mono; lia|done]).
  all: try (eapply wp_mono; [apply skip_pkg_wp; lia|intros ? s'; apply rel_mono; lia|done]).
  all: try (apply (arg_seq (arg ;; arg) (arg_seq arg Harg)); lia).
  all: try (apply (arg_seq (arg ;; arg ;; arg) (arg_seq (arg ;; arg) (arg_seq arg Harg))); lia).
  all: try (apply (guard_bind lo); [lia|lia| |done|lia]; eapply guard_mono; [done| |by apply sc_namestring_guard]; lia).
  apply wp_bind. eapply wp_ok; [done|]. rewrite u32_small by lia. apply wp_bind.
  eapply wp_mono; [apply (sc_namestring_root e _ op); [simpl; lia|done|done|]|intros ? s' [H2 H3]|done].
  - unfold case in Hroot. simpl in Hroot. by rewrite orb_false_r in Hroot.
  - simpl in H2, H3. apply wp_ret. split; [done|lia].
Qed.
End skip.

Lemma sc_skip_term_wp fuel e s :
  0 ≤ pos s ≤ N + 9 → e ≤ N → e - pos s ≤ Z.of_nat fuel →
  wp (sc_skip_term data fuel e) (λ _ s', rel e 9 s s' ∧ (pos s < e → pos s < pos s')) never s.
Proof.
  revert s. induction fuel as [|fuel IH]; intros s Hp He Hf; simpl; wp_steps;
    destruct (Z.leb_spec e (pos s)); try (apply wp_ret; split; [apply rel_refl|lia]); [lia|].
  destruct (sc_read_ok e s) as (op & Hop & _ & Hl); [lia..|]. apply wp_bind. eapply wp_ok; [exact Hop|].
  eapply wp_mono; [apply (skip_op_wp (pos s + 1)); simpl; try lia|..|done].
  - intros s1 Hs1. eapply wp_mono; [apply IH; lia|by intros ?? []|done].
  - by replace (pos s + 1 - 1) with (pos s) by lia.
  - intros ? s' [H1 H2]. simpl in *. split; [split; [done|lia]|lia].
Qed.

Lemma sc_skip_guard lo e : 0 ≤ lo → e ≤ N → guard lo e 9 (sc_skip_term data (FUEL data) e).
Proof.
  intros Hlo He s Hs. eapply wp_mono; [apply sc_skip_term_wp; unfold FUEL, N in *; lia|by intros ?? []|done].
Qed.

(** ** The scan *)

(** The tables stay well formed and no field is added. *)
Definition keep (g g' : aml) : Prop := wf g' ∧ g_ec_fields g' = g_ec_fields g.

Lemma keep_trans g1 g2 g3 : keep g1 g2 → keep g2 g3 → keep g1 g3.
Proof. intros [_ H1] [H2 H3]. split; [done|congruence]. Qed.

Lemma attach_method_keep seg p body_end g : wf g → keep g (attach_method data seg p body_end g).
Proof.
  intros Hwf. unfold attach_method. repeat case_match; split; try done;
    destruct Hwf; split; simpl; rewrite ?length_alter; done.
Qed.

Lemma count_battery_keep g : wf g → keep g (count_battery g).
Proof.
  intros Hwf. unfold count_battery. destruct (Z.ltb_spec (g_battery_count g) MAX_BATTERIES); [|done].
  case_match; split; try done. destruct Hwf. split; simpl; [done|lia|done].
Qed.

Lemma le_at_ok n p s : 0 ≤ p → p + Z.of_nat n ≤ N → ∃ v, le_at data n p s = Ok (v, s).
Proof.
  revert p. induction n as [|n IH]; intros p Hp Hn; simpl; [by eexists|].
  destruct (byte_at_ok p s) as (b & Hb & _); [lia|]. rewrite (bind_of_ok _ _ _ _ _ Hb).
  destruct (IH (p + 1)) as [v Hv]; [lia..|]. rewrite (bind_of_ok _ _ _ _ _ Hv). by eexists.
Qed.

Lemma match_string_ok want i e s : 0 ≤ i → e ≤ N → ∃ b, match_string data want i e s = Ok (b, s).
Proof.
  intros Hi He. revert i Hi. induction want as [|c want IH]; intros i Hi; simpl; [by eexists|].
  destruct (Z.leb_spec e i); [by eexists|].
  destruct (byte_at_ok i s) as (b & Hb & _); [lia|]. rewrite (bind_of_ok _ _ _ _ _ Hb).
  destruct (b =? c); [|by eexists]. apply IH. rewrite u32_small; lia.
Qed.

Lemma battery_hid_ok e s : 0 ≤ pos s → e ≤ N → ∃ b, battery_hid data e s = Ok (b, s).
Proof.
  intros Hp He. unfold battery_hid. rewrite (bind_of_ok _ _ s (pos s) s) by done.
  destruct (Z.ltb_spec (pos s) e); [|by eexists].
  destruct (sc_peek_ok e s) as (b & Hb & _); [done..|]. rewrite (bind_of_ok _ _ _ _ _ Hb).
  rewrite (u32_small (pos s + 5)), (u32_small (pos s + 1)) by lia.
  destruct (b =? AML_DWORD); cbn [andb].
  - destruct (Z.leb_spec (pos s + 5) e); [|destruct (b =? AML_STRING); [apply match_string_ok; lia|by eexists]].
    destruct (le_at_ok 4 (pos s + 1) s) as [v Hv]; [lia..|]. rewrite (bind_of_ok _ _ _ _ _ Hv). by eexists.
  - destruct (b =? AML_STRING); [apply match_string_ok; lia|by eexists].
Qed.

Lemma set_glob_wp f (Q : unit → scan → Prop) s : Q tt (mkScan (pos s) (f (glob s))) → wp (set_glob f) Q never s.
Proof. done. Qed.

(** Scanning one term from [s]: what is needed of the position and the tables afterwards. *)
Definition scanned (e : Z) (s s' : scan) : Prop :=
  keep (glob s) (glob s') ∧ pos s ≤ pos s' ≤ Z.max (pos s) (e + 9).

Lemma rel_scanned e k s s' : k ≤ 9 → wf (glob s) → rel e k s s' → scanned e s s'.
Proof. intros Hk Hwf [Hg Hp]. unfold same_glob in Hg. split; [split; congruence|lia]. Qed.

Lemma min_end_bounds r e lo : lo ≤ r → lo ≤ e → lo ≤ min_end r e ≤ e.
Proof. unfold min_end. destruct (Z.ltb_spec e r); lia. Qed.

Lemma scan_method_wp e s :
  0 ≤ pos s < e → e ≤ N → wf (glob s) →
  wp (scan_method data e) (λ _ s', scanned e s s' ∧ pos s < pos s') never s.
Proof.
  intros Hp He Hwf. unfold scan_method. apply wp_bind.
  destruct (sc_read_ok e s) as (b & Hb & _); [lia..|]. eapply wp_ok; [exact Hb|].
  apply wp_bind. eapply wp_mono; [apply sc_pkglen_wp; simpl; lia| |done]. intros r s1 [Hr H1]. simpl in Hr.
  assert (pos s + 1 ≤ pos s1 ≤ e) as Hs1 by (destruct H1 as [_ H1]; simpl in H1; lia).
  pose proof (min_end_bounds r e (pos s + 1) Hr ltac:(lia)) as Hend.
  eapply (wp_guard 0); [by apply sc_namestring_guard|lia|]. intros seg s2 [Hg2 Hp2].
  wp_steps. simpl. split; [split|]; simpl; [|lia..].
  destruct H1 as [Hg1 _]. unfold same_glob in Hg1, Hg2. simpl in Hg1. rewrite Hg2, Hg1. by apply attach_method_keep.
Qed.

Lemma scan_name_wp e s :
  0 ≤ pos s < e → e ≤ N → wf (glob s) →
  wp (scan_name data e) (λ _ s', scanned e s s' ∧ pos s < pos s') never s.
Proof.
  intros Hp He Hwf. unfold scan_name. apply wp_bind.
  destruct (sc_read_ok e s) as (b & Hb & _); [lia..|]. eapply wp_ok; [exact Hb|].
  eapply (wp_guard 0); [by apply sc_namestring_guard|simpl; lia|]. intros seg s1 [Hg1 Hp1]. simpl in Hg1, Hp1.
  assert (∃ is_bat, (if seg_eq seg name_HID then battery_hid data e else mret false) s1 = Ok (is_bat, s1))
    as [is_bat Hbat] by (destruct (seg_eq seg name_HID); [apply battery_hid_ok; lia|by eexists]).
  apply wp_bind. eapply wp_ok; [exact Hbat|].
  eapply (wp_guard 0); [by apply sc_skip_guard|lia|]. intros [] s2 [Hg2 Hp2].
  assert (glob s2 = glob s) as Hg by (unfold same_glob in *; simpl in *; congruence).
  destruct is_bat; [apply set_glob_wp|apply wp_ret]; simpl; (split; [|simpl; lia]); (split; [|simpl; lia]); simpl;
    rewrite Hg; [by apply count_battery_keep|done].
Qed.

Section body.
Context (termlist : Z → M scan unit) (e lo : Z) (He : e ≤ N) (Hlo : 0 ≤ lo).
Context (Hlist : ∀ e' s, e' ≤ e → lo ≤ pos s ≤ N + 9 → wf (glob s) →
  wp (termlist e') (λ _ s', keep (glob s) (glob s')) never s).

Lemma scan_body_wp s :
  lo ≤ pos s ≤ e → wf (glob s) → wp (scan_body data termlist e) (λ _, scanned e s) never s.
Proof.
  intros Hp Hwf. unfold scan_body. apply wp_bind.
  eapply wp_mono; [apply sc_pkglen_wp; lia| |done]. intros r s1 [Hr [Hg1 Hp1]].
  pose proof (min_end_bounds r e (pos s) Hr ltac:(lia)) as Hend.
  eapply (wp_guard 0); [by apply sc_namestring_guard|lia|]. intros seg s2 [Hg2 Hp2].
  unfold same_glob in Hg1, Hg2. apply wp_bind. eapply wp_mono; [apply Hlist; [lia..|congruence]| |done].
  intros ? s3 Hk. eapply wp_ok; [done|]. split; simpl; [|lia].
  by rewrite Hg2, Hg1 in Hk.
Qed.

Lemma sc_scan_term_wp s :
  0 ≤ pos s < e → lo ≤ pos s + 1 → wf (glob s) →
  wp (sc_scan_term data termlist e) (λ _ s', scanned e s s' ∧ pos s < pos s') never s.
Proof.
  intros Hp Hlo1 Hwf. unfold sc_scan_term, advance. wp_steps.
  rewrite (proj2 (Z.leb_gt _ _)) by lia. apply wp_bind.
  destruct (sc_peek_ok e s) as (op & Hop & _ & Hl); [lia..|]. eapply wp_ok; [exact Hop|].
  assert (wp (sc_skip_term data (FUEL data) e) (λ _ s', scanned e s s' ∧ pos s < pos s') never s) as Hskip.
  { eapply wp_mono; [apply sc_skip_term_wp; unfold FUEL, N in *; lia| |done].
    intros ? s' [H1 H2]. split; [by apply (rel_scanned e 9)|lia]. }
  assert (∀ q, pos s < q ≤ e → lo ≤ q →
    wp (scan_body data termlist e) (λ _ s', scanned e s s' ∧ pos s < pos s') never (mkScan q (glob s))) as Hbody.
  { intros q Hq Hlq. eapply wp_mono; [apply scan_body_wp; simpl; [lia|done]| |done].
    intros ? s' [Hk Hps]. simpl in Hk, Hps. split; [split; [done|]|]; lia. }
  destruct ((op =? AML_SCOPE) || (op =? AML_EXT_PREFIX)) eqn:E1.
  - destruct (op =? AML_EXT_PREFIX) eqn:E2.
    + wp_steps. cbn [pos glob]. rewrite u32_small by lia. destruct (Z.leb_spec e (pos s + 1)).
      { apply wp_ret. split; [split; [by split|]|]; simpl; lia. }
      destruct (sc_peek_ok e (mkScan (pos s + 1) (glob s))) as (x & Hx & _); cbn [pos]; [lia..|].
      apply wp_bind. eapply wp_ok; [exact Hx|]. destruct (negb (x =? AML_EXT_DEVICE)).
      * wp_steps. cbn [pos glob]. rewrite u32_small by lia. replace (pos s + 1 + -1) with (pos s) by lia.
        by destruct s.
      * apply wp_bind. destruct (sc_read_ok e (mkScan (pos s + 1) (glob s))) as (y & Hy & _); cbn [pos]; [lia..|].
        eapply wp_ok; [exact Hy|]. apply Hbody; simpl; lia.
    + apply wp_bind. destruct (sc_read_ok e s) as (y & Hy & _); [lia..|].
      eapply wp_ok; [exact Hy|]. apply Hbody; lia.
  - apply orb_false_iff in E1 as [_ E2]. rewrite E2.
    destruct (op =? AML_METHOD); [by apply scan_method_wp|].
    destruct (op =? AML_NAME); [by apply scan_name_wp|]. done.
Qed.
End body.

Lemma sc_scan_termlist_wp fuel e s :
  0 ≤ pos s ≤ N + 9 → e ≤ N → e - pos s ≤ Z.of_nat fuel → wf (glob s) →
  wp (sc_scan_termlist data fuel e) (λ _ s', keep (glob s) (glob s')) never s.
Proof.
  revert e s. induction fuel as [|fuel IH]; intros e s Hp He Hf Hwf; simpl; wp_steps;
    destruct (Z.ltb_spec (pos s) e); try (by apply wp_ret); [lia|].
  apply wp_bind. eapply wp_mono; [apply (sc_scan_term_wp _ e (pos s + 1)); try lia; [|done]| |done].
  - intros e' s1 He' Hs1 Hwf1. apply IH; [lia..|done].
  - intros ? s' [[Hk Hp1] Hp2]. eapply wp_mono; [apply IH; [lia..|apply Hk]| |done].
    intros ? s''. by apply keep_trans.
Qed.
End scan.

Lemma aml_scan_run data g :
  Forall is_byte data → Z.of_nat (length data) < 2 ^ 31 → wf g →
  ∃ g', aml_scan data (Z.of_nat (length data)) g = Ok (tt, g') ∧ keep g g'.
Proof.
  intros Hb Hn Hwf.
  destruct (wp_run _ _ _ (sc_scan_termlist_wp data Hb Hn (Z.to_nat (Z.of_nat (length data)))
    (Z.of_nat (length data)) (mkScan 0 g) ltac:(simpl; lia) ltac:(lia) ltac:(simpl; lia) Hwf))
    as ([] & s' & Hrun & Hk).
  exists (glob s'). split; [|done]. unfold aml_scan. by rewrite Hrun.
Qed.

(** C28: scanning any ACPI table terminates and keeps the tables in their
    arrays. For every list of bytes shorter than two gigabytes, however
    malformed, the scan returns, reads no byte outside the table,
    and leaves at most four batteries and at most 128 fields recorded. *)
Theorem aml_scan_safe data g :
  Forall is_byte data → Z.of_nat (length data) < 2 ^ 31 → wf g →
  ∃ g', aml_scan data (Z.of_nat (length data)) g = Ok (tt, g') ∧ wf g'.
Proof. intros Hb Hn Hwf. destruct (aml_scan_run data g Hb Hn Hwf) as (g' & Hrun & [Hw _]). eauto. Qed.

(** The scan never records a field of the embedded controller. The branch of the
    term scanner that parses a Field is behind a test that takes every
    extended opcode first, so whatever the table holds, the field table is
    the one before the scan, and after the scans of the boot every field name evaluates to 0. *)
Theorem aml_scan_records_no_field data g :
  Forall is_byte data → Z.of_nat (length data) < 2 ^ 31 → wf g →
  ∃ g', aml_scan data (Z.of_nat (length data)) g = Ok (tt, g') ∧ g_ec_fields g' = g_ec_fields g.
Proof. intros Hb Hn Hwf. destruct (aml_scan_run data g Hb Hn Hwf) as (g' & Hrun & [_ Hf]). eauto. Qed.

(** ** A battery device

    [Device (BAT0) { Name (_HID, hid) Method (_BST) { Return (Package (4) {1, 2, 3, 4}) } }] *)

Definition bst_body : list Z := [0xA4; 0x12; 0x0A; 4; 0x0A; 1; 0x0A; 2; 0x0A; 3; 0x0A; 4].
Definition bst_method : list Z := [0x14; 18] ++ name_BST ++ [0] ++ bst_body.
Definition battery_table (hid : list Z) : list Z :=
  [0x5B; 0x82; Z.of_nat (length hid) + 29] ++ [66; 65; 84; 48] ++ [0x08] ++ name_HID ++ hid ++ bst_method.

(** The hardware identifier as a string, and as the integer the ACPI
    specification compresses it to: three letters of five bits and four hex digits,
    most significant byte first. *)
Definition hid_string : list Z := [AML_STRING] ++ battery_string ++ [0].
Definition eisa_id (c1 c2 c3 product : Z) : list Z :=
  let v := Z.lor (Z.lor (Z.shiftl (c1 - 64) 26) (Z.shiftl (c2 - 64) 21)) (Z.lor (Z.shiftl (c3 - 64) 16) product) in
  [Z.shiftr v 24; Z.land (Z.shiftr v 16) 255; Z.land (Z.shiftr v 8) 255; Z.land v 255].
Definition hid_eisa : list Z := [AML_DWORD] ++ eisa_id 80 78 80 0x0C0A.

Lemma battery_table_bytes : Forall is_byte (battery_table hid_string).
Proof. apply (bool_decide_unpack _). by vm_compute. Qed.

Lemma aml_boot_wf : wf aml_boot.
Proof. split; by vm_compute. Qed.

Lemma aml_scan_safe_witness :
  ∃ g', aml_scan (battery_table hid_string) (Z.of_nat (length (battery_table hid_string))) aml_boot = Ok (tt, g') ∧ wf g'.
Proof. apply (aml_scan_safe _ aml_boot battery_table_bytes); [by vm_compute|apply aml_boot_wf]. Defined.

(** A Field of an operation region with the field BAT1. *)
Definition field_table : list Z := [0x5B; 0x81; 11; 69; 67; 82; 95; 0; 66; 65; 84; 49; 8].

Lemma field_table_bytes : Forall is_byte field_table.
Proof. apply (bool_decide_unpack _). by vm_compute. Qed.

Lemma aml_scan_records_no_field_witness :
  ∃ g', aml_scan field_table (Z.of_nat (length field_table)) aml_boot = Ok (tt, g') ∧ g_ec_fields g' = [].
Proof. apply (aml_scan_records_no_field _ aml_boot field_table_bytes); [by vm_compute|apply aml_boot_wf]. Defined.

(** The field list parser itself finds the field. *)
Lemma field_list_finds :
  ∃ s', sc_parse_field_list field_table (FUEL field_table) 12 0 12 (mkScan 8 aml_boot) = Ok (tt, s') ∧
    map f_name (g_ec_fields (glob s')) = [[66; 65; 84; 49]].
Proof. eexists. by vm_compute. Qed.

(** A battery whose hardware identifier is the integer form of PNP0C0A, the form
    firmware uses, is not found. Its bytes read as the integer 0x0A0CD041,
    not as the constant the scanner compares with, so the scan counts no
    battery; the same device with the identifier as a string is counted and has its method. *)
Theorem eisa_battery_missed :
  (∃ v, le_at hid_eisa 4 1 (mkScan 0 aml_boot) = Ok (v, mkScan 0 aml_boot) ∧ v = 0x0A0CD041 ∧ v ≠ BATTERY_HID) ∧
  (∃ g, aml_scan (battery_table hid_eisa) (Z.of_nat (length (battery_table hid_eisa))) aml_boot = Ok (tt, g) ∧
     aml_battery_count g = 0) ∧
  (∃ g b, aml_scan (battery_table hid_string) (Z.of_nat (length (battery_table hid_string))) aml_boot = Ok (tt, g) ∧
     aml_battery_count g = 1 ∧ g_batteries g !! 0%nat = Some b ∧
     take (Z.to_nat (bst_len b)) <$> bst_aml b = Some bst_body).
Proof.
  split; [|split].
  - eexists. split; [by vm_compute|]. by split.
  - eexists. by vm_compute.
  - eexists _, _. split; [by vm_compute|]. by vm_compute.
Qed.

(** Four batteries are counted, but the methods of the fourth are dropped. *)
Lemma fourth_battery_has_no_method :
  ∃ g b, aml_scan (concat (replicate 4 (battery_table hid_string)))
      (Z.of_nat (length (concat (replicate 4 (battery_table hid_string))))) aml_boot = Ok (tt, g) ∧
    aml_battery_count g = 4 ∧ g_batteries g !! 3%nat = Some b ∧ bst_aml b = None.
Proof. eexists _, _. split; [by vm_compute|]. by vm_compute. Qed.

(** A method shorter than its header is recorded with a length of almost four gigabytes. *)
Lemma short_method_length_wraps :
  ∃ g b, aml_scan ([0x14; 1] ++ name_BST ++ [0]) 7 aml_boot = Ok (tt, g) ∧
    g_batteries g !! 0%nat = Some b ∧ bst_len b = 2 ^ 32 - 5.
Proof. eexists _, _. split; [by vm_compute|]. by vm_compute. Qed.
End AmlScan.
