(* ===== verification/AmlEval.v ===== *)
(** * The ACPI evaluator terminates and evaluates assembled methods

    First the moves of the evaluator over the method's bytes ([Moves]); then an
    assembler for a small language of statements and expressions, and that
    running its output computes the meaning of the program. *)
From S2P Require Import Prelude Moves Aml.
Import Aml.

Module AmlEval.

Section eval.
Context {D : Type} (ec_read : Z → M D Z) (g : aml) (data : list Z).
Let N : Z := Z.of_nat (length data).
Context (Hec : ∀ r d, ∃ v d', ec_read r d = Ok (v, d')).
Context (Hbytes : Forall is_byte data) (Hsize : N < 2 ^ 31).
Implicit Types (s : @ev D) (e k lo p : Z).

Definition any (s s' : @ev D) : Prop := True.
Instance any_preorder : PreOrder any.
Proof. by split. Qed.

Local Notation rel := (Moves.rel epos any).
Local Notation guard := (Moves.guard epos any (N + 9)).
Local Notation rel_refl := (Moves.rel_refl epos any).
Local Notation rel_trans := (Moves.rel_trans epos any).
Local Notation rel_mono := (Moves.rel_mono epos any).
Local Notation guard_ret := (Moves.guard_ret epos any (N + 9)).
Local Notation guard_gets := (Moves.guard_gets epos any (N + 9)).
Local Notation guard_bind := (Moves.guard_bind epos any (N + 9)).
Local Notation guard_mono := (Moves.guard_mono epos any (N + 9)).
Local Notation wp_guard := (Moves.wp_guard epos any (N + 9)).

(** ** Reading *)

Lemma ev_byte_at_ok p s :
  0 ≤ p < N → ∃ b, ev_byte_at data p s = Ok (b, s) ∧ is_byte b ∧ data !! Z.to_nat p = Some b.
Proof.
  intros Hp. destruct (lookup_lt_is_Some_2 data (Z.to_nat p)) as [b Hb]; [lia|].
  exists b. unfold ev_byte_at. rewrite (proj2 (Z.leb_le 0 p)) by lia. rewrite Hb. split_and!; [done| |done].
  rewrite Forall_forall in Hbytes. apply Hbytes. by eapply list_elem_of_lookup_2.
Qed.

Lemma ev_peek_ok e s :
  0 ≤ epos s → epos s < e → e ≤ N →
  ∃ b, ev_peek data e s = Ok (b, s) ∧ data !! Z.to_nat (epos s) = Some b.
Proof.
  intros Hp He HN. destruct (ev_byte_at_ok (epos s) s ltac:(lia)) as (b & Hb & Hr & Hl).
  exists b. split; [|done]. unfold ev_peek. rewrite (bind_of_ok _ _ s (epos s) s) by done.
  by rewrite (proj2 (Z.ltb_lt _ _) He).
Qed.

Lemma ev_peek_end e s : e ≤ epos s → ev_peek data e s = Ok (0, s).
Proof.
  intros He. unfold ev_peek. rewrite (bind_of_ok _ _ s (epos s) s) by done.
  by rewrite (proj2 (Z.ltb_ge _ _) He).
Qed.

(** The state with the position moved to [p]. *)
Definition at_pos (p : Z) (s : @ev D) : ev := mkEv p (locals s) (done s) (dev s).

Lemma ev_read_ok e s :
  0 ≤ epos s → epos s < e → e ≤ N →
  ∃ b, ev_read data e s = Ok (b, at_pos (epos s + 1) s) ∧ is_byte b ∧ data !! Z.to_nat (epos s) = Some b.
Proof.
  intros Hp He HN. destruct (ev_byte_at_ok (epos s) s ltac:(lia)) as (b & Hb & Hr & Hl).
  exists b. split; [|done]. unfold ev_read. rewrite (bind_of_ok _ _ s (epos s) s) by done.
  rewrite (proj2 (Z.ltb_lt _ _) He). rewrite (bind_of_ok _ _ _ _ _ Hb).
  rewrite (bind_of_ok _ _ s tt (at_pos (u32 (epos s + 1)) s)) by done.
  by rewrite u32_small by lia.
Qed.

Lemma ev_read_end e s : e ≤ epos s → ev_read data e s = Ok (0, s).
Proof.
  intros He. unfold ev_read. rewrite (bind_of_ok _ _ s (epos s) s) by done.
  by rewrite (proj2 (Z.ltb_ge _ _) He).
Qed.

Lemma ev_read_wp e s :
  0 ≤ epos s → e ≤ N → wp (ev_read data e) (λ b s', is_byte b ∧ rel e 0 s s') never s.
Proof.
  intros Hp He. destruct (decide (epos s < e)) as [Hlt|Hge].
  - destruct (ev_read_ok e s) as (b & Hb & Hr & _); [done..|]. eapply wp_ok; [exact Hb|].
    split; [done|]. split; simpl; [done|lia].
  - eapply wp_ok; [apply ev_read_end; lia|]. split; [split; lia|apply rel_refl].
Qed.

Lemma ev_read_guard lo e : 0 ≤ lo → e ≤ N → guard lo e 0 (ev_read data e).
Proof. intros Hlo He s Hs. eapply wp_mono; [apply ev_read_wp; lia|by intros ?? []|done]. Qed.

Lemma ev_peek_guard lo e : 0 ≤ lo → e ≤ N → guard lo e 0 (ev_peek data e).
Proof.
  intros Hlo He s Hs. destruct (decide (epos s < e)) as [Hlt|Hge].
  - destruct (ev_peek_ok e s) as (b & Hb & _); [lia..|]. eapply wp_ok; [exact Hb|apply rel_refl].
  - eapply wp_ok; [apply ev_peek_end; lia|apply rel_refl].
Qed.

Lemma ev_pkglen_bytes_wp n i len e s :
  0 ≤ i → i + Z.of_nat n ≤ 3 → 0 ≤ len < 2 ^ 28 → 0 ≤ epos s → e ≤ N →
  wp (ev_pkglen_bytes data n i len e) (λ r s', 0 ≤ r < 2 ^ 28 ∧ rel e 0 s s') never s.
Proof.
  revert i len s. induction n as [|n IH]; intros i len s Hi Hn Hlen Hp He; simpl.
  { apply wp_ret. split; [done|apply rel_refl]. }
  wp_steps. destruct (epos s <? e).
  - apply wp_bind. eapply wp_mono; [by apply ev_read_wp| |done]. intros b s1 [Hb H1].
    assert (0 ≤ epos s1) by (destruct H1; lia).
    eapply wp_mono; [apply IH; try lia| |done].
    + apply lor_bound; [lia|done|apply shifted_byte; [done|lia]].
    + intros r s2 [Hr H2]. split; [done|]. eapply rel_trans; [|eassumption..]; lia.
  - apply wp_ret. split; [done|apply rel_refl].
Qed.

Lemma ev_pkglen_wp e s :
  0 ≤ epos s ≤ N + 9 → e ≤ N → wp (ev_pkglen data e) (λ r s', epos s ≤ r ∧ rel e 0 s s') never s.
Proof.
  intros Hp He. unfold ev_pkglen. wp_steps. destruct (Z.leb_spec e (epos s)).
  { apply wp_ret. split; [lia|apply rel_refl]. }
  apply wp_bind. eapply wp_mono; [apply ev_read_wp; lia| |done]. intros b s1 [Hb H1].
  pose proof (land_small b 6 ltac:(lia)) as H6. pose proof (land_small b 4 ltac:(lia)) as H4.
  pose proof (land_small (Z.shiftr b 6) 2 ltac:(lia)) as H3.
  change (Z.ones 6) with 0x3F in H6. change (Z.ones 4) with 0x0F in H4. change (Z.ones 2) with 3 in H3.
  destruct (_ =? 0).
  - apply wp_ret. split; [rewrite u32_small; lia|done].
  - apply wp_bind. eapply wp_mono; [apply ev_pkglen_bytes_wp; destruct H1; lia| |done].
    intros r s2 [Hr H2]. apply wp_ret. split; [rewrite u32_small; lia|].
    eapply rel_trans; [|eassumption..]; lia.
Qed.

(** ** Names *)

Lemma ev_chars_guard lo n e : 0 ≤ lo → e ≤ N → guard lo e 0 (ev_chars data n e).
Proof.
  intros Hlo He. induction n as [|n IH]; simpl; [apply guard_ret|].
  apply guard_bind; [lia|lia|by apply ev_read_guard|intros c].
  apply guard_bind; [lia|lia|done|intros; apply guard_ret].
Qed.

Lemma ev_chars_in_guard lo seg e : 0 ≤ lo → e ≤ N → guard lo e 0 (ev_chars_in data seg e).
Proof.
  intros Hlo He. induction seg as [|c seg IH]; simpl; [apply guard_ret|].
  apply guard_bind; [lia|lia|apply guard_gets|intros p]. destruct (p <? e); [|apply guard_ret].
  apply guard_bind; [lia|lia|by apply ev_read_guard|intros c'].
  apply guard_bind; [lia|lia|done|intros; apply guard_ret].
Qed.

Lemma ev_multi_name_guard lo n seg e : 0 ≤ lo → e ≤ N → guard lo e 0 (ev_multi_name data n seg e).
Proof.
  intros Hlo He. revert seg. induction n as [|n IH]; intros seg; cbn [ev_multi_name]; [apply guard_ret|].
  apply guard_bind; [lia|lia|apply guard_gets|intros p]. destruct (_ <=? _); [|apply guard_ret].
  apply guard_bind; [lia|lia|by apply ev_chars_guard|done].
Qed.

Lemma ev_skip_roots_wp fuel e s :
  0 ≤ epos s → e ≤ N → Z.max 0 (e - epos s) < Z.of_nat fuel →
  wp (ev_skip_roots data fuel e) (λ _, rel e 0 s) never s.
Proof.
  revert s. induction fuel as [|fuel IH]; intros s Hp He Hf; [lia|]. simpl. wp_steps.
  destruct (decide (epos s < e)) as [Hlt|Hge].
  - destruct (ev_peek_ok e s) as (b & Hb & _); [done..|]. eapply wp_ok; [exact Hb|].
    destruct (_ && _); [|apply wp_ret, rel_refl].
    destruct (ev_read_ok e s) as (b' & Hb' & _); [done..|].
    apply wp_bind. eapply wp_ok; [exact Hb'|]. eapply wp_mono; [apply IH; simpl; lia| |done].
    intros ? s' [H1 H2]. simpl in *. split; [done|lia].
  - eapply wp_ok; [apply ev_peek_end; lia|]. rewrite (proj2 (Z.ltb_ge _ _)) by lia. apply wp_ret, rel_refl.
Qed.

Lemma ev_skip_roots_guard lo e : 0 ≤ lo → e ≤ N → guard lo e 0 (ev_skip_roots data (EV_FUEL data) e).
Proof. intros Hlo He s Hs. apply ev_skip_roots_wp; unfold EV_FUEL, N in *; lia. Qed.

Lemma ev_name_guard lo e : 0 ≤ lo → e ≤ N → guard lo e 0 (ev_name data e).
Proof.
  intros Hlo He. unfold ev_name.
  apply guard_bind; [lia|lia|apply guard_gets|intros p].
  destruct (e <=? p); [apply guard_ret|].
  apply guard_bind; [lia|lia|by apply ev_peek_guard|intros b].
  repeat case_match; try apply guard_ret; try (by apply ev_chars_in_guard);
    (apply guard_bind; [lia|lia|by apply ev_read_guard|intros ?]).
  - apply guard_ret.
  - apply guard_bind; [lia|lia|by apply ev_chars_guard|intros ?; by apply ev_chars_in_guard].
  - apply guard_bind; [lia|lia|by apply ev_read_guard|intros c; by apply ev_multi_name_guard].
Qed.

Lemma ev_namestring_guard lo e : 0 ≤ lo → e ≤ N → guard lo e 0 (ev_namestring data e).
Proof.
  intros Hlo He. apply guard_bind; [lia|lia|by apply ev_skip_roots_guard|intros ?; by apply ev_name_guard].
Qed.

(** The characters that start a name at which [eval_op] steps back. *)
Definition name_prefix (b : Z) : bool := case b [AML_ROOT_CHAR; AML_PARENT_CHAR; AML_DUAL_NAME; AML_MULTI_NAME].

Lemma ev_namestring_progress e s b :
  0 ≤ epos s < e → e ≤ N → data !! Z.to_nat (epos s) = Some b → name_prefix b = true →
  wp (ev_namestring data e) (λ _ s', epos s + 1 ≤ epos s' ≤ e) never s.
Proof.
  intros Hp He Hb Hpre. unfold ev_namestring. apply wp_bind. unfold EV_FUEL. simpl ev_skip_roots. wp_steps.
  destruct (ev_peek_ok e s) as (b1 & Hpk & Hb1); [lia..|]. eapply wp_ok; [exact Hpk|].
  assert (b1 = b) as -> by congruence. rewrite (proj2 (Z.ltb_lt _ _)) by lia. cbn [andb].
  destruct (ev_read_ok e s) as (b2 & Hrd & _); [lia..|].
  destruct (_ || _) eqn:Hroot.
  - apply wp_bind. eapply wp_ok; [exact Hrd|].
    eapply wp_mono; [apply ev_skip_roots_wp; simpl; unfold N in *; lia| |done]. intros ? s1 [_ H1]. simpl in H1.
    eapply wp_mono; [apply (ev_name_guard 0); unfold N in *; lia|intros ? s2 [_ H2]|done]. lia.
  - apply wp_ret. unfold ev_name. wp_steps. rewrite (proj2 (Z.leb_gt _ _)) by lia. apply wp_bind.
    eapply wp_ok; [exact Hpk|]. unfold name_prefix, case in Hpre. simpl in Hpre. rewrite orb_false_r, orb_assoc in Hpre.
    rewrite Hroot in Hpre. simpl in Hpre.
    assert (∀ (f : Z → M (@ev D) (list Z)), (∀ c, guard 0 e 0 (f c)) →
      wp (ev_read data e ≫= f) (λ _ s', epos s + 1 ≤ epos s' ≤ e) never s) as Hcont.
    { intros f Hf. apply wp_bind. eapply wp_ok; [exact Hrd|].
      eapply wp_mono; [apply Hf; simpl; unfold N in *; lia|intros ? s2 [_ H2]|done]. simpl in H2. lia. }
    destruct (b =? 0) eqn:H0; [apply Hcont; intros; apply guard_ret|].
    destruct (b =? AML_DUAL_NAME); [|destruct (b =? AML_MULTI_NAME); [|done]]; apply Hcont; intros c.
    + apply guard_bind; [lia|lia|by apply ev_chars_guard|intros ?; by apply ev_chars_in_guard].
    + apply guard_bind; [lia|lia|by apply ev_read_guard|intros ?; by apply ev_multi_name_guard].
Qed.

(** ** Terms *)

Lemma ev_skip_supername_guard lo e : 0 ≤ lo → e ≤ N → guard lo e 0 (ev_skip_supername data e).
Proof.
  intros Hlo He. unfold ev_skip_supername.
  apply guard_bind; [lia|lia|apply guard_gets|intros p]. destruct (e <=? p); [apply guard_ret|].
  apply guard_bind; [lia|lia|by apply ev_peek_guard|intros b].
  repeat case_match; (apply guard_bind; [lia|lia| |intros; apply guard_ret]);
    (by apply ev_read_guard) || (by apply ev_namestring_guard).
Qed.

Lemma read_bytes_ok n i off val d : ∃ v d', read_bytes ec_read n i off val d = Ok (v, d').
Proof.
  revert i val d. induction n as [|n IH]; intros i val d; simpl; [by do 2 eexists|].
  destruct (Hec (u8 (off + i)) d) as (b & d1 & Hb). rewrite (bind_of_ok _ _ _ _ _ Hb). apply IH.
Qed.

Lemma name_value_guard lo e k seg : guard lo e k (name_value ec_read g seg).
Proof.
  unfold name_value. destruct (find_ec_field g seg) as [f|]; [|apply guard_ret]. intros s Hs.
  unfold wp, mbind, M_bind, in_dev, zoom, read_ec_field, mbind, M_bind.
  destruct (read_bytes_ok (Z.to_nat (Z.min (u32 (bit_width f + 7) / 8) 8)) 0 (bit_offset f / 8) 0 (dev s))
    as (v & d' & ->). split; simpl; [done|lia].
Qed.

Lemma ev_le_at_ok n p s : 0 ≤ p → p + Z.of_nat n ≤ N → ∃ v, ev_le_at data n p s = Ok (v, s).
Proof.
  revert p. induction n as [|n IH]; intros p Hp Hn; simpl; [by eexists|].
  destruct (ev_byte_at_ok p s) as (b & Hb & _); [lia|]. rewrite (bind_of_ok _ _ _ _ _ Hb).
  destruct (IH (p + 1)) as [v Hv]; [lia..|]. rewrite (bind_of_ok _ _ _ _ _ Hv). by eexists.
Qed.

Lemma ev_const_wp n e s :
  0 ≤ epos s ≤ e → e ≤ N → (n ≤ 9)%nat → wp (ev_const data n e) (λ _, rel e 9 s) never s.
Proof.
  intros Hp He Hn. unfold ev_const. wp_steps. rewrite (u32_small (epos s + _)) by lia.
  assert (∃ v, (if epos s + Z.of_nat n <=? e then ev_le_at data n (epos s) else mret 0) s = Ok (v, s)) as [v Hv].
  { destruct (Z.leb_spec (epos s + Z.of_nat n) e); [apply ev_le_at_ok; lia|by eexists]. }
  eapply wp_ok; [exact Hv|]. wp_steps. eapply wp_ok; [done|].
  split; simpl; [done|]. rewrite u32_small; lia.
Qed.

Lemma min_end_range r e p : p ≤ r → p ≤ e → p ≤ min_end r e ≤ e.
Proof. unfold min_end. destruct (Z.ltb_spec e r); lia. Qed.

Lemma ev_skip_pkg_wp e s : 0 ≤ epos s ≤ e → e ≤ N → wp (ev_skip_pkg data e) (λ _, rel e 0 s) never s.
Proof.
  intros Hp He. unfold ev_skip_pkg. apply wp_bind. eapply wp_mono; [apply ev_pkglen_wp; lia| |done].
  intros r s1 [Hr H1]. pose proof (min_end_range r e (epos s) Hr ltac:(lia)).
  eapply wp_ok; [done|]. split; simpl; [done|lia].
Qed.

Section op.
Context (lo e : Z) (term : M (@ev D) eval_val) (Hlo : 0 ≤ lo) (He : e ≤ N) (Hterm : guard lo e 9 term).

Lemma pkg_loop_guard n elems body_end : guard lo e 9 (pkg_loop n elems body_end term).
Proof.
  revert elems. induction n as [|n IH]; intros elems; simpl; [apply guard_ret|].
  apply guard_bind; [lia|lia|apply guard_gets|intros p]. destruct (_ && _); [|apply guard_ret].
  apply guard_bind; [lia|lia|done|intros v; apply IH].
Qed.

Lemma ev_eval_package_wp s :
  lo ≤ epos s ≤ e → wp (ev_eval_package data term e) (λ _, rel e 9 s) never s.
Proof.
  intros Hs. unfold ev_eval_package. apply wp_bind. eapply wp_mono; [apply ev_pkglen_wp; lia| |done].
  intros r s1 [Hr [_ H1]]. pose proof (min_end_range r e (epos s) Hr ltac:(lia)).
  eapply (wp_guard lo); [by apply ev_read_guard|lia|]. intros n s2 [_ H2].
  eapply (wp_guard lo); [apply pkg_loop_guard|lia|]. intros elems s3 _.
  apply wp_bind. eapply wp_ok; [done|]. apply wp_ret. split; simpl; [done|lia].
Qed.

Lemma bump_guard d : guard lo e 0 (bump data d e).
Proof.
  unfold bump. apply guard_bind; [lia|lia|by apply ev_peek_guard|intros b].
  apply guard_bind; [lia|lia| |intros; apply guard_ret].
  destruct (is_local b); [|by apply ev_skip_supername_guard].
  apply guard_bind; [lia|lia|by apply ev_read_guard|intros ?].
  apply guard_bind; [lia|lia|apply guard_gets|intros v s Hs]. eapply wp_ok; [done|]. split; simpl; [done|lia].
Qed.

Lemma store_to_guard v : guard lo e 0 (store_to data v e).
Proof.
  unfold store_to. apply guard_bind; [lia|lia|by apply ev_peek_guard|intros b].
  destruct (is_local b); [|by apply ev_skip_supername_guard].
  apply guard_bind; [lia|lia|by apply ev_read_guard|intros ? s Hs]. eapply wp_ok; [done|]. split; simpl; [done|lia].
Qed.

Lemma eval_if_wp s : lo ≤ epos s ≤ e → wp (eval_if data term e) (λ _, rel e 9 s) never s.
Proof.
  intros Hs. unfold eval_if. apply wp_bind. eapply wp_mono; [apply ev_pkglen_wp; lia| |done].
  intros r s1 [Hr [_ H1]]. pose proof (min_end_range r e (epos s) Hr ltac:(lia)) as Hend.
  eapply (wp_guard lo); [exact Hterm|lia|]. intros v s2 _.
  apply wp_bind. eapply wp_ok; [done|]. set (s3 := mkEv (min_end r e) _ _ _).
  wp_steps. change (epos s3) with (min_end r e).
  eapply wp_mono; [apply (ev_peek_guard 0 e); [lia..|simpl; lia]| |done]. intros b s4 [_ H4]. simpl in H4.
  apply wp_bind. destruct ((min_end r e <? e) && (b =? AML_ELSE)).
  - eapply (wp_guard lo); [by apply ev_read_guard|lia|]. intros ? s5 [_ H5].
    eapply wp_mono; [apply ev_skip_pkg_wp; lia| |done]. intros ? s6 [_ H6]. apply wp_ret. split; [done|lia].
  - apply wp_ret, wp_ret. split; [done|lia].
Qed.

Lemma guard09 {A} (m : M (@ev D) A) : guard lo e 0 m → guard lo e 9 m.
Proof. apply (guard_mono lo lo e 0 9); lia. Qed.

Lemma supername9 : guard lo e 9 (ev_skip_supername data e).
Proof. by apply guard09, ev_skip_supername_guard. Qed.

Lemma read9 : guard lo e 9 (v ← ev_read data e; mret (int_val v)).
Proof.
  apply guard_bind; [lia|lia|by apply guard09, ev_read_guard|intros; apply guard_ret].
Qed.

Lemma return9 : guard lo e 9 (v ← term; set_done ;; mret v).
Proof.
  apply guard_bind; [lia|lia|exact Hterm|intros v].
  apply guard_bind; [lia|lia| |intros; apply guard_ret].
  intros s Hs. eapply wp_ok; [done|]. split; simpl; [done|lia].
Qed.

Lemma store9 : guard lo e 9 (src ← term; store_to data src e ;; mret src).
Proof.
  apply guard_bind; [lia|lia|exact Hterm|intros v].
  apply guard_bind; [lia|lia|apply guard09, store_to_guard|intros; apply guard_ret].
Qed.

Lemma operands9 (f : eval_val → eval_val → M (@ev D) eval_val) :
  (∀ a b, guard lo e 9 (f a b)) → guard lo e 9 (a ← term; b ← term; ev_skip_supername data e ;; f a b).
Proof.
  intros Hf. apply guard_bind; [lia|lia|exact Hterm|intros a].
  apply guard_bind; [lia|lia|exact Hterm|intros b].
  apply guard_bind; [lia|lia|exact supername9|intros; apply Hf].
Qed.

Lemma name9 op : guard lo e 9 (cs ← ev_chars_in data [0; 0; 0] e; name_value ec_read g (op :: cs)).
Proof.
  apply guard_bind; [lia|lia|by apply guard09, ev_chars_in_guard|intros; apply name_value_guard].
Qed.

Lemma skip9 s :
  lo ≤ epos s ≤ e → wp (ev_skip_pkg data e ;; mret EVAL_INVALID) (λ _, rel e 9 s) never s.
Proof.
  intros Hs. apply wp_bind. eapply wp_mono; [apply (ev_skip_pkg_wp e s); lia|intros ? s' Hs'|intros ? []].
  apply wp_ret, (rel_mono e 0 9); [lia|exact Hs'].
Qed.

Lemma eval_op_wp op s :
  lo ≤ epos s ≤ e → 1 ≤ epos s → data !! Z.to_nat (epos s - 1) = Some op →
  wp (eval_op ec_read g data term op e) (λ _, rel e 9 s) never s.
Proof.
  intros Hs H1 Hop. assert (lo ≤ epos s ≤ N + 9) as Hs9 by lia. unfold eval_op. fold (name_prefix op).
  destruct (name_prefix op) eqn:Hpre; cbv iota;
  repeat match goal with |- wp (if ?b then _ else _) _ _ _ => destruct b end;
    try (lazymatch goal with |- wp (mret _) _ _ _ => apply wp_ret, rel_refl end); try (apply ev_const_wp; lia); try (apply ev_eval_package_wp; lia);
    try (apply eval_if_wp; lia); try (by apply (guard09 _ (bump_guard _)));
    try (by apply read9); try (by apply return9); try (by apply store9); try (by apply name9).
  all: try (by apply (guard_bind lo); [lia|lia|apply guard_gets|intros; apply guard_ret|]).
  all: try (apply operands9; [intros a b|done];
    first [apply guard_ret|apply guard_bind; [lia|lia|exact supername9|intros; apply guard_ret]]).
  all: try (by apply skip9).
  apply wp_bind. unfold ev_advance. wp_steps. eapply wp_ok; [done|]. rewrite u32_small by lia. apply wp_bind.
  eapply wp_mono; [apply (ev_namestring_progress e _ op); [simpl; lia|done|done|done]|intros seg s1 Hs1|done].
  simpl in Hs1. eapply wp_mono; [apply (name_value_guard lo e 9 seg s1); lia|intros ? s2 [_ H2]|done].
  split; [done|lia].
Qed.
End op.

Lemma ev_eval_term_wp fuel e s :
  0 ≤ epos s ≤ N + 9 → e ≤ N → e - epos s ≤ Z.of_nat fuel →
  wp (ev_eval_term ec_read g data fuel e)
    (λ _ s', rel e 9 s s' ∧ (epos s < e → done s = false → epos s < epos s')) never s.
Proof.
  revert s. induction fuel as [|fuel IH]; intros s Hp He Hf; simpl; wp_steps;
    destruct (Z.leb_spec e (epos s)); simpl; try (apply wp_ret; split; [apply rel_refl|lia]); [lia|].
  destruct (done s) eqn:Hd; [apply wp_ret; split; [apply rel_refl|done]|].
  destruct (ev_read_ok e s) as (op & Hop & _ & Hl); [lia..|]. apply wp_bind. eapply wp_ok; [exact Hop|].
  eapply wp_mono; [apply (eval_op_wp (epos s + 1)); simpl; try lia|..|done].
  - intros s1 Hs1. eapply wp_mono; [apply IH; lia|by intros ?? []|done].
  - by replace (epos s + 1 - 1) with (epos s) by lia.
  - intros ? s' [H1 H2]. simpl in *. split; [split; [done|lia]|lia].
Qed.

Lemma run_loop_wp fuel e s :
  0 ≤ epos s ≤ N + 9 → e ≤ N → e - epos s ≤ Z.of_nat fuel →
  wp (run_loop ec_read g data fuel e) (λ _ _, True) never s.
Proof.
  revert s. induction fuel as [|fuel IH]; intros s Hp He Hf; cbn [run_loop]; wp_steps;
    destruct (Z.ltb_spec (epos s) e); cbn [andb]; try (by apply wp_ret); [lia|].
  destruct (done s) eqn:Hd; [by apply wp_ret|]. cbn [negb]. apply wp_bind.
  eapply wp_mono; [apply ev_eval_term_wp; unfold EV_FUEL, N in *; lia| |done].
  intros v s1 [[_ H1] H2]. wp_steps. destruct (done s1); [by apply wp_ret|].
  specialize (H2 ltac:(done) ltac:(done)). apply IH; unfold N in *; lia.
Qed.

(** C38: evaluating any method body terminates. For every list of bytes
    shorter than two gigabytes, however malformed, and an embedded controller that answers,
    running the method returns a value and reads no byte outside the body. *)
Theorem ev_run_method_terminates d :
  ∃ v d', ev_run_method ec_read g data N d = Ok (v, d').
Proof.
  destruct (wp_run _ _ _ (run_loop_wp (EV_FUEL data) N (mkEv 0 (replicate 8 0) false d)
    ltac:(simpl; lia) ltac:(lia) ltac:(simpl; unfold EV_FUEL, N; lia))) as (v & s' & Hrun & _).
  exists v, (dev s'). unfold ev_run_method. by rewrite Hrun.
Qed.
End eval.

(** A method whose package and names run past its end. *)
Definition demo_method : list Z := [0xA0; 0x05; 0x01; 0xA4; 0x12; 0x3F; 0x09; 0x5E; 0x2F; 0x03; 0x41; 0x42].

Lemma ev_run_method_terminates_witness :
  ∃ v d', ev_run_method (D := unit) (λ _, mret 7) aml_boot demo_method (Z.of_nat (length demo_method)) tt = Ok (v, d').
Proof.
  apply (ev_run_method_terminates (D := unit) (λ _, mret 7) aml_boot demo_method).
  - intros r d. by exists 7, d.
  - apply (bool_decide_unpack _). by vm_compute.
  - by vm_compute.
Defined.
End AmlEval.
