(* ===== verification/AmlAsm.v ===== *)
(** * Methods assembled to AML evaluate to their meaning

    A small language of the statements and expressions battery methods
    are made of, an assembler that encodes it as the ACPI specification does, and the proof
    that the evaluator, run on the assembled bytes, returns the package the
    program denotes. *)
From S2P Require Import Prelude Moves Aml.
Import Aml.

Module AmlAsm.

Inductive expr :=
| Const (v : Z)
| Local (i : Z)
| Name (seg : list Z)
| Bin (op : Z) (a b : expr)
| Div (a b : expr).

Inductive stmt :=
| Store (x : expr) (i : Z)
| Inc (i : Z)
| Dec (i : Z).

(** ** Meaning *)

Fixpoint denote (ls : list Z) (x : expr) : Z :=
  match x with
  | Const v => v
  | Local i => nth (Z.to_nat i) ls 0
  | Name _ => 0
  | Bin op a b => binary op (denote ls a) (denote ls b)
  | Div a b => if truthy (denote ls b) then denote ls a / denote ls b else 0
  end.

Definition exec (ls : list Z) (c : stmt) : list Z :=
  match c with
  | Store x i => <[Z.to_nat i := denote ls x]> ls
  | Inc i => <[Z.to_nat i := u64 (nth (Z.to_nat i) ls 0 + 1)]> ls
  | Dec i => <[Z.to_nat i := u64 (nth (Z.to_nat i) ls 0 + -1)]> ls
  end.

(** ** Assembly *)

Fixpoint le_bytes (n : nat) (v : Z) : list Z :=
  match n with O => [] | S n' => v mod 256 :: le_bytes n' (v / 256) end.

Definition emit_const (v : Z) : list Z :=
  if v =? 0 then [AML_ZERO]
  else if v =? 1 then [AML_ONE]
  else if v <? 2 ^ 8 then AML_BYTE :: le_bytes 1 v
  else if v <? 2 ^ 16 then AML_WORD :: le_bytes 2 v
  else if v <? 2 ^ 32 then AML_DWORD :: le_bytes 4 v
  else AML_QWORD :: le_bytes 8 v.

Fixpoint emit (x : expr) : list Z :=
  match x with
  | Const v => emit_const v
  | Local i => [AML_LOCAL0 + i]
  | Name seg => seg
  | Bin op a b => op :: emit a ++ emit b ++ [0]
  | Div a b => AML_DIVIDE :: emit a ++ emit b ++ [0; 0]
  end.

Definition emit_stmt (c : stmt) : list Z :=
  match c with
  | Store x i => AML_STORE :: emit x ++ [AML_LOCAL0 + i]
  | Inc i => [AML_INC; AML_LOCAL0 + i]
  | Dec i => [AML_DEC; AML_LOCAL0 + i]
  end.

(** The PkgLength in front of [c] bytes. *)
Definition emit_pkglen (c : Z) : list Z :=
  if c + 1 <? 64 then [c + 1] else [0x40 + (c + 2) mod 16; (c + 2) / 16].

Definition emit_return (xs : list expr) : list Z :=
  let content := Z.of_nat (length xs) :: concat (map emit xs) in
  AML_RETURN :: AML_PACKAGE :: emit_pkglen (Z.of_nat (length content)) ++ content.

Definition assemble (cs : list stmt) (xs : list expr) : list Z := concat (map emit_stmt cs) ++ emit_return xs.

(** Programs the encoding covers. *)
Fixpoint wf_expr (x : expr) : Prop :=
  match x with
  | Const v => 0 ≤ v < 2 ^ 64
  | Local i => 0 ≤ i ≤ 7
  | Name seg => ∃ a b c d, seg = [a; b; c; d] ∧ lead_char a = true
  | Bin op a b => op ∈ binary_ops ∧ wf_expr a ∧ wf_expr b
  | Div a b => wf_expr a ∧ wf_expr b
  end.
Definition wf_stmt (c : stmt) : Prop :=
  match c with Store x i => wf_expr x ∧ 0 ≤ i ≤ 7 | Inc i | Dec i => 0 ≤ i ≤ 7 end.

(** Two-byte lengths, checked for every value they can hold. *)
Lemma pkglen_two L :
  64 ≤ L < 4096 →
  Z.land (Z.shiftr (0x40 + L mod 16) 6) 3 = 1 ∧
  Z.lor (Z.land (0x40 + L mod 16) 0x0F) (u32 (Z.shiftl (L / 16) (4 + 8 * 0))) = L.
Proof.
  intros HL. assert (Forall (λ L, Z.land (Z.shiftr (0x40 + L mod 16) 6) 3 = 1 ∧
    Z.lor (Z.land (0x40 + L mod 16) 0x0F) (u32 (Z.shiftl (L / 16) (4 + 8 * 0))) = L) (seqZ 64 4032)) as HF
    by (apply (bool_decide_unpack _); by vm_compute).
  rewrite Forall_forall in HF. apply HF, elem_of_seqZ. lia.
Qed.

Lemma pkglen_one L :
  0 ≤ L < 64 → Z.land (Z.shiftr L 6) 3 = 0 ∧ Z.land L 0x3F = L.
Proof.
  intros HL. assert (Forall (λ L, Z.land (Z.shiftr L 6) 3 = 0 ∧ Z.land L 0x3F = L) (seqZ 0 64)) as HF
    by (apply (bool_decide_unpack _); by vm_compute).
  rewrite Forall_forall in HF. apply HF, elem_of_seqZ. lia.
Qed.

Section correct.
Context {D : Type} (ec_read : Z → M D Z) (g : aml) (data : list Z).
Let N : Z := Z.of_nat (length data).
Context (Hsize : N < 2 ^ 31) (Hfields : g_ec_fields g = []).
Implicit Types (s : @ev D) (e p : Z) (bs : list Z).

(** The bytes [bs] stand at [p]. *)
Definition at_bytes (p : Z) (bs : list Z) : Prop :=
  ∃ pre post, data = pre ++ bs ++ post ∧ p = Z.of_nat (length pre).

Lemma at_bytes_app p bs1 bs2 :
  at_bytes p (bs1 ++ bs2) → at_bytes p bs1 ∧ at_bytes (p + Z.of_nat (length bs1)) bs2.
Proof.
  intros (pre & post & Hd & Hp). split.
  - exists pre, (bs2 ++ post). by rewrite Hd, <- app_assoc.
  - exists (pre ++ bs1), post. rewrite Hd, <- !app_assoc, length_app. split; [done|lia].
Qed.

Lemma at_bytes_cons p b bs : at_bytes p (b :: bs) → at_bytes p [b] ∧ at_bytes (p + 1) bs.
Proof. apply (at_bytes_app p [b] bs). Qed.

Lemma at_bytes_lookup p b bs : at_bytes p (b :: bs) → 0 ≤ p < N ∧ data !! Z.to_nat p = Some b.
Proof.
  intros (pre & post & Hd & ->). unfold N. rewrite Hd, length_app. simpl. split; [lia|].
  rewrite Nat2Z.id. apply lookup_mid.
Qed.

Definition at_pos (p : Z) (s : @ev D) : ev := mkEv p (locals s) (done s) (dev s).

Lemma byte_here s p b bs : at_bytes p (b :: bs) → ev_byte_at data p s = Ok (b, s).
Proof.
  intros [Hp Hb]%at_bytes_lookup. unfold ev_byte_at. rewrite (proj2 (Z.leb_le 0 p)) by lia. by rewrite Hb.
Qed.

Lemma read_here s e b bs :
  at_bytes (epos s) (b :: bs) → epos s < e → ev_read data e s = Ok (b, at_pos (epos s + 1) s).
Proof.
  intros Hb He. unfold ev_read. rewrite (bind_of_ok _ _ s (epos s) s) by done.
  rewrite (proj2 (Z.ltb_lt _ _) He). rewrite (bind_of_ok _ _ _ _ _ (byte_here _ _ _ _ Hb)).
  apply at_bytes_lookup in Hb. rewrite (bind_of_ok _ _ s tt (at_pos (u32 (epos s + 1)) s)) by done.
  by rewrite u32_small by (unfold N in *; lia).
Qed.

Lemma peek_here s e b bs : at_bytes (epos s) (b :: bs) → epos s < e → ev_peek data e s = Ok (b, s).
Proof.
  intros Hb He. unfold ev_peek. rewrite (bind_of_ok _ _ s (epos s) s) by done.
  rewrite (proj2 (Z.ltb_lt _ _) He). by eapply byte_here.
Qed.

(** ** Constants *)

Lemma length_le_bytes n v : length (le_bytes n v) = n.
Proof. revert v. induction n; intros v; simpl; auto. Qed.

Lemma le_at_here n v s p :
  at_bytes p (le_bytes n v) → 0 ≤ v < 256 ^ Z.of_nat n → ev_le_at data n p s = Ok (v, s).
Proof.
  revert v p. induction n as [|n IH]; intros v p Hb Hv; simpl.
  { change (256 ^ Z.of_nat 0) with 1 in Hv. by replace v with 0 by lia. }
  simpl in Hb. rewrite (bind_of_ok _ _ _ _ _ (byte_here s _ _ _ Hb)). apply at_bytes_cons in Hb as [_ Hb].
  rewrite Nat2Z.inj_succ, Z.pow_succ_r in Hv by lia.
  rewrite (bind_of_ok _ _ _ _ _ (IH (v / 256) _ Hb ltac:(dlia))).
  unfold mret, M_ret. do 2 f_equal. dlia.
Qed.

Lemma const_here n v s e :
  at_bytes (epos s) (le_bytes n v) → 0 ≤ v < 256 ^ Z.of_nat n → 0 ≤ epos s → (n ≤ 8)%nat →
  epos s + Z.of_nat n ≤ e → e ≤ N →
  ev_const data n e s = Ok (int_val v, at_pos (epos s + Z.of_nat n) s).
Proof.
  intros Hb Hv Hp Hn He HN. unfold ev_const. rewrite (bind_of_ok _ _ s (epos s) s) by done.
  rewrite u32_small by (unfold N in *; lia). rewrite (proj2 (Z.leb_le _ _) He).
  rewrite (bind_of_ok _ _ _ _ _ (le_at_here n v s _ Hb Hv)).
  rewrite (bind_of_ok _ _ s tt (at_pos (u32 (epos s + Z.of_nat n)) s)) by done.
  by rewrite u32_small by (unfold N in *; lia).
Qed.

(** ** Opcodes: which branch of [eval_op] they take *)

Lemma eval_op_name term op e :
  lead_char op = true →
  eval_op ec_read g data term op e = (cs ← ev_chars_in data [0; 0; 0] e; name_value ec_read g (op :: cs)).
Proof.
  intros Hc. assert (op = 95 ∨ op ∈ seqZ 65 26) as Hin.
  { unfold lead_char in Hc. apply orb_true_iff in Hc as [Hc|Hc]; [|left; lia].
    apply andb_true_iff in Hc as [H1 H2]. right. apply elem_of_seqZ. lia. }
  destruct Hin as [->|Hin]; [done|].
  change (seqZ 65 26) with [65; 66; 67; 68; 69; 70; 71; 72; 73; 74; 75; 76; 77; 78; 79; 80; 81; 82; 83; 84; 85; 86; 87;
    88; 89; 90] in Hin.
  rewrite !elem_of_cons, elem_of_nil in Hin. by repeat destruct Hin as [->|Hin].
Qed.

Lemma eval_op_local term i e :
  0 ≤ i ≤ 7 → eval_op ec_read g data term (AML_LOCAL0 + i) e = (v ← gets (local i); mret (int_val v)).
Proof.
  intros Hi. assert (i ∈ [0; 1; 2; 3; 4; 5; 6; 7]) as Hin by (rewrite !elem_of_cons; lia).
  rewrite !elem_of_cons, elem_of_nil in Hin. by repeat destruct Hin as [->|Hin].
Qed.

Lemma eval_op_binary term op e :
  op ∈ binary_ops →
  eval_op ec_read g data term op e =
    (a ← term; b ← term; ev_skip_supername data e ;;
     mret (int_val (if valid a && valid b then binary op (integer a) (integer b) else 0))).
Proof.
  unfold binary_ops. intros Hin. rewrite !elem_of_cons, elem_of_nil in Hin. by repeat destruct Hin as [->|Hin].
Qed.

Lemma is_local_local i : 0 ≤ i ≤ 7 → is_local (AML_LOCAL0 + i) = true.
Proof. intros Hi. unfold is_local, AML_LOCAL0, AML_LOCAL7. lia. Qed.

(** ** Expressions *)

Lemma skip_null s e bs :
  at_bytes (epos s) (0 :: bs) → epos s < e → ev_skip_supername data e s = Ok (tt, at_pos (epos s + 1) s).
Proof.
  intros Hb He. unfold ev_skip_supername. rewrite (bind_of_ok _ _ s (epos s) s) by done.
  rewrite (proj2 (Z.leb_gt _ _) He). rewrite (bind_of_ok _ _ _ _ _ (peek_here _ _ _ _ Hb He)).
  cbn -[ev_read]. by rewrite (bind_of_ok _ _ _ _ _ (read_here _ _ _ _ Hb He)).
Qed.

Lemma chars_here seg zs s e :
  at_bytes (epos s) seg → length zs = length seg → epos s + Z.of_nat (length seg) ≤ e →
  ev_chars_in data zs e s = Ok (seg, at_pos (epos s + Z.of_nat (length seg)) s).
Proof.
  revert zs s. induction seg as [|c seg IH]; intros [|z zs] s Hb Hl He; try done.
  { destruct s. unfold at_pos. simpl. by rewrite Z.add_0_r. }
  cbn [ev_chars_in]. rewrite (bind_of_ok _ _ s (epos s) s) by done. simpl in He.
  rewrite (proj2 (Z.ltb_lt (epos s) e)) by lia.
  rewrite (bind_of_ok _ _ _ _ _ (read_here s e _ _ Hb ltac:(lia))). apply at_bytes_cons in Hb as [_ Hb].
  rewrite (bind_of_ok _ _ _ _ _ (IH zs (at_pos (epos s + 1) s) Hb ltac:(simpl in Hl; lia) ltac:(simpl; lia))).
  unfold mret, M_ret, at_pos. simpl. do 3 f_equal. lia.
Qed.

Lemma name_value_zero seg s : name_value ec_read g seg s = Ok (int_val 0, s).
Proof. unfold name_value, find_ec_field. by rewrite Hfields. Qed.

(** One round of [ev_eval_term] on the opcode [op]. *)
Lemma eval_term_op fuel s e op bs :
  at_bytes (epos s) (op :: bs) → epos s < e → done s = false →
  ev_eval_term ec_read g data (S fuel) e s =
    eval_op ec_read g data (ev_eval_term ec_read g data fuel e) op e (at_pos (epos s + 1) s).
Proof.
  intros Hb He Hd. cbn [ev_eval_term]. rewrite (bind_of_ok _ _ s s s) by done.
  rewrite (proj2 (Z.leb_gt _ _) He), Hd. cbn [orb]. by rewrite (bind_of_ok _ _ _ _ _ (read_here _ _ _ _ Hb He)).
Qed.

Lemma emit_const_ok v fuel s e :
  0 ≤ v < 2 ^ 64 → at_bytes (epos s) (emit_const v) → epos s + Z.of_nat (length (emit_const v)) ≤ e → e ≤ N →
  done s = false →
  ev_eval_term ec_read g data (S fuel) e s
    = Ok (int_val v, at_pos (epos s + Z.of_nat (length (emit_const v))) s).
Proof.
  unfold emit_const. intros Hv Hb He HN Hd.
  assert (∀ op n, at_bytes (epos s) (op :: le_bytes n v) → v < 256 ^ Z.of_nat n → (n ≤ 8)%nat →
    epos s + Z.of_nat (S n) ≤ e →
    ev_const data n e (at_pos (epos s + 1) s) = Ok (int_val v, at_pos (epos s + Z.of_nat (S n)) s)) as Hc.
  { intros op n Hb' Hv' Hn He'. destruct (at_bytes_lookup _ _ _ Hb') as [Hp _]. apply at_bytes_cons in Hb' as [_ Hb'].
    rewrite (const_here n v (at_pos (epos s + 1) s) e); simpl; [|done|lia|lia|done|lia|done].
    unfold at_pos. simpl. do 3 f_equal. lia. }
  destruct (Z.eqb_spec v 0) as [->|]; [by rewrite (eval_term_op _ _ _ _ _ Hb) by (simpl in He; lia || done)|].
  destruct (Z.eqb_spec v 1) as [->|]; [by rewrite (eval_term_op _ _ _ _ _ Hb) by (simpl in He; lia || done)|].
  repeat match goal with
  | Hb : context [if ?a <? ?b then _ else _] |- _ => destruct (Z.ltb_spec a b)
  end; cbn [length] in He |- *; rewrite ?length_le_bytes in He |- *;
    rewrite (eval_term_op _ _ _ _ _ Hb) by (lia || done).
  - change (eval_op _ _ _ _ AML_BYTE _) with (v' ← ev_read (D := D) data e; mret (int_val v')).
    apply at_bytes_cons in Hb as [_ Hb]. cbn [le_bytes] in Hb.
    rewrite Z.mod_small in Hb by lia.
    rewrite (bind_of_ok _ _ _ _ _ (read_here (at_pos (epos s + 1) s) e _ _ Hb ltac:(simpl; lia))).
    unfold mret, M_ret, at_pos. simpl. do 3 f_equal. lia.
  - apply (Hc AML_WORD 2%nat); [done|simpl; lia|lia|lia].
  - apply (Hc AML_DWORD 4%nat); [done|simpl; lia|lia|lia].
  - apply (Hc AML_QWORD 8%nat); [done|simpl; lia|lia|lia].
Qed.

Lemma length_emit_pos x : wf_expr x → (0 < length (emit x))%nat.
Proof.
  destruct x as [v| |seg| |]; simpl; try lia; [intros _; unfold emit_const; repeat case_match; simpl; lia|].
  intros (a & b & c & d & -> & _). simpl. lia.
Qed.

Lemma ok_at_pos {A} (v : A) s p q : p = q → Ok (v, at_pos p s) = Ok (v, at_pos q s).
Proof. by intros ->. Qed.

Lemma at_pos_pos s p q : at_pos p (at_pos q s) = at_pos p s.
Proof. done. Qed.

Lemma emit_ok x fuel s e :
  wf_expr x → at_bytes (epos s) (emit x) → epos s + Z.of_nat (length (emit x)) ≤ e → e ≤ N →
  done s = false → (length (emit x) ≤ fuel)%nat →
  ev_eval_term ec_read g data fuel e s
    = Ok (int_val (denote (locals s) x), at_pos (epos s + Z.of_nat (length (emit x))) s).
Proof.
  revert fuel s. induction x as [v|i|seg|op a IHa b IHb|a IHa b IHb]; intros [|fuel] s Hwf Hb He HN Hd Hf;
    try (pose proof (length_emit_pos _ Hwf); lia).
  - by apply emit_const_ok.
  - simpl in Hb, He. rewrite (eval_term_op _ _ _ _ _ Hb) by (lia || done). by rewrite eval_op_local.
  - destruct Hwf as (c0 & c1 & c2 & c3 & -> & Hc). simpl in Hb, He.
    rewrite (eval_term_op _ _ _ _ _ Hb) by (lia || done). rewrite eval_op_name by done.
    apply at_bytes_cons in Hb as [_ Hb].
    rewrite (bind_of_ok _ _ _ _ _ (chars_here [c1; c2; c3] [0; 0; 0] (at_pos (epos s + 1) s) e Hb eq_refl ltac:(simpl; lia))).
    rewrite name_value_zero, at_pos_pos. apply ok_at_pos. simpl. lia.
  - destruct Hwf as (Hop & Ha & Hb'). simpl in Hb, He, Hf. rewrite !length_app in He, Hf. simpl in He, Hf.
    rewrite (eval_term_op _ _ _ _ _ Hb) by (lia || done). rewrite eval_op_binary by done.
    apply at_bytes_cons in Hb as [_ Hb]. apply at_bytes_app in Hb as [H1 Hb]. apply at_bytes_app in Hb as [H2 H3].
    rewrite (bind_of_ok _ _ _ _ _ (IHa fuel (at_pos (epos s + 1) s) Ha H1 ltac:(simpl; lia) HN Hd ltac:(lia))).
    rewrite at_pos_pos. cbn [locals at_pos epos].
    rewrite (bind_of_ok _ _ _ _ _ (IHb fuel (at_pos (epos s + 1 + Z.of_nat (length (emit a))) s) Hb' H2 ltac:(simpl; lia) HN Hd ltac:(lia))).
    rewrite at_pos_pos. cbn [locals at_pos epos].
    rewrite (bind_of_ok _ _ _ _ _ (skip_null (at_pos (epos s + 1 + Z.of_nat (length (emit a)) + Z.of_nat (length (emit b))) s) e _ H3 ltac:(simpl; lia))).
    rewrite at_pos_pos. apply ok_at_pos. simpl. rewrite !length_app. simpl. lia.
  - destruct Hwf as (Ha & Hb'). simpl in Hb, He, Hf. rewrite !length_app in He, Hf. simpl in He, Hf.
    rewrite (eval_term_op _ _ _ _ _ Hb) by (lia || done).
    apply at_bytes_cons in Hb as [_ Hb]. apply at_bytes_app in Hb as [H1 Hb]. apply at_bytes_app in Hb as [H2 H3].
    apply at_bytes_cons in H3 as [H3 H4].
    change (eval_op ec_read g data (ev_eval_term ec_read g data fuel e) AML_DIVIDE e)
      with (x ← ev_eval_term ec_read g data fuel e; y ← ev_eval_term ec_read g data fuel e;
            ev_skip_supername data e ;; ev_skip_supername data e ;;
            mret (int_val (if valid x && valid y && truthy (integer y) then integer x / integer y else 0))).
    rewrite (bind_of_ok _ _ _ _ _ (IHa fuel (at_pos (epos s + 1) s) Ha H1 ltac:(simpl; lia) HN Hd ltac:(lia))).
    rewrite at_pos_pos. cbn [locals at_pos epos].
    rewrite (bind_of_ok _ _ _ _ _ (IHb fuel (at_pos (epos s + 1 + Z.of_nat (length (emit a))) s) Hb' H2 ltac:(simpl; lia) HN Hd ltac:(lia))).
    rewrite at_pos_pos. cbn [locals at_pos epos].
    set (p := epos s + 1 + Z.of_nat (length (emit a)) + Z.of_nat (length (emit b))).
    rewrite (bind_of_ok _ _ _ _ _ (skip_null (at_pos p s) e _ H3 ltac:(simpl; lia))).
    rewrite (bind_of_ok _ _ _ _ _ (skip_null (at_pos (p + 1) s) e _ H4 ltac:(simpl; lia))).
    rewrite at_pos_pos. apply ok_at_pos. simpl. rewrite !length_app. simpl. lia.
Qed.

(** ** Statements *)

Definition with_locals (ls : list Z) (s : @ev D) : ev := mkEv (epos s) ls (done s) (dev s).

Lemma local_op_here s e i bs :
  at_bytes (epos s) (AML_LOCAL0 + i :: bs) → epos s < e → 0 ≤ i ≤ 7 →
  ev_peek data e s = Ok (AML_LOCAL0 + i, s) ∧ ev_read data e s = Ok (AML_LOCAL0 + i, at_pos (epos s + 1) s).
Proof. intros Hb He Hi. split; [by eapply peek_here|by eapply read_here]. Qed.

Lemma store_here v s e i bs :
  at_bytes (epos s) (AML_LOCAL0 + i :: bs) → epos s < e → 0 ≤ i ≤ 7 →
  store_to data (int_val v) e s = Ok (tt, with_locals (<[Z.to_nat i := v]> (locals s)) (at_pos (epos s + 1) s)).
Proof.
  intros Hb He Hi. destruct (local_op_here s e i bs Hb He Hi) as [Hpk Hrd]. unfold store_to.
  rewrite (bind_of_ok _ _ _ _ _ Hpk), is_local_local by done. rewrite (bind_of_ok _ _ _ _ _ Hrd).
  replace (AML_LOCAL0 + i - AML_LOCAL0) with i by lia. done.
Qed.

Lemma bump_here d s e i bs :
  at_bytes (epos s) (AML_LOCAL0 + i :: bs) → epos s < e → 0 ≤ i ≤ 7 →
  bump data d e s = Ok (EVAL_INVALID,
    with_locals (<[Z.to_nat i := u64 (nth (Z.to_nat i) (locals s) 0 + d)]> (locals s)) (at_pos (epos s + 1) s)).
Proof.
  intros Hb He Hi. destruct (local_op_here s e i bs Hb He Hi) as [Hpk Hrd]. unfold bump.
  rewrite (bind_of_ok _ _ _ _ _ Hpk), is_local_local by done.
  replace (AML_LOCAL0 + i - AML_LOCAL0) with i by lia.
  unfold mbind, M_bind. by rewrite Hrd.
Qed.

Lemma stmt_ok c fuel s e :
  wf_stmt c → at_bytes (epos s) (emit_stmt c) → epos s + Z.of_nat (length (emit_stmt c)) ≤ e → e ≤ N →
  done s = false → (length (emit_stmt c) ≤ fuel)%nat →
  ∃ v, ev_eval_term ec_read g data fuel e s
    = Ok (v, with_locals (exec (locals s) c) (at_pos (epos s + Z.of_nat (length (emit_stmt c))) s)).
Proof.
  intros Hwf Hb He HN Hd Hf. destruct fuel as [|fuel]; [destruct c; simpl in Hf; lia|].
  destruct c as [x i|i|i]; cbn [emit_stmt length] in Hb, He, Hf |- *;
    rewrite (eval_term_op _ _ _ _ _ Hb) by (lia || done); apply at_bytes_cons in Hb as [_ Hb].
  - destruct Hwf as [Hx Hi]. rewrite length_app in *. cbn [length] in *. apply at_bytes_app in Hb as [H1 H2].
    change (eval_op ec_read g data (ev_eval_term ec_read g data fuel e) AML_STORE e)
      with (src ← ev_eval_term ec_read g data fuel e; store_to data src e ;; mret src).
    rewrite (bind_of_ok _ _ _ _ _ (emit_ok x fuel (at_pos (epos s + 1) s) e Hx H1 ltac:(simpl; lia) HN Hd ltac:(lia))).
    rewrite at_pos_pos. cbn [locals at_pos epos].
    rewrite (bind_of_ok _ _ _ _ _ (store_here _ (at_pos (epos s + 1 + Z.of_nat (length (emit x))) s) e i _ H2 ltac:(simpl; lia) Hi)).
    eexists. unfold mret, M_ret, with_locals, at_pos. simpl. do 3 f_equal. lia.
  - change (eval_op ec_read g data (ev_eval_term ec_read g data fuel e) AML_INC e) with (bump (D := D) data 1 e).
    rewrite (bump_here 1 (at_pos (epos s + 1) s) e i _ Hb ltac:(simpl; lia) Hwf).
    eexists. unfold with_locals, at_pos. simpl. do 3 f_equal. lia.
  - change (eval_op ec_read g data (ev_eval_term ec_read g data fuel e) AML_DEC e) with (bump (D := D) data (-1) e).
    rewrite (bump_here (-1) (at_pos (epos s + 1) s) e i _ Hb ltac:(simpl; lia) Hwf).
    eexists. unfold with_locals, at_pos. simpl. do 3 f_equal. lia.
Qed.

(** ** Packages *)

Lemma pkglen_here c s e :
  0 ≤ c → c + 2 < 4096 → 0 ≤ epos s → at_bytes (epos s) (emit_pkglen c) →
  epos s + Z.of_nat (length (emit_pkglen c)) + c ≤ e → e ≤ N →
  ev_pkglen data e s = Ok (epos s + Z.of_nat (length (emit_pkglen c)) + c,
                           at_pos (epos s + Z.of_nat (length (emit_pkglen c))) s).
Proof.
  unfold emit_pkglen. intros Hc Hmax Hp Hb He HN. unfold ev_pkglen. rewrite (bind_of_ok _ _ s (epos s) s) by done.
  destruct (Z.ltb_spec (c + 1) 64); cbn [length] in He |- *; rewrite (proj2 (Z.leb_gt e (epos s))) by lia.
  - rewrite (bind_of_ok _ _ _ _ _ (read_here s e _ _ Hb ltac:(lia))).
    destruct (pkglen_one (c + 1) ltac:(lia)) as [-> ->]. simpl Z.eqb. cbv iota.
    rewrite u32_small by (unfold N in *; lia).
    by replace (epos s + (c + 1)) with (epos s + Z.of_nat 1 + c) by lia.
  - rewrite (bind_of_ok _ _ _ _ _ (read_here s e _ _ Hb ltac:(lia))).
    destruct (pkglen_two (c + 2) ltac:(lia)) as [E1 E2]. rewrite E1. change (1 =? 0) with false. cbv iota.
    change (Z.to_nat 1) with 1%nat.
    apply at_bytes_cons in Hb as [_ Hb].
    assert (ev_pkglen_bytes data 1 0 (Z.land (64 + (c + 2) mod 16) 15) e (at_pos (epos s + 1) s)
      = Ok (c + 2, at_pos (epos s + 1 + 1) s)) as Hlen.
    { cbn [ev_pkglen_bytes]. rewrite (bind_of_ok _ _ _ (epos s + 1) (at_pos (epos s + 1) s)) by done.
      rewrite (proj2 (Z.ltb_lt (epos s + 1) e)) by lia.
      rewrite (bind_of_ok _ _ _ _ _ (read_here (at_pos (epos s + 1) s) e _ _ Hb ltac:(simpl; lia))).
      by rewrite E2. }
    rewrite (bind_of_ok _ _ _ _ _ Hlen).
    rewrite u32_small by (unfold N in *; lia).
    replace (epos s + (c + 2)) with (epos s + Z.of_nat 2 + c) by lia. apply ok_at_pos. lia.
Qed.

Lemma pkg_loop_ok xs elems fuel s e body_end :
  Forall wf_expr xs → at_bytes (epos s) (concat (map emit xs)) →
  epos s + Z.of_nat (length (concat (map emit xs))) ≤ body_end → body_end ≤ e → e ≤ N → done s = false →
  (length (concat (map emit xs)) ≤ fuel)%nat → (length elems + length xs ≤ 16)%nat →
  pkg_loop (length xs) elems body_end (ev_eval_term ec_read g data fuel e) s
    = Ok (elems ++ map (denote (locals s)) xs, at_pos (epos s + Z.of_nat (length (concat (map emit xs)))) s).
Proof.
  intros Hwf. revert elems s. induction Hwf as [|x xs Hx Hxs IH]; intros elems s Hb He Hbe HN Hd Hf Hl; simpl in *.
  { rewrite app_nil_r, Z.add_0_r. by destruct s. }
  rewrite length_app in *. apply at_bytes_app in Hb as [H1 H2]. pose proof (length_emit_pos x Hx).
  rewrite (bind_of_ok _ _ s (epos s) s) by done. rewrite (proj2 (Z.ltb_lt (epos s) body_end)) by lia.
  rewrite (proj2 (Nat.ltb_lt (length elems) 16)) by lia. cbn [andb].
  rewrite (bind_of_ok _ _ _ _ _ (emit_ok x fuel s e Hx H1 ltac:(lia) HN Hd ltac:(lia))).
  rewrite IH; [|simpl in *; rewrite ?length_app; (done || simpl; lia)..].
  cbn [locals at_pos epos valid integer int_val]. rewrite <- app_assoc, at_pos_pos. apply ok_at_pos. lia.
Qed.

Lemma return_ok xs fuel s e :
  Forall wf_expr xs → (length xs ≤ 16)%nat → Z.of_nat (length (concat (map emit xs))) < 4090 →
  at_bytes (epos s) (emit_return xs) → epos s + Z.of_nat (length (emit_return xs)) ≤ e → e ≤ N →
  done s = false → (length (emit_return xs) ≤ fuel)%nat → 0 ≤ epos s →
  ∃ s', ev_eval_term ec_read g data fuel e s = Ok (mkVal true true 0 (map (denote (locals s)) xs), s') ∧
    done s' = true ∧ dev s' = dev s.
Proof.
  intros Hwf Hl Hsz Hb He HN Hd Hf Hp. unfold emit_return in *. cbv zeta in *.
  set (content := Z.of_nat (length xs) :: concat (map emit xs)) in *.
  assert (length content = S (length (concat (map emit xs)))) as Hlc by done.
  set (c := Z.of_nat (length content)) in *. cbn [length] in He, Hf. rewrite length_app in He, Hf.
  assert (0 < length (emit_pkglen c) ≤ 2)%nat as Hpl by (unfold emit_pkglen; case_match; simpl; lia).
  destruct fuel as [|[|fuel]]; [lia..|].
  rewrite (eval_term_op _ _ _ _ _ Hb) by (lia || done). apply at_bytes_cons in Hb as [_ Hb].
  change (eval_op ec_read g data (ev_eval_term ec_read g data (S fuel) e) AML_RETURN e)
    with (v ← ev_eval_term ec_read g data (S fuel) e; set_done ;; mret v).
  assert (∃ s1, ev_eval_term ec_read g data (S fuel) e (at_pos (epos s + 1) s)
    = Ok (mkVal true true 0 (map (denote (locals s)) xs), s1) ∧ dev s1 = dev s) as (s1 & Hpkg & Hdev).
  { rewrite (eval_term_op fuel (at_pos (epos s + 1) s) e _ _ Hb ltac:(simpl; lia) Hd).
    apply at_bytes_cons in Hb as [_ Hb]. apply at_bytes_app in Hb as [H1 H2].
    change (eval_op ec_read g data (ev_eval_term ec_read g data fuel e) AML_PACKAGE e)
      with (ev_eval_package data (ev_eval_term ec_read g data fuel e) e).
    unfold ev_eval_package. rewrite at_pos_pos. cbn [epos at_pos].
    rewrite (bind_of_ok _ _ _ _ _ (pkglen_here c (at_pos (epos s + 1 + 1) s) e ltac:(lia) ltac:(lia)
      ltac:(simpl; lia) H1 ltac:(simpl; lia) HN)).
    rewrite at_pos_pos. cbn [epos at_pos].
    set (p := epos s + 1 + 1 + Z.of_nat (length (emit_pkglen c))) in *.
    unfold min_end. rewrite (proj2 (Z.ltb_ge e (p + c))) by lia. unfold content in H2.
    rewrite (bind_of_ok _ _ _ _ _ (read_here (at_pos p s) e _ _ H2 ltac:(simpl; lia))).
    apply at_bytes_cons in H2 as [_ H2]. rewrite at_pos_pos. cbn [epos at_pos]. rewrite Nat2Z.id.
    rewrite (bind_of_ok _ _ _ _ _ (pkg_loop_ok xs [] fuel (at_pos (p + 1) s) e (p + c) Hwf H2
      ltac:(simpl; lia) ltac:(lia) HN Hd ltac:(lia) ltac:(simpl; lia))).
    by eexists. }
  rewrite (bind_of_ok _ _ _ _ _ Hpkg). by eexists.
Qed.

(** ** Methods *)

Lemma assemble_cons c cs xs : assemble (c :: cs) xs = emit_stmt c ++ assemble cs xs.
Proof. unfold assemble. simpl. by rewrite app_assoc. Qed.

Lemma run_ok cs xs fuel s e :
  Forall wf_stmt cs → Forall wf_expr xs → (length xs ≤ 16)%nat → Z.of_nat (length (concat (map emit xs))) < 4090 →
  at_bytes (epos s) (assemble cs xs) → e = epos s + Z.of_nat (length (assemble cs xs)) → e ≤ N →
  done s = false → 0 ≤ epos s → (length cs < fuel)%nat →
  ∃ s', run_loop ec_read g data fuel e s
    = Ok (mkVal true true 0 (map (denote (foldl exec (locals s) cs)) xs), s') ∧ dev s' = dev s.
Proof.
  intros Hcs Hxs Hl Hsz. revert fuel s. induction Hcs as [|c cs Hc Hcs IH]; intros [|fuel] s Hb He HN Hd Hp Hf;
    try (simpl in Hf; lia); cbn [run_loop]; rewrite (bind_of_ok _ _ s s s) by done;
    rewrite (proj2 (Z.ltb_lt (epos s) e)), Hd by
      (rewrite He; unfold assemble; rewrite length_app; unfold emit_return; simpl; lia); cbn [andb negb].
  - change (assemble [] xs) with (emit_return xs) in Hb, He.
    destruct (return_ok xs (EV_FUEL data) s e) as (s' & Hrun & Hdone & Hdev); try done; try lia.
    { unfold EV_FUEL, N in *. lia. }
    rewrite (bind_of_ok _ _ _ _ _ Hrun), (bind_of_ok _ _ s' s' s') by done. rewrite Hdone. by exists s'.
  - rewrite assemble_cons in Hb, He. rewrite length_app in He.
    apply at_bytes_app in Hb as [H1 H2].
    destruct (stmt_ok c (EV_FUEL data) s e Hc H1) as [v Hv]; [lia|done|done|unfold EV_FUEL, N in *; lia|].
    rewrite (bind_of_ok _ _ _ _ _ Hv). set (s1 := with_locals _ _) in *.
    rewrite (bind_of_ok _ _ s1 s1 s1) by done. change (done s1) with (done s). rewrite Hd.
    apply (IH fuel s1); [done|simpl; lia|done|done|simpl; lia|simpl in Hf; lia].
Qed.
End correct.

Lemma length_stmts cs : (length cs ≤ length (concat (map emit_stmt cs)))%nat.
Proof.
  induction cs as [|c cs IH]; simpl; [lia|]. rewrite length_app.
  assert (0 < length (emit_stmt c))%nat by (destruct c; simpl; lia). lia.
Qed.

Lemma method_run {D} (ec_read : Z → M D Z) (g : aml) (cs : list stmt) (xs : list expr) (d : D) :
  g_ec_fields g = [] → Forall wf_stmt cs → Forall wf_expr xs → (length xs ≤ 16)%nat →
  Z.of_nat (length (concat (map emit xs))) < 4090 → Z.of_nat (length (assemble cs xs)) < 2 ^ 31 →
  ev_run_method ec_read g (assemble cs xs) (Z.of_nat (length (assemble cs xs))) d
    = Ok (mkVal true true 0 (map (denote (foldl exec (replicate 8 0) cs)) xs), d).
Proof.
  intros Hg Hcs Hxs Hl Hsz Hn.
  assert (length cs < EV_FUEL (assemble cs xs))%nat as Hfuel.
  { unfold EV_FUEL, assemble. rewrite length_app. pose proof (length_stmts cs). lia. }
  destruct (run_ok ec_read g (assemble cs xs) Hn Hg cs xs (EV_FUEL (assemble cs xs))
    (mkEv 0 (replicate 8 0) false d) (Z.of_nat (length (assemble cs xs)))) as (s' & Hrun & Hdev); try done.
  { exists [], []. by rewrite app_nil_r. }
  unfold ev_run_method. rewrite Hrun. simpl in Hdev. by rewrite Hdev.
Qed.


(** A status method: two locals, a subtraction and a field name. *)
Definition demo_stmts : list stmt :=
  [Store (Const 5000) 0; Store (Bin AML_SUBTRACT (Local 0) (Const 70000)) 1; Inc 0].
Definition demo_elems : list expr := [Const 1; Local 0; Bin AML_AND (Local 1) (Const 0xFFFF); Name [66; 65; 84; 86]].

End AmlAsm.
