(* ===== verification/Acpi.v ===== *)
(** * ACPI tables, the embedded controller and the battery
      ([kernel/acpi/acpi.c], [ec.c], [battery.c])

    Physical memory is a function from addresses to bytes; a table is named by
    its physical address (the kernel keeps the same address in its direct map).
    The embedded controller is reached through ports; [ec_device] is the
    controller the ACPI specification describes, and the driver is proved against it. *)
From S2P Require Import Prelude Ports Moves Aml AmlScan AmlAsm.
Import Aml.

Module Acpi.

(** ** The embedded controller's driver *)

Definition EC_OBF : Z := 1.
Definition EC_IBF : Z := 2.
Definition EC_CMD_READ : Z := 0x80.
Definition EC_CMD_WRITE : Z := 0x81.
Definition EC_POLLS : nat := Z.to_nat 100000.

Record ec := mkEc { ec_cmd_port : Z; ec_data_port : Z; ec_present : bool }.
Definition ec_boot : ec := mkEc 0x66 0x62 false.

Section driver.
Context {D : Type} `{!Ports D} (c : ec).

Fixpoint wait_ibf (n : nat) : M D unit :=
  match n with
  | O => mret tt
  | S n' =>
      v ← inb (ec_cmd_port c);
      if Z.land v EC_IBF =? 0 then mret tt else io_wait ;; wait_ibf n'
  end.
Definition ec_wait_ibf : M D unit := wait_ibf EC_POLLS.

Fixpoint wait_obf (n : nat) : M D unit :=
  match n with
  | O => mret tt
  | S n' =>
      v ← inb (ec_cmd_port c);
      if truthy (Z.land v EC_OBF) then mret tt else io_wait ;; wait_obf n'
  end.
Definition ec_wait_obf : M D unit := wait_obf EC_POLLS.

Definition ec_read (reg : Z) : M D Z :=
  if negb (ec_present c) then mret 0
  else
    ec_wait_ibf ;; outb (ec_cmd_port c) EC_CMD_READ ;;
    ec_wait_ibf ;; outb (ec_data_port c) (u8 reg) ;;
    ec_wait_obf ;; inb (ec_data_port c).

Definition ec_write (reg val : Z) : M D unit :=
  if negb (ec_present c) then mret tt
  else
    ec_wait_ibf ;; outb (ec_cmd_port c) EC_CMD_WRITE ;;
    ec_wait_ibf ;; outb (ec_data_port c) (u8 reg) ;;
    ec_wait_ibf ;; outb (ec_data_port c) (u8 val).

Definition ec_read16 (reg : Z) : M D Z :=
  a ← ec_read reg; b ← ec_read (reg + 1); mret (u16 (Z.lor a (Z.shiftl b 8))).

Definition ec_read32 (reg : Z) : M D Z :=
  a ← ec_read reg; b ← ec_read (reg + 1); x ← ec_read (reg + 2); y ← ec_read (reg + 3);
  mret (Z.lor (Z.lor (Z.lor a (Z.shiftl b 8)) (Z.shiftl x 16)) (Z.shiftl y 24)).
End driver.

(** ** System description tables *)

Record acpi := mkAcpi { g_tables : list Z; g_dsdt_phys : Z }.
Definition acpi_boot : acpi := mkAcpi [] 0.
Definition sizeof_acpi_header : Z := 36.

Section tables.
Context (mem : Z → Z).

(** [n] bytes at [a], as an integer and as a list. *)
Fixpoint mem_le (n : nat) (a : Z) : Z :=
  match n with O => 0 | S n' => mem a + 256 * mem_le n' (a + 1) end.
Fixpoint mem_bytes (n : nat) (a : Z) : list Z :=
  match n with O => [] | S n' => mem a :: mem_bytes n' (a + 1) end.

Definition header_length (t : Z) : Z := mem_le 4 (t + 4).
Definition header_revision (t : Z) : Z := mem (t + 8).
Definition sig_eq (t : Z) (sig : list Z) : bool := bool_decide (mem_bytes 4 t = sig).

(** Entries of [size] bytes behind the header of a root table. *)
Definition root_entries (t size : Z) : list Z :=
  let n := u32 (u64 (header_length t - sizeof_acpi_header) / size) in
  map (λ i, mem_le (Z.to_nat size) (t + sizeof_acpi_header + size * i)) (seqZ 0 n).

Fixpoint find_nth (tables : list Z) (sig : list Z) (found n : Z) : option Z :=
  match tables with
  | [] => None
  | t :: tables' =>
      if sig_eq t sig then if found =? n then Some t else find_nth tables' sig (found + 1) n
      else find_nth tables' sig found n
  end.
Definition acpi_find_table_nth (st : acpi) (sig : list Z) (n : Z) : option Z := find_nth (g_tables st) sig 0 n.
Definition acpi_find_table (st : acpi) (sig : list Z) : option Z := acpi_find_table_nth st sig 0.

Definition RSD_PTR : list Z := [82; 83; 68; 32; 80; 84; 82; 32].
Definition FACP : list Z := [70; 65; 67; 80].
Definition ECDT : list Z := [69; 67; 68; 84].
Definition SSDT : list Z := [83; 83; 68; 84].

Definition acpi_init (rsdp : Z) (st : acpi) : acpi :=
  if rsdp =? 0 then st
  else if negb (bool_decide (mem_bytes 8 rsdp = RSD_PTR)) then st
  else
    let revision := mem (rsdp + 15) in
    let rsdt_phys := mem_le 4 (rsdp + 16) in
    let xsdt_phys := mem_le 8 (rsdp + 24) in
    let tables := if (2 <=? revision) && truthy xsdt_phys then root_entries xsdt_phys 8 else root_entries rsdt_phys 4 in
    let st := mkAcpi tables (g_dsdt_phys st) in
    match acpi_find_table st FACP with
    | Some f =>
        let xdsdt := if (2 <=? header_revision f) && (148 <? header_length f) then mem_le 8 (f + 140) else 0 in
        mkAcpi tables (if truthy xdsdt then xdsdt else mem_le 4 (f + 40))
    | None => st
    end.

Definition GAS_ADDR_OFF : Z := 4.

Definition ec_init (st : acpi) (c : ec) : ec :=
  match acpi_find_table st ECDT with
  | Some p => mkEc (u16 (mem_le 8 (p + 36 + GAS_ADDR_OFF))) (u16 (mem_le 8 (p + 48 + GAS_ADDR_OFF))) true
  | None => mkEc (ec_cmd_port c) (ec_data_port c) true
  end.

(** ** The battery *)

(** Scan the AML behind the header of table [t]. *)
Definition scan_table (t : Z) : M aml unit :=
  let len := u32 (header_length t - sizeof_acpi_header) in
  aml_scan (mem_bytes (Z.to_nat len) (t + sizeof_acpi_header)) len.

(** [for (i = 0; ; i++) { ssdt = acpi_find_table_nth("SSDT", i); if (!ssdt) break; ... }] *)
Fixpoint scan_ssdts (fuel : nat) (st : acpi) (i : Z) : M aml unit :=
  match acpi_find_table_nth st SSDT i with
  | None => mret tt
  | Some t =>
      match fuel with
      | O => no_fuel
      | S fuel' => scan_table t ;; scan_ssdts fuel' st (u32 (i + 1))
      end
  end.

Definition battery_init (st : acpi) : M (ec * aml) unit := λ s,
  let c := ec_init st (fst s) in
  if g_dsdt_phys st =? 0 then Ok (tt, (c, snd s))
  else
    match (scan_table (g_dsdt_phys st) ;; scan_ssdts (S (length (g_tables st))) st 0) (snd s) with
    | Ok (_, g) => Ok (tt, (c, g))
    | Panic e => Panic e
    | Fault => Fault
    | NoFuel => NoFuel
    end.
End tables.

Definition battery_count (g : aml) : Z := aml_battery_count g.

Record battery_info := mkInfo {
  bi_present : bool; bi_state : Z; bi_rate : Z; bi_remaining : Z; bi_voltage_mv : Z;
  bi_full_capacity : Z; bi_power_unit : Z
}.

Definition battery_get {D} `{!Ports D} (c : ec) (g : aml) (idx : Z) : M D (option battery_info) :=
  if aml_battery_count g <=? idx then mret None
  else
    status ← aml_eval_bst (ec_read c) g idx;
    match status with
    | None => mret None
    | Some b =>
        info ← aml_eval_bif (ec_read c) g idx;
        let '(full, unit) := match info with Some i => (full_capacity i, power_unit i) | None => (0, 0) end in
        mret (Some (mkInfo true (state b) (rate b) (remaining b) (voltage b) full unit))
    end.

(** ** The controller of the ACPI specification

    A command written to the command port, an address and, for a write, a value written to the data
    port; after each byte the controller is busy for [latency] reads of the
    status, and loses what is written meanwhile. *)

Inductive ec_phase :=
| Idle
| ReadAddr
| WriteAddr
| WriteData (reg : Z)
| Output (v : Z).

Record ec_device := mkDev { ram : list Z; phase : ec_phase; busy : nat; latency : nat }.

Definition ec_status (d : ec_device) : Z :=
  match busy d with
  | S _ => EC_IBF
  | O => match phase d with Output _ => EC_OBF | _ => 0 end
  end.

Definition ec_in (port : Z) (d : ec_device) : Z * ec_device :=
  if port =? 0x66 then (ec_status d, mkDev (ram d) (phase d) (pred (busy d)) (latency d))
  else if port =? 0x62 then
    match phase d with
    | Output v => (v, mkDev (ram d) Idle 0 (latency d))
    | _ => (0, d)
    end
  else (0, d).

Definition ec_out (port v : Z) (d : ec_device) : ec_device :=
  match busy d with
  | S _ => d
  | O =>
      if port =? 0x66 then
        mkDev (ram d) (if v =? EC_CMD_READ then ReadAddr else if v =? EC_CMD_WRITE then WriteAddr else Idle)
          (latency d) (latency d)
      else if port =? 0x62 then
        match phase d with
        | ReadAddr => mkDev (ram d) (Output (nth (Z.to_nat v) (ram d) 0)) (latency d) (latency d)
        | WriteAddr => mkDev (ram d) (WriteData v) (latency d) (latency d)
        | WriteData r => mkDev (<[Z.to_nat r := v]> (ram d)) Idle (latency d) (latency d)
        | _ => d
        end
      else d
  end.

#[export] Instance ec_ports : Ports ec_device := {
  port_in _ port d := ec_in port d;
  port_out _ port v d := ec_out port v d
}.

Definition ec_ready : ec := mkEc 0x66 0x62 true.
Definition settle (d : ec_device) : ec_device := mkDev (ram d) (phase d) 0 (latency d).

(** Reading the status: one poll less to wait. *)
Lemma poll_status d :
  inb (ec_cmd_port ec_ready) d = Ok (ec_status d, mkDev (ram d) (phase d) (pred (busy d)) (latency d)).
Proof.
  unfold inb, port_read, mbind, M_bind, mret, M_ret. simpl. unfold ec_in. simpl.
  unfold ec_status. destruct (busy d); [destruct (phase d)|]; done.
Qed.

Lemma io_wait_ec d : io_wait d = Ok (tt, d).
Proof. unfold io_wait, outb, port_write. simpl. unfold ec_out. by destruct (busy d). Qed.

Lemma wait_ibf_ok n d : (busy d < n)%nat → wait_ibf ec_ready n d = Ok (tt, settle d).
Proof.
  revert d. induction n as [|n IH]; intros d Hn; [lia|]. cbn [wait_ibf].
  rewrite (bind_of_ok _ _ _ _ _ (poll_status d)). destruct (busy d) as [|b] eqn:Hb.
  - unfold ec_status, settle. rewrite Hb. by destruct (phase d).
  - unfold ec_status. rewrite Hb. change (Z.land EC_IBF EC_IBF =? 0) with false. cbv iota.
    rewrite (bind_of_ok _ _ _ _ _ (io_wait_ec _)). by rewrite IH by (simpl; lia).
Qed.

Lemma wait_obf_ok n d v : (busy d < n)%nat → phase d = Output v → wait_obf ec_ready n d = Ok (tt, settle d).
Proof.
  revert d. induction n as [|n IH]; intros d Hn Hp; [lia|]. cbn [wait_obf].
  rewrite (bind_of_ok _ _ _ _ _ (poll_status d)). destruct (busy d) as [|b] eqn:Hb.
  - unfold ec_status. rewrite Hb, Hp. by unfold settle; rewrite Hp.
  - unfold ec_status. rewrite Hb. change (truthy (Z.land EC_IBF EC_OBF)) with false. cbv iota.
    rewrite (bind_of_ok _ _ _ _ _ (io_wait_ec _)). by rewrite IH by (simpl; (lia || done)).
Qed.

Lemma polls_enough (n : nat) : Z.of_nat n < 100000 → (n < EC_POLLS)%nat.
Proof. unfold EC_POLLS. lia. Qed.

Lemma ec_read_ok reg d :
  0 ≤ reg < 256 → phase d = Idle → (busy d < EC_POLLS)%nat → (latency d < EC_POLLS)%nat →
  0 ≤ nth (Z.to_nat reg) (ram d) 0 < 256 →
  ec_read ec_ready reg d = Ok (nth (Z.to_nat reg) (ram d) 0, mkDev (ram d) Idle 0 (latency d)).
Proof.
  intros Hr Hp Hb Hl Hv. unfold ec_read. cbn [ec_present ec_ready negb]. unfold ec_wait_ibf, ec_wait_obf.
  rewrite (bind_of_ok _ _ _ _ _ (wait_ibf_ok _ _ Hb)).
  rewrite (bind_of_ok _ _ _ tt (mkDev (ram d) ReadAddr (latency d) (latency d))) by done.
  rewrite (bind_of_ok _ _ _ _ _ (wait_ibf_ok _ (mkDev (ram d) ReadAddr (latency d) (latency d)) Hl)).
  rewrite (bind_of_ok _ _ _ tt (mkDev (ram d) (Output (nth (Z.to_nat (u8 (u8 reg))) (ram d) 0)) (latency d) (latency d))) by done.
  rewrite !(u8_small reg) by lia.
  rewrite (bind_of_ok _ _ _ _ _ (wait_obf_ok _ (mkDev (ram d) (Output (nth (Z.to_nat reg) (ram d) 0)) (latency d) (latency d))
    _ Hl eq_refl)).
  unfold inb, port_read, mbind, M_bind, mret, M_ret. simpl. by rewrite u8_small.
Qed.

Lemma ec_write_ok reg val d :
  0 ≤ reg < 256 → 0 ≤ val < 256 → phase d = Idle → (busy d < EC_POLLS)%nat → (latency d < EC_POLLS)%nat →
  ec_write ec_ready reg val d = Ok (tt, mkDev (<[Z.to_nat reg := val]> (ram d)) Idle (latency d) (latency d)).
Proof.
  intros Hr Hv Hp Hb Hl. unfold ec_write. cbn [ec_present ec_ready negb]. unfold ec_wait_ibf.
  rewrite (bind_of_ok _ _ _ _ _ (wait_ibf_ok _ _ Hb)).
  rewrite (bind_of_ok _ _ _ tt (mkDev (ram d) WriteAddr (latency d) (latency d))) by done.
  rewrite (bind_of_ok _ _ _ _ _ (wait_ibf_ok _ (mkDev (ram d) WriteAddr (latency d) (latency d)) Hl)).
  rewrite (bind_of_ok _ _ _ tt (mkDev (ram d) (WriteData (u8 (u8 reg))) (latency d) (latency d))) by done.
  rewrite !(u8_small reg) by lia.
  rewrite (bind_of_ok _ _ _ _ _ (wait_ibf_ok _ (mkDev (ram d) (WriteData reg) (latency d) (latency d)) Hl)).
  unfold outb, port_write. simpl. by rewrite !(u8_small val) by lia.
Qed.

(** A register of the embedded controller reads back what was written. With
    the controller of the ACPI specification, busy for any number of
    polls below the driver's limit after each byte and losing bytes written meanwhile,
    [ec_write] then [ec_read] of the same register returns the value, and any other
    register reads as before. *)
Theorem ec_roundtrip reg val other d :
  0 ≤ reg < 256 → 0 ≤ val < 256 → 0 ≤ other < 256 → length (ram d) = 256%nat → Forall is_byte (ram d) →
  phase d = Idle → (busy d ≤ latency d)%nat → Z.of_nat (latency d) < 100000 →
  ∃ d1 d2, ec_write ec_ready reg val d = Ok (tt, d1) ∧
    ec_read ec_ready reg d1 = Ok (val, d2) ∧
    (other ≠ reg → ec_read ec_ready other d1 = Ok (nth (Z.to_nat other) (ram d) 0, d2)).
Proof.
  intros Hr Hv Ho Hlen Hram Hp Hb Hl. apply polls_enough in Hl.
  eexists _, (mkDev (<[Z.to_nat reg := val]> (ram d)) Idle 0 (latency d)).
  split; [apply ec_write_ok; (done || lia)|].
  assert (nth (Z.to_nat reg) (<[Z.to_nat reg := val]> (ram d)) 0 = val) as Hnew.
  { apply nth_lookup_Some, list_lookup_insert_eq. lia. }
  split.
  - rewrite ec_read_ok; simpl; rewrite ?Hnew; (done || lia).
  - intros Hne. assert (nth (Z.to_nat other) (<[Z.to_nat reg := val]> (ram d)) 0 = nth (Z.to_nat other) (ram d) 0) as Hold.
    { rewrite !nth_lookup. by rewrite list_lookup_insert_ne by lia. }
    assert (is_byte (nth (Z.to_nat other) (ram d) 0)) as Hbyte.
    { rewrite Forall_forall in Hram. apply Hram, list_elem_of_In, nth_In. lia. }
    rewrite ec_read_ok; simpl; rewrite ?Hold; (done || lia).
Qed.

Lemma ec_roundtrip_witness :
  ∃ d1 d2, ec_write ec_ready 7 42 (mkDev (replicate 256 9) Idle 2 3) = Ok (tt, d1) ∧ ec_read ec_ready 7 d1 = Ok (42, d2).
Proof.
  destruct (ec_roundtrip 7 42 8 (mkDev (replicate 256 9) Idle 2 3)) as (d1 & d2 & H1 & H2 & _).
  1-3: lia.
  - reflexivity.
  - apply Forall_replicate. split; lia.
  - reflexivity.
  - simpl. lia.
  - simpl. lia.
  - exists d1, d2. exact (conj H1 H2).
Defined.
End Acpi.
