(* ===== verification/Battery.v ===== *)
(** * From an ACPI table to the battery's status

    The parts together: a table that declares a battery device, scanned by
    [aml_scan], and its status method, evaluated by [battery_get]. *)
From S2P Require Import Prelude Ports Moves Aml AmlScan AmlAsm Acpi.
Import Aml AmlAsm.

Module Battery.

(** [Device (BAT0) { Name (_HID, "PNP0C0A") Method (_BST) { body } }] *)
Definition method_content (body : list Z) : list Z := name_BST ++ 0 :: body.
Definition battery_method (body : list Z) : list Z :=
  AML_METHOD :: emit_pkglen (Z.of_nat (length (method_content body))) ++ method_content body.
Definition hid_object : list Z := AML_NAME :: name_HID ++ AML_STRING :: battery_string ++ [0].
Definition device_content (body : list Z) : list Z := [66; 65; 84; 48] ++ hid_object ++ battery_method body.
Definition battery_device (body : list Z) : list Z :=
  AML_EXT_PREFIX :: AML_EXT_DEVICE :: emit_pkglen (Z.of_nat (length (device_content body))) ++ device_content body.

Section scan.
Context (data : list Z).
Let N : Z := Z.of_nat (length data).
Context (Hsize : N < 2 ^ 31).
Implicit Types (s : scan) (e p : Z) (bs : list Z).

(** The scanner moved to [p]. *)
Definition moved (p : Z) (s : scan) : scan := mkScan p (glob s).

Lemma sc_byte_here s p b bs : at_bytes data p (b :: bs) → byte_at data p s = Ok (b, s).
Proof.
  intros [Hp Hb]%at_bytes_lookup. unfold byte_at. rewrite (proj2 (Z.leb_le 0 p)) by lia. by rewrite Hb.
Qed.

Lemma sc_read_here s e b bs :
  at_bytes data (pos s) (b :: bs) → pos s < e → sc_read data e s = Ok (b, moved (pos s + 1) s).
Proof.
  intros Hb He. unfold sc_read. rewrite (bind_of_ok _ _ s (pos s) s) by done.
  rewrite (proj2 (Z.ltb_lt _ _) He). rewrite (bind_of_ok _ _ _ _ _ (sc_byte_here _ _ _ _ Hb)).
  apply at_bytes_lookup in Hb. rewrite (bind_of_ok _ _ s tt (moved (u32 (pos s + 1)) s)) by done.
  by rewrite u32_small by (unfold N in *; lia).
Qed.

Lemma sc_peek_here s e b bs : at_bytes data (pos s) (b :: bs) → pos s < e → sc_peek data e s = Ok (b, s).
Proof.
  intros Hb He. unfold sc_peek. rewrite (bind_of_ok _ _ s (pos s) s) by done.
  rewrite (proj2 (Z.ltb_lt _ _) He). by eapply sc_byte_here.
Qed.

Lemma sc_pkglen_here c s e :
  0 ≤ c → c + 2 < 4096 → 0 ≤ pos s → at_bytes data (pos s) (emit_pkglen c) →
  pos s + Z.of_nat (length (emit_pkglen c)) + c ≤ e → e ≤ N →
  sc_pkglen data e s = Ok (pos s + Z.of_nat (length (emit_pkglen c)) + c,
                           moved (pos s + Z.of_nat (length (emit_pkglen c))) s).
Proof.
  unfold emit_pkglen. intros Hc Hmax Hp Hb He HN. unfold sc_pkglen. rewrite (bind_of_ok _ _ s (pos s) s) by done.
  destruct (Z.ltb_spec (c + 1) 64); cbn [length] in He |- *; rewrite (proj2 (Z.leb_gt e (pos s))) by lia;
    rewrite (bind_of_ok _ _ _ _ _ (sc_read_here s e _ _ Hb ltac:(lia))); unfold pkglen_rest.
  - destruct (pkglen_one (c + 1) ltac:(lia)) as [-> ->].
    rewrite (bind_of_ok _ _ _ (c + 1) (moved (pos s + 1) s)) by done.
    rewrite u32_small by (unfold N in *; lia).
    by replace (pos s + (c + 1)) with (pos s + Z.of_nat 1 + c) by lia.
  - destruct (pkglen_two (c + 2) ltac:(lia)) as [E1 E2]. rewrite E1. change (1 =? 0) with false. cbv iota.
    change (Z.to_nat 1) with 1%nat. apply at_bytes_cons in Hb as [_ Hb].
    assert (pkglen_bytes data 1 0 (Z.land (64 + (c + 2) mod 16) 15) e e (moved (pos s + 1) s)
      = Ok (c + 2, moved (pos s + Z.of_nat 2) s)) as Hlen.
    { cbn [pkglen_bytes]. rewrite (bind_of_ok _ _ _ (pos s + 1) (moved (pos s + 1) s)) by done.
      rewrite (proj2 (Z.ltb_lt (pos s + 1) e)) by lia.
      rewrite (bind_of_ok _ _ _ _ _ (sc_read_here (moved (pos s + 1) s) e _ _ Hb ltac:(simpl; lia))).
      rewrite E2. by replace (pos s + Z.of_nat 2) with (pos s + 1 + 1) by lia. }
    rewrite (bind_of_ok _ _ _ _ _ Hlen). rewrite u32_small by (unfold N in *; lia).
    by replace (pos s + (c + 2)) with (pos s + Z.of_nat 2 + c) by lia.
Qed.

Lemma nameseg_here seg s e :
  at_bytes data (pos s) seg → pos s + Z.of_nat (length seg) ≤ e →
  nameseg_chars data (length seg) e s = Ok (seg, moved (pos s + Z.of_nat (length seg)) s).
Proof.
  revert s. induction seg as [|c seg IH]; intros s Hb He.
  { destruct s. unfold moved. simpl. by rewrite Z.add_0_r. }
  cbn [nameseg_chars length]. simpl in He. rewrite (bind_of_ok _ _ s (pos s) s) by done.
  rewrite (proj2 (Z.ltb_lt (pos s) e)) by lia.
  rewrite (bind_of_ok _ _ _ _ _ (sc_read_here s e _ _ Hb ltac:(lia))). apply at_bytes_cons in Hb as [_ Hb].
  rewrite (bind_of_ok _ _ _ _ _ (IH (moved (pos s + 1) s) Hb ltac:(simpl; lia))).
  unfold moved. simpl. by replace (pos s + 1 + Z.of_nat (length seg)) with (pos s + Z.pos (Pos.of_succ_nat (length seg))) by lia.
Qed.

Lemma namestring_here a b c d s e :
  lead_char a = true → at_bytes data (pos s) [a; b; c; d] → pos s + 4 ≤ e →
  sc_namestring data e s = Ok ([a; b; c; d], moved (pos s + 4) s).
Proof.
  intros Ha Hb He. pose proof (sc_peek_here s e _ _ Hb ltac:(lia)) as Hpk.
  assert (a =? AML_ROOT_CHAR = false ∧ a =? AML_PARENT_CHAR = false ∧ a =? 0 = false ∧
    a =? AML_DUAL_NAME = false ∧ a =? AML_MULTI_NAME = false) as (E1 & E2 & E3 & E4 & E5).
  { unfold lead_char in Ha. unfold AML_ROOT_CHAR, AML_PARENT_CHAR, AML_DUAL_NAME, AML_MULTI_NAME. lia. }
  unfold sc_namestring, FUEL. cbn [skip_roots].
  rewrite (bind_of_ok _ _ s tt s).
  2: { rewrite (bind_of_ok _ _ s (pos s) s) by done. rewrite (bind_of_ok _ _ _ _ _ Hpk).
       by rewrite E1, E2, andb_false_r. }
  unfold sc_name. rewrite (bind_of_ok _ _ s (pos s) s) by done. rewrite (proj2 (Z.leb_gt e (pos s))) by lia.
  rewrite (bind_of_ok _ _ _ _ _ Hpk). rewrite E3, E4, E5, Ha.
  apply (nameseg_here [a; b; c; d] s e Hb). simpl. lia.
Qed.

Lemma skip_string_here cs fuel s e :
  Forall (λ b, b ≠ 0) cs → at_bytes data (pos s) (cs ++ [0]) → pos s + Z.of_nat (length cs) < e → e ≤ N →
  (length cs < fuel)%nat → 0 ≤ pos s →
  skip_string data fuel e s = Ok (tt, moved (pos s + Z.of_nat (length cs) + 1) s).
Proof.
  intros Hcs. revert fuel s. induction Hcs as [|b cs Hb Hcs IH]; intros [|fuel] s Hd He HN Hf Hp; try (simpl in Hf; lia);
    cbn [skip_string]; rewrite (bind_of_ok _ _ s (pos s) s) by done; simpl in Hd, He;
    rewrite (proj2 (Z.ltb_lt (pos s) e)) by lia; rewrite (bind_of_ok _ _ _ _ _ (sc_byte_here s _ _ _ Hd));
    rewrite (bind_of_ok _ _ s tt (moved (pos s + 1) s))
      by (unfold advance, modify, moved; by rewrite u32_small by (unfold N in *; lia)).
  - simpl. by rewrite Z.add_0_r.
  - rewrite (proj2 (Z.eqb_neq b 0) Hb). apply at_bytes_cons in Hd as [_ Hd].
    rewrite IH; [|done|simpl; lia|done|simpl in Hf; lia|simpl; lia].
    unfold moved. simpl. do 3 f_equal. lia.
Qed.

Lemma match_string_here want p s e bs :
  at_bytes data p (want ++ bs) → p + Z.of_nat (length want) ≤ e → e ≤ N → 0 ≤ p →
  match_string data want p e s = Ok (true, s).
Proof.
  revert p. induction want as [|c want IH]; intros p Hb He HN Hp; simpl; [done|]. simpl in Hb, He.
  rewrite (proj2 (Z.leb_gt e p)) by lia. rewrite (bind_of_ok _ _ _ _ _ (sc_byte_here s _ _ _ Hb)).
  rewrite Z.eqb_refl. apply at_bytes_cons in Hb as [_ Hb]. rewrite u32_small by (unfold N in *; lia).
  apply IH; [done|lia..].
Qed.

(** The hardware identifier of a battery: the device is counted. *)
Lemma scan_hid s e :
  at_bytes data (pos s) hid_object → pos s + 14 ≤ e → e ≤ N → 0 ≤ pos s → g_battery_count (glob s) = 0 →
  scan_name data e s = Ok (tt, mkScan (pos s + 14) (mkAml (g_ec_fields (glob s)) (g_batteries (glob s)) 1)).
Proof.
  intros Hb He HN Hp Hcount. unfold hid_object in Hb. unfold scan_name.
  rewrite (bind_of_ok _ _ _ _ _ (sc_read_here s e _ _ Hb ltac:(lia))). apply at_bytes_cons in Hb as [_ Hb].
  change (name_HID ++ AML_STRING :: battery_string ++ [0])
    with (name_HID ++ (AML_STRING :: battery_string ++ [0])) in Hb.
  apply at_bytes_app in Hb as [Hname Hb]. cbn [length name_HID] in Hb.
  rewrite (bind_of_ok _ _ _ _ _ (namestring_here 95 72 73 68 (moved (pos s + 1) s) e eq_refl Hname ltac:(simpl; lia))).
  change (pos (moved (pos s + 1) s) + 4) with (pos s + 1 + 4). change (pos s + 1 + Z.of_nat 4) with (pos s + 1 + 4) in Hb.
  set (p := pos s + 1 + 4) in *. change (moved p (moved (pos s + 1) s)) with (moved p s).
  assert (battery_hid data e (moved p s) = Ok (true, moved p s)) as Hhid.
  { unfold battery_hid. rewrite (bind_of_ok _ _ _ p (moved p s)) by done. rewrite (proj2 (Z.ltb_lt p e)) by lia.
    rewrite (bind_of_ok _ _ _ _ _ (sc_peek_here (moved p s) e _ _ Hb ltac:(simpl; lia))).
    change (AML_STRING =? AML_DWORD) with false. cbn [andb]. change (AML_STRING =? AML_STRING) with true. cbv iota.
    apply at_bytes_cons in Hb as [_ Hb]. rewrite u32_small by (unfold N in *; lia).
    apply (match_string_here battery_string _ _ _ _ Hb); simpl; lia. }
  change (seg_eq [95; 72; 73; 68] name_HID) with true. cbv iota. rewrite (bind_of_ok _ _ _ _ _ Hhid).
  assert (sc_skip_term data (FUEL data) e (moved p s) = Ok (tt, moved (p + 9) s)) as Hskip.
  { unfold FUEL. cbn [sc_skip_term]. rewrite (bind_of_ok _ _ _ p (moved p s)) by done.
    rewrite (proj2 (Z.leb_gt e p)) by lia.
    rewrite (bind_of_ok _ _ _ _ _ (sc_read_here (moved p s) e _ _ Hb ltac:(simpl; lia))).
    apply at_bytes_cons in Hb as [_ Hb].
    change (skip_op data (sc_skip_term data (length data) e) AML_STRING e) with (skip_string data (FUEL data) e).
    rewrite (skip_string_here battery_string); simpl; unfold moved; simpl;
      [do 3 f_equal; lia|by repeat constructor|done|lia|done|unfold FUEL, N in *; lia|lia]. }
  rewrite (bind_of_ok _ _ _ _ _ Hskip). unfold set_glob, modify, moved, count_battery. cbn [glob pos].
  rewrite Hcount. simpl. do 3 f_equal. lia.
Qed.

(** The status method: attached to the battery. *)
Lemma scan_bst body s e bat :
  at_bytes data (pos s) (battery_method body) → pos s + Z.of_nat (length (battery_method body)) = e → e = N →
  0 ≤ pos s → Z.of_nat (length (method_content body)) + 2 < 4096 →
  g_battery_count (glob s) = 1 → g_batteries (glob s) !! 0%nat = Some bat → bst_aml bat = None →
  ∃ g', scan_method data e s = Ok (tt, mkScan e g') ∧
    g_ec_fields g' = g_ec_fields (glob s) ∧ g_battery_count g' = 1 ∧
    g_batteries g' !! 0%nat = Some (mkBattery true (Some body) (Z.of_nat (length body)) (bif_aml bat) (bif_len bat)).
Proof.
  intros Hb He HN Hp Hsz Hc Hbat Hnone. unfold battery_method in *. cbn [length] in He. rewrite length_app in He.
  set (content := method_content body) in *.
  unfold scan_method. rewrite (bind_of_ok _ _ _ _ _ (sc_read_here s e _ _ Hb ltac:(lia))).
  apply at_bytes_cons in Hb as [_ Hb]. apply at_bytes_app in Hb as [H1 H2].
  rewrite (bind_of_ok _ _ _ _ _ (sc_pkglen_here (Z.of_nat (length content)) (moved (pos s + 1) s) e
    ltac:(lia) Hsz ltac:(cbn; lia) H1 ltac:(cbn [pos moved]; lia) ltac:(lia))).
  cbn [pos moved]. set (p := pos s + 1 + Z.of_nat (length (emit_pkglen (Z.of_nat (length content))))) in *.
  unfold min_end. rewrite (proj2 (Z.ltb_ge e (p + _))) by lia.
  assert (p + Z.of_nat (length content) = e) as Hend by lia. rewrite Hend.
  unfold content, method_content in H2. apply at_bytes_app in H2 as [Hname H2].
  assert (length content = (5 + length body)%nat) as Hlc by done.
  change (glob (moved (pos s + 1) s)) with (glob s).
  rewrite (bind_of_ok _ _ _ _ _ (namestring_here 95 66 83 84 (mkScan p (glob s)) e eq_refl Hname ltac:(simpl; lia))).
  rewrite (bind_of_ok _ _ _ tt (mkScan (p + 5) (glob s)))
    by (unfold advance, modify, moved; simpl; rewrite u32_small by (unfold N in *; lia); do 3 f_equal; lia).
  rewrite (bind_of_ok _ _ _ (p + 5) (mkScan (p + 5) (glob s))) by done.
  assert (drop (Z.to_nat (p + 5)) data = body) as Hdrop.
  { apply at_bytes_cons in H2 as [_ (pre & post & Hd & Hpos)].
    assert (post = []) as ->.
    { destruct post; [done|]. exfalso. unfold N in *. rewrite Hd, !length_app in HN. simpl in HN, Hpos. lia. }
    rewrite Hd, app_nil_r. rewrite drop_app_ge by (simpl in Hpos; lia).
    replace (Z.to_nat (p + 5) - length pre)%nat with 0%nat by (simpl in Hpos; lia). done. }
  eexists. unfold set_glob, set_pos, modify, mbind, M_bind. split; [reflexivity|].
  unfold attach_method. cbn [glob]. rewrite Hc. cbv zeta.
  change (Z.to_nat (if 0 <? 1 then 1 - 1 else 0)) with 0%nat. rewrite Hbat, Hdrop. change (seg_eq [95; 66; 83; 84] name_BST) with true.
  rewrite (bool_decide_eq_true_2 _ Hnone). cbn -[alter]. split_and!; [done|done|].
  rewrite list_lookup_alter_eq, Hbat. simpl. do 2 f_equal. rewrite u32_small by (unfold N in *; lia). lia.
Qed.

(** Which scanner a term takes, by its first byte. *)
Lemma scan_term_name tl e s bs :
  at_bytes data (pos s) (AML_NAME :: bs) → pos s < e → sc_scan_term data tl e s = scan_name data e s.
Proof.
  intros Hb He. unfold sc_scan_term. rewrite (bind_of_ok _ _ s (pos s) s) by done.
  rewrite (proj2 (Z.leb_gt _ _) He). by rewrite (bind_of_ok _ _ _ _ _ (sc_peek_here s e _ _ Hb He)).
Qed.

Lemma scan_term_method tl e s bs :
  at_bytes data (pos s) (AML_METHOD :: bs) → pos s < e → sc_scan_term data tl e s = scan_method data e s.
Proof.
  intros Hb He. unfold sc_scan_term. rewrite (bind_of_ok _ _ s (pos s) s) by done.
  rewrite (proj2 (Z.leb_gt _ _) He). by rewrite (bind_of_ok _ _ _ _ _ (sc_peek_here s e _ _ Hb He)).
Qed.

Lemma scan_term_device tl e s bs :
  at_bytes data (pos s) (AML_EXT_PREFIX :: AML_EXT_DEVICE :: bs) → pos s + 1 < e → e ≤ N → 0 ≤ pos s →
  sc_scan_term data tl e s = scan_body data tl e (moved (pos s + 2) s).
Proof.
  intros Hb He HN Hp. unfold sc_scan_term. rewrite (bind_of_ok _ _ s (pos s) s) by done.
  rewrite (proj2 (Z.leb_gt e (pos s))) by lia.
  rewrite (bind_of_ok _ _ _ _ _ (sc_peek_here s e _ _ Hb ltac:(lia))).
  change ((AML_EXT_PREFIX =? AML_SCOPE) || (AML_EXT_PREFIX =? AML_EXT_PREFIX)) with true. cbv iota.
  change (AML_EXT_PREFIX =? AML_EXT_PREFIX) with true. cbv iota.
  rewrite (bind_of_ok _ _ s tt (moved (pos s + 1) s))
    by (unfold advance, modify, moved; by rewrite u32_small by (unfold N in *; lia)).
  rewrite (bind_of_ok _ _ _ (pos s + 1) (moved (pos s + 1) s)) by done.
  rewrite (proj2 (Z.leb_gt e (pos s + 1))) by lia. apply at_bytes_cons in Hb as [_ Hb].
  rewrite (bind_of_ok _ _ _ _ _ (sc_peek_here (moved (pos s + 1) s) e _ _ Hb ltac:(simpl; lia))).
  change (negb (AML_EXT_DEVICE =? AML_EXT_DEVICE)) with false. cbv iota.
  rewrite (bind_of_ok _ _ _ _ _ (sc_read_here (moved (pos s + 1) s) e _ _ Hb ltac:(simpl; lia))).
  unfold moved. simpl. by replace (pos s + 1 + 1) with (pos s + 2) by lia.
Qed.

Lemma termlist_step fuel e s s' :
  pos s < e → sc_scan_term data (sc_scan_termlist data fuel) e s = Ok (tt, s') →
  sc_scan_termlist data (S fuel) e s = sc_scan_termlist data fuel e s'.
Proof.
  intros He Ht. cbn [sc_scan_termlist]. rewrite (bind_of_ok _ _ s (pos s) s) by done.
  rewrite (proj2 (Z.ltb_lt _ _) He). by rewrite (bind_of_ok _ _ _ _ _ Ht).
Qed.

Lemma termlist_end fuel e s : e ≤ pos s → sc_scan_termlist data fuel e s = Ok (tt, s).
Proof.
  intros He. destruct fuel; cbn [sc_scan_termlist]; rewrite (bind_of_ok _ _ s (pos s) s) by done;
    by rewrite (proj2 (Z.ltb_ge _ _) He).
Qed.

(** The contents of the device: identifier, then method. *)
Lemma scan_content body fuel s :
  at_bytes data (pos s) (hid_object ++ battery_method body) →
  pos s + Z.of_nat (length (hid_object ++ battery_method body)) = N → 0 ≤ pos s →
  Z.of_nat (length (method_content body)) + 2 < 4096 → glob s = aml_boot →
  ∃ g', sc_scan_termlist data (S (S fuel)) N s = Ok (tt, mkScan N g') ∧
    g_ec_fields g' = [] ∧ g_battery_count g' = 1 ∧
    g_batteries g' !! 0%nat = Some (mkBattery true (Some body) (Z.of_nat (length body)) None 0).
Proof.
  intros Hb He Hp Hsz Hg. rewrite length_app in He. change (length hid_object) with 14%nat in He.
  apply at_bytes_app in Hb as [Hhid Hm]. change (Z.of_nat (length hid_object)) with 14 in Hm.
  assert (0 < length (battery_method body))%nat by (unfold battery_method; simpl; lia).
  erewrite termlist_step; [|lia|].
  2: { rewrite (scan_term_name _ _ _ _ Hhid) by lia. apply scan_hid; [done|lia..|by rewrite Hg]. }
  set (s1 := mkScan (pos s + 14) _).
  assert (g_batteries (glob s1) !! 0%nat = Some no_battery) as Hb0 by (simpl; by rewrite Hg).
  destruct (scan_bst body s1 N no_battery Hm) as (g' & Hrun & Hf & Hc & Hbat);
    [cbn [pos s1]; lia|done|cbn [pos s1]; lia|done|done|exact Hb0|done|].
  erewrite termlist_step; [|simpl; lia|].
  2: { unfold battery_method in Hm. rewrite (scan_term_method _ _ s1 _ Hm) by (simpl; lia). exact Hrun. }
  rewrite termlist_end by (simpl; lia). exists g'. split_and!; [done| |done|done]. by rewrite Hf; simpl; rewrite Hg.
Qed.
End scan.

(** The whole table. *)
Lemma aml_scan_device body :
  Z.of_nat (length body) < 4000 →
  ∃ g', aml_scan (battery_device body) (Z.of_nat (length (battery_device body))) aml_boot = Ok (tt, g') ∧
    g_ec_fields g' = [] ∧ g_battery_count g' = 1 ∧
    g_batteries g' !! 0%nat = Some (mkBattery true (Some body) (Z.of_nat (length body)) None 0).
Proof.
  intros Hsz. set (data := battery_device body).
  assert (length (method_content body) = (5 + length body)%nat) as Hmc by done.
  assert (∀ c, (0 < length (emit_pkglen c) ≤ 2)%nat) as Hpl
    by (intros c; unfold emit_pkglen; case_match; simpl; lia).
  assert (length (device_content body) = (18 + length (battery_method body))%nat) as Hdc by done.
  assert (length (battery_method body) =
    (1 + (length (emit_pkglen (Z.of_nat (length (method_content body)))) + length (method_content body)))%nat) as Hbm
    by (unfold battery_method; cbn [length]; by rewrite length_app).
  set (pl := emit_pkglen (Z.of_nat (length (device_content body)))).
  assert (length data = (2 + (length pl + length (device_content body)))%nat) as Hd
    by (unfold data, battery_device; cbn [length]; by rewrite length_app).
  pose proof (Hpl (Z.of_nat (length (method_content body)))). pose proof (Hpl (Z.of_nat (length (device_content body)))) as Hpl2.
  fold pl in Hpl2. set (N := Z.of_nat (length data)).
  assert (N < 2 ^ 31) as HN by (unfold N; lia).
  assert (at_bytes data 0 (AML_EXT_PREFIX :: AML_EXT_DEVICE :: pl ++ device_content body)) as Hb
    by (exists [], []; by rewrite app_nil_r).
  assert (∃ fuel, Z.to_nat N = S (S (S fuel))) as [fuel Hfuel] by (exists (Z.to_nat N - 3)%nat; lia).
  pose proof Hb as Hb0. apply at_bytes_cons in Hb as [_ Hb]. apply at_bytes_cons in Hb as [_ Hb].
  apply at_bytes_app in Hb as [H1 Hb]. unfold device_content in Hb. apply at_bytes_app in Hb as [Hname Hb].
  change (0 + 1 + 1) with 2 in *. change (Z.of_nat (length [66; 65; 84; 48])) with 4 in Hb.
  set (p := 2 + Z.of_nat (length pl)) in *.
  destruct (scan_content data HN body fuel (mkScan (p + 4) aml_boot)) as (g' & Hrun & Hf & Hc & Hbat).
  - exact Hb.
  - rewrite length_app. change (length hid_object) with 14%nat. cbn [pos]. lia.
  - cbn [pos]. lia.
  - lia.
  - done.
  - exists g'. split; [|done]. unfold aml_scan. fold N. rewrite Hfuel.
    rewrite (termlist_step data (S (S fuel)) N (mkScan 0 aml_boot) (mkScan N g')); [|cbn; lia|].
    { by rewrite termlist_end by (cbn; lia). }
    rewrite (scan_term_device data HN _ N (mkScan 0 aml_boot) _ Hb0); [|cbn [pos]; lia|lia|done].
    unfold scan_body. cbn [pos]. change (moved (0 + 2) (mkScan 0 aml_boot)) with (mkScan 2 aml_boot).
    rewrite (bind_of_ok _ _ _ _ _ (sc_pkglen_here data HN (Z.of_nat (length (device_content body))) (mkScan 2 aml_boot) N
      ltac:(lia) ltac:(lia) ltac:(cbn; lia) H1 ltac:(cbn [pos]; fold pl; lia) ltac:(lia))).
    cbn [pos]. fold pl. fold p. unfold min_end. rewrite (proj2 (Z.ltb_ge N (p + _))) by lia.
    replace (p + Z.of_nat (length (device_content body))) with N by lia.
    rewrite (bind_of_ok _ _ _ _ _ (namestring_here data HN 66 65 84 48 (moved p (mkScan 2 aml_boot)) N eq_refl Hname
      ltac:(cbn [pos moved]; lia))).
    change (moved (pos (moved p (mkScan 2 aml_boot)) + 4) (moved p (mkScan 2 aml_boot))) with (mkScan (p + 4) aml_boot).
    by rewrite (bind_of_ok _ _ _ _ _ Hrun).
Qed.


#[local] Existing Instance Acpi.ec_ports.

End Battery.
