(* ===== verification/Pci.v ===== *)
(** * PCI configuration space and enumeration ([kernel/io/pci.c], [pci.h])

    The configuration mechanism: an address written to port 0xCF8 selects a
    register of a function, which port 0xCFC then reads or writes.  [pci_bus] is
    the host bridge of the specification, in front of the rest of the machine. *)
From S2P Require Import Prelude Ports.

Local Open Scope string_scope.
Local Open Scope Z_scope.

Module Pci.

(** ** The driver *)

Definition pci_get_vendor_name (vendor_id : Z) : string :=
  if vendor_id =? 0x10ec then "Realtek" else if vendor_id =? 0x8086 then "Intel" else "Unknown".

Definition class_names : list ((Z * Z) * string) :=
  [((0, 0), "Non-VGA-Compatible Unclassified Device");
   ((0, 1), "VGA-Compatible Unclassified Device");
   ((1, 0), "SCSI Bus Controller");
   ((1, 1), "IDE Controller");
   ((1, 2), "Floppy Disk Controller");
   ((1, 3), "IPI Bus Controller");
   ((1, 4), "RAID Controller");
   ((1, 5), "ATA Controller");
   ((1, 6), "Serial ATA Controller");
   ((1, 7), "Serial Attached SCSI Controller");
   ((1, 8), "Non-Volatile Memory Controller");
   ((2, 0), "Ethernet Controller");
   ((2, 1), "Token Ring Controller");
   ((2, 2), "FDDI Controller");
   ((2, 3), "ATM Controller");
   ((2, 4), "ISDN Controller");
   ((2, 5), "WorldFip Controller");
   ((2, 6), "PICMG 2.14 Multi Computing Controller");
   ((2, 7), "Infiniband Controller");
   ((2, 8), "Fabric Controller");
   ((3, 0), "VGA Compatible Controller");
   ((3, 1), "XGA Controller");
   ((3, 2), "3D Controller (Not VGA-Compatible)");
   ((4, 0), "Multimedia Video Controller");
   ((4, 1), "Multimedia Audio Controller");
   ((4, 2), "Computer Telephony Device");
   ((4, 3), "Audio Device");
   ((5, 0), "RAM Controller");
   ((5, 1), "Flash Controller");
   ((0xC, 0), "FireWire (IEEE 1394) Controller");
   ((0xC, 1), "ACCESS Bus Controller");
   ((0xC, 2), "SSA");
   ((0xC, 3), "USB Controller");
   ((0xC, 4), "Fibre Channel");
   ((0xC, 5), "SMBus Controller");
   ((0xC, 6), "InfiniBand Controller");
   ((0xC, 7), "IPMI Interface");
   ((0xC, 8), "SERCOS Interface (IEC 61491)");
   ((0xC, 9), "CANbus Controller")].

Definition pci_get_name (class subclass : Z) : string :=
  match list_find (λ x, Z.lor (Z.shiftl (fst (fst x)) 8) (snd (fst x)) = Z.lor (u16 (Z.shiftl class 8)) subclass) class_names with
  | Some (_, (_, n)) => n
  | None => "Unknown"
  end.

(** What [pci_check_function] logs. *)
Record pci_line := mkLine {
  pl_bus : Z; pl_dev : Z; pl_func : Z; pl_vendor : Z; pl_device : Z; pl_class : Z; pl_subclass : Z; pl_name : string
}.

Definition config_addr (bus dev func offset : Z) : Z :=
  u32 (Z.lor (Z.lor (Z.lor (Z.lor (Z.shiftl 1 31) (Z.shiftl bus 16)) (Z.shiftl dev 11)) (Z.shiftl func 8)) (Z.land offset 0xFC)).

Section driver.
Context {S : Type} `{!Ports S}.

Definition pci_read32 (bus dev func offset : Z) : M S Z :=
  outl 0xCF8 (config_addr bus dev func offset) ;; inl 0xCFC.

Definition pci_write32 (bus dev func offset value : Z) : M S unit :=
  outl 0xCF8 (config_addr bus dev func offset) ;; outl 0xCFC value.

Definition pci_get_vendor_id (bus dev func : Z) : M S Z := v ← pci_read32 bus dev func 0; mret (Z.land v 0xFFFF).
Definition pci_get_device_id (bus dev func : Z) : M S Z := v ← pci_read32 bus dev func 0; mret (Z.shiftr v 16).
Definition pci_get_progif (bus dev func : Z) : M S Z := v ← pci_read32 bus dev func 0x08; mret (Z.land (Z.shiftr v 8) 0xFF).
Definition pci_get_bar0 (bus dev func : Z) : M S Z := pci_read32 bus dev func 0x10.
Definition pci_get_bar1 (bus dev func : Z) : M S Z := pci_read32 bus dev func 0x14.
Definition pci_get_bar2 (bus dev func : Z) : M S Z := pci_read32 bus dev func 0x18.
Definition pci_get_bar3 (bus dev func : Z) : M S Z := pci_read32 bus dev func 0x1C.
Definition pci_get_bar4 (bus dev func : Z) : M S Z := pci_read32 bus dev func 0x20.
Definition pci_get_bar5 (bus dev func : Z) : M S Z := pci_read32 bus dev func 0x24.

(** [~0xFUL] is the 64-bit mask. *)
Definition pci_get_bar (bus dev func : Z) : M S Z :=
  bar0 ← pci_read32 bus dev func 0x10;
  if Z.land bar0 0x06 =? 0x04 then
    bar1 ← pci_read32 bus dev func 0x14;
    mret (Z.lor (Z.shiftl bar1 32) (Z.land bar0 0xFFFFFFFFFFFFFFF0))
  else mret (Z.land bar0 0xFFFFFFFFFFFFFFF0).

Definition pci_enable_bus_master (bus dev func : Z) : M S unit :=
  cmd ← pci_read32 bus dev func 0x04;
  pci_write32 bus dev func 0x04 (Z.lor (Z.lor cmd (Z.shiftl 1 1)) (Z.shiftl 1 2)).

Definition pci_check_function (bus dev func : Z) : M S (list pci_line) :=
  id ← pci_read32 bus dev func 0;
  if Z.land id 0xFFFF =? 0xFFFF then mret []
  else
    let vendor := Z.land id 0xFFFF in
    let device := u16 (Z.shiftr id 16) in
    cls ← pci_read32 bus dev func 0x08;
    let class_code := u8 (Z.shiftr cls 24) in
    let subclass := Z.land (Z.shiftr cls 16) 0xFF in
    mret [mkLine bus dev func vendor device class_code subclass (pci_get_name class_code subclass)].

(** The lines of a loop over [n] values from [lo]. *)
Fixpoint collect (n : nat) (lo : Z) (f : Z → M S (list pci_line)) : M S (list pci_line) :=
  match n with
  | O => mret []
  | Datatypes.S n' => l ← f lo; l' ← collect n' (lo + 1) f; mret (l ++ l')%list
  end.

Definition pci_check_device (bus dev : Z) : M S (list pci_line) :=
  id ← pci_read32 bus dev 0 0;
  if Z.land id 0xFFFF =? 0xFFFF then mret []
  else
    header ← pci_read32 bus dev 0 0x0C;
    let header_type := Z.land (Z.shiftr header 16) 0xFF in
    l ← pci_check_function bus dev 0;
    if truthy (Z.land header_type 0x80) then
      l' ← collect 7 1 (pci_check_function bus dev);
      mret (l ++ l')%list
    else mret l.

Definition pci_scan : M S (list pci_line) := collect 256 0 (λ bus, collect 32 0 (pci_check_device bus)).

(** One function, in the innermost loop of [pci_scan_for_class]. *)
Definition scan_function (class subclass : Z) (callback : Z → Z → Z → M S unit) (bus dev func : Z) : M S unit :=
  id ← pci_read32 bus dev func 0;
  if Z.land id 0xFFFF =? 0xFFFF then mret tt
  else
    cls ← pci_read32 bus dev func 0x08;
    let class_code := u8 (Z.shiftr cls 24) in
    let subclass_code := Z.land (Z.shiftr cls 16) 0xFF in
    when ((class_code =? class) && (subclass_code =? subclass)) (callback bus dev func).

Definition scan_device (class subclass : Z) (callback : Z → Z → Z → M S unit) (bus dev : Z) : M S unit :=
  id ← pci_read32 bus dev 0 0;
  if Z.land id 0xFFFF =? 0xFFFF then mret tt
  else
    header ← pci_read32 bus dev 0 0x0C;
    let header_type := Z.land (Z.shiftr header 16) 0xFF in
    let func_count := if truthy (Z.land header_type 0x80) then 8 else 1 in
    for_range (Z.to_nat func_count) 0 (scan_function class subclass callback bus dev).

Definition pci_scan_for_class (class subclass : Z) (callback : Z → Z → Z → M S unit) : M S unit :=
  for_range 256 0 (λ bus, for_range 32 0 (scan_device class subclass callback bus)).
End driver.

(** ** The host bridge of the specification

    Every function has 64 registers of 32 bits; one that is absent reads as all
    ones.  The bridge stands in front of a state [T] that the ports 0xCF8 and 0xCFC do not touch. *)

Record pci_bus := mkBus { pb_addr : Z; pb_config : Z → Z → Z → Z → Z }.

Definition selected {A} (f : Z → Z → Z → Z → A) (a : Z) : A :=
  f ((a / 2 ^ 16) mod 2 ^ 8) ((a / 2 ^ 11) mod 2 ^ 5) ((a / 2 ^ 8) mod 2 ^ 3) (4 * ((a / 4) mod 2 ^ 6)).

Definition set_register (b d f r v : Z) (c : Z → Z → Z → Z → Z) : Z → Z → Z → Z → Z := λ b' d' f' r',
  if (b' =? b) && (d' =? d) && (f' =? f) && (r' =? r) then v else c b' d' f' r'.

#[export] Instance bus_ports (T : Type) : Ports (pci_bus * T) := {|
  port_in width port s :=
    if (port =? 0xCFC) && Z.testbit (pb_addr (fst s)) 31 then (selected (pb_config (fst s)) (pb_addr (fst s)), s)
    else (2 ^ (8 * width) - 1, s);
  port_out width port v s :=
    if port =? 0xCF8 then (mkBus v (pb_config (fst s)), snd s)
    else if (port =? 0xCFC) && Z.testbit (pb_addr (fst s)) 31
    then (mkBus (pb_addr (fst s)) (selected (λ b d f r, set_register b d f r v (pb_config (fst s))) (pb_addr (fst s))), snd s)
    else s
|}.

(** ** Reading registers *)

Lemma config_addr_sum bus dev func o : 0 ≤ bus < 256 → 0 ≤ dev < 32 → 0 ≤ func < 8 → 0 ≤ o < 256 → Z.land o 0xFC = o →
  config_addr bus dev func o = o + func * 2 ^ 8 + dev * 2 ^ 11 + bus * 2 ^ 16 + 2 ^ 31.
Proof.
  intros Hb Hd Hf Ho E. unfold config_addr. rewrite E.
  assert (∀ a b c d, Z.lor (Z.lor (Z.lor (Z.lor a b) c) d) o = Z.lor (Z.lor (Z.lor (Z.lor o d) c) b) a) as ->.
  { intros a b c d. apply Z.bits_inj'. intros n _. rewrite !Z.lor_spec.
    by destruct (Z.testbit a n), (Z.testbit b n), (Z.testbit c n), (Z.testbit d n), (Z.testbit o n). }
  rewrite (lor_add o func 8), (lor_add _ dev 11), (lor_add _ bus 16), (lor_add _ 1 31) by lia. rewrite u32_small; lia.
Qed.

Section reads.
Context {T : Type}.
Implicit Types (m : pci_bus) (t : T).

Definition bus_ok (c : Z → Z → Z → Z → Z) : Prop := ∀ b d f r, 0 ≤ c b d f r < 2 ^ 32.

Lemma selected_addr {A} (g : Z → Z → Z → Z → A) bus dev func o :
  0 ≤ bus < 256 → 0 ≤ dev < 32 → 0 ≤ func < 8 → 0 ≤ o < 256 → Z.land o 0xFC = o → o mod 4 = 0 →
  selected g (config_addr bus dev func o) = g bus dev func o ∧ Z.testbit (config_addr bus dev func o) 31 = true.
Proof.
  intros Hb Hd Hf Ho E E4. rewrite config_addr_sum by done. split.
  - unfold selected. f_equal; dlia.
  - apply Z.testbit_true; [lia|]. dlia.
Qed.

Lemma pci_read32_ok m t bus dev func o : bus_ok (pb_config m) →
  0 ≤ bus < 256 → 0 ≤ dev < 32 → 0 ≤ func < 8 → 0 ≤ o < 256 → Z.land o 0xFC = o → o mod 4 = 0 →
  pci_read32 bus dev func o (m, t) = Ok (pb_config m bus dev func o, (mkBus (config_addr bus dev func o) (pb_config m), t)).
Proof.
  intros Hm Hb Hd Hf Ho E E4. unfold pci_read32. rewrite (bind_of_ok _ _ _ tt (mkBus (config_addr bus dev func o) (pb_config m), t)).
  - destruct (selected_addr (pb_config m) bus dev func o) as [Hs Ht]; [done..|].
    unfold inl, mbind, M_bind, port_read. cbn [port_in bus_ports fst pb_addr]. change (u16 0xCFC =? 0xCFC) with true.
    rewrite Ht. cbn [andb fst pb_config]. rewrite Hs. by rewrite u32_small.
  - unfold outl, port_write. cbn [port_out bus_ports fst snd pb_config]. change (u16 0xCF8 =? 0xCF8) with true. unfold config_addr. rewrite (u32_small (u32 _)) by apply u32_range. done.
Qed.

(** ** Enumeration *)

(** The functions of the class, in the order of their addresses: those of a
    device whose function 0 is there, and the others only if its header
    says that it has several. *)
Definition present (c : Z → Z → Z → Z → Z) (b d f : Z) : Prop := c b d f 0 mod 2 ^ 16 ≠ 0xFFFF.
Definition matches (c : Z → Z → Z → Z → Z) (class subclass : Z) (x : Z * Z * Z) : Prop :=
  let '(b, d, f) := x in
  present c b d 0 ∧ (f = 0 ∨ Z.testbit (c b d 0 0x0C) 23 = true) ∧ present c b d f ∧
  c b d f 8 / 2 ^ 24 = class ∧ (c b d f 8 / 2 ^ 16) mod 2 ^ 8 = subclass.
#[export] Instance matches_dec c class subclass x : Decision (matches c class subclass x).
Proof.
  destruct x as [[b d] f]. unfold matches. destruct (decide (c b d 0 0 mod 2 ^ 16 = 0xFFFF)) as [H|_].
  - right. intros [H' _]. exact (H' H).
  - unfold present. apply _.
Defined.

Definition all_functions : list (Z * Z * Z) :=
  concat (map (λ b, concat (map (λ d, map (λ f, (b, d, f)) (seqZ 0 8)) (seqZ 0 32))) (seqZ 0 256)).

(** The callbacks for a list of functions. *)
Fixpoint visit (cb : Z → Z → Z → M T unit) (l : list (Z * Z * Z)) : M T unit :=
  match l with [] => mret tt | (b, d, f) :: l' => cb b d f ;; visit cb l' end.

(** [p] only makes the callbacks of [l], and may leave another address behind. *)
Definition acts (c : Z → Z → Z → Z → Z) (cb : Z → Z → Z → M T unit) (p : M (pci_bus * T) unit) (l : list (Z * Z * Z)) : Prop :=
  ∀ a t, ∃ a', p (mkBus a c, t) = zoom snd (λ t' _, (mkBus a' c, t')) (visit cb l) (mkBus a c, t).

Definition on_rest (cb : Z → Z → Z → M T unit) (b d f : Z) : M (pci_bus * T) unit := zoom snd (λ t' s, (fst s, t')) (cb b d f).

Lemma visit_app cb l l' t : visit cb (l ++ l') t = (visit cb l ;; visit cb l') t.
Proof.
  revert t. induction l as [|[[b d] f] l IH]; intros t; [done|]. cbn [app visit]. unfold mbind, M_bind.
  destruct (cb b d f t) as [[? t1]| | |]; [|done..]. apply IH.
Qed.

Lemma acts_nil c cb a' (p : M (pci_bus * T) unit) :
  (∀ a t, p (mkBus a c, t) = Ok (tt, (mkBus a' c, t))) → acts c cb p [].
Proof. intros H a t. exists a'. by rewrite H. Qed.

Lemma acts_seq c cb p q l l' : acts c cb p l → acts c cb q l' → acts c cb (p ;; q) (l ++ l').
Proof.
  intros Hp Hq a t. destruct (Hp a t) as [a1 E1]. unfold mbind at 1, M_bind at 1. rewrite E1. unfold zoom at 1.
  unfold zoom. cbn [snd]. rewrite visit_app. unfold mbind, M_bind.
  destruct (visit cb l t) as [[[] t1]| | |]; [|by exists a..].
  destruct (Hq a1 t1) as [a2 E2]. exists a2. rewrite E2. unfold zoom. done.
Qed.

Lemma acts_range c cb n lo body g : (∀ i, lo ≤ i < lo + Z.of_nat n → acts c cb (body i) (g i)) →
  acts c cb (for_range n lo body) (concat (map g (seqZ lo (Z.of_nat n)))).
Proof.
  revert lo. induction n as [|n IH]; intros lo H.
  - intros a t. exists a. done.
  - rewrite seqZ_cons by lia. cbn [map concat for_range]. apply acts_seq; [apply H; lia|].
    replace (Z.pred (Z.of_nat (S n))) with (Z.of_nat n) by lia. apply IH. intros i Hi. apply H. lia.
Qed.

Lemma truthy_bit h : 0 ≤ h → truthy (Z.land (Z.land (Z.shiftr h 16) 0xFF) 0x80) = Z.testbit h 23.
Proof.
  intros Hh. rewrite <- Z.land_assoc. change (Z.land 0xFF 0x80) with (Z.shiftl 1 7).
  assert (Z.land (Z.shiftr h 16) (Z.shiftl 1 7) = if Z.testbit h 23 then Z.shiftl 1 7 else 0) as ->.
  { apply Z.bits_inj'. intros n Hn. rewrite Z.land_spec, testbit_pow2, Z.shiftr_spec by lia.
    destruct (Z.eqb_spec n 7) as [->|Hne].
    - change (7 + 16) with 23. destruct (Z.testbit h 23); [|by rewrite Z.bits_0]. by rewrite testbit_pow2.
    - rewrite andb_false_r. destruct (Z.testbit h 23); [|by rewrite Z.bits_0]. rewrite testbit_pow2 by lia.
      symmetry. by apply Z.eqb_neq. }
  by destruct (Z.testbit h 23).
Qed.

Lemma filter_concat {A} (P : A → Prop) `{∀ x, Decision (P x)} (l : list (list A)) :
  filter P (concat l) = concat (map (filter P) l).
Proof. induction l as [|x l IH]; [done|]. cbn [concat map]. by rewrite filter_app, IH. Qed.

Section scan.
Context (c : Z → Z → Z → Z → Z) (C : bus_ok c) (cb : Z → Z → Z → M T unit) (class subclass : Z).

(** The test [scan_function] makes. *)
Definition wanted (x : Z * Z * Z) : Prop :=
  let '(b, d, f) := x in
  present c b d f ∧ c b d f 8 / 2 ^ 24 = class ∧ (c b d f 8 / 2 ^ 16) mod 2 ^ 8 = subclass.
#[local] Instance wanted_dec x : Decision (wanted x).
Proof. unfold wanted, present. destruct x as [[b d] f]. apply _. Defined.

Lemma absent v : (Z.land v 0xFFFF =? 0xFFFF) = bool_decide (v mod 2 ^ 16 = 0xFFFF).
Proof.
  change (Z.land v 0xFFFF) with (Z.land v (Z.ones 16)). rewrite Z.land_ones by lia.
  destruct (Z.eqb_spec (v mod 2 ^ 16) 0xFFFF); by case_bool_decide.
Qed.

Lemma class_fields v : 0 ≤ v < 2 ^ 32 →
  u8 (Z.shiftr v 24) = v / 2 ^ 24 ∧ Z.land (Z.shiftr v 16) 0xFF = (v / 2 ^ 16) mod 2 ^ 8.
Proof.
  intros Hv. rewrite !Z.shiftr_div_pow2 by lia. change 0xFF with (Z.ones 8). rewrite Z.land_ones by lia.
  rewrite u8_small; [done|]. dlia.
Qed.

Lemma scan_function_acts b d f : 0 ≤ b < 256 → 0 ≤ d < 32 → 0 ≤ f < 8 →
  acts c cb (scan_function class subclass (on_rest cb) b d f) (filter wanted [(b, d, f)]).
Proof.
  intros Hb Hd Hf a t. unfold scan_function.
  rewrite (bind_of_ok _ _ _ _ _ (pci_read32_ok (mkBus a c) t b d f 0 C Hb Hd Hf ltac:(done) ltac:(done) ltac:(done))).
  cbn [pb_config]. rewrite absent. unfold filter. cbn [list_filter]. case_bool_decide as Hp.
  - rewrite decide_False by (intros [H _]; done). eexists. reflexivity.
  - rewrite (bind_of_ok _ _ _ _ _ (pci_read32_ok (mkBus (config_addr b d f 0) c) t b d f 8 C Hb Hd Hf ltac:(done) ltac:(done) ltac:(done))).
    cbn [pb_config]. cbn zeta. destruct (class_fields (c b d f 8) (C b d f 8)) as [-> ->].
    destruct (Z.eqb_spec (c b d f 8 / 2 ^ 24) class) as [E1|E1]; [destruct (Z.eqb_spec ((c b d f 8 / 2 ^ 16) mod 2 ^ 8) subclass) as [E2|E2]|];
      cbn [andb when].
    2,3: rewrite decide_False by (intros (_ & ? & ?); done); eexists; reflexivity.
    rewrite decide_True by done. eexists. unfold on_rest, zoom. cbn [fst snd visit]. unfold mbind, M_bind.
    by destruct (cb b d f t) as [[[] t1]| | |].
Qed.

Lemma scan_device_acts b d : 0 ≤ b < 256 → 0 ≤ d < 32 →
  acts c cb (scan_device class subclass (on_rest cb) b d) (filter (matches c class subclass) (map (λ f, (b, d, f)) (seqZ 0 8))).
Proof.
  intros Hb Hd a t. unfold scan_device.
  rewrite (bind_of_ok _ _ _ _ _ (pci_read32_ok (mkBus a c) t b d 0 0 C Hb Hd ltac:(done) ltac:(done) ltac:(done) ltac:(done))).
  cbn [pb_config]. rewrite absent. case_bool_decide as Hp.
  - assert (∀ l, filter (matches c class subclass) (map (λ f, (b, d, f)) l) = []) as ->; [|by eexists].
    intros l. induction l as [|f l IH]; [done|]. cbn [map]. rewrite filter_cons_False; [done|]. by intros [? _].
  - rewrite (bind_of_ok _ _ _ _ _ (pci_read32_ok (mkBus (config_addr b d 0 0) c) t b d 0 0x0C C Hb Hd ltac:(done) ltac:(done) ltac:(done) ltac:(done))).
    cbn [pb_config]. cbn zeta. rewrite truthy_bit by apply C.
    set (n := if Z.testbit (c b d 0 12) 23 then 8 else 1).
    assert (filter (matches c class subclass) (map (λ f, (b, d, f)) (seqZ 0 8)) =
      concat (map (λ f, filter wanted [(b, d, f)]) (seqZ 0 (Z.of_nat (Z.to_nat n))))) as ->.
    2:{ destruct (acts_range c cb (Z.to_nat n) 0 (scan_function class subclass (on_rest cb) b d) (λ f, filter wanted [(b, d, f)]))
          with (config_addr b d 0 12) t as [a' E]; [|by exists a'].
        intros f Hf. apply scan_function_acts; [done..|]. subst n. destruct (Z.testbit _ 23); lia. }
    assert (∀ l, (∀ f, f ∈ l → matches c class subclass (b, d, f) ↔ wanted (b, d, f)) →
      filter (matches c class subclass) (map (λ f, (b, d, f)) l) = concat (map (λ f, filter wanted [(b, d, f)]) l)) as Hl.
    { intros l. induction l as [|f l IH]; intros Hf; [done|]. cbn [map concat]. rewrite <- IH by (intros; apply Hf; by right).
      specialize (Hf f ltac:(left)). destruct (decide (wanted (b, d, f))) as [W|W].
      - by rewrite (filter_cons_True wanted _ _ W), (filter_cons_True _ _ _ (proj2 Hf W)).
      - rewrite (filter_cons_False wanted _ _ W), filter_cons_False; [done|]. by rewrite Hf. }
    subst n. destruct (Z.testbit (c b d 0 12) 23) eqn:Hm.
    + apply Hl. intros f _. unfold matches, wanted. rewrite Hm. intuition.
    + change (seqZ 0 8) with (0 :: seqZ 1 7). cbn [map].
      assert (∀ l, 0 ∉ l → filter (matches c class subclass) (map (λ f, (b, d, f)) l) = []) as Hn.
      { intros l. induction l as [|f l IH]; intros Hf; [done|]. apply not_elem_of_cons in Hf as [Hf0 Hf]. cbn [map].
        rewrite filter_cons_False; [by apply IH|]. intros (_ & [?|?] & _); congruence. }
      specialize (Hn (seqZ 1 7) ltac:(rewrite elem_of_seqZ; lia)). specialize (Hl [0]).
      change (map (λ f, (b, d, f)) [0]) with [(b, d, 0)] in Hl.
      change ((b, d, 0) :: map (λ f, (b, d, f)) (seqZ 1 7)) with ([(b, d, 0)] ++ map (λ f, (b, d, f)) (seqZ 1 7))%list.
      rewrite filter_app, Hn, app_nil_r. apply Hl. intros f ->%list_elem_of_singleton. unfold matches, wanted. intuition.
Qed.
End scan.
End reads.

(** Enumeration is exact: [pci_scan_for_class] calls back once for every function of the class that the
    configuration space holds (function 0 of a device, and the others of a multi-function device), in
    the order of their addresses, and has no other effect than the callbacks'. *)
Theorem pci_scan_for_class_exact {T} (m : pci_bus) (t : T) (cb : Z → Z → Z → M T unit) (class subclass : Z) :
  bus_ok (pb_config m) →
  ∃ a, pci_scan_for_class class subclass (on_rest cb) (m, t) =
       zoom snd (λ t' _, (mkBus a (pb_config m), t')) (visit cb (filter (matches (pb_config m) class subclass) all_functions)) (m, t).
Proof.
  intros C. destruct m as [a0 c]. cbn [pb_config] in *.
  assert (acts c cb (pci_scan_for_class class subclass (on_rest cb)) (filter (matches c class subclass) all_functions)) as H; [|apply H].
  unfold all_functions. rewrite filter_concat, map_map. apply (acts_range c cb 256 0). intros b Hb.
  rewrite filter_concat, map_map. apply (acts_range c cb 32 0). intros d Hd. apply scan_device_acts; [done|lia..].
Qed.

(** An Ethernet controller as function 0 of 0:3, and an IDE controller as function 1 of the multi-function device 0:1. *)
Definition demo_config (b d f r : Z) : Z :=
  if (b =? 0) && (d =? 3) && (f =? 0) then if r =? 0 then 0x100E8086 else if r =? 8 then 0x02000003 else 0
  else if (b =? 0) && (d =? 1) && (f <? 2) then
    if r =? 0 then 0x70008086 else if r =? 8 then if f =? 0 then 0x06010000 else 0x01018000 else if r =? 0x0C then 0x00800000 else 0
  else 0xFFFFFFFF.

Lemma demo_config_ok : bus_ok demo_config.
Proof. intros b d f r. unfold demo_config. repeat case_match; lia. Qed.

Lemma pci_scan_for_class_exact_witness :
  ∃ a, pci_scan_for_class 1 1 (on_rest (λ b d f, modify (λ l, l ++ [(b, d, f)])%list)) (mkBus 0 demo_config, []) =
       Ok (tt, (mkBus a demo_config, [(0, 1, 1)])).
Proof.
  destruct (pci_scan_for_class_exact (mkBus 0 demo_config) [] (λ b d f, modify (λ l, l ++ [(b, d, f)])%list) 1 1 demo_config_ok) as [a E].
  exists a. rewrite E. vm_compute. reflexivity.
Defined.
End Pci.
