(* ===== verification/Ata.v ===== *)
(** * The ATA drive in PIO mode ([kernel/io/ata.c])

    [drive] is a drive as the ATA specification describes it, a [Ports]
    instance: registers, the data port, and a status that reads busy for some
    polls after each command and each sector.  The driver of [ata.c] and the
    one of [ide.c] ([Ide]) are proved against it.  Messages on the serial
    line are left out. *)
From S2P Require Import Prelude Ports Kobj Bytes Fat32.
Import Kobj Bytes Fat32.

Module Ata.

Definition ATA_DATA : Z := 0x1F0.
Definition ATA_SECTOR_COUNT : Z := 0x1F2.
Definition ATA_LBA_LOW : Z := 0x1F3.
Definition ATA_LBA_MID : Z := 0x1F4.
Definition ATA_LBA_HIGH : Z := 0x1F5.
Definition ATA_DRIVE : Z := 0x1F6.
Definition ATA_STATUS : Z := 0x1F7.
Definition ATA_COMMAND : Z := 0x1F7.
Definition ATA_STATUS_BSY : Z := 0x80.
Definition ATA_STATUS_DRQ : Z := 0x08.
Definition ATA_STATUS_ERR : Z := 0x01.
Definition ATA_CMD_READ : Z := 0x20.
Definition ATA_POLLS : nat := Z.to_nat 100000.

(** ** The driver *)

(** Store the word [v] at index [i] of a buffer of [ushort]; a fault outside it. *)
Definition put16 (buf : list Z) (i v : Z) : option (list Z) := store_at buf (2 * i) [u8 v; u8 (Z.shiftr v 8)].

Section driver.
Context {D : Type} `{!Ports D}.

Fixpoint ata_wait_loop (timeout : nat) : M D bool :=
  match timeout with
  | O => mret false
  | S timeout' =>
      status ← inb ATA_STATUS;
      if truthy (Z.land status ATA_STATUS_ERR) then mret false
      else if negb (truthy (Z.land status ATA_STATUS_BSY)) && truthy (Z.land status ATA_STATUS_DRQ) then mret true
      else ata_wait_loop timeout'
  end.
Definition ata_wait : M D bool := ata_wait_loop ATA_POLLS.

Definition ata_init : M D bool :=
  status ← inb ATA_STATUS;
  mret (negb (status =? 0xFF)).

(** [n] words from a data port into the buffer, from word [i] on. *)
Fixpoint words_in (n : nat) (port i : Z) (buf : list Z) : M D (list Z) :=
  match n with
  | O => mret buf
  | S n' =>
      w ← inw port;
      buf ← of_option (put16 buf i w);
      words_in n' port (i + 1) buf
  end.

Fixpoint ata_sectors (n : nat) (s : Z) (buf : list Z) : M D (bool * list Z) :=
  match n with
  | O => mret (true, buf)
  | S n' =>
      ok ← ata_wait;
      if negb ok then mret (false, buf)
      else
        buf ← words_in 256 ATA_DATA (s * 256) buf;
        ata_sectors n' (s + 1) buf
  end.

(** The return value and the buffer. *)
Definition ata_read (lba count : Z) (buf : list Z) : M D (bool * list Z) :=
  outb ATA_DRIVE (Z.lor 0xE0 (Z.land (Z.shiftr lba 24) 0x0F)) ;;
  outb ATA_SECTOR_COUNT count ;;
  outb ATA_LBA_LOW (Z.land lba 0xFF) ;;
  outb ATA_LBA_MID (Z.land (Z.shiftr lba 8) 0xFF) ;;
  outb ATA_LBA_HIGH (Z.land (Z.shiftr lba 16) 0xFF) ;;
  outb ATA_COMMAND ATA_CMD_READ ;;
  ata_sectors (Z.to_nat count) 0 buf.
End driver.

(** ** The drive of the specification

    One drive, the master of the channel at [d_base].  A command starts a
    transfer of sectors; each sector is ready after [d_latency] reads of the
    status.  A sector past the end of the disk sets the error bit.  A command
    written while the drive is busy is lost, and the data port answers only
    when a word is due.  [d_flushed] says whether everything written is on the
    medium. *)

Inductive transfer :=
| Idle
| Failed
| DataIn (bytes : list Z) (lba todo : Z)
| DataOut (bytes : list Z) (lba todo : Z).

Record drive := mkDrive {
  d_base : Z;
  d_sectors : list (list Z);
  d_ident : list Z;
  d_latency : nat;
  d_count : Z;
  d_lba0 : Z;
  d_lba1 : Z;
  d_lba2 : Z;
  d_select : Z;
  d_transfer : transfer;
  d_busy : nat;
  d_flushed : bool
}.

Definition set_transfer (t : transfer) (b : nat) (d : drive) : drive :=
  mkDrive (d_base d) (d_sectors d) (d_ident d) (d_latency d) (d_count d) (d_lba0 d) (d_lba1 d) (d_lba2 d) (d_select d) t b (d_flushed d).
Definition set_sectors (l : list (list Z)) (f : bool) (d : drive) : drive :=
  mkDrive (d_base d) l (d_ident d) (d_latency d) (d_count d) (d_lba0 d) (d_lba1 d) (d_lba2 d) (d_select d) (d_transfer d) (d_busy d) f.
Definition set_regs (cnt l0 l1 l2 sel : Z) (d : drive) : drive :=
  mkDrive (d_base d) (d_sectors d) (d_ident d) (d_latency d) cnt l0 l1 l2 sel (d_transfer d) (d_busy d) (d_flushed d).

Definition d_lba (d : drive) : Z := d_lba0 d + 2 ^ 8 * d_lba1 d + 2 ^ 16 * d_lba2 d + 2 ^ 24 * (d_select d mod 16).

(** The next sector of a transfer with [todo] sectors to go. *)
Definition begin_in (d : drive) (lba todo : Z) : transfer :=
  if todo =? 0 then Idle
  else match d_sectors d !! Z.to_nat lba with Some s => DataIn s lba todo | None => Failed end.
Definition begin_out (d : drive) (lba todo : Z) : transfer :=
  if todo =? 0 then Idle
  else match d_sectors d !! Z.to_nat lba with Some _ => DataOut [] lba todo | None => Failed end.

Definition command (c : Z) (d : drive) : drive :=
  let count := if d_count d =? 0 then 256 else d_count d in
  if c =? 0x20 then set_transfer (begin_in d (d_lba d) count) (d_latency d) d
  else if c =? 0x30 then set_transfer (begin_out d (d_lba d) count) (d_latency d) d
  else if c =? 0xE7 then set_transfer Idle (d_latency d) (set_sectors (d_sectors d) true d)
  else if c =? 0xEC then set_transfer (DataIn (d_ident d) 0 1) (d_latency d) d
  else set_transfer Failed (d_latency d) d.

(** The status byte: ready, and data request or error. *)
Definition status_of (t : transfer) : Z :=
  match t with Idle => 0x40 | Failed => 0x41 | DataIn _ _ _ | DataOut _ _ _ => 0x48 end.

(** No drive answers as the slave. *)
Definition slave (d : drive) : bool := Z.testbit (d_select d) 4.

Definition read_status (d : drive) : Z * drive :=
  if slave d then (0, d)
  else match d_busy d with
       | S b => (0x80, set_transfer (d_transfer d) b d)
       | O => (status_of (d_transfer d), d)
       end.

Definition read_data (d : drive) : Z * drive :=
  match d_busy d, d_transfer d with
  | O, DataIn [b0; b1] lba todo =>
      (b0 + 256 * b1, set_transfer (begin_in d (lba + 1) (todo - 1)) (if todo =? 1 then O else d_latency d) d)
  | O, DataIn (b0 :: b1 :: rest) lba todo => (b0 + 256 * b1, set_transfer (DataIn rest lba todo) O d)
  | _, _ => (0xFFFF, d)
  end.

Definition write_data (v : Z) (d : drive) : drive :=
  match d_busy d, d_transfer d with
  | O, DataOut bs lba todo =>
      let bs' := bs ++ [u8 v; u8 (Z.shiftr v 8)] in
      if (length bs' =? 512)%nat then
        let d' := set_sectors (<[Z.to_nat lba := bs']> (d_sectors d)) false d in
        set_transfer (begin_out d' (lba + 1) (todo - 1)) (d_latency d) d'
      else set_transfer (DataOut bs' lba todo) O d
  | _, _ => d
  end.

Definition drive_in (width port : Z) (d : drive) : Z * drive :=
  if port =? d_base d + 7 then read_status d
  else if port =? d_base d then read_data d
  else (2 ^ (8 * width) - 1, d).

(** Register [r] of the channel is written. *)
Definition write_reg (r v : Z) (d : drive) : drive :=
  if r =? 0 then write_data v d
  else if r =? 2 then set_regs v (d_lba0 d) (d_lba1 d) (d_lba2 d) (d_select d) d
  else if r =? 3 then set_regs (d_count d) v (d_lba1 d) (d_lba2 d) (d_select d) d
  else if r =? 4 then set_regs (d_count d) (d_lba0 d) v (d_lba2 d) (d_select d) d
  else if r =? 5 then set_regs (d_count d) (d_lba0 d) (d_lba1 d) v (d_select d) d
  else if r =? 6 then set_regs (d_count d) (d_lba0 d) (d_lba1 d) (d_lba2 d) v d
  else if r =? 7 then if slave d || negb (d_busy d =? 0)%nat then d else command v d
  else if (r =? 0x206) && Z.testbit v 2 then set_transfer Idle (d_latency d) d
  else d.

Definition drive_out (width port v : Z) (d : drive) : drive := write_reg (port - d_base d) v d.

#[export] Instance drive_ports : Ports drive := {| port_in := drive_in; port_out := drive_out |}.

(** ** The driver against the drive *)

Lemma store_at_mid (pre old post bs : list Z) i :
  length old = length bs → i = Z.of_nat (length pre) → store_at (pre ++ old ++ post) i bs = Some (pre ++ bs ++ post).
Proof.
  intros Ho ->. unfold store_at. rewrite (proj2 (Z.leb_le _ _)) by lia.
  rewrite (proj2 (Z.leb_le _ _)) by (rewrite !length_app; lia). cbn [andb]. do 2 f_equal.
  - by rewrite Nat2Z.id, take_app_length.
  - f_equal. rewrite Nat2Z.id, <- Ho, app_assoc, <- length_app. apply drop_app_length.
Qed.

Lemma word_bytes b0 b1 : is_byte b0 → is_byte b1 →
  [u8 (u16 (b0 + 256 * b1)); u8 (Z.shiftr (u16 (b0 + 256 * b1)) 8)] = [b0; b1].
Proof.
  unfold is_byte. intros H0 H1. rewrite u16_small by lia. rewrite Z.shiftr_div_pow2 by lia. unfold u8.
  f_equal; [|f_equal]; dlia.
Qed.

(** The ports of the drive do not wrap and are not the delay port. *)
Definition io_ok (d : drive) : Prop := 0x100 ≤ d_base d ∧ d_base d + 0x206 < 2 ^ 16.

Lemma inw_data d : io_ok d → inw (d_base d) d = Ok (u16 (fst (read_data d)), snd (read_data d)).
Proof.
  intros [H0 H1]. unfold inw, mbind, M_bind, port_read. rewrite u16_small by lia. simpl. unfold drive_in.
  rewrite (proj2 (Z.eqb_neq _ _)) by lia. rewrite Z.eqb_refl. by destruct (read_data d).
Qed.

Lemma inb_status d : io_ok d → inb (d_base d + 7) d = Ok (u8 (fst (read_status d)), snd (read_status d)).
Proof.
  intros [H0 H1]. unfold inb, mbind, M_bind, port_read. rewrite u16_small by lia. simpl. unfold drive_in.
  rewrite Z.eqb_refl. by destruct (read_status d).
Qed.

Lemma words_in_ok d n : io_ok d → ∀ bytes lba todo pre old post i,
  length bytes = (2 * n)%nat → n ≠ O → Forall is_byte bytes → length old = length bytes → 2 * i = Z.of_nat (length pre) →
  words_in n (d_base d) i (pre ++ old ++ post) (set_transfer (DataIn bytes lba todo) O d) =
  Ok (pre ++ bytes ++ post,
      set_transfer (begin_in d (lba + 1) (todo - 1)) (if todo =? 1 then O else d_latency d) d).
Proof.
  intros Hio. induction n as [|n IH]; intros bytes lba todo pre old post i Hl Hn HB Ho Hi; [done|].
  destruct bytes as [|b0 [|b1 bytes]]; [simpl in Hl; lia..|]. destruct old as [|o0 [|o1 old]]; [simpl in Ho; lia..|].
  apply Forall_cons in HB as [B0 [B1 HB]%Forall_cons]. cbn [words_in].
  change (d_base d) with (d_base (set_transfer (DataIn (b0 :: b1 :: bytes) lba todo) O d)).
  rewrite (bind_of_ok _ _ _ _ _ (inw_data (set_transfer (DataIn (b0 :: b1 :: bytes) lba todo) O d) Hio)).
  assert (fst (read_data (set_transfer (DataIn (b0 :: b1 :: bytes) lba todo) O d)) = b0 + 256 * b1) as ->.
  { by destruct bytes. }
  unfold put16. rewrite (word_bytes b0 b1 B0 B1).
  change (pre ++ (o0 :: o1 :: old) ++ post) with (pre ++ [o0; o1] ++ (old ++ post)).
  rewrite store_at_mid by (done || lia). cbn [of_option]. rewrite (bind_of_ok _ _ _ _ _ eq_refl).
  destruct n as [|n].
  - destruct bytes; [|done]. destruct old; [|done]. done.
  - destruct bytes as [|b2 bytes]; [simpl in Hl; lia|]. cbn [read_data snd set_transfer d_busy d_transfer].
    change ([b0; b1] ++ old ++ post) with (b0 :: b1 :: old ++ post).
    replace (pre ++ b0 :: b1 :: old ++ post) with ((pre ++ [b0; b1]) ++ old ++ post) by (by rewrite <- app_assoc).
    specialize (IH (b2 :: bytes) lba todo (pre ++ [b0; b1]) old post (i + 1)).
    change (d_base (set_transfer _ _ _)) with (d_base d).
    etrans; [apply IH|]; [simpl in *; lia|done|done|simpl in *; lia|rewrite length_app; simpl; lia|].
    by rewrite <- app_assoc.
Qed.

Lemma set_transfer_id d : set_transfer (d_transfer d) (d_busy d) d = d.
Proof. by destruct d. Qed.
Lemma set_transfer_twice t b t' b' d : set_transfer t b (set_transfer t' b' d) = set_transfer t b d.
Proof. done. Qed.

Definition active (t : transfer) : bool := match t with Idle => false | _ => true end.
Definition failed (t : transfer) : bool := match t with Failed => true | _ => false end.

(** The transfer [t] under way, the drive busy for [b] more polls. *)
Lemma ata_wait_ok d t : io_ok d → d_base d = ATA_DATA → slave d = false → active t = true → ∀ n b,
  (b < n)%nat → ata_wait_loop n (set_transfer t b d) = Ok (negb (failed t), set_transfer t O d).
Proof.
  intros Hio HB Hs Ht n. induction n as [|n IH]; intros b Hb; [lia|]. cbn [ata_wait_loop].
  replace ATA_STATUS with (d_base (set_transfer t b d) + 7) by (simpl; rewrite HB; reflexivity).
  rewrite (bind_of_ok _ _ _ _ _ (inb_status (set_transfer t b d) Hio)). unfold read_status.
  change (slave (set_transfer t b d)) with (slave d). rewrite Hs. cbn [d_busy set_transfer].
  destruct b as [|b]; [by destruct t|]. cbn [fst snd]. change (truthy (Z.land (u8 0x80) ATA_STATUS_ERR)) with false.
  change (negb (truthy (Z.land (u8 0x80) ATA_STATUS_BSY))) with false. cbn [andb d_transfer].
  apply (IH b). lia.
Qed.

Lemma ata_polls b : (b < ATA_POLLS)%nat ↔ Z.of_nat b < 100000.
Proof. unfold ATA_POLLS. lia. Qed.

(** A disk of whole sectors of bytes. *)
Definition disk_ok (l : list (list Z)) : Prop := Forall (λ s, length s = 512%nat ∧ Forall is_byte s) l.

Lemma take_drop_S {A} (l : list A) k n x : l !! k = Some x → take (S n) (drop k l) = x :: take n (drop (S k) l).
Proof. intros H. by rewrite (drop_S l x k H). Qed.

Lemma ata_sectors_ok d : io_ok d → d_base d = ATA_DATA → slave d = false → disk_ok (d_sectors d) →
  (d_latency d < ATA_POLLS)%nat → ∀ n s lba b pre rest,
  let secs := take n (drop (Z.to_nat lba) (d_sectors d)) in
  let all := (length secs =? n)%nat in
  0 ≤ lba → (b < ATA_POLLS)%nat → (n = O → b = O) → Z.of_nat (length pre) = 512 * s → (512 * n ≤ length rest)%nat →
  ata_sectors n s (pre ++ rest) (set_transfer (begin_in d lba (Z.of_nat n)) b d) =
  Ok (all, pre ++ concat secs ++ drop (512 * length secs) rest, set_transfer (if all then Idle else Failed) O d).
Proof.
  intros Hio HB Hs Hd HL n. induction n as [|n IH]; intros s lba b pre rest secs all Hlba Hb Hb0 Hp Hr; cbn [ata_sectors].
  { rewrite (Hb0 eq_refl). done. }
  assert (begin_in d lba (Z.of_nat (S n)) = match d_sectors d !! Z.to_nat lba with Some s => DataIn s lba (Z.of_nat (S n)) | None => Failed end)
    as -> by (unfold begin_in; rewrite (proj2 (Z.eqb_neq _ _)) by lia; done).
  destruct (d_sectors d !! Z.to_nat lba) as [sec|] eqn:E.
  2:{ apply lookup_ge_None in E. subst all secs. rewrite drop_ge by lia. rewrite take_nil. cbn [length].
      unfold ata_wait. rewrite (bind_of_ok _ _ _ _ _ (ata_wait_ok d Failed Hio HB Hs eq_refl _ _ Hb)). done. }
  unfold ata_wait. rewrite (bind_of_ok _ _ _ _ _ (ata_wait_ok d (DataIn sec lba (Z.of_nat (S n))) Hio HB Hs eq_refl _ _ Hb)).
  cbn [negb failed].
  destruct (proj1 (Forall_lookup _ _) Hd _ _ E) as [Hl Hbytes].
  assert (secs = sec :: take n (drop (Z.to_nat (lba + 1)) (d_sectors d))) as Hsecs.
  { subst secs. rewrite (take_drop_S _ _ _ sec E). do 3 f_equal. lia. }
  rewrite <- (take_drop 512 rest), <- HB.
  rewrite (bind_of_ok _ _ _ _ _ (words_in_ok d 256 Hio sec lba _ pre (take 512 rest) (drop 512 rest) (s * 256)
    Hl ltac:(done) Hbytes ltac:(rewrite length_take; lia) ltac:(lia))).
  replace (Z.of_nat (S n) - 1) with (Z.of_nat n) by lia.
  rewrite app_assoc.
  rewrite IH; [|lia| | |rewrite length_app; lia|rewrite length_drop; lia].
  - subst all. rewrite Hsecs. cbn [concat length]. rewrite take_drop, drop_drop, <- !app_assoc, Nat.mul_succ_r, Nat.add_comm. done.
  - destruct (_ =? 1); [|done]. apply ata_polls. lia.
  - intros ->. done.
Qed.

(** ** Addressing *)

Lemma select_value x : 0 ≤ x < 16 → u8 (Z.lor 0xE0 x) mod 16 = x ∧ Z.testbit (u8 (Z.lor 0xE0 x)) 4 = false.
Proof.
  intros Hx. assert (x ∈ seqZ 0 16) as Hin by (apply elem_of_seqZ; lia). clear Hx. revert x Hin.
  assert (Forall (λ x, u8 (Z.lor 0xE0 x) mod 16 = x ∧ Z.testbit (u8 (Z.lor 0xE0 x)) 4 = false) (seqZ 0 16)) as F.
  { repeat constructor. }
  by apply Forall_forall.
Qed.

(** The registers hold an address of 28 bits. *)
Lemma lba_bytes lba : 0 ≤ lba < 2 ^ 28 →
  u8 (Z.land lba 0xFF) + 2 ^ 8 * u8 (Z.land (Z.shiftr lba 8) 0xFF) + 2 ^ 16 * u8 (Z.land (Z.shiftr lba 16) 0xFF) +
    2 ^ 24 * (u8 (Z.lor 0xE0 (Z.land (Z.shiftr lba 24) 0x0F)) mod 16) = lba.
Proof.
  intros H. change 0xFF with (Z.ones 8). change 0x0F with (Z.ones 4). rewrite !Z.land_ones, !Z.shiftr_div_pow2 by lia.
  rewrite (proj1 (select_value _ (Z.mod_pos_bound _ (2 ^ 4) ltac:(lia)))). unfold u8. rewrite !Z.mod_mod by lia. dlia.
Qed.

Lemma outb_reg d r p v : io_ok d → 0 ≤ r ≤ 7 → p = d_base d + r → outb p v d = Ok (tt, write_reg r (u8 v) d).
Proof.
  intros [H0 H1] Hr ->. unfold outb, port_write. rewrite u16_small by lia. cbn [port_out drive_ports]. unfold drive_out.
  by replace (d_base d + r - d_base d) with r by lia.
Qed.

(** The drive after [ata_read]'s register writes. *)
Definition addressed (lba count : Z) (d : drive) : drive :=
  set_regs (u8 count) (u8 (Z.land lba 0xFF)) (u8 (Z.land (Z.shiftr lba 8) 0xFF)) (u8 (Z.land (Z.shiftr lba 16) 0xFF))
    (u8 (Z.lor 0xE0 (Z.land (Z.shiftr lba 24) 0x0F))) d.

(** Run one register write, the first of the program. *)
Ltac out_reg H r :=
  erewrite bind_of_ok; [|apply (outb_reg _ r); [done|done|lazymatch type of H with d_base ?d = _ => change (d_base _) with (d_base d) end; by rewrite H]].

Lemma ata_read_ok d lba count buf :
  let secs := take (Z.to_nat count) (drop (Z.to_nat lba) (d_sectors d)) in
  let all := (length secs =? Z.to_nat count)%nat in
  d_base d = ATA_DATA → disk_ok (d_sectors d) → d_busy d = O → (d_latency d < ATA_POLLS)%nat →
  0 ≤ lba < 2 ^ 28 → 0 < count < 256 → 512 * count ≤ Z.of_nat (length buf) →
  ata_read lba count buf d =
  Ok (all, concat secs ++ drop (512 * length secs) buf, set_transfer (if all then Idle else Failed) O (addressed lba count d)).
Proof.
  intros secs all HB Hd Hb HL Hl Hc Hbuf. unfold ata_read.
  assert (io_ok d) as Hio by (unfold io_ok; rewrite HB; done).
  assert (slave (addressed lba count d) = false) as Hs.
  { apply select_value. change 0x0F with (Z.ones 4). rewrite Z.land_ones by lia. by apply Z.mod_pos_bound. }
  out_reg HB 6. out_reg HB 2. out_reg HB 3. out_reg HB 4. out_reg HB 5. out_reg HB 7.
  match goal with |- context [write_reg 7 _ ?d'] => change d' with (addressed lba count d) end.
  assert (write_reg 7 (u8 ATA_CMD_READ) (addressed lba count d) =
    set_transfer (begin_in (addressed lba count d) lba count) (d_latency d) (addressed lba count d)) as ->.
  { unfold write_reg. cbn [Z.eqb]. rewrite Hs. change (d_busy (addressed lba count d)) with (d_busy d). rewrite Hb. cbn [Nat.eqb negb orb].
    change (u8 ATA_CMD_READ) with 0x20. unfold command. cbn [Z.eqb Pos.eqb d_count addressed set_regs].
    rewrite (u8_small count) by lia. rewrite (proj2 (Z.eqb_neq count 0)) by lia. f_equal. f_equal.
    apply (lba_bytes lba Hl). }
  pose proof (ata_sectors_ok (addressed lba count d) Hio HB Hs Hd HL (Z.to_nat count) 0 lba (d_latency d) [] buf
    (proj1 Hl) HL ltac:(lia) eq_refl ltac:(lia)) as H.
  rewrite Z2Nat.id in H by lia. exact H.
Qed.

(** A drive between commands, on the ports the driver uses. *)
Record drive_ready (d : drive) : Prop := {
  dr_base : d_base d = ATA_DATA;
  dr_disk : disk_ok (d_sectors d);
  dr_busy : d_busy d = O;
  dr_latency : Z.of_nat (d_latency d) < 100000
}.

(** [ata_read] of [count] sectors from [lba] stores in the buffer exactly the sectors that are on the disk, in
    order, and leaves the rest of the buffer; it returns true if all of them are there and false if the disk ends
    first.  The disk is unchanged and the drive ready for the next command. *)
Theorem ata_read_correct (d : drive) (lba count : Z) (buf : list Z) :
  drive_ready d → 0 ≤ lba < 2 ^ 28 → 0 < count < 256 → 512 * count ≤ Z.of_nat (length buf) →
  let secs := take (Z.to_nat count) (drop (Z.to_nat lba) (d_sectors d)) in
  ∃ d', ata_read lba count buf d =
          Ok (bool_decide (lba + count ≤ Z.of_nat (length (d_sectors d))), concat secs ++ drop (512 * length secs) buf, d') ∧
        drive_ready d' ∧ d_sectors d' = d_sectors d.
Proof.
  intros [HB Hd Hb HL] Hl Hc Hbuf secs.
  exists (set_transfer (if (length secs =? Z.to_nat count)%nat then Idle else Failed) O (addressed lba count d)).
  split; [|split; [|reflexivity]].
  - rewrite ata_read_ok by (done || by apply ata_polls). replace (bool_decide _) with (length secs =? Z.to_nat count)%nat; [reflexivity|].
    apply eq_bool_prop_intro. rewrite Is_true_true, Nat.eqb_eq, bool_decide_spec. subst secs. rewrite length_take, length_drop. lia.
  - split; done.
Qed.

(** The drive as the file system's function pointer sees it. *)
Definition ata_block_read (d : drive) : block_read_fn := λ lba count,
  match ata_read lba count (zeros (512 * count)) d with
  | Ok (true, buf, _) => Some buf
  | _ => None
  end.

(** Sector [lba] of a disk. *)
Definition sector_of (l : list (list Z)) (lba : Z) : list Z := default (zeros 512) (l !! Z.to_nat lba).

Lemma sectors_seq l lba (n : nat) : 0 ≤ lba → lba + Z.of_nat n ≤ Z.of_nat (length l) →
  map (λ i, sector_of l (lba + i)) (seqZ 0 (Z.of_nat n)) = take n (drop (Z.to_nat lba) l).
Proof.
  intros H0 Hn. apply list_eq_same_length with n.
  - rewrite length_take, length_drop. lia.
  - rewrite length_map, length_seqZ. lia.
  - intros i x y Hi. rewrite list_lookup_fmap_Some. intros (z & -> & [-> Hz]%lookup_seqZ). rewrite lookup_take, decide_True, lookup_drop by done.
    unfold sector_of. replace (Z.to_nat (lba + (0 + Z.of_nat i))) with (Z.to_nat lba + i)%nat by lia.
    by intros ->.
Qed.

(** The function pointer reads the disk, below the limit of 28-bit addresses. *)
Lemma ata_block_read_disk d lba n : drive_ready d → 0 ≤ lba → 0 < n < 256 →
  lba + n ≤ Z.of_nat (length (d_sectors d)) → lba + n ≤ 2 ^ 28 →
  ata_block_read d lba n = disk_fn (sector_of (d_sectors d)) lba n.
Proof.
  intros R H0 Hn Hl H28. unfold ata_block_read, disk_fn. assert (512 * n ≤ Z.of_nat (length (zeros (512 * n)))).
  { unfold zeros. rewrite length_replicate. lia. }
  rewrite ata_read_ok; [|apply R|apply R|apply R|apply ata_polls, R|lia|lia|done].
  assert (length (take (Z.to_nat n) (drop (Z.to_nat lba) (d_sectors d))) = Z.to_nat n) as E by (rewrite length_take, length_drop; lia).
  rewrite E, Nat.eqb_refl. f_equal. pose proof (sectors_seq (d_sectors d) lba (Z.to_nat n) H0 ltac:(lia)) as S.
  rewrite Z2Nat.id in S by lia. rewrite S. rewrite (drop_ge (zeros _)); [by rewrite app_nil_r|]. unfold zeros. rewrite length_replicate. lia.
Qed.

(** Addresses are cut to 28 bits: a sector past 128 GiB is read from the start of the disk. *)
Lemma ata_read_wraps {D} `{!Ports D} lba count buf (d : D) : 0 ≤ lba →
  ata_read (lba + 2 ^ 28) count buf d = ata_read lba count buf d.
Proof.
  intros H. unfold ata_read. change 0xFF with (Z.ones 8). change 0x0F with (Z.ones 4).
  rewrite !Z.land_ones, !Z.shiftr_div_pow2 by lia.
  replace (((lba + 2 ^ 28) / 2 ^ 24) mod 2 ^ 4) with ((lba / 2 ^ 24) mod 2 ^ 4) by dlia.
  replace ((lba + 2 ^ 28) mod 2 ^ 8) with (lba mod 2 ^ 8) by dlia.
  replace (((lba + 2 ^ 28) / 2 ^ 8) mod 2 ^ 8) with ((lba / 2 ^ 8) mod 2 ^ 8) by dlia.
  replace (((lba + 2 ^ 28) / 2 ^ 16) mod 2 ^ 8) with ((lba / 2 ^ 16) mod 2 ^ 8) by dlia. done.
Qed.

(** A two-sector disk with some latency. *)
Definition demo_drive (l : list (list Z)) : drive := mkDrive ATA_DATA l (zeros 512) 3 0 0 0 0 0 Idle O true.
Definition demo_sectors : list (list Z) := [replicate 512 7; replicate 512 9].

Lemma demo_drive_ready : drive_ready (demo_drive demo_sectors).
Proof.
  split; [done| |done|done]. repeat constructor; try done. all: apply Forall_replicate; done.
Qed.

Lemma ata_read_correct_witness :
  ∃ d', ata_read 1 2 (zeros 1024) (demo_drive demo_sectors) = Ok (false, replicate 512 9 ++ zeros 512, d') ∧ drive_ready d'.
Proof.
  destruct (ata_read_correct (demo_drive demo_sectors) 1 2 (zeros 1024) demo_drive_ready) as (d' & E & R & _);
    [lia|lia|vm_compute; discriminate|].
  exists d'. split; [|exact R]. rewrite E. vm_compute. reflexivity.
Defined.
End Ata.
