(* ===== verification/Ide.v ===== *)
(** * The IDE driver ([kernel/io/ide.c], [ide.h])

    Controllers and drives in two fixed tables, found through PCI; sectors are
    read and written in PIO mode.  A pointer into a table is an index.  The
    polling loops of this driver have no limit and take a bound here.  Fields
    of the structures that no function uses are left out. *)
From S2P Require Import Prelude Ports Kobj Bytes Fat32 Ata Pci.
Import Kobj Bytes Fat32 Ata Pci.

Module Ide.

Definition ATA_SR_BSY : Z := 0x80.
Definition ATA_SR_DRQ : Z := 0x08.
Definition ATA_SR_ERR : Z := 0x01.
Definition ATA_CMD_READ_PIO : Z := 0x20.
Definition ATA_CMD_WRITE_PIO : Z := 0x30.
Definition ATA_CMD_CACHE_FLUSH : Z := 0xE7.
Definition ATA_REG_DATA : Z := 0.
Definition ATA_REG_FEATURES : Z := 1.
Definition ATA_REG_SECCOUNT0 : Z := 2.
Definition ATA_REG_LBA0 : Z := 3.
Definition ATA_REG_LBA1 : Z := 4.
Definition ATA_REG_LBA2 : Z := 5.
Definition ATA_REG_HDDEVSEL : Z := 6.
Definition ATA_REG_COMMAND : Z := 7.
Definition ATA_REG_STATUS : Z := 7.
Definition IDE_MAX_CONTROLLERS : Z := 4.
Definition IDE_MAX_DEVICES : Z := 16.

Record ide_channel := mkChannel { ch_base : Z; ch_ctrl : Z; busmaster_base : Z; ch_irq : Z }.
Record ide_controller := mkController { c_bus : Z; c_dev : Z; c_func : Z; c_prog_if : Z; channel0 : ide_channel; channel1 : ide_channel }.
Record ide_device := mkDevice { dev_exists : bool; dev_channel : Z; dev_drive : Z; dev_sector_count : Z; dev_ctrl : Z }.

Record ide_state (D : Type) := mkIde {
  g_controllers : list ide_controller;
  g_controller_used : list bool;
  g_devices : list ide_device;
  g_device_used : list bool;
  hw : D
}.
Arguments mkIde {D}.
Arguments g_controllers {D}.
Arguments g_controller_used {D}.
Arguments g_devices {D}.
Arguments g_device_used {D}.
Arguments hw {D}.

Definition null_channel : ide_channel := mkChannel 0 0 0 0.
Definition null_controller : ide_controller := mkController 0 0 0 0 null_channel null_channel.
Definition null_device : ide_device := mkDevice false 0 0 0 0.
Definition ide_boot {D} (d : D) : ide_state D :=
  mkIde (replicate 4 null_controller) (replicate 4 false) (replicate 16 null_device) (replicate 16 false) d.

Definition channel_of (c : ide_controller) (i : Z) : ide_channel := if i =? 0 then channel0 c else channel1 c.

(** ** The hardware *)

Section hardware.
Context {D : Type} `{!Ports D}.

(** The delay loop after the reset is not modelled. *)
Definition ide_reset_channel (ch : ide_channel) : M D unit :=
  outb (ch_ctrl ch) 0x04 ;; io_wait ;; outb (ch_ctrl ch) 0x00.

Fixpoint wait_not_busy (fuel : nat) (io : Z) : M D unit :=
  match fuel with
  | O => no_fuel
  | S fuel' => v ← inb (io + 7); if truthy (Z.land v 0x80) then wait_not_busy fuel' io else mret tt
  end.

Fixpoint wait_identify (fuel : nat) (io : Z) : M D bool :=
  match fuel with
  | O => no_fuel
  | S fuel' =>
      status ← inb (io + 7);
      if truthy (Z.land status 0x01) then mret false
      else if truthy (Z.land status 0x08) then mret true else wait_identify fuel' io
  end.

(** The return value and the buffer. *)
Definition ide_identify (fuel : nat) (ch : ide_channel) (drive : Z) (buf : list Z) : M D (bool * list Z) :=
  let io := ch_base ch in
  outb (io + 6) (if truthy drive then 0xB0 else 0xA0) ;; io_wait ;;
  outb (io + 2) 0 ;; outb (io + 3) 0 ;; outb (io + 4) 0 ;; outb (io + 5) 0 ;; outb (io + 7) 0xEC ;;
  status ← inb (io + 7);
  if status =? 0 then mret (false, buf)
  else
    wait_not_busy fuel io ;;
    ok ← wait_identify fuel io;
    if negb ok then mret (false, buf)
    else buf ← words_in 256 (io + 0) 0 buf; mret (true, buf).

Fixpoint ide_wait_ready (fuel : nat) (io : Z) : M D bool :=
  match fuel with
  | O => no_fuel
  | S fuel' =>
      status ← inb (io + ATA_REG_STATUS);
      if truthy (Z.land status ATA_SR_BSY) then ide_wait_ready fuel' io
      else mret (negb (truthy (Z.land status ATA_SR_ERR)))
  end.

Fixpoint ide_wait_drq (fuel : nat) (io : Z) : M D bool :=
  match fuel with
  | O => no_fuel
  | S fuel' =>
      status ← inb (io + ATA_REG_STATUS);
      if truthy (Z.land status ATA_SR_ERR) then mret false
      else if truthy (Z.land status ATA_SR_DRQ) then mret true else ide_wait_drq fuel' io
  end.

(** [n] words of the buffer to a data port, from word [i] on. *)
Fixpoint words_out (n : nat) (port i : Z) (buf : list Z) : M D unit :=
  match n with
  | O => mret tt
  | S n' => outw port (le16 buf (Z.to_nat (2 * i))) ;; words_out n' port (i + 1) buf
  end.

Fixpoint pio_sectors (n : nat) (fuel : nat) (io s : Z) (buf : list Z) (write : bool) : M D (bool * list Z) :=
  match n with
  | O => mret (true, buf)
  | S n' =>
      ready ← ide_wait_ready fuel io;
      if negb ready then mret (false, buf)
      else
        drq ← ide_wait_drq fuel io;
        if negb drq then mret (false, buf)
        else if write then words_out 256 (io + ATA_REG_DATA) (s * 256) buf ;; pio_sectors n' fuel io (s + 1) buf write
        else buf ← words_in 256 (io + ATA_REG_DATA) (s * 256) buf; pio_sectors n' fuel io (s + 1) buf write
  end.

(** [ide_pio_access] on the channel at [io], drive [drive]. *)
Definition pio_access (fuel : nat) (io drive lba count : Z) (buf : list Z) (write : bool) : M D (bool * list Z) :=
  ready ← ide_wait_ready fuel io;
  if negb ready then mret (false, buf)
  else
    outb (io + ATA_REG_HDDEVSEL) (Z.lor (Z.lor 0xE0 (Z.shiftl drive 4)) (Z.land (Z.shiftr lba 24) 0x0F)) ;;
    io_wait ;;
    outb (io + ATA_REG_FEATURES) 0 ;;
    outb (io + ATA_REG_SECCOUNT0) count ;;
    outb (io + ATA_REG_LBA0) (Z.land lba 0xFF) ;;
    outb (io + ATA_REG_LBA1) (Z.land (Z.shiftr lba 8) 0xFF) ;;
    outb (io + ATA_REG_LBA2) (Z.land (Z.shiftr lba 16) 0xFF) ;;
    outb (io + ATA_REG_COMMAND) (if write then ATA_CMD_WRITE_PIO else ATA_CMD_READ_PIO) ;;
    r ← pio_sectors (Z.to_nat count) fuel io 0 buf write;
    if negb (fst r) then mret r
    else
      when write (outb (io + ATA_REG_COMMAND) ATA_CMD_CACHE_FLUSH ;; ide_wait_ready fuel io ;; mret tt) ;;
      mret r.
End hardware.

(** ** The tables *)

Section tables.
Context {D : Type} `{!Ports D}.
Local Notation S := (ide_state D).

Definition set_hw (d : D) (s : S) : S := mkIde (g_controllers s) (g_controller_used s) (g_devices s) (g_device_used s) d.
Definition on_hw {A} (m : M D A) : M S A := zoom hw set_hw m.
Definition set_controllers (l : list ide_controller) (u : list bool) (s : S) : S :=
  mkIde l u (g_devices s) (g_device_used s) (hw s).
Definition set_devices (l : list ide_device) (u : list bool) (s : S) : S :=
  mkIde (g_controllers s) (g_controller_used s) l u (hw s).

(** The first free slot of a table; [alloc_file_loop] is the same search. *)
Definition allocate_controller : M S (option Z) :=
  used ← gets g_controller_used;
  match alloc_file_loop used 0 with
  | None => mret None
  | Some i => modify (λ s, set_controllers (g_controllers s) (<[Z.to_nat i := true]> (g_controller_used s)) s) ;; mret (Some i)
  end.
Definition free_controller (idx : Z) : M S unit :=
  when ((0 <=? idx) && (idx <? IDE_MAX_CONTROLLERS))
    (modify (λ s, set_controllers (g_controllers s) (<[Z.to_nat idx := false]> (g_controller_used s)) s)).
Definition allocate_device : M S (option Z) :=
  used ← gets g_device_used;
  match alloc_file_loop used 0 with
  | None => mret None
  | Some i => modify (λ s, set_devices (g_devices s) (<[Z.to_nat i := true]> (g_device_used s)) s) ;; mret (Some i)
  end.
Definition free_device (idx : Z) : M S unit :=
  when ((0 <=? idx) && (idx <? IDE_MAX_DEVICES))
    (modify (λ s, set_devices (g_devices s) (<[Z.to_nat idx := false]> (g_device_used s)) s)).

(** The channels a controller gets; the base addresses are cut to 16 bits. *)
Definition ide_setup_channels (prog_if bar0 bar1 bar2 bar3 bar4 : Z) : ide_channel * ide_channel :=
  let base b := u16 (Z.land b 0xFFFFFFFC) in
  let native0 := truthy (Z.land prog_if 0x01) in
  let native1 := truthy (Z.land prog_if 0x04) in
  let bm := if truthy (Z.land prog_if 0x80) then (base bar4, u16 (base bar4 + 8)) else (0, 0) in
  (mkChannel (if native0 then base bar0 else 0x1F0) (if native0 then base bar1 else 0x3F6) (fst bm) (if native0 then 0 else 14),
   mkChannel (if native1 then base bar2 else 0x170) (if native1 then base bar3 else 0x376) (snd bm) (if native1 then 0 else 15)).

(** [id0] is what the uninitialised [id] buffer holds. *)
Definition ide_probe_device (fuel : nat) (id0 : list Z) (ctrl channel drive : Z) : M S unit :=
  cs ← gets g_controllers;
  c ← of_option (cs !! Z.to_nat ctrl);
  r ← on_hw (ide_identify fuel (channel_of c channel) drive id0);
  if negb (fst r) then mret tt
  else
    o ← allocate_device;
    match o with
    | None => mret tt
    | Some i =>
        let id := snd r in
        let count := Z.lor (Z.shiftl (le16 id 122) 16) (le16 id 120) in
        modify (λ s, set_devices (<[Z.to_nat i := mkDevice true channel drive count ctrl]> (g_devices s)) (g_device_used s) s)
    end.

Definition ide_probe_channel (fuel : nat) (id0 : list Z) (ctrl channel_index : Z) : M S unit :=
  ide_probe_device fuel id0 ctrl channel_index 0 ;; ide_probe_device fuel id0 ctrl channel_index 1.

Fixpoint first_device_loop (used : list bool) (devs : list ide_device) (i : Z) : option Z :=
  match used, devs with
  | u :: used', d :: devs' => if u && dev_exists d then Some i else first_device_loop used' devs' (i + 1)
  | _, _ => None
  end.
Definition ide_first_device : M S (option Z) :=
  s ← get;
  mret (first_device_loop (g_device_used s) (g_devices s) 0).

Definition ide_pio_access (fuel : nat) (dev lba count : Z) (buf : list Z) (write : bool) : M S (bool * list Z) :=
  devs ← gets g_devices;
  d ← of_option (devs !! Z.to_nat dev);
  cs ← gets g_controllers;
  c ← of_option (cs !! Z.to_nat (dev_ctrl d));
  on_hw (pio_access fuel (ch_base (channel_of c (dev_channel d))) (dev_drive d) lba count buf write).

Definition ide_read_sectors (fuel : nat) (lba count : Z) (buf : list Z) : M S (bool * list Z) :=
  o ← ide_first_device;
  match o with None => mret (false, buf) | Some dev => ide_pio_access fuel dev lba count buf false end.

Definition ide_write_sectors (fuel : nat) (lba count : Z) (buf : list Z) : M S bool :=
  o ← ide_first_device;
  match o with None => mret false | Some dev => r ← ide_pio_access fuel dev lba count buf true; mret (fst r) end.

(** A full table gives the null pointer, which is written through. *)
Definition ide_init_controller (fuel : nat) (id0 : list Z) (bus dev func : Z) : M S unit :=
  o ← allocate_controller;
  ctrl ← of_option o;
  prog_if ← on_hw (pci_get_progif bus dev func);
  bar0 ← on_hw (pci_get_bar0 bus dev func);
  bar1 ← on_hw (pci_get_bar1 bus dev func);
  bar2 ← on_hw (pci_get_bar2 bus dev func);
  bar3 ← on_hw (pci_get_bar3 bus dev func);
  bar4 ← on_hw (pci_get_bar4 bus dev func);
  let chs := ide_setup_channels prog_if bar0 bar1 bar2 bar3 bar4 in
  modify (λ s, set_controllers (<[Z.to_nat ctrl := mkController bus dev func prog_if (fst chs) (snd chs)]> (g_controllers s)) (g_controller_used s) s) ;;
  on_hw (ide_reset_channel (fst chs)) ;;
  on_hw (ide_reset_channel (snd chs)) ;;
  ide_probe_device fuel id0 ctrl 0 0 ;;
  ide_probe_device fuel id0 ctrl 0 1 ;;
  ide_probe_device fuel id0 ctrl 1 0 ;;
  ide_probe_device fuel id0 ctrl 1 1.
End tables.

(** ** The driver against a drive *)

Lemma ide_wait_ready_ok d t : io_ok d → slave d = false → ∀ fuel b,
  (b < fuel)%nat → ide_wait_ready fuel (d_base d) (set_transfer t b d) = Ok (negb (failed t), set_transfer t O d).
Proof.
  intros Hio Hs fuel. induction fuel as [|fuel IH]; intros b Hb; [lia|]. cbn [ide_wait_ready].
  rewrite (bind_of_ok _ _ _ _ _ (inb_status (set_transfer t b d) Hio)). unfold read_status.
  change (slave (set_transfer t b d)) with (slave d). rewrite Hs. cbn [d_busy set_transfer].
  destruct b as [|b]; [by destruct t|]. cbn [fst snd]. change (truthy (Z.land (u8 0x80) ATA_SR_BSY)) with true.
  apply (IH b). lia.
Qed.

Lemma ide_wait_drq_ok d t fuel : io_ok d → slave d = false → active t = true → (0 < fuel)%nat →
  ide_wait_drq fuel (d_base d) (set_transfer t O d) = Ok (negb (failed t), set_transfer t O d).
Proof.
  intros Hio Hs Ht Hf. destruct fuel as [|fuel]; [lia|]. cbn [ide_wait_drq].
  rewrite (bind_of_ok _ _ _ _ _ (inb_status (set_transfer t O d) Hio)). unfold read_status.
  change (slave (set_transfer t O d)) with (slave d). rewrite Hs. by destruct t.
Qed.

Lemma io_wait_ok d : io_ok d → io_wait d = Ok (tt, d).
Proof.
  intros [H0 H1]. unfold io_wait, outb, port_write. cbn [port_out drive_ports]. unfold drive_out.
  change (u16 0x80) with 0x80. unfold write_reg. by rewrite !(proj2 (Z.eqb_neq _ _)) by lia.
Qed.

(** The sector [lba] of the disk replaced. *)
Definition stored (lba : Z) (sec : list Z) (d : drive) : drive := set_sectors (<[Z.to_nat lba := sec]> (d_sectors d)) false d.

Lemma le16_mid pre b0 b1 post i : 2 * i = Z.of_nat (length pre) →
  le16 (pre ++ b0 :: b1 :: post) (Z.to_nat (2 * i)) = b0 + 256 * b1.
Proof.
  intros ->. rewrite Nat2Z.id. unfold le16, byte. rewrite !app_nth2 by lia.
  replace (length pre + 1 - length pre)%nat with 1%nat by lia. by rewrite Nat.sub_diag.
Qed.

Lemma outw_data d v : io_ok d → 0 ≤ v < 2 ^ 16 → outw (d_base d) v d = Ok (tt, write_data v d).
Proof.
  intros [H0 H1] Hv. unfold outw, port_write. rewrite !u16_small by lia. cbn [port_out drive_ports]. unfold drive_out.
  by rewrite Z.sub_diag.
Qed.

Lemma words_out_ok d n : io_ok d → ∀ bs lba todo pre chunk post i,
  length chunk = (2 * n)%nat → n ≠ O → (length bs + length chunk = 512)%nat → Forall is_byte chunk → 2 * i = Z.of_nat (length pre) →
  words_out n (d_base d) i (pre ++ chunk ++ post) (set_transfer (DataOut bs lba todo) O d) =
  Ok (tt, set_transfer (begin_out (stored lba (bs ++ chunk) d) (lba + 1) (todo - 1)) (d_latency d) (stored lba (bs ++ chunk) d)).
Proof.
  intros Hio. induction n as [|n IH]; intros bs lba todo pre chunk post i Hl Hn Hbs HB Hi; [done|].
  destruct chunk as [|b0 [|b1 chunk]]; [simpl in Hl; lia..|].
  apply Forall_cons in HB as [B0 [B1 HB]%Forall_cons]. cbn [words_out app]. rewrite le16_mid by done.
  assert (0 ≤ b0 + 256 * b1 < 2 ^ 16) as Hw by (unfold is_byte in *; lia).
  rewrite (bind_of_ok _ _ _ _ _ (outw_data (set_transfer (DataOut bs lba todo) O d) _ Hio Hw)).
  unfold write_data. cbn [d_busy d_transfer set_transfer]. pose proof (word_bytes b0 b1 B0 B1) as E. rewrite (u16_small _ Hw) in E. rewrite E.
  rewrite length_app. cbn [length]. destruct n as [|n].
  - destruct chunk; [|simpl in Hl; lia]. cbn [length] in Hbs. rewrite (proj2 (Nat.eqb_eq _ _)) by lia. done.
  - destruct chunk as [|b2 chunk]; [simpl in Hl; lia|]. cbn [length] in *. rewrite (proj2 (Nat.eqb_neq _ _)) by lia.
    specialize (IH (bs ++ [b0; b1]) lba todo (pre ++ [b0; b1]) (b2 :: chunk) post (i + 1)).
    rewrite <- !app_assoc in IH. apply IH; [simpl; lia|done|rewrite length_app; simpl; lia|done|rewrite length_app; simpl; lia].
Qed.

(** The sectors of a buffer. *)
Fixpoint chunks (n : nat) (buf : list Z) : list (list Z) :=
  match n with O => [] | S n' => take 512 buf :: chunks n' (drop 512 buf) end.
Fixpoint store_sectors (lba : nat) (cs l : list (list Z)) : list (list Z) :=
  match cs with [] => l | c :: cs' => store_sectors (S lba) cs' (<[lba := c]> l) end.

Lemma length_store lba cs l : length (store_sectors lba cs l) = length l.
Proof. revert lba l. induction cs as [|c cs IH]; intros lba l; simpl; [done|]. by rewrite IH, length_insert. Qed.

Lemma store_other lba cs l i : (i < lba ∨ lba + length cs ≤ i)%nat → store_sectors lba cs l !! i = l !! i.
Proof.
  revert lba l. induction cs as [|c cs IH]; intros lba l Hi; simpl; [done|].
  rewrite IH by (simpl in Hi; lia). rewrite list_lookup_insert_ne; [done|]. simpl in Hi. lia.
Qed.

Lemma stored_here lba cs l : (lba + length cs ≤ length l)%nat → take (length cs) (drop lba (store_sectors lba cs l)) = cs.
Proof.
  revert lba l. induction cs as [|c cs IH]; intros lba l Hl; [done|]. cbn [length store_sectors] in *.
  rewrite (take_drop_S _ _ _ c).
  - rewrite IH; [done|]. rewrite length_insert. lia.
  - rewrite store_other by lia. apply list_lookup_insert_eq. lia.
Qed.

Lemma chunks_concat n buf : length buf = (512 * n)%nat → concat (chunks n buf) = buf.
Proof.
  revert buf. induction n as [|n IH]; intros buf Hl; [by destruct buf|]. cbn [chunks concat].
  rewrite IH by (rewrite length_drop; lia). apply take_drop.
Qed.

Lemma length_chunks n buf : length (chunks n buf) = n.
Proof. revert buf. induction n as [|n IH]; intros buf; simpl; [done|]. by rewrite IH. Qed.

Lemma chunks_disk n buf : length buf = (512 * n)%nat → Forall is_byte buf → disk_ok (chunks n buf).
Proof.
  revert buf. induction n as [|n IH]; intros buf Hl HB; [by constructor|]. cbn [chunks]. constructor.
  - split; [rewrite length_take; lia|by apply Forall_take].
  - apply IH; [rewrite length_drop; lia|by apply Forall_drop].
Qed.

(** Writing: the sectors from [lba] become those of the buffer, [pre] being what is written already. *)
Lemma pio_write_ok fuel n : ∀ d s lba b pre rest,
  io_ok d → slave d = false → (d_latency d < fuel)%nat → 0 ≤ lba → lba + Z.of_nat n ≤ Z.of_nat (length (d_sectors d)) →
  (b < fuel)%nat → Z.of_nat (length pre) = 512 * s → length rest = (512 * n)%nat → Forall is_byte rest → n ≠ O →
  pio_sectors n fuel (d_base d) s (pre ++ rest) true (set_transfer (begin_out d lba (Z.of_nat n)) b d) =
  Ok (true, pre ++ rest, set_transfer Idle (d_latency d)
        (set_sectors (store_sectors (Z.to_nat lba) (chunks n rest) (d_sectors d)) false d)).
Proof.
  induction n as [|n IH]; intros d s lba b pre rest Hio Hs HL Hlba He Hb Hp Hr HB Hn; [done|]. cbn [pio_sectors].
  assert (begin_out d lba (Z.of_nat (S n)) = DataOut [] lba (Z.of_nat (S n))) as ->.
  { unfold begin_out. rewrite (proj2 (Z.eqb_neq _ _)) by lia. destruct (lookup_lt_is_Some_2 (d_sectors d) (Z.to_nat lba)) as [x ->]; [lia|done]. }
  rewrite (bind_of_ok _ _ _ _ _ (ide_wait_ready_ok d _ Hio Hs fuel b Hb)). cbn [failed negb].
  rewrite (bind_of_ok _ _ _ _ _ (ide_wait_drq_ok d (DataOut [] lba (Z.of_nat (S n))) fuel Hio Hs eq_refl ltac:(lia))). cbn [failed negb].
  unfold ATA_REG_DATA. rewrite Z.add_0_r.
  pose proof (words_out_ok d 256 Hio [] lba (Z.of_nat (S n)) pre (take 512 rest) (drop 512 rest) (s * 256)) as W.
  rewrite take_drop in W. rewrite (bind_of_ok _ _ _ _ _ (W ltac:(rewrite length_take; lia) ltac:(done) ltac:(rewrite length_take; change (length []) with O; lia)
    ltac:(by apply Forall_take) ltac:(lia))). clear W. cbn [app].
  replace (Z.of_nat (S n) - 1) with (Z.of_nat n) by lia. cbn [chunks store_sectors].
  destruct n as [|n].
  - by destruct d.
  - rewrite <- (take_drop 512 rest), (app_assoc pre) at 1. specialize (IH (stored lba (take 512 rest) d) (s + 1) (lba + 1) (d_latency d)
      (pre ++ take 512 rest) (drop 512 rest)). rewrite <- app_assoc, take_drop in IH. rewrite <- app_assoc, take_drop.
    change (d_base d) with (d_base (stored lba (take 512 rest) d)). etrans; [apply IH|].
    all: try done; try lia.
    + cbn [d_sectors stored set_sectors]. rewrite length_insert. lia.
    + rewrite length_app, length_take. lia.
    + rewrite length_drop. lia.
    + by apply Forall_drop.
    + cbn [d_sectors stored set_sectors]. by replace (Z.to_nat (lba + 1)) with (S (Z.to_nat lba)) by lia.
Qed.

Lemma pio_read_ok fuel n : ∀ d s lba b pre rest,
  io_ok d → slave d = false → disk_ok (d_sectors d) → (d_latency d < fuel)%nat → 0 ≤ lba →
  lba + Z.of_nat n ≤ Z.of_nat (length (d_sectors d)) → (b < fuel)%nat → (n = O → b = O) →
  Z.of_nat (length pre) = 512 * s → length rest = (512 * n)%nat →
  pio_sectors n fuel (d_base d) s (pre ++ rest) false (set_transfer (begin_in d lba (Z.of_nat n)) b d) =
  Ok (true, pre ++ concat (take n (drop (Z.to_nat lba) (d_sectors d))), set_transfer Idle O d).
Proof.
  induction n as [|n IH]; intros d s lba b pre rest Hio Hs Hd HL Hlba He Hb Hb0 Hp Hr; cbn [pio_sectors].
  { rewrite (Hb0 eq_refl). by destruct rest. }
  destruct (lookup_lt_is_Some_2 (d_sectors d) (Z.to_nat lba)) as [sec E]; [lia|].
  assert (begin_in d lba (Z.of_nat (S n)) = DataIn sec lba (Z.of_nat (S n))) as ->.
  { unfold begin_in. rewrite (proj2 (Z.eqb_neq _ _)) by lia. by rewrite E. }
  destruct (proj1 (Forall_lookup _ _) Hd _ _ E) as [Hl Hbytes].
  rewrite (bind_of_ok _ _ _ _ _ (ide_wait_ready_ok d _ Hio Hs fuel b Hb)). cbn [failed negb].
  rewrite (bind_of_ok _ _ _ _ _ (ide_wait_drq_ok d (DataIn sec lba (Z.of_nat (S n))) fuel Hio Hs eq_refl ltac:(lia))). cbn [failed negb].
  unfold ATA_REG_DATA. rewrite Z.add_0_r. rewrite <- (take_drop 512 rest).
  rewrite (bind_of_ok _ _ _ _ _ (words_in_ok d 256 Hio sec lba _ pre (take 512 rest) (drop 512 rest) (s * 256)
    Hl ltac:(done) Hbytes ltac:(rewrite length_take; lia) ltac:(lia))).
  replace (Z.of_nat (S n) - 1) with (Z.of_nat n) by lia. rewrite app_assoc, (take_drop_S _ _ _ sec E). cbn [concat].
  rewrite IH; [|done|done|done|done|lia|lia| | |rewrite length_app; lia|rewrite length_drop; lia].
  - replace (Z.to_nat (lba + 1)) with (S (Z.to_nat lba)) by lia. by rewrite <- app_assoc.
  - destruct (_ =? 1); lia.
  - by intros ->.
Qed.

(** ** Accesses to the master drive *)

(** The drive can take a command: nothing under way, and no error left over from the last one. *)
Record drive_usable (d : drive) (fuel : nat) : Prop := {
  du_io : io_ok d;
  du_disk : disk_ok (d_sectors d);
  du_busy : d_busy d = O;
  du_fine : slave d || negb (failed (d_transfer d)) = true;
  du_fuel : (d_latency d < fuel)%nat
}.

Lemma first_wait d fuel : drive_usable d fuel → ide_wait_ready fuel (d_base d) d = Ok (true, d).
Proof.
  intros [Hio _ Hb Hf HL]. destruct fuel as [|fuel]; [lia|]. cbn [ide_wait_ready].
  rewrite (bind_of_ok _ _ _ _ _ (inb_status d Hio)). unfold read_status. rewrite Hb.
  destruct (slave d); [done|]. by destruct (d_transfer d).
Qed.

Lemma addressed_master lba count d : slave (addressed lba count d) = false.
Proof. apply select_value. change 0x0F with (Z.ones 4). rewrite Z.land_ones by lia. by apply Z.mod_pos_bound. Qed.

Lemma command_starts d c lba count : d_busy d = O → u8 c = c → 0 ≤ lba < 2 ^ 28 → 0 < count < 256 → c = 0x20 ∨ c = 0x30 →
  write_reg 7 (u8 c) (addressed lba count d) =
  set_transfer ((if c =? 0x20 then begin_in else begin_out) (addressed lba count d) lba count) (d_latency d) (addressed lba count d).
Proof.
  intros Hb Hu Hl Hc Hcmd. unfold write_reg. cbn [Z.eqb Pos.eqb]. rewrite addressed_master.
  change (d_busy (addressed lba count d)) with (d_busy d). rewrite Hb, Hu. cbn [Nat.eqb negb orb]. unfold command.
  cbn [d_count addressed set_regs]. rewrite (u8_small count) by lia. rewrite (proj2 (Z.eqb_neq count 0)) by lia.
  assert (d_lba (addressed lba count d) = lba) as E by (apply (lba_bytes lba Hl)).
  unfold addressed in *. rewrite E. by destruct Hcmd as [-> | ->].
Qed.

Ltac out_io Hio r := erewrite bind_of_ok; [|apply (outb_reg _ r); [exact Hio|done|reflexivity]].

(** The command sequence up to the first sector. *)
Lemma pio_start fuel d lba count buf write : drive_usable d fuel → 0 ≤ lba < 2 ^ 28 → 0 < count < 256 →
  pio_access fuel (d_base d) 0 lba count buf write d =
  (r ← pio_sectors (Z.to_nat count) fuel (d_base d) 0 buf write;
   if negb (fst r) then mret r
   else
     when write (outb (d_base d + ATA_REG_COMMAND) ATA_CMD_CACHE_FLUSH ;; ide_wait_ready fuel (d_base d) ;; mret tt) ;;
     mret r)
  (set_transfer ((if write then begin_out else begin_in) (addressed lba count d) lba count) (d_latency d) (addressed lba count d)).
Proof.
  intros U Hl Hc. pose proof (du_io _ _ U) as Hio. unfold pio_access. rewrite (bind_of_ok _ _ _ _ _ (first_wait d fuel U)). cbn [negb].
  change (Z.lor 0xE0 (Z.shiftl 0 4)) with 0xE0.
  out_io Hio 6. erewrite bind_of_ok; [|apply io_wait_ok; exact Hio]. out_io Hio 1. out_io Hio 2. out_io Hio 3. out_io Hio 4. out_io Hio 5. out_io Hio 7.
  match goal with |- context [write_reg 7 _ ?d'] => change d' with (addressed lba count d) end.
  destruct write.
  - by rewrite (command_starts d ATA_CMD_WRITE_PIO lba count (du_busy _ _ U) eq_refl Hl Hc (or_intror eq_refl)).
  - by rewrite (command_starts d ATA_CMD_READ_PIO lba count (du_busy _ _ U) eq_refl Hl Hc (or_introl eq_refl)).
Qed.

Lemma access_read_ok fuel d lba count buf : drive_usable d fuel → 0 ≤ lba → 0 < count < 256 → lba + count ≤ 2 ^ 28 →
  lba + count ≤ Z.of_nat (length (d_sectors d)) → Z.of_nat (length buf) = 512 * count →
  pio_access fuel (d_base d) 0 lba count buf false d =
  Ok (true, concat (take (Z.to_nat count) (drop (Z.to_nat lba) (d_sectors d))), set_transfer Idle O (addressed lba count d)).
Proof.
  intros U Hl Hc H28 He Hb. rewrite pio_start by (done || lia).
  pose proof (pio_read_ok fuel (Z.to_nat count) (addressed lba count d) 0 lba (d_latency d) [] buf (du_io _ _ U) (addressed_master _ _ _)
    (du_disk _ _ U) (du_fuel _ _ U) Hl ltac:(rewrite Z2Nat.id by lia; exact He) (du_fuel _ _ U) ltac:(lia) eq_refl ltac:(lia)) as R.
  rewrite Z2Nat.id in R by lia. rewrite (bind_of_ok _ _ _ _ _ R). done.
Qed.

(** The flush that ends a write reaches the drive only if it is not busy with the last sector. *)
Lemma access_write_ok fuel d lba count data : drive_usable d fuel → 0 ≤ lba → 0 < count < 256 → lba + count ≤ 2 ^ 28 →
  lba + count ≤ Z.of_nat (length (d_sectors d)) → Z.of_nat (length data) = 512 * count → Forall is_byte data →
  pio_access fuel (d_base d) 0 lba count data true d =
  Ok (true, data, set_transfer Idle O (set_sectors (store_sectors (Z.to_nat lba) (chunks (Z.to_nat count) data) (d_sectors d))
        (d_latency d =? 0)%nat (addressed lba count d))).
Proof.
  intros U Hl Hc H28 He Hb HB. rewrite pio_start by (done || lia). pose proof (du_io _ _ U) as Hio.
  pose proof (pio_write_ok fuel (Z.to_nat count) (addressed lba count d) 0 lba (d_latency d) [] data (du_io _ _ U) (addressed_master _ _ _)
    (du_fuel _ _ U) Hl ltac:(rewrite Z2Nat.id by lia; exact He) (du_fuel _ _ U) eq_refl ltac:(lia) HB ltac:(lia)) as R.
  rewrite Z2Nat.id in R by lia. rewrite (bind_of_ok _ _ _ _ _ R). cbn [fst negb when].
  set (d1 := set_sectors (store_sectors (Z.to_nat lba) (chunks (Z.to_nat count) data) (d_sectors (addressed lba count d))) false (addressed lba count d)).
  change (d_latency (addressed lba count d)) with (d_latency d).
  assert (slave d1 = false) as Hs by apply (addressed_master lba count d).
  pose (flush := outb (d_base d + ATA_REG_COMMAND) ATA_CMD_CACHE_FLUSH ;; ide_wait_ready fuel (d_base d) ;; mret (M := M drive) tt).
  assert (flush (set_transfer Idle (d_latency d) d1) = Ok (tt, set_transfer Idle O (set_sectors (d_sectors d1) (d_latency d =? 0)%nat d1))) as F.
  2:{ unfold flush in F. rewrite (bind_of_ok _ _ _ _ _ F). done. }
  unfold flush. out_io Hio 7. unfold write_reg. cbn [Z.eqb Pos.eqb].
  change (slave (set_transfer Idle (d_latency d) d1)) with (slave d1). rewrite Hs. cbn [orb d_busy set_transfer].
  destruct (d_latency d =? 0)%nat eqn:E0; cbn [negb].
  - apply Nat.eqb_eq in E0. unfold command. cbn [Z.eqb Pos.eqb u8]. change (u8 ATA_CMD_CACHE_FLUSH) with 0xE7. cbn [Z.eqb Pos.eqb].
    rewrite (bind_of_ok _ _ _ _ _ (ide_wait_ready_ok (set_sectors (d_sectors d1) true d1) Idle Hio Hs fuel (d_latency d) (du_fuel _ _ U))). done.
  - rewrite (bind_of_ok _ _ _ _ _ (ide_wait_ready_ok d1 Idle Hio Hs fuel (d_latency d) (du_fuel _ _ U))). done.
Qed.

(** ** Through the tables *)

(** The first drive in the table is the master of the channel that [hw] answers on. *)
Definition first_is_master (s : ide_state drive) : Prop :=
  ∃ i dv c, first_device_loop (g_device_used s) (g_devices s) 0 = Some i ∧ g_devices s !! Z.to_nat i = Some dv ∧ dev_drive dv = 0 ∧
    g_controllers s !! Z.to_nat (dev_ctrl dv) = Some c ∧ ch_base (channel_of c (dev_channel dv)) = d_base (hw s).

Lemma pio_access_first (s : ide_state drive) fuel lba count buf write : first_is_master s →
  (o ← ide_first_device;
   match o with None => mret (false, buf) | Some dev => ide_pio_access fuel dev lba count buf write end) s =
  on_hw (pio_access fuel (d_base (hw s)) 0 lba count buf write) s.
Proof.
  intros (i & dv & c & H1 & H2 & H3 & H4 & H5). unfold ide_first_device.
  rewrite (bind_of_ok _ _ s (Some i) s) by (unfold mbind, M_bind, get, mret, M_ret; by rewrite H1).
  unfold ide_pio_access. rewrite (bind_of_ok _ _ _ (g_devices s) s) by done. rewrite (bind_of_ok _ _ _ dv s) by (by rewrite H2).
  rewrite (bind_of_ok _ _ _ (g_controllers s) s) by done. rewrite (bind_of_ok _ _ _ c s) by (by rewrite H4). by rewrite H3, H5.
Qed.

Lemma on_hw_ok {A} (m : M drive A) (s : ide_state drive) a d : m (hw s) = Ok (a, d) → on_hw m s = Ok (a, set_hw d s).
Proof. intros H. unfold on_hw, zoom. by rewrite H. Qed.

(** C39: sectors written with [ide_write_sectors] are read back by [ide_read_sectors], on any later buffer, and no
    other sector of the disk changes; both report success. *)
Theorem ide_write_read (s : ide_state drive) (fuel : nat) (lba count : Z) (data buf : list Z) :
  first_is_master s → drive_usable (hw s) fuel → 0 ≤ lba → 0 < count < 256 → lba + count ≤ 2 ^ 28 →
  lba + count ≤ Z.of_nat (length (d_sectors (hw s))) →
  Z.of_nat (length data) = 512 * count → Forall is_byte data → Z.of_nat (length buf) = 512 * count →
  ∃ s1 s2, ide_write_sectors fuel lba count data s = Ok (true, s1) ∧
    ide_read_sectors fuel lba count buf s1 = Ok (true, data, s2) ∧ d_sectors (hw s2) = d_sectors (hw s1) ∧
    ∀ i, 0 ≤ i → i < lba ∨ lba + count ≤ i → d_sectors (hw s1) !! Z.to_nat i = d_sectors (hw s) !! Z.to_nat i.
Proof.
  intros HF U Hl Hc H28 He Hd HB Hb. pose proof (access_write_ok fuel (hw s) lba count data U Hl Hc H28 He Hd HB) as W.
  set (d1 := set_transfer Idle O _) in W.
  assert (drive_usable d1 fuel) as U1.
  { split; [apply U| |done|by rewrite orb_true_r|apply U]. apply Forall_lookup. intros i x.
    cbn [d1 set_transfer set_sectors d_sectors addressed set_regs]. intros Hx.
    destruct (decide (i < Z.to_nat lba ∨ Z.to_nat lba + length (chunks (Z.to_nat count) data) ≤ i)%nat) as [Ho|Hi].
    - rewrite store_other in Hx by done. exact (proj1 (Forall_lookup _ _) (du_disk _ _ U) _ _ Hx).
    - rewrite length_chunks in Hi.
      assert (chunks (Z.to_nat count) data !! (i - Z.to_nat lba)%nat = Some x) as Hk.
      { rewrite <- (stored_here (Z.to_nat lba) (chunks (Z.to_nat count) data) (d_sectors (hw s))) by (rewrite length_chunks; lia).
        rewrite length_chunks, lookup_take, decide_True, lookup_drop by lia. by replace (Z.to_nat lba + (i - Z.to_nat lba))%nat with i by lia. }
      eapply (proj1 (Forall_lookup _ _) (chunks_disk (Z.to_nat count) data ltac:(lia) HB)), Hk. }
  exists (set_hw d1 s). pose proof (access_read_ok fuel d1 lba count buf U1 Hl Hc H28) as R.
  cbn [d1 d_sectors set_transfer set_sectors addressed set_regs] in R. rewrite length_store in R. specialize (R He Hb).
  pose proof (stored_here (Z.to_nat lba) (chunks (Z.to_nat count) data) (d_sectors (hw s)) ltac:(rewrite length_chunks; lia)) as Hh.
  rewrite length_chunks in Hh. rewrite Hh, chunks_concat in R by lia.
  eexists. split; [|split; [|split]].
  - unfold ide_write_sectors. pose proof (pio_access_first s fuel lba count data true HF) as E.
    rewrite (on_hw_ok _ s _ d1 W) in E. apply bind_ok in E as (o & s' & E1 & E2). rewrite (bind_of_ok _ _ _ _ _ E1).
    destruct o; [|by injection E2]. by rewrite (bind_of_ok _ _ _ _ _ E2).
  - unfold ide_read_sectors. rewrite pio_access_first by exact HF. exact (on_hw_ok _ (set_hw d1 s) _ _ R).
  - done.
  - intros i Hi Ho. cbn [set_hw hw d1 d_sectors set_transfer set_sectors]. apply store_other. rewrite length_chunks. lia.
Qed.

(** After one failed command the error bit stays set until the next command, and [ide_pio_access] gives up before it
    sends one: every later access fails. *)
Lemma ide_error_sticks (s : ide_state drive) fuel lba count buf :
  first_is_master s → io_ok (hw s) → slave (hw s) = false → d_transfer (hw s) = Failed → d_busy (hw s) = O → fuel ≠ O →
  ide_read_sectors fuel lba count buf s = Ok (false, buf, s) ∧ ide_write_sectors fuel lba count buf s = Ok (false, s).
Proof.
  intros HF Hio Hs Ht Hb Hf.
  assert (∀ w, on_hw (pio_access fuel (d_base (hw s)) 0 lba count buf w) s = Ok (false, buf, s)) as A.
  { intros w. rewrite (on_hw_ok _ s (false, buf) (hw s)); [by destruct s|]. unfold pio_access.
    pose proof (ide_wait_ready_ok (hw s) Failed Hio Hs fuel O ltac:(lia)) as R.
    rewrite <- Ht in R. rewrite <- Hb in R at 1. rewrite <- Hb in R at 1. rewrite set_transfer_id in R. rewrite (bind_of_ok _ _ _ _ _ R), Ht. done. }
  split.
  - unfold ide_read_sectors. rewrite pio_access_first by done. apply A.
  - unfold ide_write_sectors. pose proof (pio_access_first s fuel lba count buf true HF) as E. rewrite A in E.
    apply bind_ok in E as (o & s' & E1 & E2). rewrite (bind_of_ok _ _ _ _ _ E1).
    destruct o; [|by injection E2 as ->]. by rewrite (bind_of_ok _ _ _ _ _ E2).
Qed.

(** A channel with nothing attached: every read gives all ones. *)
Inductive floating := Floating.
#[export] Instance floating_ports : Ports floating := {| port_in width port s := (2 ^ (8 * width) - 1, s); port_out width port v s := s |}.

(** Probing a channel with nothing attached never ends: the status 0xFF is not 0 and reads as busy. *)
Lemma ide_identify_floating_hangs fuel ch drive buf :
  ide_identify (D := floating) fuel ch drive buf Floating = NoFuel.
Proof.
  assert (∀ n io, wait_not_busy n io Floating = NoFuel) as W by (intros n io; induction n as [|n IH]; [done|exact IH]).
  unfold ide_identify. do 7 rewrite (bind_of_ok _ _ _ tt Floating) by reflexivity.
  rewrite (bind_of_ok _ _ _ 255 Floating) by reflexivity. change (255 =? 0) with false. unfold mbind, M_bind. by rewrite W.
Qed.

(** A fifth controller is initialised through the null pointer. *)
Lemma ide_fifth_controller_faults {D} `{!Ports D} (s : ide_state D) fuel id0 bus dev func :
  g_controller_used s = replicate 4 true → ide_init_controller fuel id0 bus dev func s = Fault.
Proof. intros H. unfold ide_init_controller, allocate_controller, mbind, M_bind, gets. by rewrite H. Qed.

(** The flush at the end of a write is lost on a drive that is still busy with the last sector. *)
Lemma ide_flush_lost (s : ide_state drive) fuel lba count data :
  first_is_master s → drive_usable (hw s) fuel → 0 ≤ lba → 0 < count < 256 → lba + count ≤ 2 ^ 28 →
  lba + count ≤ Z.of_nat (length (d_sectors (hw s))) → Z.of_nat (length data) = 512 * count → Forall is_byte data →
  d_latency (hw s) ≠ O →
  ∃ s1, ide_write_sectors fuel lba count data s = Ok (true, s1) ∧ d_flushed (hw s1) = false.
Proof.
  intros HF U Hl Hc H28 He Hd HB HL. pose proof (access_write_ok fuel (hw s) lba count data U Hl Hc H28 He Hd HB) as W.
  eexists. split.
  - unfold ide_write_sectors. pose proof (pio_access_first s fuel lba count data true HF) as E.
    rewrite (on_hw_ok _ s _ _ W) in E. apply bind_ok in E as (o & s' & E1 & E2). rewrite (bind_of_ok _ _ _ _ _ E1).
    destruct o; [|by injection E2]. by rewrite (bind_of_ok _ _ _ _ _ E2).
  - cbn. by apply Nat.eqb_neq.
Qed.

(** A drive of four sectors behind the controller's legacy ports. *)
Definition demo_ide : ide_state drive :=
  mkIde (mkController 0 1 1 0x80 (mkChannel 0x1F0 0x3F6 0 14) (mkChannel 0x170 0x376 0 15) :: replicate 3 null_controller)
    (true :: replicate 3 false) (mkDevice true 0 0 4 0 :: replicate 15 null_device) (true :: replicate 15 false)
    (demo_drive (replicate 4 (replicate 512 0))).

Lemma ide_write_read_witness :
  ∃ s1 s2, ide_write_sectors 5 1 2 (replicate 1024 7) demo_ide = Ok (true, s1) ∧
    ide_read_sectors 5 1 2 (zeros 1024) s1 = Ok (true, replicate 1024 7, s2).
Proof.
  destruct (ide_write_read demo_ide 5 1 2 (replicate 1024 7) (zeros 1024)) as (s1 & s2 & W & R & _).
  - by exists 0, (mkDevice true 0 0 4 0), (mkController 0 1 1 0x80 (mkChannel 0x1F0 0x3F6 0 14) (mkChannel 0x170 0x376 0 15)).
  - split; [split; vm_compute; congruence| |done|done|simpl; lia]. apply Forall_replicate. split; [done|]. apply Forall_replicate. done.
  - lia.
  - lia.
  - lia.
  - vm_compute. discriminate.
  - reflexivity.
  - apply Forall_replicate. done.
  - reflexivity.
  - exists s1, s2. split; [exact W|exact R].
Defined.

(** A drive that has just failed a read is lost to the driver. *)
Lemma ide_error_sticks_demo :
  result (r ← ide_read_sectors 5 4 1 (zeros 512); r' ← ide_read_sectors 5 0 1 (zeros 512); mret (fst r, fst r')) demo_ide = Some (false, false).
Proof. vm_compute. reflexivity. Qed.
End Ide.
