(* ===== verification/UserSpace.v ===== *)
(** * User address spaces beside the kernel's ([kernel/memory/vmm.c], [memutils.c])

    What loading a program relies on: bytes of physical memory written through
    the direct map, and the invariant that a process's page tables share the
    kernel half with the kernel's own and nothing else.  Mapping user pages
    keeps the kernel's translations, and growing the kernel heap keeps the
    process's, which is shown by an instance of the heap's page interface that
    carries both trees. *)
From S2P Require Import Prelude Pmm Vmm Heap Space Bytes.
Import Pmm Vmm Heap Space Bytes.

Module UserSpace.

(** ** Bytes of physical memory

    [vmm_state] keeps memory by 64-bit words; a byte access reads or rewrites
    the word it lies in.  [junk] gives the words nothing has written yet. *)

Section bytes.
Context (junk : Z → Z).

Definition word_of (a : Z) : Z := a - a mod 8.
Definition word_at (m : gmap Z Z) (a : Z) : Z := default (junk a) (m !! a).
Definition load8 (m : gmap Z Z) (a : Z) : Z := byte (le_bytes 8 (word_at m (word_of a))) (Z.to_nat (a mod 8)).
Definition put8 (a v : Z) (m : gmap Z Z) : gmap Z Z :=
  <[word_of a := le_val (<[Z.to_nat (a mod 8) := v]> (le_bytes 8 (word_at m (word_of a))))]> m.

Definition store8 (a v : Z) : M vmm_state unit := modify (λ s, set_mem (put8 a v (mem s)) s).

(** [memcpy8] from a source that is a list of bytes. *)
Fixpoint memcpy8 (dst : Z) (src : list Z) : M vmm_state unit :=
  match src with
  | [] => mret tt
  | b :: src' => store8 dst b ;; memcpy8 (dst + 1) src'
  end.

Definition memset8 (ptr value count : Z) : M vmm_state unit :=
  for_range (Z.to_nat count) 0 (λ i, store8 (ptr + i) value).

Fixpoint put_bytes (a : Z) (bs : list Z) (m : gmap Z Z) : gmap Z Z :=
  match bs with
  | [] => m
  | b :: bs' => put_bytes (a + 1) bs' (put8 a b m)
  end.

Lemma memcpy8_ok dst src s : memcpy8 dst src s = Ok (tt, set_mem (put_bytes dst src (mem s)) s).
Proof.
  revert dst s. induction src as [|b src IH]; intros dst s; [by destruct s|].
  cbn [memcpy8 put_bytes]. unfold store8. rewrite (bind_of_ok _ _ _ _ _ eq_refl), IH. done.
Qed.

Lemma for_store8_ok ptr v n : ∀ lo s, for_range n lo (λ i, store8 (ptr + i) v) s =
  Ok (tt, set_mem (put_bytes (ptr + lo) (replicate n v) (mem s)) s).
Proof.
  induction n as [|n IH]; intros lo s; [by destruct s|].
  cbn [for_range put_bytes replicate]. unfold store8 at 1. rewrite (bind_of_ok _ _ _ _ _ eq_refl), IH.
  by replace (ptr + (lo + 1)) with (ptr + lo + 1) by lia.
Qed.

Lemma memset8_ok ptr v n s : memset8 ptr v n s = Ok (tt, set_mem (put_bytes ptr (replicate (Z.to_nat n) v) (mem s)) s).
Proof. unfold memset8. by rewrite for_store8_ok, Z.add_0_r. Qed.

Lemma put_bytes_app a l1 l2 m : put_bytes a (l1 ++ l2) m = put_bytes (a + Z.of_nat (length l1)) l2 (put_bytes a l1 m).
Proof.
  revert a m. induction l1 as [|b l1 IH]; intros a m; cbn [app put_bytes length]; [by rewrite Z.add_0_r|].
  rewrite IH. f_equal. lia.
Qed.

Lemma le_bytes_range n v : Forall is_byte (le_bytes n v).
Proof. revert v. induction n as [|n IH]; intros v; constructor; [apply u8_range|apply IH]. Qed.

Lemma le_val_range l : Forall is_byte l → 0 ≤ le_val l.
Proof. induction 1 as [|b l Hb _ IH]; simpl; [done|]. unfold is_byte in Hb. lia. Qed.

Lemma le_val_bytes l : Forall is_byte l → le_bytes (length l) (le_val l) = l.
Proof.
  induction 1 as [|b l Hb Hl IH]; [done|]. cbn [length le_val le_bytes]. unfold is_byte in Hb. unfold u8.
  rewrite Z.shiftr_div_pow2 by lia. change (2 ^ 8) with 256.
  replace ((b + 256 * le_val l) mod 256) with b by dlia. by replace ((b + 256 * le_val l) / 256) with (le_val l) by dlia; rewrite IH.
Qed.

(** The bytes of a word after one of them is replaced. *)
Lemma word_update w k v : (k < 8)%nat → is_byte v → le_bytes 8 (le_val (<[k := v]> (le_bytes 8 w))) = <[k := v]> (le_bytes 8 w).
Proof.
  intros Hk Hv. pose proof (le_val_bytes (<[k := v]> (le_bytes 8 w))) as E.
  rewrite length_insert, le_bytes_length in E. apply E, Forall_insert; [apply le_bytes_range|done].
Qed.

Lemma load8_put8 m a v x : is_byte v → load8 (put8 a v m) x = if x =? a then v else load8 m x.
Proof.
  intros Hv. unfold load8, put8. assert (Z.to_nat (a mod 8) < 8)%nat as Hlt by dlia.
  destruct (decide (word_of x = word_of a)) as [Hw|Hw]; last first.
  { destruct (Z.eqb_spec x a) as [->|]; [done|]. unfold word_at. by rewrite lookup_insert_ne. }
  rewrite Hw. unfold word_at at 1. rewrite lookup_insert_eq. cbn [default from_option id]. rewrite word_update by done.
  unfold byte. destruct (Z.eqb_spec x a) as [->|Hne].
  - apply nth_lookup_Some, list_lookup_insert_eq. by rewrite le_bytes_length.
  - rewrite !nth_lookup. f_equal. apply list_lookup_insert_ne. unfold word_of in Hw. dlia.
Qed.

Lemma load8_put_bytes a bs m x : Forall is_byte bs →
  load8 (put_bytes a bs m) x = if (a <=? x) && (x <? a + Z.of_nat (length bs)) then byte bs (Z.to_nat (x - a)) else load8 m x.
Proof.
  intros H. revert a m. induction H as [|b bs Hb _ IH]; intros a m; cbn [put_bytes length].
  - destruct (Z.leb_spec a x), (Z.ltb_spec x (a + Z.of_nat 0)); try done; lia.
  - rewrite IH, load8_put8 by done. destruct (Z.eqb_spec x a) as [->|Hne].
    + destruct (Z.leb_spec (a + 1) a); [lia|]. rewrite Z.leb_refl. destruct (Z.ltb_spec a (a + Z.of_nat (S (length bs)))); [|lia].
      by rewrite Z.sub_diag.
    + destruct (Z.leb_spec (a + 1) x), (Z.leb_spec a x), (Z.ltb_spec x (a + 1 + Z.of_nat (length bs))),
        (Z.ltb_spec x (a + Z.of_nat (S (length bs)))); try lia; try done; cbn [andb].
      unfold byte. replace (Z.to_nat (x - a)) with (S (Z.to_nat (x - (a + 1)))) by lia. done.
Qed.

Lemma put_bytes_other a bs m w : w mod 8 = 0 → w + 8 ≤ a ∨ a + Z.of_nat (length bs) ≤ w → put_bytes a bs m !! w = m !! w.
Proof.
  intros Hw. revert a m. induction bs as [|b bs IH]; intros a m Ho; [done|]. cbn [put_bytes length] in *.
  rewrite IH by lia. unfold put8. rewrite lookup_insert_ne; [done|]. unfold word_of. dlia.
Qed.
End bytes.

(** ** A tree is kept when its words are *)

Section keep_tree.
Context {s s' : vmm_state} {root : Z} {T : gmap (list Z) Z}.
Context (Hvs : vspace s root T) (Hpm : pmm_wf (pmm s')) (Hg : grows (pmm s) (pmm s')).
Context (Hkeep : ∀ q f i, T !! q = Some f → 0 ≤ i < 512 →
  mem s' !! entry_addr (PHYS_TO_HHDM f) i = mem s !! entry_addr (PHYS_TO_HHDM f) i).

Lemma vspace_frame : vspace s' root T.
Proof.
  destruct Hvs as [_ Hm [Hr Hfr Hwd Hinj Hnx Hpre]]. pose proof (gw_pages _ _ Hg) as G1. split; [done|lia|]. split; try done.
  - intros q h Hq. destruct (Hfr q h Hq) as (H0 & Ha & Hp & Hu). split; [done|]. split; [done|].
    rewrite G1. split; [done|]. apply Hg; [dlia|done].
  - intros q h i Hq Hi. rewrite (Hkeep q) by done. by apply (Hwd q).
  - intros q h i w Hq Hl Hi. rewrite (Hkeep q) by done. by apply Hnx.
Qed.

Lemma xlate_frame v : xlate s' T v = xlate s T v.
Proof.
  unfold xlate. destruct (T !! vpath v) as [pt|] eqn:E; [|done]. simpl. unfold pt_index.
  by rewrite (Hkeep _ pt _ E (index_range v 12)).
Qed.
End keep_tree.

(** ** A process's tables and the kernel's *)

Record two_spaces (b : vmm_state) (rk : Z) (Tk : gmap (list Z) Z) (ru : Z) (Tu : gmap (list Z) Z) : Prop := {
  ts_kernel : vspace b rk Tk;
  ts_kspace : g_kernel_address_space b = space_at rk;
  ts_user : vspace b ru Tu;
  (** tables of the user half belong to the process alone *)
  ts_apart : ∀ q f q', Tu !! q = Some f → upper q = false → Tk !! q' ≠ Some f;
  (** tables of the kernel half are shared *)
  ts_shared : ∀ q, upper q = true → Tu !! q = Tk !! q;
  ts_heap : is_Some (Tk !! [pml4_index KERNEL_HEAP])
}.

Lemma upper_app q i : q ≠ [] → upper (q ++ [i]) = upper q.
Proof. by destruct q. Qed.

Lemma upper_prefix q v : q `prefix_of` vpath v → pml4_index v < 256 → upper q = false.
Proof.
  intros [k Hk] Hv. destruct q as [|i q]; [done|]. simpl in *. injection Hk as Hi _. subst i.
  by apply Z.leb_gt.
Qed.

(** Words of frames in use that are not tables on the mapped paths. *)
Lemma mapped_other {s s' root va pa n flags T T'} h i : mapped s s' root va pa n flags T T' →
  0 ≤ h < 2 ^ 47 → h mod 4096 = 0 → used (pmm s) (h / 4096) = true →
  (∀ q k, 0 ≤ k < n → q `prefix_of` vpath (u64 (va + k * PAGE_SIZE)) → T !! q ≠ Some h) → 0 ≤ i < 512 →
  mem s' !! entry_addr (PHYS_TO_HHDM h) i = mem s !! entry_addr (PHYS_TO_HHDM h) i.
Proof.
  intros Hmp Hh Ha Hu Hq Hi. destruct (mp_mem _ _ _ _ _ _ _ _ _ Hmp (entry_addr (PHYS_TO_HHDM h) i)) as [?|(q & f & k & (j & Hj & Hw) & Hf & Hk & Hp)]; [done|].
  destruct (frame_bound (mp_space _ _ _ _ _ _ _ _ _ Hmp) _ _ Hf) as [Hfb Hfa].
  destruct (word_inj h f i j) as [-> _]; try done. exfalso.
  destruct (mp_new _ _ _ _ _ _ _ _ _ Hmp _ _ Hf) as [H1|H1]; [by apply (Hq q k Hk Hp)|congruence].
Qed.

Lemma frame_used {s root T} q f : vspace s root T → T !! q = Some f → used (pmm s) (f / 4096) = true.
Proof. intros V Hq. by destruct (t_frame _ _ _ (vs_tree _ _ _ V) q f Hq) as (_ & _ & _ & ?). Qed.

Section two_spaces.
Context {b : vmm_state} {rk ru : Z} {Tk Tu : gmap (list Z) Z} (W : two_spaces b rk Tk ru Tu).

(** Any step that keeps the words of both trees. *)
Lemma two_spaces_frame b' : pmm_wf (pmm b') → grows (pmm b) (pmm b') → g_kernel_address_space b' = g_kernel_address_space b →
  (∀ q f i, Tk !! q = Some f ∨ Tu !! q = Some f → 0 ≤ i < 512 →
    mem b' !! entry_addr (PHYS_TO_HHDM f) i = mem b !! entry_addr (PHYS_TO_HHDM f) i) →
  two_spaces b' rk Tk ru Tu.
Proof.
  intros Hpm Hg Hk Hm. destruct W as [Vk K Vu Ha Hs Hh]. split; try done.
  - apply (vspace_frame Vk); try done. intros q f i Hq. apply (Hm q). by left.
  - congruence.
  - apply (vspace_frame Vu); try done. intros q f i Hq. apply (Hm q). by right.
Qed.

Section user_mapped.
Context {b' : vmm_state} {va pa n flags : Z} {Tu' : gmap (list Z) Z} (Hmp : mapped b b' ru va pa n flags Tu Tu').
Context (Hlow : ∀ k, 0 ≤ k < n → pml4_index (u64 (va + k * PAGE_SIZE)) < 256).

Lemma user_mapped_kernel_words q f i : Tk !! q = Some f → 0 ≤ i < 512 →
  mem b' !! entry_addr (PHYS_TO_HHDM f) i = mem b !! entry_addr (PHYS_TO_HHDM f) i.
Proof.
  intros Hq Hi. destruct W as [Vk K Vu Ha Hs Hh]. destruct (frame_bound Vk _ _ Hq) as [Hb Hal].
  apply (mapped_other f i Hmp); try done; [by apply (frame_used q f Vk)|].
  intros q' k Hk Hp Hq'. by apply (Ha q' f q Hq'); [eapply upper_prefix; [done|by apply Hlow]|].
Qed.

(** Mapping user pages extends the process's half only. *)
Lemma user_mapped : two_spaces b' rk Tk ru Tu' ∧ ∀ v, xlate b' Tk v = xlate b Tk v.
Proof.
  pose proof user_mapped_kernel_words as Hkw. destruct W as [Vk K Vu Ha Hs Hh].
  pose proof Hmp as [V S P N K' X Q _]. split; [|intros v; by apply xlate_frame].
  split; [|congruence|done| | |done].
  - apply (vspace_frame Vk); [apply V|done|done].
  - intros q f q' Hq Hu Hk. destruct (N q f Hq) as [H1|H1]; [by apply (Ha q f q')|].
    by rewrite (frame_used q' f Vk Hk) in H1.
  - intros q Hu. rewrite <- Hs by done. apply option_eq. intros f. split; [|intros H1; by eapply lookup_weaken].
    intros Hq. destruct (Q q f Hq) as [?|(k & Hk & Hp)]; [done|].
    by rewrite (upper_prefix q _ Hp (Hlow k Hk)) in Hu.
Qed.
End user_mapped.

(** The process's tree after the kernel's has grown. *)
Definition merge_upper (Tk' : gmap (list Z) Z) : gmap (list Z) Z :=
  filter (λ x, upper x.1 = false) Tu ∪ filter (λ x, upper x.1 = true) Tk'.

Lemma merge_lookup Tk' q : merge_upper Tk' !! q = if upper q then Tk' !! q else Tu !! q.
Proof.
  unfold merge_upper. apply option_eq. intros f. rewrite lookup_union_Some_raw, map_lookup_filter_None, !map_lookup_filter_Some. simpl.
  destruct (upper q); split; intuition (try congruence).
Qed.

Section kernel_mapped.
Context {b' : vmm_state} {va pa n flags : Z} {Tk' : gmap (list Z) Z} (Hmp : mapped b b' rk va pa n flags Tk Tk').
Context (Hheap : ∀ k, 0 ≤ k < n → pml4_index (u64 (va + k * PAGE_SIZE)) = pml4_index KERNEL_HEAP).

Lemma kernel_mapped_apart q f q' : Tu !! q = Some f → upper q = false → Tk' !! q' ≠ Some f.
Proof.
  intros Hq Hu Hk. destruct W as [Vk K Vu Ha Hs Hh].
  destruct (mp_new _ _ _ _ _ _ _ _ _ Hmp _ _ Hk) as [H1|H1]; [by apply (Ha q f q')|].
  by rewrite (frame_used q f Vu Hq) in H1.
Qed.

Lemma kernel_mapped_words q f i : Tu !! q = Some f → upper q = false → 0 ≤ i < 512 →
  mem b' !! entry_addr (PHYS_TO_HHDM f) i = mem b !! entry_addr (PHYS_TO_HHDM f) i.
Proof.
  intros Hq Hu Hi. destruct W as [Vk K Vu Ha Hs Hh]. destruct (frame_bound Vu _ _ Hq) as [Hb Hal].
  apply (mapped_other f i Hmp); try done; [by apply (frame_used q f Vu)|].
  intros q' k Hk Hp. by apply (Ha q f q').
Qed.

(** No new entry in the root table. *)
Lemma kernel_mapped_root i : Tk' !! [i] = Tk !! [i].
Proof.
  apply option_eq. intros f. split; [|intros H1; eapply lookup_weaken; [done|apply Hmp]]. intros Hi.
  destruct (mp_paths _ _ _ _ _ _ _ _ _ Hmp _ _ Hi) as [?|(k & Hk & [l Hl])]; [done|]. simpl in Hl. injection Hl as Hl _.
  rewrite Hheap in Hl by done. destruct (ts_heap _ _ _ _ _ W) as [g Hg]. rewrite <- Hl in *.
  pose proof (lookup_weaken _ _ _ _ Hg (mp_sub _ _ _ _ _ _ _ _ _ Hmp)). congruence.
Qed.

Lemma kernel_mapped_tree : tree b' ru (merge_upper Tk').
Proof.
  pose proof kernel_mapped_apart as Hap. pose proof kernel_mapped_words as Hwd'. destruct W as [Vk K Vu Ha Hs Hh].
  destruct (vs_tree _ _ _ Vu) as [Hr Hfr Hwd Hinj Hnx Hpre].
  destruct (vs_tree _ _ _ (mp_space _ _ _ _ _ _ _ _ _ Hmp)) as [Hr' Hfr' Hwk' Hinj' Hnx' Hpre'].
  pose proof (mp_pmm _ _ _ _ _ _ _ _ _ Hmp) as [G1 G2 _]. split.
  - by rewrite merge_lookup.
  - intros q f. rewrite merge_lookup. destruct (upper q); [apply Hfr'|]. intros Hq.
    destruct (Hfr q f Hq) as (? & ? & ? & ?). split; [done|]. split; [done|]. rewrite G1. split; [done|]. apply G2; [dlia|done].
  - intros q f i. rewrite merge_lookup. destruct (upper q) eqn:Eu; [apply Hwk'|]. intros Hq Hi. rewrite (Hwd' q) by done. by apply (Hwd q).
  - intros q1 q2 f. rewrite !merge_lookup. destruct (upper q1) eqn:E1, (upper q2) eqn:E2; intros H1 H2.
    + by eapply Hinj'.
    + by destruct (Hap q2 f q1).
    + by destruct (Hap q1 f q2).
    + by eapply Hinj.
  - intros q f i w. rewrite !merge_lookup. destruct q as [|i0 q].
    + cbn [upper app length]. intros Hq Hl Hi. rewrite (Hwd' []) by done. intros Hw. pose proof (Hnx [] f i w Hq Hl Hi Hw) as Hn. simpl in Hn.
      destruct (256 <=? i) eqn:Ei; [|done]. rewrite kernel_mapped_root. rewrite <- (Hs [i] Ei). exact Hn.
    + rewrite upper_app by done. destruct (upper (i0 :: q)) eqn:Eu; [apply Hnx'|].
      intros Hq Hl Hi. rewrite (Hwd' (i0 :: q)) by done. by apply Hnx.
  - intros q i f. rewrite !merge_lookup. destruct q as [|i0 q].
    + cbn [upper app length]. destruct (256 <=? i); [intros (? & ? & _)%(Hpre' [])|intros (? & ? & _)%(Hpre [])]; rewrite Hr; eauto.
    + rewrite upper_app by done. destruct (upper (i0 :: q)); [apply Hpre'|apply Hpre].
Qed.

(** User addresses translate as before. *)
Lemma kernel_mapped_user v : pml4_index v < 256 → xlate b' (merge_upper Tk') v = xlate b Tu v.
Proof.
  intros Hv. unfold xlate, pt_index. rewrite merge_lookup, (upper_prefix (vpath v) v) by done.
  destruct (Tu !! vpath v) as [pt|] eqn:E; [|done]. simpl.
  by rewrite (kernel_mapped_words _ pt _ E (upper_prefix _ _ (reflexivity _) Hv) (index_range v 12)).
Qed.

(** Growing the kernel heap extends the shared half of both. *)
Lemma kernel_mapped : two_spaces b' rk Tk' ru (merge_upper Tk').
Proof.
  pose proof kernel_mapped_tree as Ht. pose proof kernel_mapped_apart as Hap. destruct W as [Vk K Vu Ha Hs Hh].
  pose proof Hmp as [V S P N K' X Q _]. split; [done|congruence| | | |].
  - split; [apply V|apply V|exact Ht].
  - intros q f q'. rewrite merge_lookup. destruct (upper q) eqn:Eu; [done|]. intros Hq _. by apply (Hap q).
  - intros q Hq. by rewrite merge_lookup, Hq.
  - destruct Hh as [f Hf]. exists f. by eapply lookup_weaken.
Qed.
End kernel_mapped.
End two_spaces.

(** ** The heap's page interface, with a process's tables in view

    The window is the 512 GiB behind the one root entry that every address
    space shares from the start. *)

Definition HEAP_WINDOW : Z := KERNEL_HEAP + 2 ^ 39.
Lemma heap_window : HEAP_WINDOW ≤ KERNEL_STACK_BASE.
Proof. vm_compute. congruence. Qed.
Definition window_laws : PageLaws vmm_state := vm_laws_to HEAP_WINDOW heap_window.

(** The process's tables translate user addresses as [F] says. *)
Definition user_inv (ru : Z) (F : Z → option Z) (b : vmm_state) : Prop :=
  ∃ rk Tk Tu, two_spaces b rk Tk ru Tu ∧ ∀ v, pml4_index v < 256 → xlate b Tu v = F v.

Lemma heap_index v : KERNEL_HEAP ≤ v < KERNEL_HEAP + 2 ^ 39 → pml4_index v = pml4_index KERNEL_HEAP.
Proof.
  intros Hv. unfold pml4_index. rewrite !Z.shiftr_div_pow2 by lia. f_equal. unfold KERNEL_HEAP in *. dlia.
Qed.

Definition user_laws (ru : Z) (F : Z → option Z) : PageLaws vmm_state.
Proof.
  refine {| pg_inv := user_inv ru F; pg_free := vm_free; pg_limit := HEAP_WINDOW |}.
  - vm_compute. congruence.
  - intros b va n (rk & Tk & Tu & W & HF) Hn Hva Hlo Hhi.
    eapply wp_mono; [apply (extend_ok b rk Tk); [apply W|apply W|done..]| |done].
    intros [] b' (p & pm & T' & Hr & Hpm & Hmp & H0 & Hf & Hv). split; [|done].
    assert (two_spaces (set_pmm pm b) rk Tk ru Tu) as W1.
    { apply (two_spaces_frame W); try done. by apply (takes_grows _ _ _ _ (rt_takes _ _ _ _ Hr)). }
    assert (∀ k, 0 ≤ k < n → pml4_index (u64 (va + k * PAGE_SIZE)) = pml4_index KERNEL_HEAP) as Hi.
    { intros k Hk. unfold PAGE_SIZE in *. apply heap_index. rewrite u64_small; unfold HEAP_WINDOW, KERNEL_HEAP in *; lia. }
    exists rk, T', (merge_upper (Tu := Tu) T'). split; [by apply (kernel_mapped W1 Hmp)|].
    intros v Hv'. rewrite (kernel_mapped_user W1 Hmp) by done. by apply HF.
Defined.

(** A freshly created space is such a process space, with no user page. *)
Lemma clone_two_spaces b rk T g : vspace b rk T → g_kernel_address_space b = space_at rk → vspace b g (clone T g) →
  (∀ q, T !! q ≠ Some g) → vm_valid b KERNEL_HEAP = true → two_spaces b rk T g (clone T g).
Proof.
  intros Vk K Vu Hg Hv. split; try done.
  - intros q f q' [[-> ->]|[Hu _]]%clone_lookup Hq; [apply Hg|congruence].
  - intros q Hq. destruct q as [|i q]; [done|]. rewrite clone_below. simpl in Hq. by rewrite Hq.
  - rewrite (vm_valid_xlate b rk T) in Hv by done. apply bool_decide_eq_true in Hv as [w Hw].
    destruct (xlate_word _ _ _ _ Hw) as (pt & Hp & _). pose proof (t_pre _ _ _ (vs_tree _ _ _ Vk)) as Hpre.
    destruct (Hpre [_; _] _ _ Hp) as (_ & _ & [f Hf]). by destruct (Hpre [_] _ _ Hf) as (_ & _ & ?).
Qed.

Lemma created_heap (s : heap_state vmm_state) l rk T g : heap_wf (PL := window_laws) s l → vspace (back s) rk T →
  g_kernel_address_space (back s) = space_at rk → vspace (back s) g (clone T g) → (∀ q, T !! q ≠ Some g) →
  heap_wf (PL := user_laws g (λ _, None)) s l.
Proof.
  intros W Vk K Vu Hg. assert (vm_valid (back s) KERNEL_HEAP = true) as Hv.
  { apply (hr_valid _ _ (proj1 W)). pose proof (hr_end _ _ (proj1 W)) as He. pose proof (hr_ne _ _ (proj1 W)).
    pose proof (after_ge KERNEL_HEAP l (hr_sizes _ _ (proj1 W))). destruct l as [|x l]; [done|]. cbn [length] in *. lia. }
  assert (heap_wf (PL := user_laws g (λ _, None)) (set_back (back s) s) l) as Wb; [|by destruct s].
  pose proof (hr_cap _ _ (proj1 W)) as [H0 Hlim]. apply (back_relax (user_laws g (λ _, None)) s l (back s) W); [|done..].
  exists rk, T, (clone T g). split; [by apply clone_two_spaces|]. intros v Hv'. rewrite clone_xlate.
  by destruct (Z.leb_spec 256 (pml4_index v)); [lia|].
Qed.

Lemma user_heap_kernel (s : heap_state vmm_state) l ru F : heap_wf (PL := user_laws ru F) s l → heap_wf (PL := window_laws) s l.
Proof.
  intros W. assert (heap_wf (PL := window_laws) (set_back (back s) s) l) as Wb; [|by destruct s].
  pose proof (hr_cap _ _ (proj1 W)) as [H0 Hlim]. destruct (hr_inv _ _ (proj1 W)) as (rk & Tk & Tu & Ht & _).
  apply (back_relax window_laws s l (back s) W); [|done..]. exists rk, Tk. split; apply Ht.
Qed.

(** The view of a process space, read with [vmm_virt_to_phys]. *)
Lemma user_view ru F b v : user_inv ru F b → vmm_virt_to_phys (space_at ru) v b =
  if 256 <=? pml4_index v then vmm_virt_to_phys (g_kernel_address_space b) v b
  else Ok (match F v with Some w => Z.lor (Z.land w PAGE_ADDR_MASK) (Z.land v 0xFFF) | None => 0 end, b).
Proof.
  intros (rk & Tk & Tu & [Vk K Vu _ Hs _] & HF). rewrite K, (virt_to_phys_ok Vu), (virt_to_phys_ok Vk).
  destruct (256 <=? pml4_index v) eqn:E; [|rewrite HF by (by apply Z.leb_gt); done].
  unfold xlate. by rewrite (Hs (vpath v)).
Qed.

(** ** A loaded run of pages *)

Section loaded.
Context (junk : Z → Z).

(** [n] user pages at [va] are backed by the frames from [p], no table of either
    tree, which start with the bytes [bs]. *)
Record loaded (b : vmm_state) (ru : Z) (Tk Tu : gmap (list Z) Z) (va p n flags : Z) (bs : list Z) : Prop := {
  ld_backed : backed b ru Tu va p n flags;
  ld_ktable : ∀ q h, Tk !! q = Some h → ¬ (p ≤ h / 4096 < p + n);
  ld_fits : Z.of_nat (length bs) ≤ n * 4096;
  ld_bytes : ∀ o, 0 ≤ o < Z.of_nat (length bs) → load8 junk (mem b) (PHYS_TO_HHDM (p * 4096) + o) = byte bs (Z.to_nat o)
}.

Lemma load8_word m m' a : m' !! word_of a = m !! word_of a → load8 junk m' a = load8 junk m a.
Proof. intros H. unfold load8, word_at. by rewrite H. Qed.

(** The word a byte of frame [p + o / 4096] lies in. *)
Lemma frame_byte p o : 0 ≤ p → 0 ≤ o → p * 4096 + o < 2 ^ 47 →
  word_of (PHYS_TO_HHDM (p * 4096) + o) = entry_addr (PHYS_TO_HHDM ((p + o / 4096) * 4096)) ((o mod 4096) / 8) ∧
  0 ≤ (o mod 4096) / 8 < 512.
Proof.
  intros Hp Ho Hb. assert (0 ≤ (p + o / 4096) * 4096 < 2 ^ 47) by dlia.
  rewrite !hhdm_phys by lia. unfold word_of, entry_addr, HHDM_BASE. split; dlia.
Qed.

(** Words of other frames. *)
Lemma put_other_frame m p n bs h i : 0 ≤ p → p + n ≤ 2 ^ 35 → 0 ≤ n → Z.of_nat (length bs) ≤ n * 4096 →
  0 ≤ h < 2 ^ 47 → h mod 4096 = 0 → ¬ (p ≤ h / 4096 < p + n) → 0 ≤ i < 512 →
  put_bytes junk (PHYS_TO_HHDM (p * 4096)) bs m !! entry_addr (PHYS_TO_HHDM h) i = m !! entry_addr (PHYS_TO_HHDM h) i.
Proof.
  intros Hp Hpn Hn Hl Hh Ha Hd Hi. destruct (decide (p * 4096 < 2 ^ 47)) as [Hlt|Hge].
  - unfold entry_addr. rewrite !hhdm_phys by lia. apply put_bytes_other; unfold HHDM_BASE; dlia.
  - assert (length bs = 0%nat) as E by lia. by destruct bs.
Qed.

Section keep.
Context {b : vmm_state} {rk ru : Z} {Tk Tu : gmap (list Z) Z} (W : two_spaces b rk Tk ru Tu).
Context {va p n flags : Z} {bs : list Z} (L : loaded b ru Tk Tu va p n flags bs).

Lemma loaded_bound : 0 ≤ p ∧ p + n ≤ 2 ^ 35.
Proof. pose proof (bk_range _ _ _ _ _ _ _ (ld_backed _ _ _ _ _ _ _ _ _ L)). pose proof (vs_max _ _ _ (ts_user _ _ _ _ _ W)). lia. Qed.

(** A step that keeps the tables' words and the frames' words. *)
Lemma loaded_frame b' : grows (pmm b) (pmm b') →
  (∀ q f i, Tu !! q = Some f → 0 ≤ i < 512 → mem b' !! entry_addr (PHYS_TO_HHDM f) i = mem b !! entry_addr (PHYS_TO_HHDM f) i) →
  (∀ j i, p ≤ j < p + n → 0 ≤ i < 512 →
    mem b' !! entry_addr (PHYS_TO_HHDM (j * 4096)) i = mem b !! entry_addr (PHYS_TO_HHDM (j * 4096)) i) →
  loaded b' ru Tk Tu va p n flags bs.
Proof.
  intros Hg Ht Hw. pose proof loaded_bound as Hb. destruct L as [[Hx Hr Hu Htb] Hk Hf Hby]. split; [split|done|done|]; try done.
  - intros u Hu'. rewrite <- (Hx u Hu'). by apply xlate_frame.
  - rewrite (gw_pages _ _ Hg). done.
  - intros j Hj. apply (gw_used _ _ Hg); [lia|by apply Hu].
  - intros o Ho. rewrite <- (Hby o Ho). destruct (frame_byte p o) as [Hw1 Hw2]; [lia..|].
    apply load8_word. rewrite Hw1. apply Hw; [dlia|done].
Qed.

Lemma loaded_takes pm q k : takes (pmm b) pm q k → loaded (set_pmm pm b) ru Tk Tu va p n flags bs.
Proof. intros H. apply loaded_frame; [by apply (takes_grows _ _ _ _ H)|done..]. Qed.

(** Mapping other user pages. *)
Lemma loaded_mapped b' va' pa' n' flags' Tu' : mapped b b' ru va' pa' n' flags' Tu Tu' →
  (∀ u, page_off va u < n → n' ≤ page_off va' u) → loaded b' ru Tk Tu' va p n flags bs.
Proof.
  intros Hmp Hd. pose proof loaded_bound as Hb. pose proof Hmp as [V S P N _ X _ _]. destruct L as [[Hx Hr Hu Htb] Hk Hf Hby].
  assert (∀ h, p ≤ h / 4096 < p + n → ∀ q, Tu !! q ≠ Some h) as Hnt by (intros h Hh q Hq; by apply (Htb q h)).
  split; [split| |done|]; try done.
  - intros u Hu'. rewrite X. destruct (Z.ltb_spec (page_off va' u) n'); [by specialize (Hd u Hu'); lia|by apply Hx].
  - rewrite (gw_pages _ _ P). done.
  - intros j Hj. apply (gw_used _ _ P); [lia|by apply Hu].
  - intros q h Hq Hh. destruct (N q h Hq) as [H1|H1]; [by apply (Htb q h)|]. rewrite Hu in H1 by done. done.
  - intros o Ho. rewrite <- (Hby o Ho). destruct (frame_byte p o) as [Hw1 Hw2]; [lia..|].
    apply load8_word. rewrite Hw1. apply (mapped_other _ _ Hmp); try done; [dlia|by apply Z.mod_mul|rewrite Z.div_mul by lia; apply Hu; dlia|].
    intros q k _ _. apply Hnt. rewrite Z.div_mul by lia. dlia.
Qed.

(** Filling other frames. *)
Lemma loaded_put p' n' bs' : 0 ≤ p' → p' + n' ≤ 2 ^ 35 → 0 ≤ n' → Z.of_nat (length bs') ≤ n' * 4096 →
  (∀ q h, Tu !! q = Some h → ¬ (p' ≤ h / 4096 < p' + n')) → (∀ j, p ≤ j < p + n → ¬ (p' ≤ j < p' + n')) →
  loaded (set_mem (put_bytes junk (PHYS_TO_HHDM (p' * 4096)) bs' (mem b)) b) ru Tk Tu va p n flags bs.
Proof.
  intros Hp' Hn' H0 Hl Ht Hd. pose proof loaded_bound as Hb. apply loaded_frame; [done| |].
  - intros q f i Hq Hi. destruct (frame_bound (ts_user _ _ _ _ _ W) _ _ Hq). apply (put_other_frame _ p' n'); try done. by apply (Ht q).
  - intros j i Hj Hi. apply (put_other_frame _ p' n'); try done; [lia|by apply Z.mod_mul|rewrite Z.div_mul by lia; by apply Hd].
Qed.
End keep.

(** Filling frames that hold no table. *)
Section put.
Context {b : vmm_state} {rk ru : Z} {Tk Tu : gmap (list Z) Z} (W : two_spaces b rk Tk ru Tu).
Context (p n : Z) (bs : list Z) (Hp : 0 ≤ p ∧ p + n ≤ 2 ^ 35 ∧ 0 ≤ n) (Hl : Z.of_nat (length bs) ≤ n * 4096).
Context (Hnt : ∀ q h, Tk !! q = Some h ∨ Tu !! q = Some h → ¬ (p ≤ h / 4096 < p + n)).
Let b' := set_mem (put_bytes junk (PHYS_TO_HHDM (p * 4096)) bs (mem b)) b.

Lemma put_words q f i : Tk !! q = Some f ∨ Tu !! q = Some f → 0 ≤ i < 512 →
  mem b' !! entry_addr (PHYS_TO_HHDM f) i = mem b !! entry_addr (PHYS_TO_HHDM f) i.
Proof.
  intros Hq Hi. assert (0 ≤ f < 2 ^ 47 ∧ f mod 4096 = 0) as [? ?].
  { destruct Hq as [Hq|Hq]; [by apply (frame_bound (ts_kernel _ _ _ _ _ W) q)|by apply (frame_bound (ts_user _ _ _ _ _ W) q)]. }
  apply (put_other_frame _ p n); try done; try lia. by apply (Hnt q).
Qed.

Lemma put_spaces : two_spaces b' rk Tk ru Tu.
Proof. apply (two_spaces_frame W); [apply (ts_kernel _ _ _ _ _ W)|done|done|apply put_words]. Qed.

Lemma put_xlate : (∀ v, xlate b' Tk v = xlate b Tk v) ∧ ∀ v, xlate b' Tu v = xlate b Tu v.
Proof. split; intros v; apply xlate_frame; intros q f i Hq; apply (put_words q); auto. Qed.
End put.

(** Taking frames, mapping them and filling them. *)
Definition fill_pages (space : address_space) (va n flags : Z) (src : list Z) (size_file zeros : Z) : M vmm_state unit :=
  pa ← on_pmm (pmm_alloc_pages n);
  vmm_map_pages space va pa n flags ;;
  memcpy8 junk (PHYS_TO_HHDM pa) src ;;
  memset8 junk (PHYS_TO_HHDM pa + size_file) 0 zeros.

Section fill.
Context {b : vmm_state} {rk ru : Z} {Tk Tu : gmap (list Z) Z} (W : two_spaces b rk Tk ru Tu).

(** What filling pages at [va] leaves of the old state. *)
Record filled (va n : Z) (b' : vmm_state) (Tu' : gmap (list Z) Z) : Prop := {
  fl_spaces : two_spaces b' rk Tk ru Tu';
  fl_kernel : ∀ v, xlate b' Tk v = xlate b Tk v;
  fl_user : ∀ u, n ≤ page_off va u → xlate b' Tu' u = xlate b Tu u;
  fl_pmm : grows (pmm b) (pmm b');
  fl_loaded : ∀ va2 p2 n2 flags2 bs2, loaded b ru Tk Tu va2 p2 n2 flags2 bs2 →
    (∀ u, page_off va2 u < n2 → n ≤ page_off va u) → loaded b' ru Tk Tu' va2 p2 n2 flags2 bs2
}.

(** Frames just taken hold no table, and the frames of no earlier run. *)
Lemma fresh_tables b2 va n flags p k pm Tu' : takes (pmm b) pm p k → mapped (set_pmm pm b) b2 ru va (p * 4096) n flags Tu Tu' →
  ∀ q h, Tk !! q = Some h ∨ Tu' !! q = Some h → ¬ (p ≤ h / 4096 < p + k).
Proof.
  intros Htk Hmp q h Hq Hh. pose proof (tk_range _ _ _ _ Htk) as Hr.
  assert (used (pmm b) (h / 4096) = true ∨ used pm (h / 4096) = false) as [E|E].
  - destruct Hq as [Hq|Hq]; [left; by apply (frame_used q h (ts_kernel _ _ _ _ _ W))|].
    destruct (mp_new _ _ _ _ _ _ _ _ _ Hmp q h Hq) as [Hq'|Hu]; [left; by apply (frame_used q h (ts_user _ _ _ _ _ W))|by right].
  - by rewrite (tk_free _ _ _ _ Htk) in E.
  - rewrite (tk_used _ _ _ _ Htk) in E by lia. destruct (Z.leb_spec p (h / 4096)), (Z.ltb_spec (h / 4096) (p + k)); simpl in E; (done || lia).
Qed.

(** The mapped run after it is filled. *)
Lemma run_loaded b2 va n flags p pm Tu' bs : takes (pmm b) pm p n → 0 < n →
  mapped (set_pmm pm b) b2 ru va (p * 4096) n flags Tu Tu' → two_spaces b2 rk Tk ru Tu' →
  Forall is_byte bs → Z.of_nat (length bs) ≤ n * 4096 →
  loaded (set_mem (put_bytes junk (PHYS_TO_HHDM (p * 4096)) bs (mem b2)) b2) ru Tk Tu' va p n flags bs.
Proof.
  intros Htk Hn Hmp W2 Hbs Hl. pose proof (fresh_tables _ _ _ _ _ _ _ _ Htk Hmp) as Hnt. pose proof Hmp as [_ _ P _ _ X _ _].
  pose proof (tk_range _ _ _ _ Htk) as Hrange. pose proof (vs_max _ _ _ (ts_user _ _ _ _ _ W)) as Hmax.
  destruct (put_xlate W2 p n bs ltac:(lia) Hl Hnt) as [_ Hx]. split; [split|intros q h Hq; apply (Hnt q); auto|done|].
  - intros u Hu. rewrite Hx, X. destruct (Z.ltb_spec (page_off va u) n); [|lia]. do 2 f_equal.
    assert (0 ≤ page_off va u) by (apply Z.mod_pos_bound; lia). unfold PAGE_SIZE. rewrite u64_small; lia.
  - simpl. rewrite (gw_pages _ _ P). simpl. rewrite (sl_pages _ _ (tk_layout _ _ _ _ Htk)). done.
  - intros j Hj. apply (gw_used _ _ P); [lia|]. simpl. rewrite (tk_used _ _ _ _ Htk) by lia.
    by destruct (Z.leb_spec p j), (Z.ltb_spec j (p + n)); try lia.
  - intros q h Hq. apply (Hnt q). auto.
  - intros o Ho. cbn [mem set_mem]. rewrite load8_put_bytes by done.
    destruct (Z.leb_spec (PHYS_TO_HHDM (p * 4096)) (PHYS_TO_HHDM (p * 4096) + o)); [|lia].
    destruct (Z.ltb_spec (PHYS_TO_HHDM (p * 4096) + o) (PHYS_TO_HHDM (p * 4096) + Z.of_nat (length bs))); [|lia].
    cbn [andb]. do 2 f_equal. lia.
Qed.

Lemma fill_pages_ok va n flags src zs : 0 < n < 2 ^ 20 → (∀ k, 0 ≤ k < n → pml4_index (u64 (va + k * PAGE_SIZE)) < 256) →
  Forall is_byte src → 0 ≤ zs → Z.of_nat (length src) + zs ≤ n * 4096 →
  wp (fill_pages (space_at ru) va n flags src (Z.of_nat (length src)) zs)
    (λ _ b', ∃ Tu' p, filled va n b' Tu' ∧ loaded b' ru Tk Tu' va p n flags (src ++ replicate (Z.to_nat zs) 0)) (λ _, True) b.
Proof.
  intros Hn Hlow Hsrc Hzs Hfit. pose proof (vs_pmm _ _ _ (ts_user _ _ _ _ _ W)) as Hpm. unfold fill_pages.
  apply wp_bind, wp_zoom. eapply wp_mono; [apply alloc_pages_ok; [apply Hpm..|lia]| |done].
  intros a pm (p & -> & Hr). pose proof (run_taken_wf _ _ _ _ Hpm Hn Hr) as Hwf. pose proof (rt_takes _ _ _ _ Hr) as Htk.
  assert (two_spaces (set_pmm pm b) rk Tk ru Tu) as W1 by (apply (two_spaces_frame W); [done|by apply (takes_grows _ _ _ _ Htk)|done..]).
  apply wp_bind. eapply wp_mono; [apply map_pages_ok; [apply W1|lia]| |done]. intros [] b2 (Tu' & Hmp).
  destruct (user_mapped W1 Hmp Hlow) as [W2 Hkx].
  pose proof (vs_max _ _ _ (ts_user _ _ _ _ _ W)) as Hmax. pose proof (tk_range _ _ _ _ Htk) as Hrange.
  eapply wp_bind, wp_ok; [apply memcpy8_ok|]. cbv beta. eapply wp_ok; [apply memset8_ok|]. cbn [mem set_mem].
  rewrite <- put_bytes_app. set (bs := src ++ replicate (Z.to_nat zs) 0).
  assert (Z.of_nat (length bs) ≤ n * 4096) as Hlen by (unfold bs; rewrite length_app, length_replicate; lia).
  assert (Forall is_byte bs) as Hbs by (apply Forall_app; split; [done|by apply Forall_replicate]).
  change (set_mem _ (set_mem _ b2)) with (set_mem (put_bytes junk (PHYS_TO_HHDM (p * 4096)) bs (mem b2)) b2).
  pose proof (fresh_tables _ _ _ _ _ _ _ _ Htk Hmp) as Hnt.
  destruct (put_xlate W2 p n bs ltac:(lia) Hlen Hnt) as [Hx1 Hx2].
  exists Tu', p. split; [|by eapply run_loaded; [|lia|..]]. split.
  - by apply (put_spaces W2 p n); [lia|..].
  - intros v. rewrite Hx1, Hkx. done.
  - intros u Hu. rewrite Hx2, (mp_xlate _ _ _ _ _ _ _ _ _ Hmp). destruct (Z.ltb_spec (page_off va u) n); [lia|done].
  - eapply grows_trans; [by apply (takes_grows _ _ _ _ Htk)|]. apply Hmp.
  - intros va2 p2 n2 flags2 bs2 L Hd. pose proof (loaded_mapped W1 (loaded_takes W L pm p n Htk) _ _ _ _ _ _ Hmp Hd) as L2.
    apply (loaded_put W2 L2 p n); try done; try lia; [intros q h Hq; apply (Hnt q); auto|].
    intros j Hj Hj'. pose proof (bk_used _ _ _ _ _ _ _ (ld_backed _ _ _ _ _ _ _ _ _ L) j Hj) as E.
    by rewrite (tk_free _ _ _ _ Htk) in E.
Qed.
End fill.
End loaded.

End UserSpace.
