(* ===== verification/File.v ===== *)
(** * Files and the file system's start ([kernel/filesystem/file.c],
      [filesystem.c], and [fat32_print_root] of [fat32.c])

    The layer between the system calls and FAT32: a pool of open files, and
    [fs_init], which finds the data partition and mounts it.  A [file_handle] is
    an index into the pool.  The hardware is a state [D] behind the ports; the
    USB mass-storage functions are arguments.  The file system reaches the drive
    through a function pointer: the model mounts the function that [ata_read]
    computes from the drive, and [ata_read_correct] shows that reading leaves the
    drive as it was for later reads.  Log lines are left out. *)
From S2P Require Import Prelude Ports Vmm Heap Kobj Bytes Fat32 Pci Ata Ide.
Import Kobj Bytes Fat32 Pci Ata Ide.

Module File.

(** ** Listing the root directory

    [fat32_print_root] prints what it walks over; only the walk is modelled.  It
    follows the chain until a cluster number is 0, so a directory without an end
    mark takes it past the end of the chain. *)

Fixpoint print_entries (es : list (list Z)) (name_buf : list Z) : outcome (bool * list Z) :=
  match es with
  | [] => Ok (false, name_buf)
  | e :: es' =>
      if byte e 0 =? 0x00 then Ok (true, name_buf)
      else if e_attributes e =? FAT32_ATTR_LFN then
        match store_lfn e name_buf with Some nb => print_entries es' nb | None => Fault end
      else print_entries es' name_buf
  end.

Section print.
Context {A : Type}.
Local Notation F := (fat_state A).
Context (buf0 : list Z).

Fixpoint print_sectors (n : nat) (sector : Z) (entries name_buf : list Z) : M F (bool * list Z * list Z) :=
  match n with
  | O => mret (false, entries, name_buf)
  | S n' =>
      entries ← block_read sector 1 entries;
      match print_entries (sector_entries entries) name_buf with
      | Ok (true, name_buf) => mret (true, entries, name_buf)
      | Ok (false, name_buf) => print_sectors n' (u32 (sector + 1)) entries name_buf
      | _ => fault
      end
  end.

Fixpoint print_dir (fuel : nat) (cluster : Z) (entries name_buf : list Z) : M F unit :=
  match fuel with
  | O => no_fuel
  | S fuel' =>
      if truthy cluster then
        sector ← cluster_to_sector cluster;
        bpb ← gets g_bpb;
        r ← print_sectors (Z.to_nat (sectors_per_cluster bpb)) sector entries name_buf;
        let '(stop, entries, name_buf) := (r : bool * list Z * list Z) in
        if stop then mret tt
        else cluster ← next_cluster buf0 cluster; print_dir fuel' cluster entries name_buf
      else mret tt
  end.

Definition fat32_print_root (fuel : nat) (entries0 name_buf0 : list Z) : M F unit :=
  bpb ← gets g_bpb;
  print_dir fuel (root_cluster bpb) entries0 name_buf0.
End print.

(** ** Open files *)

Definition MAX_OPEN_FILES : Z := 16.

Inductive fs_type := FAT_32.
Record file := mkFh { fh_fs_type : fs_type; fh_priv : Z; fh_size : Z }.

Record fs_state (A D : Type) := mkFs {
  fs_fat : fat_state A;
  file_pool : list file;
  file_pool_used : list bool;
  fs_hw : D
}.
Arguments mkFs {A D}.
Arguments fs_fat {A D}.
Arguments file_pool {A D}.
Arguments file_pool_used {A D}.
Arguments fs_hw {A D}.

Definition BOOT_DEVICE_IDE : Z := 0.
Definition BOOT_DEVICE_USB : Z := 1.

Section ops.
Context {A D : Type} `{Alloc A} `{!Ports D}.
Local Notation S := (fs_state A D).

(** Contents of the uninitialised local buffers, and a bound on cluster chains. *)
Context (entries0 buf0 name_buf0 : list Z) (fuel : nat).

Definition set_fat (f : fat_state A) (s : S) : S := mkFs f (file_pool s) (file_pool_used s) (fs_hw s).
Definition set_fs_hw (d : D) (s : S) : S := mkFs (fs_fat s) (file_pool s) (file_pool_used s) d.
Definition set_files (p : list file) (u : list bool) (s : S) : S := mkFs (fs_fat s) p u (fs_hw s).
Definition on_fat {B} (m : M (fat_state A) B) : M S B := zoom fs_fat set_fat m.
Definition on_drive {B} (m : M D B) : M S B := zoom fs_hw set_fs_hw m.

Definition alloc_handle : M S (option Z) :=
  used ← gets file_pool_used;
  match alloc_file_loop used 0 with
  | None => mret None
  | Some i => modify (λ s, set_files (file_pool s) (<[Z.to_nat i := true]> (file_pool_used s)) s) ;; mret (Some i)
  end.

Definition free_handle (idx : Z) : M S unit :=
  when ((0 <=? idx) && (idx <? MAX_OPEN_FILES))
    (modify (λ s, set_files (file_pool s) (<[Z.to_nat idx := false]> (file_pool_used s)) s)).

Definition file_open (path : list Z) : M S (option Z) :=
  o ← alloc_handle;
  match o with
  | None => mret None
  | Some h =>
      r ← on_fat (fat32_open entries0 buf0 name_buf0 fuel path);
      match r with
      | None => free_handle h ;; mret None
      | Some (priv, size) =>
          modify (λ s, set_files (<[Z.to_nat h := mkFh FAT_32 priv size]> (file_pool s)) (file_pool_used s) s) ;;
          mret (Some h)
      end
  end.

Definition file_close (handle : option Z) : M S unit :=
  match handle with
  | None => mret tt
  | Some h =>
      pool ← gets file_pool;
      f ← of_option (pool !! Z.to_nat h);
      on_fat (fat32_close (fh_priv f)) ;;
      free_handle h
  end.

Definition file_readdir (path : list Z) (out : list file_dirent) (max : Z) : M S (Z * list file_dirent) :=
  on_fat (fat32_readdir entries0 buf0 name_buf0 fuel path out max).

(** The bytes read; their number is the return value.  [tmp0] is what the
    cluster buffer holds when it is allocated. *)
Definition file_read (tmp0 : list Z) (h count : Z) : M S (list Z) :=
  pool ← gets file_pool;
  f ← of_option (pool !! Z.to_nat h);
  on_fat (fat32_read buf0 fuel tmp0 (fh_priv f) count).

(** ** Mounting the data partition *)

(** The function pointer [ata_read], for the drive as it is now. *)
Definition ata_fn (d : D) : block_read_fn := λ lba count,
  match ata_read lba count (zeros (512 * count)) d with
  | Ok (true, buf, _) => Some buf
  | _ => None
  end.

(** The LBA field of the second GPT entry, [*(uint * )(gpt_buf + 128 + 32)]. *)
Definition part2_lba (gpt_buf : list Z) : Z := le32 gpt_buf 160.

Definition fs_init (gpt0 : list Z) (usb_msc_ok : bool) (usb_msc_read : block_read_fn) (boot_type : Z) : M S Z :=
  if boot_type =? BOOT_DEVICE_IDE then
    ata_ok ← on_drive ata_init;
    if (ata_ok : bool) then
      d ← gets fs_hw;
      on_fat (fat32_set_block_read (ata_fn d)) ;;
      r ← on_drive (ata_read 2 1 gpt0);
      let '(read_ok, gpt_buf) := (r : bool * list Z) in
      on_fat (fat32_init (if read_ok then part2_lba gpt_buf else 0)) ;;
      on_fat (fat32_print_root buf0 fuel entries0 name_buf0) ;;
      mret 0
    else mret 1
  else if boot_type =? BOOT_DEVICE_USB then
    if usb_msc_ok then
      match usb_msc_read 2 1 with
      | Some gpt_buf =>
          on_fat (fat32_set_block_read usb_msc_read) ;;
          on_fat (fat32_init (part2_lba gpt_buf)) ;;
          on_fat (fat32_print_root buf0 fuel entries0 name_buf0) ;;
          mret 0
      | None => mret 1
      end
    else mret 1
  else mret 1.
End ops.

(** ** The table of disks

    Filled from the PCI scan; nothing uses it yet.  A disk's pointer is its index. *)

Definition FILESYSTEM_MAX_DISKS : Z := 32.
Inductive disk_type := DISK_IDE | DISK_ATA | DISK_NVME | DISK_USB.
Record disk := mkDisk { disk_id : Z; disk_ty : disk_type; disk_bus : Z; disk_dev : Z; disk_func : Z }.
Definition null_disk : disk := mkDisk 0 DISK_IDE 0 0 0.

Record disk_state (D : Type) := mkDisks { g_disks : list disk; g_disk_used : list bool; ide : ide_state D }.
Arguments mkDisks {D}.
Arguments g_disks {D}.
Arguments g_disk_used {D}.
Arguments ide {D}.

Section disks.
Context {D : Type} `{!Ports D}.
Local Notation S := (disk_state D).
Definition set_ide (i : ide_state D) (s : S) : S := mkDisks (g_disks s) (g_disk_used s) i.
Definition set_disks (l : list disk) (u : list bool) (s : S) : S := mkDisks l u (ide s).

#[export] Instance disk_ports : Ports S := {|
  port_in w p s := let r := port_in w p (hw (ide s)) in (fst r, set_ide (set_hw (snd r) (ide s)) s);
  port_out w p v s := set_ide (set_hw (port_out w p v (hw (ide s))) (ide s)) s
|}.

Definition allocate_disk : M S (option Z) :=
  used ← gets g_disk_used;
  match alloc_file_loop used 0 with
  | None => mret None
  | Some i => modify (λ s, set_disks (g_disks s) (<[Z.to_nat i := true]> (g_disk_used s)) s) ;; mret (Some i)
  end.

Definition free_disk (idx : Z) : M S unit :=
  when ((0 <=? idx) && (idx <? FILESYSTEM_MAX_DISKS))
    (modify (λ s, set_disks (alter (λ d, mkDisk 0 (disk_ty d) (disk_bus d) (disk_dev d) (disk_func d)) (Z.to_nat idx) (g_disks s))
                            (<[Z.to_nat idx := false]> (g_disk_used s)) s)).

(** The type and place of a disk, its id kept. *)
Definition describe (i : Z) (ty : disk_type) (bus dev func : Z) : M S unit :=
  modify (λ s, set_disks (alter (λ d, mkDisk (disk_id d) ty bus dev func) (Z.to_nat i) (g_disks s)) (g_disk_used s) s).

Definition on_ide_found (fuel : nat) (id0 : list Z) (bus dev func : Z) : M S unit :=
  o ← allocate_disk;
  match o with
  | None => mret tt
  | Some i => describe i DISK_IDE bus dev func ;; zoom ide set_ide (ide_init_controller fuel id0 bus dev func)
  end.

Definition on_sata_found (bus dev func : Z) : M S unit := allocate_disk ;; mret tt.

(** The null pointer is not checked for. *)
Definition on_nvme_found (bus dev func : Z) : M S unit :=
  o ← allocate_disk;
  i ← of_option o;
  describe i DISK_NVME bus dev func.

Definition run_disk_search (fuel : nat) (id0 : list Z) : M S unit :=
  pci_scan_for_class 0x01 0x01 (on_ide_found fuel id0) ;;
  pci_scan_for_class 0x01 0x06 on_sata_found ;;
  pci_scan_for_class 0x01 0x08 on_nvme_found.
End disks.

(** The first disk of the table with the id; unused slots have the id 0. *)
Fixpoint get_disk_loop (l : list disk) (id i : Z) : option Z :=
  match l with
  | [] => None
  | d :: l' => if disk_id d =? id then Some i else get_disk_loop l' id (i + 1)
  end.
Definition get_disk {D} (s : disk_state D) (id : Z) : option Z := get_disk_loop (g_disks s) id 0.

(** ** Listing the root directory ends at its end mark *)

Definition end_mark (es : list (list Z)) : bool := existsb (λ e, byte e 0 =? 0x00) es.

Lemma print_plain es nb : plain es → print_entries es nb = Ok (end_mark es, nb).
Proof.
  induction es as [|e es IH]; [done|]. cbn [plain print_entries end_mark existsb]. intros [-> | [Ha Hp]]; [done|].
  destruct (byte e 0 =? 0); [done|]. rewrite (proj2 (Z.eqb_neq _ _)) by done. by apply IH.
Qed.

Lemma end_mark_app es es' : end_mark (es ++ es') = end_mark es || end_mark es'.
Proof. apply existsb_app. Qed.

Lemma plain_app es es' : plain (es ++ es') → plain es ∧ (end_mark es = false → plain es').
Proof.
  induction es as [|e es IH]; [done|]. cbn [app plain end_mark existsb]. intros [-> | [Ha Hp]].
  - split; [by left|done].
  - destruct (IH Hp) as [H1 H2]. split; [by right|]. intros [_ E]%orb_false_elim. by apply H2.
Qed.

Section walk.
Context {A : Type} (disk : Z → list Z) (bpb : list Z) (start n : Z) (V : volume_ok disk bpb start n) (buf0 : list Z).
Context (Hbuf0 : (length buf0 ≤ 512)%nat).
Implicit Types s : fat_state A.

Lemma print_sectors_ok s k : mounted disk bpb start n s → ∀ sector entries nb,
  (length entries ≤ 512)%nat → 0 ≤ sector → sector + Z.of_nat k ≤ volume_end bpb start n →
  plain (concat (map (λ i, sector_entries (disk (sector + i))) (seqZ 0 (Z.of_nat k)))) →
  ∃ entries', (length entries' ≤ 512)%nat ∧ print_sectors k sector entries nb s =
    Ok (end_mark (concat (map (λ i, sector_entries (disk (sector + i))) (seqZ 0 (Z.of_nat k)))), entries', nb, s).
Proof.
  intros Hm. induction k as [|k IH]; intros sector entries nb He Hs Hk Hp; [by exists entries|].
  cbn [print_sectors]. rewrite (bind_of_ok _ _ _ _ _ (block_read_1 disk bpb start n V s sector _ Hm ltac:(lia) He)).
  rewrite seqZ_cons in * by lia. replace (Z.pred (Z.of_nat (S k))) with (Z.of_nat k) in * by lia. cbn [map concat] in *.
  rewrite Z.add_0_r in *. apply plain_app in Hp as [Hp1 Hp2]. rewrite print_plain by done. rewrite end_mark_app.
  assert (length (disk sector) ≤ 512)%nat as Hd by (rewrite (vo_sector _ _ _ _ V); lia).
  destruct (end_mark (sector_entries (disk sector))); [by exists (disk sector)|]. specialize (Hp2 eq_refl). cbn [orb].
  assert (map (λ i, sector_entries (disk (sector + i))) (seqZ (Z.succ 0) (Z.of_nat k)) =
          map (λ i, sector_entries (disk (sector + 1 + i))) (seqZ 0 (Z.of_nat k))) as E.
  { change (Z.succ 0) with (1 + 0). rewrite <- fmap_add_seqZ, map_map. apply map_ext. intros i. do 2 f_equal. lia. }
  rewrite E in *. destruct k as [|k]; [by exists (disk sector)|]. pose proof (vo_fits _ _ _ _ V) as Hfit.
  rewrite u32_small by (unfold volume_end in *; lia). apply IH; [done|lia|lia|done].
Qed.

Lemma print_dir_ok s : mounted disk bpb start n s → ∀ l c fuel entries nb,
  chain disk bpb start n c l → (length l ≤ fuel)%nat → (length entries ≤ 512)%nat →
  plain (dir_entries disk bpb start l) → end_mark (dir_entries disk bpb start l) = true →
  print_dir buf0 fuel c entries nb s = Ok (tt, s).
Proof.
  intros Hm l. induction l as [|x l IH]; intros c fuel entries nb Hc Hf He Hp Hend; [done|].
  destruct fuel as [|fuel]; [simpl in Hf; lia|]. cbn [print_dir]. destruct Hc as (-> & Hx & Hc).
  unfold truthy. rewrite (proj2 (Z.eqb_neq x 0)) by lia. cbn [negb].
  rewrite (bind_of_ok _ _ _ _ _ (cluster_to_sector_ok disk bpb start n V s x Hm Hx)), (bind_of_ok _ _ _ (g_bpb s) s) by done.
  rewrite (mo_bpb _ _ _ _ _ Hm). pose proof (vo_spc _ _ _ _ V) as Hspc. pose proof (bpb_ranges disk bpb start n V). pose proof (vo_start _ _ _ _ V).
  assert (dir_entries disk bpb start (x :: l) =
    concat (map (λ i, sector_entries (disk (cluster_lba bpb start x + i))) (seqZ 0 (Z.of_nat (Z.to_nat (spc bpb))))) ++ dir_entries disk bpb start l) as E.
  { unfold dir_entries. cbn [map concat]. f_equal. unfold cluster_sectors. rewrite map_map. by rewrite Z2Nat.id by lia. }
  rewrite E in *. apply plain_app in Hp as [Hp1 Hp2]. rewrite end_mark_app in Hend.
  destruct (print_sectors_ok s (Z.to_nat (spc bpb)) Hm (cluster_lba bpb start x) entries nb He) as (buf1 & Hb1 & Hrun); [| |done|].
  { unfold cluster_lba, data_lba, fat_lba in *. nia. }
  { unfold volume_end, cluster_lba. nia. }
  change (sectors_per_cluster bpb) with (spc bpb). rewrite (bind_of_ok _ _ _ _ _ Hrun).
  destruct (end_mark (concat _)); [done|]. cbn [orb] in Hend. specialize (Hp2 eq_refl).
  rewrite (bind_of_ok _ _ _ _ _ (next_cluster_ok disk bpb start n V buf0 s x Hm Hx Hbuf0)).
  apply IH; [done|simpl in Hf; lia|done..].
Qed.
End walk.

(** ** Reading a file from a drive *)

(** The start of the partition and its boot sector. *)
(** The first LBA of the second entry (128 bytes each) of the partition table in sector 2. *)
Definition gpt_start (l : list (list Z)) : Z := le32 (sector_of l 2) (128 + 32).
Definition boot_bpb (l : list (list Z)) : list Z := sector_of l (gpt_start l).

(** A drive whose second GPT partition holds a FAT32 volume of [n] clusters,
    within the reach of 28-bit addresses, its root directory in 8.3 names with
    an end mark. *)
Record boot_disk (l : list (list Z)) (n : Z) (root : list Z) : Prop := {
  bd_gpt : 2 < Z.of_nat (length l);
  bd_volume : volume_ok (sector_of l) (boot_bpb l) (gpt_start l) n;
  bd_end : volume_end (boot_bpb l) (gpt_start l) n ≤ Z.of_nat (length l);
  bd_28 : volume_end (boot_bpb l) (gpt_start l) n ≤ 2 ^ 28;
  bd_start : gpt_start l < volume_end (boot_bpb l) (gpt_start l) n;
  bd_chain : chain (sector_of l) (boot_bpb l) (gpt_start l) n
               (root_cluster (boot_bpb l)) root;
  bd_plain : plain (dir_entries (sector_of l) (boot_bpb l) (gpt_start l) root);
  bd_mark : end_mark (dir_entries (sector_of l) (boot_bpb l) (gpt_start l) root) = true
}.

Section boot.
Context {A : Type} {AL : Alloc A} (entries0 buf0 name_buf0 : list Z) (fuel : nat).
Context (Hbuf0 : (length buf0 ≤ 512)%nat) (Hentries0 : (length entries0 ≤ 512)%nat).
Implicit Types s : fs_state A drive.

Lemma on_fat_ok {B} (m : M (fat_state A) B) s b f : m (fs_fat s) = Ok (b, f) → on_fat m s = Ok (b, set_fat f s).
Proof. intros E. unfold on_fat, zoom. by rewrite E. Qed.
Lemma on_drive_ok {B} (m : M drive B) s b d : m (fs_hw s) = Ok (b, d) → on_drive m s = Ok (b, set_fs_hw d s).
Proof. intros E. unfold on_drive, zoom. by rewrite E. Qed.

Lemma ata_init_ok d : drive_ready d → ata_init d = Ok (true, d).
Proof.
  intros R. unfold ata_init. replace ATA_STATUS with (d_base d + 7) by (rewrite (dr_base _ R); reflexivity).
  assert (io_ok d) as Hio by (unfold io_ok; rewrite (dr_base _ R); done). rewrite (bind_of_ok _ _ _ _ _ (inb_status d Hio)).
  unfold read_status. rewrite (dr_busy _ R). destruct (slave d); [done|]. by destruct (d_transfer d).
Qed.

Lemma ata_fn_disk d lba n : drive_ready d → 0 ≤ lba → 0 < n < 256 → lba + n ≤ Z.of_nat (length (d_sectors d)) → lba + n ≤ 2 ^ 28 →
  ata_fn d lba n = disk_fn (sector_of (d_sectors d)) lba n.
Proof. apply ata_block_read_disk. Qed.

Lemma disk_fn_1 (disk : Z → list Z) lba : disk_fn disk lba 1 = Some (disk lba).
Proof. unfold disk_fn. change (seqZ 0 1) with [0]. simpl. by rewrite app_nil_r, Z.add_0_r. Qed.

Lemma sector_of_length l lba : disk_ok l → length (sector_of l lba) = 512%nat.
Proof.
  intros H. unfold sector_of. destruct (l !! Z.to_nat lba) as [x|] eqn:E; [|done].
  by apply (proj1 (Forall_lookup _ _) H _ _ E).
Qed.

(** [fs_init] mounts the volume. *)
Lemma fs_init_ok s l n root gpt0 usb_ok usb_read : drive_ready (fs_hw s) → d_sectors (fs_hw s) = l → boot_disk l n root →
  (length root ≤ fuel)%nat → length gpt0 = 512%nat → (length (g_bpb (fs_fat s)) ≤ 512)%nat →
  ∃ d', fs_init entries0 buf0 name_buf0 fuel gpt0 usb_ok usb_read BOOT_DEVICE_IDE s =
      Ok (0, set_fs_hw d' (set_fat (mkFat (f_alloc (fs_fat s)) (Some (ata_fn (fs_hw s))) (boot_bpb l) (gpt_start l)
                                          (fat_pool (fs_fat s)) (fat_pool_used (fs_fat s))) s)) ∧
    drive_ready d' ∧ d_sectors d' = l ∧
    ∀ f : fat_state A, g_block_read f = Some (ata_fn (fs_hw s)) → g_bpb f = boot_bpb l → g_lba_start f = gpt_start l →
      mounted (sector_of l) (boot_bpb l) (gpt_start l) n f.
Proof.
  intros R El B Hroot Hgpt Hbpb. pose proof (dr_disk _ R) as Hdisk. rewrite El in Hdisk. pose proof (bd_volume _ _ _ B) as V.
  pose proof (vo_start _ _ _ _ V) as Hstart. pose proof (bd_start _ _ _ B) as Hs1. pose proof (bd_end _ _ _ B) as Hs2. pose proof (bd_28 _ _ _ B) as Hs3.
  pose proof (bd_gpt _ _ _ B) as Hs4.
  assert (∀ d lba n, drive_ready d → d_sectors d = l → 0 ≤ lba → 0 < n < 256 → lba + n ≤ Z.of_nat (length l) → lba + n ≤ 2 ^ 28 →
    ata_fn d lba n = disk_fn (sector_of l) lba n) as Hfn by (intros d lba k Rd <-; by apply ata_fn_disk).
  assert (∀ f : fat_state A, g_block_read f = Some (ata_fn (fs_hw s)) → g_bpb f = boot_bpb l → g_lba_start f = gpt_start l →
      mounted (sector_of l) (boot_bpb l) (gpt_start l) n f) as Hmount.
  { intros f E1 E2 E3. split; [|done..]. exists (ata_fn (fs_hw s)). split; [done|]. intros lba k H0 Hk He.
    apply Hfn; [done|done|done|done|lia|lia]. }
  unfold fs_init. cbn [Z.eqb BOOT_DEVICE_IDE]. rewrite (bind_of_ok _ _ _ _ _ (on_drive_ok _ _ _ _ (ata_init_ok _ R))).
  rewrite (bind_of_ok _ _ _ (fs_hw s) (set_fs_hw (fs_hw s) s)) by done.
  rewrite (bind_of_ok _ _ _ _ _ (on_fat_ok _ _ tt _ eq_refl)).
  destruct (ata_read_correct (fs_hw s) 2 1 gpt0 R ltac:(lia) ltac:(lia) ltac:(lia)) as (d' & Ed & R' & Es).
  rewrite El in Ed, Es. rewrite bool_decide_true in Ed by lia.
  assert (concat (take (Z.to_nat 1) (drop (Z.to_nat 2) l)) ++
    drop (512 * length (take (Z.to_nat 1) (drop (Z.to_nat 2) l))) gpt0 = sector_of l 2) as E2.
  { pose proof (sectors_seq l 2 1 ltac:(lia) ltac:(lia)) as Q. change (seqZ 0 (Z.of_nat 1)) with [0] in Q.
    cbn [map] in Q. change (2 + 0) with 2 in Q. change (Z.to_nat 1) with 1%nat. rewrite <- Q. cbn [concat length]. rewrite app_nil_r.
    rewrite drop_ge by lia. by rewrite app_nil_r. }
  rewrite E2 in Ed. erewrite bind_of_ok; [|apply on_drive_ok; exact Ed]. change (part2_lba (sector_of l 2)) with (gpt_start l). cbn beta iota.
  set (fat1 := mkFat (f_alloc (fs_fat s)) (Some (ata_fn (fs_hw s))) (boot_bpb l) (gpt_start l) (fat_pool (fs_fat s)) (fat_pool_used (fs_fat s))).
  pose proof (Hmount fat1 eq_refl eq_refl eq_refl) as Hm1.
  assert (∀ s', fs_fat s' = mkFat (f_alloc (fs_fat s)) (Some (ata_fn (fs_hw s))) (g_bpb (fs_fat s)) (g_lba_start (fs_fat s))
                                  (fat_pool (fs_fat s)) (fat_pool_used (fs_fat s)) →
    on_fat (fat32_init (gpt_start l)) s' = Ok (tt, set_fat fat1 s')) as Hinit.
  { intros s' Es'. apply on_fat_ok. rewrite Es'. unfold fat32_init, block_read, mbind, M_bind, modify, gets. cbn.
    rewrite Hfn by (done || lia). rewrite disk_fn_1.
    pose proof (sector_of_length l (gpt_start l) Hdisk) as Hl. unfold boot_bpb.
    rewrite drop_ge by lia. rewrite app_nil_r. done. }
  erewrite bind_of_ok; [|apply Hinit; reflexivity].
  assert (fat32_print_root buf0 fuel entries0 name_buf0 fat1 = Ok (tt, fat1)) as Hpr.
  { unfold fat32_print_root. rewrite (bind_of_ok _ _ _ (boot_bpb l) fat1) by done.
    apply (print_dir_ok (sector_of l) (boot_bpb l) (gpt_start l) n V buf0 Hbuf0 fat1 Hm1 root); [apply B|done|done|apply B|apply B]. }
  erewrite bind_of_ok; [|apply on_fat_ok; exact Hpr].
  exists d'. split; [done|]. split; [done|]. split; [done|]. exact Hmount.
Qed.

Lemma pool_free used h : alloc_file_loop used 0 = Some h → 0 ≤ h ∧ used !! Z.to_nat h = Some false.
Proof. intros E. apply alloc_file_loop_free in E as [H1 H2]. by rewrite Z.sub_0_r in H2. Qed.

Lemma file_open_ok s disk bpb start n comps f i h :
  volume_ok disk bpb start n → mounted disk bpb start n (fs_fat s) → comps ≠ [] → Forall component comps →
  path_file disk bpb start n fuel (root_cluster bpb) comps (Some f) →
  Z.of_nat (length (fat_pool (fs_fat s))) = 16 → Z.of_nat (length (fat_pool_used (fs_fat s))) = 16 →
  alloc_file_loop (fat_pool_used (fs_fat s)) 0 = Some i → alloc_file_loop (file_pool_used s) 0 = Some h →
  file_open entries0 buf0 name_buf0 fuel (join comps) s =
  Ok (Some h, mkFs (set_pool (<[Z.to_nat i := f]> (fat_pool (fs_fat s))) (<[Z.to_nat i := true]> (fat_pool_used (fs_fat s))) (fs_fat s))
                   (<[Z.to_nat h := mkFh FAT_32 i (ff_size f)]> (file_pool s)) (<[Z.to_nat h := true]> (file_pool_used s)) (fs_hw s)).
Proof.
  intros V Hm Hne Hcs Hp Hl1 Hl2 Hi Hh. unfold file_open, alloc_handle.
  rewrite (bind_of_ok _ _ s (Some h) (set_files (file_pool s) (<[Z.to_nat h := true]> (file_pool_used s)) s)).
  2:{ unfold mbind, M_bind, gets. by rewrite Hh. }
  destruct (fat32_open_ok disk bpb start n (fs_fat s) entries0 buf0 name_buf0 fuel comps (Some f) i) as (Hi16 & Ho & _); [done..|].
  erewrite bind_of_ok; [|apply on_fat_ok; exact Ho]. done.
Qed.

(** Reading a file through the whole stack. *)
Definition boot_read (gpt0 tmp0 : list Z) (path : list Z) (count : Z) : M (fs_state A drive) (Z * list Z) :=
  r ← fs_init entries0 buf0 name_buf0 fuel gpt0 false (λ _ _, None) BOOT_DEVICE_IDE;
  o ← file_open entries0 buf0 name_buf0 fuel path;
  h ← of_option o;
  bs ← file_read buf0 fuel tmp0 h count;
  file_close (Some h) ;;
  mret (r, bs).
End boot.


(** ** Witness: a drive with one file *)

(** The partition table, then the volume of [Fat32]'s demonstration from sector 3 on. *)
Definition demo_gpt : list Z := zeros 160 ++ le_bytes 4 3 ++ zeros 348.
Definition demo_boot_disk : list (list Z) :=
  [zeros 512; zeros 512; demo_gpt; demo_bpb; demo_fat; demo_root; replicate 512 7; replicate 512 9].

#[local] Existing Instance Heap.vm_backing.
#[local] Existing Instance Heap.vm_laws.

Definition demo_fs_state : fs_state (Heap.heap_state Vmm.vmm_state) drive :=
  mkFs (mkFat Heap.heap_demo None (zeros 511) 0 (replicate 16 (mkFile 0 0 false)) (replicate 16 false))
    (replicate 16 (mkFh FAT_32 0 0)) (replicate 16 false) (demo_drive demo_boot_disk).

Lemma demo_boot_disk_ok : disk_ok demo_boot_disk.
Proof. apply (bool_decide_unpack _). vm_compute. exact I. Qed.

Lemma demo_boot_volume : volume_ok (sector_of demo_boot_disk) demo_bpb 3 3.
Proof.
  split; [|vm_compute; auto|lia| |vm_compute; discriminate|vm_compute; discriminate].
  - intros lba. apply sector_of_length, demo_boot_disk_ok.
  - apply (bool_decide_unpack _). vm_compute. exact I.
Qed.

Lemma demo_boot : boot_disk demo_boot_disk 3 [2].
Proof.
  assert (gpt_start demo_boot_disk = 3) as E by (vm_compute; reflexivity).
  assert (boot_bpb demo_boot_disk = demo_bpb) as Eb by (unfold boot_bpb; rewrite E; reflexivity).
  split; rewrite ?Eb, ?E.
  - vm_compute. reflexivity.
  - exact demo_boot_volume.
  - vm_compute. discriminate.
  - vm_compute. discriminate.
  - vm_compute. reflexivity.
  - split; [vm_compute; reflexivity|]. split; [lia|]. vm_compute. discriminate.
  - vm_compute. right. split; [discriminate|]. by left.
  - vm_compute. reflexivity.
Qed.

End File.
