(* ===== verification/Elf.v ===== *)
(** * The ELF loader ([kernel/filesystem/elf.c], [elf.h])

    [elf_load] reads a program file through the file layer into a heap buffer
    and builds its segments in a process's address space: it takes frames, maps
    them, and writes them through the direct map.  The state is that of the file
    layer over the kernel heap over the page layer.  The buffer is the list of
    its bytes, an access outside it a [Fault]; the messages on the serial port
    are left out. *)
From S2P Require Import Prelude Pmm Vmm Heap Space Kobj Bytes Fat32 UserSpace File.
Import Pmm Vmm Heap Space Kobj Bytes Fat32 UserSpace File.

Module Elf.

(** ** The format *)

Definition sizeof_elf_header : Z := 64.
Definition ELF_MAGIC : Z := 0x464c457f.

(** Fields of [elf_header]. *)
Definition program_entry (data : list Z) : Z := le64 data 24.
Definition program_offset (data : list Z) : Z := le64 data 32.
Definition program_entry_size (data : list Z) : Z := le16 data 54.
Definition program_entry_count (data : list Z) : Z := le16 data 56.

(** Loads from the buffer at a computed offset. *)
Definition rd32 (data : list Z) (o : Z) : option Z :=
  if o + 4 <=? Z.of_nat (length data) then Some (le32 data (Z.to_nat o)) else None.
Definition rd64 (data : list Z) (o : Z) : option Z :=
  if o + 8 <=? Z.of_nat (length data) then Some (le64 data (Z.to_nat o)) else None.
Definition rd_bytes (data : list Z) (o n : Z) : option (list Z) :=
  if n =? 0 then Some []
  else if o + n <=? Z.of_nat (length data) then Some (slice data (Z.to_nat o) (Z.to_nat n)) else None.

(** Where [prg_hdr] of entry [i] lies in the buffer. *)
Definition header_at (data : list Z) (i : Z) : Z := u64 (program_offset data + i * program_entry_size data).

Definition segment_flags (flags : Z) : Z :=
  let page_flags := Z.lor PAGE_PRESENT PAGE_USER in
  if truthy (Z.land flags 2) then Z.lor page_flags PAGE_WRITABLE else page_flags.

Definition segment_pages (size_mem : Z) : Z := u32 (u64 (size_mem + PAGE_SIZE - 1) / PAGE_SIZE).

(** ** The loader *)

Section ops.
Context {D : Type}.
Local Notation S := (fs_state (heap_state vmm_state) D).

(** Words of physical memory nothing has written; the uninitialised buffers. *)
Context (junk : Z → Z) (buf0 tmp0 magic0 data0 : list Z) (fuel : nat).

Definition on_heap {B} (m : M (heap_state vmm_state) B) : M S B := on_fat (zoom f_alloc Fat32.set_alloc m).
Definition on_pages {B} (m : M vmm_state B) : M S B := on_heap (on_back m).

(** A buffer after [file_read] has filled its beginning. *)
Definition filled_with (old bs : list Z) : list Z := bs ++ drop (length bs) old.

Definition load_segment (space : address_space) (data : list Z) (i : Z) : M S unit :=
  let prg_hdr := header_at data i in
  type ← of_option (rd32 data prg_hdr);
  if negb (type =? 1) then mret tt
  else
    flags ← of_option (rd32 data (prg_hdr + 4));
    offset ← of_option (rd64 data (prg_hdr + 8));
    vaddr ← of_option (rd64 data (prg_hdr + 16));
    size_file ← of_option (rd64 data (prg_hdr + 32));
    size_mem ← of_option (rd64 data (prg_hdr + 40));
    src ← of_option (rd_bytes data offset size_file);
    on_pages (fill_pages junk space vaddr (segment_pages size_mem) (segment_flags flags) src size_file (u64 (size_mem - size_file))).

Definition elf_load (h : Z) (space : address_space) : M S Z :=
  pool ← gets file_pool;
  f ← of_option (pool !! Z.to_nat h);
  if fh_size f <? sizeof_elf_header then mret 0
  else
    m ← file_read buf0 fuel tmp0 h 4;
    if negb (le32 (filled_with magic0 m) 0 =? ELF_MAGIC) then mret 0
    else
      p ← on_heap (kmalloc (fh_size f));
      bs ← file_read buf0 fuel tmp0 h (fh_size f);
      let data := filled_with data0 bs in
      if negb (byte data 0 =? 0x7F) || negb (byte data 1 =? 69) then mret 0
      else
        for_range (Z.to_nat (program_entry_count data)) 0 (load_segment space data) ;;
        on_heap (kfree p) ;;
        mret (program_entry data).
End ops.

(** ** Operations that leave the page layer alone *)

Section keeps.
Context {B : Type} {PB : PageBacking B}.

Definition keeps_back {A} (m : M (heap_state B) A) : Prop := ∀ s a s', m s = Ok (a, s') → back s' = back s.

Lemma keeps_bind {A C} (m : M (heap_state B) A) (f : A → M (heap_state B) C) :
  keeps_back m → (∀ a, keeps_back (f a)) → keeps_back (m ≫= f).
Proof. intros Hm Hf s c s' (a & s1 & H1 & H2)%bind_ok. rewrite (Hf _ _ _ _ H2). by apply (Hm _ _ _ H1). Qed.
Lemma keeps_ret {A} (a : A) : keeps_back (mret a).
Proof. by intros s a' s' [= _ <-]. Qed.
Lemma keeps_hload x : keeps_back (hload x).
Proof. intros s a s'. unfold hload. destruct (pg_valid _ _), (hmem s !! x); intros [= _ <-]; done. Qed.
Lemma keeps_hstore x v : keeps_back (hstore x v).
Proof. intros s a s'. unfold hstore. destruct (pg_valid _ _); by intros [= _ <-]. Qed.

Lemma kfree_keeps p : keeps_back (kfree p).
Proof.
  unfold kfree, coalesce_next, coalesce_prev, when.
  repeat first [apply keeps_bind; [|intros]|apply keeps_hload|apply keeps_hstore|apply keeps_ret|case_match].
Qed.
End keeps.

(** ** What a program file says *)

Definition seg_type (data : list Z) (i : Z) : Z := le32 data (Z.to_nat (header_at data i)).
Definition seg_flags (data : list Z) (i : Z) : Z := le32 data (Z.to_nat (header_at data i + 4)).
Definition seg_offset (data : list Z) (i : Z) : Z := le64 data (Z.to_nat (header_at data i + 8)).
Definition seg_vaddr (data : list Z) (i : Z) : Z := le64 data (Z.to_nat (header_at data i + 16)).
Definition seg_file (data : list Z) (i : Z) : Z := le64 data (Z.to_nat (header_at data i + 32)).
Definition seg_mem (data : list Z) (i : Z) : Z := le64 data (Z.to_nat (header_at data i + 40)).
Definition seg_pages (data : list Z) (i : Z) : Z := (seg_mem data i + 4095) / 4096.

(** The byte a program finds at offset [o] of a segment. *)
Definition seg_byte (data : list Z) (i o : Z) : Z :=
  if o <? seg_file data i then byte data (Z.to_nat (seg_offset data i + o)) else 0.

Definition loads (data : list Z) (i : Z) : Prop := 0 ≤ i < program_entry_count data ∧ seg_type data i = 1.

(** A loadable program: headers and contents inside the file, segments that
    start on a page and share none, all in the user half. *)
Record program_ok (data : list Z) : Prop := {
  po_bytes : Forall is_byte data;
  po_size : sizeof_elf_header ≤ Z.of_nat (length data) ≤ 2 ^ 31;
  po_magic : le32 data 0 = ELF_MAGIC;
  po_headers i : 0 ≤ i < program_entry_count data → program_offset data + i * program_entry_size data + 56 ≤ Z.of_nat (length data);
  po_aligned i : loads data i → seg_vaddr data i mod 4096 = 0;
  po_sizes i : loads data i → seg_file data i ≤ seg_mem data i ∧ 0 < seg_mem data i ≤ 2 ^ 31;
  po_contents i : loads data i → seg_offset data i + seg_file data i ≤ Z.of_nat (length data);
  po_user i : loads data i → seg_vaddr data i + seg_mem data i ≤ 2 ^ 47;
  po_disjoint i j : loads data i → loads data j → i < j →
    seg_vaddr data i + seg_pages data i * 4096 ≤ seg_vaddr data j ∨ seg_vaddr data j + seg_pages data j * 4096 ≤ seg_vaddr data i
}.

Lemma le64_range d i : Forall is_byte d → 0 ≤ le64 d i < 2 ^ 64.
Proof. intros H. unfold le64. pose proof (le32_range d i H). pose proof (le32_range d (i + 4) H). lia. Qed.

Lemma low_index v : 0 ≤ v < 2 ^ 47 → pml4_index v < 256.
Proof.
  intros Hv. unfold pml4_index. change 0x1FF with (Z.ones 9). rewrite Z.shiftr_div_pow2, Z.land_ones by lia. dlia.
Qed.

(** Positions in runs of pages of the user half. *)
Lemma page_off_low va o : va mod 4096 = 0 → 0 ≤ va → 0 ≤ o → va + o < 2 ^ 47 → page_off va (va + o) = o / 4096.
Proof. intros Ha Hv Ho Hb. unfold page_off, vpn. rewrite <- Zminus_mod, Z.mod_small; dlia. Qed.

Lemma page_off_disjoint va n va' n' u : 0 ≤ va → 0 ≤ va' → va mod 4096 = 0 → va' mod 4096 = 0 →
  va + n * 4096 ≤ 2 ^ 47 → va' + n' * 4096 ≤ 2 ^ 47 → 0 ≤ n → 0 ≤ n' →
  va + n * 4096 ≤ va' ∨ va' + n' * 4096 ≤ va → page_off va u < n → n' ≤ page_off va' u.
Proof.
  intros H1 H2 Ha Ha' Hb Hb' Hn Hn' Hd. unfold page_off.
  assert (vpn va = va / 4096) as -> by (unfold vpn; apply Z.mod_small; dlia).
  assert (vpn va' = va' / 4096) as -> by (unfold vpn; apply Z.mod_small; dlia).
  assert (0 ≤ vpn u < 2 ^ 36) by (apply Z.mod_pos_bound; lia). generalize dependent (vpn u). intros U HU. 
  dlia.
Qed.

Section program.
Context {data : list Z} (P : program_ok data).

Lemma header_in i : 0 ≤ i < program_entry_count data → header_at data i = program_offset data + i * program_entry_size data ∧
  0 ≤ header_at data i ∧ header_at data i + 56 ≤ Z.of_nat (length data).
Proof.
  intros Hi. pose proof (po_headers _ P i Hi). pose proof (po_size _ P). pose proof (le64_range data 32 (po_bytes _ P)).
  pose proof (le16_range data 54 (po_bytes _ P)). unfold header_at, program_offset, program_entry_size in *. rewrite u64_small by nia. split; [done|]. nia.
Qed.

Lemma seg_facts i : loads data i → segment_pages (seg_mem data i) = seg_pages data i ∧ 0 < seg_pages data i < 2 ^ 20 ∧
  0 ≤ seg_vaddr data i ∧ seg_vaddr data i + seg_pages data i * 4096 ≤ 2 ^ 47 ∧ seg_mem data i ≤ seg_pages data i * 4096 ∧
  0 ≤ seg_file data i ∧ 0 ≤ seg_offset data i.
Proof.
  intros Hi. pose proof (po_sizes _ P i Hi). pose proof (po_user _ P i Hi). pose proof (po_aligned _ P i Hi).
  unfold segment_pages, seg_pages, PAGE_SIZE. pose proof (le64_range data (Z.to_nat (header_at data i + 16)) (po_bytes _ P)).
  pose proof (le64_range data (Z.to_nat (header_at data i + 32)) (po_bytes _ P)). pose proof (le64_range data (Z.to_nat (header_at data i + 8)) (po_bytes _ P)).
  fold (seg_vaddr data i) (seg_file data i) (seg_offset data i) in *. generalize dependent (seg_vaddr data i). intros va Hu Ha Hv.
  rewrite (u64_small (seg_mem data i + 0x1000 - 1)) by lia. change 0x1000 with 4096.
  replace (seg_mem data i + 4096 - 1) with (seg_mem data i + 4095) by lia. rewrite u32_small by dlia. split_and!; dlia.
Qed.

(** The bytes of a segment as it is in memory. *)
Definition seg_image (i : Z) : list Z :=
  slice data (Z.to_nat (seg_offset data i)) (Z.to_nat (seg_file data i)) ++ replicate (Z.to_nat (seg_mem data i - seg_file data i)) 0.

Lemma seg_slice_length i : loads data i → length (slice data (Z.to_nat (seg_offset data i)) (Z.to_nat (seg_file data i))) = Z.to_nat (seg_file data i).
Proof. intros Hi. pose proof (po_contents _ P i Hi). pose proof (seg_facts i Hi). apply slice_length. lia. Qed.

Lemma seg_image_byte i o : loads data i → 0 ≤ o < seg_mem data i → byte (seg_image i) (Z.to_nat o) = seg_byte data i o.
Proof.
  intros Hi Ho. unfold seg_image, seg_byte, byte. pose proof (seg_facts i Hi) as (_ & _ & _ & _ & _ & Hf & Ho').
  pose proof (seg_slice_length i Hi) as Hl. destruct (Z.ltb_spec o (seg_file data i)).
  - rewrite app_nth1 by lia. unfold slice. rewrite nth_lookup, lookup_take, decide_True, lookup_drop by lia.
    rewrite <- nth_lookup. f_equal. lia.
  - rewrite app_nth2, nth_lookup, lookup_replicate_2 by lia. done.
Qed.
End program.

(** ** The loop over the program headers *)

Section load.
Context {D : Type} (junk : Z → Z) (buf0 tmp0 magic0 data0 : list Z) (fuel : nat).
Local Notation S := (fs_state (heap_state vmm_state) D).
Implicit Types s : S.

Definition heap_of s : heap_state vmm_state := f_alloc (fs_fat s).
Definition with_heap (a : heap_state vmm_state) s : S := set_fat (Fat32.set_alloc a (fs_fat s)) s.
Definition with_pages (b : vmm_state) s : S := with_heap (set_back b (heap_of s)) s.

Context {data : list Z} (P : program_ok data).
Context {b : vmm_state} {rk ru : Z} {Tk Tu : gmap (list Z) Z} (W : two_spaces b rk Tk ru Tu).

(** The page layer after the first [k] headers. *)
Record segments_loaded (k : Z) (b' : vmm_state) (Tu' : gmap (list Z) Z) : Prop := {
  sl_spaces : two_spaces b' rk Tk ru Tu';
  sl_kernel : ∀ v, xlate b' Tk v = xlate b Tk v;
  sl_user : ∀ u, (∀ i, i < k → loads data i → seg_pages data i ≤ page_off (seg_vaddr data i) u) → xlate b' Tu' u = xlate b Tu u;
  sl_pmm : grows (pmm b) (pmm b');
  sl_loaded : ∀ i, i < k → loads data i → ∃ p, loaded junk b' ru Tk Tu' (seg_vaddr data i) p (seg_pages data i)
    (segment_flags (seg_flags data i)) (seg_image (data := data) i)
}.

Lemma segments_start : segments_loaded 0 b Tu.
Proof. split; try done. intros i Hi [? _]. lia. Qed.

(** Skipping a header that is not loaded. *)
Lemma segments_skip k b' Tu' : segments_loaded k b' Tu' → ¬ loads data k → segments_loaded (k + 1) b' Tu'.
Proof.
  intros [H1 H2 H3 H4 H5] Hk. split; try done.
  - intros u Hu. apply H3. intros i Hi. apply Hu. lia.
  - intros i Hi Hl. apply H5; [|done]. destruct (decide (i = k)) as [->|]; [done|lia].
Qed.

Lemma segments_step k b1 Tu1 b2 Tu2 p : segments_loaded k b1 Tu1 → loads data k →
  filled junk (b := b1) (rk := rk) (ru := ru) (Tk := Tk) (Tu := Tu1) (seg_vaddr data k) (seg_pages data k) b2 Tu2 →
  loaded junk b2 ru Tk Tu2 (seg_vaddr data k) p (seg_pages data k) (segment_flags (seg_flags data k)) (seg_image (data := data) k) →
  segments_loaded (k + 1) b2 Tu2.
Proof.
  intros [H1 H2 H3 H4 H5] Hk [F1 F2 F3 F4 F5] Hld. split; [done|intros v; by rewrite F2| |by eapply grows_trans|].
  - intros u Hu. rewrite F3 by (apply Hu; [lia|done]). apply H3. intros i Hi. apply Hu. lia.
  - intros i Hi Hl. destruct (decide (i = k)) as [->|Hne]; [by exists p|].
    destruct (H5 i ltac:(lia) Hl) as [q Hq]. exists q. apply F5; [done|]. intros u.
    destruct (seg_facts P i Hl) as (_ & ? & ? & ? & _). destruct (seg_facts P k Hk) as (_ & ? & ? & ? & _).
    apply page_off_disjoint; try done; try lia; [by apply (po_aligned _ P)|by apply (po_aligned _ P)|].
    apply (po_disjoint _ P i k); try done. lia.
Qed.

Lemma rd_seg i : 0 ≤ i < program_entry_count data →
  let o := header_at data i in
  rd32 data o = Some (seg_type data i) ∧ rd32 data (o + 4) = Some (seg_flags data i) ∧ rd64 data (o + 8) = Some (seg_offset data i) ∧
  rd64 data (o + 16) = Some (seg_vaddr data i) ∧ rd64 data (o + 32) = Some (seg_file data i) ∧ rd64 data (o + 40) = Some (seg_mem data i).
Proof.
  intros Hi o. destruct (header_in P i Hi) as (_ & H0 & H1). fold o in H0, H1. unfold rd32, rd64.
  repeat match goal with |- context [?x <=? ?y] => rewrite (proj2 (Z.leb_le x y)) by lia end. done.
Qed.

Lemma rd_seg_bytes i : loads data i →
  rd_bytes data (seg_offset data i) (seg_file data i) = Some (slice data (Z.to_nat (seg_offset data i)) (Z.to_nat (seg_file data i))).
Proof.
  intros Hi. unfold rd_bytes. destruct (Z.eqb_spec (seg_file data i) 0) as [->|]; [done|].
  by rewrite (proj2 (Z.leb_le _ _) (po_contents _ P i Hi)).
Qed.

Lemma on_pages_wp {A} (m : M vmm_state A) s b1 (Q : A → S → Prop) E :
  wp m (λ a b2, Q a (with_pages b2 s)) E b1 → wp (on_pages m) Q E (with_pages b1 s).
Proof. intros H. unfold on_pages, on_heap, on_fat. do 3 apply wp_zoom. cbn. exact H. Qed.

Lemma load_segment_ok s k b1 Tu1 : segments_loaded k b1 Tu1 → 0 ≤ k < program_entry_count data →
  wp (load_segment junk (space_at ru) data k) (λ _ s', ∃ b2 Tu2, s' = with_pages b2 s ∧ segments_loaded (k + 1) b2 Tu2)
    (λ _, True) (with_pages b1 s).
Proof.
  intros Hs Hk. destruct (rd_seg k Hk) as (R1 & R2 & R3 & R4 & R5 & R6). unfold load_segment. rewrite R1.
  apply wp_bind, wp_ret. destruct (Z.eqb_spec (seg_type data k) 1) as [E|E]; cbn [negb]; last first.
  { apply wp_ret. exists b1, Tu1. split; [done|]. apply segments_skip; [done|]. by intros [_ ?]. }
  assert (loads data k) as Hl by done. rewrite R2, R3, R4, R5, R6. do 5 apply wp_bind, wp_ret.
  rewrite (rd_seg_bytes k Hl). apply wp_bind, wp_ret.
  destruct (seg_facts P k Hl) as (-> & Hn & Hv0 & Hv & Hm & Hf & _). pose proof (po_sizes _ P k Hl) as Hsz.
  rewrite u64_small by lia. pose proof (seg_slice_length P k Hl) as Hsl.
  apply on_pages_wp. replace (seg_file data k) with (Z.of_nat (length (slice data (Z.to_nat (seg_offset data k)) (Z.to_nat (seg_file data k)))))
    at 2 by lia.
  eapply wp_mono; [apply (fill_pages_ok junk (sl_spaces _ _ _ Hs)); try done; try lia| |done].
  - intros j Hj. apply low_index. unfold PAGE_SIZE. rewrite u64_small by lia. lia.
  - apply Forall_take, Forall_drop, P.
  - intros [] b2 (Tu2 & p & Hfl & Hld). exists b2, Tu2. split; [done|]. by eapply segments_step.
Qed.

Lemma load_segments_ok s : wp (for_range (Z.to_nat (program_entry_count data)) 0 (load_segment junk (space_at ru) data))
  (λ _ s', ∃ b2 Tu2, s' = with_pages b2 s ∧ segments_loaded (program_entry_count data) b2 Tu2) (λ _, True) (with_pages b s).
Proof.
  pose proof (le16_range data 56 (po_bytes _ P)) as Hc. fold (program_entry_count data) in Hc.
  eapply wp_mono; [apply (for_range_inv (λ k s', ∃ b2 Tu2, s' = with_pages b2 s ∧ segments_loaded k b2 Tu2))| |done].
  - exists b, Tu. split; [done|apply segments_start].
  - intros k t Hk (b1 & Tu1 & -> & Hs). apply (load_segment_ok s k b1 Tu1); [done|lia].
  - intros [] s'. by replace (0 + Z.of_nat (Z.to_nat (program_entry_count data))) with (program_entry_count data) by lia.
Qed.

(** A loaded byte, seen through the process's address space. *)
Lemma loaded_read b' Tu' i p o : two_spaces b' rk Tk ru Tu' → loads data i → 0 ≤ o < seg_mem data i →
  loaded junk b' ru Tk Tu' (seg_vaddr data i) p (seg_pages data i) (segment_flags (seg_flags data i)) (seg_image (data := data) i) →
  xlate b' Tu' (seg_vaddr data i + o) = Some (leaf_entry ((p + o / 4096) * 4096) (segment_flags (seg_flags data i))) ∧
  vmm_virt_to_phys (space_at ru) (seg_vaddr data i + o) b' = Ok (p * 4096 + o, b') ∧
  load8 junk (mem b') (PHYS_TO_HHDM (p * 4096 + o)) = seg_byte data i o.
Proof.
  intros W' Hi Ho Hld. destruct (seg_facts P i Hi) as (_ & Hn & Hv0 & Hv & Hm & Hf & _). pose proof (po_aligned _ P i Hi) as Ha.
  pose proof (loaded_bound junk W' Hld) as Hb. pose proof Hld as [[Hx _ _ _] _ _ Hby].
  assert (page_off (seg_vaddr data i) (seg_vaddr data i + o) = o / 4096) as Hoff by (apply page_off_low; try done; lia).
  assert (xlate b' Tu' (seg_vaddr data i + o) = Some (leaf_entry ((p + o / 4096) * 4096) (segment_flags (seg_flags data i)))) as Hxl.
  { rewrite Hx, Hoff; [done|]. rewrite Hoff. dlia. }
  split; [done|]. split.
  - rewrite (virt_to_phys_ok (ts_user _ _ _ _ _ W')), Hxl. do 2 f_equal.
    assert (Z.land (segment_flags (seg_flags data i)) PAGE_ADDR_MASK = 0) as Hfl by (unfold segment_flags; by destruct (truthy _)).
    rewrite leaf_entry_addr, land_addr_mask_frame by (done || (by apply Z.mod_mul) || dlia).
    change 0xFFF with (Z.ones 12). rewrite Z.land_ones by lia. change (2 ^ 12) with 4096.
    rewrite lor_low; [dlia|by apply Z.mod_mul|apply Z.mod_pos_bound; lia].
  - rewrite <- (seg_image_byte P i o Hi Ho), <- (Hby o).
    + f_equal. rewrite !hhdm_phys by dlia. lia.
    + unfold seg_image. rewrite length_app, length_replicate, (seg_slice_length P i Hi). pose proof (po_sizes _ P i Hi). lia.
Qed.
End load.

(** ** The whole loader *)

Section elf_load.
Context {D : Type} (junk : Z → Z) (buf0 tmp0 magic0 data0 : list Z) (fuel : nat).
Local Notation S := (fs_state (heap_state vmm_state) D).
Implicit Types s : S.
Context (disk : Z → list Z) (bpb : list Z) (start nclusters : Z) (V : volume_ok disk bpb start nclusters).
Context (Hb0 : (length buf0 ≤ 512)%nat) (Ht0 : Z.of_nat (length tmp0) ≤ spc bpb * 512).

(** Handle [h] is an open file of [size] bytes in the clusters [cl]. *)
Record opened s (h size : Z) (cl : list Z) : Prop := {
  op_mounted : mounted disk bpb start nclusters (fs_fat s);
  op_file : ∃ priv f, file_pool s !! Z.to_nat h = Some (mkFh FAT_32 priv size) ∧ fat_pool (fs_fat s) !! Z.to_nat priv = Some f ∧
    chain disk bpb start nclusters (ff_first_cluster f) cl;
  op_fuel : (length cl < fuel)%nat
}.

Lemma opened_heap s a h size cl : opened s h size cl → opened (with_heap a s) h size cl.
Proof. intros [[M1 M2 M3] Hf Hl]. by split; [split|..]. Qed.

Lemma file_read_ok {LL : AllocLaws (heap_state vmm_state)} s h size cl L count : opened s h size cl → 0 ≤ count → al_live (heap_of s) L →
  wp (file_read buf0 fuel tmp0 h count) (λ bs s', bs = take (Z.to_nat count) (concat (map (cluster_data disk bpb start) cl)) ∧
    ∃ a, s' = with_heap a s ∧ al_live a L) (λ _, True) s.
Proof.
  intros [Hm (priv & f & H1 & H2 & H3) Hl] Hc HL. unfold file_read. eapply wp_bind, wp_ok; [reflexivity|]. rewrite H1.
  apply wp_bind, wp_ret. cbn [fh_priv]. apply wp_zoom.
  eapply wp_mono; [by apply (fat32_read_ok _ _ _ _ V buf0 _ L fuel tmp0 priv count f cl)| |done].
  intros bs fa (-> & a & -> & Ha). split; [done|]. by exists a.
Qed.

Lemma filled_whole old bs : (length old ≤ length bs)%nat → filled_with old bs = bs.
Proof. intros H. unfold filled_with. rewrite drop_ge by done. apply app_nil_r. Qed.

Lemma magic_bytes d : Forall is_byte d → le32 d 0 = ELF_MAGIC → byte d 0 = 0x7F ∧ byte d 1 = 69.
Proof.
  intros Hb. unfold le32, le16, ELF_MAGIC. simpl Nat.add. pose proof (byte_range d 0 Hb). pose proof (byte_range d 1 Hb).
  pose proof (byte_range d 2 Hb). pose proof (byte_range d 3 Hb). change (2 ^ 8) with 256. change (2 ^ 16) with 65536. lia.
Qed.

Lemma le32_take_4 d : le32 (take 4 d) 0 = le32 d 0.
Proof. by destruct d as [|? [|? [|? [|? d]]]]. Qed.

(** What the loader has done: the program is in memory where its headers say. *)
Definition program_loaded (data : list Z) (ru : Z) (F F' : Z → option Z) (b : vmm_state) : Prop :=
  (∀ i o, loads data i → 0 ≤ o < seg_mem data i → ∃ pa,
    vmm_virt_to_phys (space_at ru) (seg_vaddr data i + o) b = Ok (pa, b) ∧
    load8 junk (mem b) (PHYS_TO_HHDM pa) = seg_byte data i o ∧
    F' (seg_vaddr data i + o) = Some (leaf_entry (pa / 4096 * 4096) (segment_flags (seg_flags data i)))) ∧
  ∀ u, pml4_index u < 256 → (∀ i, loads data i → seg_pages data i ≤ page_off (seg_vaddr data i) u) → F' u = F u.

Lemma segments_program data rk ru Tk Tu b b' Tu' F : program_ok data →
  segments_loaded junk (data := data) (b := b) (rk := rk) (ru := ru) (Tk := Tk) (Tu := Tu) (program_entry_count data) b' Tu' →
  (∀ v, pml4_index v < 256 → xlate b Tu v = F v) → program_loaded data ru F (xlate b' Tu') b'.
Proof.
  intros P [H1 H2 H3 H4 H5] HF. split.
  - intros i o Hi Ho. destruct (H5 i (proj2 (proj1 Hi)) Hi) as [p Hp].
    destruct (loaded_read junk P b' Tu' i p o H1 Hi Ho Hp) as (R1 & R2 & R3). exists (p * 4096 + o).
    split; [done|]. split; [done|]. rewrite R1. do 2 f_equal. dlia.
  - intros u Hu Ho. rewrite H3; [by apply HF|]. intros i _. apply Ho.
Qed.

(** The heap invariant for the process's new view. *)
Lemma segments_heap data rk ru Tk Tu b' Tu' F (a : heap_state vmm_state) l :
  heap_wf (PL := user_laws ru F) a l → two_spaces (back a) rk Tk ru Tu →
  segments_loaded junk (data := data) (b := back a) (rk := rk) (ru := ru) (Tk := Tk) (Tu := Tu) (program_entry_count data) b' Tu' →
  heap_wf (PL := user_laws ru (xlate b' Tu')) (set_back b' a) l.
Proof.
  intros Wf W [H1 H2 H3 H4 H5]. pose proof (hr_cap _ _ (proj1 Wf)) as [Hc1 Hc2]. cbn in Hc1, Hc2.
  assert (0 ≤ vm_free b' ≤ vm_free (back a)) as Hfr.
  { pose proof (used_frames_range _ (wf_bitmap _ (vs_pmm _ _ _ (ts_user _ _ _ _ _ H1)))).
    pose proof (grows_frames _ _ H4). pose proof (gw_pages _ _ H4). unfold vm_free. lia. }
  apply (back_relax (user_laws ru (xlate b' Tu')) a l b' Wf).
  - exists rk, Tk, Tu'. done.
  - done.
  - cbn. unfold PAGE_SIZE in *. lia.
  - intros x. cbn. rewrite (vm_valid_xlate _ _ _ _ (ts_kernel _ _ _ _ _ W) (ts_kspace _ _ _ _ _ W)).
    rewrite (vm_valid_xlate _ _ _ _ (ts_kernel _ _ _ _ _ H1) (ts_kspace _ _ _ _ _ H1)), H2. done.
Qed.

(** The page layer alone: the heap is not touched by the loop, and freeing the
    buffer does not touch the pages. *)
Lemma load_and_free data ru F s (a : heap_state vmm_state) p w L : program_ok data →
  al_live (AllocLaws := heap_alloc_laws (PL := user_laws ru F)) a (<[p := w]> L) → L !! p = None →
  wp (for_range (Z.to_nat (program_entry_count data)) 0 (load_segment junk (space_at ru) data) ;; on_heap (kfree p) ;; mret (program_entry data))
    (λ entry s', entry = program_entry data ∧ ∃ a' F', s' = with_heap a' s ∧
       al_live (AllocLaws := heap_alloc_laws (PL := user_laws ru F')) a' L ∧ program_loaded data ru F F' (back a'))
    (λ _, True) (with_heap a s).
Proof.
  intros P (l & Wf & Hlive) Hp. destruct (hr_inv _ _ (proj1 Wf)) as (rk & Tk & Tu & W & HF). apply wp_bind.
  assert (with_heap a s = with_pages (back a) (with_heap a s)) as -> by (by destruct a).
  eapply wp_mono; [apply (load_segments_ok junk P W)| |done]. intros [] t (b2 & Tu2 & -> & Hseg). cbv beta.
  pose proof (segments_heap data rk ru Tk Tu b2 Tu2 F a l Wf W Hseg) as Wf2.
  assert (live KERNEL_HEAP l !! p = Some w) as Hlp by (rewrite Hlive; apply lookup_insert_eq).
  destruct (wp_run _ _ _ (kfree_ok (set_back b2 a) l p w Wf2 Hlp)) as ([] & a' & Hk & (l' & Wf3 & Hl3)).
  assert (on_heap (kfree p) (with_pages b2 (with_heap a s)) = Ok (tt, with_heap a' s)) as Hfree.
  { unfold on_heap, on_fat, zoom. cbn. change (f_alloc _) with (set_back b2 a). by rewrite Hk. }
  eapply wp_bind, wp_ok; [exact Hfree|]. apply wp_ret. split; [done|]. exists a', (xlate b2 Tu2). split; [done|]. split.
  - exists l'. split; [done|]. rewrite Hl3, Hlive. by apply delete_insert_id.
  - assert (back a' = b2) as -> by apply (kfree_keeps p _ _ _ Hk). by eapply segments_program.
Qed.

Lemma elf_load_ok s h size cl ru F L data :
  opened s h size cl → data = take (Z.to_nat size) (concat (map (cluster_data disk bpb start) cl)) →
  Z.of_nat (length data) = size → program_ok data → (length magic0 ≤ 4)%nat → (length data0 ≤ length data)%nat →
  al_live (AllocLaws := heap_alloc_laws (PL := user_laws ru F)) (heap_of s) L →
  wp (elf_load junk buf0 tmp0 magic0 data0 fuel h (space_at ru))
    (λ entry s', entry = program_entry data ∧ ∃ a' F', s' = with_heap a' s ∧
       al_live (AllocLaws := heap_alloc_laws (PL := user_laws ru F')) a' L ∧ program_loaded data ru F F' (back a'))
    (λ _, True) s.
Proof.
  intros Ho Hd Hsz P Hmg Hd0 HL. pose proof (po_size _ P) as Hps. unfold sizeof_elf_header in Hps. unfold elf_load.
  destruct (op_file _ _ _ _ Ho) as (priv & f & H1 & _). eapply wp_bind, wp_ok; [reflexivity|]. rewrite H1. apply wp_bind, wp_ret.
  cbn [fh_size]. rewrite (proj2 (Z.ltb_ge size _)) by (unfold sizeof_elf_header; lia).
  apply wp_bind. eapply wp_mono; [apply (file_read_ok (LL := heap_alloc_laws (PL := user_laws ru F)) s h size cl L 4 Ho); [lia|done]| |done].
  intros m s1 (-> & a1 & -> & HL1). set (c := concat _) in *.
  assert (take (Z.to_nat 4) c = take 4 data) as ->.
  { rewrite Hd, take_take. by replace (4 `min` Z.to_nat size)%nat with 4%nat by lia. }
  rewrite filled_whole by (rewrite length_take; lia). rewrite le32_take_4, (po_magic _ P), Z.eqb_refl. cbn [negb].
  destruct HL1 as (l1 & Wf1 & Hl1). apply wp_bind. unfold on_heap at 1, on_fat. do 2 apply wp_zoom.
  eapply wp_mono; [apply (kmalloc_ok _ l1 size Wf1); lia| |done]. intros p a2 (l2 & w & Wf2 & _ & _ & Hpn & Hl2). rewrite Hl1 in *.
  apply wp_bind. change (set_fat _ _) with (with_heap a2 s).
  eapply wp_mono; [apply (file_read_ok (LL := heap_alloc_laws (PL := user_laws ru F)) (with_heap a2 s) h size cl (<[p := w]> L) size)| |done].
  { by apply opened_heap. } { lia. } { by exists l2. }
  intros bs s3 (-> & a3 & -> & HL3). fold c. rewrite <- Hd, filled_whole by done.
  destruct (magic_bytes data (po_bytes _ P) (po_magic _ P)) as [-> ->]. cbn [Z.eqb Pos.eqb negb orb].
  by apply (load_and_free data ru F s a3 p w L).
Qed.
End elf_load.

(** ** A new process image *)

(** As [process_exec] does it: create the address space, then load the program into
    it.  [elf_load] is handed the struct the pointer refers to. *)
Definition load_image {D} (junk : Z → Z) (buf0 tmp0 magic0 data0 : list Z) (fuel : nat) (h : Z) :
    M (fs_state (heap_state vmm_state) D) (Z * Z) :=
  space ← on_heap vmm_create_address_space;
  p ← on_heap (hload (pml4_phys_of space));
  t ← on_heap (hload (pml4_of space));
  entry ← elf_load junk buf0 tmp0 magic0 data0 fuel h (mkSpace p t);
  mret (space, entry).


(** ** Witness: a program of one segment *)

Definition demo_phdr (type flags offset vaddr size_file size_mem : Z) : list Z :=
  le_bytes 4 type ++ le_bytes 4 flags ++ le_bytes 8 offset ++ le_bytes 8 vaddr ++ zeros 8 ++
  le_bytes 8 size_file ++ le_bytes 8 size_mem ++ zeros 8.

(** Four bytes of code in a segment of eight, and a header that is not loaded. *)
Definition demo_elf : list Z :=
  [0x7F; 69; 76; 70] ++ zeros 20 ++ le_bytes 8 0x400000 ++ le_bytes 8 64 ++ zeros 14 ++ le_bytes 2 56 ++ le_bytes 2 2 ++ zeros 6 ++
  demo_phdr 1 5 176 0x400000 4 8 ++ demo_phdr 6 0 0 0 0 0 ++ [144; 144; 235; 254].

Definition demo_elf_disk (lba : Z) : list Z :=
  if lba =? 0 then demo_bpb else if lba =? 1 then demo_fat else if lba =? 2 then demo_root
  else if lba =? 3 then demo_elf ++ zeros 332 else replicate 512 9.

Definition demo_elf_state : fs_state (heap_state vmm_state) unit :=
  mkFs (mkFat heap_demo (Some (disk_fn demo_elf_disk)) demo_bpb 0 (mkFile 3 180 false :: replicate 15 (mkFile 0 0 false)) (true :: replicate 15 false))
    (mkFh FAT_32 0 180 :: replicate 15 (mkFh FAT_32 0 0)) (true :: replicate 15 false) tt.

Lemma demo_elf_volume : volume_ok demo_elf_disk demo_bpb 0 3.
Proof.
  split; [|vm_compute; auto|lia| |vm_compute; discriminate|vm_compute; discriminate].
  - intros lba. unfold demo_elf_disk. repeat (destruct (_ =? _); [vm_compute; reflexivity|]). vm_compute. reflexivity.
  - apply (bool_decide_unpack _). vm_compute. exact I.
Qed.

Lemma demo_elf_opened : opened 3 demo_elf_disk demo_bpb 0 3 demo_elf_state 0 180 [3; 4].
Proof.
  split; [split; [by exists (disk_fn demo_elf_disk)|done..]| |simpl; lia].
  exists 0, (mkFile 3 180 false). split; [done|]. split; [done|].
  split; [done|]. split; [lia|]. split; [vm_compute; reflexivity|]. split; [lia|]. vm_compute. discriminate.
Qed.

Lemma demo_elf_loads i : loads demo_elf i → i = 0.
Proof.
  intros [Hi Ht]. change (program_entry_count demo_elf) with 2 in Hi. assert (i = 0 ∨ i = 1) as [->| ->] by lia; [done|].
  vm_compute in Ht. discriminate.
Qed.

Lemma demo_elf_ok : program_ok demo_elf.
Proof.
  split.
  - apply (bool_decide_unpack _). vm_compute. exact I.
  - vm_compute. split; discriminate.
  - vm_compute. reflexivity.
  - change (program_entry_count demo_elf) with 2. change (program_offset demo_elf) with 64. change (program_entry_size demo_elf) with 56.
    change (length demo_elf) with 180%nat. lia.
  - intros i ->%demo_elf_loads. vm_compute. reflexivity.
  - intros i ->%demo_elf_loads. vm_compute. intuition discriminate.
  - intros i ->%demo_elf_loads. vm_compute. discriminate.
  - intros i ->%demo_elf_loads. vm_compute. discriminate.
  - intros i j ->%demo_elf_loads ->%demo_elf_loads. lia.
Qed.

Lemma demo_window_heap : heap_wf (PL := window_laws) heap_demo [(16352, true)].
Proof.
  assert (KERNEL_HEAP + PAGE_SIZE * pg_free (PageLaws := window_laws) (back heap_boot) ≤ pg_limit vmm_state (PageLaws := window_laws)) as Hc
    by (vm_compute; congruence).
  exact (proj1 (wp_use _ _ _ _ _ _ (heap_init_ok (PL := window_laws) heap_boot heap_vm_inv Hc) heap_demo_runs)).
Qed.


End Elf.
