(* ===== verification/Clock.v ===== *)
(** * The clock ([kernel/io/rtc.c], [time.c], [timer.c], [pic.c], and
      [user/lib/time.h])

    The kernel reads the real-time clock once, at boot, as seconds since 1970,
    and counts timer ticks from there; programs turn the count back into a
    calendar date.  The real-time clock, the interval timer and the interrupt
    controllers are devices behind the ports. *)
From S2P Require Import Prelude Ports.

Module Clock.

(** ** The real-time clock *)

Definition CMOS_ADDR : Z := 0x70.
Definition CMOS_DATA : Z := 0x71.

Record rtc_time := mkRtc { r_second : Z; r_minute : Z; r_hour : Z; r_day : Z; r_month : Z; r_year : Z }.

Definition bcd_to_bin (bcd : Z) : Z := u8 (Z.land bcd 0x0F + Z.shiftr bcd 4 * 10).

Section rtc.
Context {D : Type} `{!Ports D}.

Definition cmos_read (reg : Z) : M D Z :=
  outb CMOS_ADDR reg ;;
  inb CMOS_DATA.

(** [while (cmos_read(0x0A) & 0x80);] *)
Fixpoint wait_update (fuel : nat) : M D unit :=
  match fuel with
  | O => no_fuel
  | S fuel' =>
      a ← cmos_read 0x0A;
      if truthy (Z.land a 0x80) then wait_update fuel' else mret tt
  end.

Definition rtc_read (fuel : nat) : M D rtc_time :=
  wait_update fuel ;;
  second ← cmos_read 0x00;
  minute ← cmos_read 0x02;
  hour ← cmos_read 0x04;
  day ← cmos_read 0x07;
  month ← cmos_read 0x08;
  year ← cmos_read 0x09;
  century ← cmos_read 0x32;
  status_b ← cmos_read 0x0B;
  let conv := if negb (truthy (Z.land status_b 0x04)) then bcd_to_bin else id in
  mret (mkRtc (conv second) (conv minute) (conv hour) (conv day) (conv month)
              (u32 ((if truthy (conv century) then conv century * 100 else 2000) + conv year))).
End rtc.

Definition is_leap (y : Z) : bool := ((y mod 4 =? 0) && negb (y mod 100 =? 0)) || (y mod 400 =? 0).

Definition days_in_month : list Z := [31; 28; 31; 30; 31; 30; 31; 31; 30; 31; 30; 31].

(** The two loops of [rtc_unix_timestamp]: over [n] years from [y], over [n] months from [m]. *)
Fixpoint year_days (n : nat) (y days : Z) : Z :=
  match n with
  | O => days
  | S n' => year_days n' (y + 1) (u64 (days + (if is_leap y then 366 else 365)))
  end.
Fixpoint month_days (n : nat) (m year days : Z) : option Z :=
  match n with
  | O => Some days
  | S n' =>
      d ← days_in_month !! Z.to_nat (m - 1);
      let days := u64 (days + d) in
      month_days n' (m + 1) year (if (m =? 2) && is_leap year then u64 (days + 1) else days)
  end.

Definition timestamp (t : rtc_time) : option Z :=
  let days := year_days (Z.to_nat (r_year t - 1970)) 1970 0 in
  days ← month_days (Z.to_nat (r_month t - 1)) 1 (r_year t) days;
  let days := u64 (days + (r_day t - 1)) in
  Some (u64 (days * 86400 + r_hour t * 3600 + r_minute t * 60 + r_second t)).

Definition rtc_unix_timestamp {D} `{!Ports D} (fuel : nat) : M D Z :=
  t ← rtc_read fuel;
  of_option (timestamp t).

(** ** Time since boot *)

Record clock (D : Type) := mkClock { g_boot_timestamp : Z; g_timer_ticks : Z; g_timer_frequency : Z; ck_hw : D }.
Arguments mkClock {D}.
Arguments g_boot_timestamp {D}.
Arguments g_timer_ticks {D}.
Arguments g_timer_frequency {D}.
Arguments ck_hw {D}.

Definition PIT_COMMAND : Z := 0x43.
Definition PIT_CHANNEL0 : Z := 0x40.
Definition PIT_BASE_FREQUENCY : Z := 1193182.

Section time.
Context {D : Type} `{!Ports D}.
Local Notation C := (clock D).

Definition set_ck_hw (d : D) (c : C) : C := mkClock (g_boot_timestamp c) (g_timer_ticks c) (g_timer_frequency c) d.
Definition on_hw {A} (m : M D A) : M C A := zoom ck_hw set_ck_hw m.

Definition timer_init (frequency : Z) : M C unit :=
  let frequency := if frequency =? 0 then 100 else frequency in
  modify (λ c, mkClock (g_boot_timestamp c) (g_timer_ticks c) frequency (ck_hw c)) ;;
  let divisor := u16 (PIT_BASE_FREQUENCY / frequency) in
  on_hw (outb PIT_COMMAND 0x34 ;;
         outb PIT_CHANNEL0 (Z.land divisor 0xFF) ;;
         outb PIT_CHANNEL0 (Z.land (Z.shiftr divisor 8) 0xFF)).

(** [g_timer_ticks++] of the timer interrupt, an [int]. *)
Definition timer_tick : M C unit :=
  modify (λ c, mkClock (g_boot_timestamp c) (i32 (g_timer_ticks c + 1)) (g_timer_frequency c) (ck_hw c)).

Definition time_init (fuel : nat) : M C unit :=
  ts ← on_hw (rtc_unix_timestamp fuel);
  modify (λ c, mkClock ts (g_timer_ticks c) (g_timer_frequency c) (ck_hw c)).

(** Division by an unset frequency is a processor exception. *)
Definition udiv (a b : Z) : M C Z := if b =? 0 then fault else mret (a / b).

Definition time_unix : M C Z :=
  c ← get;
  q ← udiv (u64 (g_timer_ticks c)) (g_timer_frequency c);
  mret (u64 (g_boot_timestamp c + q)).

Definition time_unix_millis : M C Z :=
  c ← get;
  q ← udiv (u64 (u64 (g_timer_ticks c) * 1000)) (g_timer_frequency c);
  mret (u64 (u64 (g_boot_timestamp c * 1000) + q)).

Definition time_sys_millis : M C Z :=
  c ← get;
  udiv (u64 (u64 (g_timer_ticks c) * 1000)) (g_timer_frequency c).
End time.

(** ** The calendar date a program sees *)

Record datetime := mkDate { dt_year : Z; dt_month : Z; dt_day : Z; dt_hour : Z; dt_min : Z; dt_sec : Z }.

Definition is_leap_year (y : Z) : bool := ((y mod 4 =? 0) && negb (y mod 100 =? 0)) || (y mod 400 =? 0).

(** The [while (1)] loop over the years. *)
Fixpoint find_year (fuel : nat) (y ts : Z) : outcome (Z * Z) :=
  match fuel with
  | O => NoFuel
  | S fuel' =>
      let days := if is_leap_year y then 366 else 365 in
      if ts <? days then Ok (y, ts) else find_year fuel' (u32 (y + 1)) (ts - days)
  end.

(** The loop over the months, [mdays] from month [m] on. *)
Fixpoint find_month (mdays : list Z) (m ts : Z) : Z * Z :=
  match mdays with
  | [] => (m, ts)
  | d :: mdays' => if ts <? d then (m, ts) else find_month mdays' (m + 1) (ts - d)
  end.

Definition to_datetime (ts : Z) : outcome datetime :=
  let sec := ts mod 60 in
  let ts := ts / 60 in
  let min := ts mod 60 in
  let ts := ts / 60 in
  let hour := ts mod 24 in
  let ts := ts / 24 in
  match find_year (S (Z.to_nat (ts / 365))) 1970 ts with
  | Ok (y, ts) =>
      let mdays := [31; if is_leap_year y then 29 else 28; 31; 30; 31; 30; 31; 31; 30; 31; 30; 31] in
      let '(m, ts) := find_month mdays 1 ts in
      Ok (mkDate y m (u32 (ts + 1)) hour min sec)
  | Panic e => Panic e
  | Fault => Fault
  | NoFuel => NoFuel
  end.

(** [time_now], with the value [sys_time] returned. *)
Definition time_now {D} `{!Ports D} : M (clock D) datetime :=
  ts ← time_unix;
  match to_datetime ts with Ok d => mret d | Panic e => panic e | Fault => fault | NoFuel => no_fuel end.

(** ** The calendar, in closed form *)

Definition leaps (y : Z) : Z := y / 4 - y / 100 + y / 400.

(** Days from 1970-01-01 to the first of January of [y]. *)
Definition days_to_year (y : Z) : Z := 365 * (y - 1970) + (leaps (y - 1) - leaps 1969).

Definition days_to_month (y m : Z) : Z :=
  nth (Z.to_nat (m - 1)) [0; 31; 59; 90; 120; 151; 181; 212; 243; 273; 304; 334] 0 + (if is_leap y && (2 <? m) then 1 else 0).

Definition month_length (y m : Z) : Z :=
  if m =? 2 then (if is_leap y then 29 else 28) else if (m =? 4) || (m =? 6) || (m =? 9) || (m =? 11) then 30 else 31.

Definition unix_seconds (d : datetime) : Z :=
  86400 * (days_to_year (dt_year d) + days_to_month (dt_year d) (dt_month d) + (dt_day d - 1)) +
  3600 * dt_hour d + 60 * dt_min d + dt_sec d.

Record date_ok (d : datetime) : Prop := {
  do_year : 1970 ≤ dt_year d;
  do_month : 1 ≤ dt_month d ≤ 12;
  do_day : 1 ≤ dt_day d ≤ month_length (dt_year d) (dt_month d);
  do_hour : 0 ≤ dt_hour d < 24;
  do_min : 0 ≤ dt_min d < 60;
  do_sec : 0 ≤ dt_sec d < 60
}.

Definition year_length (y : Z) : Z := if is_leap y then 366 else 365.

Lemma div_step y k : 0 < k → y / k - (y - 1) / k = Z.b2z (y mod k =? 0).
Proof. intros Hk. destruct (Z.eqb_spec (y mod k) 0); cbn [Z.b2z]; Z.to_euclidean_division_equations; nia. Qed.

Lemma leap_step y : leaps y - leaps (y - 1) = Z.b2z (is_leap y).
Proof.
  unfold leaps, is_leap. assert (y mod 100 = 0 → y mod 4 = 0) by (intros; dlia). assert (y mod 400 = 0 → y mod 100 = 0) by (intros; dlia).
  pose proof (div_step y 4 ltac:(lia)). pose proof (div_step y 100 ltac:(lia)). pose proof (div_step y 400 ltac:(lia)).
  destruct (Z.eqb_spec (y mod 4) 0), (Z.eqb_spec (y mod 100) 0), (Z.eqb_spec (y mod 400) 0); cbn [andb orb negb Z.b2z] in *; lia.
Qed.

Lemma days_next_year y : days_to_year (y + 1) = days_to_year y + year_length y.
Proof.
  unfold days_to_year, year_length. pose proof (leap_step y) as H. replace (y + 1 - 1) with y by lia.
  destruct (is_leap y); cbn [Z.b2z] in H; lia.
Qed.

Lemma days_to_year_mono a n : days_to_year a + 365 * Z.of_nat n ≤ days_to_year (a + Z.of_nat n) ≤ days_to_year a + 366 * Z.of_nat n.
Proof.
  induction n as [|n IH]; [replace (a + Z.of_nat 0) with a by lia; lia|].
  replace (a + Z.of_nat (S n)) with (a + Z.of_nat n + 1) by lia. rewrite days_next_year. unfold year_length.
  destruct (is_leap _); lia.
Qed.

(** *** The kernel's count *)

(** Drop the wrap-around of sums that do not overflow, innermost first. *)
Ltac unwrap64 :=
  repeat match goal with
         | |- context [u64 ?x] => lazymatch x with context [u64 _] => fail | _ => rewrite (u64_small x) by lia end
         end.

Lemma year_days_ok n y days : 0 ≤ days → days + 366 * Z.of_nat n < 2 ^ 63 →
  year_days n y days = days + (days_to_year (y + Z.of_nat n) - days_to_year y).
Proof.
  revert y days. induction n as [|n IH]; intros y days H0 Hb; cbn [year_days]; [replace (y + Z.of_nat 0) with y by lia; lia|].
  replace (y + Z.of_nat (S n)) with (y + 1 + Z.of_nat n) by lia. pose proof (days_next_year y) as Hn. unfold year_length in Hn.
  rewrite u64_small by (destruct (is_leap y); lia). rewrite IH by (destruct (is_leap y); lia). destruct (is_leap y); lia.
Qed.

Lemma month_days_ok y m days : 1 ≤ m ≤ 12 → 0 ≤ days < 2 ^ 62 →
  month_days (Z.to_nat (m - 1)) 1 y days = Some (days + days_to_month y m).
Proof.
  intros Hm Hd. assert (m = 1 ∨ m = 2 ∨ m = 3 ∨ m = 4 ∨ m = 5 ∨ m = 6 ∨ m = 7 ∨ m = 8 ∨ m = 9 ∨ m = 10 ∨ m = 11 ∨ m = 12) as Hc by lia.
  unfold days_to_month. destruct (is_leap y) eqn:E;
  destruct Hc as [->|[->|[->|[->|[->|[->|[->|[->|[->|[->|[->| ->]]]]]]]]]]]; simpl; rewrite ?E; cbn [andb];
  unwrap64; f_equal; lia.
Qed.

Definition rtc_of (d : datetime) : rtc_time := mkRtc (dt_sec d) (dt_min d) (dt_hour d) (dt_day d) (dt_month d) (dt_year d).

Lemma month_bounds y m : 1 ≤ m ≤ 12 → 28 ≤ month_length y m ≤ 31 ∧ 0 ≤ days_to_month y m ∧ days_to_month y m + month_length y m ≤ year_length y.
Proof.
  intros Hm. assert (m = 1 ∨ m = 2 ∨ m = 3 ∨ m = 4 ∨ m = 5 ∨ m = 6 ∨ m = 7 ∨ m = 8 ∨ m = 9 ∨ m = 10 ∨ m = 11 ∨ m = 12) as Hc by lia.
  unfold days_to_month, month_length, year_length. destruct (is_leap y);
  destruct Hc as [->|[->|[->|[->|[->|[->|[->|[->|[->|[->|[->| ->]]]]]]]]]]]; simpl; lia.
Qed.

Lemma timestamp_ok d : date_ok d → dt_year d < 2 ^ 32 → timestamp (rtc_of d) = Some (unix_seconds d) ∧ 0 ≤ unix_seconds d < 2 ^ 58.
Proof.
  intros [H1 H2 H3 H4 H5 H6] Hy. unfold timestamp, rtc_of, unix_seconds. cbn [r_year r_month r_day r_hour r_minute r_second].
  pose proof (days_to_year_mono 1970 (Z.to_nat (dt_year d - 1970))) as Hb. change (days_to_year 1970) with 0 in Hb.
  replace (1970 + Z.of_nat (Z.to_nat (dt_year d - 1970))) with (dt_year d) in Hb by lia.
  destruct (month_bounds (dt_year d) (dt_month d) H2) as (B1 & B2 & B3). unfold year_length in B3.
  assert (0 ≤ days_to_month (dt_year d) (dt_month d) ≤ 366) by (destruct (is_leap _); lia).
  rewrite year_days_ok by lia. change (days_to_year 1970) with 0. replace (1970 + Z.of_nat (Z.to_nat (dt_year d - 1970))) with (dt_year d) by lia.
  rewrite month_days_ok by lia. simpl. rewrite (u64_small (_ + (_ - 1))) by lia. rewrite u64_small by lia. split; [f_equal; lia|lia].
Qed.

(** *** The program's date *)

Lemma find_year_ok n : ∀ fuel y r, (n < fuel)%nat → 0 ≤ r < year_length (y + Z.of_nat n) → 0 ≤ y → y + Z.of_nat n < 2 ^ 32 →
  find_year fuel y (days_to_year (y + Z.of_nat n) - days_to_year y + r) = Ok (y + Z.of_nat n, r).
Proof.
  induction n as [|n IH]; intros fuel y r Hf Hr Hy Hb; (destruct fuel as [|fuel]; [lia|]); cbn [find_year]; change (is_leap_year y) with (is_leap y); fold (year_length y).
  - replace (y + Z.of_nat 0) with y in * by lia. rewrite Z.sub_diag, Z.add_0_l. by rewrite (proj2 (Z.ltb_lt _ _)) by lia.
  - pose proof (days_next_year y) as Hn. pose proof (days_to_year_mono (y + 1) n) as Hm.
    replace (y + Z.of_nat (S n)) with (y + 1 + Z.of_nat n) in * by lia.
    rewrite (proj2 (Z.ltb_ge _ _)) by (unfold year_length in *; lia). rewrite u32_small by lia.
    rewrite <- (IH fuel (y + 1) r) by lia. f_equal. lia.
Qed.

Definition sum_days (l : list Z) : Z := foldr Z.add 0 l.

Lemma find_month_at l : ∀ k m r d, l !! k = Some d → Forall (Z.le 0) l → 0 ≤ r < d →
  find_month l m (sum_days (take k l) + r) = (m + Z.of_nat k, r).
Proof.
  induction l as [|x l IH]; intros k m r d Hk Hl Hr; [done|]. apply Forall_cons in Hl as [Hx Hl].
  destruct k as [|k]; cbn [take sum_days foldr find_month].
  - injection Hk as ->. rewrite Z.add_0_l, (proj2 (Z.ltb_lt _ _)) by lia. f_equal. lia.
  - assert (0 ≤ sum_days (take k l)) as H0.
    { clear -Hl. revert k. induction Hl as [|y l Hy _ IH]; intros [|k]; try done. cbn. specialize (IH k). unfold sum_days in IH. lia. }
    unfold sum_days in *. rewrite (proj2 (Z.ltb_ge _ _)) by lia. 
    replace (x + foldr Z.add 0 (take k l) + r - x) with (foldr Z.add 0 (take k l) + r) by lia.
    rewrite (IH k (m + 1) r d) by done. f_equal. lia.
Qed.

Definition mdays (y : Z) : list Z := [31; if is_leap_year y then 29 else 28; 31; 30; 31; 30; 31; 31; 30; 31; 30; 31].

Lemma mdays_month y m : 1 ≤ m ≤ 12 → mdays y !! Z.to_nat (m - 1) = Some (month_length y m) ∧ sum_days (take (Z.to_nat (m - 1)) (mdays y)) = days_to_month y m.
Proof.
  intros Hm. assert (m = 1 ∨ m = 2 ∨ m = 3 ∨ m = 4 ∨ m = 5 ∨ m = 6 ∨ m = 7 ∨ m = 8 ∨ m = 9 ∨ m = 10 ∨ m = 11 ∨ m = 12) as Hc by lia.
  unfold mdays, days_to_month, month_length. change (is_leap_year y) with (is_leap y). destruct (is_leap y);
  destruct Hc as [->|[->|[->|[->|[->|[->|[->|[->|[->|[->|[->| ->]]]]]]]]]]]; done.
Qed.

Lemma find_month_ok y m day : 1 ≤ m ≤ 12 → 1 ≤ day ≤ month_length y m →
  find_month (mdays y) 1 (days_to_month y m + (day - 1)) = (m, day - 1).
Proof.
  intros Hm Hd. destruct (mdays_month y m Hm) as [H1 H2]. rewrite <- H2, (find_month_at _ _ _ _ _ H1).
  - f_equal. lia.
  - unfold mdays. destruct (is_leap_year y); repeat constructor; lia.
  - lia.
Qed.

(** Dates and seconds correspond. *)
Lemma to_datetime_ok d : date_ok d → dt_year d < 2 ^ 32 → to_datetime (unix_seconds d) = Ok d.
Proof.
  intros [H1 H2 H3 H4 H5 H6] Hy. pose proof (month_bounds (dt_year d) (dt_month d) H2) as (B1 & B2 & B3).
  set (days := days_to_year (dt_year d) + (days_to_month (dt_year d) (dt_month d) + (dt_day d - 1))).
  assert (unix_seconds d = ((days * 24 + dt_hour d) * 60 + dt_min d) * 60 + dt_sec d) as -> by (unfold unix_seconds, days; lia).
  unfold to_datetime. rewrite Z.div_add_l, (Z.div_small (dt_sec d)), Z.add_0_r by lia.
  rewrite (Z.add_comm _ (dt_sec d)), Z_mod_plus_full, (Z.mod_small (dt_sec d)) by lia.
  rewrite Z.div_add_l, (Z.div_small (dt_min d)), Z.add_0_r by lia.
  rewrite (Z.add_comm _ (dt_min d)), Z_mod_plus_full, (Z.mod_small (dt_min d)) by lia.
  rewrite Z.div_add_l, (Z.div_small (dt_hour d)), Z.add_0_r by lia.
  rewrite (Z.add_comm _ (dt_hour d)), Z_mod_plus_full, (Z.mod_small (dt_hour d)) by lia.
  pose proof (days_to_year_mono 1970 (Z.to_nat (dt_year d - 1970))) as Hb. change (days_to_year 1970) with 0 in Hb.
  pose proof (find_year_ok (Z.to_nat (dt_year d - 1970)) (S (Z.to_nat (days / 365))) 1970 (days_to_month (dt_year d) (dt_month d) + (dt_day d - 1))) as Hf.
  replace (1970 + Z.of_nat (Z.to_nat (dt_year d - 1970))) with (dt_year d) in * by lia.
  change (days_to_year 1970) with 0 in Hf. rewrite Z.sub_0_r in Hf. fold days in Hf.
  rewrite Hf by (try lia; dlia). fold (mdays (dt_year d)). rewrite find_month_ok by done. rewrite u32_small by lia.
  destruct d as [y m dd h mi se]. cbn in *. do 2 f_equal. lia.
Qed.

Lemma split_days l : ∀ r, 0 ≤ r < sum_days l → ∃ k d, l !! k = Some d ∧ 0 ≤ r - sum_days (take k l) < d.
Proof.
  induction l as [|x l IH]; intros r Hr; [cbn in Hr; lia|]. destruct (Z.lt_ge_cases r x).
  - exists O, x. split; [done|]. cbn. lia.
  - destruct (IH (r - x)) as (k & d & Hk & Hd); [cbn in Hr; unfold sum_days; lia|]. exists (S k), d.
    split; [done|]. cbn [take sum_days foldr]. unfold sum_days in Hd. lia.
Qed.

Lemma split_year n : ∀ D, 0 ≤ D < days_to_year (1970 + Z.of_nat n) → ∃ k, (k < n)%nat ∧ 0 ≤ D - days_to_year (1970 + Z.of_nat k) < year_length (1970 + Z.of_nat k).
Proof.
  induction n as [|n IH]; intros D HD; [change (days_to_year (1970 + Z.of_nat 0)) with 0 in HD; lia|].
  destruct (Z.lt_ge_cases D (days_to_year (1970 + Z.of_nat n))) as [Hlt|Hge].
  - destruct (IH D) as (k & Hk & Hd); [lia|]. exists k. split; [lia|done].
  - exists n. split; [lia|]. replace (1970 + Z.of_nat (S n)) with (1970 + Z.of_nat n + 1) in HD by lia.
    rewrite days_next_year in HD. lia.
Qed.

Lemma mdays_year y : sum_days (mdays y) = year_length y ∧ length (mdays y) = 12%nat.
Proof. unfold mdays, year_length. change (is_leap_year y) with (is_leap y). by destruct (is_leap y). Qed.

(** Every count of seconds is that of a date. *)
Lemma date_exists ts : 0 ≤ ts < 2 ^ 55 → ∃ d, date_ok d ∧ dt_year d < 2 ^ 32 ∧ unix_seconds d = ts.
Proof.
  intros Hts. set (D := ts / 86400). assert (0 ≤ D ∧ D < 2 ^ 39) as [HD0 HD] by (subst D; dlia).
  destruct (split_year (Z.to_nat (D / 365 + 1)) D) as (k & Hk & Hr).
  { pose proof (days_to_year_mono 1970 (Z.to_nat (D / 365 + 1))) as Hb. change (days_to_year 1970) with 0 in Hb. dlia. }
  set (y := 1970 + Z.of_nat k) in *. set (r := D - days_to_year y) in *. destruct (mdays_year y) as [Hs Hl].
  destruct (split_days (mdays y) r) as (j & d & Hj & Hd); [lia|]. pose proof (lookup_lt_Some _ _ _ Hj) as Hlt.
  destruct (mdays_month y (Z.of_nat j + 1)) as [M1 M2]; [lia|]. replace (Z.to_nat (Z.of_nat j + 1 - 1)) with j in M1, M2 by lia.
  rewrite Hj in M1. injection M1 as M1.
  exists (mkDate y (Z.of_nat j + 1) (r - sum_days (take j (mdays y)) + 1) (ts / 3600 mod 24) (ts / 60 mod 60) (ts mod 60)).
  split; [split; cbn; try lia; dlia|]. split; [cbn; dlia|].
  unfold unix_seconds. cbn. rewrite <- M2. subst r. clear -Hts. assert (ts = 86400 * D + 3600 * (ts / 3600 mod 24) + 60 * (ts / 60 mod 60) + ts mod 60) by (subst D; dlia). lia.
Qed.

Lemma to_datetime_total ts : 0 ≤ ts < 2 ^ 55 → ∃ d, to_datetime ts = Ok d ∧ date_ok d ∧ unix_seconds d = ts.
Proof. intros H. destruct (date_exists ts H) as (d & Hd & Hy & <-). exists d. split; [by apply to_datetime_ok|done]. Qed.

(** ** The devices *)

(** A real-time clock whose register A shows an update in progress for the next
    [c_busy] reads, and an interval timer with its reload value. *)
Record chips := mkChips { c_index : Z; c_reg : Z → Z; c_busy : nat; p_mode : Z; p_low : option Z; p_reload : Z }.

Definition chips_in (width port : Z) (c : chips) : Z * chips :=
  if port =? CMOS_DATA then
    if c_index c =? 0x0A then
      match c_busy c with
      | S b => (Z.lor 0x80 (c_reg c 0x0A), mkChips (c_index c) (c_reg c) b (p_mode c) (p_low c) (p_reload c))
      | O => (Z.land (c_reg c 0x0A) 0x7F, c)
      end
    else (c_reg c (c_index c), c)
  else (0xFF, c).

Definition chips_out (width port v : Z) (c : chips) : chips :=
  if port =? CMOS_ADDR then mkChips (Z.land v 0x7F) (c_reg c) (c_busy c) (p_mode c) (p_low c) (p_reload c)
  else if port =? PIT_COMMAND then mkChips (c_index c) (c_reg c) (c_busy c) v None (p_reload c)
  else if port =? PIT_CHANNEL0 then
    match p_low c with
    | None => mkChips (c_index c) (c_reg c) (c_busy c) (p_mode c) (Some v) (p_reload c)
    | Some lo => mkChips (c_index c) (c_reg c) (c_busy c) (p_mode c) None (lo + 256 * v)
    end
  else c.

#[export] Instance chips_ports : Ports chips := {| port_in := chips_in; port_out := chips_out |}.

(** Registers in binary-coded decimal. *)
Definition to_bcd (v : Z) : Z := v / 10 * 16 + v mod 10.

Lemma bcd_roundtrip v : 0 ≤ v < 100 → bcd_to_bin (to_bcd v) = v.
Proof.
  intros Hv. unfold bcd_to_bin, to_bcd. change 0x0F with (Z.ones 4). rewrite Z.land_ones, Z.shiftr_div_pow2 by lia.
  change (2 ^ 4) with 16. replace ((v / 10 * 16 + v mod 10) mod 16) with (v mod 10) by dlia.
  replace ((v / 10 * 16 + v mod 10) / 16) with (v / 10) by dlia. rewrite u8_small; dlia.
Qed.

(** The clock shows the date [d] in 24-hour form, in binary or not. *)
Record shows (c : chips) (d : datetime) (binary : bool) : Prop := {
  sh_date : date_ok d;
  sh_year : dt_year d < 10000;
  sh_mode : Z.land (c_reg c 0x0B) 0x06 = if binary then 0x06 else 0x02;
  sh_mode_byte : 0 ≤ c_reg c 0x0B < 256;
  sh_regs : let enc := if binary then id else to_bcd in
    c_reg c 0x00 = enc (dt_sec d) ∧ c_reg c 0x02 = enc (dt_min d) ∧ c_reg c 0x04 = enc (dt_hour d) ∧ c_reg c 0x07 = enc (dt_day d) ∧
    c_reg c 0x08 = enc (dt_month d) ∧ c_reg c 0x09 = enc (dt_year d mod 100) ∧ c_reg c 0x32 = enc (dt_year d / 100)
}.

Definition at_index (i : Z) (b : nat) (c : chips) : chips := mkChips i (c_reg c) b (p_mode c) (p_low c) (p_reload c).

Lemma cmos_read_ok c r : 0 ≤ r < 0x80 → r ≠ 0x0A → 0 ≤ c_reg c r < 256 → cmos_read r c = Ok (c_reg c r, at_index r (c_busy c) c).
Proof.
  intros Hr Hne Hb. unfold cmos_read, outb, inb, port_write, port_read, mbind, M_bind. cbn -[u8 u16 Z.land]. rewrite (u8_small r) by lia.
  change (u16 CMOS_ADDR) with CMOS_ADDR. change (u16 CMOS_DATA) with CMOS_DATA. unfold chips_out. rewrite Z.eqb_refl.
  unfold chips_in. rewrite Z.eqb_refl. cbn -[u8 Z.land]. change 0x7F with (Z.ones 7). rewrite Z.land_ones, Z.mod_small by lia.
  rewrite (proj2 (Z.eqb_neq _ _)) by done. cbn -[u8]. by rewrite u8_small by lia.
Qed.

Lemma cmos_status c : cmos_read 0x0A c =
  match c_busy c with
  | S b => Ok (u8 (Z.lor 0x80 (c_reg c 0x0A)), at_index 0x0A b c)
  | O => Ok (u8 (Z.land (c_reg c 0x0A) 0x7F), at_index 0x0A 0 c)
  end.
Proof. by destruct c as [i r [|b] m l re]. Qed.

Lemma status_bit v : truthy (Z.land (u8 v) 0x80) = Z.testbit v 7.
Proof.
  unfold truthy, u8. destruct (Z.eqb_spec (Z.land (v mod 2 ^ 8) 0x80) 0) as [E|E]; cbn [negb].
  - apply (f_equal (λ z, Z.testbit z 7)) in E. rewrite Z.land_spec, testbit_mod_pow2, Z.bits_0, andb_true_r in E by lia. by rewrite <- E.
  - destruct (Z.testbit v 7) eqn:H7; [done|]. exfalso. apply E. apply Z.bits_inj'. intros n Hn.
    rewrite Z.land_spec, Z.bits_0, testbit_mod_pow2 by lia. change 0x80 with (Z.shiftl 1 7). rewrite testbit_pow2 by lia.
    destruct (Z.eqb_spec n 7) as [->|]; [by rewrite H7|by rewrite andb_false_r].
Qed.

Lemma wait_update_ok b : ∀ c fuel, c_busy c = b → (b < fuel)%nat → wait_update fuel c = Ok (tt, at_index 0x0A 0 c).
Proof.
  induction b as [|b IH]; intros c fuel Hb Hf; (destruct fuel as [|fuel]; [lia|]); cbn [wait_update];
    unfold mbind, M_bind; rewrite cmos_status, Hb; cbv iota beta; rewrite status_bit.
  - rewrite Z.land_spec. change (Z.testbit 0x7F 7) with false. by rewrite andb_false_r.
  - rewrite Z.lor_spec. change (Z.testbit 0x80 7) with true. cbn [orb]. rewrite IH; [done|done|lia].
Qed.

(** One register of the date, decoded. *)
Lemma read_field c r (binary : bool) v : 0 ≤ r < 0x80 → r ≠ 0x0A → 0 ≤ v < 100 → c_reg c r = (if binary then id else to_bcd) v →
  cmos_read r c = Ok ((if binary then id else to_bcd) v, at_index r (c_busy c) c) ∧
  (if binary then id else bcd_to_bin) ((if binary then id else to_bcd) v) = v.
Proof.
  intros Hr Hne Hv He. rewrite <- He at 1. split.
  - apply cmos_read_ok; [done|done|]. rewrite He. destruct binary; unfold id, to_bcd; dlia.
  - destruct binary; [done|]. by apply bcd_roundtrip.
Qed.

(** Reading the registers one after the other. *)
Ltac read_reg c R E :=
  match type of R with c_reg _ ?r = _ (?v : Z) =>
    let H := fresh in
    destruct (read_field c r _ v ltac:(lia) ltac:(lia) ltac:(dlia) R) as [H E];
    rewrite (bind_of_ok _ _ _ _ _ H); clear H
  end.

Lemma rtc_read_ok c d binary fuel : shows c d binary → (c_busy c < fuel)%nat →
  rtc_read fuel c = Ok (rtc_of d, at_index 0x0B 0 c).
Proof.
  intros [[D1 D2 D3 D4 D5 D6] Hy Hm Hmb (R1 & R2 & R3 & R4 & R5 & R6 & R7)] Hf.
  pose proof (month_bounds (dt_year d) (dt_month d) D2) as [Hml _]. unfold rtc_read.
  rewrite (bind_of_ok _ _ _ _ _ (wait_update_ok _ c fuel eq_refl Hf)).
  read_reg (at_index 0x0A 0 c) R1 E1. read_reg (at_index 0x00 0 c) R2 E2. read_reg (at_index 0x02 0 c) R3 E3. read_reg (at_index 0x04 0 c) R4 E4.
  read_reg (at_index 0x07 0 c) R5 E5. read_reg (at_index 0x08 0 c) R6 E6. read_reg (at_index 0x09 0 c) R7 E7.
  rewrite (bind_of_ok _ _ _ _ _ (cmos_read_ok (at_index 0x32 0 c) 0x0B ltac:(lia) ltac:(lia) Hmb)). cbn [at_index c_reg].
  assert (negb (truthy (Z.land (c_reg c 0x0B) 0x04)) = negb binary) as ->.
  { replace (Z.land (c_reg c 0x0B) 0x04) with (Z.land (Z.land (c_reg c 0x0B) 0x06) 0x04) by (by rewrite <- Z.land_assoc).
    rewrite Hm. by destruct binary. }
  replace (if negb binary then bcd_to_bin else id) with (if binary then id else bcd_to_bin) by (by destruct binary).
  cbv zeta. rewrite E1, E2, E3, E4, E5, E6, E7. unfold rtc_of, truthy. rewrite (proj2 (Z.eqb_neq (dt_year d / 100) 0)) by dlia. cbn [negb].
  rewrite u32_small by dlia. replace (dt_year d / 100 * 100 + dt_year d mod 100) with (dt_year d) by dlia. done.
Qed.

Lemma unix_seconds_bound d : date_ok d → dt_year d < 10000 → unix_seconds d < 2 ^ 54.
Proof.
  intros [D1 D2 D3 D4 D5 D6] Hy. pose proof (days_to_year_mono 1970 (Z.to_nat (dt_year d - 1970))) as Hb. change (days_to_year 1970) with 0 in Hb.
  replace (1970 + Z.of_nat (Z.to_nat (dt_year d - 1970))) with (dt_year d) in Hb by lia.
  destruct (month_bounds (dt_year d) (dt_month d) D2) as (B1 & B2 & B3). unfold year_length in B3. unfold unix_seconds. destruct (is_leap _); lia.
Qed.

(** ** From the battery-backed clock to a program's date *)

Definition ticks {D} `{!Ports D} (n : nat) : M (clock D) unit := for_range n 0 (λ _, timer_tick).

Lemma ticks_ok {D} `{!Ports D} n : ∀ lo (c : clock D), 0 ≤ g_timer_ticks c → g_timer_ticks c + Z.of_nat n < 2 ^ 31 →
  for_range n lo (λ _, timer_tick) c = Ok (tt, mkClock (g_boot_timestamp c) (g_timer_ticks c + Z.of_nat n) (g_timer_frequency c) (ck_hw c)).
Proof.
  induction n as [|n IH]; intros lo c H0 Hb; cbn [for_range].
  - replace (g_timer_ticks c + Z.of_nat 0) with (g_timer_ticks c) by lia. by destruct c.
  - unfold timer_tick at 1. rewrite (bind_of_ok _ _ _ _ _ eq_refl). rewrite IH; cbn; rewrite i32_small by lia; [|lia..].
    do 3 f_equal. lia.
Qed.

(** As [kernel_main] does it: the timer runs, here for [m] ticks, before the clock is read; then [n] more ticks pass. *)
Definition boot_clock {D} `{!Ports D} (fuel : nat) (frequency : Z) (m n : nat) : M (clock D) datetime :=
  timer_init frequency ;; ticks m ;; time_init fuel ;; ticks n ;; time_now.

Definition pit_set (mode reload : Z) (c : chips) : chips := mkChips (c_index c) (c_reg c) (c_busy c) mode None reload.

Lemma timer_init_ok (k : clock chips) f : 18 < f < 2 ^ 32 →
  timer_init f k = Ok (tt, mkClock (g_boot_timestamp k) (g_timer_ticks k) f (pit_set 0x34 (PIT_BASE_FREQUENCY / f) (ck_hw k))).
Proof.
  intros Hf. unfold timer_init. rewrite (proj2 (Z.eqb_neq f 0)) by lia. rewrite (bind_of_ok _ _ _ _ _ eq_refl).
  assert (0 ≤ PIT_BASE_FREQUENCY / f < 2 ^ 16) as Hd by (unfold PIT_BASE_FREQUENCY; Z.to_euclidean_division_equations; nia).
  rewrite u16_small by lia. set (dv := PIT_BASE_FREQUENCY / f) in *.
  change 0xFF with (Z.ones 8). rewrite !Z.land_ones, Z.shiftr_div_pow2 by lia. change (2 ^ 8) with 256.
  unfold on_hw, zoom, outb, port_write, mbind, M_bind, pit_set. cbn -[Z.add Z.mul Z.modulo Z.div u8].
  rewrite !u8_small by dlia. change (u16 PIT_CHANNEL0) with PIT_CHANNEL0. change (u16 PIT_COMMAND) with PIT_COMMAND.
  destruct (ck_hw k). unfold chips_out. cbn -[Z.add Z.mul Z.modulo Z.div]. unfold set_ck_hw. cbn -[Z.add Z.mul Z.modulo Z.div].
  do 4 f_equal. change (2 ^ 16) with 65536 in Hd. dlia.
Qed.

(** C25: the date a program reads is the date the real-time clock showed when the kernel read it plus the seconds ticked since
    the timer was started: for a clock that shows a valid date from 1970 to 9999, in binary or binary-coded decimal, the
    kernel's conversion to seconds, the tick counter and the program's conversion back give a valid calendar date that
    lies exactly [(m + n) / f] seconds later in the Gregorian calendar (the [m] ticks before the clock was read are
    counted as well); with no full second counted it is the very date the clock showed. *)
Theorem clock_shows_time (k : clock chips) (d : datetime) (binary : bool) (fuel m n : nat) (f : Z) :
  shows (ck_hw k) d binary → (c_busy (ck_hw k) < fuel)%nat → 18 < f < 2 ^ 32 → g_timer_ticks k = 0 → Z.of_nat (m + n) < 2 ^ 31 →
  ∃ d' k', boot_clock fuel f m n k = Ok (d', k') ∧ date_ok d' ∧ unix_seconds d' = unix_seconds d + Z.of_nat (m + n) / f ∧
    p_reload (ck_hw k') = PIT_BASE_FREQUENCY / f ∧ (Z.of_nat (m + n) < f → d' = d).
Proof.
  intros Hs Hf Hfr H0 Hn. unfold boot_clock. rewrite (bind_of_ok _ _ _ _ _ (timer_init_ok k f Hfr)). unfold ticks.
  erewrite bind_of_ok; [|apply ticks_ok; simpl; lia]. cbn [g_timer_ticks g_timer_frequency g_boot_timestamp ck_hw]. rewrite H0, Z.add_0_l.
  pose proof (sh_date _ _ _ Hs) as Hd. pose proof (sh_year _ _ _ Hs) as Hy. destruct (timestamp_ok d Hd ltac:(lia)) as [Ht Hr].
  set (c := pit_set 0x34 (PIT_BASE_FREQUENCY / f) (ck_hw k)). assert (shows c d binary) as Hs' by (by destruct Hs).
  assert (rtc_unix_timestamp fuel c = Ok (unix_seconds d, at_index 0x0B 0 c)) as Hrtc.
  { unfold rtc_unix_timestamp. rewrite (bind_of_ok _ _ _ _ _ (rtc_read_ok c d binary fuel Hs' Hf)). by rewrite Ht. }
  assert (∀ K : clock chips, ck_hw K = c → time_init fuel K =
    Ok (tt, mkClock (unix_seconds d) (g_timer_ticks K) (g_timer_frequency K) (at_index 0x0B 0 c))) as Hti.
  { intros K HK. unfold time_init, on_hw, zoom, mbind, M_bind. rewrite HK, Hrtc. done. }
  erewrite bind_of_ok; [|apply Hti; reflexivity].
  erewrite bind_of_ok; [|apply ticks_ok; simpl; lia]. cbn [g_timer_ticks g_timer_frequency g_boot_timestamp ck_hw]. rewrite <- Nat2Z.inj_add.
  assert (0 ≤ Z.of_nat (m + n) / f ≤ Z.of_nat (m + n)) as Hq by (Z.to_euclidean_division_equations; nia).
  pose proof (unix_seconds_bound d Hd Hy) as Hu.
  unfold time_now, time_unix, udiv, mbind, M_bind, get. cbn [g_timer_ticks g_timer_frequency g_boot_timestamp].
  rewrite (proj2 (Z.eqb_neq f 0)) by lia. rewrite (u64_small (Z.of_nat (m + n))) by lia. unfold mret, M_ret. rewrite u64_small by lia.
  destruct (to_datetime_total (unix_seconds d + Z.of_nat (m + n) / f)) as (d' & Ed & Hok & Hsec); [lia|]. rewrite Ed.
  eexists d', _. split; [reflexivity|]. split; [done|]. split; [done|]. split; [done|]. intros Hlt.
  rewrite Z.div_small, Z.add_0_r, (to_datetime_ok d Hd ltac:(lia)) in Ed by lia. by injection Ed.
Qed.

(** ** Witness *)

(** Half past nine on the 29th of February 2024, in binary-coded decimal. *)
Definition demo_date : datetime := mkDate 2024 2 29 9 30 0.
Definition demo_chips : chips :=
  mkChips 0 (λ r, if r =? 0x02 then 0x30 else if r =? 0x04 then 0x09 else if r =? 0x07 then 0x29 else if r =? 0x08 then 0x02
                  else if r =? 0x09 then 0x24 else if r =? 0x32 then 0x20 else if r =? 0x0B then 0x02 else 0) 2 0 None 0.

Lemma demo_shows : shows demo_chips demo_date false.
Proof. split; [split; vm_compute; intuition congruence|cbn; lia|reflexivity|cbn; lia|vm_compute; intuition reflexivity]. Qed.

Lemma clock_shows_time_witness :
  ∃ d' k', boot_clock 3 100 150 350 (mkClock 0 0 0 demo_chips) = Ok (d', k') ∧ unix_seconds d' = unix_seconds demo_date + 5.
Proof.
  destruct (clock_shows_time (mkClock 0 0 0 demo_chips) demo_date false 3 150 350 100 demo_shows) as (d' & k' & H1 & _ & H2 & _).
  - cbn. lia.
  - lia.
  - reflexivity.
  - lia.
  - exists d', k'. split; [exact H1|exact H2].
Defined.

End Clock.
