(* ===== verification/Entry.v ===== *)
(** * Entering and leaving the kernel ([kernel/cpu/isr.asm], [syscall_asm.asm],
      [gdt_flush.asm], [gdt.c], [idt.c], and [syscall_init] of [syscall.c])

    The assembler stubs are lists of instructions run on a processor state; the
    C function a stub calls is a parameter, with the calling convention as its
    contract.  The interrupt descriptor table and the segment descriptors are
    the words the kernel builds, and the processor's reading of them is its
    documented decoding. *)
From S2P Require Import Prelude.

Module Entry.

(** ** The processor *)

Inductive reg := RAX | RBX | RCX | RDX | RSI | RDI | RBP | RSP | R8 | R9 | R10 | R11 | R12 | R13 | R14 | R15.
#[export] Instance reg_eq_dec : EqDecision reg.
Proof. solve_decision. Defined.

Record cpu := mkCpu { c_reg : reg → Z; c_rip : Z; c_cs : Z; c_flags : Z; c_ss : Z; c_mem : gmap Z Z }.

Definition upd (r : reg) (v : Z) (f : reg → Z) : reg → Z := λ x, if decide (x = r) then v else f x.
Definition set_reg (r : reg) (v : Z) (c : cpu) : cpu := mkCpu (upd r v (c_reg c)) (c_rip c) (c_cs c) (c_flags c) (c_ss c) (c_mem c).
Definition set_cmem (m : gmap Z Z) (c : cpu) : cpu := mkCpu (c_reg c) (c_rip c) (c_cs c) (c_flags c) (c_ss c) m.

Inductive instr :=
| Push (r : reg)
| PushI (v : Z)
| Pop (r : reg)
| Mov (d s : reg)
| MovI (d : reg) (v : Z)
| AddRsp (n : Z).

Definition push (v : Z) (c : cpu) : cpu :=
  set_cmem (<[c_reg c RSP - 8 := v]> (c_mem c)) (set_reg RSP (c_reg c RSP - 8) c).

Definition pop (c : cpu) : option (Z * cpu) :=
  v ← c_mem c !! c_reg c RSP;
  Some (v, set_reg RSP (c_reg c RSP + 8) c).

Definition step (i : instr) (c : cpu) : option cpu :=
  match i with
  | Push r => Some (push (c_reg c r) c)
  | PushI v => Some (push v c)
  | Pop r => '(v, c') ← pop c; Some (set_reg r v c')
  | Mov d s => Some (set_reg d (c_reg c s) c)
  | MovI d v => Some (set_reg d v c)
  | AddRsp n => Some (set_reg RSP (c_reg c RSP + n) c)
  end.

Fixpoint run (l : list instr) (c : cpu) : option cpu :=
  match l with
  | [] => Some c
  | i :: l' => c' ← step i c; run l' c'
  end.

(** ** Interrupt stubs *)

(** The registers the [ISR] macro saves, in the order of its pushes. *)
Definition isr_regs : list reg := [R15; R14; R13; R12; R11; R10; R9; R8; RBP; RDI; RSI; RDX; RCX; RBX; RAX].

(** [ISR_ERR] is used for the vectors whose exception comes with an error code. *)
Definition isr_err (v : Z) : bool :=
  bool_decide (v ∈ [8; 10; 11; 12; 13; 14; 17; 21; 29; 30]).

Definition isr_enter (v : Z) : list instr :=
  (if isr_err v then [] else [PushI 0]) ++ PushI v :: map Push isr_regs ++ [Mov RDI RSP].

Definition isr_leave : list instr := map Pop (rev isr_regs) ++ [AddRsp 16].

(** What the processor does on an interrupt in 64-bit mode: on a privilege change it takes
    the stack of the task state segment, aligns it, and pushes the interrupted
    context, for some exceptions with an error code. *)
Definition has_error (v : Z) : bool :=
  (v =? 8) || ((10 <=? v) && (v <=? 14)) || (v =? 17) || (v =? 21) || (v =? 29) || (v =? 30).

Definition deliver (v err isr tss_rsp0 kernel_cs : Z) (c : cpu) : cpu :=
  let sp := if Z.land (c_cs c) 3 =? 0 then c_reg c RSP else tss_rsp0 in
  let c1 := set_reg RSP (sp / 16 * 16) c in
  let c2 := push (c_rip c) (push (c_cs c) (push (c_flags c) (push (c_reg c RSP) (push (c_ss c) c1)))) in
  let c3 := if has_error v then push err c2 else c2 in
  mkCpu (c_reg c3) isr kernel_cs (c_flags c) (if Z.land (c_cs c) 3 =? 0 then c_ss c else 0) (c_mem c3).

Definition iretq (c : cpu) : option cpu :=
  '(rip, c) ← pop c; '(cs, c) ← pop c; '(flags, c) ← pop c; '(sp, c) ← pop c; '(ss, c) ← pop c;
  Some (set_reg RSP sp (mkCpu (c_reg c) rip cs flags ss (c_mem c))).

(** The stub around [call interrupt_dispatch]. *)
Definition isr (dispatch : cpu → cpu) (v : Z) (c : cpu) : option cpu :=
  c ← run (isr_enter v) c;
  c ← run isr_leave (dispatch c);
  iretq c.

(** ** System calls *)

(** The registers [syscall_entry] saves. *)
Definition syscall_saved : list reg := [R10; RCX; R11; RBP; RBX; R12; R13; R14; R15; RDI; RSI; RDX; R8; R9].

Definition syscall_enter (kernel_rsp : Z) : list instr :=
  [Mov R10 RSP; MovI RSP kernel_rsp] ++ map Push syscall_saved ++ [Mov RCX RDX; Mov RDX RSI; Mov RSI RDI; Mov RDI RAX].

Definition syscall_leave : list instr :=
  map Pop [R9; R8; RDX; RSI; RDI; R15; R14; R13; R12; RBX; RBP; R11; RCX; RSP].

Definition MSR_SYSCALL_MASK_VALUE : Z := 0x200.
Definition KERNEL_CODE_SEL : Z := 0x08.
Definition KERNEL_DATA_SEL : Z := 0x10.
Definition USER_CODE_SEL : Z := 0x2B.
Definition USER_DATA_SEL : Z := 0x23.
Definition TSS_SEL : Z := 0x30.

(** [syscall_init]'s [MSR_STAR]. *)
Definition star : Z := Z.lor (Z.shiftl 0x18 48) (Z.shiftl KERNEL_CODE_SEL 32).

(** The instructions [syscall] and [sysret] with the registers set so. *)
Definition syscall_insn (lstar : Z) (c : cpu) : cpu :=
  mkCpu (upd R11 (c_flags c) (upd RCX (c_rip c) (c_reg c))) lstar (Z.land (Z.shiftr star 32) 0xFFFC)
        (Z.land (c_flags c) (Z.lnot MSR_SYSCALL_MASK_VALUE)) (Z.land (Z.shiftr star 32) 0xFFFF + 8) (c_mem c).

Definition sysret_insn (c : cpu) : cpu :=
  mkCpu (c_reg c) (c_reg c RCX) (Z.lor (Z.shiftr star 48 + 16) 3) (c_reg c R11) (Z.lor (Z.shiftr star 48 + 8) 3) (c_mem c).

Definition syscall (dispatch : cpu → cpu) (lstar kernel_rsp : Z) (c : cpu) : option cpu :=
  c ← run (syscall_enter kernel_rsp) (syscall_insn lstar c);
  c ← run syscall_leave (dispatch c);
  Some (sysret_insn c).

(** [jump_to_userspace(entry, user_rsp, argc, argv)], the data segment registers left out. *)
Definition jump_to_userspace : list instr :=
  [PushI 0x23; Push RSI; PushI 0x202; PushI 0x2B; Push RDI; Mov RDI RDX; Mov RSI RCX].

(** ** Descriptor tables *)

Record idt_entry := mkGate { offset_low : Z; selector : Z; ist : Z; type_attr : Z; offset_mid : Z; offset_high : Z; gate_zero : Z }.

Definition idt_set_gate (cs vector isr flags : Z) (idt : list idt_entry) : list idt_entry :=
  <[Z.to_nat vector := mkGate (u16 (Z.land isr 0xFFFF)) cs 0 flags (u16 (Z.land (Z.shiftr isr 16) 0xFFFF))
                              (u32 (Z.land (Z.shiftr isr 32) 0xFFFFFFFF)) 0]> idt.

(** [idt_init], the addresses of the stubs given by [isrs]. *)
Definition idt_init (cs : Z) (isrs : list Z) (idt : list idt_entry) : list idt_entry :=
  let idt := foldl (λ t i, idt_set_gate cs i 0 0 t) idt (seqZ 0 256) in
  foldl (λ t i, idt_set_gate cs i (nth (Z.to_nat i) isrs 0) 0x8E t) idt (seqZ 0 48).

(** The processor's reading of a gate: present, and where it leads. *)
Definition gate_target (g : idt_entry) : option (Z * Z) :=
  if Z.testbit (type_attr g) 7 && (Z.land (type_attr g) 0x1F =? 0x0E)
  then Some (selector g, offset_low g + 2 ^ 16 * offset_mid g + 2 ^ 32 * offset_high g) else None.

Definition sizeof_tss : Z := 104.

(** The two words [gdt_set_tss] builds for a descriptor. *)
Definition tss_words (base : Z) : Z * Z :=
  let limit := sizeof_tss - 1 in
  (Z.land limit 0xFFFF + 2 ^ 16 * Z.land base 0xFFFF + 2 ^ 32 * Z.land (Z.shiftr base 16) 0xFF + 2 ^ 40 * 0x89 +
   2 ^ 48 * Z.land (Z.shiftr limit 16) 0xF + 2 ^ 56 * Z.land (Z.shiftr base 24) 0xFF,
   Z.land (Z.shiftr base 32) 0xFFFFFFFF).

Definition gdt_init (tss : Z) : list Z :=
  [0x0000000000000000; 0x00AF9A000000FFFF; 0x00AF92000000FFFF; 0x00CFFA000000FFFF; 0x00AFF2000000FFFF; 0x00AFFA000000FFFF;
   fst (tss_words tss); snd (tss_words tss)].

(** Fields of a segment descriptor. *)
Definition d_present (w : Z) : bool := Z.testbit w 47.
Definition d_ring (w : Z) : Z := Z.land (Z.shiftr w 45) 3.
Definition d_code (w : Z) : bool := Z.testbit w 43.
Definition d_long (w : Z) : bool := Z.testbit w 53.
Definition d_system (w : Z) : bool := negb (Z.testbit w 44).
Definition descriptor (gdt : list Z) (sel : Z) : Z := nth (Z.to_nat (sel / 8)) gdt 0.

(** The base address of a system descriptor of two words. *)
Definition system_base (lo hi : Z) : Z :=
  Z.land (Z.shiftr lo 16) 0xFFFFFF + 2 ^ 24 * Z.land (Z.shiftr lo 56) 0xFF + 2 ^ 32 * Z.land hi 0xFFFFFFFF.

(** ** Pushing and popping *)

Lemma upd_eq r v f : upd r v f r = v.
Proof. unfold upd. by rewrite decide_True. Qed.
Lemma upd_ne r v f x : x ≠ r → upd r v f x = f x.
Proof. intros H. unfold upd. by rewrite decide_False. Qed.

(** [c'] is [c] after pushing the values [vs], the last one on top. *)
Record pushed (vs : list Z) (c c' : cpu) : Prop := {
  pu_rsp : c_reg c' RSP = c_reg c RSP - 8 * Z.of_nat (length vs);
  pu_reg : ∀ r, r ≠ RSP → c_reg c' r = c_reg c r;
  pu_mem : ∀ k v, vs !! k = Some v → c_mem c' !! (c_reg c RSP - 8 * (Z.of_nat k + 1)) = Some v;
  pu_old : ∀ a, c_reg c RSP ≤ a → c_mem c' !! a = c_mem c !! a
}.

Lemma push_pushed v c : pushed [v] c (push v c).
Proof.
  split; cbn.
  - rewrite upd_eq. lia.
  - intros r Hr. by apply upd_ne.
  - intros [|k] v' Hk; [|by destruct k]. injection Hk as <-. replace (c_reg c RSP - 8 * 1) with (c_reg c RSP - 8) by lia. apply lookup_insert_eq.
  - intros a Ha. apply lookup_insert_ne. lia.
Qed.

Lemma pushed_nil c : pushed [] c c.
Proof. split; try done. cbn. lia. Qed.

Lemma pushed_app vs vs' c c1 c2 : pushed vs c c1 → pushed vs' c1 c2 → pushed (vs ++ vs') c c2.
Proof.
  intros [A1 A2 A3 A4] [B1 B2 B3 B4]. split.
  - rewrite length_app. lia.
  - intros r Hr. by rewrite B2, A2.
  - intros k v Hk. destruct (decide (k < length vs)%nat) as [Hlt|Hge].
    + rewrite lookup_app_l in Hk by done. rewrite B4 by lia. by apply A3.
    + rewrite lookup_app_r in Hk by lia. rewrite <- (B3 _ _ Hk). f_equal. lia.
  - intros a Ha. rewrite B4 by lia. by apply A4.
Qed.

Lemma pushed_ext vs c c1 c2 : pushed vs c c1 → c_reg c2 = c_reg c1 → c_mem c2 = c_mem c1 → pushed vs c c2.
Proof. intros [A1 A2 A3 A4] Hr Hm. split; rewrite ?Hr, ?Hm; done. Qed.

Lemma run_app l1 l2 c : run (l1 ++ l2) c = run l1 c ≫= run l2.
Proof.
  revert c. induction l1 as [|i l1 IH]; intros c; [done|]. simpl. destruct (step i c) as [c'|]; simpl; [apply IH|done].
Qed.

Lemma run_pushes rs c : RSP ∉ rs → ∃ c', run (map Push rs) c = Some c' ∧ pushed (map (c_reg c) rs) c c' ∧
  c_rip c' = c_rip c ∧ c_cs c' = c_cs c ∧ c_flags c' = c_flags c ∧ c_ss c' = c_ss c.
Proof.
  revert c. induction rs as [|r rs IH]; intros c Hn; [exists c; split_and!; try done; apply pushed_nil|].
  apply not_elem_of_cons in Hn as [Hr Hn]. destruct (IH (push (c_reg c r) c) Hn) as (c' & Hrun & Hp & H1 & H2 & H3 & H4).
  exists c'. split; [exact Hrun|]. split; [|done].
  assert (map (c_reg (push (c_reg c r) c)) rs = map (c_reg c) rs) as E.
  { apply map_ext_in. intros x Hx. cbn. apply upd_ne. intros ->. by apply Hn, list_elem_of_In. }
  rewrite E in Hp. apply (pushed_app [c_reg c r] _ c _ c' (push_pushed _ _) Hp).
Qed.

(** Popping values the stack holds into distinct registers. *)
Lemma run_pops rs : ∀ c vs, RSP ∉ rs → NoDup rs → length vs = length rs →
  (∀ k v, vs !! k = Some v → c_mem c !! (c_reg c RSP + 8 * Z.of_nat k) = Some v) →
  ∃ c', run (map Pop rs) c = Some c' ∧ c_mem c' = c_mem c ∧ c_reg c' RSP = c_reg c RSP + 8 * Z.of_nat (length rs) ∧
    (∀ k r v, rs !! k = Some r → vs !! k = Some v → c_reg c' r = v) ∧ (∀ r, r ∉ rs → r ≠ RSP → c_reg c' r = c_reg c r) ∧
    c_rip c' = c_rip c ∧ c_cs c' = c_cs c ∧ c_flags c' = c_flags c ∧ c_ss c' = c_ss c.
Proof.
  induction rs as [|r rs IH]; intros c vs Hn Hd Hl Hm; [exists c; split_and!; try done; cbn; lia|].
  destruct vs as [|v vs]; [done|]. apply not_elem_of_cons in Hn as [Hr Hn]. apply NoDup_cons in Hd as [Hnr Hd].
  pose proof (Hm O v eq_refl) as Hv. replace (c_reg c RSP + 8 * Z.of_nat 0) with (c_reg c RSP) in Hv by lia.
  set (c1 := set_reg r v (set_reg RSP (c_reg c RSP + 8) c)).
  assert (c_reg c1 RSP = c_reg c RSP + 8) as Hsp by (cbn; rewrite upd_ne by done; apply upd_eq).
  destruct (IH c1 vs Hn Hd ltac:(simpl in Hl; lia)) as (c' & Hrun & H1 & H2 & H3 & H4 & H5).
  { intros k v' Hk. rewrite Hsp. rewrite <- (Hm (S k) v' Hk). cbn [c_mem c1 set_reg]. f_equal. lia. }
  exists c'. split; [|split; [done|split; [|split; [|split; [|done]]]]].
  - cbn [map run]. unfold step, pop. rewrite Hv. exact Hrun.
  - rewrite H2, Hsp. cbn [length]. lia.
  - intros [|k] x w Hk Hw; [|by apply (H3 k)]. injection Hk as <-. injection Hw as <-. rewrite H4 by done. apply upd_eq.
  - intros x [Hx1 Hx2]%not_elem_of_cons Hx3. rewrite H4 by done. cbn. by rewrite !upd_ne.
Qed.

(** The top of the stack after pushing. *)
Lemma pushed_top vs c c' j v : pushed vs c c' → reverse vs !! j = Some v → c_mem c' !! (c_reg c' RSP + 8 * Z.of_nat j) = Some v.
Proof.
  intros [A1 A2 A3 A4] Hj. pose proof (lookup_lt_Some _ _ _ Hj) as Hlt. rewrite length_reverse in Hlt.
  rewrite reverse_lookup in Hj by done. rewrite <- (A3 _ _ Hj). f_equal. rewrite A1. lia.
Qed.

Lemma map_regs (f g : reg → Z) rs : RSP ∉ rs → (∀ r, r ≠ RSP → f r = g r) → map f rs = map g rs.
Proof. intros Hn H. apply map_ext_in. intros r Hr. apply H. intros ->. by apply Hn, list_elem_of_In. Qed.

Lemma pop_ok c v : c_mem c !! c_reg c RSP = Some v → pop c = Some (v, set_reg RSP (c_reg c RSP + 8) c).
Proof. intros H. unfold pop. by rewrite H. Qed.

Lemma pop_next c sp v : c_mem c !! sp = Some v → pop (set_reg RSP sp c) = Some (v, set_reg RSP (sp + 8) (set_reg RSP sp c)).
Proof. intros H. rewrite (pop_ok _ v); cbn; by rewrite upd_eq. Qed.

Lemma iretq_ok c rip cs flags sp ss : let a := c_reg c RSP in
  c_mem c !! a = Some rip → c_mem c !! (a + 8) = Some cs → c_mem c !! (a + 8 + 8) = Some flags → c_mem c !! (a + 8 + 8 + 8) = Some sp →
  c_mem c !! (a + 8 + 8 + 8 + 8) = Some ss →
  ∃ c', iretq c = Some c' ∧ c_mem c' = c_mem c ∧ c_rip c' = rip ∧ c_cs c' = cs ∧ c_flags c' = flags ∧ c_ss c' = ss ∧
    c_reg c' RSP = sp ∧ ∀ r, r ≠ RSP → c_reg c' r = c_reg c r.
Proof.
  intros a H1 H2 H3 H4 H5. unfold iretq. rewrite (pop_ok c rip H1). cbn [mbind option_bind]. fold a.
  rewrite (pop_next c _ cs H2). cbn [mbind option_bind]. rewrite (pop_next (set_reg RSP (a + 8) c) _ flags H3). cbn [mbind option_bind].
  rewrite (pop_next (set_reg RSP (a + 8 + 8) (set_reg RSP (a + 8) c)) _ sp H4). cbn [mbind option_bind].
  rewrite (pop_next (set_reg RSP (a + 8 + 8 + 8) (set_reg RSP (a + 8 + 8) (set_reg RSP (a + 8) c))) _ ss H5). cbn [mbind option_bind].
  eexists. split; [reflexivity|]. cbn. split_and!; try done. intros r Hr. by rewrite !upd_ne.
Qed.

(** What a C function called by a stub keeps: the stack pointer and the stack above it. *)
Definition keeps_stack (f : cpu → cpu) : Prop :=
  ∀ c, c_reg (f c) RSP = c_reg c RSP ∧ ∀ a, c_reg c RSP ≤ a → c_mem (f c) !! a = c_mem c !! a.

(** ** Interrupts *)

(** The fields of [interrupt_frame], in order. *)
Definition frame_words (c : cpu) (v e : Z) : list Z :=
  map (c_reg c) [RAX; RBX; RCX; RDX; RSI; RDI; RBP; R8; R9; R10; R11; R12; R13; R14; R15] ++
  [v; e; c_rip c; c_cs c; c_flags c; c_reg c RSP; c_ss c].

Definition isr_tail (v : Z) : list instr := PushI v :: map Push isr_regs ++ [Mov RDI RSP].

Lemma isr_enter_run v d : run (isr_enter v) d = run (isr_tail v) (if isr_err v then d else push 0 d).
Proof. unfold isr_enter. by destruct (isr_err v). Qed.

(** The rest of the stub on any stack. *)
Lemma isr_tail_ok v d base vs (f : reg → Z) : pushed vs base d → (∀ r, r ≠ RSP → c_reg base r = f r) →
  ∃ x, run (isr_tail v) d = Some x ∧ c_reg x RDI = c_reg x RSP ∧ pushed (vs ++ v :: map f isr_regs) (set_reg RDI (c_reg x RSP) base) x.
Proof.
  intros Hd Hf. unfold isr_tail. cbn [run step mbind option_bind]. rewrite run_app.
  pose proof (pushed_app _ [v] _ _ _ Hd (push_pushed v d)) as Hy. set (y := push v d) in *. clearbody y.
  destruct (run_pushes isr_regs y) as (z & -> & Hz & _); [by apply (bool_decide_unpack _); vm_compute; exact I|].
  rewrite (map_regs (c_reg y) f) in Hz; [|by apply (bool_decide_unpack _); vm_compute; exact I|].
  2:{ intros r Hr. rewrite (pu_reg _ _ _ Hy) by done. by apply Hf. }
  pose proof (pushed_app _ _ _ _ _ Hy Hz) as Hp. rewrite <- app_assoc in Hp. cbn [app] in Hp. cbn [run step mbind option_bind].
  exists (set_reg RDI (c_reg z RSP) z). split; [done|]. split; [cbn; by rewrite upd_eq, upd_ne|]. destruct Hp as [P1 P2 P3 P4].
  split; cbn; rewrite ?(upd_ne RDI _ _ RSP) by done; try done.
  intros r Hr. unfold upd. destruct (decide (r = RDI)); [done|]. by apply P2.
Qed.

Section interrupt.
Context (v err isr_addr rsp0 kcs : Z) (c : cpu) (Hv : 0 ≤ v < 48).
Let e : Z := if has_error v then err else 0.
Let base : cpu := set_reg RSP ((if Z.land (c_cs c) 3 =? 0 then c_reg c RSP else rsp0) / 16 * 16) c.

Lemma isr_err_spec : isr_err v = has_error v.
Proof.
  assert (v ∈ seqZ 0 48) as Hin by (apply elem_of_seqZ; lia).
  assert (Forall (λ x, isr_err x = has_error x) (seqZ 0 48)) as Hall by (apply (bool_decide_unpack _); vm_compute; exact I).
  rewrite Forall_forall in Hall. by apply Hall.
Qed.

Lemma deliver_pushed : pushed ([c_ss c; c_reg c RSP; c_flags c; c_cs c; c_rip c] ++ if has_error v then [err] else [])
  base (deliver v err isr_addr rsp0 kcs c).
Proof.
  unfold deliver. fold base. cbv zeta. generalize (if Z.land (c_cs c) 3 =? 0 then c_ss c else 0) as ss'. intros ss'.
  set (c2 := push (c_rip c) _). assert (pushed [c_ss c; c_reg c RSP; c_flags c; c_cs c; c_rip c] base c2) as H2.
  { apply (pushed_app [_; _; _; _] [_] base (push (c_cs c) (push (c_flags c) (push (c_reg c RSP) (push (c_ss c) base))))); [|apply push_pushed].
    apply (pushed_app [_; _; _] [_] base (push (c_flags c) (push (c_reg c RSP) (push (c_ss c) base)))); [|apply push_pushed].
    apply (pushed_app [_; _] [_] base (push (c_reg c RSP) (push (c_ss c) base))); [|apply push_pushed].
    apply (pushed_app [_] [_] base (push (c_ss c) base)); apply push_pushed. }
  destruct (has_error v).
  - apply (pushed_ext _ _ _ _ (pushed_app _ [err] _ _ _ H2 (push_pushed err c2))); cbn [c_reg c_mem]; reflexivity.
  - rewrite app_nil_r. apply (pushed_ext _ _ _ _ H2); cbn [c_reg c_mem]; reflexivity.
Qed.

Lemma isr_enter_ok : ∃ x, run (isr_enter v) (deliver v err isr_addr rsp0 kcs c) = Some x ∧ c_reg x RDI = c_reg x RSP ∧
  c_reg x RSP = c_reg base RSP - 176 ∧ (∀ k w, frame_words c v e !! k = Some w → c_mem x !! (c_reg x RSP + 8 * Z.of_nat k) = Some w) ∧
  ∀ a, c_reg base RSP ≤ a → c_mem x !! a = c_mem c !! a.
Proof.
  rewrite isr_enter_run, isr_err_spec. pose proof deliver_pushed as H. set (d := deliver _ _ _ _ _ _) in *. clearbody d.
  assert (pushed [c_ss c; c_reg c RSP; c_flags c; c_cs c; c_rip c; e] base (if has_error v then d else push 0 d)) as Hy.
  { unfold e. destruct (has_error v); [exact H|]. rewrite app_nil_r in H. apply (pushed_app _ [0] _ _ _ H (push_pushed 0 d)). }
  destruct (isr_tail_ok v _ base _ (c_reg c) Hy) as (x & -> & Hrdi & Hp).
  { intros r Hr. cbn. by apply upd_ne. }
  assert (c_reg (set_reg RDI (c_reg x RSP) base) RSP = c_reg base RSP) as E by (cbn; by rewrite upd_ne).
  exists x. split; [done|]. split; [done|]. split; [rewrite (pu_rsp _ _ _ Hp), E; cbn [length app map isr_regs]; lia|]. split.
  - intros k w Hk. eapply pushed_top; [exact Hp|exact Hk].
  - intros a Ha. rewrite (pu_old _ _ _ Hp) by lia. done.
Qed.

Lemma isr_leave_ok x : (∀ k w, frame_words c v e !! k = Some w → c_mem x !! (c_reg x RSP + 8 * Z.of_nat k) = Some w) →
  ∃ c', (run isr_leave x ≫= iretq) = Some c' ∧ (∀ r, c_reg c' r = c_reg c r) ∧ c_mem c' = c_mem x ∧
    c_rip c' = c_rip c ∧ c_cs c' = c_cs c ∧ c_flags c' = c_flags c ∧ c_ss c' = c_ss c.
Proof.
  intros Hf. unfold isr_leave. rewrite run_app.
  destruct (run_pops (rev isr_regs) x (take 15 (frame_words c v e))) as (y & -> & Hm & Hsp & Hr & _).
  { by apply (bool_decide_unpack _); vm_compute; exact I. }
  { by apply (bool_decide_unpack _); vm_compute; exact I. }
  { done. }
  { intros k w Hk. apply Hf. apply lookup_take_Some in Hk. apply Hk. }
  cbn [mbind option_bind run step]. set (y1 := set_reg RSP _ _).
  assert (c_reg y1 RSP = c_reg x RSP + 8 * Z.of_nat 17) as Hsp1 by (cbn; rewrite upd_eq, Hsp; cbn [length rev isr_regs app]; lia).
  assert (∀ k a w, frame_words c v e !! k = Some w → a = c_reg x RSP + 8 * Z.of_nat k → c_mem y1 !! a = Some w) as Hfy.
  { intros k a w Hk ->. cbn [c_mem set_reg y1]. rewrite Hm. by apply Hf. }
  destruct (iretq_ok y1 (c_rip c) (c_cs c) (c_flags c) (c_reg c RSP) (c_ss c)) as (c' & Hi & M & R1 & R2 & R3 & R4 & R5 & R6).
  { apply (Hfy 17%nat); [done|lia]. } { apply (Hfy 18%nat); [done|lia]. } { apply (Hfy 19%nat); [done|lia]. }
  { apply (Hfy 20%nat); [done|lia]. } { apply (Hfy 21%nat); [done|lia]. }
  exists c'. split; [done|]. split; [|rewrite M; done]. intros r.
  destruct (decide (r = RSP)) as [->|Hne]; [done|]. rewrite R6 by done. cbn [c_reg set_reg y1]. rewrite upd_ne by done.
  destruct r; try done;
  [eapply (Hr 0%nat)|eapply (Hr 1%nat)|eapply (Hr 2%nat)|eapply (Hr 3%nat)|eapply (Hr 4%nat)|eapply (Hr 5%nat)|eapply (Hr 6%nat)|eapply (Hr 7%nat)
  |eapply (Hr 8%nat)|eapply (Hr 9%nat)|eapply (Hr 10%nat)|eapply (Hr 11%nat)|eapply (Hr 12%nat)|eapply (Hr 13%nat)|eapply (Hr 14%nat)]; reflexivity.
Qed.
End interrupt.


(** ** System calls *)

(** What the stack holds during the call, from the top. *)
Definition saved_words (c : cpu) : list Z :=
  map (c_reg c) [R9; R8; RDX; RSI; RDI; R15; R14; R13; R12; RBX; RBP] ++ [c_flags c; c_rip c; c_reg c RSP].

Lemma shuffle_ok y : ∃ x, run [Mov RCX RDX; Mov RDX RSI; Mov RSI RDI; Mov RDI RAX] y = Some x ∧ c_mem x = c_mem y ∧
  c_reg x RSP = c_reg y RSP ∧ c_reg x RDI = c_reg y RAX ∧ c_reg x RSI = c_reg y RDI ∧ c_reg x RDX = c_reg y RSI ∧
  c_reg x RCX = c_reg y RDX ∧ c_reg x R8 = c_reg y R8 ∧ c_reg x R9 = c_reg y R9.
Proof. eexists. split; [reflexivity|]. by split_and!. Qed.

Lemma syscall_enter_ok lstar krsp c : ∃ x, run (syscall_enter krsp) (syscall_insn lstar c) = Some x ∧ c_reg x RSP = krsp - 112 ∧
  c_reg x RDI = c_reg c RAX ∧ c_reg x RSI = c_reg c RDI ∧ c_reg x RDX = c_reg c RSI ∧ c_reg x RCX = c_reg c RDX ∧
  c_reg x R8 = c_reg c R8 ∧ c_reg x R9 = c_reg c R9 ∧
  ∀ k w, saved_words c !! k = Some w → c_mem x !! (c_reg x RSP + 8 * Z.of_nat k) = Some w.
Proof.
  unfold syscall_enter. rewrite run_app. cbn [run step mbind option_bind]. set (s := set_reg RSP krsp _).
  assert (c_reg s RSP = krsp ∧ c_reg s R10 = c_reg c RSP ∧ c_reg s RCX = c_rip c ∧ c_reg s R11 = c_flags c ∧
    ∀ r, r ∉ [RSP; R10; RCX; R11] → c_reg s r = c_reg c r) as (S1 & S2 & S3 & S4 & S5).
  { subst s. split_and!; try reflexivity. intros r Hr. cbn. unfold upd. repeat case_decide; subst; try done; exfalso; apply Hr; set_solver. }
  clearbody s. rewrite run_app.
  destruct (run_pushes syscall_saved s) as (y & -> & Hy & _); [by apply (bool_decide_unpack _); vm_compute; exact I|].
  destruct (shuffle_ok y) as (x & Hx & Xm & Xs & X1 & X2 & X3 & X4 & X5 & X6). exists x. split; [exact Hx|].
  assert (∀ r, r ∉ [RSP; R10; RCX; R11] → c_reg y r = c_reg c r) as Yr.
  { intros r Hr. rewrite (pu_reg _ _ _ Hy) by (intros ->; set_solver). by apply S5. }
  rewrite Xs, X1, X2, X3, X4, X5, X6, Xm. split; [rewrite (pu_rsp _ _ _ Hy), S1; cbn [length map syscall_saved]; lia|].
  split_and!; try (apply Yr; apply (bool_decide_unpack _); vm_compute; exact I).
  intros k w Hk. eapply pushed_top; [exact Hy|].
  assert (map (c_reg s) syscall_saved = [c_reg c RSP; c_rip c; c_flags c] ++ map (c_reg c) [RBP; RBX; R12; R13; R14; R15; RDI; RSI; RDX; R8; R9]) as ->.
  { unfold syscall_saved. cbn [map app]. rewrite S2, S3, S4. repeat (rewrite S5 by (apply (bool_decide_unpack _); vm_compute; exact I)). done. }
  exact Hk.
Qed.

(** C9: a system call hands [syscall_dispatch] the number and the five arguments in the C calling convention, on an aligned
    stack if the kernel stack is, and returns to the instruction behind [syscall] with the user's stack, flags and
    selectors and every register as it was, except the result in RAX and the three registers the convention gives away. *)
Theorem syscall_preserves (dispatch : cpu → cpu) (lstar krsp : Z) (c : cpu) :
  keeps_stack dispatch → krsp mod 16 = 0 →
  ∃ x c', run (syscall_enter krsp) (syscall_insn lstar c) = Some x ∧ c_reg x RSP mod 16 = 0 ∧
    map (c_reg x) [RDI; RSI; RDX; RCX; R8; R9] = map (c_reg c) [RAX; RDI; RSI; RDX; R8; R9] ∧
    syscall dispatch lstar krsp c = Some c' ∧ c_reg c' RAX = c_reg (dispatch x) RAX ∧
    (∀ r, r ∉ [RAX; RCX; R10; R11] → c_reg c' r = c_reg c r) ∧
    c_rip c' = c_rip c ∧ c_flags c' = c_flags c ∧ c_cs c' = USER_CODE_SEL ∧ c_ss c' = USER_DATA_SEL.
Proof.
  intros Hk Ha. destruct (syscall_enter_ok lstar krsp c) as (x & Hx & Hsp & A1 & A2 & A3 & A4 & A5 & A6 & Hm). destruct (Hk x) as [K1 K2].
  set (d := dispatch x) in *. assert (∀ k w, saved_words c !! k = Some w → c_mem d !! (c_reg d RSP + 8 * Z.of_nat k) = Some w) as Hd by (intros k w Hw; rewrite K1, K2 by lia; by apply Hm).
  destruct (run_pops [R9; R8; RDX; RSI; RDI; R15; R14; R13; R12; RBX; RBP; R11; RCX] d
    (take 13 (saved_words c))) as (y & Hy & Hmem & Hys & Hr & Ho & _).
  { by apply (bool_decide_unpack _); vm_compute; exact I. } { by apply (bool_decide_unpack _); vm_compute; exact I. } { done. }
  { intros k w Hw. apply Hd. apply lookup_take_Some in Hw. apply Hw. }
  exists x, (sysret_insn (set_reg RSP (c_reg c RSP) (set_reg RSP (c_reg y RSP + 8) y))). split; [done|]. split; [rewrite Hsp; dlia|].
  split; [cbn [map]; by rewrite A1, A2, A3, A4, A5, A6|]. split.
  { unfold syscall. rewrite Hx. cbn [mbind option_bind]. fold d. change syscall_leave with
      (map Pop [R9; R8; RDX; RSI; RDI; R15; R14; R13; R12; RBX; RBP; R11; RCX] ++ [Pop RSP]). rewrite run_app, Hy. cbn [mbind option_bind run step].
    rewrite (pop_ok y (c_reg c RSP)); [done|]. rewrite Hmem, Hys. by apply (Hd 13%nat). }
  split; [cbn; rewrite !upd_ne by done; by apply Ho; [apply (bool_decide_unpack _); vm_compute; exact I|]|]. split; [|split; [|split; [|done]]].
  - intros r Hrn. cbn [c_reg sysret_insn set_reg]. destruct (decide (r = RSP)) as [->|Hne]; [apply upd_eq|]. rewrite !upd_ne by done.
    destruct r; try (exfalso; apply Hne; reflexivity); try (exfalso; apply Hrn; apply (bool_decide_unpack _); vm_compute; exact I);
    [eapply (Hr 9%nat)|eapply (Hr 2%nat)|eapply (Hr 3%nat)|eapply (Hr 4%nat)|eapply (Hr 10%nat)|eapply (Hr 1%nat)|eapply (Hr 0%nat)
    |eapply (Hr 8%nat)|eapply (Hr 7%nat)|eapply (Hr 6%nat)|eapply (Hr 5%nat)]; reflexivity.
  - cbn [c_rip sysret_insn c_reg set_reg]. rewrite !upd_ne by done. by eapply (Hr 12%nat).
  - cbn [c_flags sysret_insn c_reg set_reg]. rewrite !upd_ne by done. by eapply (Hr 11%nat).
Qed.

(** ** The tables *)

Lemma foldl_set (f : Z → idt_entry) vs : ∀ l v, 0 ≤ v < Z.of_nat (length l) → Forall (Z.le 0) vs →
  foldl (λ t i, <[Z.to_nat i := f i]> t) l vs !! Z.to_nat v = if bool_decide (v ∈ vs) then Some (f v) else l !! Z.to_nat v.
Proof.
  induction vs as [|i vs IH]; intros l v Hv Hi; cbn [foldl]; [by rewrite bool_decide_eq_false_2 by apply not_elem_of_nil|].
  apply Forall_cons in Hi as [Hi0 Hi]. rewrite IH by (rewrite ?length_insert; done). destruct (decide (v ∈ vs)) as [Hin|Hin].
  - rewrite !bool_decide_eq_true_2; [done|by apply elem_of_cons; right|done].
  - rewrite (bool_decide_eq_false_2 (v ∈ vs)) by done. destruct (decide (v = i)) as [->|Hne].
    + rewrite bool_decide_eq_true_2 by (apply elem_of_cons; by left). apply list_lookup_insert_eq. lia.
    + rewrite bool_decide_eq_false_2 by (intros [?|?]%elem_of_cons; done). apply list_lookup_insert_ne. lia.
Qed.

Lemma gate_offset a : 0 ≤ a < 2 ^ 64 →
  u16 (Z.land a 0xFFFF) + 2 ^ 16 * u16 (Z.land (Z.shiftr a 16) 0xFFFF) + 2 ^ 32 * u32 (Z.land (Z.shiftr a 32) 0xFFFFFFFF) = a.
Proof.
  intros Ha. change 0xFFFF with (Z.ones 16). change 0xFFFFFFFF with (Z.ones 32). rewrite !Z.land_ones, !Z.shiftr_div_pow2 by lia.
  unfold u16, u32. dlia.
Qed.

(** [idt_init]: the 48 vectors lead to their stubs, every other gate is absent. *)
Lemma idt_init_gates cs isrs idt v : length idt = 256%nat → length isrs = 48%nat → Forall (λ a, 0 ≤ a < 2 ^ 64) isrs → 0 ≤ v < 256 →
  ∃ g, idt_init cs isrs idt !! Z.to_nat v = Some g ∧ gate_target g = if v <? 48 then Some (cs, nth (Z.to_nat v) isrs 0) else None.
Proof.
  intros Hl Hn Hr Hv. unfold idt_init, idt_set_gate.
  assert (∀ n, 0 ≤ n → Forall (Z.le 0) (seqZ 0 n)) as Hz by (intros n Hn'; apply Forall_forall; intros x ?%elem_of_seqZ; lia).
  set (t1 := foldl _ idt _). assert (length t1 = 256%nat) as Hl1.
  { subst t1. generalize (seqZ 0 256). intros l. revert idt Hl. induction l as [|x l IH]; intros idt Hl; [done|]. cbn [foldl]. apply IH. by rewrite length_insert. }
  rewrite (foldl_set (λ i, mkGate _ cs 0 0x8E _ _ 0)) by (lia || (apply Hz; lia)).
  destruct (Z.ltb_spec v 48) as [Hlt|Hge].
  - rewrite bool_decide_eq_true_2 by (apply elem_of_seqZ; lia). eexists. split; [reflexivity|]. unfold gate_target. cbn [type_attr selector offset_low offset_mid offset_high].
    change (Z.testbit 0x8E 7 && (Z.land 0x8E 0x1F =? 0x0E)) with true. cbv iota. do 2 f_equal. apply gate_offset.
    assert (nth (Z.to_nat v) isrs 0 ∈ isrs) as Hin.
    { apply list_elem_of_In, nth_In. lia. }
    rewrite Forall_forall in Hr. by apply Hr.
  - rewrite bool_decide_eq_false_2 by (intros ?%elem_of_seqZ; lia). subst t1.
    rewrite (foldl_set (λ i, mkGate _ cs 0 0 _ _ 0)) by (lia || (apply Hz; lia)).
    rewrite bool_decide_eq_true_2 by (apply elem_of_seqZ; lia). eexists. split; [reflexivity|]. done.
Qed.

(** The selectors name segments of the ring and kind they are used for, those [sysret] loads among them. *)
Lemma gdt_selectors tss :
  let sg sel ring code long := let w := descriptor (gdt_init tss) sel in
    d_present w = true ∧ d_ring w = ring ∧ d_code w = code ∧ d_system w = false ∧ (code = true → d_long w = long) in
  sg KERNEL_CODE_SEL 0 true true ∧ sg KERNEL_DATA_SEL 0 false true ∧ sg USER_CODE_SEL 3 true true ∧ sg USER_DATA_SEL 3 false true ∧
  Z.land (Z.shiftr star 32) 0xFFFC = KERNEL_CODE_SEL ∧ Z.land (Z.shiftr star 32) 0xFFFF + 8 = KERNEL_DATA_SEL ∧
  Z.lor (Z.shiftr star 48 + 16) 3 = USER_CODE_SEL ∧ Z.lor (Z.shiftr star 48 + 8) 3 = USER_DATA_SEL.
Proof. cbv zeta. split_and!; try (intros _); vm_compute; reflexivity. Qed.

(** The descriptor of the task state segment leads back to it. *)
Lemma tss_descriptor tss : 0 ≤ tss < 2 ^ 64 →
  system_base (descriptor (gdt_init tss) TSS_SEL) (descriptor (gdt_init tss) (TSS_SEL + 8)) = tss.
Proof.
  intros Ht. unfold descriptor. change (Z.to_nat (TSS_SEL / 8)) with 6%nat. change (Z.to_nat ((TSS_SEL + 8) / 8)) with 7%nat.
  cbn [gdt_init nth]. unfold system_base, tss_words. cbn [fst snd].
  change (Z.land (sizeof_tss - 1) 0xFFFF) with 103. change (Z.land (Z.shiftr (sizeof_tss - 1) 16) 0xF) with 0.
  change 0xFFFFFFFF with (Z.ones 32). change 0xFFFFFF with (Z.ones 24). change 0xFFFF with (Z.ones 16). change 0xFF with (Z.ones 8).
  rewrite !Z.land_ones, !Z.shiftr_div_pow2 by lia. dlia.
Qed.

(** ** Witnesses *)

Definition demo_cpu : cpu := mkCpu (λ r, if decide (r = RSP) then 0x7000 else if decide (r = RBX) then 5 else 1) 0x400123 0x2B 0x202 0x23 ∅.

Lemma id_keeps_stack : keeps_stack id.
Proof. by split. Qed.


Lemma rax_keeps_stack v : keeps_stack (set_reg RAX v).
Proof. intros c. split; [|done]. cbn. by rewrite upd_ne. Qed.

Lemma syscall_preserves_witness : ∃ c', syscall (set_reg RAX 42) 0x2000 0x9000 demo_cpu = Some c' ∧ c_reg c' RBX = 5 ∧ c_reg c' RAX = 42.
Proof.
  destruct (syscall_preserves (set_reg RAX 42) 0x2000 0x9000 demo_cpu (rax_keeps_stack 42) eq_refl) as (x & c' & _ & _ & _ & H & Ha & R & _).
  exists c'. split; [exact H|]. split; [|rewrite Ha; apply upd_eq].
  rewrite R; [reflexivity|]. apply (bool_decide_unpack _). vm_compute. exact I.
Defined.

End Entry.
