(* ===== verification/Irq.v ===== *)
(** * Interrupts: the controllers, the dispatcher and the timer
      ([kernel/io/pic.c], [interrupt_dispatch] of [kernel/cpu/idt.c],
      [timer_handler] of [kernel/io/timer.c])

    The two 8259 controllers are a device behind the ports.  The dispatcher
    acknowledges an interrupt and calls the handler registered for its vector;
    the timer's handler drives the sleep queue and the scheduler.  The handler
    table and the two polls of the timer handler are parameters. *)
From S2P Require Import Prelude Ports Kobj Sched.
Import Kobj Sched.

Module Irq.

(** ** The driver *)

Definition PIC1_COMMAND : Z := 0x20.
Definition PIC1_DATA : Z := 0x21.
Definition PIC2_COMMAND : Z := 0xA0.
Definition PIC2_DATA : Z := 0xA1.
Definition PIC_EOI : Z := 0x20.

Section driver.
Context {D : Type} `{!Ports D}.

Definition pic_remap (offset1 offset2 : Z) : M D unit :=
  a1 ← inb PIC1_DATA;
  a2 ← inb PIC2_DATA;
  outb PIC1_COMMAND 0x11 ;; io_wait ;;
  outb PIC2_COMMAND 0x11 ;; io_wait ;;
  outb PIC1_DATA offset1 ;; io_wait ;;
  outb PIC2_DATA offset2 ;; io_wait ;;
  outb PIC1_DATA 4 ;; io_wait ;;
  outb PIC2_DATA 2 ;; io_wait ;;
  outb PIC1_DATA 0x01 ;; io_wait ;;
  outb PIC2_DATA 0x01 ;; io_wait ;;
  outb PIC1_DATA a1 ;;
  outb PIC2_DATA a2.

Definition pic_send_eoi (irq : Z) : M D unit :=
  when (8 <=? irq) (outb PIC2_COMMAND PIC_EOI) ;;
  outb PIC1_COMMAND PIC_EOI.

Definition pic_mask_all : M D unit :=
  outb PIC1_DATA 0xFF ;;
  outb PIC2_DATA 0xFF.

Definition pic_unmask_irq (irq : Z) : M D unit :=
  let port := if irq <? 8 then PIC1_DATA else PIC2_DATA in
  let irq := if irq <? 8 then irq else irq - 8 in
  value ← inb port;
  outb port (Z.land value (Z.lnot (Z.shiftl 1 irq))).

(** The sequence of [kernel_main]. *)
Definition pic_setup : M D unit :=
  pic_remap 32 40 ;;
  pic_mask_all ;;
  pic_unmask_irq 0 ;;
  pic_unmask_irq 1 ;;
  pic_unmask_irq 2 ;;
  pic_unmask_irq 12.
End driver.

(** ** Dispatching *)

Record machine (D S : Type) := mkMachine { m_hw : D; m_kernel : S; m_ticks : Z }.
Arguments mkMachine {D S}.
Arguments m_hw {D S}.
Arguments m_kernel {D S}.
Arguments m_ticks {D S}.

Section dispatch.
Context {D S : Type} `{!Ports D}.
Local Notation Mc := (machine D S).

Definition on_ports {A} (m : M D A) : M Mc A := zoom m_hw (λ d s, mkMachine d (m_kernel s) (m_ticks s)) m.
Definition on_kernel {A} (m : M S A) : M Mc A := zoom m_kernel (λ k s, mkMachine (m_hw s) k (m_ticks s)) m.

(** [g_handlers] and [g_default_handler]. *)
Definition interrupt_dispatch (g_handlers : list (option (M Mc unit))) (g_default_handler : option (M Mc unit)) (vector : Z) : M Mc unit :=
  when ((32 <=? vector) && (vector <? 48)) (on_ports (pic_send_eoi (u8 (vector - 32)))) ;;
  h ← of_option (g_handlers !! Z.to_nat vector);
  match h with
  | Some handler => handler
  | None => match g_default_handler with Some handler => handler | None => mret tt end
  end.
End dispatch.

(** ** The timer *)

Section timer.
Context {D A : Type} `{!Ports D}.
Local Notation Mc := (machine D (kstate A)).
Context (poll_nics xhci_poll : M Mc unit).

(** [g_timer_ticks] is an [int]; the remainders are C's. *)
Definition timer_handler : M Mc unit :=
  modify (λ s, mkMachine (m_hw s) (m_kernel s) (i32 (m_ticks s + 1))) ;;
  t ← gets m_ticks;
  on_kernel (sleep_queue_wake (u64 t)) ;;
  when (Z.rem t 50 =? 0) poll_nics ;;
  when (Z.rem t 8 =? 0) xhci_poll ;;
  run ← gets (λ s, g_scheduler_running (m_kernel s));
  when ((Z.rem t 10 =? 0) && truthy run) (on_kernel schedule).
End timer.

(** ** The controllers *)

(** One 8259: the initialisation step it waits for, its vector base, its mask
    and the requests in service. *)
Record pic := mkPic { k_step : nat; k_base : Z; k_mask : Z; k_isr : Z }.
Record pics := mkPics { master : pic; slave : pic }.

Definition pic_command (v : Z) (p : pic) : pic :=
  if Z.testbit v 4 then mkPic 1 (k_base p) 0 0
  else if v =? 0x20 then mkPic (k_step p) (k_base p) (k_mask p) (Z.land (k_isr p) (k_isr p - 1))
  else p.

Definition pic_data (v : Z) (p : pic) : pic :=
  match k_step p with
  | O => mkPic 0 (k_base p) v (k_isr p)
  | 1%nat => mkPic 2 (Z.land v 0xF8) (k_mask p) (k_isr p)
  | 2%nat => mkPic 3 (k_base p) (k_mask p) (k_isr p)
  | _ => mkPic 0 (k_base p) (k_mask p) (k_isr p)
  end.

Definition pics_in (width port : Z) (p : pics) : Z * pics :=
  if port =? PIC1_DATA then (k_mask (master p), p) else if port =? PIC2_DATA then (k_mask (slave p), p) else (0xFF, p).

Definition pics_out (width port v : Z) (p : pics) : pics :=
  if port =? PIC1_COMMAND then mkPics (pic_command v (master p)) (slave p)
  else if port =? PIC1_DATA then mkPics (pic_data v (master p)) (slave p)
  else if port =? PIC2_COMMAND then mkPics (master p) (pic_command v (slave p))
  else if port =? PIC2_DATA then mkPics (master p) (pic_data v (slave p))
  else p.

#[export] Instance pics_ports : Ports pics := {| port_in := pics_in; port_out := pics_out |}.

(** A request on line [irq] with nothing in service: the vector the processor
    gets, and the lines then in service (the slave sits on line 2 of the master). *)
Definition raise (irq : Z) (p : pics) : option (Z * pics) :=
  if irq <? 8 then
    if Z.testbit (k_mask (master p)) irq then None
    else Some (k_base (master p) + irq, mkPics (mkPic (k_step (master p)) (k_base (master p)) (k_mask (master p)) (Z.shiftl 1 irq)) (slave p))
  else
    if Z.testbit (k_mask (master p)) 2 || Z.testbit (k_mask (slave p)) (irq - 8) then None
    else Some (k_base (slave p) + (irq - 8),
               mkPics (mkPic (k_step (master p)) (k_base (master p)) (k_mask (master p)) 4)
                      (mkPic (k_step (slave p)) (k_base (slave p)) (k_mask (slave p)) (Z.shiftl 1 (irq - 8)))).

Definition idle (p : pics) : Prop := k_isr (master p) = 0 ∧ k_isr (slave p) = 0.

Definition set_up : pics := mkPics (mkPic 0 32 0xF8 0) (mkPic 0 40 0xEF 0).

(** Whatever state the firmware left the controllers in. *)
Lemma pic_setup_ok p : k_step (master p) = O → k_step (slave p) = O → pic_setup p = Ok (tt, set_up).
Proof. destruct p as [[[|] b1 m1 i1] [[|] b2 m2 i2]]; intros [=] [=]. reflexivity. Qed.

Definition eoi (p : pic) : pic := mkPic (k_step p) (k_base p) (k_mask p) (Z.land (k_isr p) (k_isr p - 1)).

Lemma outb_eoi p : outb PIC1_COMMAND PIC_EOI p = Ok (tt, mkPics (eoi (master p)) (slave p)) ∧
                   outb PIC2_COMMAND PIC_EOI p = Ok (tt, mkPics (master p) (eoi (slave p))).
Proof. done. Qed.

Lemma eoi_clears irq p : 0 ≤ irq < 16 → idle p →
  ∀ v p', raise irq p = Some (v, p') → pic_send_eoi irq p' = Ok (tt, p).
Proof.
  intros Hi [H1 H2] v p'. unfold raise, pic_send_eoi. destruct p as [[s1 b1 m1 i1] [s2 b2 m2 i2]]. cbn [master slave k_isr k_mask k_step k_base] in *. subst i1 i2.
  assert (∀ k, 0 ≤ k < 8 → Z.land (Z.shiftl 1 k) (Z.shiftl 1 k - 1) = 0) as Hl.
  { intros k Hk. rewrite Z.shiftl_1_l. replace (2 ^ k - 1) with (Z.ones k) by (rewrite Z.ones_equiv; lia).
    rewrite Z.land_ones, Z.mod_same by (try lia; apply Z.pow_nonzero; lia). done. }
  destruct (Z.ltb_spec irq 8).
  - destruct (Z.testbit m1 irq); [done|]. intros [= <- <-]. rewrite (proj2 (Z.leb_gt 8 irq)) by lia. cbn [when].
    rewrite (bind_of_ok _ _ _ _ _ eq_refl), (proj1 (outb_eoi _)). unfold eoi. cbn [master slave k_isr k_step k_base k_mask]. by rewrite Hl by lia.
  - destruct (_ || _); [done|]. intros [= <- <-]. rewrite (proj2 (Z.leb_le 8 irq)) by lia. cbn [when].
    rewrite (bind_of_ok _ _ _ _ _ (proj2 (outb_eoi _))), (proj1 (outb_eoi _)). unfold eoi. cbn [master slave k_isr k_step k_base k_mask]. by rewrite Hl by lia.
Qed.

(** After the kernel's setup the unmasked lines arrive at vectors 32 to 47, and
    each is acknowledged before its handler runs, at both controllers if it came
    through the second. *)
Lemma irq_reaches_handler {S} (handlers : list (option (M (machine pics S) unit))) def irq (handler : M (machine pics S) unit) (s : machine pics S) v p :
  m_hw s = set_up → 0 ≤ irq < 16 → handlers !! Z.to_nat (32 + irq) = Some (Some handler) → raise irq set_up = Some (v, p) →
  v = 32 + irq ∧ interrupt_dispatch handlers def v (mkMachine p (m_kernel s) (m_ticks s)) = handler s.
Proof.
  intros Hs Hi Hh Hr. assert (v = 32 + irq) as ->.
  { unfold raise in Hr. cbn [master slave set_up k_base k_mask k_step] in Hr. destruct (irq <? 8); [destruct (Z.testbit _ _)|destruct (_ || _)]; try done; injection Hr as <- <-; lia. }
  split; [done|]. unfold interrupt_dispatch. rewrite (proj2 (Z.leb_le 32 _)), (proj2 (Z.ltb_lt _ 48)) by lia. cbn [andb when].
  replace (32 + irq - 32) with irq by lia. rewrite u8_small by lia.
  pose proof (eoi_clears irq set_up Hi ltac:(done) _ _ Hr) as He.
  rewrite (bind_of_ok _ _ _ tt (mkMachine set_up (m_kernel s) (m_ticks s))) by (unfold on_ports, zoom; cbn [m_hw]; by rewrite He).
  rewrite Hh, (bind_of_ok _ _ _ _ _ eq_refl), <- Hs. by destruct s.
Qed.

(** C11: a timer interrupt: with the controllers set up as [kernel_main] does and [timer_handler] registered, the request
    arrives at vector 32 and is acknowledged, the tick count goes up by one, and exactly the tasks whose wake time has
    come leave the sleep queue, made ready if they were blocked; then, and only on ticks that are multiples of 50, 8
    and 10, the network cards and the USB controller are polled and the scheduler called. *)
Theorem timer_interrupt {A} (poll_nics xhci_poll : M (machine pics (kstate A)) unit) (handlers : list (option (M (machine pics (kstate A)) unit)))
    def (s : machine pics (kstate A)) v p :
  m_hw s = set_up → handlers !! 32%nat = Some (Some (timer_handler poll_nics xhci_poll)) → raise 0 set_up = Some (v, p) →
  0 ≤ m_ticks s < 2 ^ 31 - 1 → sleep_wf (m_kernel s) → Forall (λ e, is_Some (k_tasks (m_kernel s) !! e.1)) (sleepers (m_kernel s)) →
  let t := m_ticks s + 1 in
  ∃ k q1 q2, sleep_wf k ∧ sleepers (m_kernel s) = q1 ++ q2 ∧ Forall (λ e, e.2 ≤ t) q1 ∧ Forall (λ e, t < e.2) q2 ∧ sleepers k = q2 ∧
    (∀ y, st (k_tasks k) y = woken (k_tasks (m_kernel s)) (fst <$> q1) y) ∧ v = 32 ∧
    interrupt_dispatch handlers def v (mkMachine p (m_kernel s) (m_ticks s)) =
    (when (t mod 50 =? 0) poll_nics ;; when (t mod 8 =? 0) xhci_poll ;;
     run ← gets (λ s, g_scheduler_running (m_kernel s)); when ((t mod 10 =? 0) && truthy run) (on_kernel schedule)) (mkMachine set_up k t).
Proof.
  intros Hs Hh Hr Ht W Hf t. destruct (irq_reaches_handler handlers def 0 _ s v p Hs ltac:(lia) Hh Hr) as [-> ->].
  destruct (wp_run _ _ _ (wake_ok (m_kernel s) t W Hf)) as ([] & k & Hk & W' & q1 & q2 & E & F1 & F2 & E' & Hst).
  exists k, q1, q2. split; [done|]. split; [done|]. split; [done|]. split; [done|]. split; [done|]. split; [done|]. split; [done|].
  unfold timer_handler. rewrite (bind_of_ok _ _ _ _ _ eq_refl). rewrite i32_small by lia. fold t. rewrite (bind_of_ok _ _ _ _ _ eq_refl). cbn [m_ticks].
  rewrite u64_small by lia. rewrite !Z.rem_mod_nonneg by lia. rewrite (bind_of_ok _ _ _ tt (mkMachine set_up k t)); [done|].
  unfold on_kernel, zoom. cbn [m_kernel m_hw m_ticks]. by rewrite Hk, Hs.
Qed.

(** ** Witness *)

Definition demo_timer : machine pics (kstate unit) := mkMachine set_up (demo_sched TASK_RUNNING TASK_BLOCKED TASK_BLOCKED) 6.
Definition demo_handlers : list (option (M (machine pics (kstate unit)) unit)) :=
  replicate 32 None ++ [Some (timer_handler (mret tt) (mret tt))].

Lemma timer_interrupt_witness :
  ∃ (k : kstate unit) q1 q2, sleepers (m_kernel demo_timer) = q1 ++ q2 ∧ Forall (λ e, e.2 ≤ 7) q1 ∧ sleepers k = q2 ∧
    is_ok (interrupt_dispatch demo_handlers None 32 (mkMachine set_up (m_kernel demo_timer) 6)) = true.
Proof.
  assert (sleep_wf (m_kernel demo_timer)) as W.
  { split; [done|by vm_compute|]. unfold sleepers. simpl. unfold by_tick. repeat (constructor; simpl; try lia). }
  destruct (timer_interrupt (mret tt) (mret tt) demo_handlers None demo_timer 32
    (mkPics (mkPic 0 32 0xF8 1) (mkPic 0 40 0xEF 0)) eq_refl eq_refl eq_refl ltac:(cbn; lia) W) as (k & q1 & q2 & _ & E & F1 & _ & E' & _ & _ & _).
  - repeat (constructor; [by eexists|]). constructor.
  - exists k, q1, q2. split; [exact E|]. split; [exact F1|]. split; [exact E'|]. vm_compute. reflexivity.
Defined.

End Irq.
