(* ===== verification/Format.v ===== *)
(** * Formatted output ([kernel/utils/formatting.c], [kernel/io/serial.c],
      [user/lib/stdio.c])

    The kernel's and the user library's [printf] are one algorithm over two
    outputs: the serial port, and a buffer that is either the caller's string or
    flushed to a file descriptor.  A C string is the list of its bytes without
    the terminating NUL; the variable arguments are the words passed, with the
    string a pointer leads to.  A format is built of text and directives, and
    what it must print is defined on these. *)
From S2P Require Import Prelude Ports.

Module Format.

(** ** Variable arguments *)

(** A word, or the address of a string. *)
Inductive varg := VWord (w : Z) | VStr (addr : Z) (s : list Z).
Definition va_list : Type := list varg.

Definition word_of (a : varg) : Z := match a with VWord w => w | VStr addr _ => addr end.

(** The signed value of a 64-bit word. *)
Definition i64 (z : Z) : Z := let w := u64 z in if w <? 2 ^ 63 then w else w - 2 ^ 64.

Definition va_word {S} (args : va_list) : M S (Z * va_list) :=
  match args with a :: args' => mret (u64 (word_of a), args') | [] => fault end.

(** The next argument as a string, "(null)" for a null pointer. *)
Definition NULL_TEXT : list Z := [40; 110; 117; 108; 108; 41].
Definition va_str {S} (args : va_list) : M S (list Z * va_list) :=
  match args with
  | VStr _ s :: args' => mret (s, args')
  | VWord w :: args' => if u64 w =? 0 then mret (NULL_TEXT, args') else fault
  | [] => fault
  end.

Definition hex_lo : list Z := [48; 49; 50; 51; 52; 53; 54; 55; 56; 57; 97; 98; 99; 100; 101; 102].
Definition hex_hi : list Z := [48; 49; 50; 51; 52; 53; 54; 55; 56; 57; 65; 66; 67; 68; 69; 70].

(** [*fmt], the NUL at the end. *)
Definition at_fmt (fmt : list Z) : Z := default 0 (head fmt).

Definition PCT : Z := 37.
Definition ZERO : Z := 48.
Definition SPACE : Z := 32.
Definition MINUS : Z := 45.

Definition is_digit (c : Z) : bool := (48 <=? c) && (c <=? 57).

(** The loop over the digits of the width. *)
Fixpoint parse_width (fmt : list Z) (width : Z) : Z * list Z :=
  match fmt with
  | c :: fmt' => if is_digit c then parse_width fmt' (i32 (width * 10 + (c - ZERO))) else (width, fmt)
  | [] => (width, [])
  end.

(** The padding, the width and the rest, behind a ['%']. *)
Definition parse_directive (fmt : list Z) : Z * Z * list Z :=
  let '(pad, fmt) := if at_fmt fmt =? ZERO then (ZERO, drop 1 fmt) else (SPACE, fmt) in
  let '(width, fmt) := parse_width fmt 0 in
  (pad, width, fmt).

(** The character the [switch] is on, consumed: behind the NUL there is no format to go on with. *)
Definition next_char {S} (fmt : list Z) : M S (Z * list Z) :=
  match fmt with c :: fmt' => mret (c, fmt') | [] => fault end.

(** ** Emitting *)

Section emit.
Context {S : Type} (emit : Z → M S unit).

Fixpoint emit_str (s : list Z) : M S unit :=
  match s with
  | [] => mret tt
  | c :: s' => emit c ;; emit_str s'
  end.

(** [buf[i++] = c] in [char buf[20]], the list being the characters written. *)
Definition buf_put (buf : list Z) (c : Z) : M S (list Z) :=
  if Z.of_nat (length buf) <? 20 then mret (buf ++ [c]) else fault.

Fixpoint digit_loop (fuel : nat) (v base : Z) (digits buf : list Z) : M S (list Z) :=
  if 0 <? v then
    match fuel with
    | O => no_fuel
    | Datatypes.S fuel' =>
        d ← of_option (digits !! Z.to_nat (v mod base));
        buf ← buf_put buf d;
        digit_loop fuel' (v / base) base digits buf
    end
  else mret buf.

Fixpoint pad_loop (n : nat) (pad : Z) (buf : list Z) : M S (list Z) :=
  match n with
  | O => mret buf
  | Datatypes.S n' => buf ← buf_put buf pad; pad_loop n' pad buf
  end.

(** A 64-bit number has at most 64 digits in any base. *)
Definition emit_uint (v base : Z) (digits : list Z) (width pad : Z) : M S unit :=
  buf ← (if v =? 0 then buf_put [] ZERO else mret []);
  buf ← digit_loop 64 v base digits buf;
  buf ← pad_loop (Z.to_nat (width - Z.of_nat (length buf))) pad buf;
  emit_str (rev buf).

Fixpoint emit_pad (n : nat) (pad : Z) : M S unit :=
  match n with
  | O => mret tt
  | Datatypes.S n' => emit pad ;; emit_pad n' pad
  end.

(** The [switch] of [emit_formatted_str]. *)
Definition emit_directive (c pad width : Z) (args : va_list) : M S va_list :=
  if c =? 115 then
    '(s, args) ← (va_str args : M S (list Z * va_list));
    when (0 <? width) (emit_pad (Z.to_nat (width - Z.of_nat (length s))) pad) ;;
    emit_str s ;; mret args
  else if c =? 99 then
    '(w, args) ← (va_word args : M S (Z * va_list)); emit (u8 w) ;; mret args
  else if c =? 100 then
    '(w, args) ← (va_word args : M S (Z * va_list));
    let v := i64 w in
    (if v <? 0 then emit MINUS ;; emit_uint (u64 (- v)) 10 hex_lo width pad else emit_uint (u64 v) 10 hex_lo width pad) ;; mret args
  else if c =? 117 then
    '(w, args) ← (va_word args : M S (Z * va_list)); emit_uint w 10 hex_lo width pad ;; mret args
  else if c =? 120 then
    '(w, args) ← (va_word args : M S (Z * va_list)); emit_uint w 16 hex_lo width pad ;; mret args
  else if c =? 88 then
    '(w, args) ← (va_word args : M S (Z * va_list)); emit_uint w 16 hex_hi width pad ;; mret args
  else if c =? PCT then emit PCT ;; mret args
  else mret args.

Fixpoint format_loop (fuel : nat) (directive : Z → Z → Z → va_list → M S va_list) (fmt : list Z) (args : va_list) : M S unit :=
  match fmt with
  | [] => mret tt
  | c :: fmt' =>
      match fuel with
      | O => no_fuel
      | Datatypes.S fuel' =>
          if negb (c =? PCT) then emit c ;; format_loop fuel' directive fmt' args
          else
            let '(pad, width, fmt) := parse_directive fmt' in
            '(k, fmt) ← (next_char fmt : M S (Z * list Z));
            args ← directive k pad width args;
            format_loop fuel' directive fmt args
      end
  end.

Definition emit_formatted_str (fmt : list Z) (args : va_list) : M S unit :=
  format_loop (length fmt) emit_directive fmt args.
End emit.

(** ** The serial port *)

Section serial.
Context {D : Type} `{!Ports D}.

Definition COM1 : Z := 0x3F8.

Definition serial_init : M D unit :=
  outb (COM1 + 1) 0x00 ;;
  outb (COM1 + 3) 0x80 ;;
  outb (COM1 + 0) 0x03 ;;
  outb (COM1 + 1) 0x00 ;;
  outb (COM1 + 3) 0x03 ;;
  outb (COM1 + 2) 0xC7 ;;
  outb (COM1 + 4) 0x0B.

Definition serial_write_char (c : Z) : M D unit :=
  when (c =? 10) (outb COM1 13) ;;
  outb COM1 c.

Definition serial_write (s : list Z) : M D unit := emit_str serial_write_char s.

Definition serial_write_line (s : list Z) : M D unit :=
  emit_str serial_write_char s ;;
  serial_write_char 10.

(** The digits of [serial_write_ulong] in [char buf[16]]. *)
Fixpoint ulong_digits (fuel : nat) (value : Z) (buf : list Z) : M D (list Z) :=
  if 0 <? value then
    match fuel with
    | O => no_fuel
    | S fuel' =>
        if Z.of_nat (length buf) <? 16 then ulong_digits fuel' (value / 10) (buf ++ [ZERO + value mod 10])
        else fault
    end
  else mret buf.

Definition serial_write_ulong (value : Z) : M D unit :=
  if value =? 0 then serial_write_char ZERO
  else
    buf ← ulong_digits 64 value [];
    emit_str serial_write_char (rev buf).

(** [for (i = n - 1; i >= 0; i--)] *)
Fixpoint for_down (n : nat) (body : Z → M D unit) : M D unit :=
  match n with
  | O => mret tt
  | S n' => body (Z.of_nat n') ;; for_down n' body
  end.

Definition serial_write_hex_value (value byte_count : Z) : M D unit :=
  serial_write [48; 120] ;;
  for_down (Z.to_nat (byte_count * 2)) (λ i,
    c ← of_option (hex_hi !! Z.to_nat (u8 (Z.land (Z.shiftr value (i * 4)) 0xF)));
    serial_write_char c).

Definition serial_write_bin_value (value byte_count : Z) : M D unit :=
  serial_write [48; 98] ;;
  for_down (Z.to_nat (byte_count * 8)) (λ i,
    serial_write_char (if truthy (Z.land (Z.shiftr value i) 1) then 49 else 48) ;;
    when (truthy i && negb (truthy (Z.rem i 4))) (serial_write_char SPACE)).

Definition serial_write_hex8 (value : Z) : M D unit := serial_write_hex_value (u8 value) 1.
Definition serial_write_hex16 (value : Z) : M D unit := serial_write_hex_value (u16 value) 2.
Definition serial_write_hex32 (value : Z) : M D unit := serial_write_hex_value (u32 value) 4.
Definition serial_write_hex (value : Z) : M D unit := serial_write_hex_value value 8.
Definition serial_write_bin8 (value : Z) : M D unit := serial_write_bin_value (u8 value) 1.

Definition serial_printf (fmt : list Z) (args : va_list) : M D unit := emit_formatted_str serial_write_char fmt args.
End serial.

(** ** The user library *)

(** [str] is the caller's buffer in [sprintf] mode; [fb] holds the characters
    gathered for the descriptor; [fd] are the writes made to it. *)
Record out_ctx := mkOut { str : option (list Z); o_pos : Z; limit : Z; fb : list Z; fd : list (list Z) }.

Definition ctx_flush : M out_ctx unit :=
  c ← get;
  if decide (fb c = []) then mret tt
  else if Z.of_nat (length (fb c)) <? 1024 then put (mkOut (str c) (o_pos c) (limit c) [] (fd c ++ [fb c])) else fault.

Definition ctx_putchar (ch : Z) : M out_ctx unit :=
  c ← get;
  match str c with
  | Some b =>
      if o_pos c <? limit c - 1 then
        if o_pos c <? Z.of_nat (length b)
        then put (mkOut (Some (<[Z.to_nat (o_pos c) := ch]> b)) (i32 (o_pos c + 1)) (limit c) (fb c) (fd c))
        else fault
      else mret tt
  | None =>
      if Z.of_nat (length (fb c)) <? 1024 then
        put (mkOut None (o_pos c) (limit c) (fb c ++ [ch]) (fd c)) ;;
        if (1023 <=? Z.of_nat (length (fb c)) + 1) || (ch =? 10) then ctx_flush else mret tt
      else fault
  end.

Definition ctx_puts (s : list Z) : M out_ctx unit := emit_str ctx_putchar s.

Definition ctx_putulong (v base : Z) (uppercase : bool) (width pad : Z) : M out_ctx unit :=
  emit_uint ctx_putchar v base (if uppercase then hex_hi else hex_lo) width pad.

Definition ctx_putlong (v width pad : Z) : M out_ctx unit :=
  if v <? 0 then ctx_putchar MINUS ;; ctx_putulong (u64 (- v)) 10 false width pad
  else ctx_putulong (u64 v) 10 false width pad.

(** The [switch] of [do_fmt]: a string is not padded. *)
Definition ctx_directive (c pad width : Z) (args : va_list) : M out_ctx va_list :=
  if c =? 115 then '(s, args) ← (va_str args : M out_ctx (list Z * va_list)); ctx_puts s ;; mret args
  else if c =? 99 then '(w, args) ← (va_word args : M out_ctx (Z * va_list)); ctx_putchar (u8 w) ;; mret args
  else if c =? 100 then '(w, args) ← (va_word args : M out_ctx (Z * va_list)); ctx_putlong (i64 w) width pad ;; mret args
  else if c =? 117 then '(w, args) ← (va_word args : M out_ctx (Z * va_list)); ctx_putulong w 10 false width pad ;; mret args
  else if c =? 120 then '(w, args) ← (va_word args : M out_ctx (Z * va_list)); ctx_putulong w 16 false width pad ;; mret args
  else if c =? 88 then '(w, args) ← (va_word args : M out_ctx (Z * va_list)); ctx_putulong w 16 true width pad ;; mret args
  else if c =? PCT then ctx_putchar PCT ;; mret args
  else mret args.

Definition do_fmt (fmt : list Z) (args : va_list) : M out_ctx unit :=
  format_loop ctx_putchar (length fmt) ctx_directive fmt args.

(** What a call that starts from an empty context wrote to descriptor 1. *)
Definition to_fd (m : M out_ctx unit) : outcome (list (list Z)) :=
  match (m ;; ctx_flush) (mkOut None 0 0 [] []) with
  | Ok (_, c) => Ok (fd c)
  | Panic e => Panic e
  | Fault => Fault
  | NoFuel => NoFuel
  end.

Definition putchar (c : Z) : outcome (list (list Z)) := to_fd (ctx_putchar c).
Definition puts (s : list Z) : outcome (list (list Z)) := to_fd (ctx_puts s ;; ctx_putchar 10).
Definition printf (fmt : list Z) (args : va_list) : outcome (list (list Z)) := to_fd (do_fmt fmt args).

(** [do_fmt] into the caller's buffer, then [buf[ctx.pos] = 0]: the buffer and the length. *)
Definition to_str (buf : list Z) (lim : Z) (m : M out_ctx unit) : outcome (list Z * Z) :=
  match m (mkOut (Some buf) 0 lim [] []) with
  | Ok (_, c) =>
      match str c with
      | Some b => if o_pos c <? Z.of_nat (length b) then Ok (<[Z.to_nat (o_pos c) := 0]> b, o_pos c) else Fault
      | None => Fault
      end
  | Panic e => Panic e
  | Fault => Fault
  | NoFuel => NoFuel
  end.

Definition vsnprintf (buf : list Z) (size : Z) (fmt : list Z) (args : va_list) : outcome (list Z * Z) :=
  to_str buf size (do_fmt fmt args).
Definition snprintf := vsnprintf.
Definition sprintf (buf fmt : list Z) (args : va_list) : outcome (list Z * Z) :=
  to_str buf 0x7fffffff (do_fmt fmt args).

(** ** What a format prints *)

Inductive conv := Str | Chr | Dec | Uns | Hex | HEX | Pct | Other (c : Z).
Inductive piece := Text (c : Z) | Conv (zero : bool) (width : Z) (k : conv).

Definition letter (k : conv) : Z :=
  match k with Str => 115 | Chr => 99 | Dec => 100 | Uns => 117 | Hex => 120 | HEX => 88 | Pct => PCT | Other c => c end.

(** Digits, most significant first, and the number they denote. *)
Definition value (base : Z) (ds : list Z) : Z := foldl (λ a d, a * base + d) 0 ds.

Fixpoint lsd (n : nat) (base v : Z) : list Z :=
  match n with
  | O => []
  | S n' => if 0 <? v then v mod base :: lsd n' base (v / base) else []
  end.
Definition numeral (base v : Z) : list Z := if v =? 0 then [0] else rev (lsd 64 base v).

(** The numeral of [v]: its digits denote [v], without leading zeros. *)
Definition is_numeral (base v : Z) (ds : list Z) : Prop :=
  value base ds = v ∧ Forall (λ d, 0 ≤ d < base) ds ∧ (ds = [0] ∨ ∃ d ds', ds = d :: ds' ∧ d ≠ 0).

Definition digit_char (upper : bool) (d : Z) : Z := if d <? 10 then 48 + d else if upper then 55 + d else 87 + d.

Definition padded (width pad : Z) (s : list Z) : list Z := replicate (Z.to_nat (width - Z.of_nat (length s))) pad ++ s.
Definition number (upper : bool) (base width pad v : Z) : list Z := padded width pad (map (digit_char upper) (numeral base v)).

Definition string_of (a : varg) : option (list Z) :=
  match a with VStr _ s => Some s | VWord w => if u64 w =? 0 then Some NULL_TEXT else None end.

(** What a conversion prints, and the arguments it leaves. *)
Definition conv_out (pad_str : bool) (k : conv) (pad width : Z) (args : va_list) : option (list Z * va_list) :=
  match k, args with
  | Pct, _ => Some ([PCT], args)
  | Other _, _ => Some ([], args)
  | _, [] => None
  | Str, a :: args' => s ← string_of a; Some (if pad_str then padded width pad s else s, args')
  | Chr, a :: args' => Some ([u8 (word_of a)], args')
  | Dec, a :: args' =>
      let v := i64 (word_of a) in
      Some (if v <? 0 then MINUS :: number false 10 width pad (- v) else number false 10 width pad v, args')
  | Uns, a :: args' => Some (number false 10 width pad (u64 (word_of a)), args')
  | Hex, a :: args' => Some (number false 16 width pad (u64 (word_of a)), args')
  | HEX, a :: args' => Some (number true 16 width pad (u64 (word_of a)), args')
  end.

Definition pad_of (zero : bool) : Z := if zero then ZERO else SPACE.

Fixpoint render (pad_str : bool) (ps : list piece) (args : va_list) : option (list Z) :=
  match ps with
  | [] => Some []
  | Text c :: ps' => out ← render pad_str ps' args; Some (c :: out)
  | Conv zero width k :: ps' =>
      '(o, args') ← conv_out pad_str k (pad_of zero) width args;
      out ← render pad_str ps' args'; Some (o ++ out)
  end.

(** The format as it is written. *)
Definition show_piece (p : piece) : list Z :=
  match p with
  | Text c => [c]
  | Conv zero width k =>
      PCT :: (if zero then [ZERO] else []) ++ (if width =? 0 then [] else map (Z.add 48) (numeral 10 width)) ++ [letter k]
  end.
Definition show (ps : list piece) : list Z := mjoin (map show_piece ps).

Definition piece_ok (p : piece) : Prop :=
  match p with
  | Text c => c ≠ PCT
  | Conv _ width k =>
      0 ≤ width ≤ 20 ∧
      match k with Other c => is_digit c = false ∧ c ∉ map letter [Str; Chr; Dec; Uns; Hex; HEX; Pct] | _ => True end
  end.

(** ** Numerals *)

Lemma lsd_length n base v k : 2 ≤ base → 0 ≤ v < base ^ Z.of_nat k → (length (lsd n base v) ≤ k)%nat.
Proof.
  intros Hb. revert v k. induction n as [|n IH]; intros v k Hv; simpl; [lia|].
  destruct (Z.ltb_spec 0 v); [|simpl; lia]. destruct k as [|k]; [simpl in Hv; lia|]. simpl. apply le_n_S, IH.
  rewrite Nat2Z.inj_succ, Z.pow_succ_r in Hv by lia. split; [apply Z.div_pos; lia|]. apply Z.div_lt_upper_bound; lia.
Qed.

Lemma value_app base ds d : value base (ds ++ [d]) = value base ds * base + d.
Proof. unfold value. by rewrite foldl_app. Qed.

Lemma lsd_value n base v : 2 ≤ base → 0 ≤ v < base ^ Z.of_nat n → value base (rev (lsd n base v)) = v.
Proof.
  intros Hb. revert v. induction n as [|n IH]; intros v Hv; [simpl in *; unfold value; simpl; lia|]. simpl.
  destruct (Z.ltb_spec 0 v); [|unfold value; simpl; lia]. simpl. rewrite value_app, IH.
  - pose proof (Z.div_mod v base); lia.
  - rewrite Nat2Z.inj_succ, Z.pow_succ_r in Hv by lia. split; [apply Z.div_pos; lia|]. apply Z.div_lt_upper_bound; lia.
Qed.

Lemma lsd_digits n base v : 2 ≤ base → Forall (λ d, 0 ≤ d < base) (lsd n base v).
Proof.
  intros Hb. revert v. induction n as [|n IH]; intros v; simpl; [done|]. destruct (_ <? _); [|done]. constructor; [apply Z.mod_pos_bound; lia|done].
Qed.

Lemma lsd_last n base v : 2 ≤ base → 0 < v < base ^ Z.of_nat n → ∃ l d, lsd n base v = l ++ [d] ∧ d ≠ 0.
Proof.
  intros Hb. revert v. induction n as [|n IH]; intros v Hv; [simpl in Hv; lia|]. simpl. rewrite (proj2 (Z.ltb_lt 0 v)) by lia.
  rewrite Nat2Z.inj_succ, Z.pow_succ_r in Hv by lia. destruct (decide (v / base = 0)) as [E|E].
  - exists [], (v mod base). split; [|pose proof (Z.div_mod v base); lia]. rewrite E. by destruct n.
  - destruct (IH (v / base)) as (l & d & -> & Hd).
    + pose proof (Z.div_pos v base). split; [lia|]. apply Z.div_lt_upper_bound; lia.
    + by exists (v mod base :: l), d.
Qed.

Lemma pow64 base : 2 ≤ base → 2 ^ 64 ≤ base ^ Z.of_nat 64.
Proof. intros Hb. apply (Z.pow_le_mono_l 2 base 64). lia. Qed.

Lemma numeral_ok base v : 2 ≤ base → 0 ≤ v < 2 ^ 64 → is_numeral base v (numeral base v).
Proof.
  intros Hb Hv. pose proof (pow64 base Hb). unfold is_numeral, numeral. destruct (Z.eqb_spec v 0) as [->|Hn].
  - split; [done|]. split; [|by left]. constructor; [lia|constructor].
  - split; [apply lsd_value; lia|]. split; [apply Forall_rev, lsd_digits; lia|]. right.
    destruct (lsd_last 64 base v Hb) as (l & d & -> & Hd); [lia|]. exists d, (rev l). by rewrite rev_app_distr.
Qed.

Lemma numeral_length base v : 10 ≤ base → 0 ≤ v < 2 ^ 64 → (length (numeral base v) ≤ 20)%nat.
Proof.
  intros Hb Hv. unfold numeral. destruct (_ =? _); [simpl; lia|]. rewrite length_rev. apply lsd_length; [lia|].
  split; [lia|]. eapply Z.lt_le_trans; [apply Hv|]. transitivity (10 ^ Z.of_nat 20); [apply Z.leb_le; vm_compute; reflexivity|apply Z.pow_le_mono_l; lia].
Qed.

(** ** Printing *)

Section prints.
Context {S : Type} (emit : Z → M S unit).

(** [m] prints [o] and returns [a]. *)
Definition prints {A} (o : list Z) (a : A) (m : M S A) : Prop := ∀ s, m s = (emit_str emit o ;; mret a) s.

Lemma prints_ret {A} (a : A) : prints [] a (mret a).
Proof. done. Qed.

Lemma prints_app {A} o o' (a : A) s : (emit_str emit (o ++ o') ;; mret a) s = (emit_str emit o ;; (emit_str emit o' ;; mret a)) s.
Proof.
  revert s. induction o as [|c o IH]; intros s; [done|]. simpl. unfold mbind, M_bind in *. destruct (emit c s) as [[[] s']| | |]; [apply IH|done..].
Qed.

Lemma prints_bind {A B} o o' (a : A) (b : B) m (f : A → M S B) : prints o a m → prints o' b (f a) → prints (o ++ o') b (m ≫= f).
Proof.
  intros Hm Hf s. rewrite prints_app. unfold mbind at 1, M_bind at 1. rewrite Hm. unfold mbind at 1 2, M_bind at 1 2.
  destruct (emit_str emit o s) as [[[] s']| | |]; [|done..]. apply Hf.
Qed.

Lemma prints_emit c : prints [c] tt (emit c).
Proof. intros s. simpl. unfold mbind, M_bind, mret, M_ret. by destruct (emit c s) as [[[] s']| | |]. Qed.

Lemma prints_str o : prints o tt (emit_str emit o).
Proof. intros s. unfold mbind, M_bind, mret, M_ret. by destruct (emit_str emit o s) as [[[] s']| | |]. Qed.

Lemma prints_then {A} o (a : A) m : prints o tt m → prints o a (m ;; mret a).
Proof. intros Hm. rewrite <- (app_nil_r o). eapply prints_bind; [exact Hm|apply prints_ret]. Qed.

Lemma prints_pad n pad : prints (replicate n pad) tt (emit_pad emit n pad).
Proof. induction n as [|n IH]; [apply prints_ret|]. apply (prints_bind [pad] _ tt); [apply prints_emit|exact IH]. Qed.

Lemma buf_put_ok buf c : (length buf < 20)%nat → prints [] (buf ++ [c]) (buf_put buf c).
Proof. intros H. unfold buf_put. rewrite (proj2 (Z.ltb_lt _ _)) by lia. apply prints_ret. Qed.

Lemma digit_loop_ok base digits (g : Z → Z) : 2 ≤ base → (∀ d, 0 ≤ d < base → digits !! Z.to_nat d = Some (g d)) →
  ∀ n v buf, 0 ≤ v < base ^ Z.of_nat n → (length buf + length (lsd n base v) ≤ 20)%nat →
  prints [] (buf ++ map g (lsd n base v)) (digit_loop n v base digits buf).
Proof.
  intros Hb Hg n. induction n as [|n IH]; intros v buf Hv Hl; cbn [digit_loop lsd] in *; (destruct (Z.ltb_spec 0 v); [|rewrite app_nil_r; apply prints_ret]); [simpl in Hv; lia|].
  cbn [length] in Hl. rewrite (Hg (v mod base)) by (apply Z.mod_pos_bound; lia). apply (prints_bind [] [] (g (v mod base))); [apply prints_ret|].
  apply (prints_bind [] [] (buf ++ [g (v mod base)])); [apply buf_put_ok; lia|]. cbn [map]. rewrite cons_middle, app_assoc. apply IH.
  - rewrite Nat2Z.inj_succ, Z.pow_succ_r in Hv by lia. split; [apply Z.div_pos; lia|]. apply Z.div_lt_upper_bound; lia.
  - rewrite length_app. simpl. lia.
Qed.

Lemma pad_loop_ok n pad : ∀ buf, (length buf + n ≤ 20)%nat → prints [] (buf ++ replicate n pad) (pad_loop n pad buf).
Proof.
  induction n as [|n IH]; intros buf Hl; [rewrite app_nil_r; apply prints_ret|].
  apply (prints_bind [] [] (buf ++ [pad])); [apply buf_put_ok; lia|]. cbn [replicate]. rewrite cons_middle, app_assoc. apply IH.
  rewrite length_app. simpl. lia.
Qed.

Lemma digits_char (up : bool) d : 0 ≤ d < 16 → (if up then hex_hi else hex_lo) !! Z.to_nat d = Some (digit_char up d).
Proof.
  intros Hd. unfold digit_char. assert (d = 0 ∨ d = 1 ∨ d = 2 ∨ d = 3 ∨ d = 4 ∨ d = 5 ∨ d = 6 ∨ d = 7 ∨ d = 8 ∨ d = 9 ∨ d = 10 ∨ d = 11 ∨ d = 12 ∨ d = 13 ∨ d = 14 ∨ d = 15) as H by lia.
  destruct up; repeat (destruct H as [->|H]; [done|]); by subst.
Qed.

Lemma rev_replicate n (c : Z) : rev (replicate n c) = replicate n c.
Proof. induction n as [|n IH]; [done|]. simpl. rewrite IH. symmetry. apply replicate_cons_app. Qed.

Lemma emit_uint_ok (up : bool) base v width pad : 10 ≤ base ≤ 16 → 0 ≤ v < 2 ^ 64 → 0 ≤ width ≤ 20 →
  prints (number up base width pad v) tt (emit_uint emit v base (if up then hex_hi else hex_lo) width pad).
Proof.
  intros Hb Hv Hw. pose proof (pow64 base ltac:(lia)). pose proof (numeral_length base v ltac:(lia) Hv) as Hl.
  set (ds := rev (map (digit_char up) (numeral base v))). assert (length ds = length (numeral base v)) as Hd by (unfold ds; by rewrite length_rev, length_map).
  unfold emit_uint. assert (∀ rest, prints (number up base width pad v) tt (rest ds) →
    prints (number up base width pad v) tt (buf ← (if v =? 0 then buf_put [] ZERO else mret []);
      buf ← digit_loop 64 v base (if up then hex_hi else hex_lo) buf; rest buf)) as Hrun.
  { intros rest Hr. unfold ds, numeral in Hr. unfold numeral in Hl. destruct (Z.eqb_spec v 0) as [->|Hn].
    - eapply (prints_bind [] _ [ZERO]); [by apply buf_put_ok; simpl; lia|]. eapply (prints_bind [] _ [ZERO]); [apply prints_ret|]. by destruct up.
    - eapply (prints_bind [] _ []); [apply prints_ret|]. rewrite length_rev in Hl.
      eapply (prints_bind [] _ (map (digit_char up) (lsd 64 base v))).
      + apply (digit_loop_ok base (if up then hex_hi else hex_lo) (digit_char up)); [lia| |lia|cbn [length]; lia]. intros d Hdd. apply digits_char. lia.
      + rewrite map_rev, rev_involutive in Hr. exact Hr. }
  apply Hrun. eapply (prints_bind [] _ (ds ++ replicate (Z.to_nat (width - Z.of_nat (length ds))) pad)); [apply pad_loop_ok; lia|].
  rewrite rev_app_distr, rev_replicate. unfold ds at 2. rewrite rev_involutive, Hd. unfold number, padded. rewrite length_map. apply prints_str.
Qed.

Lemma va_word_ok a args : prints [] (u64 (word_of a), args) (va_word (a :: args)).
Proof. apply prints_ret. Qed.

Lemma va_str_ok a args s : string_of a = Some s → prints [] (s, args) (va_str (a :: args)).
Proof. destruct a as [w|addr t]; simpl; [destruct (_ =? _); [|done]|]; intros [= <-]; apply prints_ret. Qed.

Lemma i64_range w : - 2 ^ 63 ≤ i64 w < 2 ^ 63.
Proof. unfold i64. pose proof (u64_range w). destruct (Z.ltb_spec (u64 w) (2 ^ 63)); lia. Qed.

Lemma i64_word w : i64 (u64 w) = i64 w.
Proof. unfold i64, u64. by rewrite Z.mod_mod by lia. Qed.

(** Both [switch]es end in the same cases. *)
Lemma number_directive {A} (up : bool) base width pad w (a : A) (m : M S unit) : 10 ≤ base ≤ 16 → 0 ≤ width ≤ 20 →
  m = emit_uint emit (u64 w) base (if up then hex_hi else hex_lo) width pad → prints (number up base width pad (u64 w)) a (m ;; mret a).
Proof. intros Hb Hw ->. apply prints_then, emit_uint_ok; [done|apply u64_range|done]. Qed.

Lemma dec_directive {A} width pad w (a : A) : 0 ≤ width ≤ 20 →
  prints (if i64 w <? 0 then MINUS :: number false 10 width pad (- i64 w) else number false 10 width pad (i64 w)) a
    ((if i64 w <? 0 then emit MINUS ;; emit_uint emit (u64 (- i64 w)) 10 hex_lo width pad
      else emit_uint emit (u64 (i64 w)) 10 hex_lo width pad) ;; mret a).
Proof.
  intros Hw. apply prints_then. pose proof (i64_range w). destruct (Z.ltb_spec (i64 w) 0); rewrite u64_small by lia.
  - apply (prints_bind [MINUS] _ tt); [apply prints_emit|]. apply (emit_uint_ok false); lia.
  - apply (emit_uint_ok false); lia.
Qed.

(** The conversions that have a letter. *)
Definition other_ok (k : conv) : Prop :=
  match k with Other c => is_digit c = false ∧ c ∉ map letter [Str; Chr; Dec; Uns; Hex; HEX; Pct] | _ => True end.

Lemma other_letter c : other_ok (Other c) → (c =? 115) = false ∧ (c =? 99) = false ∧ (c =? 100) = false ∧ (c =? 117) = false ∧ (c =? 120) = false ∧ (c =? 88) = false ∧ (c =? PCT) = false.
Proof.
  intros [_ H]. cbn [map letter] in H. repeat apply not_elem_of_cons in H as [? H]. repeat split; by apply Z.eqb_neq.
Qed.

Lemma emit_directive_ok k pad width args o args' : 0 ≤ width ≤ 20 → other_ok k →
  conv_out true k pad width args = Some (o, args') → prints o args' (emit_directive emit (letter k) pad width args).
Proof.
  intros Hw Hk. destruct k as [| | | | | | |c]; cbn [conv_out letter]; unfold emit_directive.
  8: { intros [= <- <-]. destruct (other_letter c Hk) as (-> & -> & -> & -> & -> & -> & ->). apply prints_ret. }
  7: { intros [= <- <-]. apply (prints_then [PCT]), prints_emit. }
  all: destruct args as [|a args]; [done|]; cbn [Z.eqb Pos.eqb].
  - destruct (string_of a) as [s|] eqn:Es; [|done]. intros [= <- <-]. apply (prints_bind [] _ (s, args)); [by apply va_str_ok|].
    unfold padded. apply (prints_bind (replicate (Z.to_nat (width - Z.of_nat (length s))) pad) s tt).
    + destruct (Z.ltb_spec 0 width); cbn [when]; [apply prints_pad|].
      replace (Z.to_nat _) with O by lia. apply prints_ret.
    + apply prints_then, prints_str.
  - intros [= <- <-]. apply (prints_bind [] _ (u64 (word_of a), args)); [apply va_word_ok|]. apply (prints_then [_]).
    replace (u8 (u64 (word_of a))) with (u8 (word_of a)) by (unfold u8, u64; rewrite <- (Znumtheory.Zmod_div_mod (2 ^ 8) (2 ^ 64)); [done|lia|lia|by exists (2 ^ 56)]). apply prints_emit.
  - intros [= <- <-]. apply (prints_bind [] _ (u64 (word_of a), args)); [apply va_word_ok|]. rewrite i64_word. by apply dec_directive.
  - intros [= <- <-]. apply (prints_bind [] _ (u64 (word_of a), args)); [apply va_word_ok|]. by apply (number_directive false).
  - intros [= <- <-]. apply (prints_bind [] _ (u64 (word_of a), args)); [apply va_word_ok|]. by apply (number_directive false).
  - intros [= <- <-]. apply (prints_bind [] _ (u64 (word_of a), args)); [apply va_word_ok|]. by apply (number_directive true).
Qed.

(** ** Reading a format *)

Lemma parse_width_ok ds c rest : ∀ acc, is_digit c = false → Forall (λ d, 0 ≤ d < 10) ds → 0 ≤ acc →
  foldl (λ a d, a * 10 + d) acc ds < 2 ^ 31 → parse_width (map (Z.add 48) ds ++ c :: rest) acc = (foldl (λ a d, a * 10 + d) acc ds, c :: rest).
Proof.
  induction ds as [|d ds IH]; intros acc Hc Hd Ha Hb; cbn [map app parse_width foldl] in *; [by rewrite Hc|]. inversion Hd; subst.
  assert (∀ l a, 0 ≤ a → Forall (λ d, 0 ≤ d < 10) l → a ≤ foldl (λ a d, a * 10 + d) a l) as Hmono.
  { clear. induction l as [|x l IH]; intros a Ha Hl; simpl; [lia|]. inversion Hl; subst. etransitivity; [|apply IH; [lia|done]]. lia. }
  specialize (Hmono ds (acc * 10 + d) ltac:(lia) ltac:(done)).
  unfold is_digit. rewrite (proj2 (Z.leb_le 48 _)), (proj2 (Z.leb_le _ 57)) by lia. cbn [andb]. unfold ZERO. replace (acc * 10 + (48 + d - 48)) with (acc * 10 + d) by lia.
  rewrite i32_small by lia. apply IH; (done || lia).
Qed.

Lemma letter_digit k : other_ok k → is_digit (letter k) = false.
Proof. destruct k; try done. by intros [H _]. Qed.

Lemma parse_directive_ok (zero : bool) width k rest : 0 ≤ width ≤ 20 → other_ok k →
  parse_directive ((if zero then [ZERO] else []) ++ (if width =? 0 then [] else map (Z.add 48) (numeral 10 width)) ++ letter k :: rest)
  = (pad_of zero, width, letter k :: rest).
Proof.
  intros Hw Hk. pose proof (letter_digit k Hk) as Hd.
  assert (parse_width ((if width =? 0 then [] else map (Z.add 48) (numeral 10 width)) ++ letter k :: rest) 0 = (width, letter k :: rest)) as Hp.
  { destruct (Z.eqb_spec width 0) as [->|Hn]; [by apply (parse_width_ok [])|].
    destruct (numeral_ok 10 width ltac:(lia) ltac:(lia)) as (Hv & Hf & _). unfold value in Hv. rewrite (parse_width_ok _ _ _ 0); rewrite ?Hv; (done || lia). }
  unfold parse_directive. destruct zero.
  { revert Hp. generalize ((if width =? 0 then [] else map (Z.add 48) (numeral 10 width)) ++ letter k :: rest). intros b Hp. simpl. rewrite drop_0. by rewrite Hp. }
  assert (at_fmt ((if width =? 0 then [] else map (Z.add 48) (numeral 10 width)) ++ letter k :: rest) ≠ ZERO) as Hz.
  { destruct (Z.eqb_spec width 0) as [->|Hn].
    - intros E. change (letter k = ZERO) in E. by rewrite E in Hd.
    - destruct (numeral_ok 10 width ltac:(lia) ltac:(lia)) as (_ & Hf & [E|(d & ds & E & Hnz)]).
      + destruct (numeral_ok 10 width ltac:(lia) ltac:(lia)) as (Hv & _). rewrite E in Hv. unfold value in Hv. simpl in Hv. lia.
      + rewrite E. change (48 + d ≠ 48). lia. }
  cbn [app]. rewrite (proj2 (Z.eqb_neq _ _)) by exact Hz. by rewrite Hp.
Qed.

Lemma format_loop_ok pad_str directive :
  (∀ k pad width args o args', 0 ≤ width ≤ 20 → other_ok k → conv_out pad_str k pad width args = Some (o, args') →
     prints o args' (directive (letter k) pad width args)) →
  ∀ ps fuel args out, Forall piece_ok ps → (length (show ps) ≤ fuel)%nat → render pad_str ps args = Some out →
  prints out tt (format_loop emit fuel directive (show ps) args).
Proof.
  intros Hdir ps. induction ps as [|p ps IH]; intros fuel args out Hok Hf Hr.
  { injection Hr as <-. destruct fuel; apply prints_ret. }
  inversion Hok as [|? ? Hp Hps]; subst. change (show (p :: ps)) with (show_piece p ++ show ps) in *. destruct p as [c|zero width k].
  - cbn [show_piece app length render] in *. destruct fuel as [|fuel]; [lia|]. cbn [format_loop]. rewrite (proj2 (Z.eqb_neq c PCT)) by exact Hp. cbn [negb].
    destruct (render pad_str ps args) as [o|] eqn:E; [|done]. injection Hr as <-. apply (prints_bind [c] _ tt); [apply prints_emit|]. apply IH; [done|lia|done].
  - destruct Hp as [Hw Hk]. change (other_ok k) in Hk. cbn [show_piece] in *. rewrite <- app_comm_cons, <- !app_assoc in *. change ([letter k] ++ show ps) with (letter k :: show ps) in *. cbn [length] in Hf. destruct fuel as [|fuel]; [lia|].
    cbn [format_loop]. rewrite Z.eqb_refl. cbn [negb]. rewrite (parse_directive_ok zero width k (show ps) Hw Hk). cbn [render] in Hr.
    destruct (conv_out pad_str k (pad_of zero) width args) as [[o args']|] eqn:Ec; [|done]. cbn [mbind option_bind] in Hr.
    destruct (render pad_str ps args') as [out'|] eqn:E; [|done]. injection Hr as <-.
    apply (prints_bind [] _ (letter k, show ps)); [apply prints_ret|]. eapply prints_bind; [by apply Hdir|]. apply IH; [done| |done].
    rewrite !length_app in Hf. cbn [length app] in Hf. lia.
Qed.
End prints.

(** ** The serial port *)

(** A UART: its line control register, its divisor and the bytes it sent.  Bit 7
    of the line control register puts the divisor in the place of the data. *)
Record uart := mkUart { u_lcr : Z; u_div : Z; u_sent : list Z }.

Definition uart_out (width port v : Z) (d : uart) : uart :=
  if port =? COM1 + 3 then mkUart v (u_div d) (u_sent d)
  else if Z.testbit (u_lcr d) 7 then
    if port =? COM1 then mkUart (u_lcr d) (u_div d / 256 * 256 + v) (u_sent d)
    else if port =? COM1 + 1 then mkUart (u_lcr d) (v * 256 + u_div d mod 256) (u_sent d)
    else d
  else if port =? COM1 then mkUart (u_lcr d) (u_div d) (u_sent d ++ [v])
  else d.
#[export] Instance uart_ports : Ports uart := {| port_in := λ _ _ d, (0x20, d); port_out := uart_out |}.

Definition sends (o : list Z) (d : uart) : uart := mkUart (u_lcr d) (u_div d) (u_sent d ++ map u8 o).

(** A carriage return before each line feed. *)
Definition crlf (o : list Z) : list Z := o ≫= λ c, if c =? 10 then [13; 10] else [c].

Lemma outb_uart p v d : outb p v d = Ok (tt, uart_out 1 (u16 p) (u8 v) d).
Proof. done. Qed.

Lemma serial_init_ok d : serial_init d = Ok (tt, mkUart 3 3 (u_sent d)).
Proof.
  unfold serial_init. do 6 rewrite (bind_of_ok _ _ _ _ _ (outb_uart _ _ _)). rewrite outb_uart. destruct d as [l v s].
  set (d1 := uart_out 1 (u16 (COM1 + 1)) (u8 0) (mkUart l v s)). assert (u_sent d1 = s) as Es.
  { unfold d1, uart_out. cbn [Z.eqb u_lcr]. by destruct (Z.testbit l 7). }
  clearbody d1. cbn [u_sent]. destruct d1 as [l1 v1 s1]. cbn [u_sent] in Es. subst s1. 
  change (uart_out 1 (u16 (COM1 + 3)) (u8 0x80) (mkUart l1 v1 s)) with (mkUart 0x80 v1 s).
  change (uart_out 1 (u16 (COM1 + 0)) (u8 3) (mkUart 0x80 v1 s)) with (mkUart 0x80 (v1 / 256 * 256 + 3) s).
  change (uart_out 1 (u16 (COM1 + 1)) (u8 0) (mkUart 0x80 (v1 / 256 * 256 + 3) s)) with (mkUart 0x80 (0 * 256 + (v1 / 256 * 256 + 3) mod 256) s).
  replace (0 * 256 + (v1 / 256 * 256 + 3) mod 256) with 3 by dlia. done.
Qed.

Lemma serial_write_char_ok c d : Z.testbit (u_lcr d) 7 = false → serial_write_char c d = Ok (tt, sends (crlf [c]) d).
Proof.
  intros H. destruct d as [l v s]. unfold serial_write_char, crlf, sends. cbn [u_lcr] in H. cbn [mbind list_bind app]. rewrite app_nil_r.
  assert (∀ s x, outb COM1 x (mkUart l v s) = Ok (tt, mkUart l v (s ++ [u8 x]))) as Ho.
  { intros s' x. unfold outb, port_write. cbn -[u8 Z.testbit]. unfold uart_out. cbn [u_lcr u_div u_sent]. rewrite H. done. }
  destruct (Z.eqb_spec c 10) as [->|]; cbn [when].
  - rewrite (bind_of_ok _ _ _ _ _ (Ho s 13)), Ho, <- app_assoc. done.
  - rewrite (bind_of_ok _ _ _ _ _ eq_refl), Ho. done.
Qed.

Lemma sends_app o o' d : sends o' (sends o d) = sends (o ++ o') d.
Proof. unfold sends. cbn [u_sent u_lcr u_div]. by rewrite map_app, app_assoc. Qed.

Lemma serial_str_ok o : ∀ d, Z.testbit (u_lcr d) 7 = false → emit_str serial_write_char o d = Ok (tt, sends (crlf o) d).
Proof.
  induction o as [|c o IH]; intros d H; cbn [emit_str].
  - unfold sends. simpl. rewrite app_nil_r. by destruct d.
  - rewrite (bind_of_ok _ _ _ _ _ (serial_write_char_ok c d H)), IH by done. rewrite sends_app. do 3 f_equal.
    unfold crlf. change (c :: o) with ([c] ++ o). by rewrite bind_app.
Qed.

Lemma ulong_digits_ok (d : uart) n : ∀ v buf, 0 ≤ v < 10 ^ Z.of_nat n → (length buf ≤ 16)%nat →
  ulong_digits n v buf d =
  if decide (length buf + length (lsd n 10 v) ≤ 16)%nat then Ok (buf ++ map (Z.add 48) (lsd n 10 v), d) else Fault.
Proof.
  induction n as [|n IH]; intros v buf Hv Hb; cbn [ulong_digits lsd] in *; (destruct (Z.ltb_spec 0 v); [|cbn [length map]; rewrite decide_True, app_nil_r by lia; done]).
  { simpl in Hv. lia. }
  rewrite Nat2Z.inj_succ, Z.pow_succ_r in Hv by lia. cbn [length map].
  destruct (Z.ltb_spec (Z.of_nat (length buf)) 16); [|by rewrite decide_False by lia].
  rewrite IH; [|split; [apply Z.div_pos; lia|apply Z.div_lt_upper_bound; lia]|rewrite length_app; simpl; lia].
  rewrite length_app. cbn [length]. rewrite <- app_assoc. cbn [app]. case_decide; [by rewrite decide_True by lia|by rewrite decide_False by lia].
Qed.

Lemma digit_char_small up ds : Forall (λ d, 0 ≤ d < 10) ds → map (digit_char up) ds = map (Z.add 48) ds.
Proof.
  intros H. apply map_ext_Forall. eapply Forall_impl; [exact H|]. intros d Hd. unfold digit_char. by rewrite (proj2 (Z.ltb_lt d 10)) by apply Hd.
Qed.

Lemma crlf_id o : 10 ∉ o → crlf o = o.
Proof.
  induction o as [|c o IH]; intros H; [done|]. apply not_elem_of_cons in H as [Hc H]. unfold crlf in *. cbn [mbind list_bind].
  rewrite (proj2 (Z.eqb_neq c 10)) by congruence. cbn [app]. f_equal. by apply IH.
Qed.

Lemma lsd_length_low n v k : 0 ≤ v < 10 ^ Z.of_nat n → (length (lsd n 10 v) ≤ k)%nat → v < 10 ^ Z.of_nat k.
Proof.
  intros Hv Hl. pose proof (lsd_value n 10 v ltac:(lia) Hv) as E. pose proof (lsd_digits n 10 v ltac:(lia)) as Hd. rewrite <- E. revert Hl Hd. generalize (lsd n 10 v). clear.
  intros l. revert k. induction l as [|d l IH]; intros k Hl Hd; [unfold value; simpl; pose proof (Z.pow_pos_nonneg 10 (Z.of_nat k)); lia|].
  inversion Hd; subst. destruct k as [|k]; [simpl in Hl; lia|]. cbn [rev]. rewrite value_app. specialize (IH k ltac:(simpl in Hl; lia) ltac:(done)).
  rewrite Nat2Z.inj_succ, Z.pow_succ_r by lia. lia.
Qed.

Lemma serial_write_ulong_ok v d : Z.testbit (u_lcr d) 7 = false → 0 ≤ v < 2 ^ 64 →
  serial_write_ulong v d = if v <? 10 ^ 16 then Ok (tt, sends (map (Z.add 48) (numeral 10 v)) d) else Fault.
Proof.
  intros H Hv. unfold serial_write_ulong, numeral. destruct (Z.eqb_spec v 0) as [->|Hn]; [by rewrite (serial_write_char_ok _ _ H)|].
  assert (0 ≤ v < 10 ^ Z.of_nat 64) as Hv' by (split; [lia|]; eapply Z.lt_le_trans; [apply Hv|]; apply Z.leb_le; vm_compute; reflexivity).
  pose proof (ulong_digits_ok d 64 v [] Hv' ltac:(simpl; lia)) as E. cbn [length app] in E. rewrite Nat.add_0_l in E.
  destruct (Z.ltb_spec v (10 ^ 16)) as [Hs|Hs].
  - rewrite decide_True in E by (apply (lsd_length 64 10 v 16); [lia|split; [lia|exact Hs]]).
    rewrite (bind_of_ok _ _ _ _ _ E), (serial_str_ok _ _ H), <- map_rev, crlf_id; [done|]. intros (x & Hx & Hin)%list_elem_of_fmap.
    pose proof (Forall_rev (lsd_digits 64 10 v ltac:(lia))) as Hd. rewrite Forall_forall in Hd. specialize (Hd x Hin). lia.
  - rewrite decide_False in E; [|intros Hl; pose proof (lsd_length_low 64 v 16 Hv' Hl); lia]. unfold mbind, M_bind. by rewrite E.
Qed.
(** All digits of an [n]-digit hexadecimal number. *)
Fixpoint hex_digits (n : nat) (v : Z) : list Z :=
  match n with O => [] | S n' => (v / 16 ^ Z.of_nat n') mod 16 :: hex_digits n' v end.

Lemma hex_digits_value n v : ∀ acc, foldl (λ a d, a * 16 + d) acc (hex_digits n v) = acc * 16 ^ Z.of_nat n + v mod 16 ^ Z.of_nat n.
Proof.
  induction n as [|n IH]; intros acc; [simpl; rewrite Z.mod_1_r; lia|]. cbn [hex_digits foldl]. rewrite IH.
  pose proof (Z.pow_pos_nonneg 16 (Z.of_nat n) ltac:(lia) ltac:(lia)). rewrite Nat2Z.inj_succ, Z.pow_succ_r by lia.
  rewrite (Z.mul_comm 16), Z.rem_mul_r by lia. lia.
Qed.

Lemma hex_digits_ok n v : length (hex_digits n v) = n ∧ Forall (λ d, 0 ≤ d < 16) (hex_digits n v) ∧ value 16 (hex_digits n v) = v mod 16 ^ Z.of_nat n.
Proof.
  split; [induction n; simpl; congruence|]. split; [|apply hex_digits_value]. induction n as [|n IH]; [done|]. cbn [hex_digits]. constructor; [apply Z.mod_pos_bound; lia|done].
Qed.

Lemma digit_char_lf up d : 0 ≤ d < 16 → digit_char up d ≠ 10.
Proof. intros H. unfold digit_char. destruct (d <? 10), up; lia. Qed.

Lemma hex_loop v n : ∀ d, Z.testbit (u_lcr d) 7 = false →
  for_down n (λ i, c ← of_option (hex_hi !! Z.to_nat (u8 (Z.land (Z.shiftr v (i * 4)) 0xF))); serial_write_char c) d
  = Ok (tt, sends (map (digit_char true) (hex_digits n v)) d).
Proof.
  induction n as [|n IH]; intros d H; cbn [for_down hex_digits map].
  { unfold sends. rewrite app_nil_r. by destruct d. }
  change 0xF with (Z.ones 4). rewrite Z.land_ones, Z.shiftr_div_pow2 by lia. replace (2 ^ (Z.of_nat n * 4)) with (16 ^ Z.of_nat n) by (rewrite Z.mul_comm, Z.pow_mul_r by lia; done).
  change (2 ^ 4) with 16. pose proof (Z.mod_pos_bound (v / 16 ^ Z.of_nat n) 16 ltac:(lia)) as Hd. rewrite u8_small by lia. rewrite (digits_char true) by lia.
  cbn [of_option]. set (x := (v / 16 ^ Z.of_nat n) mod 16) in *.
  rewrite (bind_of_ok _ _ _ tt (sends [digit_char true x] d)).
  - rewrite IH, sends_app by done. done.
  - rewrite (bind_of_ok _ _ _ _ _ eq_refl), (serial_write_char_ok _ _ H), crlf_id; [done|]. rewrite list_elem_of_singleton. intros E. by apply (digit_char_lf true x).
Qed.

Lemma serial_hex_ok v n d : Z.testbit (u_lcr d) 7 = false →
  serial_write_hex_value v n d = Ok (tt, sends ([48; 120] ++ map (digit_char true) (hex_digits (Z.to_nat (n * 2)) v)) d).
Proof.
  intros H. unfold serial_write_hex_value, serial_write. rewrite (bind_of_ok _ _ _ _ _ (serial_str_ok _ _ H)). change (crlf [48; 120]) with [48; 120].
  rewrite hex_loop by done. by rewrite sends_app.
Qed.

(** C31: output on the serial port, once [serial_init] has set the port up: [serial_printf] sends what its format and
    arguments stand for, for every format of text and directives with fields of at most 20 characters, a carriage
    return before each line feed; numbers are written without leading zeros, padded on the left; the hexadecimal
    routine sends all digits of the number; and [serial_write_ulong] sends numbers below 10^16 and writes outside
    its buffer on larger ones. *)
Theorem serial_output_correct (d : uart) : ∃ d', serial_init d = Ok (tt, d') ∧ u_sent d' = u_sent d ∧
  (∀ o, Z.testbit (u_lcr (sends o d')) 7 = false) ∧
  (∀ ps args out, Forall piece_ok ps → render true ps args = Some out → ∀ o,
     serial_printf (show ps) args (sends o d') = Ok (tt, sends (o ++ crlf out) d')) ∧
  (∀ base v, base = 10 ∨ base = 16 → 0 ≤ v < 2 ^ 64 → is_numeral base v (numeral base v)) ∧
  (∀ v o, 0 ≤ v < 2 ^ 64 → ∃ ds, length ds = 16%nat ∧ Forall (λ x, 0 ≤ x < 16) ds ∧ value 16 ds = v ∧
     serial_write_hex v (sends o d') = Ok (tt, sends (o ++ [48; 120] ++ map (digit_char true) ds) d')) ∧
  (∀ v o, 0 ≤ v < 2 ^ 64 → serial_write_ulong v (sends o d') =
     if v <? 10 ^ 16 then Ok (tt, sends (o ++ map (Z.add 48) (numeral 10 v)) d') else Fault).
Proof.
  exists (mkUart 3 3 (u_sent d)). rewrite serial_init_ok. set (d' := mkUart 3 3 (u_sent d)). split; [done|]. split; [done|].
  assert (∀ o, Z.testbit (u_lcr (sends o d')) 7 = false) as Hd by done. split; [done|]. split; [|split; [|split]].
  - intros ps args out Hp Hr o. unfold serial_printf, emit_formatted_str.
    rewrite (format_loop_ok serial_write_char true (emit_directive serial_write_char) (emit_directive_ok serial_write_char) ps _ args out Hp ltac:(done) Hr).
    rewrite (bind_of_ok _ _ _ _ _ (serial_str_ok out _ (Hd o))). by rewrite sends_app.
  - intros base v Hb Hv. apply numeral_ok; lia.
  - intros v o Hv. exists (hex_digits 16 v). destruct (hex_digits_ok 16 v) as (H1 & H2 & H3). split; [done|]. split; [done|].
    split; [rewrite H3; apply Z.mod_small; exact Hv|]. unfold serial_write_hex. rewrite serial_hex_ok by done. by rewrite sends_app.
  - intros v o Hv. rewrite (serial_write_ulong_ok v _ (Hd o) Hv). by rewrite sends_app.
Qed.
(** "n=%05d %s %X" with -42, "ok" and 0xBEEF. *)
Definition demo_format : list piece :=
  [Text 110; Text 61; Conv true 5 Dec; Text 32; Conv false 0 Str; Text 32; Conv false 0 HEX; Text 10].
Definition demo_args : va_list := [VWord (2 ^ 64 - 42); VStr 0x1000 [111; 107]; VWord 0xBEEF].

Lemma serial_output_correct_witness : ∃ d',
  serial_printf [110; 61; 37; 48; 53; 100; 32; 37; 115; 32; 37; 88; 10] demo_args (sends [] (mkUart 3 3 []))
  = Ok (tt, sends ([] ++ crlf [110; 61; 45; 48; 48; 48; 52; 50; 32; 111; 107; 32; 66; 69; 69; 70; 10]) d').
Proof.
  destruct (serial_output_correct (mkUart 0 0 [])) as (d' & Hd & _ & _ & H & _). exists d'.
  assert (mkUart 3 3 [] = d') as <- by (vm_compute in Hd; by injection Hd).
  apply (H demo_format demo_args).
  - unfold demo_format. repeat (constructor; [cbn; unfold PCT; lia|]). constructor.
  - vm_compute. reflexivity.
Defined.

(** ** The user library *)

Lemma ctx_directive_ok k pad width args o args' : 0 ≤ width ≤ 20 → other_ok k →
  conv_out false k pad width args = Some (o, args') → prints ctx_putchar o args' (ctx_directive (letter k) pad width args).
Proof.
  intros Hw Hk Hc. destruct k as [| | | | | | |c].
  { destruct args as [|a args]; [done|]. cbn [conv_out letter] in *. destruct (string_of a) as [s|] eqn:Es; [|done]. injection Hc as <- <-.
    unfold ctx_directive. apply (prints_bind ctx_putchar [] _ (s, args)); [by apply va_str_ok|]. apply prints_then, prints_str. }
  7: { destruct (other_letter c Hk) as (E1 & E2 & E3 & E4 & E5 & E6 & E7). injection Hc as <- <-. unfold ctx_directive. cbn [letter].
       rewrite E1, E2, E3, E4, E5, E6, E7. apply prints_ret. }
  all: by apply (emit_directive_ok ctx_putchar _ pad width args o args' Hw Hk).
Qed.

(** Characters into the caller's buffer: what fits below [limit]. *)
Lemma str_mode o : ∀ b p lim f w, 0 ≤ p ≤ lim - 1 → lim ≤ Z.of_nat (length b) → lim < 2 ^ 31 →
  let k := Z.min (Z.of_nat (length o)) (lim - 1 - p) in
  emit_str ctx_putchar o (mkOut (Some b) p lim f w) =
  Ok (tt, mkOut (Some (take (Z.to_nat p) b ++ take (Z.to_nat k) o ++ drop (Z.to_nat (p + k)) b)) (p + k) lim f w).
Proof.
  induction o as [|c o IH]; intros b p lim f w Hp Hl Hi k; cbn [emit_str].
  { unfold k. cbn [length]. rewrite Z.min_l by lia. replace (p + Z.of_nat 0) with p by lia. rewrite take_nil. cbn [app]. by rewrite take_drop. }
  destruct (Z.ltb_spec p (lim - 1)).
  - rewrite (bind_of_ok _ _ _ tt (mkOut (Some (<[Z.to_nat p := c]> b)) (p + 1) lim f w)).
    + rewrite IH by (rewrite ?length_insert; lia). unfold k. cbn [length]. set (k' := Z.min (Z.of_nat (length o)) (lim - 1 - (p + 1))).
      replace (Z.min (Z.of_nat (S (length o))) (lim - 1 - p)) with (k' + 1) by lia. do 3 f_equal; [|lia]. f_equal.
      replace (Z.to_nat (k' + 1)) with (S (Z.to_nat k')) by lia. replace (Z.to_nat (p + 1)) with (S (Z.to_nat p)) by lia.
      rewrite (take_S_r _ _ c) by (apply list_lookup_insert_eq; lia). rewrite take_insert_ge by lia. rewrite drop_insert_lt by lia.
      rewrite <- app_assoc. cbn [take app]. do 4 f_equal. lia.
    + unfold ctx_putchar. rewrite (bind_of_ok _ _ _ _ _ eq_refl). cbn [str o_pos limit fb fd]. rewrite (proj2 (Z.ltb_lt p (lim - 1))), (proj2 (Z.ltb_lt p _)) by lia. by rewrite i32_small by lia.
  - rewrite (bind_of_ok _ _ _ tt (mkOut (Some b) p lim f w)).
    + rewrite IH by lia. unfold k. rewrite !Z.min_r by (cbn [length]; lia). replace (lim - 1 - p) with 0 by lia. done.
    + unfold ctx_putchar. rewrite (bind_of_ok _ _ _ _ _ eq_refl). cbn [str o_pos limit fb fd]. by rewrite (proj2 (Z.ltb_ge p (lim - 1))) by lia.
Qed.

(** Characters for the descriptor: flushed at each line feed and when the buffer is full. *)
Lemma fd_mode o : ∀ p lim f w, (length f < 1023)%nat → ∃ f' w', 
  emit_str ctx_putchar o (mkOut None p lim f w) = Ok (tt, mkOut None p lim f' (w ++ w')) ∧ (length f' < 1023)%nat ∧
  mjoin w' ++ f' = f ++ o ∧ Forall (λ x, 0 < length x ≤ 1023)%nat w'.
Proof.
  induction o as [|c o IH]; intros p lim f w Hf; cbn [emit_str].
  { exists f, []. by rewrite !app_nil_r. }
  assert (∃ f1 w1, ctx_putchar c (mkOut None p lim f w) = Ok (tt, mkOut None p lim f1 (w ++ w1)) ∧ (length f1 < 1023)%nat ∧
    mjoin w1 ++ f1 = f ++ [c] ∧ Forall (λ x, 0 < length x ≤ 1023)%nat w1) as (f1 & w1 & E1 & L1 & J1 & F1).
  { unfold ctx_putchar. rewrite (bind_of_ok _ _ _ _ _ eq_refl). cbn [str o_pos limit fb fd]. rewrite (proj2 (Z.ltb_lt (Z.of_nat (length f)) 1024)) by lia.
    rewrite (bind_of_ok _ _ _ _ _ eq_refl). destruct (Z.leb_spec 1023 (Z.of_nat (length f) + 1)) as [Hl|Hl], (Z.eqb_spec c 10) as [Hc|Hc]; cbn [orb].
    4: { exists (f ++ [c]), []. rewrite app_nil_r. split; [done|]. split; [rewrite length_app; simpl; lia|]. split; [done|constructor]. }
    all: exists [], [f ++ [c]]; unfold ctx_flush; rewrite (bind_of_ok _ _ _ _ _ eq_refl); cbn [str o_pos limit fb fd]; rewrite decide_False by (by destruct f);
      rewrite (proj2 (Z.ltb_lt (Z.of_nat (length (f ++ [c]))) 1024)) by (rewrite length_app; simpl; lia);
      split; [done|]; split; [simpl; lia|]; split; [simpl; by rewrite !app_nil_r|]; constructor; [rewrite length_app; simpl; lia|constructor]. }
  rewrite (bind_of_ok _ _ _ _ _ E1). destruct (IH p lim f1 (w ++ w1) L1) as (f' & w' & E & L & J & F).
  exists f', (w1 ++ w'). rewrite E, app_assoc. split; [done|]. split; [done|]. split; [|by apply Forall_app].
  rewrite join_app, <- app_assoc, J, app_assoc, J1, <- app_assoc. done.
Qed.
(** C32: the user library's output: for every format of text and directives with fields of at most 20 characters,
    [printf] writes to the descriptor exactly what the format and the arguments stand for, in writes of at most 1023
    bytes, [puts] a line, and [vsnprintf] puts as much of it as fits into the caller's buffer, terminates it,
    changes nothing behind it and returns its length; a size of 0 writes the terminator all the same. *)
Theorem stdio_correct (ps : list piece) (args : va_list) (out : list Z) : Forall piece_ok ps → render false ps args = Some out →
  (∃ w, printf (show ps) args = Ok w ∧ mjoin w = out ∧ Forall (λ x, 0 < length x ≤ 1023)%nat w) ∧
  (∀ s, ∃ w, puts s = Ok w ∧ mjoin w = s ++ [10]) ∧
  (∀ buf size, 0 < size ≤ Z.of_nat (length buf) → size < 2 ^ 31 →
     let k := Z.min (Z.of_nat (length out)) (size - 1) in
     vsnprintf buf size (show ps) args = Ok (take (Z.to_nat k) out ++ 0 :: drop (Z.to_nat k + 1) buf, k)) ∧
  (∀ b buf, vsnprintf (b :: buf) 0 (show ps) args = Ok (0 :: buf, 0)).
Proof.
  intros Hok Hr. assert (prints ctx_putchar out tt (do_fmt (show ps) args)) as Hp.
  { unfold do_fmt. by apply (format_loop_ok ctx_putchar false ctx_directive ctx_directive_ok). }
  assert (∀ o m, prints ctx_putchar o tt m → ∃ w, to_fd m = Ok w ∧ mjoin w = o ∧ Forall (λ x, 0 < length x ≤ 1023)%nat w) as Hfd.
  { intros o m Hm. unfold to_fd. destruct (fd_mode o 0 0 [] [] ltac:(simpl; lia)) as (f & w & E & L & J & F). cbn [app] in *.
    rewrite (bind_of_ok _ _ _ tt (mkOut None 0 0 f w)) by (rewrite Hm; by rewrite (bind_of_ok _ _ _ _ _ E)).
    unfold ctx_flush. rewrite (bind_of_ok _ _ _ _ _ eq_refl). cbn [str o_pos limit fb fd]. case_decide as Hf.
    - exists w. split; [done|]. split; [|done]. by rewrite <- J, Hf, app_nil_r.
    - rewrite (proj2 (Z.ltb_lt (Z.of_nat (length f)) 1024)) by lia. exists (w ++ [f]). split; [done|]. split; [by rewrite join_app; simpl; rewrite app_nil_r|].
      apply Forall_app. split; [done|]. constructor; [|constructor]. destruct f; [done|simpl in *; lia]. }
  split; [by apply Hfd|]. split; [|split].
  - intros s. destruct (Hfd (s ++ [10]) (ctx_puts s ;; ctx_putchar 10)) as (w & E & J & _); [|by exists w].
    apply (prints_bind ctx_putchar _ _ tt); [apply prints_str|apply prints_emit].
  - intros buf size Hs Hi k. unfold vsnprintf, to_str. rewrite Hp, (bind_of_ok _ _ _ _ _ (str_mode out buf 0 size [] [] ltac:(lia) ltac:(lia) Hi)).
    rewrite Z.sub_0_r, Z.add_0_l. fold k. cbn [mret M_ret str o_pos]. change (take (Z.to_nat 0) buf) with (@nil Z). rewrite app_nil_l.
    assert (length (take (Z.to_nat k) out) = Z.to_nat k) as Hk by (rewrite length_take; lia).
    rewrite (proj2 (Z.ltb_lt k _)) by (rewrite length_app, length_drop, Hk; lia). do 2 f_equal.
    destruct (drop (Z.to_nat k) buf) as [|x rest] eqn:Ed; [apply (f_equal length) in Ed; rewrite length_drop in Ed; simpl in Ed; lia|].
    rewrite <- Hk at 1. rewrite insert_mid. do 2 f_equal. rewrite <- drop_drop, Ed. done.
  - intros b buf. unfold vsnprintf, to_str. rewrite Hp.
    assert (∀ o, emit_str ctx_putchar o (mkOut (Some (b :: buf)) 0 0 [] []) = Ok (tt, mkOut (Some (b :: buf)) 0 0 [] [])) as E by (induction o as [|c o IH]; [done|exact IH]).
    rewrite (bind_of_ok _ _ _ _ _ (E out)). done.
Qed.

Lemma stdio_correct_witness :
  (∃ w, printf (show demo_format) demo_args = Ok w ∧ mjoin w = [110; 61; 45; 48; 48; 48; 52; 50; 32; 111; 107; 32; 66; 69; 69; 70; 10] ∧
    Forall (λ x, 0 < length x ≤ 1023)%nat w) ∧
  vsnprintf (replicate 8 7) 5 (show demo_format) demo_args = Ok ([110; 61; 45; 48] ++ 0 :: [7; 7; 7], 4).
Proof.
  destruct (stdio_correct demo_format demo_args [110; 61; 45; 48; 48; 48; 52; 50; 32; 111; 107; 32; 66; 69; 69; 70; 10]) as (H1 & _ & H3 & _).
  - unfold demo_format. repeat (constructor; [cbn; unfold PCT; lia|]). constructor.
  - vm_compute. reflexivity.
  - split; [exact H1|]. apply (H3 (replicate 8 7) 5); simpl; lia.
Defined.
End Format.
