(* ===== verification/Input.v ===== *)
(** * Keyboard and mouse ([kernel/io/keyboard.c], [kernel/io/mouse.c], the input
      calls of [kernel/cpu/syscall.c] and [user/lib/syscall.h])

    Scan codes and mouse packets arrive byte by byte at port 0x60, one interrupt
    each.  The keyboard handler decodes them into a queue of key events and wakes
    the task waiting for one; the mouse handler assembles packets and moves the
    pointer.  The board has the two interrupt controllers, the PS/2 controller
    and the serial port. *)
From S2P Require Import Prelude Ports Kobj Sched Format Irq.
Import Kobj Sched Irq.

#[local] Existing Instance Format.uart_ports.

Module Input.

(** ** State *)

Definition KEY_NONE : Z := 0.
Definition KEY_RETURN : Z := 0x0D.
Definition KEY_TAB : Z := 0x0E.
Definition KEY_BACKSPACE : Z := 0x0F.
Definition KEY_LEFT : Z := 0x10.
Definition KEY_UP : Z := 0x11.
Definition KEY_RIGHT : Z := 0x12.
Definition KEY_DOWN : Z := 0x13.

Record KeyEvent := mkKey { code : Z; character : Z }.
Definition no_key : KeyEvent := mkKey KEY_NONE 0.

Definition MAX_KEYEVENTS : Z := 8.

Record kbd := mkKbd { extended : Z; s_key_queue : list KeyEvent; s_key_queue_len : Z; s_reading_task : Z }.

Record mouse_state := mkMouse { ms_x : Z; ms_y : Z; ms_buttons : Z; ms_scroll : Z; ms_pending : Z }.
Record mouse := mkMs { g_mouse : mouse_state; g_intellimouse : bool; g_packet : list Z; g_packet_idx : Z }.

Record inputs (A : Type) := mkInputs { i_sched : kstate A; i_kbd : kbd; i_mouse : mouse }.
Arguments mkInputs {A}.
Arguments i_sched {A}.
Arguments i_kbd {A}.
Arguments i_mouse {A}.

Definition kbd_US : list Z :=
  [0; 27; 49; 50; 51; 52; 53; 54; 55; 56; 57; 48; 45; 61; 8; 9;
   113; 119; 101; 114; 116; 121; 117; 105; 111; 112; 91; 93; 10; 0; 97; 115;
   100; 102; 103; 104; 106; 107; 108; 59; 39; 96; 0; 92; 122; 120; 99; 118;
   98; 110; 109; 44; 46; 47; 0; 42; 0; 32; 0; 0; 0; 0; 0; 0;
   0; 0; 0; 0; 0; 0; 0; 0; 0; 0; 45; 0; 0; 0; 43; 0;
   0; 0; 0; 0; 0; 0; 0; 0; 0; 0; 0; 0; 0; 0; 0; 0;
   0; 0; 0; 0; 0; 0; 0; 0; 0; 0; 0; 0; 0; 0; 0; 0;
   0; 0; 0; 0; 0; 0; 0; 0; 0; 0; 0; 0; 0; 0; 0; 0].

(** Every case of the [switch] is below 128. *)
Definition scancode_set1_to_ascii (sc : Z) : Z :=
  if sc <? 128 then default 0 (kbd_US !! Z.to_nat sc) else 0.

(** The event of a scan code behind the prefix 0xE0. *)
Definition extended_key (sc : Z) : KeyEvent :=
  if sc =? 0x0F then mkKey KEY_TAB 0
  else if sc =? 0x48 then mkKey KEY_UP 0
  else if sc =? 0x50 then mkKey KEY_DOWN 0
  else if sc =? 0x4B then mkKey KEY_LEFT 0
  else if sc =? 0x4D then mkKey KEY_RIGHT 0
  else no_key.

Definition plain_key (sc : Z) : KeyEvent :=
  if sc =? 0x1C then mkKey KEY_RETURN 10
  else if sc =? 0x0E then mkKey KEY_BACKSPACE 8
  else let c := scancode_set1_to_ascii sc in if truthy c then mkKey 1 c else no_key.

Section drivers.
Context {D A : Type} `{!Ports D}.
Local Notation In := (inputs A).
Local Notation Mc := (machine D (inputs A)).

Definition on_sched {B} (m : M (kstate A) B) : M In B := zoom i_sched (λ k s, mkInputs k (i_kbd s) (i_mouse s)) m.
Definition set_kbd (k : kbd) : M In unit := modify (λ s, mkInputs (i_sched s) k (i_mouse s)).
Definition set_mouse (m : mouse) : M In unit := modify (λ s, mkInputs (i_sched s) (i_kbd s) m).

(** ** The keyboard *)

Definition on_key_event (ev : KeyEvent) : M In unit :=
  k ← gets i_kbd;
  when (s_key_queue_len k <? MAX_KEYEVENTS)
    (set_kbd (mkKbd (extended k) (<[Z.to_nat (s_key_queue_len k) := ev]> (s_key_queue k)) (s_key_queue_len k + 1) (s_reading_task k))) ;;
  k ← gets i_kbd;
  when (truthy (s_reading_task k))
    (on_sched (task_set_ready (s_reading_task k)) ;;
     set_kbd (mkKbd (extended k) (s_key_queue k) (s_key_queue_len k) 0)).

Definition set_extended (e : Z) : M In unit :=
  k ← gets i_kbd; set_kbd (mkKbd e (s_key_queue k) (s_key_queue_len k) (s_reading_task k)).

(** What the handler does with a scan code. *)
Definition key_code (sc : Z) : M Mc unit :=
  if sc =? 0xE0 then on_kernel (set_extended 1) ;; on_ports (pic_send_eoi 1)
  else if truthy (Z.land sc 0x80) then on_kernel (set_extended 0) ;; on_ports (pic_send_eoi 1)
  else
    e ← gets (λ s, extended (i_kbd (m_kernel s)));
    ev ← (if truthy e then on_kernel (set_extended 0) ;; mret (extended_key sc) else mret (plain_key sc));
    when (negb (code ev =? KEY_NONE)) (on_kernel (on_key_event ev)) ;;
    when (truthy (character ev)) (on_ports (Format.serial_write_char (character ev))) ;;
    on_ports (pic_send_eoi 1).

Definition key_handler : M Mc unit :=
  sc ← on_ports (inb 0x60);
  key_code sc.

(** [s_key_queue[i] = s_key_queue[i + 1]] *)
Definition shift_key (i : Z) : M In unit :=
  k ← gets i_kbd;
  ev ← of_option (s_key_queue k !! Z.to_nat (i + 1));
  set_kbd (mkKbd (extended k) (<[Z.to_nat i := ev]> (s_key_queue k)) (s_key_queue_len k) (s_reading_task k)).

Definition keyboard_read : M In KeyEvent :=
  k ← gets i_kbd;
  ev ← of_option (s_key_queue k !! 0%nat);
  when (truthy (s_key_queue_len k))
    (for_range (Z.to_nat (s_key_queue_len k)) 0 shift_key ;;
     k ← gets i_kbd;
     set_kbd (mkKbd (extended k) (s_key_queue k) (s_key_queue_len k - 1) (s_reading_task k))) ;;
  mret ev.

Definition keyboard_inject (ev : KeyEvent) : M In unit :=
  when (negb (code ev =? KEY_NONE)) (on_key_event ev).

Definition keyboard_set_reader (t : Z) : M In bool :=
  k ← gets i_kbd;
  if truthy (s_reading_task k) then mret false
  else set_kbd (mkKbd (extended k) (s_key_queue k) (s_key_queue_len k) t) ;; mret true.

(** The keyboard's calls: the word returned, and what the user library reads in it. *)
Definition key_word (ev : KeyEvent) : Z := Z.lor (Z.shiftl (u8 (character ev)) 32) (u32 (code ev)).

Definition SYS_READ_KEY_NB : M In Z :=
  ev ← keyboard_read;
  if code ev =? KEY_NONE then mret 0 else mret (key_word ev).

(** Up to the call of [schedule], and from where the task goes on. *)
Definition SYS_READ_KEY : M In (option Z) :=
  ev ← keyboard_read;
  if negb (code ev =? KEY_NONE) then mret (Some (key_word ev))
  else
    t ← on_sched (gets g_current_task);
    b ← keyboard_set_reader t;
    if negb b then mret (Some 0)
    else on_sched (task_set_blocked t) ;; on_sched schedule ;; mret None.
Definition SYS_READ_KEY_resumed : M In Z := ev ← keyboard_read; mret (key_word ev).

(** [sys_read_key_nb] of the user library. *)
Definition key_of_word (r : Z) : KeyEvent := mkKey (Z.land r 0xFFFFFFFF) (u8 (Z.shiftr r 32)).
Definition sys_read_key_nb : M In KeyEvent := r ← SYS_READ_KEY_NB; mret (key_of_word r).

(** ** The mouse *)

Context (g_fb_width g_fb_height : Z).

(** Clamping to the framebuffer. *)
Definition clamp_to (size n : Z) : Z :=
  let n := if n <? 0 then 0 else n in
  if size <=? u32 n then i32 size - 1 else n.

(** The four bits of the wheel, sign-extended. *)
Definition wheel (b : Z) : Z := let dz := Z.land b 0x0F in if truthy (Z.land dz 0x08) then dz - 16 else dz.

(** What a complete packet does to the state. *)
Definition apply_packet (intellimouse : bool) (p : list Z) (m : mouse_state) : mouse_state :=
  let byte i := nth i p 0 in
  let flags := byte 0%nat in
  let dx := byte 1%nat - (if truthy (Z.land flags 0x10) then 256 else 0) in
  let dy := - (byte 2%nat - (if truthy (Z.land flags 0x20) then 256 else 0)) in
  mkMouse (clamp_to g_fb_width (i32 (ms_x m + dx))) (clamp_to g_fb_height (i32 (ms_y m + dy))) (Z.land flags 0x07)
          (if intellimouse then i32 (ms_scroll m + wheel (byte 3%nat)) else ms_scroll m) 1.

Definition on_mouse_irq : M Mc unit :=
  data ← on_ports (inb 0x60);
  m ← gets (λ s, i_mouse (m_kernel s));
  if (g_packet_idx m =? 0) && negb (truthy (Z.land data 0x08)) then on_ports (pic_send_eoi 12)
  else if 4 <=? g_packet_idx m then fault
  else
    let packet := <[Z.to_nat (g_packet_idx m) := data]> (g_packet m) in
    let idx := g_packet_idx m + 1 in
    if idx =? (if g_intellimouse m then 4 else 3) then
      if truthy (Z.land (nth 0 packet 0) 0xC0)
      then on_kernel (set_mouse (mkMs (g_mouse m) (g_intellimouse m) packet 0)) ;; on_ports (pic_send_eoi 12)
      else
        on_kernel (set_mouse (mkMs (apply_packet (g_intellimouse m) packet (g_mouse m)) (g_intellimouse m) packet 0)) ;;
        on_ports (pic_send_eoi 12)
    else on_kernel (set_mouse (mkMs (g_mouse m) (g_intellimouse m) packet idx)) ;; on_ports (pic_send_eoi 12).

(** *** Setting it up *)

Fixpoint wait_write (t : nat) : M D unit :=
  match t with
  | O => mret tt
  | S t' => st ← inb 0x64; if truthy (Z.land st 0x02) then wait_write t' else mret tt
  end.
Fixpoint wait_read (t : nat) : M D unit :=
  match t with
  | O => mret tt
  | S t' => st ← inb 0x64; if negb (truthy (Z.land st 0x01)) then wait_read t' else mret tt
  end.
Definition PS2_POLLS : nat := Z.to_nat 100000.
Definition ps2_wait_write : M D unit := wait_write PS2_POLLS.
Definition ps2_wait_read : M D unit := wait_read PS2_POLLS.

Definition mouse_cmd (cmd : Z) : M D unit :=
  ps2_wait_write ;; outb 0x64 0xD4 ;;
  ps2_wait_write ;; outb 0x60 cmd.

Definition mouse_ack : M D Z := ps2_wait_read ;; inb 0x60.

(** [while (inb(0x64) & 0x01) inb(0x60);] *)
Fixpoint flush_output (fuel : nat) : M D unit :=
  st ← inb 0x64;
  if truthy (Z.land st 0x01) then
    match fuel with
    | O => no_fuel
    | S fuel' => _ ← inb 0x60; flush_output fuel'
    end
  else mret tt.

(** The commands of [mouse_init], up to the device's answer. *)
Definition mouse_probe (fuel : nat) : M D Z :=
  flush_output fuel ;;
  ps2_wait_write ;; outb 0x64 0xA8 ;;
  ps2_wait_write ;; outb 0x64 0x20 ;; ps2_wait_read ;;
  cfg ← inb 0x60;
  let cfg := Z.land (Z.land (Z.lor (Z.lor cfg 0x01) 0x02) (Z.lnot 0x10)) (Z.lnot 0x20) in
  ps2_wait_write ;; outb 0x64 0x60 ;;
  ps2_wait_write ;; outb 0x60 cfg ;;
  mouse_cmd 0xF6 ;; _ ← mouse_ack;
  mouse_cmd 0xF3 ;; _ ← mouse_ack; mouse_cmd 200 ;; _ ← mouse_ack;
  mouse_cmd 0xF3 ;; _ ← mouse_ack; mouse_cmd 100 ;; _ ← mouse_ack;
  mouse_cmd 0xF3 ;; _ ← mouse_ack; mouse_cmd 80 ;; _ ← mouse_ack;
  mouse_cmd 0xF2 ;; _ ← mouse_ack; id ← mouse_ack;
  mouse_cmd 0xF4 ;; _ ← mouse_ack;
  mret id.

Definition mouse_init (fuel : nat) : M Mc unit :=
  id ← on_ports (mouse_probe fuel);
  m ← gets (λ s, i_mouse (m_kernel s));
  on_kernel (set_mouse (mkMs (mkMouse (i32 (g_fb_width / 2)) (i32 (g_fb_height / 2)) (ms_buttons (g_mouse m)) (ms_scroll (g_mouse m)) (ms_pending (g_mouse m)))
                             (id =? 0x03) (g_packet m) (g_packet_idx m))).

Definition mouse_read_state : M In mouse_state :=
  m ← gets i_mouse;
  set_mouse (mkMs (mkMouse (ms_x (g_mouse m)) (ms_y (g_mouse m)) (ms_buttons (g_mouse m)) 0 0) (g_intellimouse m) (g_packet m) (g_packet_idx m)) ;;
  mret (g_mouse m).

Definition SYS_READ_MOUSE : M In Z :=
  ms ← mouse_read_state;
  if negb (truthy (ms_pending ms)) then mret 0
  else mret (Z.lor (Z.lor (Z.lor (Z.lor (Z.shiftl 1 48) (Z.shiftl (u8 (ms_scroll ms)) 49)) (u64 (Z.shiftl (ms_buttons ms) 32)))
                          (Z.shiftl (u16 (ms_y ms)) 16)) (u16 (ms_x ms))).

Record mouse_event := mkEvent { me_x : Z; me_y : Z; me_buttons : Z; me_scroll : Z }.

(** The [signed char] of a byte. *)
Definition i8 (v : Z) : Z := let b := u8 v in if b <? 128 then b else b - 256.

(** [sys_read_mouse] of the user library. *)
Definition sys_read_mouse : M In (option mouse_event) :=
  r ← SYS_READ_MOUSE;
  if r =? 0 then mret None
  else mret (Some (mkEvent (Z.land r 0xFFFF) (Z.land (Z.shiftr r 16) 0xFFFF) (Z.land (Z.shiftr r 32) 0xFF) (i8 (Z.land (Z.shiftr r 49) 0xFF)))).
End drivers.
(** ** The board *)

(** The PS/2 controller with a mouse behind it: the output buffer, the command
    byte, where the next data byte goes, and of the mouse the sample rates set
    (newest first), whether it has a wheel and whether it reports. *)
Inductive ps2_next := ToKeyboard | ToConfig | ToMouse.
Record ps2 := mkPs2 { p_out : list Z; p_cfg : Z; p_next : ps2_next; p_rate : bool; p_rates : list Z; p_wheel : bool; p_reports : bool }.

Definition set_out (o : list Z) (p : ps2) : ps2 := mkPs2 o (p_cfg p) (p_next p) (p_rate p) (p_rates p) (p_wheel p) (p_reports p).

(** The identity the mouse answers with: 3 once a mouse with a wheel was sent the knock. *)
Definition mouse_id (p : ps2) : Z := if p_wheel p && bool_decide (take 3 (p_rates p) = [80; 100; 200]) then 3 else 0.

Definition mouse_byte (v : Z) (p : ps2) : ps2 :=
  let ack o := mkPs2 (p_out p ++ 0xFA :: o) (p_cfg p) ToKeyboard false (p_rates p) (p_wheel p) (p_reports p) in
  if p_rate p then mkPs2 (p_out p ++ [0xFA]) (p_cfg p) ToKeyboard false (v :: p_rates p) (p_wheel p) (p_reports p)
  else if v =? 0xF3 then mkPs2 (p_out p ++ [0xFA]) (p_cfg p) ToKeyboard true (p_rates p) (p_wheel p) (p_reports p)
  else if v =? 0xF2 then ack [mouse_id p]
  else if v =? 0xF4 then mkPs2 (p_out p ++ [0xFA]) (p_cfg p) ToKeyboard false (p_rates p) (p_wheel p) true
  else if v =? 0xF6 then mkPs2 (p_out p ++ [0xFA]) (p_cfg p) ToKeyboard false [100] (p_wheel p) false
  else ack [].

Definition ps2_in (port : Z) (p : ps2) : Z * ps2 :=
  if port =? 0x64 then (match p_out p with [] => 0 | _ => 1 end, p)
  else match p_out p with [] => (0, p) | b :: o => (b, set_out o p) end.

Definition ps2_out (port v : Z) (p : ps2) : ps2 :=
  if port =? 0x64 then
    if v =? 0x20 then set_out (p_out p ++ [p_cfg p]) p
    else if v =? 0x60 then mkPs2 (p_out p) (p_cfg p) ToConfig (p_rate p) (p_rates p) (p_wheel p) (p_reports p)
    else if v =? 0xD4 then mkPs2 (p_out p) (p_cfg p) ToMouse (p_rate p) (p_rates p) (p_wheel p) (p_reports p)
    else if v =? 0xA8 then mkPs2 (p_out p) (Z.land (p_cfg p) (Z.lnot 0x20)) (p_next p) (p_rate p) (p_rates p) (p_wheel p) (p_reports p)
    else p
  else match p_next p with
       | ToConfig => mkPs2 (p_out p) v ToKeyboard (p_rate p) (p_rates p) (p_wheel p) (p_reports p)
       | ToMouse => mouse_byte v p
       | ToKeyboard => p
       end.

Record board := mkBoard { b_pics : pics; b_ps2 : ps2; b_uart : Format.uart }.

Definition is_ps2 (port : Z) : bool := (port =? 0x60) || (port =? 0x64).
Definition is_pic (port : Z) : bool := bool_decide (port ∈ [PIC1_COMMAND; PIC1_DATA; PIC2_COMMAND; PIC2_DATA]).

Definition board_in (width port : Z) (b : board) : Z * board :=
  if is_ps2 port then let '(v, p) := ps2_in port (b_ps2 b) in (v, mkBoard (b_pics b) p (b_uart b))
  else if is_pic port then let '(v, p) := pics_in width port (b_pics b) in (v, mkBoard p (b_ps2 b) (b_uart b))
  else let '(v, u) := port_in width port (b_uart b) in (v, mkBoard (b_pics b) (b_ps2 b) u).

Definition board_out (width port v : Z) (b : board) : board :=
  if is_ps2 port then mkBoard (b_pics b) (ps2_out port v (b_ps2 b)) (b_uart b)
  else if is_pic port then mkBoard (pics_out width port v (b_pics b)) (b_ps2 b) (b_uart b)
  else mkBoard (b_pics b) (b_ps2 b) (port_out width port v (b_uart b)).
#[export] Instance board_ports : Ports board := {| port_in := board_in; port_out := board_out |}.

Section machine.
Context {A : Type}.
Local Notation Mc := (machine board (inputs A)).
Context (handlers : list (option (M Mc unit))).

Definition set_pics (p : pics) (b : board) : board := mkBoard p (b_ps2 b) (b_uart b).
Definition set_ps2 (p : ps2) (b : board) : board := mkBoard (b_pics b) p (b_uart b).
Definition set_hw (b : board) (s : Mc) : Mc := mkMachine b (m_kernel s) (m_ticks s).
Definition set_inputs (i : inputs A) (s : Mc) : Mc := mkMachine (m_hw s) i (m_ticks s).

(** A byte arrives at the controller, which requests line [irq]. *)
Definition byte_arrives (irq b : Z) : M Mc unit := λ s,
  let hw := set_ps2 (set_out (p_out (b_ps2 (m_hw s)) ++ [b]) (b_ps2 (m_hw s))) (m_hw s) in
  match raise irq (b_pics hw) with
  | Some (v, p) => interrupt_dispatch handlers None v (set_hw (set_pics p hw) s)
  | None => Ok (tt, set_hw hw s)
  end.

Fixpoint bytes_arrive (irq : Z) (bs : list Z) : M Mc unit :=
  match bs with [] => mret tt | b :: bs' => byte_arrives irq b ;; bytes_arrive irq bs' end.

Lemma bytes_arrive_app irq l1 l2 (s : Mc) : bytes_arrive irq (l1 ++ l2) s = (bytes_arrive irq l1 ;; bytes_arrive irq l2) s.
Proof.
  revert s. induction l1 as [|b l1 IH]; intros s; [done|]. cbn [bytes_arrive app]. unfold mbind, M_bind in *. destruct (byte_arrives irq b s) as [[[] s']| | |]; [apply IH|done..].
Qed.

Lemma eoi_board irq (b : board) : pic_send_eoi irq b = zoom b_pics set_pics (pic_send_eoi irq) b.
Proof. unfold pic_send_eoi. by destruct (8 <=? irq). Qed.

Lemma eoi_idle irq p : idle p → pic_send_eoi irq p = Ok (tt, p).
Proof. destruct p as [[s1 b1 m1 i1] [s2 b2 m2 i2]]. intros [H1 H2]. cbn in H1, H2. subst. unfold pic_send_eoi. by destruct (8 <=? irq). Qed.

(** The handler runs with the controllers idle again and the byte in the output buffer. *)
Lemma byte_arrives_ok irq b (s : Mc) (handler : M Mc unit) :
  b_pics (m_hw s) = set_up → p_out (b_ps2 (m_hw s)) = [] → irq = 1 ∨ irq = 12 →
  handlers !! Z.to_nat (32 + irq) = Some (Some handler) →
  byte_arrives irq b s = handler (set_hw (set_ps2 (set_out [b] (b_ps2 (m_hw s))) (m_hw s)) s).
Proof.
  intros Hp Ho Hi Hh. unfold byte_arrives. rewrite Ho. cbn [app b_pics set_ps2]. rewrite Hp.
  assert (∃ p, raise irq set_up = Some (32 + irq, p)) as [p Hr] by (destruct Hi as [-> | ->]; eexists; reflexivity).
  rewrite Hr. unfold interrupt_dispatch. rewrite (proj2 (Z.leb_le 32 _)), (proj2 (Z.ltb_lt _ 48)) by lia. cbn [andb when].
  replace (32 + irq - 32) with irq by lia. rewrite u8_small by lia. pose proof (eoi_clears irq set_up ltac:(lia) ltac:(done) _ _ Hr) as He.
  rewrite (bind_of_ok _ _ _ tt (set_hw (set_ps2 (set_out [b] (b_ps2 (m_hw s))) (m_hw s)) s)).
  - rewrite Hh, (bind_of_ok _ _ _ _ _ eq_refl). done.
  - unfold on_ports, zoom. cbn [m_hw set_hw]. rewrite eoi_board. unfold zoom. cbn [b_pics set_pics set_ps2]. rewrite He.
    unfold set_hw, set_pics, set_ps2. cbn [m_kernel m_ticks b_ps2 b_uart b_pics]. by rewrite Hp.
Qed.

Lemma read_byte b (s : Mc) : 0 ≤ b < 256 → p_out (b_ps2 (m_hw s)) = [b] →
  on_ports (inb 0x60) s = Ok (b, set_hw (set_ps2 (set_out [] (b_ps2 (m_hw s))) (m_hw s)) s).
Proof.
  intros Hb Ho. destruct s as [[pc [o c nx r rs w rp] u] k t]. cbn in Ho. subst o. unfold on_ports, zoom. cbn [m_hw].
  assert (inb 0x60 (mkBoard pc (mkPs2 [b] c nx r rs w rp) u) = Ok (u8 b, mkBoard pc (mkPs2 [] c nx r rs w rp) u)) as -> by done. by rewrite u8_small by lia.
Qed.

Lemma eoi_machine irq (s : Mc) : idle (b_pics (m_hw s)) → on_ports (pic_send_eoi irq) s = Ok (tt, s).
Proof.
  intros Hi. unfold on_ports, zoom. rewrite eoi_board. unfold zoom. rewrite (eoi_idle _ _ Hi). by destruct s as [[] ? ?].
Qed.
End machine.
(** ** Keys *)

(** A key by its scan code, alone or behind the prefix 0xE0; what pressing and releasing it sends. *)
Inductive key := Plain (sc : Z) | Ext (sc : Z).
Inductive action := Press (k : key) | Release (k : key).

Definition scan_code (k : key) : Z := match k with Plain sc | Ext sc => sc end.
Definition action_key (a : action) : key := match a with Press k | Release k => k end.
Definition key_ok (k : key) : Prop := 0 < scan_code k < 128 ∧ scan_code k ≠ 0x60.

Definition key_bytes (a : action) : list Z :=
  let last k := match a with Press _ => scan_code k | Release _ => scan_code k + 0x80 end in
  match action_key a with Plain sc => [last (Plain sc)] | Ext sc => [0xE0; last (Ext sc)] end.

Definition key_event (k : key) : KeyEvent := match k with Plain sc => plain_key sc | Ext sc => extended_key sc end.
Definition action_events (a : action) : list KeyEvent :=
  match a with Press k => if code (key_event k) =? KEY_NONE then [] else [key_event k] | Release _ => [] end.

(** The queue holds [q]; the unused places are empty. *)
Definition holds (k : kbd) (q : list KeyEvent) : Prop :=
  s_key_queue k = q ++ replicate (8 - length q) no_key ∧ s_key_queue_len k = Z.of_nat (length q) ∧ (length q ≤ 8)%nat.

Definition event_ok (ev : KeyEvent) : Prop := 0 < code ev < 2 ^ 32 ∧ 0 ≤ character ev < 256.

(** What the events do to the task waiting for a key. *)
Definition wake_reader {A} (r : Z) (evs : list KeyEvent) (k : kstate A) : kstate A :=
  if decide (evs = [] ∨ r = 0) then k else set_k_tasks (wake_one (k_tasks k) r) k.
Definition reader_after (r : Z) (evs : list KeyEvent) : Z := if decide (evs = []) then r else 0.

Lemma keys_push k q ev : holds k q →
  holds (if s_key_queue_len k <? MAX_KEYEVENTS
         then mkKbd (extended k) (<[Z.to_nat (s_key_queue_len k) := ev]> (s_key_queue k)) (s_key_queue_len k + 1) (s_reading_task k) else k)
        (take 8 (q ++ [ev])).
Proof.
  intros (Hq & Hl & H8). rewrite Hl. unfold MAX_KEYEVENTS. destruct (Z.ltb_spec (Z.of_nat (length q)) 8) as [H|H].
  - rewrite take_ge by (rewrite length_app; simpl; lia). unfold holds. cbn [s_key_queue s_key_queue_len]. rewrite Hq, Nat2Z.id, length_app. cbn [length].
    split; [|split; lia]. replace (8 - length q)%nat with (S (8 - (length q + 1)))%nat by lia. cbn [replicate]. rewrite insert_mid, <- app_assoc. done.
  - rewrite take_app_length' by lia. done.
Qed.

Section keyboard.
Context {A : Type}.
Local Notation Mc := (machine board (inputs A)).
Context (handlers : list (option (M Mc unit))).
Context (Hhandler : handlers !! 33%nat = Some (Some key_handler)).

Record kb_state (s : Mc) (q : list KeyEvent) (r e : Z) : Prop := {
  kb_pics : b_pics (m_hw s) = set_up;
  kb_out : p_out (b_ps2 (m_hw s)) = [];
  kb_uart : Z.testbit (Format.u_lcr (b_uart (m_hw s))) 7 = false;
  kb_ext : extended (i_kbd (m_kernel s)) = e;
  kb_q : holds (i_kbd (m_kernel s)) q;
  kb_reader : s_reading_task (i_kbd (m_kernel s)) = r;
  kb_task : r ≠ 0 → is_Some (k_tasks (i_sched (m_kernel s)) !! r)
}.

Lemma on_key_event_ok (i : inputs A) q ev : holds (i_kbd i) q →
  (s_reading_task (i_kbd i) ≠ 0 → is_Some (k_tasks (i_sched i) !! s_reading_task (i_kbd i))) →
  ∃ k', on_key_event ev i = Ok (tt, mkInputs (wake_reader (s_reading_task (i_kbd i)) [ev] (i_sched i)) k' (i_mouse i)) ∧
    holds k' (take 8 (q ++ [ev])) ∧ extended k' = extended (i_kbd i) ∧ s_reading_task k' = 0.
Proof.
  intros Hq Ht. pose proof (keys_push _ _ ev Hq) as Hq'. destruct i as [sd k m]. cbn [i_kbd i_sched i_mouse] in *. unfold on_key_event.
  rewrite (bind_of_ok _ _ _ _ _ eq_refl). cbn [i_kbd].
  set (k1 := if s_key_queue_len k <? MAX_KEYEVENTS then _ else k) in Hq'.
  assert (extended k1 = extended k ∧ s_reading_task k1 = s_reading_task k) as [He Hr] by (unfold k1; by destruct (_ <? _)).
  rewrite (bind_of_ok _ _ _ tt (mkInputs sd k1 m)) by (unfold k1; by destruct (_ <? _)). rewrite (bind_of_ok _ _ _ _ _ eq_refl). cbn [i_kbd].
  rewrite Hr. unfold wake_reader, truthy. destruct (Z.eqb_spec (s_reading_task k) 0) as [E|E]; cbn [negb when].
  - exists k1. rewrite decide_True by auto. split; [done|]. split; [done|]. split; [done|congruence].
  - rewrite decide_False by naive_solver. exists (mkKbd (extended k1) (s_key_queue k1) (s_key_queue_len k1) 0).
    rewrite (bind_of_ok _ _ _ tt (mkInputs (set_k_tasks (wake_one (k_tasks sd) (s_reading_task k)) sd) k1 m)).
    + split; [done|]. split; [done|]. by split.
    + unfold on_sched, zoom. cbn [i_sched]. by rewrite (task_set_ready_ok sd _ (Ht E)).
Qed.

Lemma land_7f sc : 0 ≤ sc < 128 → truthy (Z.land sc 0x80) = false.
Proof.
  intros H. unfold truthy. assert (Z.land sc 0x80 = 0) as ->; [|done]. apply Z.bits_inj'. intros n Hn. rewrite Z.land_spec, Z.bits_0.
  destruct (decide (n = 7)) as [->|]; [|change 0x80 with (2 ^ 7); rewrite Z.pow2_bits_false by lia; apply andb_false_r].
  apply andb_false_iff. left. destruct (decide (sc = 0)) as [->|]; [done|]. apply Z.bits_above_log2; [lia|]. apply Z.log2_lt_pow2; lia.
Qed.

Lemma land_80 sc : 0 ≤ sc < 128 → truthy (Z.land (sc + 0x80) 0x80) = true.
Proof.
  intros H. unfold truthy. rewrite Z.add_comm. assert (Z.testbit (Z.land (0x80 + sc) 0x80) 7 = true) as Hb.
  { rewrite Z.land_spec. change (Z.testbit 0x80 7) with true. rewrite andb_true_r. rewrite Z.testbit_true by lia. change (2 ^ 7) with 128. dlia. }
  destruct (Z.eqb_spec (Z.land (0x80 + sc) 0x80) 0) as [E|]; [|done]. by rewrite E, Z.bits_0 in Hb.
Qed.

Lemma set_extended_ok e (s : Mc) : on_kernel (set_extended e) s =
  Ok (tt, set_inputs (mkInputs (i_sched (m_kernel s)) (mkKbd e (s_key_queue (i_kbd (m_kernel s))) (s_key_queue_len (i_kbd (m_kernel s)))
    (s_reading_task (i_kbd (m_kernel s)))) (i_mouse (m_kernel s))) s).
Proof. done. Qed.

Lemma key_byte b (s : Mc) q r e : kb_state s q r e → 0 ≤ b < 256 → byte_arrives handlers 1 b s = key_code b s.
Proof.
  intros K Hb. rewrite (byte_arrives_ok handlers 1 b s key_handler (kb_pics _ _ _ _ K) (kb_out _ _ _ _ K) (or_introl eq_refl) Hhandler).
  unfold key_handler. rewrite (bind_of_ok _ _ _ _ _ (read_byte b (set_hw (set_ps2 (set_out [b] (b_ps2 (m_hw s))) (m_hw s)) s) Hb eq_refl)). f_equal.
  destruct s as [[pc [o c nx rt rs w rp] u] k t]. pose proof (kb_out _ _ _ _ K) as Ho. cbn in Ho. by subst.
Qed.

(** The state afterwards: what the events [evs] of a byte do. *)
Definition typed (s s' : Mc) (q : list KeyEvent) (r e' : Z) (evs : list KeyEvent) : Prop :=
  kb_state s' (take 8 (q ++ evs)) (reader_after r evs) e' ∧
  i_sched (m_kernel s') = wake_reader r evs (i_sched (m_kernel s)) ∧ i_mouse (m_kernel s') = i_mouse (m_kernel s).

Lemma keys_nil k q : holds k q → take 8 (q ++ []) = q.
Proof. intros (_ & _ & H). rewrite app_nil_r. by apply take_ge. Qed.

Lemma idle_set_up : idle set_up.
Proof. done. Qed.

(** The prefix and the release codes. *)
Lemma key_flag_ok b (s : Mc) q r e : kb_state s q r e → 0 ≤ b < 256 → b = 0xE0 ∨ (b ≠ 0xE0 ∧ truthy (Z.land b 0x80) = true) →
  ∃ s', byte_arrives handlers 1 b s = Ok (tt, s') ∧ typed s s' q r (if b =? 0xE0 then 1 else 0) [].
Proof.
  intros K Hb Hc. rewrite (key_byte b s q r e K Hb). destruct K as [K1 K2 K3 K4 K5 K6 K7]. set (e' := if b =? 0xE0 then 1 else 0).
  set (s' := set_inputs (mkInputs (i_sched (m_kernel s)) (mkKbd e' (s_key_queue (i_kbd (m_kernel s))) (s_key_queue_len (i_kbd (m_kernel s)))
    (s_reading_task (i_kbd (m_kernel s)))) (i_mouse (m_kernel s))) s).
  assert (key_code b s = Ok (tt, s')) as ->.
  { unfold key_code, s', e'. destruct Hc as [->|[Hn Ht]].
    - rewrite Z.eqb_refl. rewrite (bind_of_ok _ _ _ _ _ (set_extended_ok 1 s)). apply eoi_machine. cbn. by rewrite K1.
    - rewrite (proj2 (Z.eqb_neq b 0xE0) Hn). rewrite Ht. rewrite (bind_of_ok _ _ _ _ _ (set_extended_ok 0 s)). apply eoi_machine. cbn. by rewrite K1. }
  exists s'. split; [done|]. unfold typed, reader_after, wake_reader. rewrite decide_True by done. rewrite (keys_nil _ _ K5), decide_True by auto.
  split; [|done]. by split.
Qed.

(** A key pressed, behind the prefix or not. *)
Lemma key_press_ok b (s : Mc) q r e : kb_state s q r e → 0 ≤ b < 128 →
  let ev := if truthy e then extended_key b else plain_key b in
  ∃ s', byte_arrives handlers 1 b s = Ok (tt, s') ∧ typed s s' q r 0 (if code ev =? KEY_NONE then [] else [ev]).
Proof.
  intros K Hb ev. rewrite (key_byte b s q r e K ltac:(lia)). destruct K as [K1 K2 K3 K4 K5 K6 K7].
  unfold key_code. rewrite (proj2 (Z.eqb_neq b 0xE0)) by lia. rewrite land_7f by lia. rewrite (bind_of_ok _ _ _ _ _ eq_refl), K4.
  set (i1 := mkInputs (i_sched (m_kernel s)) (mkKbd 0 (s_key_queue (i_kbd (m_kernel s))) (s_key_queue_len (i_kbd (m_kernel s))) (s_reading_task (i_kbd (m_kernel s)))) (i_mouse (m_kernel s))).
  assert (∃ s1, (if truthy e then on_kernel (set_extended 0) ;; mret (extended_key b) else mret (plain_key b)) s = Ok (ev, s1) ∧ s1 = set_inputs i1 s) as (s1 & E1 & Hs1).
  { unfold ev. destruct (truthy e) eqn:Et; [exists (set_inputs i1 s); split; [by rewrite (bind_of_ok _ _ _ _ _ (set_extended_ok 0 s))|done]|]. exists s. split; [done|].
    unfold truthy in Et. apply negb_false_iff, Z.eqb_eq in Et. unfold i1. rewrite <- Et, <- K4. by destruct s as [? [? [] ?] ?]. }
  rewrite (bind_of_ok _ _ _ _ _ E1). clear E1. assert (holds (i_kbd i1) q) as Hq by exact K5.
  destruct (on_key_event_ok i1 q ev Hq) as (k' & Ek & Hh & He & Hr). { cbn. by rewrite K6. }
  set (evs := if code ev =? KEY_NONE then [] else [ev]).
  set (i2 := if code ev =? KEY_NONE then i1 else mkInputs (wake_reader (s_reading_task (i_kbd i1)) [ev] (i_sched i1)) k' (i_mouse i1)).
  rewrite (bind_of_ok _ _ _ tt (set_inputs i2 s)).
  2: { unfold i2. rewrite Hs1. destruct (code ev =? KEY_NONE); cbn [negb when]; [done|]. unfold on_kernel, zoom. cbn [m_kernel set_inputs]. by rewrite Ek. }
  assert (∃ u, (when (truthy (character ev)) (on_ports (Format.serial_write_char (character ev)))) (set_inputs i2 s)
    = Ok (tt, set_hw (mkBoard (b_pics (m_hw s)) (b_ps2 (m_hw s)) u) (set_inputs i2 s)) ∧ Z.testbit (Format.u_lcr u) 7 = false) as (u & Eu & Hu).
  { destruct (truthy (character ev)); cbn [when]; [|exists (b_uart (m_hw s)); split; [by destruct s as [[] ? ?]|done]].
    exists (Format.sends (Format.crlf [character ev]) (b_uart (m_hw s))). split; [|done].
    unfold on_ports, zoom. cbn [m_hw set_inputs].
    assert (Format.serial_write_char (character ev) (m_hw s) =
      zoom b_uart (λ u b, mkBoard (b_pics b) (b_ps2 b) u) (Format.serial_write_char (character ev)) (m_hw s)) as ->.
    { unfold Format.serial_write_char. destruct (character ev =? 10); by destruct s as [[] ? ?]. }
    unfold zoom. by rewrite (Format.serial_write_char_ok _ _ K3). }
  rewrite (bind_of_ok _ _ _ _ _ Eu). eexists. split; [apply eoi_machine; cbn; by rewrite K1|].
  unfold typed, reader_after, wake_reader. cbn [m_kernel m_hw set_hw set_inputs b_pics b_ps2 b_uart]. unfold i2, evs. destruct (code ev =? KEY_NONE).
  - rewrite !decide_True by auto. rewrite (keys_nil _ _ Hq). split; [|done]. by split.
  - rewrite !decide_False by done. cbn [i_kbd i_sched i_mouse i1 s_reading_task extended] in *. rewrite K6. split; [|split; [|done]]; [by split|].
    unfold wake_reader. done.
Qed.

Lemma reader_twice r e1 e2 : reader_after (reader_after r e1) e2 = reader_after r (e1 ++ e2).
Proof. unfold reader_after. destruct e1, e2; done. Qed.

Lemma wake_twice r e1 e2 (k : kstate A) : wake_reader (reader_after r e1) e2 (wake_reader r e1 k) = wake_reader r (e1 ++ e2) k.
Proof.
  destruct e1 as [|x e1]; [done|]. unfold reader_after. rewrite decide_False by done. unfold wake_reader at 1. rewrite decide_True by auto.
  unfold wake_reader. destruct (decide (r = 0)); [by rewrite !decide_True by auto|]. rewrite !decide_False by naive_solver. done.
Qed.

Lemma take_twice (q e1 e2 : list KeyEvent) : take 8 (take 8 (q ++ e1) ++ e2) = take 8 (q ++ e1 ++ e2).
Proof. rewrite app_assoc. generalize (q ++ e1). intros l. rewrite !take_app, take_take, Nat.min_id, length_take. do 2 f_equal. lia. Qed.

Lemma typed_trans s s1 s2 q r e1 e2 evs1 evs2 :
  typed s s1 q r e1 evs1 → typed s1 s2 (take 8 (q ++ evs1)) (reader_after r evs1) e2 evs2 → typed s s2 q r e2 (evs1 ++ evs2).
Proof.
  intros (_ & S1 & M1) (K2 & S2 & M2). rewrite take_twice, reader_twice in K2. unfold typed. by rewrite S2, S1, wake_twice, M2, M1.
Qed.

Lemma action_ok a (s : Mc) q r : kb_state s q r 0 → key_ok (action_key a) →
  ∃ s', bytes_arrive handlers 1 (key_bytes a) s = Ok (tt, s') ∧ typed s s' q r 0 (action_events a).
Proof.
  intros K Hk. assert (∀ e s q r, kb_state s q r (if e : bool then 1 else 0) → ∃ s', byte_arrives handlers 1
      (match a with Press _ => scan_code (action_key a) | Release _ => scan_code (action_key a) + 0x80 end) s = Ok (tt, s') ∧
      typed s s' q r 0 (match a with Press k => let ev := if e then extended_key (scan_code k) else plain_key (scan_code k) in
                                     if code ev =? KEY_NONE then [] else [ev] | Release _ => [] end)) as Hlast.
  { clear K s q r. intros e s q r K. destruct Hk as [H1 H2]. destruct a as [k|k]; cbn [action_key] in *.
    - destruct (key_press_ok (scan_code k) s q r _ K ltac:(lia)) as (s' & E & T). exists s'. split; [done|]. by destruct e.
    - destruct (key_flag_ok (scan_code k + 0x80) s q r _ K) as (s' & E & T); [lia|right; split; [lia|apply land_80; lia]|].
      exists s'. split; [done|]. by rewrite (proj2 (Z.eqb_neq (scan_code k + 0x80) 0xE0)) in T by lia. }
  unfold key_bytes. destruct (action_key a) as [sc|sc] eqn:Ea.
  - destruct (Hlast false s q r K) as (s' & E & T). exists s'. cbn [bytes_arrive]. cbn [scan_code] in *. rewrite (bind_of_ok _ _ _ _ _ E). split; [done|].
    destruct a as [k|k]; cbn [action_key] in Ea; subst k; exact T.
  - destruct (key_flag_ok 0xE0 s q r 0 K ltac:(lia) ltac:(by left)) as (s1 & E1 & T1). destruct (Hlast true s1 _ _ (proj1 T1)) as (s' & E & T).
    exists s'. cbn [bytes_arrive]. cbn [scan_code] in *. rewrite (bind_of_ok _ _ _ _ _ E1), (bind_of_ok _ _ _ _ _ E). split; [done|].
    pose proof (typed_trans _ _ _ _ _ _ _ _ _ T1 T) as T2. destruct a as [k|k]; cbn [action_key] in Ea; subst k; exact T2.
Qed.

Lemma actions_ok acts : ∀ (s : Mc) q r, kb_state s q r 0 → Forall (λ a, key_ok (action_key a)) acts →
  ∃ s', bytes_arrive handlers 1 (acts ≫= key_bytes) s = Ok (tt, s') ∧ typed s s' q r 0 (acts ≫= action_events).
Proof.
  induction acts as [|a acts IH]; intros s q r K Ha.
  - exists s. split; [done|]. unfold typed. cbn [mbind list_bind]. rewrite (keys_nil _ _ (kb_q _ _ _ _ K)). split; [done|].
    unfold wake_reader. by rewrite decide_True by auto.
  - inversion Ha; subst. destruct (action_ok a s q r K) as (s1 & E1 & T1); [done|]. destruct (IH s1 _ _ (proj1 T1)) as (s' & E & T); [done|].
    exists s'. cbn [mbind list_bind]. rewrite bytes_arrive_app, (bind_of_ok _ _ _ _ _ E1). split; [done|]. by eapply typed_trans.
Qed.

(** ** Reading keys *)

Definition with_queue (q : list KeyEvent) (i : inputs A) : inputs A :=
  mkInputs (i_sched i) (mkKbd (extended (i_kbd i)) q (s_key_queue_len (i_kbd i)) (s_reading_task (i_kbd i))) (i_mouse i).

Lemma shift_ok n : ∀ a x rest (i : inputs A),
  for_range n (Z.of_nat (length a)) shift_key (with_queue (a ++ x :: rest) i) =
  if decide (n ≤ length rest)%nat then Ok (tt, with_queue (a ++ take n rest ++ drop (n - 1) (if decide (n = O) then x :: rest else rest)) i) else Fault.
Proof.
  induction n as [|n IH]; intros a x rest i; cbn [for_range].
  { rewrite decide_True by lia. done. }
  assert (Z.to_nat (Z.of_nat (length a) + 1) = S (length a)) as Ei by lia.
  destruct rest as [|z rest].
  - rewrite decide_False by (simpl; lia). assert (shift_key (Z.of_nat (length a)) (with_queue (a ++ [x]) i) = Fault) as Hf.
    { unfold shift_key. rewrite (bind_of_ok _ _ _ _ _ eq_refl). cbn [i_kbd with_queue s_key_queue]. rewrite Ei. by rewrite lookup_ge_None_2 by (rewrite length_app; simpl; lia). }
    unfold mbind, M_bind. by rewrite Hf.
  - rewrite (bind_of_ok _ _ _ tt (with_queue ((a ++ [z]) ++ z :: rest) i)).
    + replace (Z.of_nat (length a) + 1) with (Z.of_nat (length (a ++ [z]))) by (rewrite length_app; simpl; lia). rewrite IH. cbn [length].
      destruct (decide (n ≤ length rest)%nat), (decide (S n ≤ S (length rest))%nat); [|lia|lia|done]. do 3 f_equal. rewrite <- app_assoc. cbn [app take].
      do 3 f_equal. rewrite (decide_False (P := S n = O)) by lia. replace (S n - 1)%nat with n by lia. destruct n as [|n]; [done|].
      rewrite decide_False by lia. cbn [drop]. replace (S n - 1)%nat with n by lia. done.
    + unfold shift_key. rewrite (bind_of_ok _ _ _ _ _ eq_refl). cbn [i_kbd with_queue s_key_queue]. rewrite Ei.
      replace ((a ++ x :: z :: rest) !! S (length a)) with (Some z) by (rewrite lookup_app_r by lia; by replace (S (length a) - length a)%nat with 1%nat by lia).
      rewrite (bind_of_ok _ _ _ _ _ eq_refl), Nat2Z.id, insert_mid, <- app_assoc. done.
Qed.

Lemma with_queue_self (i : inputs A) : with_queue (s_key_queue (i_kbd i)) i = i.
Proof. by destruct i as [? [] ?]. Qed.

Lemma keyboard_read_ok (i : inputs A) ev q : holds (i_kbd i) (ev :: q) → (length q < 7)%nat →
  ∃ k', keyboard_read i = Ok (ev, mkInputs (i_sched i) k' (i_mouse i)) ∧ holds k' q ∧ extended k' = extended (i_kbd i) ∧ s_reading_task k' = s_reading_task (i_kbd i).
Proof.
  intros (Hq & Hl & H8) H7. cbn [length] in *. unfold keyboard_read. rewrite (bind_of_ok _ _ _ _ _ eq_refl). assert (s_key_queue (i_kbd i) !! 0%nat = Some ev) as E0 by (by rewrite Hq). rewrite (bind_of_ok _ _ _ ev i) by (cbn; by rewrite E0).
  unfold truthy. rewrite Hl, (proj2 (Z.eqb_neq _ 0)) by lia. cbn [negb when]. rewrite Nat2Z.id.
  set (rest := q ++ replicate (8 - S (length q)) no_key).
  pose proof (shift_ok (S (length q)) [] ev rest i) as Hs. cbn [app length] in Hs. rewrite decide_True in Hs by (unfold rest; rewrite length_app, length_replicate; lia).
  rewrite (decide_False (P := S (length q) = O)) in Hs by lia. replace (S (length q) - 1)%nat with (length q) in Hs by lia.
  replace (ev :: rest) with (s_key_queue (i_kbd i)) in Hs by (rewrite Hq; done). rewrite with_queue_self in Hs.
  assert (take (S (length q)) rest ++ drop (length q) rest = q ++ replicate (8 - length q) no_key) as Hr.
  { unfold rest. rewrite drop_app_length. replace (8 - S (length q))%nat with (S (6 - length q)) by lia. replace (8 - length q)%nat with (S (S (6 - length q))) by lia.
    cbn [replicate]. assert (∀ R, take (S (length q)) (q ++ no_key :: R) = q ++ [no_key]) as ->; [|by rewrite <- app_assoc].
    intros R. rewrite cons_middle, app_assoc. apply take_app_length'. rewrite length_app. simpl. lia. }
  rewrite Hr in Hs. change (Z.of_nat 0) with 0 in Hs.
  exists (mkKbd (extended (i_kbd i)) (q ++ replicate (8 - length q) no_key) (Z.of_nat (length q)) (s_reading_task (i_kbd i))). split; [|split; [|done]].
  - rewrite (bind_of_ok _ _ _ tt (mkInputs (i_sched i) (mkKbd (extended (i_kbd i)) (q ++ replicate (8 - length q) no_key) (Z.of_nat (length q)) (s_reading_task (i_kbd i))) (i_mouse i))); [done|].
    rewrite (bind_of_ok _ _ _ _ _ Hs), (bind_of_ok _ _ _ _ _ eq_refl). cbn [i_kbd with_queue s_key_queue_len]. unfold set_kbd, modify. cbn [i_sched i_mouse with_queue extended s_key_queue s_reading_task i_kbd].
    do 4 f_equal. rewrite Hl. lia.
  - split; [done|]. split; [done|lia].
Qed.

Lemma keyboard_read_empty (i : inputs A) : holds (i_kbd i) [] → keyboard_read i = Ok (no_key, i).
Proof.
  intros (Hq & Hl & _). unfold keyboard_read. rewrite (bind_of_ok _ _ _ _ _ eq_refl), Hq, Hl. done.
Qed.

Lemma keyboard_read_full (i : inputs A) q : holds (i_kbd i) q → length q = 8%nat → keyboard_read i = Fault.
Proof.
  intros (Hq & Hl & _) H8. rewrite H8, app_nil_r in *. destruct q as [|ev q]; [done|]. unfold keyboard_read. rewrite (bind_of_ok _ _ _ _ _ eq_refl).
  assert (s_key_queue (i_kbd i) !! 0%nat = Some ev) as E0 by (by rewrite Hq). rewrite (bind_of_ok _ _ _ ev i) by (cbn; by rewrite E0). rewrite Hl. change (truthy (Z.of_nat 8)) with true. change (Z.to_nat (Z.of_nat 8)) with 8%nat. cbn [when].
  pose proof (shift_ok 8 [] ev q i) as Hs. cbn [app length] in *. rewrite decide_False in Hs by lia. rewrite <- Hq, with_queue_self in Hs.
  change (Z.of_nat 0) with 0 in Hs. assert (∀ B (f : unit → M (inputs A) B), (for_range 8 0 shift_key ≫= f) i = Fault) as Hb by (intros B f; unfold mbind, M_bind; by rewrite Hs).
  unfold mbind at 1, M_bind at 1. by rewrite (Hb _ _).
Qed.

Lemma key_word_roundtrip ev : event_ok ev → key_of_word (key_word ev) = ev ∧ key_word ev ≠ 0.
Proof.
  intros [Hc Hh]. destruct ev as [c h]. cbn [code character] in *. unfold key_of_word, key_word. cbn [code character].
  rewrite u8_small, u32_small by lia. rewrite Z.lor_comm, lor_add by lia. change 0xFFFFFFFF with (Z.ones 32).
  rewrite Z.land_ones, Z.shiftr_div_pow2 by lia. split; [|lia]. f_equal; [dlia|]. rewrite u8_small; dlia.
Qed.

(** [n] calls of [sys_read_key_nb]. *)
Fixpoint read_keys (n : nat) : M (inputs A) (list KeyEvent) :=
  match n with O => mret [] | S n' => ev ← sys_read_key_nb; evs ← read_keys n'; mret (ev :: evs) end.

Lemma read_keys_ok q : ∀ (i : inputs A), holds (i_kbd i) q → Forall event_ok q → (length q < 8)%nat →
  ∃ k', read_keys (length q) i = Ok (q, mkInputs (i_sched i) k' (i_mouse i)) ∧ holds k' [] ∧ s_reading_task k' = s_reading_task (i_kbd i).
Proof.
  induction q as [|ev q IH]; intros i Hq He H8; cbn [read_keys length] in *.
  { exists (i_kbd i). split; [by destruct i|done]. }
  inversion He as [|? ? Hev Hes]; subst. destruct (keyboard_read_ok i ev q Hq ltac:(lia)) as (k1 & E1 & Hq1 & _ & R1). destruct (key_word_roundtrip ev Hev) as [Hw _].
  destruct (IH (mkInputs (i_sched i) k1 (i_mouse i)) Hq1 Hes ltac:(lia)) as (k' & E & Hq' & R). exists k'. split; [|split; [done|by rewrite R, <- R1]].
  rewrite (bind_of_ok _ _ _ ev (mkInputs (i_sched i) k1 (i_mouse i))).
  - by rewrite (bind_of_ok _ _ _ _ _ E).
  - unfold sys_read_key_nb, SYS_READ_KEY_NB. rewrite (bind_of_ok _ _ _ (key_word ev) (mkInputs (i_sched i) k1 (i_mouse i))); [by rewrite Hw|].
    rewrite (bind_of_ok _ _ _ _ _ E1). destruct Hev as [Hc _]. unfold KEY_NONE. by rewrite (proj2 (Z.eqb_neq (code ev) 0)) by lia.
Qed.
End keyboard.

Lemma kbd_chars : Forall (λ c, 0 ≤ c < 128) kbd_US.
Proof. apply (bool_decide_unpack _). vm_compute. exact I. Qed.

Lemma key_event_ok k : code (key_event k) ≠ KEY_NONE → event_ok (key_event k).
Proof.
  unfold event_ok, KEY_NONE. destruct k as [sc|sc]; cbn [key_event]; unfold plain_key, extended_key.
  - destruct (sc =? 0x1C); [by vm_compute; repeat split|]. destruct (sc =? 0x0E); [by vm_compute; repeat split|]. destruct (truthy (scancode_set1_to_ascii sc)); [|done]. cbn [code character]. intros _. split; [lia|].
    unfold scancode_set1_to_ascii. destruct (sc <? 128); [|lia]. destruct (kbd_US !! Z.to_nat sc) as [c|] eqn:E; cbn [default]; [|simpl; lia].
    pose proof (Forall_lookup_1 _ _ _ _ kbd_chars E). simpl in *. lia.
  - repeat (case_match; [by vm_compute; repeat split|]). done.
Qed.

Lemma action_events_ok a : Forall event_ok (action_events a).
Proof.
  destruct a as [k|k]; [|done]. cbn [action_events]. destruct (Z.eqb_spec (code (key_event k)) KEY_NONE); [done|]. constructor; [by apply key_event_ok|done].
Qed.

(** C17: what is typed is read: the scan codes of any sequence of keys pressed and released, extended ones included,
    arriving one interrupt each, leave the controllers idle and the queue with the events of the keys pressed, in
    order and up to eight; the task waiting for a key is made ready by the first; and the user library's calls then
    return these events one by one and after them none.  A full queue is the exception: reading from it goes past
    the end of the array. *)
Theorem keyboard_delivers {A} (handlers : list (option (M (machine board (inputs A)) unit))) (s : machine board (inputs A)) (acts : list action)
    (q : list KeyEvent) (r : Z) :
  handlers !! 33%nat = Some (Some key_handler) → kb_state s q r 0 → Forall event_ok q → Forall (λ a, key_ok (action_key a)) acts →
  let evs := acts ≫= action_events in
  let q' := take 8 (q ++ evs) in
  ∃ s', bytes_arrive handlers 1 (acts ≫= key_bytes) s = Ok (tt, s') ∧ kb_state s' q' (reader_after r evs) 0 ∧
    i_sched (m_kernel s') = wake_reader r evs (i_sched (m_kernel s)) ∧ i_mouse (m_kernel s') = i_mouse (m_kernel s) ∧
    if decide (length q' < 8)%nat
    then ∃ i, read_keys (length q') (m_kernel s') = Ok (q', i) ∧ sys_read_key_nb i = Ok (no_key, i)
    else sys_read_key_nb (m_kernel s') = Fault.
Proof.
  intros Hh K Hq Ha evs q'. destruct (actions_ok handlers Hh acts s q r K Ha) as (s' & E & K' & S' & M'). exists s'. split; [done|]. split; [done|]. split; [done|]. split; [done|].
  pose proof (kb_q _ _ _ _ K') as Hold. fold evs in Hold. fold q' in Hold. case_decide as H8.
  - assert (Forall event_ok q') as Hev.
    { apply Forall_take, Forall_app. split; [done|]. unfold evs. clear. induction acts as [|a acts IH]; [done|]. cbn [mbind list_bind]. apply Forall_app. split; [apply action_events_ok|done]. }
    destruct (read_keys_ok q' (m_kernel s') Hold Hev H8) as (k' & Ek & Hk & _). eexists. split; [exact Ek|].
    unfold sys_read_key_nb, SYS_READ_KEY_NB. rewrite (bind_of_ok _ _ _ 0 (mkInputs (i_sched (m_kernel s')) k' (i_mouse (m_kernel s')))); [done|].
    by rewrite (bind_of_ok _ _ _ _ _ (keyboard_read_empty (mkInputs _ k' _) Hk)).
  - unfold sys_read_key_nb, SYS_READ_KEY_NB. unfold mbind, M_bind. rewrite (keyboard_read_full (m_kernel s') q' Hold); [done|].
    pose proof (length_take_le (q ++ evs) 8). unfold q' in *. rewrite length_take in *. lia.
Qed.

(** ** The mouse *)

(** A movement (right and down positive), the buttons and the wheel. *)
Record move := mkMove { mv_dx : Z; mv_dy : Z; mv_buttons : Z; mv_dz : Z }.
Record move_ok (m : move) : Prop := {
  mv_x : -256 ≤ mv_dx m ≤ 255; mv_y : -255 ≤ mv_dy m ≤ 256; mv_b : 0 ≤ mv_buttons m < 8; mv_z : -8 ≤ mv_dz m ≤ 7
}.

(** The packet a PS/2 mouse sends: the vertical movement counts upwards, the sign bits are in the first byte. *)
Definition mouse_packet (wheel : bool) (m : move) : list Z :=
  [8 + mv_buttons m + (if mv_dx m <? 0 then 16 else 0) + (if - mv_dy m <? 0 then 32 else 0); mv_dx m mod 256; (- mv_dy m) mod 256]
  ++ (if wheel then [mv_dz m mod 16] else []).

Definition clamp (size v : Z) : Z := Z.max 0 (Z.min (size - 1) v).

(** The pointer after a movement on a screen of [w] by [h], the wheel counted exactly. *)
Definition pointer (w h : Z) (has_wheel : bool) (st : mouse_event) (m : move) : mouse_event :=
  mkEvent (clamp w (me_x st + mv_dx m)) (clamp h (me_y st + mv_dy m)) (mv_buttons m) (me_scroll st + if has_wheel then mv_dz m else 0).

Lemma clamp_to_ok size n : 0 < size ≤ 65536 → - 2 ^ 31 ≤ n < 2 ^ 31 → clamp_to size n = clamp size n.
Proof.
  intros Hs Hn. unfold clamp_to, clamp. rewrite (i32_small size) by lia. destruct (Z.ltb_spec n 0).
  - rewrite (u32_small 0) by lia. destruct (Z.leb_spec size 0); lia.
  - rewrite u32_small by lia. destruct (Z.leb_spec size n); lia.
Qed.

Lemma wheel_ok dz : -8 ≤ dz ≤ 7 → wheel (dz mod 16) = dz.
Proof.
  intros H. assert (dz = -8 ∨ dz = -7 ∨ dz = -6 ∨ dz = -5 ∨ dz = -4 ∨ dz = -3 ∨ dz = -2 ∨ dz = -1 ∨ dz = 0 ∨ dz = 1 ∨ dz = 2 ∨ dz = 3 ∨ dz = 4 ∨ dz = 5 ∨ dz = 6 ∨ dz = 7) as D by lia.
  repeat (destruct D as [->|D]; [done|]). by subst.
Qed.

Lemma flags_ok b (sx sy : bool) : 0 ≤ b < 8 → let f := 8 + b + (if sx then 16 else 0) + (if sy then 32 else 0) in
  0 ≤ f < 256 ∧ truthy (Z.land f 0x08) = true ∧ truthy (Z.land f 0xC0) = false ∧ truthy (Z.land f 0x10) = sx ∧ truthy (Z.land f 0x20) = sy ∧ Z.land f 0x07 = b.
Proof.
  intros H. assert (b = 0 ∨ b = 1 ∨ b = 2 ∨ b = 3 ∨ b = 4 ∨ b = 5 ∨ b = 6 ∨ b = 7) as D by lia.
  destruct sx, sy; repeat (destruct D as [->|D]; [by vm_compute; repeat split|]); subst; by vm_compute; repeat split.
Qed.

Lemma i32_range z : - 2 ^ 31 ≤ i32 z < 2 ^ 31.
Proof. unfold i32. pose proof (u32_range z). destruct (Z.ltb_spec (u32 z) (2 ^ 31)); lia. Qed.

Lemma i32_mod z : i32 z mod 2 ^ 32 = z mod 2 ^ 32.
Proof.
  unfold i32, u32. destruct (_ <? _); [by rewrite Z.mod_mod by lia|]. replace (z mod 2 ^ 32 - 2 ^ 32) with (z mod 2 ^ 32 + (-1) * 2 ^ 32) by lia.
  by rewrite Z.mod_add, Z.mod_mod by lia.
Qed.

Lemma i32_add a b : i32 (i32 a + b) = i32 (a + b).
Proof. unfold i32 at 1 3, u32. by rewrite <- Z.add_mod_idemp_l, i32_mod, Z.add_mod_idemp_l by lia. Qed.


Lemma i8_i32 z : i8 (i32 z) = i8 z.
Proof.
  unfold i8, u8. assert (i32 z mod 2 ^ 8 = z mod 2 ^ 8) as ->; [|done].
  rewrite (Znumtheory.Zmod_div_mod (2 ^ 8) (2 ^ 32) (i32 z)), i32_mod, <- Znumtheory.Zmod_div_mod; (lia || by exists (2 ^ 24)).
Qed.

(** A state of the driver and the pointer it stands for. *)
Definition shows_pointer (m : mouse_state) (st : mouse_event) : Prop :=
  ms_x m = me_x st ∧ ms_y m = me_y st ∧ ms_buttons m = me_buttons st ∧ ms_scroll m = i32 (me_scroll st).

Lemma apply_packet_ok w h (wh : bool) m st mv rest : 0 < w ≤ 65536 → 0 < h ≤ 65536 → move_ok mv → shows_pointer m st → 0 ≤ me_x st < w → 0 ≤ me_y st < h →
  shows_pointer (apply_packet w h wh (mouse_packet wh mv ++ rest) m) (pointer w h wh st mv) ∧ ms_pending (apply_packet w h wh (mouse_packet wh mv ++ rest) m) = 1.
Proof.
  intros Hw Hh [Hx Hy Hb Hz] (E1 & E2 & E3 & E4) Bx By. destruct (flags_ok (mv_buttons mv) (mv_dx mv <? 0) (- mv_dy mv <? 0) Hb) as (_ & _ & _ & F1 & F2 & F3).
  unfold apply_packet, mouse_packet. cbn [app nth]. rewrite F1, F2, F3. split; [|done]. unfold shows_pointer, pointer. cbn [ms_x ms_y ms_buttons ms_scroll me_x me_y me_buttons me_scroll].
  rewrite E1, E2, E4. assert (mv_dx mv mod 256 - (if mv_dx mv <? 0 then 256 else 0) = mv_dx mv) as -> by (destruct (Z.ltb_spec (mv_dx mv) 0); dlia).
  assert (- ((- mv_dy mv) mod 256 - (if - mv_dy mv <? 0 then 256 else 0)) = mv_dy mv) as -> by (destruct (Z.ltb_spec (- mv_dy mv) 0); dlia).
  split; [rewrite i32_id by lia; apply clamp_to_ok; lia|]. split; [rewrite i32_id by lia; apply clamp_to_ok; lia|]. split; [done|].
  destruct wh; cbn [app nth]; [by rewrite (wheel_ok _ Hz), i32_add|by rewrite Z.add_0_r].
Qed.

Section pointing.
Context {A : Type}.
Local Notation Mc := (machine board (inputs A)).
Context (w h : Z) (handlers : list (option (M Mc unit))).
Context (Hw : 0 < w ≤ 65536) (Hh : 0 < h ≤ 65536).
Context (Hhandler : handlers !! 44%nat = Some (Some (on_mouse_irq w h))).

(** The controllers idle, no byte waiting, and the driver's state. *)
Definition mouse_at (m : mouse) (s : Mc) : Prop :=
  b_pics (m_hw s) = set_up ∧ p_out (b_ps2 (m_hw s)) = [] ∧ i_mouse (m_kernel s) = m.

Definition put_mouse (m : mouse) (s : Mc) : Mc := set_inputs (mkInputs (i_sched (m_kernel s)) (i_kbd (m_kernel s)) m) s.

(** A byte that is not the end of a packet, and one that is. *)
Definition after_byte (m : mouse) (data : Z) : mouse :=
  let packet := <[Z.to_nat (g_packet_idx m) := data]> (g_packet m) in
  if g_packet_idx m + 1 =? (if g_intellimouse m then 4 else 3)
  then mkMs (apply_packet w h (g_intellimouse m) packet (g_mouse m)) (g_intellimouse m) packet 0
  else mkMs (g_mouse m) (g_intellimouse m) packet (g_packet_idx m + 1).

Lemma mouse_byte_ok b m s : mouse_at m s → 0 ≤ b < 256 → 0 ≤ g_packet_idx m < 4 →
  (g_packet_idx m = 0 → truthy (Z.land b 0x08) = true) → truthy (Z.land (nth 0 (<[Z.to_nat (g_packet_idx m) := b]> (g_packet m)) 0) 0xC0) = false →
  byte_arrives handlers 12 b s = Ok (tt, put_mouse (after_byte m b) s) ∧ mouse_at (after_byte m b) (put_mouse (after_byte m b) s).
Proof.
  intros (H1 & H2 & H3) Hb Hi H0 Hf. split; [|by split].
  rewrite (byte_arrives_ok handlers 12 b s (on_mouse_irq w h) H1 H2 (or_intror eq_refl) Hhandler). unfold on_mouse_irq.
  set (s1 := set_hw (set_ps2 (set_out [b] (b_ps2 (m_hw s))) (m_hw s)) s). rewrite (bind_of_ok _ _ _ _ _ (read_byte b s1 Hb eq_refl)).
  replace (set_hw (set_ps2 (set_out [] (b_ps2 (m_hw s1))) (m_hw s1)) s1) with s by (unfold s1; destruct s as [[pc [o c nx r rs wl rp] u] k t]; cbn in H2; by subst).
  rewrite (bind_of_ok _ _ _ m s) by (unfold gets; by rewrite H3).
  assert (((g_packet_idx m =? 0) && negb (truthy (Z.land b 0x08))) = false) as ->.
  { destruct (Z.eqb_spec (g_packet_idx m) 0) as [E|]; [by rewrite (H0 E)|done]. }
  rewrite (proj2 (Z.leb_gt 4 _)) by lia. cbv zeta. rewrite Hf. unfold after_byte.
  assert (∀ X, (on_kernel (set_mouse X) ;; on_ports (pic_send_eoi 12)) s = Ok (tt, put_mouse X s)) as He.
  { intros X. rewrite (bind_of_ok _ _ _ tt (put_mouse X s) eq_refl). apply eoi_machine. cbn. by rewrite H1. }
  destruct (g_packet_idx m + 1 =? _); apply He.
Qed.

Lemma put_mouse_twice m m' s : put_mouse m' (put_mouse m s) = put_mouse m' s.
Proof. done. Qed.

Lemma packet_ok mv m s st : mouse_at m s → g_packet_idx m = 0 → length (g_packet m) = 4%nat → move_ok mv →
  shows_pointer (g_mouse m) st → 0 ≤ me_x st < w → 0 ≤ me_y st < h →
  ∃ m', bytes_arrive handlers 12 (mouse_packet (g_intellimouse m) mv) s = Ok (tt, put_mouse m' s) ∧ mouse_at m' (put_mouse m' s) ∧
    g_packet_idx m' = 0 ∧ length (g_packet m') = 4%nat ∧ g_intellimouse m' = g_intellimouse m ∧
    shows_pointer (g_mouse m') (pointer w h (g_intellimouse m) st mv) ∧ ms_pending (g_mouse m') = 1.
Proof.
  intros Hm Hi Hl Hmv Hs Bx By. pose proof (λ rest, apply_packet_ok w h (g_intellimouse m) (g_mouse m) st mv rest Hw Hh Hmv Hs Bx By) as Happ.
  destruct Hmv as [Hx Hy Hb Hz]. destruct (flags_ok (mv_buttons mv) (mv_dx mv <? 0) (- mv_dy mv <? 0) Hb) as (F0 & F8 & FC & _).
  unfold mouse_packet in *. set (f := 8 + mv_buttons mv + (if mv_dx mv <? 0 then 16 else 0) + (if - mv_dy mv <? 0 then 32 else 0)) in *.
  set (x := mv_dx mv mod 256) in *. set (y := (- mv_dy mv) mod 256) in *. assert (0 ≤ x < 256) by (apply Z.mod_pos_bound; lia). assert (0 ≤ y < 256) by (apply Z.mod_pos_bound; lia).
  destruct m as [ms im pk ix]. cbn [g_packet_idx g_packet g_intellimouse g_mouse] in *. subst ix. destruct pk as [|p0 [|p1 [|p2 [|p3 [|]]]]]; try done.
  destruct (mouse_byte_ok f _ s Hm F0 ltac:(simpl; lia) ltac:(done) FC) as [E1 M1].
  assert (after_byte (mkMs ms im [p0; p1; p2; p3] 0) f = mkMs ms im [f; p1; p2; p3] 1) as A1 by (by destruct im). rewrite A1 in *.
  destruct (mouse_byte_ok x _ _ M1 ltac:(lia) ltac:(simpl; lia) ltac:(done) FC) as [E2 M2].
  assert (after_byte (mkMs ms im [f; p1; p2; p3] 1) x = mkMs ms im [f; x; p2; p3] 2) as A2 by (by destruct im). rewrite A2 in *.
  destruct (mouse_byte_ok y _ _ M2 ltac:(lia) ltac:(simpl; lia) ltac:(done) FC) as [E3 M3].
  cbn [app bytes_arrive]. rewrite (bind_of_ok _ _ _ _ _ E1), (bind_of_ok _ _ _ _ _ E2), (bind_of_ok _ _ _ _ _ E3). destruct im.
  - assert (after_byte (mkMs ms true [f; x; p2; p3] 2) y = mkMs ms true [f; x; y; p3] 3) as A3 by done. rewrite A3 in *.
    set (z := mv_dz mv mod 16) in *. assert (0 ≤ z < 256) by (unfold z; dlia).
    destruct (mouse_byte_ok z _ _ M3 ltac:(lia) ltac:(simpl; lia) ltac:(done) FC) as [E4 M4]. cbn [bytes_arrive]. rewrite (bind_of_ok _ _ _ _ _ E4).
    eexists. split; [done|]. split; [exact M4|]. split; [done|]. split; [done|]. split; [done|]. exact (Happ []).
  - eexists. split; [done|]. split; [exact M3|]. split; [done|]. split; [done|]. split; [done|]. exact (Happ [p3]).
Qed.

Lemma clamp_range size v : 0 < size → 0 ≤ clamp size v < size.
Proof. unfold clamp. lia. Qed.

Lemma moves_ok mvs : ∀ m s st, mouse_at m s → g_packet_idx m = 0 → length (g_packet m) = 4%nat → Forall move_ok mvs →
  shows_pointer (g_mouse m) st → 0 ≤ me_x st < w → 0 ≤ me_y st < h →
  ∃ m', bytes_arrive handlers 12 (mvs ≫= mouse_packet (g_intellimouse m)) s = Ok (tt, put_mouse m' s) ∧ mouse_at m' (put_mouse m' s) ∧
    shows_pointer (g_mouse m') (foldl (pointer w h (g_intellimouse m)) st mvs) ∧
    ms_pending (g_mouse m') = (if decide (mvs = []) then ms_pending (g_mouse m) else 1).
Proof.
  induction mvs as [|mv mvs IH]; intros m s st Hm Hi Hl Hok Hs Bx By.
  { exists m. destruct Hm as (H1 & H2 & H3). assert (put_mouse m s = s) as -> by (destruct s as [? [] ?]; cbn in H3; by subst). done. }
  inversion Hok; subst. destruct (packet_ok mv m s st) as (m1 & E1 & M1 & I1 & L1 & W1 & S1 & P1); try done.
  destruct (IH m1 (put_mouse m1 s) (pointer w h (g_intellimouse m) st mv)) as (m' & E & M' & S' & P'); try done; [apply clamp_range; lia|apply clamp_range; lia|].
  exists m'. cbn [mbind list_bind foldl]. rewrite bytes_arrive_app, (bind_of_ok _ _ _ _ _ E1).
  rewrite W1, put_mouse_twice in *. split; [done|]. split; [exact M'|]. split; [done|]. rewrite P', P1. by case_decide.
Qed.

(** *** Setting it up *)

Lemma polls_succ : ∃ n, PS2_POLLS = S n.
Proof. exists (Z.to_nat 99999). unfold PS2_POLLS. lia. Qed.

Lemma inb_ps2_status (b : board) : inb 0x64 b = Ok (match p_out (b_ps2 b) with [] => 0 | _ => 1 end, b).
Proof. destruct b as [pc [o c nx r rs wl rp] u]. by destruct o. Qed.

Lemma wait_write_ok (b : board) : ps2_wait_write b = Ok (tt, b).
Proof.
  unfold ps2_wait_write. destruct polls_succ as [n ->]. cbn [wait_write]. rewrite (bind_of_ok _ _ _ _ _ (inb_ps2_status b)). by destruct (p_out (b_ps2 b)).
Qed.

Lemma wait_read_ok (b : board) : p_out (b_ps2 b) ≠ [] → ps2_wait_read b = Ok (tt, b).
Proof.
  intros H. unfold ps2_wait_read. destruct polls_succ as [n ->]. cbn [wait_read]. rewrite (bind_of_ok _ _ _ _ _ (inb_ps2_status b)). by destruct (p_out (b_ps2 b)).
Qed.

Lemma mouse_cmd_ok c pc o cfg nx rt rs wl rp u : mouse_cmd c (mkBoard pc (mkPs2 o cfg nx rt rs wl rp) u) =
  Ok (tt, mkBoard pc (mouse_byte (u8 c) (mkPs2 o cfg ToMouse rt rs wl rp)) u).
Proof.
  unfold mouse_cmd. rewrite (bind_of_ok _ _ _ _ _ (wait_write_ok _)). rewrite (bind_of_ok _ _ _ tt (mkBoard pc (mkPs2 o cfg ToMouse rt rs wl rp) u)) by done.
  rewrite (bind_of_ok _ _ _ _ _ (wait_write_ok _)). done.
Qed.

Lemma mouse_ack_ok x pc o cfg nx rt rs wl rp u : mouse_ack (mkBoard pc (mkPs2 (x :: o) cfg nx rt rs wl rp) u) =
  Ok (u8 x, mkBoard pc (mkPs2 o cfg nx rt rs wl rp) u).
Proof. unfold mouse_ack. erewrite bind_of_ok; [|by apply wait_read_ok]. done. Qed.

(** A command the mouse acknowledges. *)
Lemma command_ok {B} c rt' rs' rp' pc cfg nx rt rs wl rp u (f : Z → M board B) :
  mouse_byte (u8 c) (mkPs2 [] cfg ToMouse rt rs wl rp) = mkPs2 [0xFA] cfg ToKeyboard rt' rs' wl rp' →
  (mouse_cmd c ;; mouse_ack ≫= f) (mkBoard pc (mkPs2 [] cfg nx rt rs wl rp) u) = f 0xFA (mkBoard pc (mkPs2 [] cfg ToKeyboard rt' rs' wl rp') u).
Proof. intros E. rewrite (bind_of_ok _ _ _ _ _ (mouse_cmd_ok _ _ _ _ _ _ _ _ _ _)), E. by rewrite (bind_of_ok _ _ _ _ _ (mouse_ack_ok _ _ _ _ _ _ _ _ _ _)). Qed.

Lemma flush_ok o : ∀ fuel pc cfg nx rt rs wl rp u, (length o ≤ fuel)%nat →
  flush_output fuel (mkBoard pc (mkPs2 o cfg nx rt rs wl rp) u) = Ok (tt, mkBoard pc (mkPs2 [] cfg nx rt rs wl rp) u).
Proof.
  induction o as [|b o IH]; intros fuel pc cfg nx rt rs wl rp u Hf; (destruct fuel as [|fuel]; [simpl in Hf; try lia; done|]); [done|].
  cbn [flush_output]. rewrite (bind_of_ok _ _ _ _ _ (inb_ps2_status _)). cbn [p_out b_ps2]. change (truthy (Z.land 1 0x01)) with true. cbn iota.
  rewrite (bind_of_ok _ _ _ (u8 b) (mkBoard pc (mkPs2 o cfg nx rt rs wl rp) u)) by done. apply IH. simpl in Hf. lia.
Qed.

(** The command byte written back: both interrupts and both clocks enabled. *)
Definition config (cfg : Z) : Z := u8 (Z.land (Z.land (Z.lor (Z.lor (u8 (Z.land cfg (Z.lnot 0x20))) 0x01) 0x02) (Z.lnot 0x10)) (Z.lnot 0x20)).

Lemma mouse_probe_ok fuel pc o cfg rs wl rp u : (length o ≤ fuel)%nat →
  mouse_probe fuel (mkBoard pc (mkPs2 o cfg ToKeyboard false rs wl rp) u) =
  Ok (if wl then 3 else 0, mkBoard pc (mkPs2 [] (config cfg) ToKeyboard false [80; 100; 200; 100] wl true) u).
Proof.
  intros Hf. unfold mouse_probe. rewrite (bind_of_ok _ _ _ _ _ (flush_ok o fuel pc cfg ToKeyboard false rs wl rp u Hf)).
  rewrite (bind_of_ok _ _ _ _ _ (wait_write_ok _)). rewrite (bind_of_ok _ _ _ tt (mkBoard pc (mkPs2 [] (Z.land cfg (Z.lnot 0x20)) ToKeyboard false rs wl rp) u)) by done.
  rewrite (bind_of_ok _ _ _ _ _ (wait_write_ok _)). rewrite (bind_of_ok _ _ _ tt (mkBoard pc (mkPs2 [Z.land cfg (Z.lnot 0x20)] (Z.land cfg (Z.lnot 0x20)) ToKeyboard false rs wl rp) u)) by done.
  erewrite bind_of_ok; [|by apply wait_read_ok].
  rewrite (bind_of_ok _ _ _ (u8 (Z.land cfg (Z.lnot 0x20))) (mkBoard pc (mkPs2 [] (Z.land cfg (Z.lnot 0x20)) ToKeyboard false rs wl rp) u)) by done. cbv zeta.
  rewrite (bind_of_ok _ _ _ _ _ (wait_write_ok _)). rewrite (bind_of_ok _ _ _ tt (mkBoard pc (mkPs2 [] (Z.land cfg (Z.lnot 0x20)) ToConfig false rs wl rp) u)) by done.
  rewrite (bind_of_ok _ _ _ _ _ (wait_write_ok _)). rewrite (bind_of_ok _ _ _ tt (mkBoard pc (mkPs2 [] (config cfg) ToKeyboard false rs wl rp) u)) by done.
  rewrite (command_ok 0xF6 false [100] false) by done.
  rewrite (command_ok 0xF3 true [100] false), (command_ok 200 false [200; 100] false) by done.
  rewrite (command_ok 0xF3 true [200; 100] false), (command_ok 100 false [100; 200; 100] false) by done.
  rewrite (command_ok 0xF3 true [100; 200; 100] false), (command_ok 80 false [80; 100; 200; 100] false) by done.
  rewrite (bind_of_ok _ _ _ _ _ (mouse_cmd_ok _ _ _ _ _ _ _ _ _ _)).
  rewrite (bind_of_ok _ _ _ 0xFA (mkBoard pc (mkPs2 [if wl then 3 else 0] (config cfg) ToKeyboard false [80; 100; 200; 100] wl false) u)) by (destruct wl; apply mouse_ack_ok).
  rewrite (bind_of_ok _ _ _ (if wl then 3 else 0) (mkBoard pc (mkPs2 [] (config cfg) ToKeyboard false [80; 100; 200; 100] wl false) u)) by (destruct wl; apply mouse_ack_ok).
  rewrite (command_ok 0xF4 false [80; 100; 200; 100] true) by done. done.
Qed.

(** *** Reading it *)

Lemma mouse_word x y b sc : 0 ≤ x < 2 ^ 16 → 0 ≤ y < 2 ^ 16 → 0 ≤ b < 2 ^ 16 → 0 ≤ sc →
  Z.lor (Z.lor (Z.lor (Z.lor (Z.shiftl 1 48) (Z.shiftl sc 49)) (Z.shiftl b 32)) (Z.shiftl y 16)) x = x + (y + (b + (1 + sc * 2) * 2 ^ 16) * 2 ^ 16) * 2 ^ 16.
Proof.
  intros Hx Hy Hb Hs. replace 49 with (1 + 48) by done. rewrite <- (Z.shiftl_shiftl sc 1 48), <- Z.shiftl_lor by lia.
  rewrite (lor_add 1 sc 1) by lia. change (2 ^ 1) with 2. set (v1 := 1 + sc * 2).
  replace (Z.shiftl v1 48) with (Z.shiftl (Z.shiftl v1 16) 32) by (by rewrite Z.shiftl_shiftl by lia). rewrite <- Z.shiftl_lor, Z.lor_comm, (Z.lor_comm (Z.shiftl v1 16)).
  rewrite (lor_add b v1 16) by lia. set (v2 := b + v1 * 2 ^ 16).
  replace (Z.shiftl v2 32) with (Z.shiftl (Z.shiftl v2 16) 16) by (by rewrite Z.shiftl_shiftl by lia). rewrite <- Z.shiftl_lor, (Z.lor_comm (Z.shiftl v2 16)).
  rewrite (lor_add y v2 16), lor_add by lia. done.
Qed.

Lemma low16 a b : 0 ≤ a < 2 ^ 16 → (a + b * 2 ^ 16) / 2 ^ 16 = b ∧ (a + b * 2 ^ 16) mod 2 ^ 16 = a.
Proof. intros H. rewrite Z.div_add, Z.mod_add, Z.div_small, Z.mod_small by lia. lia. Qed.

Lemma sys_read_mouse_ok (i : inputs A) st : shows_pointer (g_mouse (i_mouse i)) st → ms_pending (g_mouse (i_mouse i)) = 1 →
  0 ≤ me_x st < 65536 → 0 ≤ me_y st < 65536 → 0 ≤ me_buttons st < 8 →
  ∃ i', sys_read_mouse i = Ok (Some (mkEvent (me_x st) (me_y st) (me_buttons st) (i8 (me_scroll st))), i') ∧ sys_read_mouse i' = Ok (None, i') ∧
    i_kbd i' = i_kbd i ∧ i_sched i' = i_sched i.
Proof.
  intros (E1 & E2 & E3 & E4) Hp Hx Hy Hb. set (m := i_mouse i) in *.
  set (i' := mkInputs (i_sched i) (i_kbd i) (mkMs (mkMouse (ms_x (g_mouse m)) (ms_y (g_mouse m)) (ms_buttons (g_mouse m)) 0 0) (g_intellimouse m) (g_packet m) (g_packet_idx m))).
  exists i'. split; [|by split]. unfold sys_read_mouse, SYS_READ_MOUSE.
  set (sc := u8 (me_scroll st)). pose proof (u8_range (me_scroll st)) as Hsc. fold sc in Hsc.
  set (r := me_x st + (me_y st + (me_buttons st + (1 + sc * 2) * 2 ^ 16) * 2 ^ 16) * 2 ^ 16).
  rewrite (bind_of_ok _ _ _ r i').
  - rewrite (proj2 (Z.eqb_neq r 0)) by (unfold r; lia). unfold mret, M_ret. do 4 f_equal.
    all: rewrite ?Z.shiftr_div_pow2 by lia; (change 0xFFFF with (Z.ones 16) || change 0xFF with (Z.ones 8)); rewrite Z.land_ones by lia.
    + apply low16. lia.
    + unfold r. rewrite (proj1 (low16 (me_x st) _ ltac:(lia))). apply low16. lia.
    + change (2 ^ 32) with (2 ^ 16 * 2 ^ 16). rewrite <- Z.div_div by lia. unfold r.
      rewrite (proj1 (low16 (me_x st) _ ltac:(lia))), (proj1 (low16 (me_y st) _ ltac:(lia))). change (2 ^ 16) with (2 ^ 8 * 2 ^ 8).
      rewrite Z.mul_assoc, Z.mod_add by lia. apply Z.mod_small. lia.
    + change (2 ^ 49) with (2 ^ 16 * (2 ^ 16 * (2 ^ 16 * 2))). rewrite <- !Z.div_div by lia. unfold r.
      rewrite (proj1 (low16 (me_x st) _ ltac:(lia))), (proj1 (low16 (me_y st) _ ltac:(lia))), (proj1 (low16 (me_buttons st) _ ltac:(lia))).
      rewrite Z.div_add by lia. change (1 / 2 + sc) with sc. rewrite Z.mod_small by lia. unfold i8, sc, u8. by rewrite Z.mod_mod by lia.
  - unfold mouse_read_state. rewrite (bind_of_ok _ _ _ (g_mouse m) i') by done. rewrite Hp. change (negb (truthy 1)) with false. cbn iota. unfold mret, M_ret. do 2 f_equal.
    rewrite E1, E2, E3, E4. rewrite (u16_small (me_x st)), (u16_small (me_y st)) by lia. rewrite (u64_small (Z.shiftl _ _)) by (rewrite Z.shiftl_mul_pow2; lia).
    replace (u8 (i32 (me_scroll st))) with sc; [apply mouse_word; lia|].
    unfold sc, u8. rewrite (Znumtheory.Zmod_div_mod (2 ^ 8) (2 ^ 32) (i32 _)), i32_mod, <- Znumtheory.Zmod_div_mod; (lia || by exists (2 ^ 24)).
Qed.
End pointing.

Lemma config_bits cfg : Z.testbit (config cfg) 0 = true ∧ Z.testbit (config cfg) 1 = true ∧ Z.testbit (config cfg) 4 = false ∧ Z.testbit (config cfg) 5 = false.
Proof.
  unfold config, u8. rewrite !testbit_mod_pow2 by lia. rewrite !Z.land_spec, !Z.lor_spec, !Z.lnot_spec, !testbit_mod_pow2, !Z.land_spec by lia.
  rewrite !orb_true_r, !orb_false_r. cbn. by rewrite ?andb_false_r.
Qed.

(** C18: the mouse from its setup to the program that reads it: against a PS/2 controller with anything in its output buffer,
    [mouse_init] enables both devices' interrupts and clocks and finds out whether the mouse has a wheel; then any
    sequence of movements, arriving as packets byte by byte, one interrupt each, moves the pointer exactly, from the
    middle of the screen and kept inside it; and the user library's call returns its position, the buttons and what the
    wheel turned, once. *)
Theorem mouse_tracks {A} (w h : Z) (handlers : list (option (M (machine board (inputs A)) unit))) (s : machine board (inputs A))
    (fuel : nat) (mvs : list move) (last : move) :
  handlers !! 44%nat = Some (Some (on_mouse_irq w h)) → 0 < w ≤ 65536 → 0 < h ≤ 65536 → b_pics (m_hw s) = set_up →
  (length (p_out (b_ps2 (m_hw s))) ≤ fuel)%nat → p_next (b_ps2 (m_hw s)) = ToKeyboard → p_rate (b_ps2 (m_hw s)) = false →
  g_packet_idx (i_mouse (m_kernel s)) = 0 → length (g_packet (i_mouse (m_kernel s))) = 4%nat →
  ms_scroll (g_mouse (i_mouse (m_kernel s))) = 0 → Forall move_ok (mvs ++ [last]) →
  let wh := p_wheel (b_ps2 (m_hw s)) in
  let st := foldl (pointer w h wh) (mkEvent (w / 2) (h / 2) (ms_buttons (g_mouse (i_mouse (m_kernel s)))) 0) (mvs ++ [last]) in
  ∃ s1 s2 i, mouse_init w h fuel s = Ok (tt, s1) ∧ g_intellimouse (i_mouse (m_kernel s1)) = wh ∧ p_reports (b_ps2 (m_hw s1)) = true ∧
    (let cfg := p_cfg (b_ps2 (m_hw s1)) in
     Z.testbit cfg 0 = true ∧ Z.testbit cfg 1 = true ∧ Z.testbit cfg 4 = false ∧ Z.testbit cfg 5 = false) ∧
    bytes_arrive handlers 12 ((mvs ++ [last]) ≫= mouse_packet wh) s1 = Ok (tt, s2) ∧ b_pics (m_hw s2) = set_up ∧
    sys_read_mouse (m_kernel s2) = Ok (Some (mkEvent (me_x st) (me_y st) (me_buttons st) (i8 (me_scroll st))), i) ∧
    sys_read_mouse i = Ok (None, i).
Proof.
  intros Hh Hw Hht Hp Hf Hn Hr Hi Hl Hsc Hok wh st. destruct s as [[pc [o cfg nx rt rs wl rp] u] [sd kb ms] tk].
  cbn [m_hw m_kernel b_pics b_ps2 p_out p_next p_rate p_wheel i_mouse] in *. subst nx rt pc. pose proof (mouse_probe_ok fuel set_up o cfg rs wl rp u Hf) as Ei.
  set (m1 := mkMs (mkMouse (w / 2) (h / 2) (ms_buttons (g_mouse ms)) (ms_scroll (g_mouse ms)) (ms_pending (g_mouse ms))) wl (g_packet ms) (g_packet_idx ms)).
  set (s1 := mkMachine (mkBoard set_up (mkPs2 [] (config cfg) ToKeyboard false [80; 100; 200; 100] wl true) u) (mkInputs sd kb m1) tk).
  assert (0 ≤ w / 2 < w ∧ 0 ≤ h / 2 < h) as [Bx By] by dlia.
  assert (mouse_init w h fuel (mkMachine (mkBoard set_up (mkPs2 o cfg ToKeyboard false rs wl rp) u) (mkInputs sd kb ms) tk) = Ok (tt, s1)) as Es.
  { unfold mouse_init. rewrite (bind_of_ok _ _ _ (if wl then 3 else 0) (mkMachine (mkBoard set_up (mkPs2 [] (config cfg) ToKeyboard false [80; 100; 200; 100] wl true) u) (mkInputs sd kb ms) tk)).
    - rewrite (bind_of_ok _ _ _ _ _ eq_refl). cbn [m_kernel i_mouse]. rewrite !(i32_small (_ / 2)) by lia. unfold s1, m1. by destruct wl.
    - unfold on_ports, zoom. cbn [m_hw]. by rewrite Ei. }
  destruct (moves_ok w h handlers Hw Hht Hh (mvs ++ [last]) m1 s1 (mkEvent (w / 2) (h / 2) (ms_buttons (g_mouse ms)) 0)) as (m' & E & M' & S' & P'); [done|exact Hi|exact Hl|done| |exact Bx|exact By|].
  { unfold shows_pointer, m1. cbn [g_mouse ms_x ms_y ms_buttons ms_scroll me_x me_y me_buttons me_scroll]. by rewrite Hsc. }
  rewrite decide_False in P' by (by destruct mvs). cbn [g_intellimouse m1] in *. fold wh in E, S'. fold st in S'.
  assert (0 ≤ me_x st < w ∧ 0 ≤ me_y st < h ∧ 0 ≤ me_buttons st < 8) as (Sx & Sy & Sb).
  { unfold st. rewrite foldl_app. cbn [foldl pointer me_x me_y me_buttons]. split; [apply clamp_range; lia|]. split; [apply clamp_range; lia|].
    apply Forall_app in Hok as [_ Hok]. inversion Hok as [|? ? [] ]; subst. done. }
  destruct (sys_read_mouse_ok (m_kernel (put_mouse m' s1)) st) as (i & R1 & R2 & _); [exact S'|exact P'|lia|lia|lia|].
  exists s1, (put_mouse m' s1), i. split; [done|]. split; [done|]. split; [done|]. split; [apply config_bits|]. split; [exact E|]. split; [apply M'|]. by split.
Qed.

(** ** Witnesses *)

Definition demo_kbd : kbd := mkKbd 0 (replicate 8 no_key) 0 32.
Definition demo_ms : mouse := mkMs (mkMouse 0 0 0 0 0) false [0; 0; 0; 0] 0.
Definition demo_input (o : list Z) : machine board (inputs unit) :=
  mkMachine (mkBoard set_up (mkPs2 o 0x30 ToKeyboard false [] true false) (Format.mkUart 3 3 []))
            (mkInputs (demo_sched TASK_RUNNING TASK_BLOCKED TASK_READY) demo_kbd demo_ms) 0.
Definition demo_key_handlers : list (option (M (machine board (inputs unit)) unit)) :=
  replicate 33 None ++ [Some key_handler] ++ replicate 10 None ++ [Some (on_mouse_irq 640 480)].

(** "h", then the cursor key up; task 32 was waiting. *)
Lemma keyboard_delivers_witness : ∃ s' i,
  bytes_arrive demo_key_handlers 1 [0x23; 0xA3; 0xE0; 0x48; 0xE0; 0xC8] (demo_input []) = Ok (tt, s') ∧
  st (k_tasks (i_sched (m_kernel s'))) 32 = Some TASK_READY ∧
  read_keys 2 (m_kernel s') = Ok ([mkKey 1 104; mkKey KEY_UP 0], i).
Proof.
  destruct (keyboard_delivers demo_key_handlers (demo_input []) [Press (Plain 0x23); Release (Plain 0x23); Press (Ext 0x48); Release (Ext 0x48)] [] 32 eq_refl) as (s' & E & _ & S & _ & R).
  - split; [done|done|done|done|split; [done|split; [done|simpl; lia]]|done|intros _; by eexists].
  - constructor.
  - repeat (constructor; [split; cbn; lia|]). constructor.
  - rewrite decide_True in R by (vm_compute; lia). destruct R as (i & R & _). exists s', i. split; [exact E|]. split; [|exact R].
    rewrite S. vm_compute. reflexivity.
Defined.

Lemma mouse_tracks_witness : ∃ s1 s2 i, mouse_init 640 480 3 (demo_input [0x1C; 0x9C]) = Ok (tt, s1) ∧
  bytes_arrive demo_key_handlers 12 [24; 251; 3; 0; 41; 2; 246; 15] s1 = Ok (tt, s2) ∧
  sys_read_mouse (m_kernel s2) = Ok (Some (mkEvent 317 247 1 (-1)), i).
Proof.
  destruct (mouse_tracks 640 480 demo_key_handlers (demo_input [0x1C; 0x9C]) 3 [mkMove (-5) (-3) 0 0] (mkMove 2 10 1 (-1)) eq_refl) as (s1 & s2 & i & E1 & _ & _ & _ & E2 & _ & E3 & _);
    try lia; try reflexivity.
  - simpl. lia.
  - repeat (constructor; [split; cbn; lia|]). constructor.
  - exists s1, s2, i. split; [exact E1|]. split; [exact E2|exact E3].
Defined.
End Input.
