(* ===== verification/Font.v ===== *)
(** * The fonts ([kernel/graphics/font.c], [user/lib/font.h])

    The glyphs of the printable characters: sixteen rows of eight pixels each,
    the leftmost in the highest bit. *)
From S2P Require Import Prelude.

Module Font.
Definition FONT_FIRST_CHAR : Z := 32.
Definition FONT_LAST_CHAR : Z := 126.
Definition FONT_GLYPH_WIDTH : Z := 8.
Definition FONT_GLYPH_HEIGHT : Z := 16.
Definition FONT_GLYPH_COUNT : Z := 95.

(** A glyph, from the sixteen bytes of its rows written one after the other. *)
Definition glyph (rows : Z) : list Z := map (λ i, Z.land (Z.shiftr rows (8 * (15 - i))) 0xFF) (seqZ 0 16).

Definition kernel_font : list (list Z) := [
  glyph 0x00000000000000000000000000000000;
  glyph 0x00101010101010101000003030000000;
  glyph 0x24242424240000000000000000000000;
  glyph 0x00123232FF26242464FF4C4C48000000;
  glyph 0x101078C08080E0380C04048CF8101000;
  glyph 0x0062F29494B878163F296949C6000000;
  glyph 0x00386C4444683072DA8E86CE7B000000;
  glyph 0x10101010100000000000000000000000;
  glyph 0x08183020604040404040406020301808;
  glyph 0x20301808080C040404040C0818103020;
  glyph 0x001010D678386C000000000000000000;
  glyph 0x00000000101010FE1010101000000000;
  glyph 0x00000000000000000000181C0C183000;
  glyph 0x00000000000000003C00000000000000;
  glyph 0x00000000000000000000303030000000;
  glyph 0x0404040C0808181010302020604040C0;
  glyph 0x00386CC68682B2B28286C64C38000000;
  glyph 0x0008386808080808080808087E000000;
  glyph 0x003C460202060408183060407F000000;
  glyph 0x00788C04040C380C0602028CF8000000;
  glyph 0x000C0C142424444484FF040404000000;
  glyph 0x003E20202020380C060202467C000000;
  glyph 0x000C3060C080FCC68282864438000000;
  glyph 0x00FE06040C0818101030202020000000;
  glyph 0x0078C68282C66C7C868282C67C000000;
  glyph 0x0078CC868282C67E06040C38E0000000;
  glyph 0x00000000303030000000303030000000;
  glyph 0x00000000303810000000103838107000;
  glyph 0x00000000000638E0C0300E0200000000;
  glyph 0x0000000000FE000000FE000000000000;
  glyph 0x0000000000C0380E0618E08000000000;
  glyph 0x007C460202060C181000003030000000;
  glyph 0x00386442828E9A92929292CE40603C00;
  glyph 0x001838286C4C4444C6FE828283000000;
  glyph 0x00F88C848488F88C8282868CF8000000;
  glyph 0x003C6240808080808080C0623E000000;
  glyph 0x00F08C84868282828286848CF0000000;
  glyph 0x007E404040407C40404040407E000000;
  glyph 0x007E404040407C404040404040000000;
  glyph 0x003C6240C08080828282C2623E000000;
  glyph 0x008282828282FE828282828282000000;
  glyph 0x007C101010101010101010107C000000;
  glyph 0x007C04040404040404040C8CF8000000;
  glyph 0x00868C8890B0E0E090888C8682000000;
  glyph 0x0040404040404040404040407E000000;
  glyph 0x00C4C6CEAAAABA928282828282000000;
  glyph 0x00C2C2E2A2B292928A8E8E8686000000;
  glyph 0x003C66C2838181818183C2663C000000;
  glyph 0x007844424242467C4040404040000000;
  glyph 0x003C66C2838181818181C3463C180C06;
  glyph 0x00F0888484848CF89088888484000000;
  glyph 0x003C64404060300C060202467C000000;
  glyph 0x00FE1010101010101010101010000000;
  glyph 0x0082828282828282828286C478000000;
  glyph 0x0083828282C644444428283830000000;
  glyph 0x00828282828292BAAAAACEC6C4000000;
  glyph 0x0082C44468383038284444C682000000;
  glyph 0x008282C6444C28381010101010000000;
  glyph 0x00FE060408181030204040C0FE000000;
  glyph 0x3C20202020202020202020202020203C;
  glyph 0x40404060202030101018080808040404;
  glyph 0x78080808080808080808080808080878;
  glyph 0x0010382844C482000000000000000000;
  glyph 0x000000000000000000000000000000FF;
  glyph 0x20101000000000000000000000000000;
  glyph 0x00000000780C047CCC8484C47C000000;
  glyph 0x404040407C664341414143467C000000;
  glyph 0x000000003C60C0808080C0603E000000;
  glyph 0x020202023E66C2828282C2623E000000;
  glyph 0x000000003864C682FE8080603C000000;
  glyph 0x1E302020FC2020202020202020000000;
  glyph 0x000000003E66C282828282463E020678;
  glyph 0x404040407C4642424242424242000000;
  glyph 0x30300000F0101010101010180E000000;
  glyph 0x181800007808080808080808080818F0;
  glyph 0x404040404244487070584C4643000000;
  glyph 0xF010101010101010101010180E000000;
  glyph 0x00000000ECB692929292828282000000;
  glyph 0x000000007C4642424242424242000000;
  glyph 0x00000000384CC6828282C64C38000000;
  glyph 0x000000007C464341414143667C404040;
  glyph 0x000000003E62C2828282C2663E020202;
  glyph 0x000000007C4040404040404040000000;
  glyph 0x000000003C604060180602467C000000;
  glyph 0x00202020FC202020202020301C000000;
  glyph 0x0000000084848484848484C47C000000;
  glyph 0x000000008282C6444468283810000000;
  glyph 0x000000008181939A9AEA666646000000;
  glyph 0x00000000C644683818286CC682000000;
  glyph 0x0000000082C24644642C2818181030E0;
  glyph 0x00000000FC0C1810306040C0FC000000;
  glyph 0x0E18101010103060301010101010180E;
  glyph 0x10101010101010101010101010101010;
  glyph 0x70180808080808060C08080808081870;
  glyph 0x00000000000000729E00000000000000
].

Definition g_font : list (list Z) := [
  glyph 0x00000000000000000000000000000000;
  glyph 0x00101010101010101000003030000000;
  glyph 0x24242424240000000000000000000000;
  glyph 0x00123232FF26242464FF4C4C48000000;
  glyph 0x101078C08080E0380C04048CF8101000;
  glyph 0x0062F29494B878163F296949C6000000;
  glyph 0x00386C4444683072DA8E86CE7B000000;
  glyph 0x10101010100000000000000000000000;
  glyph 0x08183020604040404040406020301808;
  glyph 0x20301808080C040404040C0818103020;
  glyph 0x001010D678386C000000000000000000;
  glyph 0x00000000101010FE1010101000000000;
  glyph 0x00000000000000000000181C0C183000;
  glyph 0x00000000000000003C00000000000000;
  glyph 0x00000000000000000000303030000000;
  glyph 0x0404040C0808181010302020604040C0;
  glyph 0x00386CC68682B2B28286C64C38000000;
  glyph 0x0008386808080808080808087E000000;
  glyph 0x003C460202060408183060407F000000;
  glyph 0x00788C04040C380C0602028CF8000000;
  glyph 0x000C0C142424444484FF040404000000;
  glyph 0x003E20202020380C060202467C000000;
  glyph 0x000C3060C080FCC68282864438000000;
  glyph 0x00FE06040C0818101030202020000000;
  glyph 0x0078C68282C66C7C868282C67C000000;
  glyph 0x0078CC868282C67E06040C38E0000000;
  glyph 0x00000000303030000000303030000000;
  glyph 0x00000000303810000000103838107000;
  glyph 0x00000000000638E0C0300E0200000000;
  glyph 0x0000000000FE000000FE000000000000;
  glyph 0x0000000000C0380E0618E08000000000;
  glyph 0x007C460202060C181000003030000000;
  glyph 0x00386442828E9A92929292CE40603C00;
  glyph 0x001838286C4C4444C6FE828283000000;
  glyph 0x00F88C848488F88C8282868CF8000000;
  glyph 0x003C6240808080808080C0623E000000;
  glyph 0x00F08C84868282828286848CF0000000;
  glyph 0x007E404040407C40404040407E000000;
  glyph 0x007E404040407C404040404040000000;
  glyph 0x003C6240C08080828282C2623E000000;
  glyph 0x008282828282FE828282828282000000;
  glyph 0x007C101010101010101010107C000000;
  glyph 0x007C04040404040404040C8CF8000000;
  glyph 0x00868C8890B0E0E090888C8682000000;
  glyph 0x0040404040404040404040407E000000;
  glyph 0x00C4C6CEAAAABA928282828282000000;
  glyph 0x00C2C2E2A2B292928A8E8E8686000000;
  glyph 0x003C66C2838181818183C2663C000000;
  glyph 0x007844424242467C4040404040000000;
  glyph 0x003C66C2838181818181C3463C180C06;
  glyph 0x00F0888484848CF89088888484000000;
  glyph 0x003C64404060300C060202467C000000;
  glyph 0x00FE1010101010101010101010000000;
  glyph 0x0082828282828282828286C478000000;
  glyph 0x0083828282C644444428283830000000;
  glyph 0x00828282828292BAAAAACEC6C4000000;
  glyph 0x0082C44468383038284444C682000000;
  glyph 0x008282C6444C28381010101010000000;
  glyph 0x00FE060408181030204040C0FE000000;
  glyph 0x3C20202020202020202020202020203C;
  glyph 0x40404060202030101018080808040404;
  glyph 0x78080808080808080808080808080878;
  glyph 0x0010382844C482000000000000000000;
  glyph 0x000000000000000000000000000000FF;
  glyph 0x20101000000000000000000000000000;
  glyph 0x00000000780C047CCC8484C47C000000;
  glyph 0x404040407C664341414143467C000000;
  glyph 0x000000003C60C0808080C0603E000000;
  glyph 0x020202023E66C2828282C2623E000000;
  glyph 0x000000003864C682FE8080603C000000;
  glyph 0x1E302020FC2020202020202020000000;
  glyph 0x000000003E66C282828282463E020678;
  glyph 0x404040407C4642424242424242000000;
  glyph 0x30300000F0101010101010180E000000;
  glyph 0x181800007808080808080808080818F0;
  glyph 0x404040404244487070584C4643000000;
  glyph 0xF010101010101010101010180E000000;
  glyph 0x00000000ECB692929292828282000000;
  glyph 0x000000007C4642424242424242000000;
  glyph 0x00000000384CC6828282C64C38000000;
  glyph 0x000000007C464341414143667C404040;
  glyph 0x000000003E62C2828282C2663E020202;
  glyph 0x000000007C4040404040404040000000;
  glyph 0x000000003C604060180602467C000000;
  glyph 0x00202020FC202020202020301C000000;
  glyph 0x0000000084848484848484C47C000000;
  glyph 0x000000008282C6444468283810000000;
  glyph 0x000000008181939A9AEA666646000000;
  glyph 0x00000000C644683818286CC682000000;
  glyph 0x0000000082C24644642C2818181030E0;
  glyph 0x00000000FC0C1810306040C0FC000000;
  glyph 0x0E18101010103060301010101010180E;
  glyph 0x10101010101010101010101010101010;
  glyph 0x70180808080808060C08080808081870;
  glyph 0x00000000000000729E00000000000000
].

(** Both tables are well formed, and the same. *)
Lemma font_shape : length g_font = 95%nat ∧ Forall (λ g, length g = 16%nat ∧ Forall (λ b, 0 ≤ b < 256) g) g_font.
Proof.
  assert (forallb (λ g, (length g =? 16)%nat && forallb (λ b, (0 <=? b) && (b <? 256)) g) g_font = true) as H by (vm_compute; reflexivity).
  split; [reflexivity|]. apply Forall_forall. intros g Hg%list_elem_of_In. rewrite forallb_forall in H. specialize (H g Hg). apply andb_prop in H as [H1 H2].
  split; [by apply Nat.eqb_eq|]. apply Forall_forall. intros b Hb%list_elem_of_In. rewrite forallb_forall in H2. specialize (H2 b Hb). lia.
Qed.

Lemma fonts_agree : kernel_font = g_font.
Proof. reflexivity. Qed.
End Font.
