(* ===== verification/Gfx.v ===== *)
(** * Drawing ([user/lib/gfx.h], [shared/rect.h])

    Surfaces are buffers of 32-bit pixels; every drawing function clips to the
    rectangle [g_clip_rect].  The theorems give the exact set of pixels a
    function changes and the value it gives them, and show that no access
    leaves a surface. *)
From Stdlib Require Import SpecFloat ZifyBool.
From S2P Require Import Prelude Font.

Module Gfx.
Import Font.

(** ** Rectangles *)

Definition i16 (z : Z) : Z := let w := u16 z in if w <? 2 ^ 15 then w else w - 2 ^ 16.

(** [short x, y; ushort w, h]. *)
Record rect := mkRect { rx : Z; ry : Z; rw : Z; rh : Z }.

Definition rect_union (a b : rect) : rect :=
  if rw a =? 0 then b
  else if rw b =? 0 then a
  else
    let x2 := if rx b + rw b <? rx a + rw a then rx a + rw a else rx b + rw b in
    let y2 := if ry b + rh b <? ry a + rh a then ry a + rh a else ry b + rh b in
    let x := if rx a <? rx b then rx a else rx b in
    let y := if ry a <? ry b then ry a else ry b in
    mkRect x y (u16 (u32 (x2 - x))) (u16 (u32 (y2 - y))).

Definition rect_intersect (a b : rect) : rect :=
  let x1 := if rx b <? rx a then rx a else rx b in
  let y1 := if ry b <? ry a then ry a else ry b in
  let x2 := if rx a + rw a <? rx b + rw b then rx a + rw a else rx b + rw b in
  let y2 := if ry a + rh a <? ry b + rh b then ry a + rh a else ry b + rh b in
  if (x2 <=? x1) || (y2 <=? y1) then mkRect 0 0 0 0
  else mkRect (i16 x1) (i16 y1) (u16 (x2 - x1)) (u16 (y2 - y1)).

Definition rect_equals (a b : rect) : bool :=
  (rx a =? rx b) && (ry a =? ry b) && (rw a =? rw b) && (rh a =? rh b).

(** ** Surfaces *)

Record fb_info := mkFb { ptr : Z; width : Z; height : Z; pitch : Z; dirty_region : rect }.
Definition set_dirty (r : rect) (fb : fb_info) : fb_info := mkFb (ptr fb) (width fb) (height fb) (pitch fb) r.

(** The pixels each [ptr] points to, and the clip rectangle. *)
Record gst := mkGst { pixels : gmap Z (list Z); g_clip_rect : rect }.
Definition set_pixels (m : gmap Z (list Z)) (s : gst) : gst := mkGst m (g_clip_rect s).
Definition set_clip (r : rect) (s : gst) : gst := mkGst (pixels s) r.

(** The macro [CLAMP] at the types it is used with: the value an [int], the upper bound a [uint]. *)
Definition clamp_int (v hi : Z) : Z := if v <? 0 then 0 else if hi <? u32 v then hi else u32 v.

Definition gfx_set_clip (fb : fb_info) (rc : rect) : M gst unit :=
  modify (set_clip (mkRect
    (i16 (clamp_int (rx rc) (width fb))) (i16 (clamp_int (ry rc) (height fb)))
    (u16 (clamp_int (rw rc) (u32 (width fb - rx rc)))) (u16 (clamp_int (rh rc) (u32 (height fb - ry rc)))))).

Definition gfx_get_clip : M gst rect := gets g_clip_rect.

Definition gfx_clear_clip (fb : fb_info) : M gst unit :=
  modify (set_clip (mkRect 0 0 (u16 (width fb)) (u16 (height fb)))).

Definition fb_mark_dirty (x y w h : Z) (fb : fb_info) : fb_info :=
  let d := dirty_region fb in
  if rw d =? 0 then set_dirty (mkRect (i16 x) (i16 y) (u16 w) (u16 h)) fb
  else
    let x2 := u32 (rx d + rw d) in
    let y2 := u32 (ry d + rh d) in
    let nx := if x <? u32 (rx d) then i16 x else rx d in
    let ny := if y <? u32 (ry d) then i16 y else ry d in
    let x2 := if x2 <? u32 (x + w) then u32 (x + w) else x2 in
    let y2 := if y2 <? u32 (y + h) then u32 (y + h) else y2 in
    set_dirty (mkRect nx ny (u16 (u32 (x2 - nx))) (u16 (u32 (y2 - ny)))) fb.

Definition fb_clear_dirty (fb : fb_info) : fb_info :=
  let d := dirty_region fb in set_dirty (mkRect (rx d) (ry d) 0 (rh d)) fb.
Definition fb_is_dirty (fb : fb_info) : bool := 0 <? rw (dirty_region fb).

(** [p[i]], and [p[i] = v]. *)
Definition px_get (p i : Z) : M gst Z :=
  s ← get;
  l ← of_option (pixels s !! p);
  of_option (l !! Z.to_nat i).
Definition px_set (p i v : Z) : M gst unit :=
  s ← get;
  l ← of_option (pixels s !! p);
  if decide (Z.to_nat i < length l)%nat then put (set_pixels (<[p := <[Z.to_nat i := v]> l]> (pixels s)) s) else fault.

(** [memcpy] between surfaces; [count] is a multiple of four. *)
Definition memcpy (dst di src si count : Z) : M gst unit :=
  for_range (Z.to_nat (count / 4)) 0 (λ k, v ← px_get src (si + k); px_set dst (di + k) v).

(** ** Pixels and rectangles *)

Definition ARGB (a r g b : Z) : Z := Z.lor (Z.lor (Z.lor (u32 (Z.shiftl a 24)) (Z.shiftl r 16)) (Z.shiftl g 8)) b.
Definition RGB (r g b : Z) : Z := ARGB 0xff r g b.

Definition chan (k c : Z) : Z := Z.land (Z.shiftr c k) 0xFF.

(** The colour [color], not opaque, over [dst]. *)
Definition blend (color dst : Z) : Z :=
  let src_a := chan 24 color in
  let inv_a := 255 - src_a in
  Z.lor (Z.lor (Z.shiftl ((chan 16 color * src_a + chan 16 dst * inv_a) / 255) 16)
               (Z.shiftl ((chan 8 color * src_a + chan 8 dst * inv_a) / 255) 8))
        ((chan 0 color * src_a + chan 0 dst * inv_a) / 255).

Definition outside_clip (c : rect) (x y : Z) : bool :=
  (x <? u32 (rx c)) || (u32 (rx c + rw c) <=? x) || (y <? u32 (ry c)) || (u32 (ry c + rh c) <=? y).

Definition gfx_pixel (fb : fb_info) (x y color : Z) : M gst unit :=
  c ← gets g_clip_rect;
  if outside_clip c x y then mret tt
  else px_set (ptr fb) (u32 (y * (pitch fb / 4) + x)) color.

Definition gfx_pixel_blend (fb : fb_info) (x y color : Z) : M gst unit :=
  c ← gets g_clip_rect;
  if outside_clip c x y then mret tt
  else
    let src_a := chan 24 color in
    if src_a =? 0 then mret tt
    else
      let i := u32 (y * (pitch fb / 4) + x) in
      if src_a =? 255 then px_set (ptr fb) i color
      else dst ← px_get (ptr fb) i; px_set (ptr fb) i (blend color dst).

(** [for (int v = lo; v < hi; v++)] *)
Definition for_int (lo hi : Z) (body : Z → M gst unit) : M gst unit := for_range (Z.to_nat (hi - lo)) lo body.

Definition gfx_fill (fb : fb_info) (color : Z) : M gst fb_info :=
  c ← gets g_clip_rect;
  let x1 := rx c in let y1 := ry c in
  let x2 := x1 + rw c in let y2 := y1 + rh c in
  for_int y1 y2 (λ y, for_int x1 x2 (λ x, px_set (ptr fb) (u32 (u32 y * (pitch fb / 4) + u32 x)) color)) ;;
  mret (fb_mark_dirty (u32 x1) (u32 y1) (rw c) (rh c) fb).

Definition gfx_rect (fb : fb_info) (x y w h color : Z) : M gst fb_info :=
  c ← gets g_clip_rect;
  let x1 := if rx c <? x then x else rx c in
  let y1 := if ry c <? y then y else ry c in
  let x2 := if i32 (x + i32 w) <? rx c + rw c then i32 (x + i32 w) else rx c + rw c in
  let y2 := if i32 (y + i32 h) <? ry c + rh c then i32 (y + i32 h) else ry c + rh c in
  if (x2 <=? x1) || (y2 <=? y1) then mret fb
  else
    let src_a := chan 24 color in
    (if src_a =? 255 then
       for_int y1 y2 (λ dy, for_int x1 x2 (λ dx, px_set (ptr fb) (u32 (u32 dy * (pitch fb / 4) + u32 dx)) color))
     else if 0 <? src_a then
       for_int y1 y2 (λ dy, for_int x1 x2 (λ dx,
         dst ← px_get (ptr fb) (u32 (u32 dy * (pitch fb / 4) + u32 dx));
         px_set (ptr fb) (u32 (u32 dy * (pitch fb / 4) + u32 dx)) (blend color dst)))
     else mret tt) ;;
    mret (fb_mark_dirty (u32 x1) (u32 y1) (u32 (x2 - x1)) (u32 (y2 - y1)) fb).

Definition gfx_rect_outline (fb : fb_info) (x y w h color : Z) : M gst fb_info :=
  for_range (Z.to_nat w) 0 (λ dx,
    gfx_pixel_blend fb (u32 (x + dx)) y color ;;
    gfx_pixel_blend fb (u32 (x + dx)) (u32 (y + h - 1)) color) ;;
  for_range (Z.to_nat (u32 (h - 1) - 1)) 1 (λ dy,
    gfx_pixel_blend fb x (u32 (y + dy)) color ;;
    gfx_pixel_blend fb (u32 (x + w - 1)) (u32 (y + dy)) color) ;;
  mret (fb_mark_dirty x y w h fb).

(** ** Single-precision arithmetic *)

Definition f_of (z : Z) : spec_float := binary_normalize 24 128 z 0 false.
Definition f_div := SFdiv 24 128.
Definition f_mul := SFmul 24 128.
Definition f_add := SFadd 24 128.
Definition f_sub := SFsub 24 128.

(** The conversion to [int]: towards zero, the smallest [int] when out of range. *)
Definition f_to_int (f : spec_float) : Z :=
  let clip z := if (- 2 ^ 31 <=? z) && (z <? 2 ^ 31) then z else - 2 ^ 31 in
  match f with
  | S754_zero _ => 0
  | S754_finite s m e =>
      let a := if 0 <=? e then Zpos m * 2 ^ e else Zpos m / 2 ^ (- e) in
      clip (if s then - a else a)
  | _ => - 2 ^ 31
  end.

Definition LERP (a b t : spec_float) : spec_float := f_add a (f_mul t (f_sub b a)).

Definition gradient_color (dx x w color1 color2 : Z) : Z :=
  let t := f_div (f_sub (f_of dx) (f_of x)) (f_of w) in
  let r := f_to_int (LERP (f_of (chan 16 color1)) (f_of (chan 16 color2)) t) in
  let g := f_to_int (LERP (f_of (chan 8 color1)) (f_of (chan 8 color2)) t) in
  let b := f_to_int (LERP (f_of (chan 0 color1)) (f_of (chan 0 color2)) t) in
  u32 (RGB r g b).

Definition gfx_rect_gradient (fb : fb_info) (x y w h color1 color2 angle : Z) : M gst fb_info :=
  c ← gets g_clip_rect;
  let x1 := if rx c <? x then x else rx c in
  let y1 := if ry c <? y then y else ry c in
  let x2 := if i32 (x + i32 w) <? rx c + rw c then i32 (x + i32 w) else rx c + rw c in
  let y2 := if i32 (y + i32 h) <? ry c + rh c then i32 (y + i32 h) else ry c + rh c in
  if (x2 <=? x1) || (y2 <=? y1) then mret fb
  else
    for_int y1 y2 (λ dy, for_int x1 x2 (λ dx,
      let color := gradient_color dx x w color1 color2 in
      let i := u32 (u32 dy * (pitch fb / 4) + u32 dx) in
      if chan 24 color =? 255 then px_set (ptr fb) i color
      else if 0 <? chan 24 color then dst ← px_get (ptr fb) i; px_set (ptr fb) i (blend color dst)
      else mret tt)) ;;
    mret (fb_mark_dirty (u32 x1) (u32 y1) (u32 (x2 - x1)) (u32 (y2 - y1)) fb).

(** ** Lines and text *)

(** The loop of [gfx_line]: the current point, the error term, the end point. *)
Fixpoint line_loop (fuel : nat) (fb : fb_info) (x0 y0 err dx dy sx sy x1 y1 color : Z) : M gst unit :=
  gfx_pixel fb (u32 x0) (u32 y0) color ;;
  if (x0 =? x1) && (y0 =? y1) then mret tt
  else
    match fuel with
    | O => no_fuel
    | S fuel' =>
        let e2 := 2 * err in
        let '(err, x0) := if - dy <? e2 then (err - dy, x0 + sx) else (err, x0) in
        let '(err, y0) := if e2 <? dx then (err + dx, y0 + sy) else (err, y0) in
        line_loop fuel' fb x0 y0 err dx dy sx sy x1 y1 color
    end.

Definition gfx_line (fuel : nat) (fb : fb_info) (x0 y0 x1 y1 color : Z) : M gst fb_info :=
  let dx := if x0 <? x1 then x1 - x0 else x0 - x1 in
  let sx := if x0 <? x1 then 1 else -1 in
  let dy := if y0 <? y1 then y1 - y0 else y0 - y1 in
  let sy := if y0 <? y1 then 1 else -1 in
  line_loop fuel fb x0 y0 (dx - dy) dx dy sx sy x1 y1 color ;;
  let min_x := if x0 <? x1 then x0 else x1 in
  let min_y := if y0 <? y1 then y0 else y1 in
  let min_x := if min_x <? 0 then 0 else min_x in
  let min_y := if min_y <? 0 then 0 else min_y in
  mret (fb_mark_dirty (u32 min_x) (u32 min_y) (u32 (dx + 1)) (u32 (dy + 1)) fb).

Definition glyph_of (c : Z) : list Z :=
  let idx := c - FONT_FIRST_CHAR in
  let idx := if (idx <? 0) || (FONT_GLYPH_COUNT <=? idx) then 0 else idx in
  nth (Z.to_nat idx) g_font [].

Definition gfx_putc (fb : fb_info) (px py c fg : Z) : M gst fb_info :=
  let glyph := glyph_of c in
  for_range (Z.to_nat FONT_GLYPH_HEIGHT) 0 (λ row,
    for_range (Z.to_nat FONT_GLYPH_WIDTH) 0 (λ col,
      when (truthy (Z.land (nth (Z.to_nat row) glyph 0) (Z.shiftl 1 (7 - col))))
        (gfx_pixel fb (u32 (px + col)) (u32 (py + row)) fg))) ;;
  mret (if (0 <=? px) && (0 <=? py) then fb_mark_dirty (u32 px) (u32 py) FONT_GLYPH_WIDTH FONT_GLYPH_HEIGHT fb else fb).

Fixpoint str_loop (fb : fb_info) (x y : Z) (s : list Z) (fg : Z) : M gst (Z * fb_info) :=
  match s with
  | [] => mret (x, fb)
  | c :: s' => fb ← gfx_putc fb x y c fg; str_loop fb (x + FONT_GLYPH_WIDTH) y s' fg
  end.

Definition gfx_str (fb : fb_info) (start_x y : Z) (s : list Z) (fg : Z) : M gst fb_info :=
  r ← str_loop fb start_x y s fg;
  let '(x, fb) := (r : Z * fb_info) in
  mret (if (start_x <? x) && (0 <=? start_x) && (0 <=? y)
        then fb_mark_dirty (u32 start_x) (u32 y) (u32 (x - start_x)) FONT_GLYPH_HEIGHT fb else fb).

(** ** Surfaces of one's own *)

(** [p] is what [sys_alloc] answered, [junk] what the memory held. *)
Definition gfx_create_surface (p : Z) (junk : list Z) (w h : Z) : M gst fb_info :=
  if p =? 0 then no_fuel
  else
    modify (λ s, set_pixels (<[p := junk]> (pixels s)) s) ;;
    for_range (Z.to_nat (u32 (w * h))) 0 (λ i, px_set p i 0) ;;
    mret (mkFb p w h (u32 (w * 4)) (mkRect 0 0 0 0)).

Definition gfx_flush (dst : fb_info) (dx dy : Z) (src : fb_info) : M gst fb_info :=
  if negb (fb_is_dirty src) then mret src
  else
    let sx := u32 (rx (dirty_region src)) in let sy := u32 (ry (dirty_region src)) in
    let sw := rw (dirty_region src) in let sh := rh (dirty_region src) in
    for_range (Z.to_nat sh) 0 (λ row,
      let d_row := i32 (dy + i32 (sy + row)) in
      let d_col := i32 (dx + i32 sx) in
      if (d_row <? 0) || (height dst <=? u32 d_row) then mret tt
      else if (d_col <? 0) || (width dst <? u32 (u32 d_col + sw)) then mret tt
      else memcpy (ptr dst) (u32 (u32 d_row * (pitch dst / 4) + u32 d_col))
                  (ptr src) (u32 (u32 (sy + row) * (pitch src / 4) + sx)) (u32 (sw * 4))) ;;
    mret (fb_clear_dirty src).

Definition gfx_blit (dst : fb_info) (dx dy : Z) (src : fb_info) : M gst unit :=
  c ← gets g_clip_rect;
  let dst_x1 := i32 (dx + i32 (width src)) in let dst_y1 := i32 (dy + i32 (height src)) in
  let cr_x1 := rx c + rw c in let cr_y1 := ry c + rh c in
  let '(src_x0, dst_x0) := if dx <? rx c then (rx c - dx, rx c) else (0, dx) in
  let '(src_y0, dst_y0) := if dy <? ry c then (ry c - dy, ry c) else (0, dy) in
  let dst_x1 := if cr_x1 <? dst_x1 then cr_x1 else dst_x1 in
  let dst_y1 := if cr_y1 <? dst_y1 then cr_y1 else dst_y1 in
  let '(src_x0, dst_x0) := if dst_x0 <? 0 then (src_x0 - dst_x0, 0) else (src_x0, dst_x0) in
  let '(src_y0, dst_y0) := if dst_y0 <? 0 then (src_y0 - dst_y0, 0) else (src_y0, dst_y0) in
  let dst_x1 := if i32 (width dst) <? dst_x1 then i32 (width dst) else dst_x1 in
  let dst_y1 := if i32 (height dst) <? dst_y1 then i32 (height dst) else dst_y1 in
  if (dst_x1 <=? dst_x0) || (dst_y1 <=? dst_y0) then mret tt
  else
    let w := u32 (dst_x1 - dst_x0) in let h := u32 (dst_y1 - dst_y0) in
    for_range (Z.to_nat h) 0 (λ row,
      let d_row := u32 (dst_y0 + row) in let s_row := u32 (src_y0 + row) in
      memcpy (ptr dst) (u32 (d_row * (pitch dst / 4) + u32 dst_x0))
             (ptr src) (u32 (s_row * (pitch src / 4) + u32 src_x0)) (u32 (w * 4))).

(** ** Square roots *)

Fixpoint isqrt_loop {S} (fuel : nat) (n x y : Z) : M S Z :=
  if y <? x then
    match fuel with
    | O => no_fuel
    | Datatypes.S fuel' => if y =? 0 then fault else isqrt_loop fuel' n y (u32 (y + n / y) / 2)
    end
  else mret x.

Definition gfx_isqrt {S} (n : Z) : M S Z :=
  if n =? 0 then mret 0 else isqrt_loop 64 n n (u32 (n + 1) / 2).

(** ** Parts of surfaces *)

(** The adjustments of a source rectangle that starts left of or above the source. *)
Definition clip_source (src : fb_info) (dx dy sx sy sw sh : Z) : Z * Z * Z * Z * Z * Z :=
  let '(dx, sw, sx) := if sx <? 0 then (dx - sx, u32 (sw + sx), 0) else (dx, sw, sx) in
  let '(dy, sh, sy) := if sy <? 0 then (dy - sy, u32 (sh + sy), 0) else (dy, sh, sy) in
  let sw := if width src <? u32 (sx + sw) then u32 (width src - sx) else sw in
  let sh := if height src <? u32 (sy + sh) then u32 (height src - sy) else sh in
  (dx, dy, sx, sy, sw, sh).

Definition gfx_blit_region (dst : fb_info) (dx dy : Z) (src : fb_info) (sx sy sw sh : Z) : M gst unit :=
  c ← gets g_clip_rect;
  let '(dx, dy, sx, sy, sw, sh) := clip_source src dx dy sx sy sw sh in
  let col0 := if dx <? rx c then rx c - dx else 0 in
  let col1 := i32 sw in
  let col1 := if rx c + rw c <? i32 (dx + col1) then rx c + rw c - dx else col1 in
  let col1 := if i32 (width dst) <? i32 (dx + col1) then i32 (width dst) - dx else col1 in
  if col1 <=? col0 then mret tt
  else
    for_range (Z.to_nat sh) 0 (λ row,
      let d_row := i32 (dy + i32 row) in
      if (d_row <? 0) || (height dst <=? u32 d_row) || (d_row <? ry c) || (ry c + rh c <=? d_row) then mret tt
      else memcpy (ptr dst) (u32 (u32 d_row * (pitch dst / 4) + u32 (dx + col0)))
                  (ptr src) (u32 (u32 (sy + row) * (pitch src / 4) + u32 sx + u32 col0)) (u32 (u32 (col1 - col0) * 4))).

(** The first column of row [row] of a rounded rectangle, and the one behind the last. *)
Definition left_edge {S} (h row r_tl r_bl : Z) : M S Z :=
  xl ← (if row <? r_tl then
          let oy := r_tl - row in
          q ← gfx_isqrt (u32 (r_tl * r_tl - oy * oy));
          let xc := r_tl - i32 q in mret (if 0 <? xc then xc else 0)
        else mret 0);
  if (0 <? r_bl) && (h - r_bl <=? row) then
    let oy := row - (h - r_bl) in
    q ← gfx_isqrt (u32 (r_bl * r_bl - oy * oy));
    let xc := r_bl - i32 q in mret (if xl <? xc then xc else xl)
  else mret xl.

Definition right_edge {S} (w h row r_tr r_br : Z) : M S Z :=
  xr ← (if row <? r_tr then
          let oy := r_tr - row in
          q ← gfx_isqrt (u32 (r_tr * r_tr - oy * oy));
          let xc := w - r_tr + i32 q in mret (if xc <? w then xc else w)
        else mret w);
  if (0 <? r_br) && (h - r_br <=? row) then
    let oy := row - (h - r_br) in
    q ← gfx_isqrt (u32 (r_br * r_br - oy * oy));
    let xc := w - r_br + i32 q in mret (if xc <? xr then xc else xr)
  else mret xr.

Definition gfx_blit_region_rounded4 (dst : fb_info) (dx dy : Z) (src : fb_info) (sx sy sw sh r_tl r_tr r_br r_bl : Z) : M gst unit :=
  c ← gets g_clip_rect;
  let '(dx, dy, sx, sy, sw, sh) := clip_source src dx dy sx sy sw sh in
  let W := i32 (width src) in let H := i32 (height src) in
  for_range (Z.to_nat sh) 0 (λ row,
    let fy := sy + i32 row in
    fx0 ← left_edge H fy r_tl r_bl;
    fx1 ← right_edge W H fy r_tr r_br;
    let icol0 := if fx0 - sx <? 0 then 0 else fx0 - sx in
    let icol1 := if i32 sw <? fx1 - sx then i32 sw else fx1 - sx in
    if icol1 <=? icol0 then mret tt
    else
      let d_row := dy + i32 row in
      if (d_row <? 0) || (height dst <=? u32 d_row) || (d_row <? ry c) || (ry c + rh c <=? d_row) then mret tt
      else
        let d_col0 := dx + icol0 in let d_col1 := dx + icol1 in
        let clip_r := rx c + rw c in
        let d_col0 := if d_col0 <? rx c then rx c else d_col0 in
        let d_col1 := if clip_r <? d_col1 then clip_r else d_col1 in
        let d_col0 := if d_col0 <? 0 then 0 else d_col0 in
        let d_col1 := if i32 (width dst) <? d_col1 then i32 (width dst) else d_col1 in
        if d_col1 <=? d_col0 then mret tt
        else
          let src_col := u32 (sx + (d_col0 - dx)) in
          let span := u32 (d_col1 - d_col0) in
          memcpy (ptr dst) (u32 (u32 d_row * (pitch dst / 4) + u32 d_col0))
                 (ptr src) (u32 (u32 fy * (pitch src / 4) + src_col)) (u32 (span * 4))).

Definition gfx_blit_region_rounded (dst : fb_info) (dx dy : Z) (src : fb_info) (sx sy sw sh r : Z) : M gst unit :=
  c ← gets g_clip_rect;
  let '(dx, dy, sx, sy, sw, sh) := clip_source src dx dy sx sy sw sh in
  let W := width src in let H := height src in
  let r2 := u32 (u32 r * r) in
  for_range (Z.to_nat sh) 0 (λ row,
    let fy := u32 (sy + row) in
    e ← (if fy <? u32 r then
           let oy := i32 fy - r in
           half ← gfx_isqrt (u32 (r2 - u32 (oy * oy)));
           mret (u32 (u32 r - half), u32 (W - u32 r + half))
         else if u32 (H - u32 r) <=? fy then
           let oy := i32 fy - i32 (u32 (H - u32 r)) in
           half ← gfx_isqrt (u32 (r2 - u32 (oy * oy)));
           mret (u32 (u32 r - half), u32 (W - u32 r + half))
         else mret (0, W));
    let '(fx0, fx1) := (e : Z * Z) in
    let icol0 := if i32 fx0 - sx <? 0 then 0 else i32 fx0 - sx in
    let icol1 := if i32 sw <? i32 fx1 - sx then i32 sw else i32 fx1 - sx in
    if icol1 <=? icol0 then mret tt
    else
      let d_row := dy + i32 row in
      if (d_row <? 0) || (height dst <=? u32 d_row) || (d_row <? ry c) || (ry c + rh c <=? d_row) then mret tt
      else
        for_int icol0 icol1 (λ col,
          let d_col := dx + i32 col in
          if (d_col <? 0) || (width dst <=? u32 d_col) || (d_col <? rx c) || (rx c + rw c <=? d_col) then mret tt
          else
            v ← px_get (ptr src) (u32 (fy * (pitch src / 4) + sx + col));
            px_set (ptr dst) (u32 (u32 d_row * (pitch dst / 4) + u32 d_col)) v)).

(** ** Images *)

Record bitmap := mkBitmap { b_width : Z; b_height : Z; b_data : list Z }.

(** [for (uint v = lo; v < lo + n; v++)] *)
Definition for_uint (lo n : Z) (body : Z → M gst unit) : M gst unit := for_range (Z.to_nat (u32 (lo + n) - lo)) lo body.

Definition gfx_img (fb : fb_info) (x y : Z) (img : bitmap) : M gst unit :=
  for_uint y (b_height img) (λ yy, for_uint x (b_width img) (λ xx,
    p ← of_option (b_data img !! Z.to_nat (u32 ((yy - y) * b_width img + (xx - x))));
    gfx_pixel_blend fb xx yy p)).

(** The column or row of the image for the [k]-th of [n] columns or rows. *)
Definition sample (k n size : Z) : Z := f_to_int (f_mul (f_div (f_of k) (f_of n)) (f_of size)).

Definition gfx_imgs (fb : fb_info) (x y w h : Z) (img : bitmap) : M gst unit :=
  for_uint y h (λ yy, for_uint x w (λ xx,
    let px := sample (xx - x) w (b_width img) in
    let py := sample (yy - y) h (b_height img) in
    p ← of_option (b_data img !! Z.to_nat (u32 (py * b_width img + px)));
    gfx_pixel_blend fb xx yy p)).

(** ** Rounded rectangles *)

Definition gfx_rect_rounded (fb : fb_info) (x y w h color r_tl r_tr r_br r_bl : Z) : M gst fb_info :=
  c ← gets g_clip_rect;
  let src_a := chan 24 color in
  if (src_a =? 0) || (w <=? 0) || (h <=? 0) then mret fb
  else
    let fy0 := if ry c <? y then y else ry c in
    let fy1 := if i32 (y + h) <? ry c + rh c then i32 (y + h) else ry c + rh c in
    if fy1 <=? fy0 then mret fb
    else
      for_int fy0 fy1 (λ fy,
        let row := fy - y in
        xl ← left_edge h row r_tl r_bl;
        xr ← right_edge w h row r_tr r_br;
        let fx0 := if x + xl <? rx c then rx c else x + xl in
        let fx1 := if rx c + rw c <? x + xr then rx c + rw c else x + xr in
        if fx1 <=? fx0 then mret tt
        else if src_a =? 255 then
          for_int fx0 fx1 (λ fx, px_set (ptr fb) (u32 (u32 fy * (pitch fb / 4) + u32 fx)) color)
        else
          for_int fx0 fx1 (λ fx,
            dst ← px_get (ptr fb) (u32 (u32 fy * (pitch fb / 4) + u32 fx));
            px_set (ptr fb) (u32 (u32 fy * (pitch fb / 4) + u32 fx)) (blend color dst))) ;;
      let dx0 := if x <? 0 then 0 else x in let dy0 := if y <? 0 then 0 else y in
      mret (fb_mark_dirty (u32 dx0) (u32 dy0) (u32 w) (u32 h) fb).

Definition gfx_blit_rounded (dst : fb_info) (dx dy : Z) (src : fb_info) (r_tl r_tr r_br r_bl : Z) : M gst fb_info :=
  c ← gets g_clip_rect;
  let w := i32 (width src) in let h := i32 (height src) in
  let fy0 := if ry c <? dy then dy else ry c in
  let fy1 := if i32 (dy + h) <? ry c + rh c then i32 (dy + h) else ry c + rh c in
  let fy0 := if fy0 <? 0 then 0 else fy0 in
  let fy1 := if i32 (height dst) <? fy1 then i32 (height dst) else fy1 in
  if fy1 <=? fy0 then mret dst
  else
    for_int fy0 fy1 (λ fy,
      let row := fy - dy in
      xl ← left_edge h row r_tl r_bl;
      xr ← right_edge w h row r_tr r_br;
      let fx0 := if dx + xl <? rx c then rx c else dx + xl in
      let fx1 := if rx c + rw c <? dx + xr then rx c + rw c else dx + xr in
      let fx0 := if fx0 <? 0 then 0 else fx0 in
      let fx1 := if i32 (width dst) <? fx1 then i32 (width dst) else fx1 in
      if fx1 <=? fx0 then mret tt
      else memcpy (ptr dst) (u32 (u32 fy * (pitch dst / 4) + u32 fx0))
                  (ptr src) (u32 (u32 row * (pitch src / 4) + u32 (fx0 - dx))) (u32 (u32 (fx1 - fx0) * 4))) ;;
    let ddx := if dx <? 0 then 0 else dx in let ddy := if dy <? 0 then 0 else dy in
    mret (fb_mark_dirty (u32 ddx) (u32 ddy) (u32 w) (u32 h) dst).

(** ** Painting

    What a drawing function does to one surface, pixel by pixel: the pixel at
    [(x, y)] becomes [g x y o] where it was [o]; nothing else changes. *)

Definition pos (fb : fb_info) (x y : Z) : nat := Z.to_nat (y * (pitch fb / 4) + x).

Record surface (fb : fb_info) (l : list Z) : Prop := {
  sf_len : Z.of_nat (length l) = pitch fb / 4 * height fb;
  sf_width : 0 ≤ width fb ≤ pitch fb / 4;
  sf_pitch : pitch fb / 4 < 2 ^ 15;
  sf_height : 0 ≤ height fb < 2 ^ 15
}.

Definition has (fb : fb_info) (s : gst) : Prop := ∃ l, pixels s !! ptr fb = Some l ∧ surface fb l.

(** A pixel of a surface. *)
Definition pixel (s : gst) (fb : fb_info) (x y : Z) : Z :=
  match pixels s !! ptr fb with Some l => nth (pos fb x y) l 0 | None => 0 end.

Definition inside (fb : fb_info) (x y : Z) : Prop := 0 ≤ x < pitch fb / 4 ∧ 0 ≤ y < height fb.

Definition paints (fb : fb_info) (g : Z → Z → Z → Z) (s s' : gst) : Prop :=
  has fb s' ∧ g_clip_rect s' = g_clip_rect s ∧ (∀ p, p ≠ ptr fb → pixels s' !! p = pixels s !! p) ∧
  ∀ x y, inside fb x y → pixel s' fb x y = g x y (pixel s fb x y).

Lemma i16_id z : - 2 ^ 15 ≤ z < 2 ^ 15 → i16 z = z.
Proof.
  intros H. unfold i16, u16. destruct (Z.ltb_spec (z mod 2 ^ 16) (2 ^ 15)); dlia.
Qed.

Lemma paints_id fb s : has fb s → paints fb (λ _ _ o, o) s s.
Proof. done. Qed.

Lemma paints_has fb g s s' : paints fb g s s' → has fb s'.
Proof. by intros []. Qed.

Lemma paints_ext fb g g' s s' : (∀ x y, inside fb x y → g x y (pixel s fb x y) = g' x y (pixel s fb x y)) → paints fb g s s' → paints fb g' s s'.
Proof. intros H (Hh & Hc & Ho & Hp). do 3 (split; [done|]). intros x y Hi. rewrite Hp by done. by apply H. Qed.

Lemma paints_trans fb g g' s s1 s2 : paints fb g s s1 → paints fb g' s1 s2 → paints fb (λ x y o, g' x y (g x y o)) s s2.
Proof.
  intros (Hh & Hc & Ho & Hp) (Hh' & Hc' & Ho' & Hp'). split; [done|]. split; [congruence|]. split.
  - intros p Hne. by rewrite Ho', Ho.
  - intros x y Hi. by rewrite Hp', Hp.
Qed.

Lemma pos_inj fb x y x' y' : inside fb x y → inside fb x' y' → pos fb x y = pos fb x' y' → x = x' ∧ y = y'.
Proof. unfold pos, inside. intros [H1 H2] [H3 H4] E. assert (y * (pitch fb / 4) + x = y' * (pitch fb / 4) + x') as E' by nia. assert (y = y') by nia. nia. Qed.

Lemma pos_lt fb l x y : surface fb l → inside fb x y → (pos fb x y < length l)%nat.
Proof. intros [H1 H2 H3 H4] [Hx Hy]. unfold pos. nia. Qed.

Lemma pos_index fb l x y : surface fb l → inside fb x y → u32 (u32 y * (pitch fb / 4) + u32 x) = y * (pitch fb / 4) + x.
Proof.
  intros [H1 H2 H3 H4] [Hx Hy]. assert (0 ≤ y * (pitch fb / 4) + x < 2 ^ 30) by nia. rewrite (u32_small y), (u32_small x), u32_small by lia. done.
Qed.

Lemma nth_insert_ne {A} (l : list A) i j v d : i ≠ j → nth j (<[i:=v]> l) d = nth j l d.
Proof. intros H. rewrite !nth_lookup. by rewrite list_lookup_insert_ne. Qed.
Lemma nth_insert_eq {A} (l : list A) i v d : (i < length l)%nat → nth i (<[i:=v]> l) d = v.
Proof. intros H. rewrite nth_lookup. by rewrite list_lookup_insert_eq. Qed.

(** Reading and writing one pixel. *)
Lemma px_get_ok fb s x y i : has fb s → inside fb x y → i = y * (pitch fb / 4) + x → px_get (ptr fb) i s = Ok (pixel s fb x y, s).
Proof.
  intros (l & Hl & Hs) Hi ->. pose proof (pos_lt _ _ _ _ Hs Hi) as Hlt. unfold px_get, pixel. rewrite (bind_of_ok _ _ _ s s) by done. rewrite Hl, (bind_of_ok _ _ _ l s) by done.
  fold (pos fb x y). destruct (lookup_lt_is_Some_2 l _ Hlt) as [v Hv]. rewrite Hv. unfold of_option, mret, M_ret. by rewrite (nth_lookup_Some _ _ _ _ Hv).
Qed.

Lemma px_set_ok fb s X Y i v : has fb s → inside fb X Y → i = Y * (pitch fb / 4) + X →
  wp (px_set (ptr fb) i v) (λ _, paints fb (λ x y o, if (x =? X) && (y =? Y) then v else o) s) never s.
Proof.
  intros (l & Hl & Hs) Hi ->. pose proof (pos_lt _ _ _ _ Hs Hi) as Hlt. unfold px_set. apply wp_bind. eapply wp_ok; [done|]. rewrite Hl. apply wp_bind. eapply wp_ok; [done|].
  fold (pos fb X Y). rewrite decide_True by done. eapply wp_ok; [done|]. split; [|split; [done|split]].
  - exists (<[pos fb X Y := v]> l). split; [apply lookup_insert_eq|]. destruct Hs. split; [by rewrite length_insert|done..].
  - intros p Hp. cbn [pixels set_pixels]. by rewrite lookup_insert_ne.
  - intros x y Hxy. unfold pixel. cbn [pixels set_pixels]. rewrite lookup_insert_eq, Hl. destruct (decide (pos fb X Y = pos fb x y)) as [E|E].
    + destruct (pos_inj _ _ _ _ _ Hi Hxy E) as [<- <-]. rewrite !Z.eqb_refl. by apply nth_insert_eq.
    + rewrite nth_insert_ne by done. destruct (Z.eqb_spec x X), (Z.eqb_spec y Y); subst; done.
Qed.

(** A loop whose [i]-th round paints the pixels [k] sends to [i]. *)
Lemma loop_paints fb (k : Z → Z → Z) (h : Z → Z → Z → Z) n lo body s : has fb s →
  (∀ i t g, lo ≤ i < lo + Z.of_nat n → paints fb g s t → wp (body i) (λ _, paints fb (λ x y o, if k x y =? i then h x y o else o) t) never t) →
  wp (for_range n lo body) (λ _, paints fb (λ x y o, if (lo <=? k x y) && (k x y <? lo + Z.of_nat n) then h x y o else o) s) never s.
Proof.
  intros Hs Hb.
  apply (for_range_inv (λ i, paints fb (λ x y o, if (lo <=? k x y) && (k x y <? i) then h x y o else o) s)).
  - eapply paints_ext; [|by apply paints_id]. intros x y _. cbv beta. destruct (Z.leb_spec lo (k x y)), (Z.ltb_spec (k x y) lo); cbn [andb]; first [lia|done].
  - intros i t Hi Ht. eapply wp_mono; [by apply (Hb i t _ Hi Ht)| |done]. intros [] t' Ht'. eapply paints_ext; [|by eapply paints_trans].
    intros x y _. cbv beta. destruct (Z.eqb_spec (k x y) i), (Z.leb_spec lo (k x y)), (Z.ltb_spec (k x y) i), (Z.ltb_spec (k x y) (i + 1)); cbn [andb]; first [lia|done].
Qed.

(** Painting where [P] holds. *)
Definition paint_if (fb : fb_info) (P : Z → Z → bool) (v : Z → Z → Z → Z) (s s' : gst) : Prop :=
  paints fb (λ x y o, if P x y then v x y o else o) s s'.

Lemma paint_if_ext fb P P' v s s' : (∀ x y, inside fb x y → P x y = P' x y) → paint_if fb P v s s' → paint_if fb P' v s s'.
Proof. intros H. apply paints_ext. intros x y Hi. by rewrite H. Qed.

Lemma paint_none fb P v s : has fb s → (∀ x y, inside fb x y → P x y = false) → paint_if fb P v s s.
Proof. intros Hs H. eapply paints_ext; [|by apply paints_id]. intros x y Hi. cbv beta. by rewrite H. Qed.

Lemma rows_paint fb P v y1 y2 body s : has fb s →
  (∀ Y t g, y1 ≤ Y < y2 → paints fb g s t → wp (body Y) (λ _, paint_if fb (λ x y, (y =? Y) && P x y) v t) never t) →
  wp (for_int y1 y2 body) (λ _, paint_if fb (λ x y, (y1 <=? y) && (y <? y2) && P x y) v s) never s.
Proof.
  intros Hs Hb. unfold for_int. eapply wp_mono; [apply (loop_paints fb (λ _ y, y) (λ x y o, if P x y then v x y o else o)); [done|]| |done].
  - intros i t g Hi Ht. eapply wp_mono; [eapply Hb; [lia|done]| |done]. intros [] t'. apply paints_ext. intros x y _. by destruct (y =? i).
  - intros [] t. apply paints_ext. intros x y _. replace ((y1 <=? y) && (y <? y1 + Z.of_nat (Z.to_nat (y2 - y1)))) with ((y1 <=? y) && (y <? y2)) by lia. by destruct (_ && _).
Qed.

Lemma row_paints fb v Y x1 x2 body s : has fb s →
  (∀ X t g, x1 ≤ X < x2 → paints fb g s t → wp (body X) (λ _, paint_if fb (λ x y, (x =? X) && (y =? Y)) v t) never t) →
  wp (for_int x1 x2 body) (λ _, paint_if fb (λ x y, (y =? Y) && ((x1 <=? x) && (x <? x2))) v s) never s.
Proof.
  intros Hs Hb. unfold for_int. eapply wp_mono; [apply (loop_paints fb (λ x _, x) (λ x y o, if y =? Y then v x y o else o)); [done|]| |done].
  - intros i t g Hi Ht. eapply wp_mono; [eapply Hb; [lia|done]| |done]. intros [] t'. apply paints_ext. intros x y _. by destruct (x =? i), (y =? Y).
  - intros [] t. apply paints_ext. intros x y _. replace ((x1 <=? x) && (x <? x1 + Z.of_nat (Z.to_nat (x2 - x1)))) with ((x1 <=? x) && (x <? x2)) by lia. by destruct (_ && _), (y =? Y).
Qed.

Definition within (x1 y1 x2 y2 x y : Z) : bool := (x1 <=? x) && (x <? x2) && (y1 <=? y) && (y <? y2).

(** Two nested loops, each round painting its pixel. *)
Lemma box_paints fb v x1 x2 y1 y2 (body : Z → Z → M gst unit) s : has fb s →
  (∀ Y X t g, y1 ≤ Y < y2 → x1 ≤ X < x2 → paints fb g s t → wp (body Y X) (λ _, paint_if fb (λ x y, (x =? X) && (y =? Y)) v t) never t) →
  wp (for_int y1 y2 (λ y, for_int x1 x2 (body y))) (λ _, paint_if fb (within x1 y1 x2 y2) v s) never s.
Proof.
  intros Hs Hb. eapply wp_mono; [apply (rows_paint fb (λ x _, (x1 <=? x) && (x <? x2)) v); [done|]| |done].
  - intros Y t g HY Ht. apply row_paints; [by eapply paints_has|]. intros X t' g' HX Ht'. eapply Hb; [done|done|by eapply paints_trans].
  - intros [] t. apply paint_if_ext. intros x y _. unfold within. lia.
Qed.

(** A colour over what is there. *)
Definition over (color o : Z) : Z := if chan 24 color =? 255 then color else if 0 <? chan 24 color then blend color o else o.

Lemma chan_range k c : 0 ≤ chan k c < 256.
Proof. unfold chan. change 0xFF with (Z.ones 8). rewrite Z.land_ones by lia. apply Z.mod_pos_bound. lia. Qed.

Lemma store_pixel fb s x y v : has fb s → inside fb x y →
  wp (px_set (ptr fb) (u32 (u32 y * (pitch fb / 4) + u32 x)) v) (λ _, paint_if fb (λ X Y, (X =? x) && (Y =? y)) (λ _ _ _, v) s) never s.
Proof. intros H Hi. destruct (id H) as (l & _ & Hs). unfold paint_if. apply px_set_ok; [done..|by eapply pos_index]. Qed.

Lemma load_pixel fb s x y : has fb s → inside fb x y → px_get (ptr fb) (u32 (u32 y * (pitch fb / 4) + u32 x)) s = Ok (pixel s fb x y, s).
Proof. intros H Hi. destruct (id H) as (l & _ & Hs). apply px_get_ok; [done..|by eapply pos_index]. Qed.

Lemma blend_pixel fb s x y color : has fb s → inside fb x y →
  wp (dst ← px_get (ptr fb) (u32 (u32 y * (pitch fb / 4) + u32 x)); px_set (ptr fb) (u32 (u32 y * (pitch fb / 4) + u32 x)) (blend color dst))
    (λ _, paint_if fb (λ X Y, (X =? x) && (Y =? y)) (λ _ _ o, blend color o) s) never s.
Proof.
  intros H Hi. apply wp_bind. eapply wp_ok; [by apply load_pixel|]. eapply wp_mono; [by apply store_pixel| |done].
  intros [] t. apply paints_ext. intros X Y _. destruct (Z.eqb_spec X x), (Z.eqb_spec Y y); by subst.
Qed.

(** The clip rectangle is part of the surface. *)
Definition clip_in (fb : fb_info) (c : rect) : Prop :=
  0 ≤ rx c ∧ 0 ≤ rw c ∧ rx c + rw c ≤ width fb ∧ 0 ≤ ry c ∧ 0 ≤ rh c ∧ ry c + rh c ≤ height fb.

Definition in_clip (c : rect) (x y : Z) : bool := within (rx c) (ry c) (rx c + rw c) (ry c + rh c) x y.

Lemma clip_inside fb s x y : has fb s → clip_in fb (g_clip_rect s) → in_clip (g_clip_rect s) x y = true → inside fb x y.
Proof. intros (l & _ & [H1 H2 H3 H4]) (C1 & C2 & C3 & C4 & C5 & C6) H. unfold in_clip, within in H. unfold inside. lia. Qed.

Lemma clip_bounds fb s : has fb s → clip_in fb (g_clip_rect s) →
  0 ≤ rx (g_clip_rect s) ≤ rx (g_clip_rect s) + rw (g_clip_rect s) ∧ rx (g_clip_rect s) + rw (g_clip_rect s) < 2 ^ 15 ∧
  0 ≤ ry (g_clip_rect s) ≤ ry (g_clip_rect s) + rh (g_clip_rect s) ∧ ry (g_clip_rect s) + rh (g_clip_rect s) < 2 ^ 15.
Proof. intros (l & _ & [H1 H2 H3 H4]) (C1 & C2 & C3 & C4 & C5 & C6). lia. Qed.

(** What a drawing function leaves of its surface's record, and what it paints. *)
Definition draws (fb : fb_info) (P : Z → Z → bool) (v : Z → Z → Z → Z) (s : gst) (fb' : fb_info) (s' : gst) : Prop :=
  (∃ r, fb' = set_dirty r fb) ∧ paint_if fb P v s s'.

Lemma draws_same fb P v s s' : paint_if fb P v s s' → draws fb P v s fb s'.
Proof. intros H. split; [|done]. exists (dirty_region fb). by destruct fb. Qed.
Lemma draws_marked fb P v s s' x y w h : paint_if fb P v s s' → draws fb P v s (fb_mark_dirty x y w h fb) s'.
Proof. intros H. split; [|done]. unfold fb_mark_dirty. destruct (rw (dirty_region fb) =? 0); by eexists. Qed.

Definition small (z : Z) : Prop := - 2 ^ 20 ≤ z ≤ 2 ^ 20.

(** Case analysis on the minima and maxima of the code, then arithmetic on booleans. *)
Ltac clip_cases :=
  repeat match goal with
  | |- context [if ?a <? ?b then _ else _] => destruct (Z.ltb_spec a b)
  | H : context [if ?a <? ?b then _ else _] |- _ => destruct (Z.ltb_spec a b)
  end.
Ltac clip_lia := unfold in_clip, within in *; clip_cases; lia.

(** [gfx_rect]: the pixels of the rectangle in the clip rectangle, and only those. *)
Lemma gfx_rect_ok fb s x y w h color : has fb s → clip_in fb (g_clip_rect s) → small x → small y → 0 ≤ w ≤ 2 ^ 20 → 0 ≤ h ≤ 2 ^ 20 →
  wp (gfx_rect fb x y w h color) (draws fb (λ X Y, in_clip (g_clip_rect s) X Y && within x y (x + w) (y + h) X Y) (λ _ _, over color) s) never s.
Proof.
  intros Hs Hc Hx Hy Hw Hh. destruct (clip_bounds fb s Hs Hc) as (B1 & B2 & B3 & B4). unfold small in *.
  unfold gfx_rect. apply wp_bind. eapply wp_ok; [done|]. rewrite (i32_id w), (i32_id h), (i32_id (x + w)), (i32_id (y + h)) by lia.
  set (c := g_clip_rect s) in *. set (x1 := if rx c <? x then x else rx c). set (y1 := if ry c <? y then y else ry c).
  set (x2 := if x + w <? rx c + rw c then x + w else rx c + rw c). set (y2 := if y + h <? ry c + rh c then y + h else ry c + rh c).
  assert (∀ X Y, within x1 y1 x2 y2 X Y = in_clip c X Y && within x y (x + w) (y + h) X Y) as Hin by (intros X Y; subst x1 y1 x2 y2; clip_lia).
  destruct ((x2 <=? x1) || (y2 <=? y1)) eqn:E.
  { eapply wp_ok; [done|]. apply draws_same, paint_none; [done|]. intros X Y _. rewrite <- Hin. unfold within. lia. }
  assert (∀ X Y, y1 ≤ Y < y2 → x1 ≤ X < x2 → inside fb X Y) as Hi.
  { intros X Y HY HX. apply (clip_inside fb s); [done..|]. fold c. specialize (Hin X Y). unfold within in Hin at 1. lia. }
  apply wp_bind. eapply (wp_mono _ (λ _, paint_if fb (within x1 y1 x2 y2) (λ _ _, over color) s)); [|intros [] t Ht|done].
  - unfold over. destruct (chan 24 color =? 255); [|destruct (0 <? chan 24 color)].
    + apply box_paints; [done|]. intros Y X t g HY HX Ht. apply store_pixel; [by eapply paints_has|by apply Hi].
    + apply box_paints; [done|]. intros Y X t g HY HX Ht. apply blend_pixel; [by eapply paints_has|by apply Hi].
    + eapply wp_ok; [done|]. eapply paints_ext; [|by apply paints_id]. intros X Y _. by destruct (within x1 y1 x2 y2 X Y).
  - eapply wp_ok; [done|]. apply draws_marked. by apply (paint_if_ext _ (within x1 y1 x2 y2)).
Qed.

(** ** The square root *)

Lemma isqrt_step n x : 0 < n → 0 < x → Z.sqrt n ≤ x → Z.sqrt n ≤ (x + n / x) / 2 ∧ (Z.sqrt n < x → (x + n / x) / 2 - Z.sqrt n ≤ (x - Z.sqrt n) / 2).
Proof.
  intros Hn Hx Hs. pose proof (Z.sqrt_spec n ltac:(lia)) as [S1 S2]. set (q := Z.sqrt n) in *. split.
  - assert (2 * q - x ≤ n / x) by (apply Z.div_le_lower_bound; nia). apply Z.div_le_lower_bound; lia.
  - intros Hlt. assert (n / x ≤ q) by (apply Z.lt_succ_r, Z.div_lt_upper_bound; nia). apply Z.div_le_lower_bound; [lia|]. dlia.
Qed.

Lemma isqrt_loop_ok {S} n : 0 < n < 2 ^ 32 - 1 → ∀ fuel x (s : S), 0 < x ≤ n → Z.sqrt n ≤ x → x - Z.sqrt n < 2 ^ Z.of_nat fuel →
  isqrt_loop fuel n x (u32 (x + n / x) / 2) s = Ok (Z.sqrt n, s).
Proof.
  intros Hn. pose proof (Z.sqrt_spec n ltac:(lia)) as [S1 S2]. assert (0 < Z.sqrt n) as S0 by (apply Z.sqrt_pos; lia).
  assert (∀ x, 0 < x ≤ n → Z.sqrt n ≤ x → u32 (x + n / x) = x + n / x) as Hu.
  { intros x Hx Hq. apply u32_small. assert (0 ≤ n / x) by (apply Z.div_pos; lia). split; [lia|]. destruct (decide (x = 1)) as [->|]; [rewrite Z.div_1_r; nia|].
    assert (x * (n / x) ≤ n) by (apply Z.mul_div_le; lia). destruct (decide (x = n)) as [->|]; [rewrite Z.div_same by lia; lia|]. destruct (decide (n / x ≤ 1)); [lia|]. nia. }
  induction fuel as [|fuel IH]; intros x s Hx Hq Hd; pose proof (isqrt_step n x ltac:(lia) ltac:(lia) Hq) as [H1 H2]; cbn [isqrt_loop]; rewrite Hu by lia;
    (destruct (Z.ltb_spec ((x + n / x) / 2) x) as [Hl|Hl]; [|]).
  - change (2 ^ Z.of_nat 0) with 1 in Hd. lia.
  - unfold mret, M_ret. do 3 f_equal. change (2 ^ Z.of_nat 0) with 1 in Hd. lia.
  - destruct (Z.eqb_spec ((x + n / x) / 2) 0); [lia|]. apply IH; [lia|done|]. rewrite Nat2Z.inj_succ, Z.pow_succ_r in Hd by lia. specialize (H2 ltac:(lia)). dlia.
  - unfold mret, M_ret. do 3 f_equal. destruct (decide (x = Z.sqrt n)); [done|]. specialize (H2 ltac:(lia)). dlia.
Qed.

Lemma gfx_isqrt_ok {S} n (s : S) : 0 ≤ n < 2 ^ 32 - 1 → gfx_isqrt n s = Ok (Z.sqrt n, s).
Proof.
  intros Hn. unfold gfx_isqrt. destruct (Z.eqb_spec n 0) as [->|]; [done|]. assert (u32 (n + 1) = u32 (n + n / n)) as -> by (by rewrite Z.div_same).
  apply isqrt_loop_ok; [lia|lia| |].
  - apply Z.sqrt_le_lin. lia.
  - pose proof (Z.sqrt_nonneg n). change (2 ^ Z.of_nat 64) with (2 ^ 64). lia.
Qed.

(** ** Rounded corners *)

(** [(a, b)] lies outside the disc of radius [r] around the centre of a corner. *)
Definition cut (r a b : Z) : bool := r * r <? a * a + b * b.

(** The columns and rows of a [w] by [h] rectangle with rounded corners. *)
Definition rounded (w h r_tl r_tr r_br r_bl col row : Z) : bool :=
  negb ((row <? r_tl) && (col <? r_tl) && cut r_tl (r_tl - col) (r_tl - row)) &&
  negb ((h - r_bl <=? row) && (col <? r_bl) && cut r_bl (r_bl - col) (row - (h - r_bl))) &&
  (negb ((row <? r_tr) && (w - r_tr <=? col) && cut r_tr (col - (w - r_tr) + 1) (r_tr - row)) &&
   negb ((h - r_br <=? row) && (w - r_br <=? col) && cut r_br (col - (w - r_br) + 1) (row - (h - r_br)))).

Definition radius (r : Z) : Prop := 0 ≤ r ≤ 2 ^ 14.

Lemma sqrt_disc r b k : radius r → 0 ≤ b ≤ r → 0 ≤ k → (k ≤ Z.sqrt (r * r - b * b) ↔ k * k + b * b ≤ r * r).
Proof. intros Hr Hb Hk. unfold radius in Hr. rewrite <- Z.sqrt_le_square by nia. lia. Qed.

Lemma isqrt_disc {S} r b (s : S) : radius r → 0 ≤ b ≤ r → gfx_isqrt (u32 (r * r - b * b)) s = Ok (Z.sqrt (r * r - b * b), s) ∧
  0 ≤ Z.sqrt (r * r - b * b) ≤ r ∧ i32 (Z.sqrt (r * r - b * b)) = Z.sqrt (r * r - b * b).
Proof.
  intros Hr Hb. unfold radius in Hr. assert (0 ≤ r * r - b * b < 2 ^ 30) by nia. rewrite u32_small by lia. split; [apply gfx_isqrt_ok; lia|].
  pose proof (Z.sqrt_nonneg (r * r - b * b)). assert (Z.sqrt (r * r - b * b) ≤ r). { rewrite <- (Z.sqrt_square r) at 3 by lia. apply Z.sqrt_le_mono. nia. }
  split; [lia|]. apply i32_id. lia.
Qed.

Lemma left_edge_ok {S} h row r_tl r_bl (s : S) : 0 ≤ row < h → radius r_tl → radius r_bl → ∃ L, left_edge h row r_tl r_bl s = Ok (L, s) ∧ 0 ≤ L ≤ 2 ^ 14 ∧
  ∀ col, 0 ≤ col → (L <=? col) =
    negb ((row <? r_tl) && (col <? r_tl) && cut r_tl (r_tl - col) (r_tl - row)) &&
    negb ((h - r_bl <=? row) && (col <? r_bl) && cut r_bl (r_bl - col) (row - (h - r_bl))).
Proof.
  intros Hrow H1 H2. assert (∃ L, (if row <? r_tl then
    let oy := r_tl - row in q ← gfx_isqrt (u32 (r_tl * r_tl - oy * oy)); let xc := r_tl - i32 q in mret (if 0 <? xc then xc else 0)
    else mret 0) s = Ok (L, s) ∧ 0 ≤ L ≤ 2 ^ 14 ∧ ∀ col, 0 ≤ col → (L <=? col) = negb ((row <? r_tl) && (col <? r_tl) && cut r_tl (r_tl - col) (r_tl - row))) as (L & HL & BL & CL).
  { destruct (Z.ltb_spec row r_tl) as [Hr|Hr]; [|exists 0; split; [done|]; split; [lia|]; intros col Hc; cbn [andb negb]; lia].
    destruct (isqrt_disc r_tl (r_tl - row) s H1 ltac:(lia)) as (E & B & Ei). unfold radius in H1. cbv zeta. rewrite (bind_of_ok _ _ _ _ _ E), Ei. eexists. split; [reflexivity|]. split; [destruct (0 <? _); lia|].
    intros col Hc. cbn [andb]. apply eq_true_iff_eq. rewrite negb_true_iff. unfold cut. pose proof (sqrt_disc r_tl (r_tl - row) (r_tl - col) H1 ltac:(lia)) as Hd.
    destruct (Z.ltb_spec col r_tl); cbn [andb]; destruct (Z.ltb_spec 0 (r_tl - Z.sqrt (r_tl * r_tl - (r_tl - row) * (r_tl - row)))); rewrite Z.leb_le; [rewrite Z.ltb_ge; rewrite <- Hd by lia; lia|rewrite Z.ltb_ge; rewrite <- Hd by lia; lia|split; [done|lia]..]. }
  unfold left_edge. rewrite (bind_of_ok _ _ _ _ _ HL). destruct (Z.leb_spec (h - r_bl) row) as [Hr|Hr].
  - destruct (Z.ltb_spec 0 r_bl) as [Hp|Hp]; [|unfold radius in H2; lia]. cbn [andb].
    destruct (isqrt_disc r_bl (row - (h - r_bl)) s H2 ltac:(lia)) as (E & B & Ei). unfold radius in H2. rewrite (bind_of_ok _ _ _ _ _ E), Ei. eexists. split; [reflexivity|]. split; [destruct (L <? _); lia|].
    intros col Hc. rewrite <- (CL col Hc). apply eq_true_iff_eq. rewrite andb_true_iff, negb_true_iff. unfold cut. pose proof (sqrt_disc r_bl (row - (h - r_bl)) (r_bl - col) H2 ltac:(lia)) as Hd.
    destruct (Z.ltb_spec col r_bl); cbn [andb]; destruct (Z.ltb_spec L (r_bl - Z.sqrt (r_bl * r_bl - (row - (h - r_bl)) * (row - (h - r_bl))))); rewrite !Z.leb_le; [rewrite Z.ltb_ge; rewrite <- Hd by lia; lia|rewrite Z.ltb_ge; rewrite <- Hd by lia; lia|split; [|lia]; intros; split; [lia|done]|split; [|lia]; intros; split; [lia|done]].
  - rewrite andb_false_r. exists L. split; [done|]. split; [done|]. intros col Hc. cbn [andb negb]. by rewrite andb_true_r, CL.
Qed.

Lemma right_edge_ok {S} w h row r_tr r_br (s : S) : 0 ≤ row < h → radius r_tr → radius r_br → ∃ R, right_edge w h row r_tr r_br s = Ok (R, s) ∧ w - 2 ^ 14 ≤ R ≤ w ∧
  ∀ col, col < w → (col <? R) =
    negb ((row <? r_tr) && (w - r_tr <=? col) && cut r_tr (col - (w - r_tr) + 1) (r_tr - row)) &&
    negb ((h - r_br <=? row) && (w - r_br <=? col) && cut r_br (col - (w - r_br) + 1) (row - (h - r_br))).
Proof.
  intros Hrow H1 H2. assert (∃ R, (if row <? r_tr then
    let oy := r_tr - row in q ← gfx_isqrt (u32 (r_tr * r_tr - oy * oy)); let xc := w - r_tr + i32 q in mret (if xc <? w then xc else w)
    else mret w) s = Ok (R, s) ∧ w - 2 ^ 14 ≤ R ≤ w ∧ ∀ col, col < w → (col <? R) = negb ((row <? r_tr) && (w - r_tr <=? col) && cut r_tr (col - (w - r_tr) + 1) (r_tr - row))) as (R & HR & BR & CR).
  { destruct (Z.ltb_spec row r_tr) as [Hr|Hr]; [|exists w; split; [done|]; split; [lia|]; intros col Hc; cbn [andb negb]; lia].
    destruct (isqrt_disc r_tr (r_tr - row) s H1 ltac:(lia)) as (E & B & Ei). unfold radius in H1. cbv zeta. rewrite (bind_of_ok _ _ _ _ _ E), Ei. eexists. split; [reflexivity|]. split; [destruct (_ <? w); lia|].
    intros col Hc. cbn [andb]. apply eq_true_iff_eq. rewrite negb_true_iff. unfold cut. pose proof (sqrt_disc r_tr (r_tr - row) (col - (w - r_tr) + 1) H1 ltac:(lia)) as Hd.
    destruct (Z.leb_spec (w - r_tr) col); cbn [andb]; destruct (Z.ltb_spec (w - r_tr + Z.sqrt (r_tr * r_tr - (r_tr - row) * (r_tr - row))) w); rewrite Z.ltb_lt; [rewrite Z.ltb_ge; rewrite <- Hd by lia; lia|rewrite Z.ltb_ge; rewrite <- Hd by lia; lia|split; [done|lia]..]. }
  unfold right_edge. rewrite (bind_of_ok _ _ _ _ _ HR). destruct (Z.leb_spec (h - r_br) row) as [Hr|Hr].
  - destruct (Z.ltb_spec 0 r_br) as [Hp|Hp]; [|unfold radius in H2; lia]. cbn [andb].
    destruct (isqrt_disc r_br (row - (h - r_br)) s H2 ltac:(lia)) as (E & B & Ei). unfold radius in H2. rewrite (bind_of_ok _ _ _ _ _ E), Ei. eexists. split; [reflexivity|]. split; [destruct (_ <? R); lia|].
    intros col Hc. rewrite <- (CR col Hc). apply eq_true_iff_eq. rewrite andb_true_iff, negb_true_iff. unfold cut. pose proof (sqrt_disc r_br (row - (h - r_br)) (col - (w - r_br) + 1) H2 ltac:(lia)) as Hd.
    destruct (Z.leb_spec (w - r_br) col); cbn [andb]; destruct (Z.ltb_spec (w - r_br + Z.sqrt (r_br * r_br - (row - (h - r_br)) * (row - (h - r_br)))) R); rewrite !Z.ltb_lt; [rewrite Z.ltb_ge; rewrite <- Hd by lia; lia|rewrite Z.ltb_ge; rewrite <- Hd by lia; lia|split; [|lia]; intros; split; [lia|done]|split; [|lia]; intros; split; [lia|done]].
  - rewrite andb_false_r. exists R. split; [done|]. split; [done|]. intros col Hc. cbn [andb negb]. by rewrite andb_true_r, CR.
Qed.

(** The two edges of a row delimit the columns of the rounded rectangle. *)
Lemma edges_ok {S} w h row r_tl r_tr r_br r_bl (s : S) : 0 ≤ row < h → radius r_tl → radius r_tr → radius r_br → radius r_bl →
  ∃ L R, left_edge h row r_tl r_bl s = Ok (L, s) ∧ right_edge w h row r_tr r_br s = Ok (R, s) ∧ 0 ≤ L ≤ 2 ^ 14 ∧ w - 2 ^ 14 ≤ R ≤ w ∧
    ∀ col, ((0 <=? col) && (col <? w) && rounded w h r_tl r_tr r_br r_bl col row) = ((L <=? col) && (col <? R)).
Proof.
  intros Hrow H1 H2 H3 H4. destruct (left_edge_ok h row r_tl r_bl s Hrow H1 H4) as (L & EL & BL & CL).
  destruct (right_edge_ok w h row r_tr r_br s Hrow H2 H3) as (R & ER & BR & CR). exists L, R. do 4 (split; [done|]). intros col.
  destruct (Z.leb_spec 0 col) as [H0|H0]; [|cbn [andb]; destruct (Z.leb_spec L col); [lia|done]].
  destruct (Z.ltb_spec col w) as [Hw|Hw]; [|cbn [andb]; destruct (Z.ltb_spec col R); [lia|by rewrite andb_false_r]].
  unfold rounded. cbn [andb]. by rewrite CL, CR.
Qed.

(** [gfx_rect_rounded]: as [gfx_rect], without what the corners cut off. *)
Lemma gfx_rect_rounded_ok fb s x y w h color r_tl r_tr r_br r_bl : has fb s → clip_in fb (g_clip_rect s) → small x → small y → small w → small h →
  radius r_tl → radius r_tr → radius r_br → radius r_bl →
  wp (gfx_rect_rounded fb x y w h color r_tl r_tr r_br r_bl)
    (draws fb (λ X Y, in_clip (g_clip_rect s) X Y && (within x y (x + w) (y + h) X Y && rounded w h r_tl r_tr r_br r_bl (X - x) (Y - y))) (λ _ _, over color) s) never s.
Proof.
  intros Hs Hc Hx Hy Hw Hh R1 R2 R3 R4. destruct (clip_bounds fb s Hs Hc) as (B1 & B2 & B3 & B4). unfold small in *. pose proof (chan_range 24 color) as Ha.
  unfold gfx_rect_rounded. apply wp_bind. eapply wp_ok; [done|]. rewrite (i32_id (y + h)) by lia. set (c := g_clip_rect s) in *.
  destruct ((chan 24 color =? 0) || (w <=? 0) || (h <=? 0)) eqn:E0.
  { eapply wp_ok; [done|]. apply draws_same. destruct (Z.eqb_spec (chan 24 color) 0) as [Ea|Ea].
    - eapply paints_ext; [|by apply paints_id]. intros X Y _. unfold over. rewrite Ea. by destruct (_ && _).
    - apply paint_none; [done|]. intros X Y _. unfold within. lia. }
  set (fy0 := if ry c <? y then y else ry c). set (fy1 := if y + h <? ry c + rh c then y + h else ry c + rh c).
  destruct (Z.leb_spec fy1 fy0) as [Hf|Hf].
  { eapply wp_ok; [done|]. apply draws_same, paint_none; [done|]. intros X Y _. subst fy0 fy1. clip_lia. }
  apply wp_bind. eapply wp_mono; [apply (rows_paint fb (λ X Y, (rx c <=? X) && (X <? rx c + rw c) && ((0 <=? X - x) && (X - x <? w) && rounded w h r_tl r_tr r_br r_bl (X - x) (Y - y))) (λ _ _, over color)); [done|]|intros [] t Ht|done].
  - intros fy t g Hfy Ht. destruct (edges_ok w h (fy - y) r_tl r_tr r_br r_bl t) as (L & R & EL & ER & BL & BR & Hcol); [subst fy0 fy1; clip_lia|done..|].
    apply wp_bind. eapply wp_ok; [exact EL|]. apply wp_bind. eapply wp_ok; [exact ER|].
    set (fx0 := if x + L <? rx c then rx c else x + L). set (fx1 := if rx c + rw c <? x + R then rx c + rw c else x + R).
    assert (∀ X Y, (Y =? fy) && ((fx0 <=? X) && (X <? fx1)) =
      (Y =? fy) && ((rx c <=? X) && (X <? rx c + rw c) && ((0 <=? X - x) && (X - x <? w) && rounded w h r_tl r_tr r_br r_bl (X - x) (Y - y)))) as Hcols.
    { intros X Y. destruct (Z.eqb_spec Y fy) as [->|]; [|done]. rewrite Hcol. subst fx0 fx1. clip_lia. }
    assert (∀ X, fx0 ≤ X < fx1 → inside fb X fy) as Hin.
    { intros X HX. apply (clip_inside fb s); [done..|]. fold c. subst fx0 fx1 fy0 fy1. clip_lia. }
    destruct (Z.leb_spec fx1 fx0) as [Hfx|Hfx]; [eapply wp_ok; [done|]; apply paint_none; [by eapply paints_has|]; intros X Y _; rewrite <- Hcols; lia|].
    unfold over. destruct (Z.eqb_spec (chan 24 color) 255) as [Ea|Ea]; [|destruct (Z.ltb_spec 0 (chan 24 color)); [|lia]];
      (eapply wp_mono; [apply row_paints; [by eapply paints_has|]|intros [] t'; apply paint_if_ext; intros X Y _; apply Hcols|done]); intros X t' g' HX Ht'.
    + apply store_pixel; [by eapply paints_has|by apply Hin].
    + apply blend_pixel; [by eapply paints_has|by apply Hin].
  - eapply wp_ok; [done|]. apply draws_marked. eapply paint_if_ext; [|exact Ht]. intros X Y _. cbv beta. subst fy0 fy1. clip_lia.
Qed.

(** ** Copying *)

(** The surfaces of a copy: both there, and not the same. *)
Definition copies (dst src : fb_info) (s : gst) : Prop := has dst s ∧ has src s ∧ ptr dst ≠ ptr src.

Lemma copies_paint dst src g s t : copies dst src s → paints dst g s t → copies dst src t ∧ ∀ x y, pixel t src x y = pixel s src x y.
Proof.
  intros (H1 & (l & Hl & Hs) & Hne) (Hh & _ & Ho & _). assert (pixels t !! ptr src = pixels s !! ptr src) as E by (apply Ho; congruence). split.
  - split; [done|]. split; [|done]. exists l. by rewrite E.
  - intros x y. unfold pixel. by rewrite E.
Qed.

(** A row of [n] pixels from [(sx, sy)] of [src] to [(x, Y)] of [dst]. *)
Lemma memcpy_ok dst src s x Y sx sy n di si count : copies dst src s → 0 ≤ n →
  (∀ k, 0 ≤ k < n → inside dst (x + k) Y) → (∀ k, 0 ≤ k < n → inside src (sx + k) sy) →
  di = Y * (pitch dst / 4) + x → si = sy * (pitch src / 4) + sx → count = n * 4 →
  wp (memcpy (ptr dst) di (ptr src) si count)
    (λ _, paint_if dst (λ X y, (y =? Y) && ((x <=? X) && (X <? x + n))) (λ X _ _, pixel s src (X - x + sx) sy) s) never s.
Proof.
  intros Hc Hn Hd Hs -> -> ->. unfold memcpy. rewrite Z.div_mul by lia.
  eapply wp_mono; [apply (loop_paints dst (λ X _, X - x) (λ X y o, if y =? Y then pixel s src (X - x + sx) sy else o)); [apply Hc|]| |done].
  - intros k t g Hk Ht. destruct (copies_paint _ _ _ _ _ Hc Ht) as [(C1 & C2 & C3) Hpx]. apply wp_bind.
    eapply wp_ok; [apply (px_get_ok src t (sx + k) sy); [done|apply Hs; lia|lia]|]. eapply wp_mono; [apply (px_set_ok dst t (x + k) Y); [done|apply Hd; lia|lia]| |done].
    intros [] t'. apply paints_ext. intros X y _. rewrite Hpx. destruct (Z.eqb_spec X (x + k)), (Z.eqb_spec (X - x) k), (Z.eqb_spec y Y); try lia; try done. cbn [andb]. f_equal. lia.
  - intros [] t. apply paints_ext. intros X y _. replace ((0 <=? X - x) && (X - x <? 0 + Z.of_nat (Z.to_nat n))) with ((x <=? X) && (X <? x + n)) by lia. by destruct (_ && _), (y =? Y).
Qed.

Lemma index_in fb l x y : surface fb l → inside fb x y → 0 ≤ y * (pitch fb / 4) + x < 2 ^ 30.
Proof. intros [H1 H2 H3 H4] [Hx Hy]. nia. Qed.

(** The form the code has: the indices of the first pixels, the length in bytes. *)
Lemma copy_row_ok dst src s x Y sx sy n : copies dst src s → 0 < n →
  0 ≤ x → x + n ≤ width dst → 0 ≤ Y < height dst → 0 ≤ sx → sx + n ≤ width src → 0 ≤ sy < height src →
  wp (memcpy (ptr dst) (u32 (u32 Y * (pitch dst / 4) + u32 x)) (ptr src) (u32 (u32 sy * (pitch src / 4) + u32 sx)) (u32 (u32 n * 4)))
    (λ _, paint_if dst (λ X y, (y =? Y) && ((x <=? X) && (X <? x + n))) (λ X _ _, pixel s src (X - x + sx) sy) s) never s.
Proof.
  intros Hc Hn Hx Hxn HY Hsx Hsn Hsy. destruct (id Hc) as ((l & _ & [L1 L2 L3 L4]) & (l' & _ & [M1 M2 M3 M4]) & _).
  assert (u32 n = n) as En by (apply u32_small; lia). apply memcpy_ok; [done|lia|unfold inside; lia..|apply (pos_index dst l); [by split|unfold inside; lia]|apply (pos_index src l'); [by split|unfold inside; lia]|].
  rewrite En. apply u32_small. lia.
Qed.

(** [gfx_blit_rounded]: the pixels of [src] at [(dx, dy)], without the corners. *)
Lemma gfx_blit_rounded_ok dst src s dx dy r_tl r_tr r_br r_bl : copies dst src s → clip_in dst (g_clip_rect s) → small dx → small dy →
  radius r_tl → radius r_tr → radius r_br → radius r_bl →
  wp (gfx_blit_rounded dst dx dy src r_tl r_tr r_br r_bl)
    (draws dst (λ X Y, in_clip (g_clip_rect s) X Y && (within dx dy (dx + width src) (dy + height src) X Y && rounded (width src) (height src) r_tl r_tr r_br r_bl (X - dx) (Y - dy)))
      (λ X Y _, pixel s src (X - dx) (Y - dy)) s) never s.
Proof.
  intros Hc Hcl Hx Hy R1 R2 R3 R4. destruct (id Hc) as (Hd & (l' & _ & [M1 M2 M3 M4]) & _). destruct (clip_bounds dst s Hd Hcl) as (B1 & B2 & B3 & B4).
  destruct (id Hd) as (l & _ & [L1 L2 L3 L4]). destruct (id Hcl) as (C1 & C2 & C3 & C4 & C5 & C6). unfold small in *.
  unfold gfx_blit_rounded. apply wp_bind. eapply wp_ok; [done|]. set (c := g_clip_rect s) in *.
  rewrite (i32_id (width src)), (i32_id (height src)), (i32_id (width dst)), (i32_id (height dst)), (i32_id (dy + height src)) by lia. set (w := width src) in *. set (h := height src) in *.
  match goal with |- context [?fy1 <=? ?fy0] => set (y0 := fy0); set (y1 := fy1) end.
  assert (∀ Y, (y0 <=? Y) && (Y <? y1) = ((ry c <=? Y) && (Y <? ry c + rh c)) && ((dy <=? Y) && (Y <? dy + h))) as Hrows by (intros Y; subst y0 y1; clip_lia).
  destruct (Z.leb_spec y1 y0) as [Hf|Hf].
  { eapply wp_ok; [done|]. apply draws_same, paint_none; [done|]. intros X Y _. specialize (Hrows Y). clip_lia. }
  apply wp_bind. eapply wp_mono; [apply (rows_paint dst (λ X Y, (rx c <=? X) && (X <? rx c + rw c) && ((0 <=? X - dx) && (X - dx <? w) && rounded w h r_tl r_tr r_br r_bl (X - dx) (Y - dy))) (λ X Y _, pixel s src (X - dx) (Y - dy))); [done|]|intros [] t Ht|done].
  - intros fy t g Hfy Ht. destruct (copies_paint _ _ _ _ _ Hc Ht) as [Hct Hpx]. specialize (Hrows fy).
    destruct (edges_ok w h (fy - dy) r_tl r_tr r_br r_bl t) as (L & R & EL & ER & BL & BR & Hcol); [lia|done..|].
    apply wp_bind. eapply wp_ok; [exact EL|]. apply wp_bind. eapply wp_ok; [exact ER|].
    match goal with |- context [?fx1 <=? ?fx0] => set (x0 := fx0); set (x1 := fx1) end.
    assert (∀ X Y, (Y =? fy) && ((x0 <=? X) && (X <? x1)) =
      (Y =? fy) && ((rx c <=? X) && (X <? rx c + rw c) && ((0 <=? X - dx) && (X - dx <? w) && rounded w h r_tl r_tr r_br r_bl (X - dx) (Y - dy)))) as Hcols.
    { intros X Y. destruct (Z.eqb_spec Y fy) as [->|]; [|done]. rewrite Hcol. subst x0 x1. clip_lia. }
    destruct (Z.leb_spec x1 x0) as [Hfx|Hfx]; [eapply wp_ok; [done|]; apply paint_none; [by eapply paints_has|]; intros X Y _; rewrite <- Hcols; lia|].
    eapply wp_mono; [apply (copy_row_ok dst src t x0 fy (x0 - dx) (fy - dy) (x1 - x0)); [done|lia|subst x0 x1; clip_lia..]| |done].
    intros [] t' Ht'. eapply paint_if_ext; [intros X Y _; apply Hcols|]. eapply paints_ext; [|exact Ht']. intros X Y _. cbv beta. replace (x0 + (x1 - x0)) with x1 by lia.
    destruct (Z.eqb_spec Y fy) as [->|]; [|done]. cbn [andb]. rewrite Hpx. by replace (X - x0 + (x0 - dx)) with (X - dx) by lia.
  - eapply wp_ok; [done|]. apply draws_marked. eapply paint_if_ext; [|exact Ht]. intros X Y _. cbv beta. rewrite Hrows. clip_lia.
Qed.

(** ** Pixels, lines and text *)

Lemma clip_test fb s x y : has fb s → clip_in fb (g_clip_rect s) → - 2 ^ 31 ≤ x < 2 ^ 31 → - 2 ^ 31 ≤ y < 2 ^ 31 →
  outside_clip (g_clip_rect s) (u32 x) (u32 y) = negb (in_clip (g_clip_rect s) x y).
Proof.
  intros Hs Hc Hx Hy. destruct (clip_bounds fb s Hs Hc) as (B1 & B2 & B3 & B4). unfold outside_clip. rewrite !(u32_small (rx _)), !(u32_small (ry _)), !(u32_small (_ + _)) by lia.
  assert (∀ z, - 2 ^ 31 ≤ z < 2 ^ 31 → u32 z = z ∧ 0 ≤ z ∨ 2 ^ 31 ≤ u32 z ∧ z < 0) as Hu by (intros z Hz; unfold u32; dlia).
  unfold in_clip, within. destruct (Hu x Hx) as [[-> ?]|[? ?]], (Hu y Hy) as [[-> ?]|[? ?]]; lia.
Qed.

Lemma gfx_pixel_ok fb s x y color : has fb s → clip_in fb (g_clip_rect s) → - 2 ^ 31 ≤ x < 2 ^ 31 → - 2 ^ 31 ≤ y < 2 ^ 31 →
  wp (gfx_pixel fb (u32 x) (u32 y) color) (λ _, paint_if fb (λ X Y, (X =? x) && (Y =? y) && in_clip (g_clip_rect s) X Y) (λ _ _ _, color) s) never s.
Proof.
  intros Hs Hc Hx Hy. unfold gfx_pixel. apply wp_bind. eapply wp_ok; [done|]. rewrite (clip_test fb s) by done.
  destruct (in_clip (g_clip_rect s) x y) eqn:E; cbn [negb].
  - eapply wp_mono; [apply store_pixel; [done|by apply (clip_inside fb s)]| |done]. intros [] t. apply paint_if_ext. intros X Y _.
    destruct (Z.eqb_spec X x) as [->|], (Z.eqb_spec Y y) as [->|]; by rewrite ?E.
  - eapply wp_ok; [done|]. apply paint_none; [done|]. intros X Y _. destruct (Z.eqb_spec X x) as [->|], (Z.eqb_spec Y y) as [->|]; by rewrite ?E.
Qed.

(** Painting one set and then another with the same values. *)
Lemma paint_or fb P Q v s t u : (∀ x y o, v x y (v x y o) = v x y o) → paint_if fb P v s t → paint_if fb Q v t u → paint_if fb (λ x y, P x y || Q x y) v s u.
Proof.
  intros Hv H1 H2. eapply paints_ext; [|by eapply paints_trans]. intros x y _. cbv beta. destruct (P x y), (Q x y); cbn [orb]; by rewrite ?Hv.
Qed.

Lemma paint_clip fb P v s t : paint_if fb P v s t → g_clip_rect t = g_clip_rect s.
Proof. by intros (_ & H & _). Qed.

(** The pixel [(x, y)] is within half a pixel of the line of slope [dy / dx] in the
    direction it mostly runs in, [k] steps right and [j] steps down from its start. *)
Definition near (dx dy k j : Z) : bool :=
  if dy <=? dx then (- dx <=? 2 * (j * dx - k * dy)) && ((2 * (j * dx - k * dy) <? dx) || (dx =? 0))
  else (- dy <=? 2 * (k * dy - j * dx)) && (2 * (k * dy - j * dx) <? dy).

Definition line_set (x0 y0 sx sy dx dy lo : Z) (X Y : Z) : bool :=
  let k := (X - x0) * sx in let j := (Y - y0) * sy in
  (0 <=? k) && (k <=? dx) && (0 <=? j) && (j <=? dy) && near dx dy k j && (lo <=? (if dy <=? dx then k else j)).

Lemma near_unique dx dy k j k' j' : 0 ≤ dx → 0 ≤ dy → 0 < dx ∨ 0 < dy → near dx dy k j = true → near dx dy k' j' = true →
  (if dy <=? dx then k = k' else j = j') → k = k' ∧ j = j'.
Proof.
  unfold near. intros Hx Hy Hp H H'. destruct (Z.leb_spec dy dx); intros ->; (split; [|]); try done.
  - assert (- dx < (j - j') * dx < dx) by lia. nia.
  - assert (- dy < (k - k') * dy < dy) by lia. nia.
Qed.

Section line.
Context (fb : fb_info) (x0 y0 dx dy sx sy color : Z).
Context (Hdx : 0 ≤ dx ≤ 2 ^ 21) (Hdy : 0 ≤ dy ≤ 2 ^ 21) (Hsx : sx = 1 ∨ sx = -1) (Hsy : sy = 1 ∨ sy = -1) (Hx0 : small x0) (Hy0 : small y0).

(** One step of Bresenham's algorithm keeps near the line. *)
Lemma bresenham_step k j : 0 ≤ k ≤ dx → 0 ≤ j ≤ dy → near dx dy k j = true → (k ≠ dx ∨ j ≠ dy) →
  let err := (j + 1) * dx - (k + 1) * dy in
  ∃ k' j', k' = (if - dy <? 2 * err then k + 1 else k) ∧ j' = (if 2 * err <? dx then j + 1 else j) ∧
    0 ≤ k' ≤ dx ∧ 0 ≤ j' ≤ dy ∧ near dx dy k' j' = true ∧ (if dy <=? dx then k' = k + 1 else j' = j + 1).
Proof.
  intros Hk Hj Hn Hend err. subst err. unfold near in *. eexists _, _. split; [reflexivity|]. split; [reflexivity|].
  destruct (Z.leb_spec dy dx) as [Hd|Hd].
  - assert (0 < dx) by lia. assert (- dx ≤ 2 * (j * dx - k * dy) < dx) as Hb by lia. assert (k < dx) as Hk' by nia.
    assert (0 < 2 * ((j + 1) * dx - (k + 1) * dy) + dy) as Hs.
    { destruct (decide (dy = dx)) as [->|]; [assert (k ≤ j) by nia; nia|lia]. } destruct (Z.ltb_spec (- dy) (2 * ((j + 1) * dx - (k + 1) * dy))) as [_|]; [|lia].
    destruct (Z.ltb_spec (2 * ((j + 1) * dx - (k + 1) * dy)) dx) as [Hy|Hy]; (split; [lia|]).
    + assert (j < dy) by nia. split; [lia|]. split; [|done]. nia.
    + split; [lia|]. split; [|done]. nia.
  - assert (- dy ≤ 2 * (k * dy - j * dx) < dy) as Hb by lia. assert (j < dy) as Hj' by nia.
    assert (2 * ((j + 1) * dx - (k + 1) * dy) < dx) as Hs by nia. destruct (Z.ltb_spec (2 * ((j + 1) * dx - (k + 1) * dy)) dx) as [_|]; [|lia].
    destruct (Z.ltb_spec (- dy) (2 * ((j + 1) * dx - (k + 1) * dy))) as [Hy|Hy].
    + assert (k < dx) by nia. split; [lia|]. split; [lia|]. split; [|done]. nia.
    + split; [lia|]. split; [lia|]. split; [|done]. nia.
Qed.

Definition major (k j : Z) : Z := if dy <=? dx then k else j.

(** The points of the line from the current one on: it, and those behind it. *)
Lemma line_split k j X Y : 0 ≤ k ≤ dx → 0 ≤ j ≤ dy → near dx dy k j = true → 0 < dx ∨ 0 < dy →
  line_set x0 y0 sx sy dx dy (major k j) X Y = (X =? x0 + sx * k) && (Y =? y0 + sy * j) || line_set x0 y0 sx sy dx dy (major k j + 1) X Y.
Proof.
  intros Hk Hj Hn Hp. unfold line_set, major. set (k' := (X - x0) * sx). set (j' := (Y - y0) * sy).
  assert ((X =? x0 + sx * k) && (Y =? y0 + sy * j) = (k' =? k) && (j' =? j)) as -> by (subst k' j'; destruct Hsx as [-> | ->], Hsy as [-> | ->]; lia).
  pose proof (near_unique dx dy k j k' j' ltac:(lia) ltac:(lia) Hp Hn) as Hu. destruct (near dx dy k' j') eqn:E; [specialize (Hu eq_refl)|].
  - destruct (Z.leb_spec dy dx); lia.
  - destruct (Z.eqb_spec k' k) as [E1|], (Z.eqb_spec j' j) as [E2|]; try (rewrite ?andb_false_r; lia). rewrite E1, E2 in E. congruence.
Qed.

Lemma line_last X Y : line_set x0 y0 sx sy dx dy (major dx dy) X Y = (X =? x0 + sx * dx) && (Y =? y0 + sy * dy).
Proof.
  unfold line_set, major, near. set (k' := (X - x0) * sx). set (j' := (Y - y0) * sy).
  assert ((X =? x0 + sx * dx) && (Y =? y0 + sy * dy) = (k' =? dx) && (j' =? dy)) as -> by (subst k' j'; destruct Hsx as [-> | ->], Hsy as [-> | ->]; lia).
  destruct (Z.leb_spec dy dx).
  - destruct (Z.eqb_spec k' dx) as [->|]; [|lia]. destruct (Z.eqb_spec j' dy) as [->|]; [lia|]. assert (j' < dy → - dx <= 2 * (j' * dx - dx * dy) → dx = 0) by nia. lia.
  - destruct (Z.eqb_spec j' dy) as [->|]; [|lia]. destruct (Z.eqb_spec k' dx) as [->|]; [lia|]. assert (k' < dx → - dy <= 2 * (k' * dy - dy * dx) → dy = 0) by nia. lia.
Qed.

Lemma line_loop_ok fuel : ∀ k j s, has fb s → clip_in fb (g_clip_rect s) → 0 ≤ k ≤ dx → 0 ≤ j ≤ dy → near dx dy k j = true →
  Z.max dx dy - major k j ≤ Z.of_nat fuel →
  wp (line_loop fuel fb (x0 + sx * k) (y0 + sy * j) ((j + 1) * dx - (k + 1) * dy) dx dy sx sy (x0 + sx * dx) (y0 + sy * dy) color)
    (λ _, paint_if fb (λ X Y, line_set x0 y0 sx sy dx dy (major k j) X Y && in_clip (g_clip_rect s) X Y) (λ _ _ _, color) s) never s.
Proof.
  induction fuel as [|fuel IH]; intros k j s Hs Hc Hk Hj Hn Hf; cbn [line_loop]; apply wp_bind; unfold small in *;
    (eapply wp_mono; [apply gfx_pixel_ok; [done|done|destruct Hsx as [-> | ->]; lia|destruct Hsy as [-> | ->]; lia]|intros [] t Ht|done]);
    (assert ((x0 + sx * k =? x0 + sx * dx) && (y0 + sy * j =? y0 + sy * dy) = (k =? dx) && (j =? dy)) as -> by (destruct Hsx as [-> | ->], Hsy as [-> | ->]; lia));
    (destruct ((k =? dx) && (j =? dy)) eqn:E;
      [assert (k = dx ∧ j = dy) as [-> ->] by lia; eapply wp_ok; [done|]; eapply paint_if_ext; [|exact Ht]; intros X Y _; cbv beta; by rewrite line_last|]).
  - exfalso. unfold major, near in *. destruct (Z.leb_spec dy dx); nia.
  - destruct (bresenham_step k j Hk Hj Hn ltac:(lia)) as (k' & j' & Ek & Ej & Hk' & Hj' & Hn' & Hm). cbv zeta in Ek, Ej. cbv zeta.
    assert (major k' j' = major k j + 1) as Em by (unfold major; destruct (dy <=? dx); lia).
    assert (has fb t) as Hst by (by eapply paints_has). pose proof (paint_clip _ _ _ _ _ Ht) as Ect.
    assert (clip_in fb (g_clip_rect t)) as Hct by (by rewrite Ect).
    pose proof (IH k' j' t Hst Hct Hk' Hj' Hn' ltac:(lia)) as Hr.
    replace ((j' + 1) * dx - (k' + 1) * dy) with ((j + 1) * dx - (k + 1) * dy + (if 2 * ((j + 1) * dx - (k + 1) * dy) <? dx then dx else 0) - (if - dy <? 2 * ((j + 1) * dx - (k + 1) * dy) then dy else 0)) in Hr
      by (rewrite Ek, Ej; destruct (_ <? dx), (- dy <? _); lia).
    assert (x0 + sx * k' = if - dy <? 2 * ((j + 1) * dx - (k + 1) * dy) then x0 + sx * k + sx else x0 + sx * k) as Ex by (rewrite Ek; destruct (- dy <? _); lia).
    assert (y0 + sy * j' = if 2 * ((j + 1) * dx - (k + 1) * dy) <? dx then y0 + sy * j + sy else y0 + sy * j) as Ey by (rewrite Ej; destruct (_ <? dx); lia).
    rewrite Ex, Ey in Hr. clear Ek Ej Ex Ey IH. eapply (wp_mono _ (λ _, paint_if fb (λ X Y, line_set x0 y0 sx sy dx dy (major k' j') X Y && in_clip (g_clip_rect t) X Y) (λ _ _ _, color) t)); [|intros [] u Hu|done].
    + destruct (- dy <? 2 * ((j + 1) * dx - (k + 1) * dy)), (2 * ((j + 1) * dx - (k + 1) * dy) <? dx); cbn beta iota; rewrite ?Z.add_0_r, ?Z.sub_0_r in Hr; try exact Hr.
      replace ((j + 1) * dx - (k + 1) * dy - dy + dx) with ((j + 1) * dx - (k + 1) * dy + dx - dy) by lia. exact Hr.
    + eapply paint_if_ext; [|by eapply (paint_or fb _ _ (λ _ _ _, color))]. intros X Y _. cbv beta. rewrite Ect, Em, line_split by (done || lia). by rewrite andb_orb_distrib_l.
Qed.
End line.

Lemma gfx_line_ok fb s x0 y0 x1 y1 color fuel : has fb s → clip_in fb (g_clip_rect s) → small x0 → small y0 → small x1 → small y1 →
  Z.max (Z.abs (x1 - x0)) (Z.abs (y1 - y0)) ≤ Z.of_nat fuel →
  wp (gfx_line fuel fb x0 y0 x1 y1 color)
    (draws fb (λ X Y, line_set x0 y0 (if x0 <? x1 then 1 else -1) (if y0 <? y1 then 1 else -1) (Z.abs (x1 - x0)) (Z.abs (y1 - y0)) 0 X Y && in_clip (g_clip_rect s) X Y) (λ _ _ _, color) s) never s.
Proof.
  intros Hs Hc H1 H2 H3 H4 Hf. unfold small in *. unfold gfx_line.
  assert ((if x0 <? x1 then x1 - x0 else x0 - x1) = Z.abs (x1 - x0)) as -> by (destruct (Z.ltb_spec x0 x1); lia).
  assert ((if y0 <? y1 then y1 - y0 else y0 - y1) = Z.abs (y1 - y0)) as -> by (destruct (Z.ltb_spec y0 y1); lia).
  set (dx := Z.abs (x1 - x0)) in *. set (dy := Z.abs (y1 - y0)) in *. set (sx := if x0 <? x1 then 1 else -1). set (sy := if y0 <? y1 then 1 else -1).
  assert (sx = 1 ∨ sx = -1) as Hsx by (subst sx; destruct (x0 <? x1); auto). assert (sy = 1 ∨ sy = -1) as Hsy by (subst sy; destruct (y0 <? y1); auto).
  assert (x1 = x0 + sx * dx) as Ex by (subst sx dx; destruct (Z.ltb_spec x0 x1); lia). assert (y1 = y0 + sy * dy) as Ey by (subst sy dy; destruct (Z.ltb_spec y0 y1); lia).
  pose proof (line_loop_ok fb x0 y0 dx dy sx sy color ltac:(lia) ltac:(lia) Hsx Hsy H1 H2 fuel 0 0 s Hs Hc ltac:(lia) ltac:(lia)) as Hl.
  assert (near dx dy 0 0 = true) as Hn by (unfold near; destruct (Z.leb_spec dy dx); lia). specialize (Hl Hn). unfold major in Hl. replace (if dy <=? dx then 0 else 0) with 0 in Hl by (by destruct (dy <=? dx)).
  specialize (Hl ltac:(lia)). rewrite !Z.mul_0_r, !Z.add_0_r, !Z.add_0_l, !Z.mul_1_l, <- Ex, <- Ey in Hl.
  apply wp_bind. eapply wp_mono; [exact Hl| |done]. intros [] t Ht. eapply wp_ok; [done|]. by apply draws_marked.
Qed.

(** ** Copies of whole surfaces and of parts *)

(** [for (uint row = 0; row < h; row++)] over the rows [dy], [dy + 1], ... *)
Lemma shifted_rows_paint fb P v dy n body s : has fb s →
  (∀ r t g, 0 ≤ r < Z.of_nat n → paints fb g s t → wp (body r) (λ _, paint_if fb (λ x y, (y - dy =? r) && P x y) v t) never t) →
  wp (for_range n 0 body) (λ _, paint_if fb (λ x y, (dy <=? y) && (y <? dy + Z.of_nat n) && P x y) v s) never s.
Proof.
  intros Hs Hb. eapply wp_mono; [apply (loop_paints fb (λ _ y, y - dy) (λ x y o, if P x y then v x y o else o)); [done|]| |done].
  - intros r t g Hr Ht. eapply wp_mono; [eapply Hb; [lia|done]| |done]. intros [] t'. apply paints_ext. intros x y _. by destruct (y - dy =? r).
  - intros [] t. apply paints_ext. intros x y _. replace ((0 <=? y - dy) && (y - dy <? 0 + Z.of_nat n)) with ((dy <=? y) && (y <? dy + Z.of_nat n)) by lia. by destruct (_ && _).
Qed.

(** A copied row, read as a part of the copy of a surface shifted by [(ox, oy)]. *)
Lemma copy_shifted_ok dst src s t x Y n ox oy (P : Z → Z → bool) : copies dst src t → (∀ a b, pixel t src a b = pixel s src a b) → 0 < n →
  0 ≤ x → x + n ≤ width dst → 0 ≤ Y < height dst → 0 ≤ x - ox → x - ox + n ≤ width src → 0 ≤ Y - oy < height src →
  (∀ X, P X Y = (x <=? X) && (X <? x + n)) →
  wp (memcpy (ptr dst) (u32 (u32 Y * (pitch dst / 4) + u32 x)) (ptr src) (u32 (u32 (Y - oy) * (pitch src / 4) + u32 (x - ox))) (u32 (u32 n * 4)))
    (λ _, paint_if dst (λ X y, (y =? Y) && P X y) (λ X y _, pixel s src (X - ox) (y - oy)) t) never t.
Proof.
  intros Hc Hpx Hn Hx Hxn HY Hsx Hsn Hsy HP. eapply wp_mono; [by apply (copy_row_ok dst src t x Y (x - ox) (Y - oy) n)| |done].
  intros [] u. apply paints_ext. intros X y _. destruct (Z.eqb_spec y Y) as [->|]; [|done]. cbn [andb]. rewrite HP, Hpx. by replace (X - x + (x - ox)) with (X - ox) by lia.
Qed.

Lemma gfx_blit_ok dst src s dx dy : copies dst src s → clip_in dst (g_clip_rect s) → small dx → small dy →
  wp (gfx_blit dst dx dy src)
    (λ _, paint_if dst (λ X Y, in_clip (g_clip_rect s) X Y && within dx dy (dx + width src) (dy + height src) X Y) (λ X Y _, pixel s src (X - dx) (Y - dy)) s) never s.
Proof.
  intros Hc Hcl Hx Hy. destruct (id Hc) as (Hd & (l' & _ & [M1 M2 M3 M4]) & _). destruct (clip_bounds dst s Hd Hcl) as (B1 & B2 & B3 & B4).
  destruct (id Hd) as (l & _ & [L1 L2 L3 L4]). destruct (id Hcl) as (C1 & C2 & C3 & C4 & C5 & C6). unfold small in *.
  unfold gfx_blit. apply wp_bind. eapply wp_ok; [done|]. set (c := g_clip_rect s) in *.
  rewrite (i32_id (width src)), (i32_id (height src)), (i32_id (width dst)), (i32_id (height dst)), (i32_id (dx + width src)), (i32_id (dy + height src)) by lia.
  set (X1 := Z.min (dx + width src) (rx c + rw c)). set (Y1 := Z.min (dy + height src) (ry c + rh c)). set (X0 := Z.max dx (rx c)). set (Y0 := Z.max dy (ry c)).
  assert ((if dx <? rx c then (rx c - dx, rx c) else (0, dx)) = (X0 - dx, X0)) as -> by (subst X0; destruct (Z.ltb_spec dx (rx c)); f_equal; lia).
  assert ((if dy <? ry c then (ry c - dy, ry c) else (0, dy)) = (Y0 - dy, Y0)) as -> by (subst Y0; destruct (Z.ltb_spec dy (ry c)); f_equal; lia).
  cbv beta iota zeta. rewrite (proj2 (Z.ltb_ge X0 0)), (proj2 (Z.ltb_ge Y0 0)) by lia. cbv beta iota.
  match goal with |- context [?b <=? X0] => replace b with X1 by (subst X1; clip_cases; lia) end. match goal with |- context [?b <=? Y0] => replace b with Y1 by (subst Y1; clip_cases; lia) end.
  destruct ((X1 <=? X0) || (Y1 <=? Y0)) eqn:E.
  { eapply wp_ok; [done|]. apply paint_none; [done|]. intros X Y _. subst X0 X1 Y0 Y1. clip_lia. }
  rewrite (u32_small (Y1 - Y0)) by lia.
  eapply wp_mono; [apply (shifted_rows_paint dst (λ X _, (X0 <=? X) && (X <? X1)) (λ X Y _, pixel s src (X - dx) (Y - dy)) Y0); [done|]|intros [] t|done].
  - intros r t g Hr Ht. destruct (copies_paint _ _ _ _ _ Hc Ht) as [Hct Hpx]. rewrite (u32_small (Y0 + r)), (u32_small (Y0 - dy + r)) by lia.
    pose proof (copy_shifted_ok dst src s t X0 (Y0 + r) (X1 - X0) dx dy (λ X _, (X0 <=? X) && (X <? X1)) Hct Hpx) as Hcp.
    rewrite (u32_small (Y0 + r)), (u32_small (Y0 + r - dy)) in Hcp by lia. replace (Y0 - dy + r) with (Y0 + r - dy) by lia.
    eapply wp_mono; [apply Hcp; lia|intros [] u; apply paint_if_ext; intros; lia|done].
  - apply paint_if_ext. intros X Y _. subst X0 X1 Y0 Y1. clip_lia.
Qed.

(** A part of a surface that does not start behind its end. *)
Definition part (src : fb_info) (sx sy sw sh : Z) : Prop :=
  small sx ∧ small sy ∧ 0 ≤ sw ≤ 2 ^ 20 ∧ 0 ≤ sh ≤ 2 ^ 20 ∧ 0 ≤ sx + sw ∧ sx ≤ width src ∧ 0 ≤ sy + sh ∧ sy ≤ height src.

Lemma clip_source_ok src l dx dy sx sy sw sh : surface src l → part src sx sy sw sh → small dx → small dy →
  clip_source src dx dy sx sy sw sh =
    (dx - Z.min sx 0, dy - Z.min sy 0, Z.max sx 0, Z.max sy 0, Z.min (sx + sw) (width src) - Z.max sx 0, Z.min (sy + sh) (height src) - Z.max sy 0).
Proof.
  intros [M1 M2 M3 M4] (P1 & P2 & P3 & P4 & P5 & P6 & P7 & P8) Hx Hy. unfold small in *. unfold clip_source.
  assert ((if sx <? 0 then (dx - sx, u32 (sw + sx), 0) else (dx, sw, sx)) = (dx - Z.min sx 0, sx + sw - Z.max sx 0, Z.max sx 0)) as ->
    by (destruct (Z.ltb_spec sx 0); rewrite ?u32_small by lia; repeat f_equal; lia).
  assert ((if sy <? 0 then (dy - sy, u32 (sh + sy), 0) else (dy, sh, sy)) = (dy - Z.min sy 0, sy + sh - Z.max sy 0, Z.max sy 0)) as ->
    by (destruct (Z.ltb_spec sy 0); rewrite ?u32_small by lia; repeat f_equal; lia).
  cbv beta iota zeta. rewrite !(u32_small (Z.max _ _ + _)), !(u32_small (_ - Z.max _ _)) by lia. f_equal; [f_equal|]; clip_cases; lia.
Qed.

Lemma gfx_blit_region_ok dst src s dx dy sx sy sw sh : copies dst src s → clip_in dst (g_clip_rect s) → small dx → small dy → part src sx sy sw sh →
  wp (gfx_blit_region dst dx dy src sx sy sw sh)
    (λ _, paint_if dst (λ X Y, in_clip (g_clip_rect s) X Y && (within dx dy (dx + sw) (dy + sh) X Y && within 0 0 (width src) (height src) (X - dx + sx) (Y - dy + sy)))
      (λ X Y _, pixel s src (X - (dx - sx)) (Y - (dy - sy))) s) never s.
Proof.
  intros Hc Hcl Hx Hy Hp. destruct (id Hc) as (Hd & (l' & _ & Hsf) & _). destruct (clip_bounds dst s Hd Hcl) as (B1 & B2 & B3 & B4).
  destruct (id Hd) as (l & _ & [L1 L2 L3 L4]). destruct (id Hcl) as (C1 & C2 & C3 & C4 & C5 & C6).
  unfold gfx_blit_region. apply wp_bind. eapply wp_ok; [done|]. rewrite (clip_source_ok src l') by done. set (c := g_clip_rect s) in *.
  destruct Hsf as [M1 M2 M3 M4], Hp as (P1 & P2 & P3 & P4 & P5 & P6 & P7 & P8). unfold small in *. cbv beta iota zeta.
  set (dx' := dx - Z.min sx 0). set (dy' := dy - Z.min sy 0). set (sx' := Z.max sx 0). set (sy' := Z.max sy 0).
  set (w := Z.min (sx + sw) (width src) - sx'). set (h := Z.min (sy + sh) (height src) - sy').
  rewrite (i32_id w), (i32_id (width dst)) by lia. set (col0 := if dx' <? rx c then rx c - dx' else 0).
  assert (∀ z, - 2 ^ 22 ≤ z ≤ 2 ^ 22 → i32 (dx' + z) = dx' + z) as Hi by (intros z Hz; apply i32_id; lia). rewrite (Hi w) by lia.
  set (col1 := if rx c + rw c <? dx' + w then rx c + rw c - dx' else w). rewrite (Hi col1) by (subst col1; clip_cases; lia).
  assert ((if width dst <? dx' + col1 then width dst - dx' else col1) = col1) as -> by (subst col1; clip_cases; lia).
  destruct (Z.leb_spec col1 col0) as [Hf|Hf].
  { eapply wp_ok; [done|]. apply paint_none; [done|]. intros X Y _. subst col0 col1. clip_lia. }
  eapply wp_mono; [apply (shifted_rows_paint dst (λ X Y, in_clip c X Y && within (dx' + col0) dy' (dx' + col1) (dy' + h) X Y) (λ X Y _, pixel s src (X - (dx - sx)) (Y - (dy - sy))) dy'); [done|]|intros [] t|done].
  - intros r t g Hr Ht. destruct (copies_paint _ _ _ _ _ Hc Ht) as [Hct Hpx]. rewrite (i32_id r), (i32_id (dy' + r)) by lia.
    destruct (((dy' + r <? 0) || (height dst <=? u32 (dy' + r))) || (dy' + r <? ry c) || (ry c + rh c <=? dy' + r)) eqn:E.
    { eapply wp_ok; [done|]. apply paint_none; [by eapply paints_has|]. intros X Y _. destruct (Z.ltb_spec (dy' + r) 0); [unfold in_clip, within; lia|]. rewrite u32_small in E by lia. unfold in_clip, within. lia. }
    assert (ry c ≤ dy' + r < ry c + rh c) as Hr' by lia.
    pose proof (copy_shifted_ok dst src s t (dx' + col0) (dy' + r) (col1 - col0) (dx - sx) (dy - sy) (λ X y, in_clip c X y && within (dx' + col0) dy' (dx' + col1) (dy' + h) X y) Hct Hpx) as Hcp.
    replace (u32 (u32 (sy' + r) * (pitch src / 4) + u32 sx' + u32 col0)) with (u32 (u32 (dy' + r - (dy - sy)) * (pitch src / 4) + u32 (dx' + col0 - (dx - sx)))).
    + eapply wp_mono; [apply Hcp; try (subst col0 col1; clip_cases; lia); intros X; subst col0 col1; clip_lia|intros [] u; apply paint_if_ext; intros; f_equal; lia|done].
    + f_equal. rewrite (u32_small (dx' + col0 - (dx - sx))), (u32_small sx'), (u32_small col0) by (subst col0; clip_cases; lia). replace (dy' + r - (dy - sy)) with (sy' + r) by lia. lia.
  - apply paint_if_ext. intros X Y _. subst col0 col1. clip_lia.
Qed.

Lemma gfx_blit_region_rounded4_ok dst src s dx dy sx sy sw sh r_tl r_tr r_br r_bl : copies dst src s → clip_in dst (g_clip_rect s) → small dx → small dy → part src sx sy sw sh →
  radius r_tl → radius r_tr → radius r_br → radius r_bl →
  wp (gfx_blit_region_rounded4 dst dx dy src sx sy sw sh r_tl r_tr r_br r_bl)
    (λ _, paint_if dst (λ X Y, in_clip (g_clip_rect s) X Y && (within dx dy (dx + sw) (dy + sh) X Y && within 0 0 (width src) (height src) (X - (dx - sx)) (Y - (dy - sy)) &&
        rounded (width src) (height src) r_tl r_tr r_br r_bl (X - (dx - sx)) (Y - (dy - sy))))
      (λ X Y _, pixel s src (X - (dx - sx)) (Y - (dy - sy))) s) never s.
Proof.
  intros Hc Hcl Hx Hy Hp R1 R2 R3 R4. destruct (id Hc) as (Hd & (l' & _ & Hsf) & _). destruct (clip_bounds dst s Hd Hcl) as (B1 & B2 & B3 & B4).
  destruct (id Hd) as (l & _ & [L1 L2 L3 L4]). destruct (id Hcl) as (C1 & C2 & C3 & C4 & C5 & C6).
  unfold gfx_blit_region_rounded4. apply wp_bind. eapply wp_ok; [done|]. rewrite (clip_source_ok src l') by done. set (c := g_clip_rect s) in *.
  destruct Hsf as [M1 M2 M3 M4], Hp as (P1 & P2 & P3 & P4 & P5 & P6 & P7 & P8). unfold small in *. cbv beta iota zeta.
  set (dx' := dx - Z.min sx 0). set (dy' := dy - Z.min sy 0). set (sx' := Z.max sx 0). set (sy' := Z.max sy 0).
  set (w := Z.min (sx + sw) (width src) - sx'). set (h := Z.min (sy + sh) (height src) - sy').
  rewrite (i32_id w), (i32_id (width src)), (i32_id (height src)), (i32_id (width dst)) by lia. set (W := width src) in *. set (H := height src) in *.
  set (mask := λ X Y, rounded W H r_tl r_tr r_br r_bl (X - (dx - sx)) (Y - (dy - sy))).
  set (P := λ X Y, in_clip c X Y && ((dx' <=? X) && (X <? dx' + w) && ((0 <=? X - (dx - sx)) && (X - (dx - sx) <? W) && mask X Y))).
  eapply wp_mono; [apply (shifted_rows_paint dst P (λ X Y _, pixel s src (X - (dx - sx)) (Y - (dy - sy))) dy'); [done|]|intros [] t|done].
  - intros r t g Hr Ht. destruct (copies_paint _ _ _ _ _ Hc Ht) as [Hct Hpx]. rewrite !(i32_id r) by lia.
    destruct (edges_ok W H (sy' + r) r_tl r_tr r_br r_bl t) as (L & R & EL & ER & BL & BR & Hcol); [lia|done..|].
    apply wp_bind. eapply wp_ok; [exact EL|]. apply wp_bind. eapply wp_ok; [exact ER|].
    set (i0 := if L - sx' <? 0 then 0 else L - sx'). set (i1 := if w <? R - sx' then w else R - sx').
    assert (∀ X, P X (dy' + r) = in_clip c X (dy' + r) && ((dx' + i0 <=? X) && (X <? dx' + i1))) as HP.
    { intros X. unfold P, mask. replace (dy' + r - (dy - sy)) with (sy' + r) by lia. rewrite Hcol. unfold in_clip, within. subst i0 i1. clip_cases; lia. }
    assert (∀ X Y, (Y - dy' =? r) && P X Y = (Y =? dy' + r) && P X Y) as HP' by (intros; f_equal; lia).
    assert (0 ≤ i0 ∧ i1 ≤ w ∧ L ≤ sx' + i0 ∧ sx' + i1 ≤ R) as (I1 & I2 & I3 & I4) by (subst i0 i1; clip_cases; lia). clearbody i0 i1 P.
    destruct (Z.leb_spec i1 i0) as [Hf|Hf].
    { eapply wp_ok; [done|]. apply paint_none; [by eapply paints_has|]. intros X Y _. rewrite HP'. destruct (Z.eqb_spec Y (dy' + r)) as [->|]; [|done]. rewrite HP. lia. }
    destruct (((dy' + r <? 0) || (height dst <=? u32 (dy' + r))) || (dy' + r <? ry c) || (ry c + rh c <=? dy' + r)) eqn:E.
    { eapply wp_ok; [done|]. apply paint_none; [by eapply paints_has|]. intros X Y _. rewrite HP'. destruct (Z.eqb_spec Y (dy' + r)) as [->|]; [|done]. rewrite HP.
      destruct (Z.ltb_spec (dy' + r) 0); [unfold in_clip, within; lia|]. rewrite u32_small in E by lia. unfold in_clip, within. lia. }
    match goal with |- context [?b <=? ?a] => set (x0 := a); set (x1 := b) end.
    assert (∀ X, P X (dy' + r) = (x0 <=? X) && (X <? x1)) as HX by (intros X; rewrite HP; subst x0 x1; clip_lia).
    destruct (Z.leb_spec x1 x0) as [Hx1|Hx1].
    { eapply wp_ok; [done|]. apply paint_none; [by eapply paints_has|]. intros X Y _. rewrite HP'. destruct (Z.eqb_spec Y (dy' + r)) as [->|]; [|done]. rewrite HX. lia. }
    assert (0 ≤ x0 ∧ x1 ≤ width dst ∧ dx' + i0 ≤ x0 ∧ x1 ≤ dx' + i1) as (J1 & J2 & J3 & J4) by (subst x0 x1; clip_cases; lia). clearbody x0 x1.
    pose proof (copy_shifted_ok dst src s t x0 (dy' + r) (x1 - x0) (dx - sx) (dy - sy) P Hct Hpx) as Hcp.
    replace (u32 (sx' + (x0 - dx'))) with (u32 (x0 - (dx - sx))) by (f_equal; lia). replace (sy' + r) with (dy' + r - (dy - sy)) by lia.
    eapply wp_mono; [apply Hcp; try lia; intros X; rewrite HX; f_equal; lia|intros [] u; apply paint_if_ext; intros; by rewrite HP'|done].
  - apply paint_if_ext. intros X Y _. unfold P. fold (mask X Y). destruct (mask X Y); [|by rewrite !andb_false_r]. rewrite !andb_true_r. unfold in_clip, within. lia.
Qed.

(** The whole clip rectangle in one colour. *)
Lemma gfx_fill_ok fb s color : has fb s → clip_in fb (g_clip_rect s) →
  wp (gfx_fill fb color) (draws fb (in_clip (g_clip_rect s)) (λ _ _ _, color) s) never s.
Proof.
  intros Hs Hc. unfold gfx_fill. apply wp_bind. eapply wp_ok; [done|]. apply wp_bind. eapply wp_mono; [apply (box_paints fb (λ _ _ _, color)); [done|]|intros [] t Ht|done].
  - intros Y X t g HY HX Ht. apply store_pixel; [by eapply paints_has|]. apply (clip_inside fb s); [done..|]. unfold in_clip, within. lia.
  - eapply wp_ok; [done|]. by apply draws_marked.
Qed.

(** ** Text *)

Definition glyph_bit (c col row : Z) : bool := truthy (Z.land (nth (Z.to_nat row) (glyph_of c) 0) (Z.shiftl 1 (7 - col))).

Definition char_set (px py c X Y : Z) : bool := within px py (px + 8) (py + 16) X Y && glyph_bit c (X - px) (Y - py).

Lemma gfx_putc_ok fb s px py c fg : has fb s → clip_in fb (g_clip_rect s) → small px → small py →
  wp (gfx_putc fb px py c fg) (draws fb (λ X Y, in_clip (g_clip_rect s) X Y && char_set px py c X Y) (λ _ _ _, fg) s) never s.
Proof.
  intros Hs Hc Hx Hy. unfold small in *. unfold gfx_putc. apply wp_bind.
  eapply wp_mono; [apply (shifted_rows_paint fb (λ X Y, in_clip (g_clip_rect s) X Y && ((px <=? X) && (X <? px + 8) && glyph_bit c (X - px) (Y - py))) (λ _ _ _, fg) py); [done|]|intros [] t Ht|done].
  - intros row t g Hrow Ht. change (Z.of_nat (Z.to_nat FONT_GLYPH_HEIGHT)) with 16 in Hrow.
    eapply wp_mono; [apply (loop_paints fb (λ X _, X - px) (λ X Y o, if (Y =? py + row) && in_clip (g_clip_rect s) X Y && glyph_bit c (X - px) (Y - py) then fg else o)); [by eapply paints_has|]|intros [] u|done].
    + intros col u g' Hcol Hu. change (Z.of_nat (Z.to_nat FONT_GLYPH_WIDTH)) with 8 in Hcol. assert (has fb u) as Hsu by (by eapply paints_has).
      assert (g_clip_rect u = g_clip_rect s) as Ec by (destruct Ht as (_ & E1 & _), Hu as (_ & E2 & _); congruence). fold (glyph_bit c col row).
      destruct (glyph_bit c col row) eqn:E; unfold when; cbv beta iota.
      * eapply wp_mono; [apply gfx_pixel_ok; [done|by rewrite Ec|lia|lia]|intros [] u'|done]. apply paints_ext. intros X Y _. rewrite Ec.
        destruct (Z.eqb_spec (X - px) col) as [<-|]; [|destruct (Z.eqb_spec X (px + col)); [lia|done]]. destruct (Z.eqb_spec X (px + (X - px))); [|lia].
        destruct (Z.eqb_spec Y (py + row)) as [->|]; [|done]. replace (py + row - py) with row by lia. rewrite E. cbn [andb]. by destruct (in_clip _ X (py + row)).
      * eapply wp_ok; [done|]. eapply paints_ext; [|by apply paints_id]. intros X Y _. cbv beta. destruct (Z.eqb_spec (X - px) col) as [<-|]; [|done].
        destruct (Z.eqb_spec Y (py + row)) as [->|]; [|done]. replace (py + row - py) with row by lia. rewrite E. by rewrite andb_false_r.
    + apply paints_ext. intros X Y _. change (Z.of_nat (Z.to_nat FONT_GLYPH_WIDTH)) with 8.
      replace ((Y - py =? row) && (in_clip (g_clip_rect s) X Y && ((px <=? X) && (X <? px + 8) && glyph_bit c (X - px) (Y - py))))
        with ((0 <=? X - px) && (X - px <? 0 + 8) && ((Y =? py + row) && in_clip (g_clip_rect s) X Y && glyph_bit c (X - px) (Y - py))).
      * by destruct ((0 <=? X - px) && (X - px <? 0 + 8)).
      * destruct (glyph_bit c (X - px) (Y - py)), (in_clip (g_clip_rect s) X Y); lia.
  - eapply wp_ok; [done|]. assert (paint_if fb (λ X Y, in_clip (g_clip_rect s) X Y && char_set px py c X Y) (λ _ _ _, fg) s t) as Ht'.
    { eapply paint_if_ext; [|exact Ht]. intros X Y _. cbv beta. change (Z.of_nat (Z.to_nat FONT_GLYPH_HEIGHT)) with 16. unfold char_set, within. destruct (glyph_bit c (X - px) (Y - py)), (in_clip (g_clip_rect s) X Y); lia. }
    destruct (_ && _); [by apply draws_marked|by apply draws_same].
Qed.

(** The characters of [s] side by side. *)
Fixpoint text_set (x y : Z) (s : list Z) (X Y : Z) : bool :=
  match s with [] => false | c :: s' => char_set x y c X Y || text_set (x + 8) y s' X Y end.

(** The dirty region says nothing about the pixels. *)
Lemma has_dirty r fb s : has (set_dirty r fb) s ↔ has fb s.
Proof. split; intros (l & Hl & [H1 H2 H3 H4]); exists l; (split; [done|by split]). Qed.
Lemma paint_dirty r fb P v s t : paint_if (set_dirty r fb) P v s t ↔ paint_if fb P v s t.
Proof. unfold paint_if, paints. by rewrite has_dirty. Qed.

Lemma draws_trans fb P Q v s fb1 t fb2 u : (∀ x y o, v x y (v x y o) = v x y o) → draws fb P v s fb1 t → draws fb1 Q v t fb2 u → draws fb (λ x y, P x y || Q x y) v s fb2 u.
Proof. intros Hv [[r ->] H1] [[r' ->] H2]. pose proof (proj1 (paint_dirty r fb Q v t u) H2) as H3. split; [by exists r'|]. exact (paint_or fb P Q v s t u Hv H1 H3). Qed.

Lemma str_loop_ok y fg str : ∀ fb x s, has fb s → clip_in fb (g_clip_rect s) → small x → small (x + 8 * Z.of_nat (length str)) → small y →
  wp (str_loop fb x y str fg) (λ r t, r.1 = x + 8 * Z.of_nat (length str) ∧ draws fb (λ X Y, in_clip (g_clip_rect s) X Y && text_set x y str X Y) (λ _ _ _, fg) s r.2 t) never s.
Proof.
  induction str as [|c str IH]; intros fb x s Hs Hc Hx Hx' Hy; cbn [str_loop text_set].
  - eapply wp_ok; [done|]. cbn. split; [lia|]. apply draws_same, paint_none; [done|]. intros X Y _. by rewrite andb_false_r.
  - unfold small in *. cbn [length] in Hx'. apply wp_bind. eapply wp_mono; [by apply gfx_putc_ok|intros fb' t Ht|done]. destruct (id Ht) as [[r ->] Hp].
    pose proof (paint_clip _ _ _ _ _ Hp) as Ec. eapply wp_mono; [apply (IH (set_dirty r fb) (x + 8) t); [apply has_dirty; by eapply paints_has|by rewrite Ec|unfold small; lia..]| |done].
    intros [x' fb'] u [E Hu]. cbn [fst snd] in *. split; [cbn [length]; lia|]. destruct (draws_trans fb _ _ (λ _ _ _, fg) s _ t _ u ltac:(done) Ht Hu) as [Hr Hp'].
    split; [done|]. eapply paint_if_ext; [|exact Hp']. intros X Y _. cbv beta. rewrite Ec. by rewrite andb_orb_distrib_r.
Qed.

Lemma gfx_str_ok fb s x y str fg : has fb s → clip_in fb (g_clip_rect s) → small x → small (x + 8 * Z.of_nat (length str)) → small y →
  wp (gfx_str fb x y str fg) (draws fb (λ X Y, in_clip (g_clip_rect s) X Y && text_set x y str X Y) (λ _ _ _, fg) s) never s.
Proof.
  intros Hs Hc Hx Hx' Hy. unfold gfx_str. apply wp_bind. eapply wp_mono; [by apply str_loop_ok|intros [x' fb'] t [_ [[r E] Ht]]|done]. cbn [fst snd] in *. subst fb'. eapply wp_ok; [done|].
  destruct (_ && _); [|split; [by eexists|done]]. split; [|done]. unfold fb_mark_dirty. destruct (rw _ =? 0); by eexists.
Qed.

(** ** Images *)

Lemma gfx_pixel_blend_ok fb s x y color : has fb s → clip_in fb (g_clip_rect s) → - 2 ^ 31 ≤ x < 2 ^ 31 → - 2 ^ 31 ≤ y < 2 ^ 31 →
  wp (gfx_pixel_blend fb (u32 x) (u32 y) color) (λ _, paint_if fb (λ X Y, (X =? x) && (Y =? y) && in_clip (g_clip_rect s) X Y) (λ _ _, over color) s) never s.
Proof.
  intros Hs Hc Hx Hy. unfold gfx_pixel_blend. apply wp_bind. eapply wp_ok; [done|]. rewrite (clip_test fb s) by done. pose proof (chan_range 24 color) as Hch.
  assert (∀ P v t, in_clip (g_clip_rect s) x y = true → paint_if fb (λ X Y, (X =? x) && (Y =? y)) v s t → (∀ X Y o, v X Y o = over color o) → P = (λ X Y, (X =? x) && (Y =? y) && in_clip (g_clip_rect s) X Y) → paint_if fb P (λ _ _, over color) s t) as Hst.
  { intros P v t E Ht Hv ->. eapply paints_ext; [|exact Ht]. intros X Y _. cbv beta. rewrite Hv. destruct (Z.eqb_spec X x) as [->|], (Z.eqb_spec Y y) as [->|]; by rewrite ?E. }
  destruct (in_clip (g_clip_rect s) x y) eqn:E; cbn [negb].
  2: { eapply wp_ok; [done|]. apply paint_none; [done|]. intros X Y _. destruct (Z.eqb_spec X x) as [->|], (Z.eqb_spec Y y) as [->|]; by rewrite ?E. }
  assert (inside fb x y) as Hi by (by apply (clip_inside fb s)).
  destruct (Z.eqb_spec (chan 24 color) 0) as [E0|E0]; [|destruct (Z.eqb_spec (chan 24 color) 255) as [E1|E1]].
  - eapply wp_ok; [done|]. eapply paints_ext; [|by apply paints_id]. intros X Y _. unfold over. rewrite E0. cbn. by destruct (_ && _).
  - eapply wp_mono; [by apply store_pixel|intros [] t Ht|done]. apply (Hst _ _ t eq_refl Ht); [|done]. intros X Y o. unfold over. by rewrite E1.
  - eapply wp_mono; [by apply blend_pixel|intros [] t Ht|done]. apply (Hst _ _ t eq_refl Ht); [|done]. intros X Y o. unfold over.
    destruct (Z.eqb_spec (chan 24 color) 255), (Z.ltb_spec 0 (chan 24 color)); first [done|lia].
Qed.

Definition image_ok (img : bitmap) : Prop := 0 ≤ b_width img ≤ 2 ^ 14 ∧ 0 ≤ b_height img ≤ 2 ^ 14 ∧ Z.of_nat (length (b_data img)) = b_width img * b_height img.

Definition image_at (img : bitmap) (col row : Z) : Z := nth (Z.to_nat (row * b_width img + col)) (b_data img) 0.

Lemma image_read {S} img col row (s : S) : image_ok img → 0 ≤ col < b_width img → 0 ≤ row < b_height img →
  of_option (b_data img !! Z.to_nat (u32 (row * b_width img + col))) s = Ok (image_at img col row, s).
Proof.
  intros (H1 & H2 & H3) Hc Hr. rewrite u32_small by nia. unfold image_at.
  destruct (lookup_lt_is_Some_2 (b_data img) (Z.to_nat (row * b_width img + col))) as [v Hv]; [nia|]. rewrite Hv. by rewrite (nth_lookup_Some _ _ _ _ Hv).
Qed.

(** Scaled: which pixel of the image each pixel shows is computed in single precision. *)
Definition samples_ok (n size : Z) : Prop := ∀ k, 0 ≤ k < n → 0 ≤ sample k n size < size.

Definition scaled_at (img : bitmap) (w h col row : Z) : Z := image_at img (sample col w (b_width img)) (sample row h (b_height img)).

Ltac on_if := match goal with |- (if ?b then _ else _) = _ => destruct b eqn:? end.

(** An unsigned loop that starts left of zero stops at once or stays left of it. *)
Lemma gfx_imgs_ok fb s x y w h img : has fb s → clip_in fb (g_clip_rect s) → small x → small y → 0 ≤ w ≤ 2 ^ 14 → 0 ≤ h ≤ 2 ^ 14 →
  image_ok img → samples_ok w (b_width img) → samples_ok h (b_height img) →
  wp (gfx_imgs fb (u32 x) (u32 y) w h img)
    (λ _, paint_if fb (λ X Y, in_clip (g_clip_rect s) X Y && ((0 <=? x) && (0 <=? y) && within x y (x + w) (y + h) X Y)) (λ X Y, over (scaled_at img w h (X - x) (Y - y))) s) never s.
Proof.
  intros Hs Hc Hx Hy Hw Hh Him Sw Sh. destruct (clip_bounds fb s Hs Hc) as (B1 & B2 & B3 & B4). unfold small in *. unfold gfx_imgs, for_uint.
  assert (∀ z n, - 2 ^ 20 ≤ z ≤ 2 ^ 20 → 0 ≤ n ≤ 2 ^ 14 → Z.to_nat (u32 (u32 z + n) - u32 z) = (if (z <? 0) && (0 <=? z + n) then 0%nat else Z.to_nat n)) as Hcount.
  { intros z n Hz Hn. destruct (Z.ltb_spec z 0); cbn [andb]; [|rewrite (u32_small z), u32_small by lia; lia]. unfold u32. destruct (Z.leb_spec 0 (z + n)); dlia. }
  rewrite !Hcount by lia. assert (∀ z, - 2 ^ 21 ≤ z ≤ 2 ^ 21 → u32 z = if z <? 0 then z + 2 ^ 32 else z) as Hu by (intros z Hz; unfold u32; destruct (Z.ltb_spec z 0); dlia).
  set (P := λ X Y, in_clip (g_clip_rect s) X Y && ((0 <=? x) && (0 <=? y) && within x y (x + w) (y + h) X Y)).
  destruct ((y <? 0) && (0 <=? y + h)) eqn:Ey; [eapply wp_ok; [done|]; apply paint_none; [done|]; intros X Y _; unfold P, in_clip, within; lia|].
  assert (∀ r i, 0 ≤ r < h → 0 ≤ i < w → ∀ t g, paints fb g s t →
    wp (p ← of_option (b_data img !! Z.to_nat (u32 (sample r h (b_height img) * b_width img + sample i w (b_width img)))); gfx_pixel_blend fb (u32 (x + i)) (u32 (y + r)) p)
      (λ _, paint_if fb (λ X Y, (X =? x + i) && (Y =? y + r) && in_clip (g_clip_rect s) X Y) (λ X Y, over (scaled_at img w h (X - x) (Y - y))) t) never t) as Hpix.
  { intros r i Hr Hi t g Ht. assert (g_clip_rect t = g_clip_rect s) as Ec by (by destruct Ht as (_ & ? & _)). apply wp_bind. eapply wp_ok; [apply image_read; [done|by apply Sw|by apply Sh]|].
    eapply wp_mono; [apply gfx_pixel_blend_ok; [by eapply paints_has|by rewrite Ec|lia|lia]|intros [] u|done]. rewrite Ec. apply paints_ext. intros X Y _.
    destruct (Z.eqb_spec X (x + i)) as [->|], (Z.eqb_spec Y (y + r)) as [->|]; try done. unfold scaled_at. by replace (x + i - x) with i by lia; replace (y + r - y) with r by lia. }
  assert (∀ z n k, - 2 ^ 20 ≤ z ≤ 2 ^ 20 → (z <? 0) && (0 <=? z + n) = false → 0 ≤ k < n → n ≤ 2 ^ 14 → u32 z + k = u32 (z + k)) as Hadd.
  { intros z n k Hz E Hk Hn. rewrite (Hu z), (Hu (z + k)) by lia. destruct (Z.ltb_spec z 0), (Z.ltb_spec (z + k) 0); lia. }
  eapply wp_mono; [apply (loop_paints fb (λ _ Y, Y - y + u32 y) (λ X Y o, if P X Y then over (scaled_at img w h (X - x) (Y - y)) o else o)); [done|]|intros [] t|done].
  - intros i t g Hi Ht. assert (∃ r, i = u32 y + r) as [r ->] by (exists (i - u32 y); lia). replace (u32 y + r - u32 y) with r by lia.
    destruct ((x <? 0) && (0 <=? x + w)) eqn:Ex.
    { eapply wp_ok; [done|]. eapply paints_ext; [|apply paints_id; by eapply paints_has]. intros X Y _. cbv beta. destruct (_ =? _); [|done]. replace (P X Y) with false; [done|]. unfold P. lia. }
    eapply wp_mono; [apply (loop_paints fb (λ X _, X - x + u32 x) (λ X Y o, if (Y =? y + r) && P X Y then over (scaled_at img w h (X - x) (Y - y)) o else o)); [by eapply paints_has|]|intros [] u|done].
    + intros j u g' Hj Hu'. assert (∃ c, j = u32 x + c) as [c ->] by (exists (j - u32 x); lia). replace (u32 x + c - u32 x) with c by lia.
      rewrite (Hadd x w c), (Hadd y h r) by lia. eapply wp_mono; [eapply (Hpix r c ltac:(lia) ltac:(lia)); by eapply paints_trans|intros [] u'|done].
      apply paints_ext. intros X Y _. replace (X - x + u32 x =? u32 (x + c)) with (X =? x + c) by (rewrite <- (Hadd x w c) by lia; lia).
      destruct (Z.eqb_spec X (x + c)) as [->|]; [|done]. destruct (Z.eqb_spec Y (y + r)) as [->|]; [|done]. cbn [andb]. replace (P (x + c) (y + r)) with (in_clip (g_clip_rect s) (x + c) (y + r)); [done|].
      unfold P, in_clip, within. lia.
    + apply paints_ext. intros X Y _. replace (Y - y + u32 y =? u32 y + r) with (Y =? y + r) by lia. destruct (Z.eqb_spec Y (y + r)) as [->|]; cbn [andb].
      * destruct (P X (y + r)) eqn:EP; [|by on_if]. on_if; [done|]. exfalso. clear Hpix. unfold P, within in EP. lia.
      * by on_if.
  - apply paints_ext. intros X Y _. destruct (P X Y) eqn:EP; [|by on_if]. on_if; [done|]. exfalso. clear Hpix. unfold P, within in EP. lia.
Qed.

(** ** Rectangles *)

Definition rect_ok (r : rect) : Prop := - 2 ^ 15 ≤ rx r < 2 ^ 15 ∧ - 2 ^ 15 ≤ ry r < 2 ^ 15 ∧ 0 ≤ rw r < 2 ^ 16 ∧ 0 ≤ rh r < 2 ^ 16.

Definition covers (r : rect) (X Y : Z) : bool := within (rx r) (ry r) (rx r + rw r) (ry r + rh r) X Y.

Lemma rect_intersect_ok a b : rect_ok a → rect_ok b → rect_ok (rect_intersect a b) ∧ ∀ X Y, covers (rect_intersect a b) X Y = covers a X Y && covers b X Y.
Proof.
  intros (A1 & A2 & A3 & A4) (B1 & B2 & B3 & B4). unfold rect_intersect.
  set (x1 := if rx b <? rx a then rx a else rx b). set (y1 := if ry b <? ry a then ry a else ry b).
  set (x2 := if rx a + rw a <? rx b + rw b then rx a + rw a else rx b + rw b). set (y2 := if ry a + rh a <? ry b + rh b then ry a + rh a else ry b + rh b).
  assert (∀ X Y, covers a X Y && covers b X Y = within x1 y1 x2 y2 X Y) as Hc by (intros X Y; unfold covers; subst x1 y1 x2 y2; clip_lia).
  assert (x1 = rx a ∨ x1 = rx b) as H1 by (subst x1; clip_cases; auto). assert (y1 = ry a ∨ y1 = ry b) as H2 by (subst y1; clip_cases; auto).
  assert (x2 - x1 < 2 ^ 16 ∧ y2 - y1 < 2 ^ 16) as [H3 H4] by (subst x1 y1 x2 y2; clip_cases; lia).
  destruct ((x2 <=? x1) || (y2 <=? y1)) eqn:E.
  - split; [unfold rect_ok; cbn; lia|]. intros X Y. rewrite Hc. unfold covers, within. cbn [rx ry rw rh]. lia.
  - rewrite !i16_id, !u16_small by lia. split; [unfold rect_ok; cbn [rx ry rw rh]; lia|]. intros X Y. rewrite Hc. unfold covers, within. cbn [rx ry rw rh]. lia.
Qed.

(** The union is the smallest rectangle around both, as long as it is less than 65536 wide and high. *)
Definition spans (a b : rect) : Prop :=
  Z.max (rx a + rw a) (rx b + rw b) - Z.min (rx a) (rx b) < 2 ^ 16 ∧ Z.max (ry a + rh a) (ry b + rh b) - Z.min (ry a) (ry b) < 2 ^ 16.

Lemma rect_union_ok a b : rect_ok a → rect_ok b → spans a b → rect_ok (rect_union a b) ∧ (∀ X Y, covers a X Y || covers b X Y = true → covers (rect_union a b) X Y = true) ∧
  (rw a ≠ 0 → rw b ≠ 0 → rect_union a b = mkRect (Z.min (rx a) (rx b)) (Z.min (ry a) (ry b))
    (Z.max (rx a + rw a) (rx b + rw b) - Z.min (rx a) (rx b)) (Z.max (ry a + rh a) (ry b + rh b) - Z.min (ry a) (ry b))).
Proof.
  intros (A1 & A2 & A3 & A4) (B1 & B2 & B3 & B4) [S1 S2]. unfold rect_union.
  destruct (Z.eqb_spec (rw a) 0); [split; [by split|]; split; [|done]; intros X Y; unfold covers, within; lia|].
  destruct (Z.eqb_spec (rw b) 0); [split; [by split|]; split; [|done]; intros X Y; unfold covers, within; lia|].
  match goal with |- rect_ok ?r ∧ _ => assert (r = mkRect (Z.min (rx a) (rx b)) (Z.min (ry a) (ry b))
    (Z.max (rx a + rw a) (rx b + rw b) - Z.min (rx a) (rx b)) (Z.max (ry a + rh a) (ry b + rh b) - Z.min (ry a) (ry b))) as -> end.
  { assert (∀ p q, (if q <? p then p else q) = Z.max p q) as Hmax by (intros; clip_cases; lia). assert (∀ p q, (if p <? q then p else q) = Z.min p q) as Hmin by (intros; clip_cases; lia).
    rewrite !Hmax, !Hmin, !(u32_small (_ - _)), !u16_small by lia. done. }
  split; [unfold rect_ok; cbn [rx ry rw rh]; lia|]. split; [|done]. intros X Y. unfold covers, within. cbn [rx ry rw rh]. lia.
Qed.

(** A clip rectangle that starts in the surface is cut off at its edges. *)
Lemma gfx_set_clip_ok fb s rc : has fb s → rect_ok rc → 0 ≤ rx rc ≤ width fb → 0 ≤ ry rc ≤ height fb →
  ∃ c, gfx_set_clip fb rc s = Ok (tt, set_clip c s) ∧ clip_in fb c ∧ ∀ X Y, in_clip c X Y = covers rc X Y && within 0 0 (width fb) (height fb) X Y.
Proof.
  intros (l & _ & [H1 H2 H3 H4]) (R1 & R2 & R3 & R4) Hx Hy. unfold gfx_set_clip. eexists. split; [reflexivity|].
  assert (∀ v hi, 0 ≤ v < 2 ^ 16 → 0 ≤ hi < 2 ^ 16 → clamp_int v hi = Z.min v hi) as Hcl.
  { intros v hi Hv Hhi. unfold clamp_int. rewrite (u32_small v) by lia. destruct (Z.ltb_spec v 0), (Z.ltb_spec hi v); lia. }
  rewrite !(u32_small (_ - _)), !Hcl, !i16_id, !u16_small by lia. split; [unfold clip_in; cbn [rx ry rw rh]; lia|]. intros X Y. unfold in_clip, covers, within. cbn [rx ry rw rh]. lia.
Qed.

(** One that starts left of it is not: the clip rectangle reaches behind the right edge. *)
Lemma gfx_set_clip_left fb s rc : has fb s → rect_ok rc → rx rc < 0 → 0 ≤ ry rc ≤ height fb → width fb < rw rc ≤ width fb - rx rc → 
  ∃ c, gfx_set_clip fb rc s = Ok (tt, set_clip c s) ∧ rx c = 0 ∧ rw c = rw rc.
Proof.
  intros (l & _ & [H1 H2 H3 H4]) (R1 & R2 & R3 & R4) Hx Hy Hw. unfold gfx_set_clip. eexists. split; [reflexivity|]. cbn [rx rw]. unfold clamp_int.
  rewrite (proj2 (Z.ltb_lt (rx rc) 0)) by lia. split; [done|]. rewrite (u32_small (width fb - rx rc)), (u32_small (rw rc)) by lia. rewrite (proj2 (Z.ltb_ge (rw rc) 0)), (proj2 (Z.ltb_ge _ (rw rc))) by lia.
  by rewrite u16_small by lia.
Qed.
End Gfx.
