(* ===== verification/Picture.v ===== *)
(** * Pictures ([user/lib/gfx.h])

    Sequences of drawing operations on one surface.  Their meaning is the
    painter's: every pixel of the clip rectangle carries the operations that
    cover it in the order they were drawn, every other pixel stays. *)
From Stdlib Require Import ZifyBool.
From S2P Require Import Prelude Font Gfx.

Module Picture.
Import Gfx.

(** ** Operations *)

Inductive op :=
| Fill (color : Z)
| Rect (x y w h color : Z)
| Rounded (x y w h color r_tl r_tr r_br r_bl : Z)
| Line (x0 y0 x1 y1 color : Z)
| Str (x y : Z) (s : list Z) (fg : Z)
| Img (x y w h : Z) (img : bitmap)
| Blit (dx dy : Z) (src : fb_info)
| Region (dx dy : Z) (src : fb_info) (sx sy sw sh : Z)
| BlitRounded (dx dy : Z) (src : fb_info) (r_tl r_tr r_br r_bl : Z)
| RegionRounded (dx dy : Z) (src : fb_info) (sx sy sw sh r_tl r_tr r_br r_bl : Z).

Definition draw (o : op) (fb : fb_info) : M gst fb_info :=
  match o with
  | Fill color => gfx_fill fb color
  | Rect x y w h color => gfx_rect fb x y w h color
  | Rounded x y w h color r_tl r_tr r_br r_bl => gfx_rect_rounded fb x y w h color r_tl r_tr r_br r_bl
  | Line x0 y0 x1 y1 color => gfx_line (Z.to_nat (Z.max (Z.abs (x1 - x0)) (Z.abs (y1 - y0)))) fb x0 y0 x1 y1 color
  | Str x y s fg => gfx_str fb x y s fg
  | Img x y w h img => gfx_imgs fb (u32 x) (u32 y) w h img ;; mret fb
  | Blit dx dy src => gfx_blit fb dx dy src ;; mret fb
  | Region dx dy src sx sy sw sh => gfx_blit_region fb dx dy src sx sy sw sh ;; mret fb
  | BlitRounded dx dy src r_tl r_tr r_br r_bl => gfx_blit_rounded fb dx dy src r_tl r_tr r_br r_bl
  | RegionRounded dx dy src sx sy sw sh r_tl r_tr r_br r_bl => gfx_blit_region_rounded4 fb dx dy src sx sy sw sh r_tl r_tr r_br r_bl ;; mret fb
  end.

Fixpoint draw_all (l : list op) (fb : fb_info) : M gst fb_info :=
  match l with [] => mret fb | o :: l' => fb ← draw o fb; draw_all l' fb end.

(** ** Their meaning *)

(** The pixels of an operation. *)
Definition shape (o : op) (X Y : Z) : bool :=
  match o with
  | Fill _ => true
  | Rect x y w h _ => within x y (x + w) (y + h) X Y
  | Rounded x y w h _ r_tl r_tr r_br r_bl => within x y (x + w) (y + h) X Y && rounded w h r_tl r_tr r_br r_bl (X - x) (Y - y)
  | Line x0 y0 x1 y1 _ => line_set x0 y0 (if x0 <? x1 then 1 else -1) (if y0 <? y1 then 1 else -1) (Z.abs (x1 - x0)) (Z.abs (y1 - y0)) 0 X Y
  | Str x y s _ => text_set x y s X Y
  | Img x y w h _ => (0 <=? x) && (0 <=? y) && within x y (x + w) (y + h) X Y
  | Blit dx dy src => within dx dy (dx + width src) (dy + height src) X Y
  | Region dx dy src sx sy sw sh => within dx dy (dx + sw) (dy + sh) X Y && within 0 0 (width src) (height src) (X - dx + sx) (Y - dy + sy)
  | BlitRounded dx dy src r_tl r_tr r_br r_bl =>
      within dx dy (dx + width src) (dy + height src) X Y && rounded (width src) (height src) r_tl r_tr r_br r_bl (X - dx) (Y - dy)
  | RegionRounded dx dy src sx sy sw sh r_tl r_tr r_br r_bl =>
      within dx dy (dx + sw) (dy + sh) X Y && within 0 0 (width src) (height src) (X - (dx - sx)) (Y - (dy - sy)) &&
      rounded (width src) (height src) r_tl r_tr r_br r_bl (X - (dx - sx)) (Y - (dy - sy))
  end.

(** What it puts there over [o]. *)
Definition ink (s : gst) (p : op) (X Y o : Z) : Z :=
  match p with
  | Fill color | Line _ _ _ _ color | Str _ _ _ color => color
  | Rect _ _ _ _ color | Rounded _ _ _ _ color _ _ _ _ => over color o
  | Img x y w h img => over (scaled_at img w h (X - x) (Y - y)) o
  | Blit dx dy src | BlitRounded dx dy src _ _ _ _ => pixel s src (X - dx) (Y - dy)
  | Region dx dy src sx sy _ _ | RegionRounded dx dy src sx sy _ _ _ _ _ _ => pixel s src (X - (dx - sx)) (Y - (dy - sy))
  end.

Definition apply (s : gst) (X Y o : Z) (p : op) : Z := if shape p X Y then ink s p X Y o else o.
Definition picture (s : gst) (l : list op) (X Y o : Z) : Z := fold_left (apply s X Y) l o.

(** Coordinates of less than 2^20, radii of at most 2^14, sources that are surfaces of their own. *)
Definition source (fb src : fb_info) (s : gst) : Prop := has src s ∧ ptr fb ≠ ptr src.
Definition radii (a b c d : Z) : Prop := radius a ∧ radius b ∧ radius c ∧ radius d.
Definition op_ok (fb : fb_info) (s : gst) (o : op) : Prop :=
  match o with
  | Fill _ => True
  | Rect x y w h _ => small x ∧ small y ∧ 0 ≤ w ≤ 2 ^ 20 ∧ 0 ≤ h ≤ 2 ^ 20
  | Rounded x y w h _ r_tl r_tr r_br r_bl => small x ∧ small y ∧ small w ∧ small h ∧ radii r_tl r_tr r_br r_bl
  | Line x0 y0 x1 y1 _ => small x0 ∧ small y0 ∧ small x1 ∧ small y1
  | Str x y l _ => small x ∧ small y ∧ small (x + 8 * Z.of_nat (length l))
  | Img x y w h img => small x ∧ small y ∧ 0 ≤ w ≤ 2 ^ 14 ∧ 0 ≤ h ≤ 2 ^ 14 ∧ image_ok img ∧ samples_ok w (b_width img) ∧ samples_ok h (b_height img)
  | Blit dx dy src => small dx ∧ small dy ∧ source fb src s
  | Region dx dy src sx sy sw sh => small dx ∧ small dy ∧ source fb src s ∧ part src sx sy sw sh
  | BlitRounded dx dy src r_tl r_tr r_br r_bl => small dx ∧ small dy ∧ source fb src s ∧ radii r_tl r_tr r_br r_bl
  | RegionRounded dx dy src sx sy sw sh r_tl r_tr r_br r_bl => small dx ∧ small dy ∧ source fb src s ∧ part src sx sy sw sh ∧ radii r_tl r_tr r_br r_bl
  end.

(** ** One operation *)

Lemma draws_unit fb P v s (m : M gst unit) : wp m (λ _, paint_if fb P v s) never s → wp (m ;; mret fb) (draws fb P v s) never s.
Proof. intros H. apply wp_bind. eapply wp_mono; [exact H|intros [] t Ht|done]. eapply wp_ok; [done|]. by apply draws_same. Qed.

Lemma draw_ok fb s o : has fb s → clip_in fb (g_clip_rect s) → op_ok fb s o →
  wp (draw o fb) (draws fb (λ X Y, in_clip (g_clip_rect s) X Y && shape o X Y) (ink s o) s) never s.
Proof.
  intros Hs Hc Ho. destruct o as [color|x y w h color|x y w h color a b c d|x0 y0 x1 y1 color|x y l fg|x y w h img|dx dy src|dx dy src sx sy sw sh|dx dy src a b c d|dx dy src sx sy sw sh a b c d];
    cbn [op_ok draw shape ink] in *; unfold source, radii in *; destruct_and?.
  - eapply wp_mono; [by apply gfx_fill_ok|intros fb' t [Hr Ht]|done]. split; [done|]. eapply paint_if_ext; [|exact Ht]. intros X Y _. cbn [shape]. by rewrite andb_true_r.
  - by apply gfx_rect_ok.
  - by apply gfx_rect_rounded_ok.
  - eapply wp_mono; [apply gfx_line_ok; [done..|lia]|intros fb' t [Hr Ht]|done]. split; [done|]. eapply paint_if_ext; [|exact Ht]. intros X Y _. cbv beta. cbn [shape]. by rewrite andb_comm.
  - by apply gfx_str_ok.
  - by apply draws_unit, gfx_imgs_ok.
  - by apply draws_unit, gfx_blit_ok.
  - by apply draws_unit, gfx_blit_region_ok.
  - by apply gfx_blit_rounded_ok.
  - by apply draws_unit, gfx_blit_region_rounded4_ok.
Qed.

(** ** Sequences *)

(** Painting on a surface keeps the others. *)
Lemma source_paint fb src g s t : paints fb g s t → source fb src s → source fb src t ∧ ∀ x y, pixel t src x y = pixel s src x y.
Proof.
  intros (_ & _ & Ho & _) [(l & Hl & Hs) Hne]. assert (pixels t !! ptr src = pixels s !! ptr src) as E by (apply Ho; congruence). split.
  - split; [|done]. exists l. by rewrite E.
  - intros x y. unfold pixel. by rewrite E.
Qed.

Lemma op_ok_paint fb g s t o : paints fb g s t → op_ok fb s o → op_ok fb t o.
Proof. intros Ht. destruct o; cbn [op_ok]; intros; destruct_and?; split_and?; try done; by eapply source_paint. Qed.

Lemma op_ok_dirty fb r s o : op_ok (set_dirty r fb) s o ↔ op_ok fb s o.
Proof. by destruct o. Qed.

Lemma ink_paint fb g s t o X Y z : paints fb g s t → op_ok fb s o → ink t o X Y z = ink s o X Y z.
Proof. intros Ht. destruct o; cbn [op_ok ink]; intros; destruct_and?; try done; match goal with H : source _ _ _ |- _ => exact (proj2 (source_paint _ _ _ _ _ Ht H) _ _) end. Qed.

Lemma picture_paint fb g s t l X Y : paints fb g s t → Forall (op_ok fb s) l → ∀ z, picture t l X Y z = picture s l X Y z.
Proof.
  intros Ht. unfold picture. induction 1 as [|o l Ho _ IH]; intros z; [done|]. cbn [fold_left]. rewrite IH. f_equal. unfold apply.
  destruct (shape o X Y); [|done]. by eapply ink_paint.
Qed.

Lemma draw_all_ok l : ∀ fb s, has fb s → clip_in fb (g_clip_rect s) → Forall (op_ok fb s) l →
  wp (draw_all l fb) (draws fb (in_clip (g_clip_rect s)) (picture s l) s) never s.
Proof.
  induction l as [|o l IH]; intros fb s Hs Hc Hl; cbn [draw_all].
  - eapply wp_ok; [done|]. apply draws_same. eapply paints_ext; [|by apply paints_id]. intros X Y _. cbv beta. by destruct (in_clip _ X Y).
  - apply Forall_cons in Hl as [Ho Hl]. apply wp_bind. eapply wp_mono; [by apply draw_ok|intros fb' t [[r ->] Ht]|done].
    pose proof (paint_clip _ _ _ _ _ Ht) as Ec. eapply wp_mono; [apply (IH (set_dirty r fb) t); [apply has_dirty; by eapply paints_has|by rewrite Ec|]| |done].
    + eapply Forall_impl; [exact Hl|]. intros o' Ho'. apply op_ok_dirty. by eapply op_ok_paint.
    + intros fb2 u [[r' ->] Hu]. split; [by exists r'|]. pose proof (proj1 (paint_dirty r fb _ _ t u) Hu) as Hu'. eapply paints_ext; [|by eapply paints_trans]. intros X Y _. cbv beta. rewrite Ec.
      destruct (in_clip (g_clip_rect s) X Y) eqn:E; cbn [andb]; [|done]. rewrite (picture_paint fb _ s t l X Y Ht Hl). done.
Qed.


Module Demo.
Definition screen : fb_info := mkFb 4096 6 4 24 (mkRect 0 0 0 0).
Definition sprite : fb_info := mkFb 8192 2 2 8 (mkRect 0 0 0 0).
Definition start : gst := mkGst {[4096 := repeat 0 24; 8192 := [1; 2; 3; 4]]} (mkRect 0 0 0 0).
Definition drawing : list op := [Fill 0xff000007; Rect 1 1 10 2 0xffaabbcc; Line 0 3 3 0 0xff112233; Blit 4 (-1) sprite].

Lemma screen_ok : has screen start.
Proof. eexists. split; [reflexivity|]. by split. Qed.
Lemma sprite_ok : source screen sprite start.
Proof. split; [|done]. eexists. split; [reflexivity|]. by split. Qed.
Lemma drawing_ok : Forall (op_ok screen start) drawing.
Proof. unfold drawing. repeat (apply Forall_cons; split); cbn [op_ok]; unfold small; try lia; try done. split; [lia|]. split; [lia|]. apply sprite_ok. Qed.
End Demo.
Import Demo.

End Picture.
