(* ===== verification/Windows.v ===== *)
(** * Windows ([user/apps/dafne/compositor.c])

    The windows of the desktop: the pools of windows and clients, the list of
    windows from front to back, moving, focusing and removing, the windows
    under the pointer, and the handling of mouse and key events. *)
From Stdlib Require Import ZifyBool.
From S2P Require Import Prelude Font Gfx.
From S2P Require Input.

Module Windows.
Import Gfx.
Notation mouse_event := Input.Input.mouse_event.
Notation mkEvent := Input.Input.mkEvent.

(** ** Data *)

Definition WINDOW_TITLE_BAR_HEIGHT : Z := 35.
Definition WINDOW_BUTTON_WIDTH : Z := 45.
Definition WINDOW_BORDER_RADIUS : Z := 7.
Definition WINDOW_MAX_COUNT : nat := 10.
Definition MAX_CLIENTS : nat := 16.

Inductive window_event :=
| WET_CREATE (width height pitch handle : Z)
| WET_CLOSE
| WET_PAINT (paint_handle : Z)
| WET_KEY_DOWN (keycode character : Z)
| WET_MOUSE (x y buttons scroll : Z).

(** Pointers to windows and clients are indices into their pools. *)
Record window := mkWindow {
  w_exists : bool;
  w_handle : Z;
  title_dirty : bool;
  moved : bool;
  hidden : bool;
  hover_minimize : bool;
  hover_close : bool;
  presented : bool;
  double_buffer : bool;
  front_buf : fb_info;
  back_buf : fb_info;
  usr_front_buf : Z;
  usr_back_buf : Z;
  w_x : Z;
  w_y : Z;
  prev_x : Z;
  prev_y : Z;
  title : list Z;
  icon : option bitmap;
  w_client : option nat;
  w_prev : option nat;
  w_next : option nat
}.

Definition set_w_exists (v : bool) (w : window) : window := mkWindow v (w_handle w) (title_dirty w) (moved w) (hidden w) (hover_minimize w) (hover_close w) (presented w) (double_buffer w) (front_buf w) (back_buf w) (usr_front_buf w) (usr_back_buf w) (w_x w) (w_y w) (prev_x w) (prev_y w) (title w) (icon w) (w_client w) (w_prev w) (w_next w).
Definition set_w_handle (v : Z) (w : window) : window := mkWindow (w_exists w) v (title_dirty w) (moved w) (hidden w) (hover_minimize w) (hover_close w) (presented w) (double_buffer w) (front_buf w) (back_buf w) (usr_front_buf w) (usr_back_buf w) (w_x w) (w_y w) (prev_x w) (prev_y w) (title w) (icon w) (w_client w) (w_prev w) (w_next w).
Definition set_title_dirty (v : bool) (w : window) : window := mkWindow (w_exists w) (w_handle w) v (moved w) (hidden w) (hover_minimize w) (hover_close w) (presented w) (double_buffer w) (front_buf w) (back_buf w) (usr_front_buf w) (usr_back_buf w) (w_x w) (w_y w) (prev_x w) (prev_y w) (title w) (icon w) (w_client w) (w_prev w) (w_next w).
Definition set_moved (v : bool) (w : window) : window := mkWindow (w_exists w) (w_handle w) (title_dirty w) v (hidden w) (hover_minimize w) (hover_close w) (presented w) (double_buffer w) (front_buf w) (back_buf w) (usr_front_buf w) (usr_back_buf w) (w_x w) (w_y w) (prev_x w) (prev_y w) (title w) (icon w) (w_client w) (w_prev w) (w_next w).
Definition set_hidden (v : bool) (w : window) : window := mkWindow (w_exists w) (w_handle w) (title_dirty w) (moved w) v (hover_minimize w) (hover_close w) (presented w) (double_buffer w) (front_buf w) (back_buf w) (usr_front_buf w) (usr_back_buf w) (w_x w) (w_y w) (prev_x w) (prev_y w) (title w) (icon w) (w_client w) (w_prev w) (w_next w).
Definition set_hover_minimize (v : bool) (w : window) : window := mkWindow (w_exists w) (w_handle w) (title_dirty w) (moved w) (hidden w) v (hover_close w) (presented w) (double_buffer w) (front_buf w) (back_buf w) (usr_front_buf w) (usr_back_buf w) (w_x w) (w_y w) (prev_x w) (prev_y w) (title w) (icon w) (w_client w) (w_prev w) (w_next w).
Definition set_hover_close (v : bool) (w : window) : window := mkWindow (w_exists w) (w_handle w) (title_dirty w) (moved w) (hidden w) (hover_minimize w) v (presented w) (double_buffer w) (front_buf w) (back_buf w) (usr_front_buf w) (usr_back_buf w) (w_x w) (w_y w) (prev_x w) (prev_y w) (title w) (icon w) (w_client w) (w_prev w) (w_next w).
Definition set_presented (v : bool) (w : window) : window := mkWindow (w_exists w) (w_handle w) (title_dirty w) (moved w) (hidden w) (hover_minimize w) (hover_close w) v (double_buffer w) (front_buf w) (back_buf w) (usr_front_buf w) (usr_back_buf w) (w_x w) (w_y w) (prev_x w) (prev_y w) (title w) (icon w) (w_client w) (w_prev w) (w_next w).
Definition set_double_buffer (v : bool) (w : window) : window := mkWindow (w_exists w) (w_handle w) (title_dirty w) (moved w) (hidden w) (hover_minimize w) (hover_close w) (presented w) v (front_buf w) (back_buf w) (usr_front_buf w) (usr_back_buf w) (w_x w) (w_y w) (prev_x w) (prev_y w) (title w) (icon w) (w_client w) (w_prev w) (w_next w).
Definition set_front_buf (v : fb_info) (w : window) : window := mkWindow (w_exists w) (w_handle w) (title_dirty w) (moved w) (hidden w) (hover_minimize w) (hover_close w) (presented w) (double_buffer w) v (back_buf w) (usr_front_buf w) (usr_back_buf w) (w_x w) (w_y w) (prev_x w) (prev_y w) (title w) (icon w) (w_client w) (w_prev w) (w_next w).
Definition set_back_buf (v : fb_info) (w : window) : window := mkWindow (w_exists w) (w_handle w) (title_dirty w) (moved w) (hidden w) (hover_minimize w) (hover_close w) (presented w) (double_buffer w) (front_buf w) v (usr_front_buf w) (usr_back_buf w) (w_x w) (w_y w) (prev_x w) (prev_y w) (title w) (icon w) (w_client w) (w_prev w) (w_next w).
Definition set_usr_front_buf (v : Z) (w : window) : window := mkWindow (w_exists w) (w_handle w) (title_dirty w) (moved w) (hidden w) (hover_minimize w) (hover_close w) (presented w) (double_buffer w) (front_buf w) (back_buf w) v (usr_back_buf w) (w_x w) (w_y w) (prev_x w) (prev_y w) (title w) (icon w) (w_client w) (w_prev w) (w_next w).
Definition set_usr_back_buf (v : Z) (w : window) : window := mkWindow (w_exists w) (w_handle w) (title_dirty w) (moved w) (hidden w) (hover_minimize w) (hover_close w) (presented w) (double_buffer w) (front_buf w) (back_buf w) (usr_front_buf w) v (w_x w) (w_y w) (prev_x w) (prev_y w) (title w) (icon w) (w_client w) (w_prev w) (w_next w).
Definition set_w_x (v : Z) (w : window) : window := mkWindow (w_exists w) (w_handle w) (title_dirty w) (moved w) (hidden w) (hover_minimize w) (hover_close w) (presented w) (double_buffer w) (front_buf w) (back_buf w) (usr_front_buf w) (usr_back_buf w) v (w_y w) (prev_x w) (prev_y w) (title w) (icon w) (w_client w) (w_prev w) (w_next w).
Definition set_w_y (v : Z) (w : window) : window := mkWindow (w_exists w) (w_handle w) (title_dirty w) (moved w) (hidden w) (hover_minimize w) (hover_close w) (presented w) (double_buffer w) (front_buf w) (back_buf w) (usr_front_buf w) (usr_back_buf w) (w_x w) v (prev_x w) (prev_y w) (title w) (icon w) (w_client w) (w_prev w) (w_next w).
Definition set_prev_x (v : Z) (w : window) : window := mkWindow (w_exists w) (w_handle w) (title_dirty w) (moved w) (hidden w) (hover_minimize w) (hover_close w) (presented w) (double_buffer w) (front_buf w) (back_buf w) (usr_front_buf w) (usr_back_buf w) (w_x w) (w_y w) v (prev_y w) (title w) (icon w) (w_client w) (w_prev w) (w_next w).
Definition set_prev_y (v : Z) (w : window) : window := mkWindow (w_exists w) (w_handle w) (title_dirty w) (moved w) (hidden w) (hover_minimize w) (hover_close w) (presented w) (double_buffer w) (front_buf w) (back_buf w) (usr_front_buf w) (usr_back_buf w) (w_x w) (w_y w) (prev_x w) v (title w) (icon w) (w_client w) (w_prev w) (w_next w).
Definition set_title (v : list Z) (w : window) : window := mkWindow (w_exists w) (w_handle w) (title_dirty w) (moved w) (hidden w) (hover_minimize w) (hover_close w) (presented w) (double_buffer w) (front_buf w) (back_buf w) (usr_front_buf w) (usr_back_buf w) (w_x w) (w_y w) (prev_x w) (prev_y w) v (icon w) (w_client w) (w_prev w) (w_next w).
Definition set_icon (v : option bitmap) (w : window) : window := mkWindow (w_exists w) (w_handle w) (title_dirty w) (moved w) (hidden w) (hover_minimize w) (hover_close w) (presented w) (double_buffer w) (front_buf w) (back_buf w) (usr_front_buf w) (usr_back_buf w) (w_x w) (w_y w) (prev_x w) (prev_y w) (title w) v (w_client w) (w_prev w) (w_next w).
Definition set_w_client (v : option nat) (w : window) : window := mkWindow (w_exists w) (w_handle w) (title_dirty w) (moved w) (hidden w) (hover_minimize w) (hover_close w) (presented w) (double_buffer w) (front_buf w) (back_buf w) (usr_front_buf w) (usr_back_buf w) (w_x w) (w_y w) (prev_x w) (prev_y w) (title w) (icon w) v (w_prev w) (w_next w).
Definition set_w_prev (v : option nat) (w : window) : window := mkWindow (w_exists w) (w_handle w) (title_dirty w) (moved w) (hidden w) (hover_minimize w) (hover_close w) (presented w) (double_buffer w) (front_buf w) (back_buf w) (usr_front_buf w) (usr_back_buf w) (w_x w) (w_y w) (prev_x w) (prev_y w) (title w) (icon w) (w_client w) v (w_next w).
Definition set_w_next (v : option nat) (w : window) : window := mkWindow (w_exists w) (w_handle w) (title_dirty w) (moved w) (hidden w) (hover_minimize w) (hover_close w) (presented w) (double_buffer w) (front_buf w) (back_buf w) (usr_front_buf w) (usr_back_buf w) (w_x w) (w_y w) (prev_x w) (prev_y w) (title w) (icon w) (w_client w) (w_prev w) v.

Record client := mkClient {
  c_exists : bool;
  c_ch : Z;
  c_win : option nat;
  c_pid : Z
}.

Definition set_c_exists (v : bool) (w : client) : client := mkClient v (c_ch w) (c_win w) (c_pid w).
Definition set_c_ch (v : Z) (w : client) : client := mkClient (c_exists w) v (c_win w) (c_pid w).
Definition set_c_win (v : option nat) (w : client) : client := mkClient (c_exists w) (c_ch w) v (c_pid w).
Definition set_c_pid (v : Z) (w : client) : client := mkClient (c_exists w) (c_ch w) (c_win w) v.

(** The variables of the compositor; [posted] is what was sent to the clients. *)
Record comp := mkComp {
  gs : gst;
  s_window_pool : list window;
  s_client_pool : list client;
  g_screen : fb_info;
  g_backbuffer : fb_info;
  g_desktop : fb_info;
  g_mouse : mouse_event;
  g_drag_off_x : Z;
  g_drag_off_y : Z;
  s_windows : option nat;
  s_last_window : option nat;
  s_dragged_window : option nat;
  g_cursor_x : Z;
  g_cursor_y : Z;
  g_prev_cursor_x : Z;
  g_prev_cursor_y : Z;
  s_full_redraw : bool;
  s_app_bar_dirty : bool;
  posted : list (Z * window_event)
}.

Definition set_gs (v : gst) (w : comp) : comp := mkComp v (s_window_pool w) (s_client_pool w) (g_screen w) (g_backbuffer w) (g_desktop w) (g_mouse w) (g_drag_off_x w) (g_drag_off_y w) (s_windows w) (s_last_window w) (s_dragged_window w) (g_cursor_x w) (g_cursor_y w) (g_prev_cursor_x w) (g_prev_cursor_y w) (s_full_redraw w) (s_app_bar_dirty w) (posted w).
Definition set_s_window_pool (v : list window) (w : comp) : comp := mkComp (gs w) v (s_client_pool w) (g_screen w) (g_backbuffer w) (g_desktop w) (g_mouse w) (g_drag_off_x w) (g_drag_off_y w) (s_windows w) (s_last_window w) (s_dragged_window w) (g_cursor_x w) (g_cursor_y w) (g_prev_cursor_x w) (g_prev_cursor_y w) (s_full_redraw w) (s_app_bar_dirty w) (posted w).
Definition set_s_client_pool (v : list client) (w : comp) : comp := mkComp (gs w) (s_window_pool w) v (g_screen w) (g_backbuffer w) (g_desktop w) (g_mouse w) (g_drag_off_x w) (g_drag_off_y w) (s_windows w) (s_last_window w) (s_dragged_window w) (g_cursor_x w) (g_cursor_y w) (g_prev_cursor_x w) (g_prev_cursor_y w) (s_full_redraw w) (s_app_bar_dirty w) (posted w).
Definition set_g_screen (v : fb_info) (w : comp) : comp := mkComp (gs w) (s_window_pool w) (s_client_pool w) v (g_backbuffer w) (g_desktop w) (g_mouse w) (g_drag_off_x w) (g_drag_off_y w) (s_windows w) (s_last_window w) (s_dragged_window w) (g_cursor_x w) (g_cursor_y w) (g_prev_cursor_x w) (g_prev_cursor_y w) (s_full_redraw w) (s_app_bar_dirty w) (posted w).
Definition set_g_backbuffer (v : fb_info) (w : comp) : comp := mkComp (gs w) (s_window_pool w) (s_client_pool w) (g_screen w) v (g_desktop w) (g_mouse w) (g_drag_off_x w) (g_drag_off_y w) (s_windows w) (s_last_window w) (s_dragged_window w) (g_cursor_x w) (g_cursor_y w) (g_prev_cursor_x w) (g_prev_cursor_y w) (s_full_redraw w) (s_app_bar_dirty w) (posted w).
Definition set_g_desktop (v : fb_info) (w : comp) : comp := mkComp (gs w) (s_window_pool w) (s_client_pool w) (g_screen w) (g_backbuffer w) v (g_mouse w) (g_drag_off_x w) (g_drag_off_y w) (s_windows w) (s_last_window w) (s_dragged_window w) (g_cursor_x w) (g_cursor_y w) (g_prev_cursor_x w) (g_prev_cursor_y w) (s_full_redraw w) (s_app_bar_dirty w) (posted w).
Definition set_g_mouse (v : mouse_event) (w : comp) : comp := mkComp (gs w) (s_window_pool w) (s_client_pool w) (g_screen w) (g_backbuffer w) (g_desktop w) v (g_drag_off_x w) (g_drag_off_y w) (s_windows w) (s_last_window w) (s_dragged_window w) (g_cursor_x w) (g_cursor_y w) (g_prev_cursor_x w) (g_prev_cursor_y w) (s_full_redraw w) (s_app_bar_dirty w) (posted w).
Definition set_g_drag_off_x (v : Z) (w : comp) : comp := mkComp (gs w) (s_window_pool w) (s_client_pool w) (g_screen w) (g_backbuffer w) (g_desktop w) (g_mouse w) v (g_drag_off_y w) (s_windows w) (s_last_window w) (s_dragged_window w) (g_cursor_x w) (g_cursor_y w) (g_prev_cursor_x w) (g_prev_cursor_y w) (s_full_redraw w) (s_app_bar_dirty w) (posted w).
Definition set_g_drag_off_y (v : Z) (w : comp) : comp := mkComp (gs w) (s_window_pool w) (s_client_pool w) (g_screen w) (g_backbuffer w) (g_desktop w) (g_mouse w) (g_drag_off_x w) v (s_windows w) (s_last_window w) (s_dragged_window w) (g_cursor_x w) (g_cursor_y w) (g_prev_cursor_x w) (g_prev_cursor_y w) (s_full_redraw w) (s_app_bar_dirty w) (posted w).
Definition set_s_windows (v : option nat) (w : comp) : comp := mkComp (gs w) (s_window_pool w) (s_client_pool w) (g_screen w) (g_backbuffer w) (g_desktop w) (g_mouse w) (g_drag_off_x w) (g_drag_off_y w) v (s_last_window w) (s_dragged_window w) (g_cursor_x w) (g_cursor_y w) (g_prev_cursor_x w) (g_prev_cursor_y w) (s_full_redraw w) (s_app_bar_dirty w) (posted w).
Definition set_s_last_window (v : option nat) (w : comp) : comp := mkComp (gs w) (s_window_pool w) (s_client_pool w) (g_screen w) (g_backbuffer w) (g_desktop w) (g_mouse w) (g_drag_off_x w) (g_drag_off_y w) (s_windows w) v (s_dragged_window w) (g_cursor_x w) (g_cursor_y w) (g_prev_cursor_x w) (g_prev_cursor_y w) (s_full_redraw w) (s_app_bar_dirty w) (posted w).
Definition set_s_dragged_window (v : option nat) (w : comp) : comp := mkComp (gs w) (s_window_pool w) (s_client_pool w) (g_screen w) (g_backbuffer w) (g_desktop w) (g_mouse w) (g_drag_off_x w) (g_drag_off_y w) (s_windows w) (s_last_window w) v (g_cursor_x w) (g_cursor_y w) (g_prev_cursor_x w) (g_prev_cursor_y w) (s_full_redraw w) (s_app_bar_dirty w) (posted w).
Definition set_g_cursor_x (v : Z) (w : comp) : comp := mkComp (gs w) (s_window_pool w) (s_client_pool w) (g_screen w) (g_backbuffer w) (g_desktop w) (g_mouse w) (g_drag_off_x w) (g_drag_off_y w) (s_windows w) (s_last_window w) (s_dragged_window w) v (g_cursor_y w) (g_prev_cursor_x w) (g_prev_cursor_y w) (s_full_redraw w) (s_app_bar_dirty w) (posted w).
Definition set_g_cursor_y (v : Z) (w : comp) : comp := mkComp (gs w) (s_window_pool w) (s_client_pool w) (g_screen w) (g_backbuffer w) (g_desktop w) (g_mouse w) (g_drag_off_x w) (g_drag_off_y w) (s_windows w) (s_last_window w) (s_dragged_window w) (g_cursor_x w) v (g_prev_cursor_x w) (g_prev_cursor_y w) (s_full_redraw w) (s_app_bar_dirty w) (posted w).
Definition set_g_prev_cursor_x (v : Z) (w : comp) : comp := mkComp (gs w) (s_window_pool w) (s_client_pool w) (g_screen w) (g_backbuffer w) (g_desktop w) (g_mouse w) (g_drag_off_x w) (g_drag_off_y w) (s_windows w) (s_last_window w) (s_dragged_window w) (g_cursor_x w) (g_cursor_y w) v (g_prev_cursor_y w) (s_full_redraw w) (s_app_bar_dirty w) (posted w).
Definition set_g_prev_cursor_y (v : Z) (w : comp) : comp := mkComp (gs w) (s_window_pool w) (s_client_pool w) (g_screen w) (g_backbuffer w) (g_desktop w) (g_mouse w) (g_drag_off_x w) (g_drag_off_y w) (s_windows w) (s_last_window w) (s_dragged_window w) (g_cursor_x w) (g_cursor_y w) (g_prev_cursor_x w) v (s_full_redraw w) (s_app_bar_dirty w) (posted w).
Definition set_s_full_redraw (v : bool) (w : comp) : comp := mkComp (gs w) (s_window_pool w) (s_client_pool w) (g_screen w) (g_backbuffer w) (g_desktop w) (g_mouse w) (g_drag_off_x w) (g_drag_off_y w) (s_windows w) (s_last_window w) (s_dragged_window w) (g_cursor_x w) (g_cursor_y w) (g_prev_cursor_x w) (g_prev_cursor_y w) v (s_app_bar_dirty w) (posted w).
Definition set_s_app_bar_dirty (v : bool) (w : comp) : comp := mkComp (gs w) (s_window_pool w) (s_client_pool w) (g_screen w) (g_backbuffer w) (g_desktop w) (g_mouse w) (g_drag_off_x w) (g_drag_off_y w) (s_windows w) (s_last_window w) (s_dragged_window w) (g_cursor_x w) (g_cursor_y w) (g_prev_cursor_x w) (g_prev_cursor_y w) (s_full_redraw w) v (posted w).
Definition set_posted (v : list (Z * window_event)) (w : comp) : comp := mkComp (gs w) (s_window_pool w) (s_client_pool w) (g_screen w) (g_backbuffer w) (g_desktop w) (g_mouse w) (g_drag_off_x w) (g_drag_off_y w) (s_windows w) (s_last_window w) (s_dragged_window w) (g_cursor_x w) (g_cursor_y w) (g_prev_cursor_x w) (g_prev_cursor_y w) (s_full_redraw w) (s_app_bar_dirty w) v.

Definition fb_zero : fb_info := mkFb 0 0 0 0 (mkRect 0 0 0 0).
Definition window_zero : window := mkWindow false 0 false false false false false false false fb_zero fb_zero 0 0 0 0 0 0 [] None None None None.
Definition client_zero : client := mkClient false 0 None 0.

(** ** Access *)

Definition rd_win (i : nat) : M comp window := s ← get; of_option (s_window_pool s !! i).
Definition wr_win (i : nat) (f : window → window) : M comp unit :=
  s ← get;
  w ← of_option (s_window_pool s !! i);
  put (set_s_window_pool (<[i := f w]> (s_window_pool s)) s).
Definition rd_client (i : nat) : M comp client := s ← get; of_option (s_client_pool s !! i).
Definition wr_client (i : nat) (f : client → client) : M comp unit :=
  s ← get;
  c ← of_option (s_client_pool s !! i);
  put (set_s_client_pool (<[i := f c]> (s_client_pool s)) s).

(** ** Pools *)

(** The first of [n] entries that is not in use. *)
Fixpoint free_client_from (n i : nat) : M comp (option nat) :=
  match n with
  | O => mret None
  | S n' =>
      c ← rd_client i;
      if c_exists c then free_client_from n' (S i)
      else wr_client i (set_c_exists true) ;; mret (Some i)
  end.
Definition alloc_client : M comp (option nat) := free_client_from WINDOW_MAX_COUNT 0.

Definition free_client (c : nat) : M comp unit :=
  wr_client c (set_c_exists false) ;; wr_client c (set_c_win None) ;; wr_client c (set_c_ch 0).

Definition get_window (h : Z) : option nat :=
  if (h <? 0) || (Z.of_nat WINDOW_MAX_COUNT <=? h) then None else Some (Z.to_nat h).

Fixpoint alloc_window_from (n i : nat) : M comp (option nat) :=
  match n with
  | O => mret None
  | S n' =>
      w ← rd_win i;
      if w_exists w then alloc_window_from n' (S i)
      else wr_win i (set_w_exists true) ;; wr_win i (set_w_handle (Z.of_nat i)) ;; mret (Some i)
  end.
Definition alloc_window : M comp (option nat) := alloc_window_from WINDOW_MAX_COUNT 0.

Definition free_window (w : nat) : M comp unit := wr_win w (set_w_exists false).

Definition compositor_set_cursor (x y : Z) : M comp unit :=
  modify (λ s, set_g_prev_cursor_x (g_cursor_x s) s) ;;
  modify (λ s, set_g_prev_cursor_y (g_cursor_y s) s) ;;
  modify (set_g_cursor_x x) ;;
  modify (set_g_cursor_y y).

Definition client_post_event (c : option nat) (ev : window_event) : M comp unit :=
  i ← of_option c;
  cl ← rd_client i;
  modify (λ s, set_posted (posted s ++ [(c_ch cl, ev)]) s).

(** ** The list of windows, front to back *)

Definition add_window (win : nat) : M comp unit :=
  s ← get;
  match s_windows s with
  | Some f => wr_win f (set_w_prev (Some win)) ;; wr_win win (set_w_next (Some f)) ;; wr_win f (set_moved true)
  | None => wr_win win (set_w_next None) ;; modify (set_s_last_window (Some win))
  end ;;
  wr_win win (set_w_prev None) ;;
  modify (set_s_windows (Some win)) ;;
  modify (set_s_app_bar_dirty true).

Definition remove_window (win : nat) : M comp unit :=
  s ← get;
  w ← rd_win win;
  when (bool_decide (s_last_window s = Some win)) (modify (set_s_last_window (w_prev w))) ;;
  when (bool_decide (s_windows s = Some win)) (modify (set_s_windows (w_next w))) ;;
  match w_prev w with
  | Some p => wr_win p (set_w_next (w_next w)) ;; wr_win win (set_w_prev None)
  | None => mret tt
  end ;;
  w ← rd_win win;
  match w_next w with
  | Some n => wr_win n (set_w_prev (w_prev w)) ;; wr_win win (set_w_next None)
  | None => mret tt
  end ;;
  modify (set_s_app_bar_dirty true) ;;
  modify (set_s_full_redraw true).

Definition window_focus (w : nat) : M comp unit :=
  s ← get;
  if bool_decide (s_windows s = Some w) then mret tt
  else
    win ← rd_win w;
    when (bool_decide (s_last_window s = Some w)) (modify (set_s_last_window (w_prev win))) ;;
    f ← of_option (s_windows s);
    wr_win f (set_moved true) ;;
    match w_prev win with Some p => wr_win p (set_w_next (w_next win)) | None => mret tt end ;;
    match w_next win with Some n => wr_win n (set_w_prev (w_prev win)) | None => mret tt end ;;
    wr_win w (set_w_prev None) ;;
    wr_win w (set_w_next (Some f)) ;;
    wr_win f (set_w_prev (Some w)) ;;
    modify (set_s_windows (Some w)) ;;
    wr_win w (set_moved true) ;;
    wr_win w (set_hidden false).

Definition window_move_to (w : nat) (x y : Z) : M comp unit :=
  win ← rd_win w;
  if (w_x win =? x) && (w_y win =? y) then mret tt
  else
    wr_win w (λ win, set_prev_x (w_x win) win) ;;
    wr_win w (λ win, set_prev_y (w_y win) win) ;;
    wr_win w (set_w_x x) ;;
    wr_win w (set_w_y y) ;;
    wr_win w (set_moved true) ;;
    wr_win w (set_title_dirty true).

Definition window_show (w : nat) (show : bool) : M comp unit :=
  win ← rd_win w;
  when (eqb (hidden win) show) (
    wr_win w (set_hidden (negb show)) ;;
    wr_win w (λ win, set_prev_x (w_x win) win) ;;
    wr_win w (λ win, set_prev_y (w_y win) win) ;;
    wr_win w (set_moved true) ;;
    wr_win w (set_title_dirty true)).

Definition set_ptr (p : Z) (fb : fb_info) : fb_info := mkFb p (width fb) (height fb) (pitch fb) (dirty_region fb).

Definition window_swap_buffers (w : nat) : M comp unit :=
  win ← rd_win w;
  let tmp := ptr (front_buf win) in
  wr_win w (λ win, set_front_buf (set_ptr (ptr (back_buf win)) (front_buf win)) win) ;;
  wr_win w (λ win, set_back_buf (set_ptr tmp (back_buf win)) win) ;;
  let tmp := usr_front_buf win in
  wr_win w (λ win, set_usr_front_buf (usr_back_buf win) win) ;;
  wr_win w (set_usr_back_buf tmp).

(** ** The window under the pointer *)

Definition PT_IN_RECT (px py rx ry rw rh : Z) : bool := (rx <=? px) && (px <? rx + rw) && (ry <=? py) && (py <? ry + rh).

Definition hit_window (w : window) (x y : Z) : bool :=
  (w_x w <=? x) && (x <? w_x w + i32 (width (front_buf w))) && (w_y w <=? y) && (y <? w_y w + WINDOW_TITLE_BAR_HEIGHT + i32 (height (front_buf w))).

(** The loop, from the window [i] on. *)
Fixpoint window_at_from (fuel : nat) (i : option nat) (x y : Z) : M comp (option nat) :=
  match i with
  | None => mret None
  | Some i =>
      match fuel with
      | O => no_fuel
      | S fuel' =>
          w ← rd_win i;
          if negb (hidden w) && hit_window w x y then mret (Some i) else window_at_from fuel' (w_next w) x y
      end
  end.
Definition get_window_at_pos (x y : Z) : M comp (option nat) := s ← get; window_at_from WINDOW_MAX_COUNT (s_windows s) x y.

Definition hit_minimize (w : window) (x y : Z) : bool :=
  PT_IN_RECT x y (w_x w + i32 (width (front_buf w)) - WINDOW_BUTTON_WIDTH - WINDOW_BUTTON_WIDTH) (w_y w) WINDOW_BUTTON_WIDTH WINDOW_TITLE_BAR_HEIGHT.
Definition hit_close (w : window) (x y : Z) : bool :=
  PT_IN_RECT x y (w_x w + i32 (width (front_buf w)) - WINDOW_BUTTON_WIDTH) (w_y w) WINDOW_BUTTON_WIDTH WINDOW_TITLE_BAR_HEIGHT.
Definition hit_title_bar (w : window) (x y : Z) : bool :=
  (w_x w <=? x) && (x <? w_x w + i32 (width (front_buf w))) && (w_y w <=? y) && (y <? w_y w + WINDOW_TITLE_BAR_HEIGHT).

(** ** Input *)

(** The hover state of the [n] windows from [i] on. *)
Fixpoint update_hover (n i : nat) (x y : Z) : M comp unit :=
  match n with
  | O => mret tt
  | S n' =>
      w ← rd_win i;
      (if negb (w_exists w) || hidden w then mret tt
       else
         let hm := hit_minimize w x y in
         let hc := hit_close w x y in
         when (negb (eqb hm (hover_minimize w)) || negb (eqb hc (hover_close w))) (
           wr_win i (set_hover_minimize hm) ;; wr_win i (set_hover_close hc) ;; wr_win i (set_title_dirty true))) ;;
      update_hover n' (S i) x y
  end.

Definition button1 (b : Z) : bool := truthy (Z.land b 1).

Definition handle_mouse (ev : mouse_event) : M comp unit :=
  compositor_set_cursor (Input.Input.me_x ev) (Input.Input.me_y ev) ;;
  s ← get;
  let down := button1 (Input.Input.me_buttons ev) in
  let was := button1 (Input.Input.me_buttons (g_mouse s)) in
  let left_down := down && negb was in
  let left_up := negb down && was in
  modify (set_g_mouse ev) ;;
  when left_up (modify (set_s_dragged_window None)) ;;
  s ← get;
  match s_dragged_window s with
  | Some d =>
      if down then
        wr_win d (λ w, set_prev_x (w_x w) w) ;;
        wr_win d (λ w, set_prev_y (w_y w) w) ;;
        wr_win d (set_w_x (i32 (Input.Input.me_x ev - g_drag_off_x s))) ;;
        wr_win d (set_w_y (i32 (Input.Input.me_y ev - g_drag_off_y s))) ;;
        wr_win d (set_moved true)
      else mret tt
  | None => mret tt
  end ;;
  if match s_dragged_window s with Some _ => down | None => false end then mret tt
  else
    update_hover WINDOW_MAX_COUNT 0 (Input.Input.me_x ev) (Input.Input.me_y ev) ;;
    o ← get_window_at_pos (Input.Input.me_x ev) (Input.Input.me_y ev);
    match o with
    | None => mret tt
    | Some w =>
        when left_down (
          window_focus w ;;
          win ← rd_win w;
          if hit_minimize win (Input.Input.me_x ev) (Input.Input.me_y ev) then window_show w false
          else if hit_close win (Input.Input.me_x ev) (Input.Input.me_y ev) then client_post_event (w_client win) WET_CLOSE
          else when (hit_title_bar win (Input.Input.me_x ev) (Input.Input.me_y ev)) (
            modify (set_s_dragged_window (Some w)) ;;
            modify (set_g_drag_off_x (Input.Input.me_x ev - w_x win)) ;;
            modify (set_g_drag_off_y (Input.Input.me_y ev - w_y win)))) ;;
        s ← get;
        win ← rd_win w;
        when (bool_decide (s_dragged_window s = None) && negb (hit_title_bar win (Input.Input.me_x ev) (Input.Input.me_y ev)))
          (client_post_event (w_client win) (WET_MOUSE (Input.Input.me_x ev - w_x win) (Input.Input.me_y ev - w_y win - WINDOW_TITLE_BAR_HEIGHT)
             (Input.Input.me_buttons ev) (Input.Input.me_scroll ev)))
    end.

(** [mouse] is what [sys_read_mouse] answered, [key] what [sys_read_key_nb] answers. *)
Definition compositor_handle_input (mouse : option mouse_event) (key : Input.Input.KeyEvent) : M comp unit :=
  match mouse with Some ev => handle_mouse ev | None => mret tt end ;;
  s ← get;
  match s_windows s with
  | Some f =>
      when (truthy (Input.Input.character key) || truthy (Input.Input.code key)) (
        w ← rd_win f;
        client_post_event (w_client w) (WET_KEY_DOWN (Input.Input.code key) (Input.Input.character key)))
  | None => mret tt
  end.

(** ** The pool as a map *)

Definition upd_win (i : nat) (f : window → window) (s : comp) : comp := set_s_window_pool (alter f i (s_window_pool s)) s.

Lemma wr_win_ok i f s : (i < length (s_window_pool s))%nat → wr_win i f s = Ok (tt, upd_win i f s).
Proof.
  intros H. unfold wr_win, upd_win. rewrite (bind_of_ok _ _ _ s s) by done. destruct (lookup_lt_is_Some_2 _ _ H) as [w Hw]. rewrite Hw, (bind_of_ok _ _ _ w s) by done.
  unfold put. do 4 f_equal. apply list_eq. intros j. destruct (decide (j = i)) as [->|Hne].
  - rewrite list_lookup_insert_eq by done. by rewrite list_lookup_alter_eq, Hw.
  - by rewrite list_lookup_insert_ne, list_lookup_alter_ne by done.
Qed.

Lemma rd_win_ok i w s : s_window_pool s !! i = Some w → rd_win i s = Ok (w, s).
Proof. intros H. unfold rd_win. rewrite (bind_of_ok _ _ _ s s) by done. by rewrite H. Qed.

Lemma upd_win_lookup i f s j : s_window_pool (upd_win i f s) !! j = if decide (j = i) then f <$> s_window_pool s !! j else s_window_pool s !! j.
Proof. unfold upd_win. cbn [s_window_pool set_s_window_pool]. destruct (decide (j = i)) as [->|]; [apply list_lookup_alter_eq|by apply list_lookup_alter_ne]. Qed.

Lemma upd_win_length i f s : length (s_window_pool (upd_win i f s)) = length (s_window_pool s).
Proof. apply length_alter. Qed.

(** ** The list, by its forward and its backward links *)

Definition next_of (s : comp) (i : nat) : option (option nat) := w_next <$> s_window_pool s !! i.
Definition prev_of (s : comp) (i : nat) : option (option nat) := w_prev <$> s_window_pool s !! i.

Definition fwd (s : comp) (l : list nat) : Prop := s_windows s = l !! 0%nat ∧ ∀ k i, l !! k = Some i → next_of s i = Some (l !! S k).
Definition bwd (s : comp) (l : list nat) : Prop := s_last_window s = last l ∧ ∀ k i, l !! k = Some i → prev_of s i = Some (match k with O => None | S k' => l !! k' end).
Definition wlist (s : comp) (l : list nat) : Prop := NoDup l ∧ fwd s l ∧ bwd s l.

(** What the list does not say of a window stays. *)
Definition body (w : window) : bool * (Z * Z) * fb_info * option nat := (w_exists w, (w_x w, w_y w), front_buf w, w_client w).
Definition same_bodies (s s' : comp) : Prop := body <$> s_window_pool s' = body <$> s_window_pool s.

Lemma upd_next i f s j : next_of (upd_win i f s) j = if decide (j = i) then (w_next ∘ f) <$> s_window_pool s !! j else next_of s j.
Proof. unfold next_of. rewrite upd_win_lookup. destruct (decide (j = i)); [|done]. by destruct (s_window_pool s !! j). Qed.
Lemma upd_prev i f s j : prev_of (upd_win i f s) j = if decide (j = i) then (w_prev ∘ f) <$> s_window_pool s !! j else prev_of s j.
Proof. unfold prev_of. rewrite upd_win_lookup. destruct (decide (j = i)); [|done]. by destruct (s_window_pool s !! j). Qed.

Lemma upd_bodies i f s : (∀ w, body (f w) = body w) → same_bodies s (upd_win i f s).
Proof.
  intros H. unfold same_bodies. apply list_eq. intros j. rewrite !list_lookup_fmap, upd_win_lookup. destruct (decide (j = i)); [|done].
  destruct (s_window_pool s !! j) as [w|]; [|done]. cbn. by rewrite H.
Qed.
Lemma same_bodies_trans s t u : same_bodies s t → same_bodies t u → same_bodies s u.
Proof. unfold same_bodies. congruence. Qed.
Lemma same_bodies_length s t : same_bodies s t → length (s_window_pool t) = length (s_window_pool s).
Proof. unfold same_bodies. intros H. apply (f_equal length) in H. by rewrite !length_fmap in H. Qed.

Lemma same_bodies_refl s : same_bodies s s.
Proof. done. Qed.
Lemma bodies_windows v s t : same_bodies s t → same_bodies s (set_s_windows v t).
Proof. done. Qed.
Ltac bodies := repeat first [exact (same_bodies_refl _) | apply bodies_windows | eapply same_bodies_trans; [|apply upd_bodies; done]].

Lemma in_pool s i o : next_of s i = Some o → (i < length (s_window_pool s))%nat.
Proof. unfold next_of. destruct (s_window_pool s !! i) eqn:E; [|done]. intros _. by apply lookup_lt_Some in E. Qed.

(** Reading the links of the windows of a list. *)
Lemma wlist_in s l k i : wlist s l → l !! k = Some i → (i < length (s_window_pool s))%nat ∧
  ∃ w, s_window_pool s !! i = Some w ∧ w_next w = l !! S k ∧ w_prev w = match k with O => None | S k' => l !! k' end.
Proof.
  intros (_ & [_ Hn] & [_ Hp]) Hk. specialize (Hn k i Hk). specialize (Hp k i Hk). split; [by eapply in_pool|]. unfold next_of, prev_of in *.
  destruct (s_window_pool s !! i) as [w|]; [|done]. exists w. cbn in *. split; [done|]. split; congruence.
Qed.

(** Changes that leave the links alone. *)
Definition links_only (s s' : comp) : Prop := (∀ i, next_of s' i = next_of s i) ∧ (∀ i, prev_of s' i = prev_of s i) ∧ s_windows s' = s_windows s ∧ s_last_window s' = s_last_window s.
Lemma wlist_links s s' l : links_only s s' → wlist s l → wlist s' l.
Proof.
  intros (H1 & H2 & H3 & H4) (Hd & [F1 F2] & [B1 B2]). split; [done|]. split; (split; [congruence|]); intros k i Hk; [rewrite H1|rewrite H2]; auto.
Qed.

(** Steps of the list operations: a store into the pool, another assignment. *)
Ltac comp_proj := cbn [s_window_pool s_windows s_last_window set_s_windows set_s_last_window set_s_app_bar_dirty set_s_full_redraw].
Ltac pool_len := comp_proj; rewrite ?upd_win_length; comp_proj; rewrite ?upd_win_length; lia.
Ltac wr_step := erewrite bind_of_ok; [|apply wr_win_ok; pool_len].
Ltac md_step := erewrite bind_of_ok; [|reflexivity].
(** The window at an index after a number of stores. *)
Ltac look := unfold next_of, prev_of in *; repeat (progress comp_proj || rewrite upd_win_lookup).

Ltac look_done := solve [done | match goal with |- context [s_window_pool ?s !! ?x] => by destruct (s_window_pool s !! x) end].

Lemma add_window_ok s l w : wlist s l → w ∉ l → (w < length (s_window_pool s))%nat →
  ∃ s', add_window w s = Ok (tt, s') ∧ wlist s' (w :: l) ∧ same_bodies s s'.
Proof.
  intros Hl Hw Hlt. destruct (id Hl) as (Hd & [F1 F2] & [B1 B2]). unfold add_window. rewrite (bind_of_ok _ _ _ s s) by done. rewrite F1. destruct l as [|f l]; cbn [lookup list_lookup].
  - erewrite bind_of_ok; [|wr_step; reflexivity]. wr_step. md_step. unfold modify. eexists. split; [reflexivity|]. split; [|by repeat (eapply same_bodies_trans; [|apply upd_bodies; done])].
    destruct (lookup_lt_is_Some_2 _ _ Hlt) as [x Hx]. split; [by apply NoDup_singleton|]. split; (split; [done|]); intros [|k] i Hk; try done; injection Hk as <-; look; by rewrite !decide_True, Hx by done.
  - destruct (wlist_in s _ 0 f Hl eq_refl) as (Hf & wf & Ef & _). assert (f ≠ w) as Hfw by set_solver.
    erewrite bind_of_ok; [|wr_step; wr_step; apply wr_win_ok; pool_len]. wr_step. md_step. unfold modify. eexists. split; [reflexivity|].
    split; [|by repeat (eapply same_bodies_trans; [|apply upd_bodies; done])].
    destruct (lookup_lt_is_Some_2 _ _ Hlt) as [x Hx]. split; [by apply NoDup_cons|]. split; (split; [done|]); intros [|k] i Hk.
    + injection Hk as <-. look. repeat case_decide; try congruence. by rewrite Hx.
    + change ((f :: l) !! k = Some i) in Hk. assert (i ≠ w) as Hi by (intros ->; by apply list_elem_of_lookup_2 in Hk). specialize (F2 k i Hk). look. repeat case_decide; try congruence; [subst i; by rewrite Ef in *|exact F2].
    + injection Hk as <-. look. repeat case_decide; try congruence. by rewrite Hx.
    + change ((f :: l) !! k = Some i) in Hk. assert (i ≠ w) as Hi by (intros ->; by apply list_elem_of_lookup_2 in Hk). specialize (B2 k i Hk). look. repeat case_decide; try congruence.
      * subst i. rewrite Ef. assert (k = 0%nat) as -> by (by eapply (NoDup_lookup (f :: l))). done.
      * destruct k as [|k]; [|done]. injection Hk as <-. done.
Qed.

(** The places of a list without its [m]-th element. *)
Lemma lookup_without {A} (a : list A) x b k : (a ++ b) !! k = (a ++ x :: b) !! (if decide (k < length a)%nat then k else S k).
Proof.
  case_decide; [by rewrite !lookup_app_l|]. rewrite !lookup_app_r by lia. by replace (S k - length a)%nat with (S (k - length a)) by lia.
Qed.

Lemma last_lookup_app {A} (a : list A) : last a = a !! pred (length a).
Proof. apply last_lookup. Qed.

Lemma window_focus_ok s a w b : wlist s (a ++ w :: b) →
  ∃ s', window_focus w s = Ok (tt, s') ∧ wlist s' (w :: a ++ b) ∧ same_bodies s s' ∧
    (a ≠ [] → ∃ x, s_window_pool s' !! w = Some x ∧ hidden x = false) ∧ (a = [] → s' = s) ∧ s_client_pool s' = s_client_pool s ∧ posted s' = posted s ∧ s_dragged_window s' = s_dragged_window s.
Proof.
  intros Hl. destruct (id Hl) as (Hd & [F1 F2] & [B1 B2]). set (l := a ++ w :: b) in *.
  assert (l !! length a = Some w) as Hw by apply lookup_mid. destruct (wlist_in s l _ w Hl Hw) as (Lw & win & Ew & Nw & Pw).
  unfold window_focus. rewrite (bind_of_ok _ _ _ s s) by done. rewrite F1. destruct a as [|f a0].
  { rewrite bool_decide_true by done. exists s. repeat split; try done; by destruct Hl as (_ & [? ?] & [? ?]). }
  assert (l !! 0%nat = Some f) as Hf by done. destruct (wlist_in s l 0 f Hl Hf) as (Lf & wf & Ef & _). assert (f ≠ w) as Hfw by (intros ->; by pose proof (NoDup_lookup l _ _ _ Hd Hf Hw)).
  rewrite bool_decide_false by (rewrite Hf; congruence). rewrite (bind_of_ok _ _ _ win s) by (by apply rd_win_ok). set (a := f :: a0) in *. set (m := length a0) in *.
  change (length a) with (S m) in *. assert (is_Some (l !! m)) as [p Hp]. { apply lookup_lt_is_Some_2. subst l. rewrite length_app. change (length a) with (S m). lia. }
  destruct (wlist_in s l m p Hl Hp) as (Lp & wp & Ep & _). change (w_prev win = l !! m) in Pw. rewrite Hp in Pw. rewrite Pw.
  set (s1 := if bool_decide (s_last_window s = Some w) then set_s_last_window (Some p) s else s).
  erewrite (bind_of_ok _ _ s tt s1) by (unfold when; subst s1; by destruct (bool_decide _)).
  assert (s_window_pool s1 = s_window_pool s) as Es1 by (subst s1; by destruct (bool_decide _)). assert (length (s_window_pool s1) = length (s_window_pool s)) as El1 by (by rewrite Es1).
  assert (s_last_window s1 = last (w :: a ++ b)) as Elast.
  { assert (last a = Some p) as Ha. { rewrite last_lookup. change (pred (length a)) with m. subst l. rewrite lookup_app_l in Hp by (change (length a) with (S m); lia). exact Hp. }
    subst s1. rewrite B1. subst l. rewrite last_cons. destruct b as [|n b].
    - rewrite last_snoc, bool_decide_true, app_nil_r by done. cbn [s_last_window set_s_last_window]. by rewrite Ha.
    - rewrite !last_app, last_cons_cons. destruct (last (n :: b)) as [z|] eqn:Ez; [|by apply last_None in Ez]. rewrite bool_decide_false; [by rewrite B1, last_app, last_cons_cons, Ez|].
      intros [= ->]. apply last_Some_elem_of in Ez. apply NoDup_app in Hd as (_ & _ & Hd). apply NoDup_cons in Hd as [Hd _]. done. }
  rewrite Hf, (bind_of_ok _ _ _ f s1) by done. wr_step. erewrite bind_of_ok; [|apply wr_win_ok; pool_len].
  set (s2 := upd_win p (set_w_next (w_next win)) (upd_win f (set_moved true) s1)).
  set (next := w_next win) in *. set (s3 := match next with Some n => upd_win n (set_w_prev (Some p)) s2 | None => s2 end).
  assert (∀ n, next = Some n → (n < length (s_window_pool s))%nat ∧ n ≠ w ∧ n ≠ f) as Hn.
  { intros n En. rewrite En in Nw. symmetry in Nw. destruct (wlist_in s l _ n Hl Nw) as (Ln & _). split; [done|].
    split; intros ->; [pose proof (NoDup_lookup l _ _ _ Hd Nw Hw)|pose proof (NoDup_lookup l _ _ _ Hd Nw Hf)]; lia. }
  assert (length (s_window_pool s3) = length (s_window_pool s)) as El3 by (subst s3 s2; destruct next; rewrite ?upd_win_length; lia).
  erewrite (bind_of_ok _ _ s2 tt s3).
  2: { subst s3. destruct next as [n|]; [|done]. apply wr_win_ok. subst s2. rewrite !upd_win_length. destruct (Hn n eq_refl). lia. }
  wr_step. wr_step. wr_step. md_step. wr_step. erewrite wr_win_ok by pool_len. eexists. split; [reflexivity|].
  match goal with |- wlist ?x _ ∧ _ => set (s' := x) end.
  assert (∀ j, s_window_pool s3 !! j = (λ x, (if bool_decide (next = Some j) then set_w_prev (Some p) else id) ((if bool_decide (j = p) then set_w_next next else id) ((if bool_decide (j = f) then set_moved true else id) x))) <$> s_window_pool s !! j) as H3.
  { intros j. subst s3 s2. rewrite <- Es1. destruct next as [n|]; look; repeat case_decide; repeat case_bool_decide; simplify_eq; look_done. }
  assert (∀ j, next_of s' j = if decide (j = w) then Some (Some f) else if decide (j = p) then Some next else next_of s j) as HN.
  { intros j. subst s'. look. rewrite !H3. assert (p ≠ w) by (intros ->; pose proof (NoDup_lookup l _ _ _ Hd Hp Hw); lia).
    repeat case_decide; simplify_eq; rewrite ?Ew, ?Ep, ?Ef; cbn; repeat case_bool_decide; simplify_eq; look_done. }
  assert (∀ j, prev_of s' j = if decide (j = w) then Some None else if decide (j = f) then Some (Some w) else if bool_decide (next = Some j) then Some (Some p) else prev_of s j) as HP.
  { intros j. subst s'. look. rewrite !H3. repeat case_decide; simplify_eq; rewrite ?Ew, ?Ep, ?Ef; cbn; repeat case_bool_decide; simplify_eq; try look_done;
      match goal with H : _ = Some ?j |- _ => destruct (Hn j H) as (Lj & _); destruct (lookup_lt_is_Some_2 _ _ Lj) as [x ->]; done end. }
  assert (∀ j k, l !! k = Some j → ((j = w ↔ k = S m) ∧ (j = p ↔ k = m) ∧ (j = f ↔ k = 0%nat))) as Hidx.
  { intros j k Hk. repeat split; intros ->; try congruence; by eapply (NoDup_lookup l). }
  split; [|split; [|split; [|split; [done|by subst s' s3 s2 s1; destruct next, (bool_decide _)]]]].
  - split; [apply (NoDup_Permutation_proper l); [subst l; by rewrite Permutation_middle|done]|]. split.
    + split; [done|]. intros [|k] j Hk; [injection Hk as <-; rewrite HN, decide_True by done; done|]. change ((a ++ b) !! k = Some j) in Hk. change ((w :: a ++ b) !! S (S k)) with ((a ++ b) !! S k).
      rewrite (lookup_without a w b) in Hk |- *. fold l in Hk |- *. change (length a) with (S m) in *. destruct (Hidx j _ Hk) as (I1 & I2 & I3). rewrite HN.
      rewrite (decide_False (P := j = w)) by (rewrite I1; case_decide; lia). destruct (decide (j = p)) as [Ej|Ej].
      * apply I2 in Ej. assert (k = m) as -> by (case_decide; lia). rewrite decide_False by lia. by rewrite Nw.
      * rewrite (F2 _ j Hk). do 2 f_equal. rewrite I2 in Ej. repeat case_decide; lia.
    + split; [subst s'; comp_proj; subst s3 s2; destruct next; exact Elast|]. intros [|k] j Hk; [injection Hk as <-; by rewrite HP, decide_True by done|]. change ((a ++ b) !! k = Some j) in Hk.
      assert (match k with O => Some w | S k' => (a ++ b) !! k' end = (w :: a ++ b) !! k) as <- by (by destruct k).
      rewrite (lookup_without a w b) in Hk. fold l in Hk. change (length a) with (S m) in *. destruct (Hidx j _ Hk) as (I1 & I2 & I3). rewrite HP.
      rewrite (decide_False (P := j = w)) by (rewrite I1; case_decide; lia). destruct k as [|k]; [rewrite decide_True by (apply I3; case_decide; lia); done|].
      rewrite (decide_False (P := j = f)) by (rewrite I3; case_decide; lia). rewrite (lookup_without a w b). fold l. change (length a) with (S m).
      destruct (decide (S k < S m)%nat) as [Hk1|Hk1].
      * rewrite bool_decide_false; [|intros En; rewrite En in Nw; pose proof (NoDup_lookup l _ _ _ Hd (eq_sym Nw) Hk); lia]. rewrite (B2 _ j Hk), decide_True by lia. done.
      * destruct (decide (k = m)) as [->|].
        -- rewrite bool_decide_true by (by rewrite Nw). by rewrite decide_True, Hp by lia.
        -- rewrite bool_decide_false; [|intros En; rewrite En in Nw; pose proof (NoDup_lookup l _ _ _ Hd (eq_sym Nw) Hk); lia]. rewrite (B2 _ j Hk), decide_False by lia. done.
  - apply (same_bodies_trans s s3).
    + apply (same_bodies_trans s s1); [unfold same_bodies; by rewrite Es1|]. subst s3 s2. destruct next; bodies.
    + subst s'. bodies.
  - intros _. subst s'. look. repeat case_decide; try congruence. rewrite !H3, Ew. cbn. eexists. split; [reflexivity|done].
Qed.

(** What [remove_window] leaves: the forward links are right; the backward links
    are those of the windows behind the removed one only, unless it was the last. *)
Lemma remove_window_ok s a w b : wlist s (a ++ w :: b) →
  ∃ s', remove_window w s = Ok (tt, s') ∧ fwd s' (a ++ b) ∧ bwd s' (match b with [] => a | _ => b end) ∧ same_bodies s s' ∧ s_full_redraw s' = true.
Proof.
  intros Hl. destruct (id Hl) as (Hd & [F1 F2] & [B1 B2]). set (l := a ++ w :: b) in *.
  assert (l !! length a = Some w) as Hw by apply lookup_mid. destruct (wlist_in s l _ w Hl Hw) as (Lw & win & Ew & Nw & Pw).
  set (m := length a) in *. set (prev := w_prev win) in *. set (next := w_next win) in *.
  assert (next = b !! 0%nat) as Nb. { rewrite Nw. subst l m. rewrite lookup_app_r by lia. by replace (S (length a) - length a)%nat with 1%nat by lia. }
  assert (prev = last a) as Pa. { rewrite Pw, last_lookup. subst l m. destruct a as [|f a]; [done|]. cbn [length pred]. by rewrite lookup_app_l by (cbn; lia). }
  unfold remove_window. rewrite (bind_of_ok _ _ _ s s) by done. rewrite (bind_of_ok _ _ _ win s) by (by apply rd_win_ok). fold prev next.
  set (s1 := if bool_decide (s_last_window s = Some w) then set_s_last_window prev s else s). rewrite (bind_of_ok _ _ s tt s1) by (unfold when; subst s1; case_bool_decide; reflexivity).
  set (s2 := if bool_decide (s_windows s = Some w) then set_s_windows next s1 else s1). rewrite (bind_of_ok _ _ s1 tt s2) by (unfold when; subst s2; case_bool_decide; reflexivity).
  assert (s_window_pool s2 = s_window_pool s) as Es2 by (subst s2 s1; repeat case_bool_decide; reflexivity). assert (length (s_window_pool s2) = length (s_window_pool s)) as El2 by (by rewrite Es2).
  assert (s_windows s1 = s_windows s) as Eh1 by (unfold s1; destruct (bool_decide _); done).
  assert (s_windows s2 = (a ++ b) !! 0%nat) as Eh.
  { unfold s2. destruct (bool_decide_reflect (s_windows s = Some w)) as [E|E].
    - cbn [s_windows set_s_windows]. rewrite Nb. destruct a as [|f a]; [done|]. rewrite F1 in E. injection E as ->. subst l m. pose proof (NoDup_lookup _ 0%nat (length (w :: a)) w Hd eq_refl Hw) as E. done.
    - rewrite Eh1, F1. destruct a as [|f a]; [by rewrite F1 in E|done]. }
  assert (s_last_window s2 = last (match b with [] => a | _ => b end)) as Et.
  { assert (s_last_window s1 = last (match b with [] => a | _ => b end)) as E1; [|unfold s2; destruct (bool_decide (s_windows s = Some w)); exact E1]. unfold s1. rewrite B1. subst l. destruct b as [|n b].
    - by rewrite last_snoc, bool_decide_true by done.
    - rewrite last_app, last_cons_cons. destruct (last (n :: b)) as [z|] eqn:Ez; [|by apply last_None in Ez]. rewrite bool_decide_false; [by rewrite B1, last_app, last_cons_cons, Ez|].
      intros [= ->]. apply last_Some_elem_of in Ez. apply NoDup_app in Hd as (_ & _ & Hd). apply NoDup_cons in Hd as [Hd _]. done. }
  assert (∀ p, prev = Some p → (p < length (s_window_pool s))%nat ∧ l !! pred m = Some p ∧ (0 < m)%nat) as HpL.
  { intros p Ep. assert (l !! pred m = Some p ∧ (0 < m)%nat) as [E Hm]; [|split; [by destruct (wlist_in s l _ p Hl E)|done]]. rewrite Ep in Pw. destruct m; [done|]. split; [by rewrite Pw|lia]. }
  assert (∀ n, next = Some n → (n < length (s_window_pool s))%nat) as HnL. { intros n En. rewrite En in Nw. symmetry in Nw. by destruct (wlist_in s l _ n Hl Nw). }
  set (s3 := match prev with Some p => upd_win w (set_w_prev None) (upd_win p (set_w_next next) s2) | None => s2 end).
  erewrite (bind_of_ok _ _ s2 tt s3). 2: { subst s3. destruct prev as [p|]; [|done]. destruct (HpL p eq_refl). wr_step. apply wr_win_ok. pool_len. }
  assert (∀ p, prev = Some p → p ≠ w) as Hpw. { intros p Ep ->. destruct (HpL w Ep) as (_ & E & Hm). pose proof (NoDup_lookup l _ _ _ Hd E Hw). lia. }
  assert (∀ n, next = Some n → n ≠ w ∧ prev ≠ Some n) as Hnw. { intros n En. rewrite En in Nw. symmetry in Nw. split; [intros ->; pose proof (NoDup_lookup l _ _ _ Hd Nw Hw); lia|].
    intros Ep. destruct (HpL n Ep) as (_ & E & Hm). pose proof (NoDup_lookup l _ _ _ Hd E Nw). lia. }
  assert (s_window_pool s3 !! w = Some (set_w_prev None win)) as Ew3.
  { subst s3. destruct prev as [p|] eqn:Ep; [pose proof (Hpw p eq_refl); look; repeat case_decide; try congruence; rewrite Es2, Ew; done|]. rewrite Es2, Ew. f_equal. destruct win. cbn in *. by subst. }
  rewrite (bind_of_ok _ _ _ (set_w_prev None win) s3) by (by apply rd_win_ok). change (w_next (set_w_prev None win)) with next. change (w_prev (set_w_prev None win)) with (@None nat).
  assert (length (s_window_pool s3) = length (s_window_pool s)) as El3 by (subst s3; destruct prev; rewrite ?upd_win_length; lia).
  set (s4 := match next with Some n => upd_win w (set_w_next None) (upd_win n (set_w_prev None) s3) | None => s3 end).
  erewrite (bind_of_ok _ _ s3 tt s4). 2: { subst s4. destruct next as [n|]; [|done]. pose proof (HnL n eq_refl). wr_step. apply wr_win_ok. pool_len. }
  md_step. unfold modify. eexists. split; [reflexivity|].
  assert (s_windows s4 = s_windows s2 ∧ s_last_window s4 = s_last_window s2) as [Eh4 Et4] by (subst s4 s3; by destruct next, prev).
  assert (∀ j, j ≠ w → next_of s4 j = if bool_decide (prev = Some j) then Some next else next_of s j) as HN.
  { intros j Hj. unfold next_of. rewrite <- Es2. subst s4 s3. destruct prev as [p|] eqn:Ep, next as [n|] eqn:En; try (destruct (HpL p eq_refl) as (Lp & _); destruct (lookup_lt_is_Some_2 _ _ (eq_ind_r (λ z, (p < z)%nat) Lp El2)) as [x Hx]);
      look; repeat case_decide; repeat case_bool_decide; simplify_eq; rewrite ?Hx; look_done. }
  assert (∀ j, j ≠ w → prev_of s4 j = if bool_decide (next = Some j) then Some None else prev_of s j) as HP.
  { intros j Hj. unfold prev_of. rewrite <- Es2. subst s4 s3. destruct prev as [p|] eqn:Ep, next as [n|] eqn:En; try (pose proof (HnL n eq_refl) as Ln; destruct (lookup_lt_is_Some_2 _ _ (eq_ind_r (λ z, (n < z)%nat) Ln El2)) as [x Hx]);
      look; repeat case_decide; repeat case_bool_decide; simplify_eq; rewrite ?Hx; look_done. }
  assert (∀ j k, (a ++ b) !! k = Some j → j ≠ w) as Hne.
  { intros j k Hk ->. rewrite (lookup_without a w b) in Hk. fold l m in Hk. pose proof (NoDup_lookup l _ _ _ Hd Hk Hw). case_decide; lia. }
  split; [|split; [|split; [|done]]].
  - split; [exact (eq_trans Eh4 Eh)|]. intros k j Hk. change (next_of s4 j = Some ((a ++ b) !! S k)). rewrite HN by (by eapply Hne). rewrite (lookup_without a w b) in Hk |- *. fold l m in Hk |- *.
    case_bool_decide as Ep.
    + destruct (HpL j Ep) as (_ & E & Hm). pose proof (NoDup_lookup l _ _ _ Hd E Hk) as Ek. assert (k = pred m) as -> by (case_decide; lia). rewrite decide_False by lia. rewrite Nw. do 2 f_equal. lia.
    + rewrite (F2 _ j Hk). do 2 f_equal. destruct (decide (k < m)%nat); [|rewrite decide_False by lia; done]. destruct (decide (S k < m)%nat); [done|]. exfalso. apply Ep. rewrite Pa, last_lookup.
      unfold l in Hk. rewrite lookup_app_l in Hk by (fold m; lia). fold m. by replace (pred m) with k by lia.
  - split; [exact (eq_trans Et4 Et)|]. intros k j Hk. change (prev_of s4 j = Some (match k with O => None | S k' => (match b with [] => a | _ => b end) !! k' end)). destruct b as [|n b].
    + assert (l !! k = Some j) as Hk' by (subst l; by apply lookup_app_l_Some). rewrite HP by (eapply (Hne j k); by rewrite app_nil_r). rewrite bool_decide_false by (by rewrite Nb). rewrite (B2 k j Hk'). destruct k as [|k]; [done|].
      f_equal. subst l. apply lookup_app_l. apply lookup_lt_Some in Hk. lia.
    + assert (∀ i, (n :: b) !! i = l !! (S m + i)%nat) as Hb. { intros i. subst l m. rewrite lookup_app_r by lia. by replace (S (length a) + i - length a)%nat with (S i) by lia. }
      rewrite HP by (eapply (Hne j (m + k)%nat); subst m; rewrite lookup_app_r by lia; by replace (length a + k - length a)%nat with k by lia). rewrite Hb in Hk. rewrite Nb. cbn [lookup list_lookup]. destruct k as [|k].
      * rewrite bool_decide_true; [done|]. rewrite <- Hb in Hk. done.
      * rewrite bool_decide_false; [rewrite (B2 _ j Hk), Hb; change (Some (l !! (m + S k)%nat) = Some (l !! (S m + k)%nat)); do 2 f_equal; lia|]. intros [= ->]. assert (l !! (S m + 0)%nat = Some j) as E0 by (by rewrite <- Hb). pose proof (NoDup_lookup l _ _ _ Hd Hk E0). lia.
  - change (same_bodies s s4). apply (same_bodies_trans s s2); [unfold same_bodies; by rewrite Es2|]. subst s4 s3. destruct prev, next; bodies.
Qed.

(** ** The topmost window *)

Definition shows (s : comp) (x y : Z) (i : nat) : bool :=
  match s_window_pool s !! i with Some w => negb (hidden w) && hit_window w x y | None => false end.
Definition top_at (s : comp) (l : list nat) (x y : Z) : option nat := List.find (shows s x y) l.

Lemma window_at_from_ok s l x y : wlist s l → ∀ fuel k, (length l ≤ k + fuel)%nat →
  window_at_from fuel (l !! k) x y s = Ok (top_at s (drop k l) x y, s).
Proof.
  intros Hl. induction fuel as [|fuel IH]; intros k Hk; destruct (l !! k) as [i|] eqn:E; cbn [window_at_from].
  - apply lookup_lt_Some in E. lia.
  - apply lookup_ge_None in E. by rewrite drop_ge by lia.
  - destruct (wlist_in s l k i Hl E) as (_ & w & Ew & Nw & _). rewrite (bind_of_ok _ _ _ w s) by (by apply rd_win_ok). rewrite (drop_S l i k E). unfold top_at, shows. cbn [List.find]. rewrite Ew.
    destruct (negb (hidden w) && hit_window w x y); [done|]. rewrite Nw. apply IH. lia.
  - apply lookup_ge_None in E. by rewrite drop_ge by lia.
Qed.

Definition pools_ok (s : comp) : Prop := length (s_window_pool s) = WINDOW_MAX_COUNT.

Lemma wlist_length s l : wlist s l → pools_ok s → (length l ≤ WINDOW_MAX_COUNT)%nat.
Proof.
  intros Hl Hp. rewrite <- (length_seq WINDOW_MAX_COUNT 0). apply submseteq_length, NoDup_submseteq; [apply Hl|]. intros i [k Hk]%list_elem_of_lookup.
  destruct (wlist_in s l k i Hl Hk) as (Hi & _). rewrite Hp in Hi. apply elem_of_seq. lia.
Qed.

Lemma get_window_at_pos_ok s l x y : wlist s l → pools_ok s → get_window_at_pos x y s = Ok (top_at s l x y, s).
Proof.
  intros Hl Hp. unfold get_window_at_pos. rewrite (bind_of_ok _ _ _ s s) by done. destruct (id Hl) as (_ & [-> _] & _). apply (window_at_from_ok s l x y Hl WINDOW_MAX_COUNT 0). pose proof (wlist_length s l Hl Hp). lia.
Qed.

(** ** What the hover state leaves alone *)

Definition core (w : window) : bool * (Z * Z) * fb_info * option nat * bool * option nat * option nat := (body w, hidden w, w_prev w, w_next w).

Lemma update_hover_ok x y n : ∀ i s, (i + n ≤ length (s_window_pool s))%nat →
  ∃ pool, update_hover n i x y s = Ok (tt, set_s_window_pool pool s) ∧ core <$> pool = core <$> s_window_pool s.
Proof.
  induction n as [|n IH]; intros i s Hi; cbn [update_hover]; [exists (s_window_pool s); split; [by destruct s|done]|].
  destruct (lookup_lt_is_Some_2 (s_window_pool s) i ltac:(lia)) as [w Ew]. rewrite (bind_of_ok _ _ _ w s) by (by apply rd_win_ok).
  assert (∃ pool, (if negb (w_exists w) || hidden w then mret tt else
      let hm := hit_minimize w x y in let hc := hit_close w x y in
      when (negb (eqb hm (hover_minimize w)) || negb (eqb hc (hover_close w))) (wr_win i (set_hover_minimize hm) ;; wr_win i (set_hover_close hc) ;; wr_win i (set_title_dirty true))) s
    = Ok (tt, set_s_window_pool pool s) ∧ core <$> pool = core <$> s_window_pool s) as (pool & E & Hc).
  { destruct (negb (w_exists w) || hidden w); [exists (s_window_pool s); split; [by destruct s|done]|]. cbv zeta. unfold when. destruct (_ || _); [|exists (s_window_pool s); split; [by destruct s|done]].
    wr_step. wr_step. rewrite wr_win_ok by pool_len. eexists. split; [reflexivity|]. cbn [s_window_pool upd_win set_s_window_pool]. apply list_eq. intros j. rewrite !list_lookup_fmap.
    destruct (decide (j = i)) as [->|]; [|by rewrite !list_lookup_alter_ne by done]. rewrite !list_lookup_alter_eq, Ew. done. }
  rewrite (bind_of_ok _ _ _ tt _ E). destruct (IH (S i) (set_s_window_pool pool s)) as (pool' & E' & Hc').
  { cbn [s_window_pool set_s_window_pool]. apply (f_equal length) in Hc. rewrite !length_fmap in Hc. lia. }
  exists pool'. split; [by rewrite E'|]. by rewrite Hc', <- Hc.
Qed.

(** States whose windows agree in what matters here. *)
Definition same_cores (s t : comp) : Prop :=
  core <$> s_window_pool t = core <$> s_window_pool s ∧ s_windows t = s_windows s ∧ s_last_window t = s_last_window s.

Lemma same_core_lookup s t i w : same_cores s t → s_window_pool s !! i = Some w → ∃ w', s_window_pool t !! i = Some w' ∧ core w' = core w.
Proof.
  intros (H & _) E. apply (f_equal (.!! i)) in H. rewrite !list_lookup_fmap, E in H. destruct (s_window_pool t !! i) as [w'|]; [|done]. exists w'. split; [done|]. cbn in H. congruence.
Qed.
Lemma same_cores_links s t : same_cores s t → links_only s t.
Proof.
  intros (H & H1 & H2). split; [|split; [|done]]; intros i; apply (f_equal (.!! i)) in H; rewrite !list_lookup_fmap in H; unfold next_of, prev_of;
    destruct (s_window_pool t !! i), (s_window_pool s !! i); cbn in *; try done; injection H; intros; by f_equal.
Qed.
Lemma same_cores_shows s t x y i : same_cores s t → shows t x y i = shows s x y i.
Proof.
  intros (H & _). apply (f_equal (.!! i)) in H. rewrite !list_lookup_fmap in H. unfold shows, hit_window. destruct (s_window_pool t !! i) as [w'|], (s_window_pool s !! i) as [w|]; cbn in *; try done.
  injection H as E1 E2 E3 E4 E5 E6 E7 E8. by rewrite E6, E2, E3, E4.
Qed.
Lemma top_at_cores s t l x y : same_cores s t → top_at t l x y = top_at s l x y.
Proof. intros H. unfold top_at. induction l as [|i l IH]; [done|]. cbn [List.find]. rewrite (same_cores_shows s t) by done. by rewrite IH. Qed.

(** ** A press of the left button *)

(** Every window of the list belongs to a client with a channel. *)
Definition clients_ok (s : comp) (l : list nat) : Prop := ∀ i w, i ∈ l → s_window_pool s !! i = Some w → ∃ c cl, w_client w = Some c ∧ s_client_pool s !! c = Some cl.
Definition channel_of (s : comp) (w : window) : Z := match w_client w with Some c => match s_client_pool s !! c with Some cl => c_ch cl | None => 0 end | None => 0 end.

Lemma client_post_event_ok s w ev c cl : w_client w = Some c → s_client_pool s !! c = Some cl →
  client_post_event (w_client w) ev s = Ok (tt, set_posted (posted s ++ [(channel_of s w, ev)]) s).
Proof.
  intros E1 E2. unfold client_post_event, channel_of. rewrite E1, E2. rewrite (bind_of_ok _ _ _ c s) by done. rewrite (bind_of_ok _ _ _ cl s); [done|]. unfold rd_client. rewrite (bind_of_ok _ _ _ s s) by done. by rewrite E2.
Qed.

Lemma body_lookup s t i w : same_bodies s t → s_window_pool s !! i = Some w → ∃ w', s_window_pool t !! i = Some w' ∧ body w' = body w.
Proof.
  intros H E. apply (f_equal (.!! i)) in H. rewrite !list_lookup_fmap, E in H. destruct (s_window_pool t !! i) as [w'|]; [|done]. exists w'. split; [done|]. cbn in H. congruence.
Qed.

Lemma body_hits w w' x y : body w' = body w → hit_minimize w' x y = hit_minimize w x y ∧ hit_close w' x y = hit_close w x y ∧ hit_title_bar w' x y = hit_title_bar w x y ∧
  w_x w' = w_x w ∧ w_y w' = w_y w ∧ w_client w' = w_client w.
Proof. intros E. injection E as E1 E2 E3 E4 E5. unfold hit_minimize, hit_close, hit_title_bar. by rewrite E2, E3, E4. Qed.

Lemma find_split {A} (f : A → bool) l x : List.find f l = Some x → ∃ a b, l = a ++ x :: b ∧ f x = true ∧ ∀ z, z ∈ a → f z = false.
Proof.
  induction l as [|z l IH]; [done|]. cbn [List.find]. destruct (f z) eqn:E.
  - intros [= ->]. exists [], l. split; [done|]. split; [done|]. by intros y Hy%elem_of_nil.
  - intros H. destruct (IH H) as (a & b & -> & Hx & Ha). exists (z :: a), b. split; [done|]. split; [done|]. intros y [->|Hy]%elem_of_cons; [done|by apply Ha].
Qed.

Definition ev_x := Input.Input.me_x.
Definition ev_y := Input.Input.me_y.
Definition pressed (s : comp) (ev : mouse_event) : bool := button1 (Input.Input.me_buttons ev) && negb (button1 (Input.Input.me_buttons (g_mouse s))).

(** What a press on the window [w] does. *)
Definition press_result (s : comp) (ev : mouse_event) (w : nat) (win : window) (s' : comp) : Prop :=
  if hit_minimize win (ev_x ev) (ev_y ev) then
    posted s' = posted s ∧ s_dragged_window s' = None ∧ ∃ x, s_window_pool s' !! w = Some x ∧ hidden x = true
  else if hit_close win (ev_x ev) (ev_y ev) then posted s' = posted s ++ [(channel_of s win, WET_CLOSE)] ∧ s_dragged_window s' = None
  else if hit_title_bar win (ev_x ev) (ev_y ev) then
    posted s' = posted s ∧ s_dragged_window s' = Some w ∧ g_drag_off_x s' = ev_x ev - w_x win ∧ g_drag_off_y s' = ev_y ev - w_y win
  else
    posted s' = posted s ++ [(channel_of s win, WET_MOUSE (ev_x ev - w_x win) (ev_y ev - w_y win - WINDOW_TITLE_BAR_HEIGHT) (Input.Input.me_buttons ev) (Input.Input.me_scroll ev))] ∧
    s_dragged_window s' = None.

(** Where a window is hit, its buttons are part of the title bar. *)
Lemma buttons_in_title w x y : hit_window w x y = true → hit_minimize w x y || hit_close w x y = true → hit_title_bar w x y = true.
Proof. unfold hit_window, hit_minimize, hit_close, hit_title_bar, PT_IN_RECT, WINDOW_BUTTON_WIDTH, WINDOW_TITLE_BAR_HEIGHT. lia. Qed.

Lemma upd_win_twice i f g s : upd_win i g (upd_win i f s) = upd_win i (g ∘ f) s.
Proof.
  assert (alter g i (alter f i (s_window_pool s)) = alter (g ∘ f) i (s_window_pool s)) as E.
  { apply list_eq. intros j. destruct (decide (j = i)) as [->|]; [rewrite !list_lookup_alter_eq; by destruct (s_window_pool s !! i)|by rewrite !list_lookup_alter_ne]. }
  unfold upd_win. cbn [s_window_pool set_s_window_pool]. by rewrite E.
Qed.

Definition shown (show : bool) (w : window) : window := set_title_dirty true (set_moved true (set_prev_y (w_y w) (set_prev_x (w_x w) (set_hidden (negb show) w)))).

Lemma window_show_ok s w win show : s_window_pool s !! w = Some win → hidden win = show → window_show w show s = Ok (tt, upd_win w (shown show) s).
Proof.
  intros E H. assert (w < length (s_window_pool s))%nat as L by (by apply lookup_lt_Some in E). unfold window_show. rewrite (bind_of_ok _ _ _ win s) by (by apply rd_win_ok). rewrite H, eqb_reflx. cbn [when].
  repeat (erewrite bind_of_ok; [|apply wr_win_ok; rewrite ?upd_win_length; exact L]). rewrite wr_win_ok by (rewrite !upd_win_length; exact L). by rewrite !upd_win_twice.
Qed.

(** The arm of [handle_mouse] for a press. *)
Lemma press_window_ok s l w win ev : wlist s l → pools_ok s → clients_ok s l → s_dragged_window s = None →
  top_at s l (ev_x ev) (ev_y ev) = Some w → s_window_pool s !! w = Some win →
  ∃ a b s1 s2 x, l = a ++ w :: b ∧
    (window_focus w ;;
     win ← rd_win w;
     if hit_minimize win (ev_x ev) (ev_y ev) then window_show w false
     else if hit_close win (ev_x ev) (ev_y ev) then client_post_event (w_client win) WET_CLOSE
     else when (hit_title_bar win (ev_x ev) (ev_y ev)) (
       modify (set_s_dragged_window (Some w)) ;; modify (set_g_drag_off_x (ev_x ev - w_x win)) ;; modify (set_g_drag_off_y (ev_y ev - w_y win)))) s = Ok (tt, s1) ∧
    s_window_pool s1 !! w = Some x ∧ body x = body win ∧
    when (bool_decide (s_dragged_window s1 = None) && negb (hit_title_bar x (ev_x ev) (ev_y ev)))
      (client_post_event (w_client x) (WET_MOUSE (ev_x ev - w_x x) (ev_y ev - w_y x - WINDOW_TITLE_BAR_HEIGHT) (Input.Input.me_buttons ev) (Input.Input.me_scroll ev))) s1 = Ok (tt, s2) ∧
    wlist s2 (w :: a ++ b) ∧ same_bodies s s2 ∧ press_result s ev w win s2.
Proof.
  intros Hl Hp Hcl Hdr Htop Ew. destruct (find_split _ _ _ Htop) as (a & b & -> & Hsh & _). unfold shows in Hsh. rewrite Ew in Hsh. apply andb_prop in Hsh as [Hvis Hhit].
  destruct (window_focus_ok s a w b Hl) as (s0 & E0 & Hl0 & Hb0 & Hv & Hsame & Ec & Epo & Ed). destruct (body_lookup s s0 w win Hb0 Ew) as (win0 & Ew0 & Hbody).
  assert (hidden win0 = false) as Hh0.
  { destruct a as [|f a]; [rewrite (Hsame eq_refl), Ew in Ew0; injection Ew0 as <-; by apply negb_true_iff|]. destruct (Hv ltac:(done)) as (x & Ex & Hx). congruence. }
  destruct (body_hits win win0 (ev_x ev) (ev_y ev) Hbody) as (B1 & B2 & B3 & B4 & B5 & B6).
  destruct (Hcl w win ltac:(set_solver) Ew) as (c & cl & Ec1 & Ec2). assert (channel_of s0 win0 = channel_of s win) as Ech by (unfold channel_of; by rewrite B6, Ec).
  exists a, b. rewrite (bind_of_ok _ _ _ tt s0 E0), (bind_of_ok _ _ _ win0 s0) by (by apply rd_win_ok). rewrite B1, B2, B3.
  pose proof (buttons_in_title win _ _ Hhit) as Hbt. unfold press_result.
  assert (w < length (s_window_pool s0))%nat as Lw by (by apply lookup_lt_Some in Ew0).
  destruct (hit_minimize win (ev_x ev) (ev_y ev)) eqn:Em; [|destruct (hit_close win (ev_x ev) (ev_y ev)) eqn:Ecl; [|destruct (hit_title_bar win (ev_x ev) (ev_y ev)) eqn:Et]].
  - rewrite (window_show_ok s0 w win0 false Ew0 Hh0). exists (upd_win w (shown false) s0), (upd_win w (shown false) s0), (shown false win0). split; [done|]. split; [done|].
    assert (s_window_pool (upd_win w (shown false) s0) !! w = Some (shown false win0)) as Es by (rewrite upd_win_lookup, decide_True by done; by rewrite Ew0).
    split; [done|]. split; [exact Hbody|]. assert (hit_title_bar (shown false win0) (ev_x ev) (ev_y ev) = true) as -> by (change (hit_title_bar win0 (ev_x ev) (ev_y ev) = true); by rewrite B3, Hbt).
    rewrite andb_false_r. split; [done|]. split; [|split; [|split; [exact Epo|split; [exact (eq_trans Ed Hdr)|by exists (shown false win0)]]]].
    + eapply wlist_links; [|exact Hl0]. split; [|split; [|done]]; intros j; rewrite ?upd_next, ?upd_prev; case_decide; try done; unfold next_of, prev_of; by destruct (s_window_pool s0 !! j).
    + eapply same_bodies_trans; [exact Hb0|]. by apply upd_bodies.
  - rewrite (client_post_event_ok s0 win0 _ c cl) by congruence. eexists _, _, win0. split; [done|]. split; [reflexivity|]. split; [exact Ew0|]. split; [done|]. rewrite B3, Hbt, andb_false_r by (by rewrite orb_true_r).
    split; [reflexivity|]. split; [by apply (wlist_links s0)|]. split; [exact Hb0|]. cbn [posted set_posted]. split; [by rewrite Epo, Ech|exact (eq_trans Ed Hdr)].
  - cbn [when]. eexists _, _, win0. split; [done|]. split; [reflexivity|]. split; [exact Ew0|]. split; [done|]. rewrite B3. rewrite andb_false_r. split; [reflexivity|].
    split; [by apply (wlist_links s0)|]. split; [exact Hb0|]. split; [exact Epo|]. split; [done|]. by rewrite B4, B5.
  - cbn [when]. eexists _, _, win0. split; [done|]. split; [reflexivity|]. split; [exact Ew0|]. split; [done|]. rewrite B3, bool_decide_true by (exact (eq_trans Ed Hdr)). cbn [andb negb when].
    rewrite (client_post_event_ok s0 win0 _ c cl) by congruence. split; [reflexivity|]. split; [by apply (wlist_links s0)|]. split; [exact Hb0|]. cbn [posted set_posted]. split; [by rewrite Epo, Ech, B4, B5|exact (eq_trans Ed Hdr)].
Qed.

(** The pointer and the last event of a state. *)
Definition pointed (ev : mouse_event) (s : comp) : comp :=
  set_g_cursor_y (ev_y ev) (set_g_cursor_x (ev_x ev) (set_g_prev_cursor_y (g_cursor_y s) (set_g_prev_cursor_x (g_cursor_x s) s))).
Definition moved_to (ev : mouse_event) (s : comp) : comp := set_g_mouse ev (pointed ev s).

Lemma clients_ok_cores s t l : same_cores s t → s_client_pool t = s_client_pool s → clients_ok s l → clients_ok t l.
Proof.
  intros Hc Hcl H i w Hi Ew. destruct Hc as (Hc & _). apply (f_equal (.!! i)) in Hc. rewrite !list_lookup_fmap, Ew in Hc. destruct (s_window_pool s !! i) as [w'|] eqn:E; [|done].
  cbn in Hc. injection Hc as _ _ _ _ E5 _ _ _. rewrite E5, Hcl. by apply (H i w').
Qed.

Lemma handle_press_ok s l ev : wlist s l → pools_ok s → clients_ok s l → s_dragged_window s = None → pressed s ev = true →
  ∃ s', handle_mouse ev s = Ok (tt, s') ∧ pools_ok s' ∧
    match top_at s l (ev_x ev) (ev_y ev) with
    | None => wlist s' l ∧ posted s' = posted s ∧ s_dragged_window s' = None
    | Some w => ∃ a b win, l = a ++ w :: b ∧ s_window_pool s !! w = Some win ∧ wlist s' (w :: a ++ b) ∧ press_result s ev w win s' ∧ ∃ win', s_window_pool s' !! w = Some win' ∧ body win' = body win
    end.
Proof.
  intros Hl Hp Hcl Hdr Hpr. unfold pressed in Hpr. apply andb_prop in Hpr as [Hdown Hwas%negb_true_iff]. unfold handle_mouse. rewrite (bind_of_ok _ _ _ tt (pointed ev s)), (bind_of_ok _ _ _ (pointed ev s) (pointed ev s)) by reflexivity.
  change (g_mouse (pointed ev s)) with (g_mouse s). rewrite Hdown, Hwas. cbn [andb negb when]. rewrite (bind_of_ok _ _ _ tt (moved_to ev s)), (bind_of_ok _ _ _ tt (moved_to ev s)), (bind_of_ok _ _ _ (moved_to ev s) (moved_to ev s)) by reflexivity.
  change (s_dragged_window (moved_to ev s)) with (s_dragged_window s). rewrite Hdr. erewrite bind_of_ok; [|reflexivity]. cbn iota.
  destruct (update_hover_ok (ev_x ev) (ev_y ev) WINDOW_MAX_COUNT 0 (moved_to ev s)) as (pool & E & Hc); [cbn; by rewrite Hp|]. rewrite (bind_of_ok _ _ _ tt _ E).
  set (s1 := set_s_window_pool pool (moved_to ev s)) in *. assert (same_cores s s1) as Hsc by done. assert (wlist s1 l) as Hl1 by (eapply wlist_links; [by apply same_cores_links|done]).
  assert (pools_ok s1) as Hp1. { unfold pools_ok. rewrite <- Hp. apply (f_equal length) in Hc. by rewrite !length_fmap in Hc. }
  rewrite (bind_of_ok _ _ _ _ s1 (get_window_at_pos_ok s1 l (ev_x ev) (ev_y ev) Hl1 Hp1)). rewrite (top_at_cores s s1 l) by done.
  destruct (top_at s l (ev_x ev) (ev_y ev)) as [w|] eqn:Et; [|exists s1; do 4 (split; [done|]); exact Hdr].
  destruct (find_split _ _ _ Et) as (a0 & b0 & E0 & Hsh & _). unfold shows in Hsh. destruct (s_window_pool s !! w) as [win|] eqn:Ew; [|done].
  destruct (same_core_lookup s s1 w win Hsc Ew) as (win1 & Ew1 & Hcore). assert (body win1 = body win) as Hb1 by (unfold core in Hcore; congruence).
  rewrite <- (top_at_cores s s1 l) in Et by done.
  destruct (press_window_ok s1 l w win1 ev Hl1 Hp1) as (a & b & s2 & s3 & x & El & E2 & Ex & Hbx & E3 & Hl3 & Hb3 & Hres); [by apply (clients_ok_cores s)|done|done|done|].
  exists s3. split.
  - rewrite (bind_of_ok _ _ _ tt s2 E2). erewrite bind_of_ok; [|reflexivity]. rewrite (bind_of_ok _ _ _ x s2) by (by apply rd_win_ok). exact E3.
  - split; [unfold pools_ok; rewrite <- Hp1; by apply same_bodies_length|]. exists a, b, win. split; [done|]. split; [done|]. split; [done|]. split.
    + destruct (body_hits win win1 (ev_x ev) (ev_y ev) Hb1) as (B1 & B2 & B3 & B4 & B5 & B6). unfold press_result in *. rewrite B1, B2, B3, B4, B5 in Hres. assert (channel_of s1 win1 = channel_of s win) as Ec by (unfold channel_of; by rewrite B6).
      rewrite Ec in Hres. exact Hres.
    + destruct (body_lookup s1 s3 w win1 Hb3 Ew1) as (win' & Ew' & Hb'). exists win'. split; [done|]. congruence.
Qed.

(** ** Dragging *)

Definition held (ev : mouse_event) : Prop := button1 (Input.Input.me_buttons ev) = true ∧ - 2 ^ 30 ≤ ev_x ev < 2 ^ 30 ∧ - 2 ^ 30 ≤ ev_y ev < 2 ^ 30.

Lemma handle_drag_ok s l ev d win : wlist s l → s_dragged_window s = Some d → s_window_pool s !! d = Some win → held ev →
  - 2 ^ 30 ≤ g_drag_off_x s < 2 ^ 30 → - 2 ^ 30 ≤ g_drag_off_y s < 2 ^ 30 →
  ∃ s' win', handle_mouse ev s = Ok (tt, s') ∧ wlist s' l ∧ posted s' = posted s ∧ s_dragged_window s' = Some d ∧ g_drag_off_x s' = g_drag_off_x s ∧ g_drag_off_y s' = g_drag_off_y s ∧
    s_window_pool s' !! d = Some win' ∧ w_x win' = ev_x ev - g_drag_off_x s ∧ w_y win' = ev_y ev - g_drag_off_y s.
Proof.
  intros Hl Hdr Ew (Hdown & Hx & Hy) Hox Hoy. assert (d < length (s_window_pool s))%nat as L by (by apply lookup_lt_Some in Ew). unfold handle_mouse. rewrite (bind_of_ok _ _ _ tt (pointed ev s)), (bind_of_ok _ _ _ (pointed ev s) (pointed ev s)) by reflexivity.
  rewrite Hdown. cbn [andb negb when]. rewrite (bind_of_ok _ _ _ tt (moved_to ev s)), (bind_of_ok _ _ _ tt (moved_to ev s)), (bind_of_ok _ _ _ (moved_to ev s) (moved_to ev s)) by reflexivity.
  change (s_dragged_window (moved_to ev s)) with (s_dragged_window s). rewrite Hdr.
  set (s1 := moved_to ev s). assert (d < length (s_window_pool s1))%nat as L1 by exact L.
  erewrite bind_of_ok; [|repeat (erewrite bind_of_ok; [|apply wr_win_ok; rewrite ?upd_win_length; exact L1]); apply wr_win_ok; rewrite !upd_win_length; exact L1]. rewrite !upd_win_twice.
  change (g_drag_off_x s1) with (g_drag_off_x s). change (g_drag_off_y s1) with (g_drag_off_y s). fold ev_x ev_y. rewrite !i32_id by lia.
  eexists _, _. split; [reflexivity|]. split.
  - eapply wlist_links; [|exact Hl]. split; [|split; [|done]]; intros j; rewrite ?upd_next, ?upd_prev; (case_decide; [|done]); subst j; unfold next_of, prev_of; cbn [s_window_pool moved_to]; change (s_window_pool s1) with (s_window_pool s); by rewrite Ew.
  - do 4 (split; [done|]). rewrite upd_win_lookup, decide_True by done. change (s_window_pool s1) with (s_window_pool s). rewrite Ew. split; [reflexivity|]. done.
Qed.

Fixpoint run_mouse (evs : list mouse_event) : M comp unit :=
  match evs with [] => mret tt | ev :: evs' => handle_mouse ev ;; run_mouse evs' end.

Lemma drags_ok l d evs : ∀ s win, wlist s l → s_dragged_window s = Some d → s_window_pool s !! d = Some win → Forall held evs →
  - 2 ^ 30 ≤ g_drag_off_x s < 2 ^ 30 → - 2 ^ 30 ≤ g_drag_off_y s < 2 ^ 30 →
  ∃ s' win', run_mouse evs s = Ok (tt, s') ∧ wlist s' l ∧ posted s' = posted s ∧ s_window_pool s' !! d = Some win' ∧
    (w_x win', w_y win') = match last evs with Some e => (ev_x e - g_drag_off_x s, ev_y e - g_drag_off_y s) | None => (w_x win, w_y win) end.
Proof.
  induction evs as [|ev evs IH]; intros s win Hl Hd Ew Hh Hx Hy; cbn [run_mouse]; [by exists s, win|]. apply Forall_cons in Hh as [H1 H2].
  destruct (handle_drag_ok s l ev d win Hl Hd Ew H1 Hx Hy) as (s1 & w1 & E1 & Hl1 & Hp1 & Hd1 & Hox & Hoy & Ew1 & Px & Py). rewrite (bind_of_ok _ _ _ tt s1 E1).
  destruct (IH s1 w1 Hl1 Hd1 Ew1 H2) as (s2 & w2 & E2 & Hl2 & Hp2 & Ew2 & Pos); [by rewrite Hox|by rewrite Hoy|]. exists s2, w2. split; [done|]. split; [done|]. split; [congruence|]. split; [done|].
  rewrite Pos, Hox, Hoy, last_cons. destruct (last evs); [done|]. by rewrite Px, Py.
Qed.

(** C23: the list of windows from front to back.  A window added is in front; one
    that is focused moves to the front and the others keep their order; the window
    at a position is the first visible one of the list that contains it, and the
    search ends.  Removing a window leaves the right list to a walk from the front,
    but a walk from the back, as the compositor makes to draw, only finds the
    windows behind the one removed, unless that was the last: the windows in front
    of it are no longer drawn. *)
Theorem window_list_correct s l : wlist s l → pools_ok s →
  (∀ w, w ∉ l → (w < WINDOW_MAX_COUNT)%nat → ∃ s', add_window w s = Ok (tt, s') ∧ wlist s' (w :: l) ∧ same_bodies s s') ∧
  (∀ a w b, l = a ++ w :: b → ∃ s', window_focus w s = Ok (tt, s') ∧ wlist s' (w :: a ++ b) ∧ same_bodies s s') ∧
  (∀ x y, get_window_at_pos x y s = Ok (top_at s l x y, s)) ∧
  (∀ a w b, l = a ++ w :: b → ∃ s', remove_window w s = Ok (tt, s') ∧ same_bodies s s' ∧ fwd s' (a ++ b) ∧ bwd s' (match b with [] => a | _ => b end)).
Proof.
  intros Hl Hp. split; [|split; [|split]].
  - intros w Hw Hlt. apply add_window_ok; [done..|by rewrite Hp].
  - intros a w b ->. destruct (window_focus_ok s a w b Hl) as (s' & E & H & Hb & _). by exists s'.
  - intros x y. by apply get_window_at_pos_ok.
  - intros a w b ->. destruct (remove_window_ok s a w b Hl) as (s' & E & Hf & Hbw & Hb & _). by exists s'.
Qed.

(** C24: a press of the left button goes to the topmost visible window under the
    pointer, which comes to the front: on the minimise button it is hidden, on the
    close button its client is asked to close, on the rest of the title bar the
    drag begins, below it the client gets the event in the window's coordinates;
    where no window is nothing happens.  While the button stays down a dragged
    window follows the pointer and no client hears of it. *)
Theorem mouse_moves_windows s l ev drags : wlist s l → pools_ok s → clients_ok s l → s_dragged_window s = None → pressed s ev = true →
  small (ev_x ev) → small (ev_y ev) → Forall held drags →
  ∃ s', handle_mouse ev s = Ok (tt, s') ∧
    match top_at s l (ev_x ev) (ev_y ev) with
    | None => wlist s' l ∧ posted s' = posted s ∧ s_dragged_window s' = None
    | Some w => ∃ a b win, l = a ++ w :: b ∧ s_window_pool s !! w = Some win ∧ wlist s' (w :: a ++ b) ∧ press_result s ev w win s' ∧
        (s_dragged_window s' = Some w → small (w_x win) → small (w_y win) →
          ∃ s'' win', run_mouse drags s' = Ok (tt, s'') ∧ wlist s'' (w :: a ++ b) ∧ posted s'' = posted s ∧ s_window_pool s'' !! w = Some win' ∧
            (w_x win', w_y win') = match last drags with Some e => (w_x win + (ev_x e - ev_x ev), w_y win + (ev_y e - ev_y ev)) | None => (w_x win, w_y win) end)
    end.
Proof.
  intros Hl Hp Hc Hd Hpr Hsx Hsy Hdr. destruct (handle_press_ok s l ev Hl Hp Hc Hd Hpr) as (s' & E & _ & H). exists s'. split; [done|].
  destruct (top_at s l (ev_x ev) (ev_y ev)) as [w|]; [|done]. destruct H as (a & b & win & -> & Ew & Hl' & Hres & win1 & Ew1 & Hb1). exists a, b, win. do 4 (split; [done|]).
  intros Hdw Hwx Hwy. unfold small, press_result in *. destruct (hit_minimize win _ _); [by destruct Hres as (_ & Hres & _); congruence|]. destruct (hit_close win _ _); [by destruct Hres as [_ Hres]; congruence|].
  destruct (hit_title_bar win _ _); [|by destruct Hres as [_ Hres]; congruence]. destruct Hres as (Hpo & _ & Hox & Hoy). injection Hb1 as _ B1 B2 _ _.
  destruct (drags_ok (w :: a ++ b) w drags s' win1 Hl' Hdw Ew1 Hdr) as (s'' & win' & E2 & Hl2 & Hp2 & Ew2 & Pos); [lia..|]. exists s'', win'. split; [done|]. split; [done|]. split; [congruence|]. split; [done|].
  rewrite Pos, Hox, Hoy, B1, B2. destruct (last drags); [f_equal; lia|done].
Qed.

(** Three windows, two of them overlapping at (160, 110). *)
Module Demo.
Definition win (x y : Z) (c : nat) (p n : option nat) : window :=
  mkWindow true 0 false false false false false false false (mkFb 4096 200 100 800 (mkRect 0 0 0 0)) fb_zero 0 0 x y 0 0 [] None (Some c) p n.
Definition desk : comp :=
  mkComp (mkGst ∅ (mkRect 0 0 0 0)) ([win 300 300 0 None (Some 2%nat); win 100 100 1 (Some 2%nat) None; win 90 95 2 (Some 0%nat) (Some 1%nat)] ++ repeat window_zero 7)
    [mkClient true 11 (Some 0%nat) 1; mkClient true 12 (Some 1%nat) 2; mkClient true 13 (Some 2%nat) 3] fb_zero fb_zero fb_zero (mkEvent 0 0 0 0) 0 0 (Some 0%nat) (Some 1%nat) None 0 0 0 0 false false [].

Lemma desk_list : wlist desk [0; 2; 1]%nat.
Proof.
  split; [by apply (bool_decide_unpack (NoDup [0; 2; 1]%nat))|]. split; (split; [reflexivity|]); intros k i Hk; repeat (destruct k as [|k]; [injection Hk as <-; reflexivity|]); done.
Qed.
Lemma desk_clients : clients_ok desk [0; 2; 1]%nat.
Proof. intros i w Hi Ew. repeat (apply elem_of_cons in Hi as [-> | Hi]; [injection Ew as <-; eexists _, _; split; reflexivity|]). by apply elem_of_nil in Hi. Qed.
End Demo.
Import Demo.

Lemma window_list_correct_witness :
  get_window_at_pos 160 110 desk = Ok (Some 2%nat, desk) ∧
  (∃ s', window_focus 1 desk = Ok (tt, s') ∧ wlist s' [1; 0; 2]%nat) ∧
  ∃ s', remove_window 2 desk = Ok (tt, s') ∧ fwd s' [0; 1]%nat ∧ bwd s' [1]%nat.
Proof.
  pose proof (window_list_correct desk [0; 2; 1]%nat desk_list eq_refl) as (_ & Hf & Hg & Hr). split; [|split].
  - rewrite Hg. reflexivity.
  - destruct (Hf [0; 2]%nat 1%nat [] eq_refl) as (s' & E & H & _). exists s'. split; [exact E|exact H].
  - destruct (Hr [0]%nat 2%nat [1]%nat eq_refl) as (s' & E & _ & H1 & H2). exists s'. split; [exact E|]. split; [exact H1|exact H2].
Defined.

Lemma mouse_moves_windows_witness :
  ∃ s' s'' w, handle_mouse (mkEvent 160 110 1 0) desk = Ok (tt, s') ∧ run_mouse [mkEvent 170 120 1 0; mkEvent 150 140 1 0] s' = Ok (tt, s'') ∧
    wlist s'' [2; 0; 1]%nat ∧ s_window_pool s'' !! 2%nat = Some w ∧ (w_x w, w_y w) = (80, 125).
Proof.
  destruct (mouse_moves_windows desk [0; 2; 1]%nat (mkEvent 160 110 1 0) [mkEvent 170 120 1 0; mkEvent 150 140 1 0] desk_list eq_refl desk_clients eq_refl eq_refl) as (s' & E & H).
  - unfold small. cbn. lia.
  - unfold small. cbn. lia.
  - repeat (apply Forall_cons; split); try (split; [reflexivity|cbn; lia]). apply Forall_nil. exact I.
  - change (top_at desk [0; 2; 1]%nat (ev_x (mkEvent 160 110 1 0)) (ev_y (mkEvent 160 110 1 0))) with (Some 2%nat) in H.
    destruct H as (a & b & w & El & Ew & Hl & Hres & H). injection Ew as <-. cbn in Hres. destruct Hres as (_ & Hdw & _).
    destruct (H Hdw) as (s'' & w' & E2 & Hl2 & _ & Ew2 & Pos); [unfold small; cbn; lia|unfold small; cbn; lia|]. exists s', s'', w'. split; [exact E|]. split; [exact E2|].
    split; [|split; [exact Ew2|exact Pos]]. destruct a as [|x a]; [discriminate|]. injection El as <- El. destruct a as [|y a]; [injection El as <-; exact Hl2|]. injection El as <- El. destruct a as [|z a]; [discriminate|]. injection El as <- El. destruct a; discriminate.
Defined.
End Windows.
