(* ===== verification/Compositor.v ===== *)
(** * Compositing ([user/apps/dafne/compositor.c])

    Drawing the desktop, the windows from back to front and the pointer into the
    back buffer, and copying it to the screen: the whole of it, or the rectangle
    around what has changed. *)
From Stdlib Require Import ZifyBool.
From S2P Require Import Prelude Font Gfx Picture Windows.

Module Compositor.
Import Gfx Picture Windows.

(** ** Drawing *)

Definition on_gfx {A} (m : M gst A) : M comp A := zoom gs set_gs m.

(** A drawing function with [&g_backbuffer] as its target. *)
Definition back_draw (f : fb_info → M gst fb_info) : M comp unit :=
  s ← get;
  fb ← on_gfx (f (g_backbuffer s));
  modify (set_g_backbuffer fb).

Definition CURSOR_W : Z := 12.
Definition CURSOR_H : Z := 20.
(** A row of the pointer, from its twelve entries written as the digits of one number. *)
Definition cursor_row (digits : Z) : list Z := map (λ i, Z.land (Z.shiftr digits (4 * (11 - i))) 0xF) (seqZ 0 12).
Definition g_cursor_bitmap : list (list Z) := [
  cursor_row 0x200000000000;
  cursor_row 0x220000000000;
  cursor_row 0x212000000000;
  cursor_row 0x211200000000;
  cursor_row 0x211120000000;
  cursor_row 0x211112000000;
  cursor_row 0x211111200000;
  cursor_row 0x211111120000;
  cursor_row 0x211111112000;
  cursor_row 0x211111111200;
  cursor_row 0x211111222200;
  cursor_row 0x211211200000;
  cursor_row 0x212021120000;
  cursor_row 0x220002112000;
  cursor_row 0x200000211200;
  cursor_row 0x000000021120;
  cursor_row 0x000000002112;
  cursor_row 0x000000000220;
  cursor_row 0x000000000000;
  cursor_row 0x000000000000
].

Definition draw_cursor (fb : fb_info) (cx cy : Z) : M gst unit :=
  for_range (Z.to_nat CURSOR_H) 0 (λ row,
    for_range (Z.to_nat CURSOR_W) 0 (λ col,
      let v := nth (Z.to_nat col) (nth (Z.to_nat row) g_cursor_bitmap []) 0 in
      if v =? 0 then mret tt
      else gfx_pixel fb (u32 (cx + col)) (u32 (cy + row)) (if v =? 1 then RGB 255 255 255 else RGB 0 0 0))).

Definition cursor_rect (x y : Z) : rect := mkRect (i16 x) (i16 y) CURSOR_W CURSOR_H.

Definition render_title_bar (i : nat) : M comp unit :=
  s ← get;
  w ← rd_win i;
  let bar := if bool_decide (s_windows s = Some i) then 0xff5294E2 else 0xff3A3A3A in
  let min_bg := if hover_minimize w then 0xff909090 else 0xff708090 in
  let cls_bg := if hover_close w then 0xffFF4444 else 0xffCC0000 in
  let tw := i32 (width (front_buf w)) in
  let btn_marg_x := (WINDOW_BUTTON_WIDTH - Font.Font.FONT_GLYPH_WIDTH) / 2 in
  let btn_marg_y := (WINDOW_TITLE_BAR_HEIGHT - Font.Font.FONT_GLYPH_WIDTH) / 2 in
  back_draw (λ dst, gfx_rect_rounded dst (w_x w) (w_y w) tw WINDOW_TITLE_BAR_HEIGHT bar WINDOW_BORDER_RADIUS WINDOW_BORDER_RADIUS 0 0) ;;
  match icon w with
  | Some img => back_draw (λ dst, gfx_imgs dst (u32 (w_x w + btn_marg_y)) (u32 (w_y w + btn_marg_y)) Font.Font.FONT_GLYPH_HEIGHT Font.Font.FONT_GLYPH_HEIGHT img ;; mret dst)
  | None => mret tt
  end ;;
  back_draw (λ dst, gfx_str dst (w_x w + Font.Font.FONT_GLYPH_HEIGHT + btn_marg_y + btn_marg_y) (w_y w + btn_marg_y) (title w) 0xffFFFFFF) ;;
  back_draw (λ dst, gfx_rect_rounded dst (w_x w + tw - WINDOW_BUTTON_WIDTH) (w_y w) WINDOW_BUTTON_WIDTH WINDOW_TITLE_BAR_HEIGHT cls_bg 0 WINDOW_BORDER_RADIUS 0 0) ;;
  back_draw (λ dst, gfx_str dst (w_x w + tw - WINDOW_BUTTON_WIDTH + btn_marg_x) (w_y w + btn_marg_y) [88] 0xffFFFFFF) ;;
  back_draw (λ dst, gfx_rect dst (w_x w + tw - WINDOW_BUTTON_WIDTH - WINDOW_BUTTON_WIDTH) (w_y w) WINDOW_BUTTON_WIDTH WINDOW_TITLE_BAR_HEIGHT min_bg) ;;
  back_draw (λ dst, gfx_str dst (w_x w + tw - WINDOW_BUTTON_WIDTH - WINDOW_BUTTON_WIDTH + btn_marg_x) (w_y w + btn_marg_y) [95] 0xffFFFFFF) ;;
  wr_win i (set_title_dirty false).

(** ** Paint events *)

Fixpoint paint_clients (n c : nat) : M comp unit :=
  match n with
  | O => mret tt
  | S n' =>
      cl ← rd_client c;
      match c_exists cl, c_win cl with
      | true, Some i =>
          w ← rd_win i;
          when (presented w) (
            wr_win i (set_presented false) ;;
            client_post_event (Some c) (WET_PAINT (usr_back_buf w)))
      | _, _ => mret tt
      end ;;
      paint_clients n' (S c)
  end.
Definition send_paint_events : M comp unit := paint_clients MAX_CLIENTS 0.

(** ** The frame *)

(** [for (window *w = i; w; w = w->prev)] *)
Fixpoint for_prev (fuel : nat) (i : option nat) (body : nat → M comp unit) : M comp unit :=
  match i with
  | None => mret tt
  | Some i =>
      match fuel with
      | O => no_fuel
      | S fuel' => body i ;; w ← rd_win i; for_prev fuel' (w_prev w) body
      end
  end.

Definition clear_front (i : nat) : M comp unit := wr_win i (λ w, set_front_buf (fb_clear_dirty (front_buf w)) w).

Definition composite_window (i : nat) : M comp unit :=
  w ← rd_win i;
  if negb (w_exists w) || hidden w then mret tt
  else
    render_title_bar i ;;
    clear_front i ;;
    wr_win i (set_moved false) ;;
    w ← rd_win i;
    back_draw (λ dst, gfx_blit_rounded dst (w_x w) (w_y w + WINDOW_TITLE_BAR_HEIGHT) (front_buf w) 0 0 7 7).

Definition full_composite : M comp unit :=
  s ← get;
  back_draw (λ dst, gfx_blit dst 0 0 (g_desktop s) ;; mret dst) ;;
  modify (λ s, set_g_desktop (fb_clear_dirty (g_desktop s)) s) ;;
  s ← get;
  for_prev WINDOW_MAX_COUNT (s_last_window s) composite_window ;;
  s ← get;
  back_draw (λ dst, draw_cursor dst (g_cursor_x s) (g_cursor_y s) ;; mret dst) ;;
  s ← get;
  on_gfx (gfx_blit (g_screen s) 0 0 (g_backbuffer s)).

(** The rectangle around what one window has changed, joined to [d]. *)
Definition window_dirty (d : rect) (w : window) : rect :=
  if negb (w_exists w) || hidden w then d
  else
    let d := if title_dirty w then rect_union d (mkRect (i16 (w_x w)) (i16 (w_y w)) (u16 (width (front_buf w))) WINDOW_TITLE_BAR_HEIGHT) else d in
    if fb_is_dirty (front_buf w)
    then let r := dirty_region (front_buf w) in
         rect_union d (mkRect (i16 (w_x w + rx r)) (i16 (w_y w + WINDOW_TITLE_BAR_HEIGHT + ry r)) (rw r) (rh r))
    else d.

Definition collect_dirty_regions (s : comp) : rect :=
  let d := if fb_is_dirty (g_desktop s) then dirty_region (g_desktop s) else mkRect 0 0 0 0 in
  let d := fold_left window_dirty (s_window_pool s) d in
  if negb (g_cursor_x s =? g_prev_cursor_x s) || negb (g_cursor_y s =? g_prev_cursor_y s) then
    rect_union (rect_union d (cursor_rect (g_prev_cursor_x s) (g_prev_cursor_y s))) (cursor_rect (g_cursor_x s) (g_cursor_y s))
  else if 0 <? rw d then rect_union d (cursor_rect (g_cursor_x s) (g_cursor_y s))
  else d.

Definition composite_part (d : rect) (i : nat) : M comp unit :=
  w ← rd_win i;
  if negb (w_exists w) || hidden w then mret tt
  else
    let title_rect := mkRect (i16 (w_x w)) (i16 (w_y w)) (u16 (width (front_buf w))) WINDOW_TITLE_BAR_HEIGHT in
    when (0 <? rw (rect_intersect title_rect d)) (render_title_bar i) ;;
    clear_front i ;;
    let client_y := w_y w + WINDOW_TITLE_BAR_HEIGHT in
    let win_rect := mkRect (i16 (w_x w)) (i16 client_y) (u16 (width (front_buf w))) (u16 (height (front_buf w))) in
    let clip := rect_intersect win_rect d in
    if rw clip =? 0 then mret tt
    else
      w ← rd_win i;
      back_draw (λ dst, gfx_blit_region_rounded4 dst (rx clip) (ry clip) (front_buf w) (rx clip - w_x w) (ry clip - client_y) (rw clip) (rh clip) 0 0 7 7 ;; mret dst).

Definition composite_windows (d : rect) : M comp unit :=
  s ← get; for_prev WINDOW_MAX_COUNT (s_last_window s) (composite_part d).

(** Whether a window from [i] to the front has moved. *)
Fixpoint any_moved (fuel : nat) (i : option nat) : M comp bool :=
  match i with
  | None => mret false
  | Some i =>
      match fuel with
      | O => no_fuel
      | S fuel' => w ← rd_win i; if moved w then mret true else any_moved fuel' (w_prev w)
      end
  end.

(** Steps 2 to 5 of [compositor_run]. *)
Definition partial_composite (d : rect) : M comp unit :=
  s ← get;
  back_draw (λ dst, gfx_blit_region dst (rx d) (ry d) (g_desktop s) (rx d) (ry d) (rw d) (rh d) ;; mret dst) ;;
  modify (λ s, set_g_desktop (fb_clear_dirty (g_desktop s)) s) ;;
  composite_windows d ;;
  s ← get;
  back_draw (λ dst, draw_cursor dst (g_cursor_x s) (g_cursor_y s) ;; mret dst) ;;
  s ← get;
  on_gfx (gfx_blit_region (g_screen s) (rx d) (ry d) (g_backbuffer s) (rx d) (ry d) (rw d) (rh d)).

Definition compositor_run : M comp unit :=
  s ← get;
  any ← any_moved WINDOW_MAX_COUNT (s_last_window s);
  if any || s_full_redraw s then
    full_composite ;; send_paint_events ;; modify (set_s_full_redraw false)
  else
    let d := collect_dirty_regions s in
    if rw d =? 0 then mret tt
    else partial_composite d ;; send_paint_events.

Definition cursor_at (col row : Z) : Z := nth (Z.to_nat col) (nth (Z.to_nat row) g_cursor_bitmap []) 0.
Definition cursor_set (cx cy X Y : Z) : bool := within cx cy (cx + CURSOR_W) (cy + CURSOR_H) X Y && negb (cursor_at (X - cx) (Y - cy) =? 0).
Definition cursor_ink (cx cy X Y : Z) : Z := if cursor_at (X - cx) (Y - cy) =? 1 then RGB 255 255 255 else RGB 0 0 0.

Lemma draw_cursor_ok fb s cx cy : has fb s → clip_in fb (g_clip_rect s) → small cx → small cy →
  wp (draw_cursor fb cx cy) (λ _, paint_if fb (λ X Y, in_clip (g_clip_rect s) X Y && cursor_set cx cy X Y) (λ X Y _, cursor_ink cx cy X Y) s) never s.
Proof.
  intros Hs Hc Hx Hy. unfold small in *. unfold draw_cursor.
  eapply wp_mono; [apply (shifted_rows_paint fb (λ X Y, in_clip (g_clip_rect s) X Y && ((cx <=? X) && (X <? cx + 12) && negb (cursor_at (X - cx) (Y - cy) =? 0))) (λ X Y _, cursor_ink cx cy X Y) cy); [done|]|intros [] t Ht|done].
  - intros row t g Hrow Ht. change (Z.of_nat (Z.to_nat CURSOR_H)) with 20 in Hrow.
    eapply wp_mono; [apply (loop_paints fb (λ X _, X - cx) (λ X Y o, if (Y =? cy + row) && in_clip (g_clip_rect s) X Y && negb (cursor_at (X - cx) (Y - cy) =? 0) then cursor_ink cx cy X Y else o)); [by eapply paints_has|]|intros [] u|done].
    + intros col u g' Hcol Hu. change (Z.of_nat (Z.to_nat CURSOR_W)) with 12 in Hcol. assert (has fb u) as Hsu by (by eapply paints_has).
      assert (g_clip_rect u = g_clip_rect s) as Ec by (destruct Ht as (_ & E1 & _), Hu as (_ & E2 & _); congruence). cbv zeta. fold (cursor_at col row).
      destruct (cursor_at col row =? 0) eqn:E.
      * eapply wp_ok; [done|]. eapply paints_ext; [|by apply paints_id]. intros X Y _. cbv beta. destruct (Z.eqb_spec (X - cx) col) as [<-|]; [|done].
        destruct (Z.eqb_spec Y (cy + row)) as [->|]; [|done]. replace (cy + row - cy) with row by lia. rewrite E. by rewrite andb_false_r.
      * eapply wp_mono; [apply gfx_pixel_ok; [done|by rewrite Ec|lia|lia]|intros [] u'|done]. apply paints_ext. intros X Y _. rewrite Ec.
        destruct (Z.eqb_spec (X - cx) col) as [<-|]; [|destruct (Z.eqb_spec X (cx + col)); [lia|done]]. destruct (Z.eqb_spec X (cx + (X - cx))); [|lia].
        destruct (Z.eqb_spec Y (cy + row)) as [->|]; [|done]. unfold cursor_ink. replace (cy + row - cy) with row by lia. rewrite E. cbn [andb negb]. by destruct (in_clip _ X (cy + row)).
    + apply paints_ext. intros X Y _. change (Z.of_nat (Z.to_nat CURSOR_W)) with 12.
      replace ((Y - cy =? row) && (in_clip (g_clip_rect s) X Y && ((cx <=? X) && (X <? cx + 12) && negb (cursor_at (X - cx) (Y - cy) =? 0))))
        with ((0 <=? X - cx) && (X - cx <? 0 + 12) && ((Y =? cy + row) && in_clip (g_clip_rect s) X Y && negb (cursor_at (X - cx) (Y - cy) =? 0))).
      * by destruct ((0 <=? X - cx) && (X - cx <? 0 + 12)).
      * destruct (negb (cursor_at (X - cx) (Y - cy) =? 0)), (in_clip (g_clip_rect s) X Y); lia.
  - eapply paint_if_ext; [|exact Ht]. intros X Y _. cbv beta. change (Z.of_nat (Z.to_nat CURSOR_H)) with 20. unfold cursor_set, within, CURSOR_W, CURSOR_H.
    destruct (negb (cursor_at (X - cx) (Y - cy) =? 0)), (in_clip (g_clip_rect s) X Y); lia.
Qed.

(** ** Title bars as operations *)

Definition title_ops (focused : bool) (w : window) : list op :=
  let tw := i32 (width (front_buf w)) in
  [Rounded (w_x w) (w_y w) tw 35 (if focused then 0xff5294E2 else 0xff3A3A3A) 7 7 0 0] ++
  match icon w with Some img => [Img (w_x w + 13) (w_y w + 13) 16 16 img] | None => [] end ++
  [Str (w_x w + 16 + 13 + 13) (w_y w + 13) (title w) 0xffFFFFFF;
   Rounded (w_x w + tw - 45) (w_y w) 45 35 (if hover_close w then 0xffFF4444 else 0xffCC0000) 0 7 0 0;
   Str (w_x w + tw - 45 + 18) (w_y w + 13) [88] 0xffFFFFFF;
   Rect (w_x w + tw - 45 - 45) (w_y w) 45 35 (if hover_minimize w then 0xff909090 else 0xff708090);
   Str (w_x w + tw - 45 - 45 + 18) (w_y w + 13) [95] 0xffFFFFFF].

Lemma back_draw_eq f s : back_draw f s = match f (g_backbuffer s) (gs s) with Ok (fb, g) => Ok (tt, set_g_backbuffer fb (set_gs g s)) | Panic e => Panic e | Fault => Fault | NoFuel => NoFuel end.
Proof. unfold back_draw, on_gfx, zoom. cbv [mbind M_bind get modify]. by destruct (f (g_backbuffer s) (gs s)) as [[fb g]|e| |]. Qed.

Lemma back_draw_ext f g s : (∀ d t, f d t = g d t) → back_draw f s = back_draw g s.
Proof. intros H. by rewrite !back_draw_eq, H. Qed.

Lemma back_draw_seq {A} f g (k : M comp A) s : (back_draw f ;; back_draw g ;; k) s = (back_draw (λ d, d' ← f d; g d') ;; k) s.
Proof.
  cbv [mbind M_bind]. rewrite !back_draw_eq. cbv [mbind M_bind]. destruct (f (g_backbuffer s) (gs s)) as [[fb t]|e| |]; [|done..].
  rewrite back_draw_eq. cbn [g_backbuffer set_g_backbuffer gs set_gs]. by destruct (g fb t) as [[fb' t']|e| |].
Qed.

Lemma bind_ext {A B} (m : M comp A) (k k' : A → M comp B) s : (∀ a t, k a t = k' a t) → (m ≫= k) s = (m ≫= k') s.
Proof. intros H. cbv [mbind M_bind]. by destruct (m s) as [[a t]|e| |]. Qed.

Lemma back_ops_cons {A} o l (k : M comp A) s : (back_draw (draw_all (o :: l)) ;; k) s = (back_draw (draw o) ;; back_draw (draw_all l) ;; k) s.
Proof. symmetry. apply (back_draw_seq (draw o) (draw_all l)). Qed.
Lemma back_ops_nil {A} (k : M comp A) s : (back_draw (draw_all []) ;; k) s = k s.
Proof. cbv [mbind M_bind]. rewrite back_draw_eq. cbn [draw_all]. by destruct s. Qed.

Lemma render_title_bar_eq i w s : s_window_pool s !! i = Some w →
  render_title_bar i s = (back_draw (draw_all (title_ops (bool_decide (s_windows s = Some i)) w)) ;; wr_win i (set_title_dirty false)) s.
Proof.
  intros Hw. unfold render_title_bar. rewrite (bind_of_ok _ _ _ s s) by done. rewrite (bind_of_ok _ _ _ w s) by (by apply rd_win_ok). cbv zeta. unfold title_ops. cbv zeta.
  destruct (icon w) as [img|]; cbn [app]; rewrite back_ops_cons; apply bind_ext; intros [] t1.
  - do 6 (rewrite back_ops_cons; apply bind_ext; intros [] ?t). by rewrite back_ops_nil.
  - rewrite (bind_of_ok _ _ t1 tt t1) by done. do 5 (rewrite back_ops_cons; apply bind_ext; intros [] ?t). by rewrite back_ops_nil.
Qed.

(** ** The back buffer while a frame is drawn *)

(** A window without its marks, of which a hidden window keeps [moved]. *)
Definition erase (w : window) : window := set_front_buf (set_dirty (mkRect 0 0 0 0) (front_buf w)) (set_moved (hidden w && moved w) (set_title_dirty false w)).

Lemma erase_front w w' : erase w' = erase w → front_buf w' = set_dirty (dirty_region (front_buf w')) (front_buf w).
Proof.
  intros H. pose proof (f_equal front_buf H) as E. change (set_dirty (mkRect 0 0 0 0) (front_buf w') = set_dirty (mkRect 0 0 0 0) (front_buf w)) in E.
  destruct (front_buf w') as [a b c d e], (front_buf w) as [a' b' c' d' e']. unfold set_dirty in *. cbn in *. congruence.
Qed.

Lemma unmove w : hidden w = false → ∀ w', erase w' = erase w → erase (set_moved false w') = erase w'.
Proof. intros Hh w' He. pose proof (f_equal hidden He) as E. change (hidden w' = hidden w) in E. unfold erase. cbn [hidden moved set_moved set_title_dirty]. by rewrite E, Hh. Qed.

(** [t] is a moment of the drawing that began in [s0]: inside [D] the back buffer shows [val]. *)
Record stage (s0 : comp) (D : Z → Z → bool) (val : Z → Z → Z) (t : comp) : Prop := {
  sg_back : ∃ r, g_backbuffer t = set_dirty r (g_backbuffer s0);
  sg_has : has (g_backbuffer s0) (gs t);
  sg_clip : g_clip_rect (gs t) = g_clip_rect (gs s0);
  sg_other : ∀ p, p ≠ ptr (g_backbuffer s0) → pixels (gs t) !! p = pixels (gs s0) !! p;
  sg_val : ∀ X Y, in_clip (g_clip_rect (gs s0)) X Y = true → D X Y = true → pixel (gs t) (g_backbuffer s0) X Y = val X Y;
  sg_pool : erase <$> s_window_pool t = erase <$> s_window_pool s0;
  sg_rest : (s_windows t, s_last_window t, g_cursor_x t, g_cursor_y t, g_screen t, s_client_pool t, posted t) =
            (s_windows s0, s_last_window s0, g_cursor_x s0, g_cursor_y s0, g_screen s0, s_client_pool s0, posted s0)
}.

Lemma stage_start s D : has (g_backbuffer s) (gs s) → stage s D (pixel (gs s) (g_backbuffer s)) s.
Proof. intros H. split; try done. exists (dirty_region (g_backbuffer s)). by destruct (g_backbuffer s). Qed.

Lemma stage_ext s0 D val val' t : (∀ X Y, in_clip (g_clip_rect (gs s0)) X Y = true → D X Y = true → val X Y = val' X Y) → stage s0 D val t → stage s0 D val' t.
Proof. intros H []. split; try done. intros X Y H1 H2. rewrite <- H by done. auto. Qed.

Lemma stage_paints s0 D val t : stage s0 D val t → paints (g_backbuffer s0) (λ X Y _, pixel (gs t) (g_backbuffer s0) X Y) (gs s0) (gs t).
Proof. intros []. by split. Qed.

Lemma stage_window s0 D val t i w : stage s0 D val t → s_window_pool s0 !! i = Some w → ∃ w', s_window_pool t !! i = Some w' ∧ erase w' = erase w.
Proof.
  intros [] Hw. pose proof (f_equal (λ l : list window, l !! i) sg_pool0) as E. cbv beta in E. rewrite !list_lookup_fmap, Hw in E.
  destruct (s_window_pool t !! i) as [w'|]; [|done]. exists w'. split; [done|]. exact (inj Some _ _ E).
Qed.

Lemma stage_upd s0 D val t i f : (∀ w, s_window_pool t !! i = Some w → erase (f w) = erase w) → stage s0 D val t → stage s0 D val (upd_win i f t).
Proof.
  intros Hf []. split; try done. rewrite <- sg_pool0. apply list_eq. intros j. rewrite !list_lookup_fmap, upd_win_lookup. destruct (decide (j = i)) as [->|]; [|done].
  destruct (s_window_pool t !! i) as [w|]; [|done]. change (Some (erase (f w)) = Some (erase w)). by rewrite Hf.
Qed.

Lemma stage_desktop s0 D val t fb : stage s0 D val t → stage s0 D val (set_g_desktop fb t).
Proof. intros []. by split. Qed.

(** One painting of the back buffer. *)
Lemma stage_paint s0 D val t (f : fb_info → M gst fb_info) P v : clip_in (g_backbuffer s0) (g_clip_rect (gs s0)) → stage s0 D val t →
  (∀ r, has (set_dirty r (g_backbuffer s0)) (gs t) → clip_in (set_dirty r (g_backbuffer s0)) (g_clip_rect (gs t)) →
    wp (f (set_dirty r (g_backbuffer s0))) (draws (set_dirty r (g_backbuffer s0)) (λ X Y, in_clip (g_clip_rect (gs t)) X Y && P X Y) v (gs t)) never (gs t)) →
  ∃ t', back_draw f t = Ok (tt, t') ∧ stage s0 D (λ X Y, if P X Y then v X Y (val X Y) else val X Y) t' ∧ s_window_pool t' = s_window_pool t ∧ g_desktop t' = g_desktop t.
Proof.
  intros Hcl [] Hf. destruct sg_back0 as [r Er]. destruct (wp_run _ _ _ (Hf r ltac:(by apply has_dirty) ltac:(by rewrite sg_clip0))) as (fb & g & E & [[r' Er'] Hp]).
  rewrite back_draw_eq, Er, E. eexists. split; [reflexivity|]. split; [|done].
  destruct (proj1 (paint_dirty _ _ _ _ _ _) Hp) as (Hh & Hc & Ho & Hv). split; cbn [gs g_backbuffer set_gs set_g_backbuffer]; try done.
  - exists r'. by rewrite Er'.
  - congruence.
  - intros p Hne. rewrite Ho by done. auto.
  - intros X Y H1 H2. rewrite Hv by (eapply (clip_inside _ (gs t)); rewrite ?sg_clip0; done). rewrite sg_clip0, H1, sg_val0 by done. done.
Qed.

Lemma stage_op s0 D val t o : clip_in (g_backbuffer s0) (g_clip_rect (gs s0)) → stage s0 D val t → op_ok (g_backbuffer s0) (gs s0) o →
  ∃ t', back_draw (draw o) t = Ok (tt, t') ∧ stage s0 D (λ X Y, apply (gs s0) X Y (val X Y) o) t' ∧ s_window_pool t' = s_window_pool t ∧ g_desktop t' = g_desktop t.
Proof.
  intros Hc Hs Ho. pose proof (stage_paints _ _ _ _ Hs) as Hp. destruct (stage_paint s0 D val t (draw o) (shape o) (ink (gs s0) o) Hc Hs) as (t' & E & Ht & Hr).
  - intros r Hh Hcl. eapply wp_mono; [apply draw_ok; [done|done|apply op_ok_dirty; by eapply op_ok_paint]| |done]. intros fb u [Hd Hu]. split; [done|].
    eapply paints_ext; [|exact Hu]. intros X Y _. cbv beta. destruct (_ && _); [|done]. by eapply ink_paint.
  - exists t'. by split.
Qed.

Lemma stage_ops s0 D ops : ∀ val t, clip_in (g_backbuffer s0) (g_clip_rect (gs s0)) → stage s0 D val t → Forall (op_ok (g_backbuffer s0) (gs s0)) ops →
  ∃ t', back_draw (draw_all ops) t = Ok (tt, t') ∧ stage s0 D (λ X Y, picture (gs s0) ops X Y (val X Y)) t' ∧ s_window_pool t' = s_window_pool t ∧ g_desktop t' = g_desktop t.
Proof.
  induction ops as [|o ops IH]; intros val t Hc Hs Ho.
  - exists t. rewrite back_draw_eq. split; [by destruct t|]. split; [|done]. by eapply stage_ext; [|exact Hs].
  - apply Forall_cons in Ho as [Ho Hos]. destruct (stage_op _ _ _ _ _ Hc Hs Ho) as (t1 & E1 & S1 & P1 & G1). destruct (IH _ t1 Hc S1 Hos) as (t2 & E2 & S2 & P2 & G2).
    exists t2. split; [|split; [done|split; congruence]]. rewrite back_draw_eq in E1, E2 |- *. cbn [draw_all]. cbv [mbind M_bind].
    destruct (draw o (g_backbuffer t) (gs t)) as [[fb g]|e| |]; [|done..]. injection E1 as <-. exact E2.
Qed.

Lemma stage_cursor s0 D val t cx cy : clip_in (g_backbuffer s0) (g_clip_rect (gs s0)) → stage s0 D val t → small cx → small cy →
  ∃ t', back_draw (λ dst, draw_cursor dst cx cy ;; mret dst) t = Ok (tt, t') ∧
    stage s0 D (λ X Y, if cursor_set cx cy X Y then cursor_ink cx cy X Y else val X Y) t' ∧ s_window_pool t' = s_window_pool t ∧ g_desktop t' = g_desktop t.
Proof.
  intros Hc Hs Hx Hy. apply (stage_paint s0 D val t (λ dst, draw_cursor dst cx cy ;; mret dst) (cursor_set cx cy) (λ X Y _, cursor_ink cx cy X Y) Hc Hs).
  intros r Hh Hcl. by apply draws_unit, draw_cursor_ok.
Qed.

(** ** What a frame should show *)

Definition visible (w : window) : bool := w_exists w && negb (hidden w).

(** The window [i] over [o]: its title bar, and its contents with the lower corners rounded. *)
Definition window_ops (s : comp) (i : nat) (w : window) : list op :=
  title_ops (bool_decide (s_windows s = Some i)) w ++ [BlitRounded (w_x w) (w_y w + 35) (front_buf w) 0 0 7 7].
Definition layer (s : comp) (X Y : Z) (i : nat) (o : Z) : Z :=
  match s_window_pool s !! i with
  | Some w => if visible w then picture (gs s) (window_ops s i w) X Y o else o
  | None => o
  end.

(** The windows [l], front to back, over the desktop, and the pointer. *)
Definition scene (s : comp) (l : list nat) (X Y : Z) : Z :=
  if cursor_set (g_cursor_x s) (g_cursor_y s) X Y then cursor_ink (g_cursor_x s) (g_cursor_y s) X Y
  else fold_right (layer s X Y) (pixel (gs s) (g_desktop s) X Y) l.

Definition on_screen (s : comp) (X Y : Z) : Prop := 0 ≤ X < width (g_screen s) ∧ 0 ≤ Y < height (g_screen s).

Definition dirty_in (fb : fb_info) : Prop :=
  let r := dirty_region fb in 0 ≤ rx r ∧ 0 ≤ rw r ∧ rx r + rw r ≤ width fb ∧ 0 ≤ ry r ∧ 0 ≤ rh r ∧ ry r + rh r ≤ height fb.

Record win_ok (s : comp) (w : window) : Prop := {
  wk_pos : - 2 ^ 13 ≤ w_x w ≤ 2 ^ 13 ∧ - 2 ^ 13 ≤ w_y w ≤ 2 ^ 13;
  wk_front : source (g_backbuffer s) (front_buf w) (gs s);
  wk_size : width (front_buf w) ≤ 2 ^ 13 ∧ height (front_buf w) ≤ 2 ^ 13;
  wk_title : (length (title w) ≤ 31)%nat;
  wk_icon : match icon w with Some img => image_ok img ∧ samples_ok 16 (b_width img) ∧ samples_ok 16 (b_height img) | None => True end;
  wk_dirty : dirty_in (front_buf w)
}.

(** The title and the buttons fit into the width of the window. *)
Definition fits (w : window) : Prop := 90 ≤ width (front_buf w) ∧ 42 + 8 * Z.of_nat (length (title w)) ≤ width (front_buf w).

(** No two clients have the same window. *)
Definition own_windows (s : comp) : Prop := ∀ c c' cl cl' i, s_client_pool s !! c = Some cl → s_client_pool s !! c' = Some cl' →
  c_exists cl = true → c_exists cl' = true → c_win cl = Some i → c_win cl' = Some i → c = c'.

(** The surfaces have the size of the screen, which is the clip rectangle; [l] are the windows along the backward links. *)
Record desk_ok (s : comp) (l : list nat) : Prop := {
  dk_list : bwd s l;
  dk_nodup : NoDup l;
  dk_pool : pools_ok s;
  dk_clients : length (s_client_pool s) = MAX_CLIENTS ∧ ∀ c cl i, s_client_pool s !! c = Some cl → c_win cl = Some i → (i < WINDOW_MAX_COUNT)%nat;
  dk_own : own_windows s;
  dk_back : has (g_backbuffer s) (gs s);
  dk_screen : source (g_backbuffer s) (g_screen s) (gs s);
  dk_desktop : source (g_backbuffer s) (g_desktop s) (gs s);
  dk_width : width (g_screen s) = width (g_backbuffer s) ∧ width (g_desktop s) = width (g_backbuffer s);
  dk_height : height (g_screen s) = height (g_backbuffer s) ∧ height (g_desktop s) = height (g_backbuffer s);
  dk_clip : g_clip_rect (gs s) = mkRect 0 0 (width (g_backbuffer s)) (height (g_backbuffer s));
  dk_cursor : on_screen s (g_cursor_x s) (g_cursor_y s) ∧ on_screen s (g_prev_cursor_x s) (g_prev_cursor_y s);
  dk_windows : ∀ i w, s_window_pool s !! i = Some w → visible w = true → win_ok s w;
  dk_dirty : dirty_in (g_desktop s)
}.

Lemma has_bounds fb s : has fb s → 0 ≤ width fb < 2 ^ 15 ∧ 0 ≤ height fb < 2 ^ 15.
Proof. intros (l & _ & []). lia. Qed.

Lemma title_ops_ok s w b : win_ok s w → Forall (op_ok (g_backbuffer s) (gs s)) (title_ops b w).
Proof.
  intros [[Px Py] Hf [Sw Sh] Ht Hi _]. destruct (has_bounds _ _ (proj1 Hf)) as [Bw Bh]. unfold title_ops. cbv zeta. rewrite i32_id by lia. apply Forall_app. split; [|apply Forall_app; split].
  - apply Forall_singleton. cbn [op_ok]. unfold radii, radius, small. lia.
  - destruct (icon w); [|done]. apply Forall_singleton. cbn [op_ok]. unfold small. destruct Hi as (H1 & H2 & H3). split_and?; try done; lia.
  - repeat (apply Forall_cons; split); try done; cbn [op_ok length]; unfold radii, radius, small; lia.
Qed.

(** ** The rectangle around the changes *)

Definition boxed (r : rect) : Prop :=
  - 2 ^ 13 ≤ rx r < 2 ^ 15 ∧ - 2 ^ 13 ≤ ry r < 2 ^ 15 ∧ 0 ≤ rw r ∧ 0 ≤ rh r ∧ rx r + rw r ≤ 2 ^ 15 + 2 ^ 13 ∧ ry r + rh r ≤ 2 ^ 15 + 2 ^ 13.

Lemma boxed_rect r : boxed r → rect_ok r.
Proof. unfold boxed, rect_ok. lia. Qed.

Lemma union_boxed a b : boxed a → boxed b → boxed (rect_union a b) ∧ ∀ X Y, covers a X Y || covers b X Y = true → covers (rect_union a b) X Y = true.
Proof.
  intros Ha Hb. destruct (rect_union_ok a b) as (_ & Hc & Hu); [by apply boxed_rect..|unfold boxed, spans in *; lia|]. split; [|done].
  destruct (decide (rw a = 0)) as [Ea|Ea]; [unfold rect_union; by rewrite Ea|]. destruct (decide (rw b = 0)) as [Eb|Eb].
  - unfold rect_union. rewrite (proj2 (Z.eqb_neq _ _) Ea), Eb. done.
  - rewrite Hu by done. unfold boxed in *. cbn [rx ry rw rh]. lia.
Qed.

(** What has changed in a window since it was drawn. *)
Definition window_changed (X Y : Z) (w : window) : bool :=
  visible w && (title_dirty w && within (w_x w) (w_y w) (w_x w + width (front_buf w)) (w_y w + 35) X Y ||
                fb_is_dirty (front_buf w) && covers (dirty_region (front_buf w)) (X - w_x w) (Y - (w_y w + 35))).

Definition cursor_moved (s : comp) : bool := negb (g_cursor_x s =? g_prev_cursor_x s) || negb (g_cursor_y s =? g_prev_cursor_y s).
Definition changed (s : comp) (X Y : Z) : bool :=
  fb_is_dirty (g_desktop s) && covers (dirty_region (g_desktop s)) X Y || existsb (window_changed X Y) (s_window_pool s) ||
  cursor_moved s && (covers (cursor_rect (g_prev_cursor_x s) (g_prev_cursor_y s)) X Y || covers (cursor_rect (g_cursor_x s) (g_cursor_y s)) X Y).

Lemma cursor_rect_ok x y : 0 ≤ x < 2 ^ 15 → 0 ≤ y < 2 ^ 15 → cursor_rect x y = mkRect x y 12 20 ∧ boxed (cursor_rect x y).
Proof. intros Hx Hy. unfold cursor_rect. rewrite !i16_id by lia. split; [done|]. unfold boxed, CURSOR_W, CURSOR_H. cbn [rx ry rw rh]. lia. Qed.

Lemma window_dirty_ok s d w : (visible w = true → win_ok s w) → boxed d →
  boxed (window_dirty d w) ∧ ∀ X Y, covers d X Y || window_changed X Y w = true → covers (window_dirty d w) X Y = true.
Proof.
  intros Hk Hd. unfold window_dirty, window_changed, visible in *. destruct (negb (w_exists w) || hidden w) eqn:E.
  { split; [done|]. intros X Y. destruct (w_exists w), (hidden w); try done; by rewrite orb_false_r. }
  assert (w_exists w && negb (hidden w) = true) as Ev by (by destruct (w_exists w), (hidden w)). rewrite Ev. destruct (Hk Ev) as [[Px Py] [Hh _] [Sw Sh] _ _ Hdi]. destruct (has_bounds _ _ Hh).
  rewrite (i16_id (w_x w)), (i16_id (w_y w)), u16_small by lia. unfold WINDOW_TITLE_BAR_HEIGHT.
  set (d1 := if title_dirty w then _ else d).
  assert (boxed d1 ∧ ∀ X Y, covers d X Y || title_dirty w && within (w_x w) (w_y w) (w_x w + width (front_buf w)) (w_y w + 35) X Y = true → covers d1 X Y = true) as [B1 C1].
  { subst d1. destruct (title_dirty w); [|split; [done|]; intros X Y; by rewrite orb_false_r]. apply (union_boxed d (mkRect (w_x w) (w_y w) (width (front_buf w)) 35)); [done|]. unfold boxed. cbn [rx ry rw rh]. lia. }
  unfold dirty_in in Hdi. set (r := dirty_region (front_buf w)) in *. clearbody d1. destruct (fb_is_dirty (front_buf w)).
  - rewrite !i16_id by lia. destruct (union_boxed d1 (mkRect (w_x w + rx r) (w_y w + 35 + ry r) (rw r) (rh r))) as [B2 C2]; [done|unfold boxed; cbn [rx ry rw rh]; lia|].
    split; [done|]. intros X Y HX. apply C2. cbn [andb] in HX. destruct (covers r (X - w_x w) (Y - (w_y w + 35))) eqn:Er.
    + assert (covers (mkRect (w_x w + rx r) (w_y w + 35 + ry r) (rw r) (rh r)) X Y = true) as ->; [|apply orb_true_r]. revert Er. unfold covers, within. cbn [rx ry rw rh]. lia.
    + rewrite orb_false_r in HX. by rewrite (C1 X Y HX).
  - split; [done|]. intros X Y HX. apply C1. by rewrite orb_false_r in HX.
Qed.

Lemma windows_dirty_ok s ws : Forall (λ w, visible w = true → win_ok s w) ws → ∀ d, boxed d →
  boxed (fold_left window_dirty ws d) ∧ ∀ X Y, covers d X Y || existsb (window_changed X Y) ws = true → covers (fold_left window_dirty ws d) X Y = true.
Proof.
  induction 1 as [|w ws Hw _ IH]; intros d Hd; cbn [fold_left existsb].
  - split; [done|]. intros X Y. by rewrite orb_false_r.
  - destruct (window_dirty_ok s d w Hw Hd) as [B1 C1]. destruct (IH _ B1) as [B2 C2]. split; [done|]. intros X Y HX. apply C2. rewrite orb_assoc in HX.
    apply orb_true_iff in HX as [HX|HX]; [by rewrite (C1 X Y HX)|rewrite HX; apply orb_true_r].
Qed.

(** The union covers all that has changed, and the pointer unless it is empty. *)
Lemma collect_ok s l : desk_ok s l → let d := collect_dirty_regions s in
  boxed d ∧ (rw d ≠ 0 → covers d (g_cursor_x s) (g_cursor_y s) = true) ∧ ∀ X Y, changed s X Y = true → covers d X Y = true.
Proof.
  intros Hok d. subst d. unfold collect_dirty_regions. cbv zeta. destruct (has_bounds _ _ (proj1 (dk_screen _ _ Hok))) as [Bw Bh]. destruct (dk_cursor _ _ Hok) as [[C1 C2] [C3 C4]].
  set (d0 := if fb_is_dirty (g_desktop s) then _ else _).
  assert (boxed d0 ∧ ∀ X Y, fb_is_dirty (g_desktop s) && covers (dirty_region (g_desktop s)) X Y = true → covers d0 X Y = true) as [B0 K0].
  { subst d0. pose proof (dk_dirty _ _ Hok) as Hd. unfold dirty_in in Hd. destruct (has_bounds _ _ (proj1 (dk_desktop _ _ Hok))). unfold boxed. destruct (fb_is_dirty (g_desktop s)); (split; [cbn [rx ry rw rh]; lia|done]). }
  destruct (windows_dirty_ok s (s_window_pool s)) with (d := d0) as [B1 K1]; [|done|].
  { apply Forall_lookup. intros i w Hw. by apply (dk_windows _ _ Hok i). }
  set (d1 := fold_left window_dirty (s_window_pool s) d0) in *. destruct (cursor_rect_ok (g_cursor_x s) (g_cursor_y s)) as [Ec Bc]; [lia..|]. destruct (cursor_rect_ok (g_prev_cursor_x s) (g_prev_cursor_y s)) as [Ep Bp]; [lia..|].
  assert (covers (cursor_rect (g_cursor_x s) (g_cursor_y s)) (g_cursor_x s) (g_cursor_y s) = true) as Hcc by (rewrite Ec; unfold covers, within; cbn [rx ry rw rh]; lia).
  assert (∀ X Y, fb_is_dirty (g_desktop s) && covers (dirty_region (g_desktop s)) X Y || existsb (window_changed X Y) (s_window_pool s) = true → covers d1 X Y = true) as K2.
  { intros X Y HX. apply K1. apply orb_true_iff in HX as [HX|HX]; [by rewrite (K0 X Y HX)|rewrite HX; apply orb_true_r]. }
  unfold changed. fold (cursor_moved s). destruct (cursor_moved s); cbn [andb].
  - destruct (union_boxed d1 _ B1 Bp) as [B3 K3]. destruct (union_boxed _ _ B3 Bc) as [B4 K4]. split; [done|]. split.
    + intros _. apply K4. by rewrite Hcc, orb_true_r.
    + intros X Y HX. apply K4. apply orb_true_iff in HX as [HX|HX]; [rewrite K3; [done|by rewrite (K2 X Y HX)]|].
      apply orb_true_iff in HX as [HX|HX]; [rewrite K3; [done|rewrite HX; apply orb_true_r]|rewrite HX; apply orb_true_r].
  - destruct (Z.ltb_spec 0 (rw d1)).
    + destruct (union_boxed d1 _ B1 Bc) as [B3 K3]. split; [done|]. split; [intros _; apply K3; by rewrite Hcc, orb_true_r|]. intros X Y HX. rewrite orb_false_r in HX. apply K3. by rewrite (K2 X Y HX).
    + split; [done|]. split; [unfold boxed in B1; lia|]. intros X Y HX. rewrite orb_false_r in HX. by apply K2.
Qed.

(** The pixels of a title bar that fits are in its rectangle. *)
Lemma text_box X Y y str : ∀ x, text_set x y str X Y = true → within x y (x + 8 * Z.of_nat (length str)) (y + 16) X Y = true.
Proof.
  induction str as [|c str IH]; intros x H; [done|]. cbn [text_set length] in *. apply orb_true_iff in H as [H|H].
  - unfold char_set in H. apply andb_true_iff in H as [H _]. unfold within in *. lia.
  - apply IH in H. unfold within in *. lia.
Qed.

Lemma title_box s w b X Y : win_ok s w → fits w → within (w_x w) (w_y w) (w_x w + width (front_buf w)) (w_y w + 35) X Y = false → ∀ o, picture (gs s) (title_ops b w) X Y o = o.
Proof.
  intros [_ [Hh _] [Sw _] _ _ _] [F1 F2] Hout. destruct (has_bounds _ _ Hh). assert (Forall (λ p, shape p X Y = false) (title_ops b w)) as Hf.
  - unfold title_ops. cbv zeta. rewrite i32_id by lia. apply Forall_app. split; [|apply Forall_app; split].
    + apply Forall_singleton. cbn [shape]. by rewrite Hout.
    + destruct (icon w); [|done]. apply Forall_singleton. cbn [shape]. unfold within in *. lia.
    + assert (∀ x str, w_x w ≤ x → x + 8 * Z.of_nat (length str) ≤ w_x w + width (front_buf w) → text_set x (w_y w + 13) str X Y = false) as Ht.
      { intros x str H1 H2. apply not_true_is_false. intros E%text_box. unfold within in *. lia. }
      repeat (apply Forall_cons; split); try done; cbn [shape]; first [solve [apply Ht; cbn [length]; lia] | solve [unfold within in *; lia] | apply andb_false_iff; left; unfold within in *; lia].
  - unfold picture. induction Hf as [|p ps Hp _ IH]; intros o; [done|]. cbn [fold_left]. unfold apply at 2. rewrite Hp. apply IH.
Qed.

Lemma inter_cases a b : rect_ok a → rect_ok b → rw (rect_intersect a b) = 0 ∨ (0 < rw (rect_intersect a b) ∧ 0 < rh (rect_intersect a b)).
Proof.
  intros (A1 & A2 & A3 & A4) (B1 & B2 & B3 & B4). unfold rect_intersect. match goal with |- context [if ?c then mkRect 0 0 0 0 else _] => destruct c eqn:E end; [by left|]. right. cbn [rw rh].
  rewrite !u16_small by (revert E; clip_cases; lia). revert E. clip_cases; lia.
Qed.

Section Frame.
Context (s0 : comp) (l : list nat) (Hok : desk_ok s0 l).
Notation back := (g_backbuffer s0).

Lemma desk_clip : clip_in back (g_clip_rect (gs s0)).
Proof. destruct (has_bounds _ _ (dk_back _ _ Hok)). rewrite (dk_clip _ _ Hok). unfold clip_in. cbn [rx ry rw rh]. lia. Qed.

Lemma desk_in_clip X Y : in_clip (g_clip_rect (gs s0)) X Y = true ↔ on_screen s0 X Y.
Proof.
  rewrite (dk_clip _ _ Hok). unfold in_clip, within, on_screen. cbn [rx ry rw rh]. destruct (dk_width _ _ Hok) as [-> _], (dk_height _ _ Hok) as [-> _]. lia.
Qed.

Lemma desk_length : (length l ≤ WINDOW_MAX_COUNT)%nat.
Proof.
  rewrite <- (dk_pool _ _ Hok). rewrite <- (length_seq (length (s_window_pool s0)) 0). apply submseteq_length, NoDup_submseteq; [by eapply dk_nodup|].
  intros i [k Hk]%list_elem_of_lookup. destruct (dk_list _ _ Hok) as [_ B]. specialize (B k i Hk). unfold prev_of in B. destruct (s_window_pool s0 !! i) eqn:E; [|done].
  apply lookup_lt_Some in E. apply elem_of_seq. lia.
Qed.

Lemma cursor_small : small (g_cursor_x s0) ∧ small (g_cursor_y s0).
Proof. destruct (dk_cursor _ _ Hok) as [[H1 H2] _], (has_bounds _ _ (proj1 (dk_screen _ _ Hok))). unfold small. lia. Qed.

(** The walk along the backward links draws the layers from back to front. *)
Lemma for_prev_ok D (body : nat → M comp unit) :
  (∀ i w val t, i ∈ l → s_window_pool s0 !! i = Some w → stage s0 D val t → ∃ t', body i t = Ok (tt, t') ∧ stage s0 D (λ X Y, layer s0 X Y i (val X Y)) t') →
  ∀ a b fuel val t, l = a ++ b → (length a ≤ fuel)%nat → stage s0 D val t →
    ∃ t', for_prev fuel (last a) body t = Ok (tt, t') ∧ stage s0 D (λ X Y, fold_right (layer s0 X Y) (val X Y) a) t'.
Proof.
  intros Hb a. induction a as [|i a IH] using rev_ind; intros b fuel val t El Hf Hs; [exists t; by destruct fuel|].
  rewrite last_snoc. rewrite length_app in Hf. cbn [length] in Hf. destruct fuel as [|fuel]; [lia|]. cbn [for_prev].
  assert (l !! length a = Some i) as Hi by (rewrite El, <- app_assoc; apply lookup_mid).
  destruct (dk_list _ _ Hok) as [_ B]. specialize (B _ _ Hi). unfold prev_of in B. destruct (s_window_pool s0 !! i) as [w|] eqn:Ew; [|done].
  destruct (Hb i w val t ltac:(by eapply list_elem_of_lookup_2) Ew Hs) as (t1 & E1 & S1). rewrite (bind_of_ok _ _ _ tt t1) by done.
  destruct (stage_window _ _ _ _ _ _ S1 Ew) as (w' & Ew' & Ee). rewrite (bind_of_ok _ _ _ w' t1) by (by apply rd_win_ok).
  assert (w_prev w' = last a) as ->.
  { change (w_prev w') with (w_prev (erase w')). rewrite Ee. change (w_prev (erase w)) with (w_prev w). apply (inj Some) in B. rewrite B, last_lookup. destruct a as [|x a]; [done|].
    cbn [length pred]. rewrite El, <- app_assoc, lookup_app_l by (cbn; lia). done. }
  destruct (IH ([i] ++ b) fuel _ t1 ltac:(by rewrite El, <- app_assoc) ltac:(lia) S1) as (t2 & E2 & S2). exists t2. split; [done|].
  eapply stage_ext; [|exact S2]. intros X Y _ _. cbv beta. by rewrite fold_right_app.
Qed.

(** The parts of the drawing of a window, in a state of the frame. *)
Lemma stage_wr D val t i w f : s_window_pool s0 !! i = Some w → (∀ w', erase w' = erase w → erase (f w') = erase w') → stage s0 D val t → ∃ t', wr_win i f t = Ok (tt, t') ∧ stage s0 D val t'.
Proof.
  intros Hw Hf Hs. destruct (stage_window _ _ _ _ _ _ Hs Hw) as (w' & Hw' & Ee). exists (upd_win i f t). split; [apply wr_win_ok; by eapply lookup_lt_Some|]. apply stage_upd; [|done]. intros x Hx. rewrite Hw' in Hx. apply (inj Some) in Hx as <-. by apply Hf.
Qed.

Lemma stage_title D val t i w : s_window_pool s0 !! i = Some w → win_ok s0 w → stage s0 D val t →
  ∃ t', render_title_bar i t = Ok (tt, t') ∧ stage s0 D (λ X Y, picture (gs s0) (title_ops (bool_decide (s_windows s0 = Some i)) w) X Y (val X Y)) t'.
Proof.
  intros Hw Hk Hs. destruct (stage_window _ _ _ _ _ _ Hs Hw) as (w' & Hw' & Ee). rewrite (render_title_bar_eq i w' t Hw').
  assert (title_ops (bool_decide (s_windows t = Some i)) w' = title_ops (bool_decide (s_windows s0 = Some i)) w) as ->.
  { pose proof (sg_rest _ _ _ _ Hs) as [= -> _ _ _ _ _ _]. set (b := bool_decide _). change (title_ops b (erase w') = title_ops b (erase w)). by rewrite Ee. }
  destruct (stage_ops s0 D _ val t desk_clip Hs (title_ops_ok s0 w (bool_decide (s_windows s0 = Some i)) Hk)) as (t1 & E1 & S1 & _). rewrite (bind_of_ok _ _ _ tt t1) by done. by apply (stage_wr _ _ _ _ w).
Qed.

Lemma composite_window_ok D val t i w : s_window_pool s0 !! i = Some w → stage s0 D val t →
  ∃ t', composite_window i t = Ok (tt, t') ∧ stage s0 D (λ X Y, layer s0 X Y i (val X Y)) t'.
Proof.
  intros Hw Hs. unfold layer. rewrite Hw. destruct (stage_window _ _ _ _ _ _ Hs Hw) as (w' & Hw' & Ee). unfold composite_window. rewrite (bind_of_ok _ _ _ w' t) by (by apply rd_win_ok).
  change (negb (w_exists w') || hidden w') with (negb (w_exists (erase w')) || hidden (erase w')). rewrite Ee. change (negb (w_exists (erase w)) || hidden (erase w)) with (negb (w_exists w) || hidden w).
  unfold visible. destruct (w_exists w && negb (hidden w)) eqn:Ev; [|exists t; by destruct (w_exists w), (hidden w)].
  assert (negb (w_exists w) || hidden w = false) as -> by (by destruct (w_exists w), (hidden w)). pose proof (dk_windows _ _ Hok i w Hw Ev) as Hk.
  destruct (stage_title D val t i w Hw Hk Hs) as (t1 & E1 & S1). rewrite (bind_of_ok _ _ _ tt t1) by done.
  destruct (stage_wr D _ t1 i w (λ w, set_front_buf (fb_clear_dirty (front_buf w)) w) Hw ltac:(done) S1) as (t2 & E2 & S2). rewrite (bind_of_ok _ _ _ tt t2) by done.
  destruct (stage_wr D _ t2 i w (set_moved false) Hw (unmove w ltac:(by destruct (w_exists w), (hidden w))) S2) as (t3 & E3 & S3). rewrite (bind_of_ok _ _ _ tt t3) by done.
  destruct (stage_window _ _ _ _ _ _ S3 Hw) as (w3 & Hw3 & E3e). rewrite (bind_of_ok _ _ _ w3 t3) by (by apply rd_win_ok).
  rewrite (erase_front w w3 E3e). change (w_x w3) with (w_x (erase w3)). change (w_y w3) with (w_y (erase w3)). rewrite E3e. change (w_x (erase w)) with (w_x w). change (w_y (erase w)) with (w_y w).
  destruct (stage_op s0 D _ t3 (BlitRounded (w_x w) (w_y w + 35) (set_dirty (dirty_region (front_buf w3)) (front_buf w)) 0 0 7 7) desk_clip S3) as (t4 & E4 & S4 & _).
  - destruct Hk as [[] [] []]. cbn [op_ok]. unfold small, source, radii, radius. split; [lia|]. split; [lia|]. split; [split; [by apply has_dirty|done]|lia].
  - exists t4. split; [exact E4|]. eapply stage_ext; [|exact S4]. intros X Y _ _. unfold window_ops, picture. by rewrite fold_left_app.
Qed.
(** ** From the back buffer to the screen *)

(** What a frame leaves but for pixels. *)
Definition kept (t : comp) : Prop := erase <$> s_window_pool t = erase <$> s_window_pool s0 ∧ s_client_pool t = s_client_pool s0 ∧ posted t = posted s0.

Lemma stage_copies D val t : stage s0 D val t → copies (g_screen t) (g_backbuffer t) (gs t) ∧ clip_in (g_screen t) (g_clip_rect (gs t)) ∧
  g_screen t = g_screen s0 ∧ (∀ X Y, pixel (gs t) (g_screen s0) X Y = pixel (gs s0) (g_screen s0) X Y).
Proof.
  intros Hs. pose proof (stage_paints _ _ _ _ Hs) as Hp. destruct (source_paint _ _ _ _ _ Hp (dk_screen _ _ Hok)) as [[Hh Hne] Hpx]. destruct Hs as [[r Er] Hb Hc _ _ _ [= _ _ _ _ Es _ _]].
  rewrite Es, Er, Hc. split; [|split; [|done]].
  - split; [done|]. split; [by apply has_dirty|]. cbn [ptr set_dirty]. congruence.
  - pose proof desk_clip as H. unfold clip_in in *. destruct (dk_width _ _ Hok) as [-> _], (dk_height _ _ Hok) as [-> _]. done.
Qed.

Lemma on_gfx_paint (m : M gst unit) fb P v t : wp m (λ _, paint_if fb P v (gs t)) never (gs t) → ∃ g, on_gfx m t = Ok (tt, set_gs g t) ∧ paint_if fb P v (gs t) g.
Proof. intros H. destruct (wp_run _ _ _ H) as ([] & g & E & Hg). exists g. split; [|done]. unfold on_gfx, zoom. by rewrite E. Qed.

Lemma screen_inside X Y : on_screen s0 X Y → inside (g_screen s0) X Y.
Proof. intros [H1 H2]. destruct (dk_screen _ _ Hok) as [(c & _ & []) _]. unfold inside. lia. Qed.

Lemma stage_kept D val t : stage s0 D val t → kept t.
Proof. intros [? ? ? ? ? ? [= _ _ _ _ _ ? ?]]. by split. Qed.

Lemma full_composite_ok : ∃ t, full_composite s0 = Ok (tt, t) ∧ (∀ X Y, on_screen s0 X Y → pixel (gs t) (g_screen s0) X Y = scene s0 l X Y) ∧ kept t.
Proof.
  set (D := λ _ _ : Z, true). unfold full_composite. rewrite (bind_of_ok _ _ _ s0 s0) by done.
  destruct (stage_op s0 D _ s0 (Blit 0 0 (g_desktop s0)) desk_clip (stage_start s0 D (dk_back _ _ Hok))) as (t1 & E1 & S1 & _).
  { cbn [op_ok]. unfold small. split; [lia|]. split; [lia|]. apply (dk_desktop _ _ Hok). }
  rewrite (bind_of_ok _ _ _ tt t1) by exact E1. apply (stage_ext s0 D _ (pixel (gs s0) (g_desktop s0))) in S1.
  2: { intros X Y Hc%desk_in_clip _. unfold apply. cbn [shape ink]. destruct Hc as [HX HY]. destruct (dk_width _ _ Hok) as [W1 W2], (dk_height _ _ Hok) as [H1 H2].
       assert (within 0 0 (0 + width (g_desktop s0)) (0 + height (g_desktop s0)) X Y = true) as -> by (unfold within; lia). by rewrite !Z.sub_0_r. }
  rewrite (bind_of_ok _ _ t1 tt (set_g_desktop (fb_clear_dirty (g_desktop t1)) t1)) by done. set (t2 := set_g_desktop _ t1). pose proof (stage_desktop s0 D _ t1 (fb_clear_dirty (g_desktop t1)) S1 : stage s0 D _ t2) as S2.
  rewrite (bind_of_ok _ _ _ t2 t2) by done. assert (s_last_window t2 = last l) as ->. { pose proof (sg_rest _ _ _ _ S2) as [= _ E _ _ _ _ _]. etrans; [exact E|]. apply (dk_list _ _ Hok). }
  destruct (for_prev_ok D composite_window ltac:(intros; by eapply composite_window_ok) l [] WINDOW_MAX_COUNT _ t2 ltac:(by rewrite app_nil_r) desk_length S2) as (t3 & E3 & S3).
  rewrite (bind_of_ok _ _ _ tt t3) by done. rewrite (bind_of_ok _ _ _ t3 t3) by done.
  assert (g_cursor_x t3 = g_cursor_x s0 ∧ g_cursor_y t3 = g_cursor_y s0) as [-> ->] by (pose proof (sg_rest _ _ _ _ S3) as [= _ _ -> -> _ _ _]; done).
  destruct (stage_cursor s0 D _ t3 (g_cursor_x s0) (g_cursor_y s0) desk_clip S3) as (t4 & E4 & S4 & _); [apply cursor_small..|].
  rewrite (bind_of_ok _ _ _ tt t4) by done. rewrite (bind_of_ok _ _ _ t4 t4) by done. destruct (stage_copies _ _ _ S4) as (Hcp & Hcl & Es & _).
  destruct (on_gfx_paint _ _ _ _ _ (gfx_blit_ok _ _ _ 0 0 Hcp Hcl ltac:(unfold small; lia) ltac:(unfold small; lia))) as (g & Eg & _ & _ & _ & Hg). exists (set_gs g t4). split; [exact Eg|].
  split; [|exact (stage_kept _ _ _ S4)]. intros X Y HX. cbn [gs set_gs]. rewrite Es in Hg. rewrite Hg by (by apply screen_inside). destruct S4 as [[r Er] Hb Hc _ Hv _ _].
  rewrite Hc, (proj2 (desk_in_clip X Y) HX), Er. cbn [width height set_dirty]. destruct HX as [HX HY]. destruct (dk_width _ _ Hok) as [W1 W2], (dk_height _ _ Hok) as [H1 H2].
  assert (within 0 0 (0 + width back) (0 + height back) X Y = true) as -> by (unfold within; lia). cbn [andb]. rewrite !Z.sub_0_r. apply (Hv X Y); [by apply desk_in_clip|done].
Qed.

(** ** The partial redraw *)

Definition all_fit (s : comp) : Prop := ∀ i w, s_window_pool s !! i = Some w → visible w = true → fits w.

Lemma composite_part_ok d val t i w : all_fit s0 → boxed d → s_window_pool s0 !! i = Some w → stage s0 (covers d) val t →
  ∃ t', composite_part d i t = Ok (tt, t') ∧ stage s0 (covers d) (λ X Y, layer s0 X Y i (val X Y)) t'.
Proof.
  intros Hfit Hd Hw Hs. set (D := covers d) in *. unfold layer. rewrite Hw. destruct (stage_window _ _ _ _ _ _ Hs Hw) as (w' & Hw' & Ee). unfold composite_part. rewrite (bind_of_ok _ _ _ w' t) by (by apply rd_win_ok).
  rewrite (erase_front w w' Ee). change (negb (w_exists w') || hidden w') with (negb (w_exists (erase w')) || hidden (erase w')). change (w_x w') with (w_x (erase w')). change (w_y w') with (w_y (erase w')). rewrite Ee.
  change (negb (w_exists (erase w)) || hidden (erase w)) with (negb (w_exists w) || hidden w). change (w_x (erase w)) with (w_x w). change (w_y (erase w)) with (w_y w). cbn [width height set_dirty]. cbv zeta.
  unfold visible. destruct (w_exists w && negb (hidden w)) eqn:Ev; [|exists t; by destruct (w_exists w), (hidden w)].
  assert (negb (w_exists w) || hidden w = false) as -> by (by destruct (w_exists w), (hidden w)). pose proof (dk_windows _ _ Hok i w Hw Ev) as Hk. pose proof (Hfit i w Hw Ev) as Hft.
  destruct (id Hk) as [[Px Py] [Hh Hne] [Sw Sh] _ _ _]. destruct (has_bounds _ _ Hh) as [Bw Bh]. unfold WINDOW_TITLE_BAR_HEIGHT. rewrite !i16_id, !u16_small by lia.
  set (title_rect := mkRect (w_x w) (w_y w) (width (front_buf w)) 35). set (win_rect := mkRect (w_x w) (w_y w + 35) (width (front_buf w)) (height (front_buf w))).
  assert (rect_ok title_rect ∧ rect_ok win_rect) as [Rt Rw] by (unfold rect_ok, title_rect, win_rect; cbn [rx ry rw rh]; lia). pose proof (boxed_rect d Hd) as Rd.
  assert (∃ t1, when (0 <? rw (rect_intersect title_rect d)) (render_title_bar i) t = Ok (tt, t1) ∧
    stage s0 D (λ X Y, picture (gs s0) (title_ops (bool_decide (s_windows s0 = Some i)) w) X Y (val X Y)) t1) as (t1 & E1 & S1).
  { destruct (rect_intersect_ok title_rect d Rt Rd) as [Ri Ci]. unfold when. destruct (Z.ltb_spec 0 (rw (rect_intersect title_rect d))); [by apply stage_title|].
    exists t. split; [done|]. eapply stage_ext; [|exact Hs]. intros X Y _ HD. symmetry. apply title_box; [done..|]. specialize (Ci X Y). fold (D X Y) in Ci. rewrite HD, andb_true_r in Ci.
    change (within (w_x w) (w_y w) (w_x w + width (front_buf w)) (w_y w + 35) X Y) with (covers title_rect X Y). rewrite <- Ci. unfold covers, within. unfold rect_ok in Ri. lia. }
  rewrite (bind_of_ok _ _ _ tt t1) by done.
  destruct (stage_wr D _ t1 i w (λ w, set_front_buf (fb_clear_dirty (front_buf w)) w) Hw ltac:(done) S1) as (t2 & E2 & S2). rewrite (bind_of_ok _ _ _ tt t2) by done.
  destruct (rect_intersect_ok win_rect d Rw Rd) as [Ri Ci]. pose proof (inter_cases win_rect d Rw Rd) as Hi. set (clip := rect_intersect win_rect d) in *.
  assert (∀ X Y, D X Y = true → covers clip X Y = within (w_x w) (w_y w + 35) (w_x w + width (front_buf w)) (w_y w + 35 + height (front_buf w)) X Y) as Hcov.
  { intros X Y HD. rewrite Ci. fold (D X Y). rewrite HD, andb_true_r. done. }
  destruct (Z.eqb_spec (rw clip) 0) as [Ez|Ez].
  - exists t2. split; [done|]. eapply stage_ext; [|exact S2]. intros X Y _ HD. unfold window_ops, picture. rewrite fold_left_app. cbn [fold_left]. unfold apply at 2. cbn [shape]. rewrite <- Hcov by done.
    assert (covers clip X Y = false) as -> by (unfold covers, within; lia). done.
  - destruct Hi as [?|[Hw1 Hh1]]; [done|]. destruct (stage_window _ _ _ _ _ _ S2 Hw) as (w2 & Hw2 & E2e). rewrite (bind_of_ok _ _ _ w2 t2) by (by apply rd_win_ok).
    change (w_x w2) with (w_x (erase w2)). rewrite (erase_front w w2 E2e), E2e. change (w_x (erase w)) with (w_x w). set (fb2 := set_dirty (dirty_region (front_buf w2)) (front_buf w)).
    assert (w_x w ≤ rx clip ∧ rx clip + rw clip ≤ w_x w + width (front_buf w) ∧ w_y w + 35 ≤ ry clip ∧ ry clip + rh clip ≤ w_y w + 35 + height (front_buf w)) as (I1 & I2 & I3 & I4).
    { pose proof (Ci (rx clip) (ry clip)) as Ca. pose proof (Ci (rx clip + rw clip - 1) (ry clip + rh clip - 1)) as Cb.
      assert (covers clip (rx clip) (ry clip) = true) as Ha by (unfold covers, within; lia). assert (covers clip (rx clip + rw clip - 1) (ry clip + rh clip - 1) = true) as Hb by (unfold covers, within; lia).
      rewrite Ha in Ca. rewrite Hb in Cb. symmetry in Ca, Cb. apply andb_true_iff in Ca as [Ca _], Cb as [Cb _]. unfold covers, within, win_rect in Ca, Cb. cbn [rx ry rw rh] in Ca, Cb. lia. }
    destruct (stage_op s0 D _ t2 (RegionRounded (rx clip) (ry clip) fb2 (rx clip - w_x w) (ry clip - (w_y w + 35)) (rw clip) (rh clip) 0 0 7 7) (desk_clip) S2) as (t3 & E3 & S3 & _).
    { cbn [op_ok]. unfold source, radii, radius, part, small. change (width fb2) with (width (front_buf w)). change (height fb2) with (height (front_buf w)). split_and?; try lia; [by apply has_dirty|done]. }
    exists t3. split; [exact E3|]. eapply stage_ext; [|exact S3]. intros X Y _ HD. cbv beta. unfold window_ops, picture. rewrite fold_left_app. cbn [fold_left]. set (o := fold_left _ _ _).
    unfold apply. cbn [shape ink]. replace (X - (rx clip - (rx clip - w_x w))) with (X - w_x w) by lia. replace (Y - (ry clip - (ry clip - (w_y w + 35)))) with (Y - (w_y w + 35)) by lia.
    change (width fb2) with (width (front_buf w)). change (height fb2) with (height (front_buf w)). change (pixel (gs s0) fb2) with (pixel (gs s0) (front_buf w)).
    change (within (rx clip) (ry clip) (rx clip + rw clip) (ry clip + rh clip) X Y) with (covers clip X Y). rewrite (Hcov X Y HD).
    assert (within 0 0 (width (front_buf w)) (height (front_buf w)) (X - w_x w) (Y - (w_y w + 35)) = within (w_x w) (w_y w + 35) (w_x w + width (front_buf w)) (w_y w + 35 + height (front_buf w)) X Y) as -> by (unfold within; lia).
    by rewrite andb_diag.
Qed.

Lemma partial_composite_ok d : all_fit s0 → boxed d → covers d (g_cursor_x s0) (g_cursor_y s0) = true →
  ∃ t, partial_composite d s0 = Ok (tt, t) ∧
    (∀ X Y, on_screen s0 X Y → pixel (gs t) (g_screen s0) X Y = if covers d X Y then scene s0 l X Y else pixel (gs s0) (g_screen s0) X Y) ∧ kept t.
Proof.
  intros Hfit Hd Hcur. destruct (dk_width _ _ Hok) as [W1 W2], (dk_height _ _ Hok) as [H1 H2]. destruct (has_bounds _ _ (dk_back _ _ Hok)) as [Bw Bh].
  assert (∀ fb, width fb = width back → height fb = height back → part fb (rx d) (ry d) (rw d) (rh d)) as Hpart.
  { intros fb Ew Eh. unfold part, small. rewrite Ew, Eh. unfold boxed in Hd. destruct (dk_cursor _ _ Hok) as [[K1 K2] _]. revert Hcur. unfold covers, within. lia. }
  assert (small (rx d) ∧ small (ry d)) as [Sx Sy] by (unfold boxed, small in *; lia).
  set (D := covers d). unfold partial_composite. rewrite (bind_of_ok _ _ _ s0 s0) by done.
  destruct (stage_op s0 D _ s0 (Region (rx d) (ry d) (g_desktop s0) (rx d) (ry d) (rw d) (rh d)) desk_clip (stage_start s0 D (dk_back _ _ Hok))) as (t1 & E1 & S1 & _).
  { cbn [op_ok]. split; [done|]. split; [done|]. split; [apply (dk_desktop _ _ Hok)|by apply Hpart]. }
  rewrite (bind_of_ok _ _ _ tt t1) by exact E1. apply (stage_ext s0 D _ (pixel (gs s0) (g_desktop s0))) in S1.
  2: { intros X Y [HX HY]%desk_in_clip HD. unfold apply. cbn [shape ink]. change (within (rx d) (ry d) (rx d + rw d) (ry d + rh d) X Y) with (D X Y). rewrite HD.
       assert (within 0 0 (width (g_desktop s0)) (height (g_desktop s0)) (X - rx d + rx d) (Y - ry d + ry d) = true) as -> by (unfold within; lia). cbn [andb]. f_equal; lia. }
  rewrite (bind_of_ok _ _ t1 tt (set_g_desktop (fb_clear_dirty (g_desktop t1)) t1)) by done. set (t2 := set_g_desktop _ t1). pose proof (stage_desktop s0 D _ t1 (fb_clear_dirty (g_desktop t1)) S1 : stage s0 D _ t2) as S2.
  assert (s_last_window t2 = last l) as El. { pose proof (sg_rest _ _ _ _ S2) as [= _ E _ _ _ _ _]. etrans; [exact E|]. apply (dk_list _ _ Hok). }
  destruct (for_prev_ok D (composite_part d) ltac:(intros; by eapply composite_part_ok) l [] WINDOW_MAX_COUNT _ t2 ltac:(by rewrite app_nil_r) desk_length S2) as (t3 & E3 & S3).
  rewrite (bind_of_ok _ _ _ tt t3) by (unfold composite_windows; rewrite (bind_of_ok _ _ _ t2 t2), El by done; exact E3). rewrite (bind_of_ok _ _ _ t3 t3) by done.
  assert (g_cursor_x t3 = g_cursor_x s0 ∧ g_cursor_y t3 = g_cursor_y s0) as [-> ->] by (pose proof (sg_rest _ _ _ _ S3) as [= _ _ -> -> _ _ _]; done).
  destruct (stage_cursor s0 D _ t3 (g_cursor_x s0) (g_cursor_y s0) desk_clip S3) as (t4 & E4 & S4 & _); [apply cursor_small..|].
  rewrite (bind_of_ok _ _ _ tt t4) by done. rewrite (bind_of_ok _ _ _ t4 t4) by done. destruct (stage_copies _ _ _ S4) as (Hcp & Hcl & Es & Hold).
  assert (part (g_backbuffer t4) (rx d) (ry d) (rw d) (rh d)) as Hp4 by (destruct (sg_back _ _ _ _ S4) as [r ->]; by apply Hpart).
  destruct (on_gfx_paint _ _ _ _ _ (gfx_blit_region_ok _ _ _ _ _ _ _ _ _ Hcp Hcl Sx Sy Hp4)) as (g & Eg & _ & _ & _ & Hg). exists (set_gs g t4). split; [exact Eg|].
  split; [|exact (stage_kept _ _ _ S4)]. intros X Y HX. cbn [gs set_gs]. rewrite Es in Hg. rewrite Hg by (by apply screen_inside). destruct S4 as [[r Er] Hb Hc _ Hv _ _].
  rewrite Hc, (proj2 (desk_in_clip X Y) HX), Er. cbn [width height set_dirty andb]. change (within (rx d) (ry d) (rx d + rw d) (ry d + rh d) X Y) with (covers d X Y). rewrite Hold. change (D X Y) with (covers d X Y).
  destruct (covers d X Y) eqn:Ed; [|done]. destruct (id HX) as [HX1 HY1]. assert (within 0 0 (width back) (height back) (X - rx d + rx d) (Y - ry d + ry d) = true) as -> by (unfold within; lia). cbn [andb].
  replace (X - (rx d - rx d)) with X by lia. replace (Y - (ry d - ry d)) with Y by lia. apply (Hv X Y); [by apply desk_in_clip|exact Ed].
Qed.

End Frame.

(** ** Paint events *)

(** The event a client is due. *)
Definition due (ws : list window) (cl : client) : option (Z * window_event) :=
  match c_exists cl, c_win cl with
  | true, Some i => match ws !! i with Some w => if presented w then Some (c_ch cl, WET_PAINT (usr_back_buf w)) else None | None => None end
  | _, _ => None
  end.

(** What posting leaves of a window. *)
Definition unpresent (w : window) : window := set_presented false w.

Lemma due_other ws i w cl : ws !! i = Some w → (c_exists cl = true → c_win cl ≠ Some i) → due (alter unpresent i ws) cl = due ws cl.
Proof.
  intros Hw Hne. unfold due. destruct (c_exists cl); [|done]. destruct (c_win cl) as [j|]; [|done]. by rewrite list_lookup_alter_ne by (intros ->; by apply Hne).
Qed.

Lemma paint_clients_ok n : ∀ c s, (c + n = length (s_client_pool s))%nat → (∀ c cl i, s_client_pool s !! c = Some cl → c_win cl = Some i → (i < length (s_window_pool s))%nat) → own_windows s →
  ∃ s', paint_clients n c s = Ok (tt, s') ∧ gs s' = gs s ∧ unpresent <$> s_window_pool s' = unpresent <$> s_window_pool s ∧
    posted s' = posted s ++ omap (due (s_window_pool s)) (drop c (s_client_pool s)).
Proof.
  induction n as [|n IH]; intros c s Hlen Hin Hown; cbn [paint_clients].
  - exists s. rewrite drop_ge by lia. split; [done|]. by rewrite app_nil_r.
  - destruct (lookup_lt_is_Some_2 (s_client_pool s) c ltac:(lia)) as [cl Hcl]. assert (rd_client c s = Ok (cl, s)) as Hrd. { unfold rd_client. rewrite (bind_of_ok _ _ _ s s) by done. by rewrite Hcl. }
    rewrite (bind_of_ok _ _ _ cl s) by done. rewrite (drop_S _ cl c Hcl). cbn [omap list_omap].
    assert (∀ b, due (s_window_pool s) cl = None → b s = Ok (tt, s) → ∃ s', (b ;; paint_clients n (S c)) s = Ok (tt, s') ∧ gs s' = gs s ∧ unpresent <$> s_window_pool s' = unpresent <$> s_window_pool s ∧
      posted s' = posted s ++ match due (s_window_pool s) cl with Some y => y :: omap (due (s_window_pool s)) (drop (S c) (s_client_pool s)) | None => omap (due (s_window_pool s)) (drop (S c) (s_client_pool s)) end) as Hnone.
    { intros b Hd Hb. rewrite (bind_of_ok _ _ _ tt s) by done. rewrite Hd. apply IH; [lia|done|done]. }
    destruct (c_exists cl) eqn:Ex; [|apply (Hnone (mret tt)); [unfold due; by rewrite Ex|done]]. destruct (c_win cl) as [i|] eqn:Ei; [|apply (Hnone (mret tt)); [unfold due; by rewrite Ex, Ei|done]].
    destruct (lookup_lt_is_Some_2 _ _ (Hin c cl i Hcl Ei)) as [w Hw]. destruct (presented w) eqn:Ep.
    + set (s1 := set_posted (posted s ++ [(c_ch cl, WET_PAINT (usr_back_buf w))]) (upd_win i unpresent s)).
      rewrite (bind_of_ok _ _ s tt s1).
      2: { rewrite (bind_of_ok _ _ _ w s) by (by apply rd_win_ok). rewrite Ep. unfold when. rewrite (bind_of_ok _ _ _ tt (upd_win i unpresent s)) by (apply wr_win_ok; by eapply lookup_lt_Some).
           unfold client_post_event. rewrite (bind_of_ok _ _ _ c (upd_win i unpresent s)) by done. rewrite (bind_of_ok _ _ _ cl (upd_win i unpresent s)); [done|]. unfold rd_client. rewrite (bind_of_ok _ _ _ (upd_win i unpresent s) (upd_win i unpresent s)) by done.
           change (s_client_pool (upd_win i unpresent s)) with (s_client_pool s). by rewrite Hcl. }
      destruct (IH (S c) s1) as (s' & E & Hg & Hu & Hp); [cbn; lia| |exact Hown|].
      { intros c' cl' i' H1 H2. change (i' < length (s_window_pool (upd_win i unpresent s)))%nat. rewrite upd_win_length. by eapply Hin. }
      exists s'. split; [done|]. split; [exact Hg|]. split.
      * rewrite Hu. change (s_window_pool s1) with (s_window_pool (upd_win i unpresent s)). apply list_eq. intros j. rewrite !list_lookup_fmap, upd_win_lookup. destruct (decide (j = i)); [|done]. by destruct (s_window_pool s !! j).
      * rewrite Hp. change (posted s1) with (posted s ++ [(c_ch cl, WET_PAINT (usr_back_buf w))]). rewrite <- app_assoc. f_equal. unfold due at 2. rewrite Ex, Ei, Hw, Ep. cbn [app]. f_equal.
        change (s_client_pool s1) with (s_client_pool s). change (s_window_pool s1) with (alter unpresent i (s_window_pool s)). apply list_omap_ext. apply Forall2_same_length_lookup. split; [done|]. intros k x y Hx Hy. rewrite Hx in Hy. apply (inj Some) in Hy as <-.
        eapply due_other; [exact Hw|]. intros Ex' Ei'. rewrite lookup_drop in Hx. pose proof (Hown _ _ _ _ _ Hcl Hx Ex Ex' Ei Ei'). lia.
    + apply (Hnone (w ← rd_win i; when (presented w) (wr_win i (set_presented false) ;; client_post_event (Some c) (WET_PAINT (usr_back_buf w))))).
      * unfold due. by rewrite Ex, Ei, Hw, Ep.
      * rewrite (bind_of_ok _ _ _ w s) by (by apply rd_win_ok). by rewrite Ep.
Qed.

(** ** A frame *)

Definition has_moved (s : comp) (i : nat) : bool := match s_window_pool s !! i with Some w => moved w | None => false end.

Lemma any_moved_ok s l : bwd s l → ∀ a b fuel, l = a ++ b → (length a ≤ fuel)%nat → any_moved fuel (last a) s = Ok (existsb (has_moved s) a, s).
Proof.
  intros [_ B] a. induction a as [|i a IH] using rev_ind; intros b fuel El Hf; [by destruct fuel|].
  rewrite last_snoc. rewrite length_app in Hf. cbn [length] in Hf. destruct fuel as [|fuel]; [lia|]. cbn [any_moved].
  assert (l !! length a = Some i) as Hi by (rewrite El, <- app_assoc; apply lookup_mid). specialize (B _ _ Hi). unfold prev_of in B. rewrite existsb_app. cbn [existsb]. unfold has_moved at 2.
  destruct (s_window_pool s !! i) as [w|] eqn:Ew; [|done]. rewrite (bind_of_ok _ _ _ w s) by (by apply rd_win_ok). rewrite orb_false_r. destruct (moved w); [by rewrite orb_true_r|]. rewrite orb_false_r.
  apply (inj Some) in B. rewrite B. replace (match length a with 0%nat => None | S k' => l !! k' end) with (last a); [apply (IH ([i] ++ b)); [by rewrite El, <- app_assoc|lia]|].
  rewrite last_lookup. destruct a as [|x a]; [done|]. cbn [length pred]. by rewrite El, <- app_assoc, lookup_app_l by (cbn; lia).
Qed.

Lemma due_erase ws cl : due (erase <$> ws) cl = due ws cl.
Proof. unfold due. destruct (c_exists cl); [|done]. destruct (c_win cl) as [i|]; [|done]. rewrite list_lookup_fmap. by destruct (ws !! i). Qed.

Definition redraws (s : comp) (l : list nat) : bool := existsb (has_moved s) l || s_full_redraw s.

(** What a run leaves: the clients that are due have their events, hidden windows their mark. *)
Definition ends (s s' : comp) (painted : bool) : Prop :=
  posted s' = posted s ++ (if painted then omap (due (s_window_pool s)) (s_client_pool s) else []) ∧
  ∀ i w, s_window_pool s !! i = Some w → hidden w = true → ∃ w', s_window_pool s' !! i = Some w' ∧ hidden w' = true ∧ moved w' = moved w.

Lemma paint_events_ok s l t : desk_ok s l → kept s t → ∃ s', send_paint_events t = Ok (tt, s') ∧ gs s' = gs t ∧ ends s s' true.
Proof.
  intros Hok (Kw & Kc & Kp). destruct (dk_clients _ _ Hok) as [Hn Hin]. assert (length (s_window_pool t) = length (s_window_pool s)) as Hl by (pose proof (f_equal length Kw) as E; by rewrite !length_fmap in E).
  destruct (paint_clients_ok MAX_CLIENTS 0 t) as (s' & E & Hg & Hu & Hp).
  - by rewrite Kc, Hn.
  - intros c cl i. rewrite Kc, Hl, (dk_pool _ _ Hok). apply Hin.
  - unfold own_windows. rewrite Kc. apply (dk_own _ _ Hok).
  - exists s'. split; [exact E|]. split; [done|]. split.
    + rewrite Hp, Kp, Kc, drop_0. f_equal. apply list_omap_ext, Forall2_same_length_lookup. split; [done|]. intros k x y Hx Hy. rewrite Hx in Hy. apply (inj Some) in Hy as <-. by rewrite <- due_erase, Kw, due_erase.
    + intros i w Hw Hh. pose proof (f_equal (λ l : list window, l !! i) Kw) as E1. pose proof (f_equal (λ l : list window, l !! i) Hu) as E2. cbv beta in E1, E2. rewrite !list_lookup_fmap in E1, E2. rewrite Hw in E1.
      destruct (s_window_pool t !! i) as [w1|]; [|done]. destruct (s_window_pool s' !! i) as [w2|]; [|done]. exists w2. split; [done|]. apply (inj Some) in E1, E2.
      pose proof (f_equal hidden E1) as A1. pose proof (f_equal moved E1) as A2. pose proof (f_equal hidden E2) as A3. pose proof (f_equal moved E2) as A4.
      change (hidden w1 = hidden w) in A1. change (hidden w1 && moved w1 = hidden w && moved w) in A2. change (hidden w2 = hidden w1) in A3. change (moved w2 = moved w1) in A4. rewrite A1, Hh in A2. cbn [andb] in A2. split; congruence.
Qed.

(** C22: one run of the compositor, on a screen, a back buffer and a desktop of one
    size.  It returns.  If a window has moved or a redraw was asked for, every
    pixel of the screen then shows the scene: the desktop, over it the windows
    along the backward links from the last to the first (title bar with icon,
    title and buttons, contents with rounded lower corners), over them the
    pointer.  Otherwise, when titles and buttons fit into their windows, the
    pixels of the collected rectangle show the scene and every other pixel of the
    screen is as before; the rectangle covers everything that is marked as
    changed.  The clients whose window was presented are sent a paint event each.
    A hidden window keeps its mark [moved], so that the next run is a full redraw
    as well. *)
Theorem compositor_shows_scene s l : desk_ok s l → redraws s l = true ∨ all_fit s →
  ∃ s', compositor_run s = Ok (tt, s') ∧
    (∀ X Y, on_screen s X Y → pixel (gs s') (g_screen s) X Y =
      if redraws s l || covers (collect_dirty_regions s) X Y then scene s l X Y else pixel (gs s) (g_screen s) X Y) ∧
    (∀ X Y, changed s X Y = true → covers (collect_dirty_regions s) X Y = true) ∧
    ends s s' (redraws s l || negb (rw (collect_dirty_regions s) =? 0)).
Proof.
  intros Hok Hfit. destruct (collect_ok s l Hok) as (Hbox & Hcur & Hch). unfold compositor_run. rewrite (bind_of_ok _ _ _ s s) by done.
  destruct (dk_list _ _ Hok) as [El _]. rewrite El, (bind_of_ok _ _ _ (existsb (has_moved s) l) s).
  2: { apply (any_moved_ok s l (dk_list _ _ Hok) l []); [by rewrite app_nil_r|by apply (desk_length s)]. }
  fold (redraws s l). destruct (redraws s l) eqn:Er; cbn [orb].
  - destruct (full_composite_ok s l Hok) as (t & Et & Hpx & Hk). destruct (paint_events_ok s l t Hok Hk) as (s' & Es & Hg & He). rewrite (bind_of_ok _ _ _ tt t) by done. rewrite (bind_of_ok _ _ _ tt s') by done.
    eexists. split; [reflexivity|]. split; [|split; [done|exact He]]. intros X Y HX. change (gs (set_s_full_redraw false s')) with (gs s'). rewrite Hg. by apply Hpx.
  - destruct Hfit as [?|Hfit]; [done|]. cbv zeta. set (d := collect_dirty_regions s) in *. destruct (Z.eqb_spec (rw d) 0) as [Ez|Ez].
    + exists s. split; [done|]. split; [|split; [done|split; [by rewrite app_nil_r|by eauto]]]. intros X Y _. assert (covers d X Y = false) as -> by (unfold covers, within; lia). done.
    + destruct (partial_composite_ok s l Hok d Hfit Hbox (Hcur Ez)) as (t & Et & Hpx & Hk). destruct (paint_events_ok s l t Hok Hk) as (s' & Es & Hg & He). rewrite (bind_of_ok _ _ _ tt t) by done.
      exists s'. split; [done|]. split; [|by split]. intros X Y HX. rewrite Hg. by apply Hpx.
Qed.

Module Scenery.
Definition surf (p w h : Z) (r : rect) : fb_info := mkFb p w h (w * 4) r.
Definition content (n : Z) (v : Z) : list Z := repeat v (Z.to_nat n).
Definition win0 : window :=
  set_w_exists true (set_front_buf (surf 4000 100 30 (mkRect 0 0 10 10)) (set_w_x 20 (set_w_y 10 (set_title [65] (set_presented true (set_usr_back_buf 7 window_zero)))))).
Definition frame : comp :=
  mkComp (mkGst {[1000 := content 16000 1; 2000 := content 16000 2; 3000 := content 16000 3; 4000 := content 3000 4]} (mkRect 0 0 160 100))
    (win0 :: repeat window_zero 9) (mkClient true 5 (Some 0%nat) 0 :: repeat client_zero 15)
    (surf 1000 160 100 (mkRect 0 0 0 0)) (surf 2000 160 100 (mkRect 0 0 0 0)) (surf 3000 160 100 (mkRect 0 0 0 0))
    (mkEvent 0 0 0 0) 0 0 (Some 0%nat) (Some 0%nat) None 40 60 40 60 false false [].

Lemma frame_surface p w h v r n : pixels (gs frame) !! p = Some (content n v) → n = w * h → 0 ≤ w < 2 ^ 15 → 0 ≤ h < 2 ^ 15 → has (surf p w h r) (gs frame).
Proof.
  intros Hp -> Hw Hh. exists (content (w * h) v). split; [exact Hp|]. assert (w * 4 / 4 = w) as E by (by apply Z.div_mul). split; cbn [pitch width height surf]; rewrite ?E; try lia.
  unfold content. rewrite repeat_length. lia.
Qed.

Lemma repeat_lookup {A} (x y : A) n i : repeat x n !! i = Some y → y = x.
Proof. intros H%list_elem_of_lookup_2. apply list_elem_of_In in H. by apply repeat_spec in H. Qed.

Lemma frame_windows i w : s_window_pool frame !! i = Some w → visible w = true → w = win0.
Proof. destruct i as [|i]; [intros E _; by apply (inj Some) in E|]. intros E Hv. apply repeat_lookup in E. by subst. Qed.

Lemma frame_ok : desk_ok frame [0%nat].
Proof.
  split.
  - split; [reflexivity|]. intros [|[|k]] i Hk; try discriminate. injection Hk as <-. reflexivity.
  - apply NoDup_singleton.
  - reflexivity.
  - split; [reflexivity|]. intros [|c] cl i Hc Hi; [apply (inj Some) in Hc; subst cl; injection Hi as <-; unfold WINDOW_MAX_COUNT; lia|]. apply (repeat_lookup client_zero cl 15) in Hc. by subst.
  - intros [|c] [|c'] cl cl' i Hc Hc' H1 H2 _ _; [done| | |].
    all: first [apply (repeat_lookup client_zero cl 15) in Hc; by subst|apply (repeat_lookup client_zero cl' 15) in Hc'; by subst].
  - apply (frame_surface 2000 160 100 2 _ 16000); [reflexivity|lia..].
  - split; [apply (frame_surface 1000 160 100 1 _ 16000); [reflexivity|lia..]|done].
  - split; [apply (frame_surface 3000 160 100 3 _ 16000); [reflexivity|lia..]|done].
  - done.
  - done.
  - done.
  - unfold on_screen. cbn [frame g_screen surf width height g_cursor_x g_cursor_y g_prev_cursor_x g_prev_cursor_y]. lia.
  - intros i w Hw Hv. rewrite (frame_windows i w Hw Hv). split; try (cbn; lia); try done.
    split; [apply (frame_surface 4000 100 30 4 _ 3000); [reflexivity|lia..]|done].
  - unfold dirty_in. cbn. lia.
Qed.

Lemma frame_fit : all_fit frame.
Proof. intros i w Hw Hv. rewrite (frame_windows i w Hw Hv). unfold fits. cbn. lia. Qed.
End Scenery.
Import Scenery.

(** The changed corner of the window is shown, the pointer is drawn again, the rest of the screen is left. *)
Lemma compositor_shows_scene_witness :
  ∃ s', compositor_run frame = Ok (tt, s') ∧ posted s' = [(5, WET_PAINT 7)] ∧ collect_dirty_regions frame = mkRect 20 45 32 35 ∧
    map (λ p : Z * Z, pixel (gs s') (g_screen frame) p.1 p.2) [(25, 50); (40, 60); (22, 79); (10, 10)] = [4; RGB 0 0 0; 3; 1].
Proof.
  destruct (compositor_shows_scene frame [0%nat] frame_ok (or_intror frame_fit)) as (s' & E & Hpx & _ & Hp & _). exists s'. split; [exact E|]. split; [exact Hp|]. split; [reflexivity|].
  cbn [map fst snd]. rewrite !Hpx by (unfold on_screen; cbn; lia). vm_compute. reflexivity.
Defined.

End Compositor.
