(* ===== verification/E1000.v ===== *)
(** * The network card ([kernel/io/e1000.c])

    The driver and the card share two rings of descriptors and the buffers they
    point to.  The card's side (a frame stored, a frame sent) can happen between
    any two statements of the driver, so that the theorems are about the runs of
    a step relation.  Memory is physical; [dma_xlate] is what
    [vmm_virt_to_phys] answers for the kernel's addresses. *)
From S2P Require Import Prelude Pmm Vmm Heap.

#[local] Existing Instance Heap.vm_backing.

Module E1000.

(** ** Memory the card can reach *)

(** [kmalloc], and the physical address of a kernel address. *)
Class Dma (A : Type) := { dma_malloc : Z → M A Z; dma_xlate : A → Z → Z }.

#[export] Instance kernel_dma : Dma (Heap.heap_state Vmm.vmm_state) := {
  dma_malloc := Heap.kmalloc;
  dma_xlate a va := match Vmm.vmm_virt_to_phys (Vmm.g_kernel_address_space (Heap.back a)) va (Heap.back a) with Ok (p, _) => p | _ => 0 end
}.

(** What the driver relies on: the blocks handed out are mapped, physically
    contiguous and apart from each other, and their translation stays. *)
Class DmaLaws (A : Type) `{Dma A} := {
  dma_blocks : A → list (Z * Z) → Prop;
  dma_malloc_ok a L n : dma_blocks a L → 0 < n ≤ 4096 →
    wp (dma_malloc n) (λ p a', dma_blocks a' ((p, n) :: L) ∧ 
        ∀ q m k, (q, m) ∈ L → 0 ≤ k < m → dma_xlate a' (q + k) = dma_xlate a (q + k)) (λ _, True) a;
  dma_contiguous a L p n k : dma_blocks a L → (p, n) ∈ L → 0 ≤ k < n → dma_xlate a (p + k) = dma_xlate a p + k;
  dma_word a L p n : dma_blocks a L → (p, n) ∈ L → 0 ≤ dma_xlate a p < 2 ^ 64;
  dma_disjoint a L i j p n q m : dma_blocks a L → i ≠ j → L !! i = Some (p, n) → L !! j = Some (q, m) →
    dma_xlate a p + n ≤ dma_xlate a q ∨ dma_xlate a q + m ≤ dma_xlate a p
}.

Definition write_bytes (a : Z) (l : list Z) (m : Z → Z) : Z → Z :=
  λ x, if decide (a ≤ x < a + Z.of_nat (length l)) then nth (Z.to_nat (x - a)) l 0 else m x.
Definition dma_bytes (a : Z) (n : nat) (m : Z → Z) : list Z := map (λ k, m (a + Z.of_nat k)) (seq 0 n).

(** ** Registers and descriptors *)

Definition E1000_CTRL : Z := 0x0000.
Definition E1000_RCTL : Z := 0x0100.
Definition E1000_TCTL : Z := 0x0400.
Definition E1000_RDBAL : Z := 0x2800.
Definition E1000_RDBAH : Z := 0x2804.
Definition E1000_RDLEN : Z := 0x2808.
Definition E1000_RDH : Z := 0x2810.
Definition E1000_RDT : Z := 0x2818.
Definition E1000_TDBAL : Z := 0x3800.
Definition E1000_TDBAH : Z := 0x3804.
Definition E1000_TDLEN : Z := 0x3808.
Definition E1000_TDH : Z := 0x3810.
Definition E1000_TDT : Z := 0x3818.
Definition E1000_MTA : Z := 0x5200.
Definition E1000_RAL : Z := 0x5400.
Definition E1000_RAH : Z := 0x5404.

Definition E1000_CTRL_SLU : Z := Z.shiftl 1 6.
Definition E1000_CTRL_RST : Z := Z.shiftl 1 26.
Definition E1000_RCTL_EN : Z := Z.shiftl 1 1.
Definition E1000_RCTL_BAM : Z := Z.shiftl 1 15.
Definition E1000_RCTL_SECRC : Z := Z.shiftl 1 26.
Definition E1000_TCTL_EN : Z := Z.shiftl 1 1.
Definition E1000_TCTL_PSP : Z := Z.shiftl 1 3.
Definition STAT_DD : Z := 1.
Definition E1000_TXD_CMD_EOP : Z := 1.
Definition E1000_TXD_CMD_RS : Z := 8.

Definition TX_DESC_COUNT : Z := 8.
Definition RX_DESC_COUNT : Z := 64.
Definition RX_BUFFER_SIZE : Z := 2048.

Record tx_desc := mkTx { tx_addr : Z; tx_length : Z; tx_cso : Z; tx_cmd : Z; tx_status : Z; tx_css : Z; tx_special : Z }.
Record rx_desc := mkRx { rx_addr : Z; rx_length : Z; rx_checksum : Z; rx_status : Z; rx_errors : Z; rx_special : Z }.

Definition set_rx_status (v : Z) (d : rx_desc) : rx_desc := mkRx (rx_addr d) (rx_length d) (rx_checksum d) v (rx_errors d) (rx_special d).
Definition set_tx_status (v : Z) (d : tx_desc) : tx_desc := mkTx (tx_addr d) (tx_length d) (tx_cso d) (tx_cmd d) v (tx_css d) (tx_special d).

(** The driver's variables, the card's registers and the memory; a ring is its
    address and its descriptors, none before it is allocated. *)
Record card (A : Type) := mkCard {
  nm_alloc : A;
  regs : Z → Z;
  resetting : nat;
  rx_base : Z; rx_descs : list rx_desc;
  tx_base : Z; tx_descs : list tx_desc;
  rx_buffers : list Z;
  rx_tail : Z;
  tx_tail : Z;
  g_mac : list Z;
  cmem : Z → Z
}.
Arguments mkCard {A}.
Arguments nm_alloc {A}.
Arguments regs {A}.
Arguments resetting {A}.
Arguments rx_base {A}.
Arguments rx_descs {A}.
Arguments tx_base {A}.
Arguments tx_descs {A}.
Arguments rx_buffers {A}.
Arguments rx_tail {A}.
Arguments tx_tail {A}.
Arguments g_mac {A}.
Arguments cmem {A}.

Section driver.
Context {A : Type} `{!Dma A}.
Local Notation S := (card A).

Definition set_alloc (a : A) (s : S) : S := mkCard a (regs s) (resetting s) (rx_base s) (rx_descs s) (tx_base s) (tx_descs s) (rx_buffers s) (rx_tail s) (tx_tail s) (g_mac s) (cmem s).
Definition set_regs (r : Z → Z) (s : S) : S := mkCard (nm_alloc s) r (resetting s) (rx_base s) (rx_descs s) (tx_base s) (tx_descs s) (rx_buffers s) (rx_tail s) (tx_tail s) (g_mac s) (cmem s).
Definition set_resetting (n : nat) (s : S) : S := mkCard (nm_alloc s) (regs s) n (rx_base s) (rx_descs s) (tx_base s) (tx_descs s) (rx_buffers s) (rx_tail s) (tx_tail s) (g_mac s) (cmem s).
Definition set_rx_ring (b : Z) (l : list rx_desc) (s : S) : S := mkCard (nm_alloc s) (regs s) (resetting s) b l (tx_base s) (tx_descs s) (rx_buffers s) (rx_tail s) (tx_tail s) (g_mac s) (cmem s).
Definition set_rx_descs (l : list rx_desc) (s : S) : S := set_rx_ring (rx_base s) l s.
Definition set_tx_ring (b : Z) (l : list tx_desc) (s : S) : S := mkCard (nm_alloc s) (regs s) (resetting s) (rx_base s) (rx_descs s) b l (rx_buffers s) (rx_tail s) (tx_tail s) (g_mac s) (cmem s).
Definition set_tx_descs (l : list tx_desc) (s : S) : S := set_tx_ring (tx_base s) l s.
Definition set_rx_buffers (l : list Z) (s : S) : S := mkCard (nm_alloc s) (regs s) (resetting s) (rx_base s) (rx_descs s) (tx_base s) (tx_descs s) l (rx_tail s) (tx_tail s) (g_mac s) (cmem s).
Definition set_rx_tail (t : Z) (s : S) : S := mkCard (nm_alloc s) (regs s) (resetting s) (rx_base s) (rx_descs s) (tx_base s) (tx_descs s) (rx_buffers s) t (tx_tail s) (g_mac s) (cmem s).
Definition set_tx_tail (t : Z) (s : S) : S := mkCard (nm_alloc s) (regs s) (resetting s) (rx_base s) (rx_descs s) (tx_base s) (tx_descs s) (rx_buffers s) (rx_tail s) t (g_mac s) (cmem s).
Definition set_mac (m : list Z) (s : S) : S := mkCard (nm_alloc s) (regs s) (resetting s) (rx_base s) (rx_descs s) (tx_base s) (tx_descs s) (rx_buffers s) (rx_tail s) (tx_tail s) m (cmem s).
Definition set_cmem (m : Z → Z) (s : S) : S := mkCard (nm_alloc s) (regs s) (resetting s) (rx_base s) (rx_descs s) (tx_base s) (tx_descs s) (rx_buffers s) (rx_tail s) (tx_tail s) (g_mac s) m.

(** The reset bit reads as set for [reset_polls] reads after it was written; a
    reset clears every register but the receive address. *)
Context (reset_polls : nat).

Definition e1000_read (reg : Z) : M S Z := λ s,
  if reg =? E1000_CTRL then
    match resetting s with
    | O => Ok (regs s reg, s)
    | Datatypes.S n => Ok (Z.lor (regs s reg) E1000_CTRL_RST, set_resetting n s)
    end
  else Ok (regs s reg, s).

Definition upd (r v : Z) (f : Z → Z) : Z → Z := λ x, if x =? r then v else f x.

Definition e1000_write (reg val : Z) : M S unit := λ s,
  if (reg =? E1000_CTRL) && Z.testbit val 26
  then Ok (tt, set_resetting reset_polls (set_regs (λ r, if (r =? E1000_RAL) || (r =? E1000_RAH) then regs s r else 0) s))
  else Ok (tt, set_regs (upd reg (u32 val) (regs s)) s).

Definition mac_of (ral rah : Z) : list Z :=
  [Z.land (Z.shiftr ral 0) 0xFF; Z.land (Z.shiftr ral 8) 0xFF; Z.land (Z.shiftr ral 16) 0xFF; Z.land (Z.shiftr ral 24) 0xFF;
   Z.land (Z.shiftr rah 0) 0xFF; Z.land (Z.shiftr rah 8) 0xFF].

Definition e1000_read_mac : M S unit :=
  ral ← e1000_read E1000_RAL;
  rah ← e1000_read E1000_RAH;
  modify (set_mac (mac_of ral rah)).

Definition dma_alloc (n : Z) : M S Z := zoom nm_alloc set_alloc (dma_malloc n).
Definition phys_of (va : Z) : M S Z := gets (λ s, dma_xlate (nm_alloc s) va).

Definition wr_rx (i : Z) (f : rx_desc → rx_desc) : M S unit :=
  s ← get;
  d ← of_option (rx_descs s !! Z.to_nat i);
  put (set_rx_descs (<[Z.to_nat i := f d]> (rx_descs s)) s).
Definition wr_tx (i : Z) (f : tx_desc → tx_desc) : M S unit :=
  s ← get;
  d ← of_option (tx_descs s !! Z.to_nat i);
  put (set_tx_descs (<[Z.to_nat i := f d]> (tx_descs s)) s).

(** [junk] is what the memory given to the ring held. *)
Definition e1000_init_rx (junk : list rx_desc) : M S unit :=
  p ← dma_alloc (16 * RX_DESC_COUNT);
  modify (set_rx_ring p junk) ;;
  for_range (Z.to_nat RX_DESC_COUNT) 0 (λ i,
    b ← dma_alloc RX_BUFFER_SIZE;
    modify (λ s, set_rx_buffers (<[Z.to_nat i := b]> (rx_buffers s)) s) ;;
    phys ← phys_of b;
    wr_rx i (λ d, mkRx phys (rx_length d) (rx_checksum d) 0 (rx_errors d) (rx_special d))) ;;
  phys ← (b ← gets rx_base; phys_of b);
  e1000_write E1000_RDBAL (Z.land phys 0xFFFFFFFF) ;;
  e1000_write E1000_RDBAH (Z.shiftr phys 32) ;;
  e1000_write E1000_RDLEN (RX_DESC_COUNT * 16) ;;
  e1000_write E1000_RDH 0 ;;
  e1000_write E1000_RDT (RX_DESC_COUNT - 1) ;;
  e1000_write E1000_RCTL (Z.lor (Z.lor E1000_RCTL_EN E1000_RCTL_BAM) E1000_RCTL_SECRC).

Definition e1000_init_tx (junk : list tx_desc) : M S unit :=
  p ← dma_alloc (16 * TX_DESC_COUNT);
  modify (set_tx_ring p junk) ;;
  for_range (Z.to_nat TX_DESC_COUNT) 0 (λ i, wr_tx i (set_tx_status STAT_DD)) ;;
  phys ← (b ← gets tx_base; phys_of b);
  e1000_write E1000_TDBAL (Z.land phys 0xFFFFFFFF) ;;
  e1000_write E1000_TDBAH (Z.shiftr phys 32) ;;
  e1000_write E1000_TDLEN (TX_DESC_COUNT * 16) ;;
  e1000_write E1000_TDH 0 ;;
  e1000_write E1000_TDT 0 ;;
  e1000_write E1000_TCTL (Z.lor E1000_TCTL_EN E1000_TCTL_PSP).

(** [while ((e1000_read(E1000_CTRL) & E1000_CTRL_RST) && --rst_timeout);] *)
Fixpoint wait_reset (timeout : nat) : M S nat :=
  c ← e1000_read E1000_CTRL;
  if truthy (Z.land c E1000_CTRL_RST) then
    match timeout with
    | O | Datatypes.S O => mret O
    | Datatypes.S t => wait_reset t
    end
  else mret timeout.
Definition RST_TIMEOUT : nat := 1000.

(** From where the registers are mapped. *)
Definition e1000_init (junk_rx : list rx_desc) (junk_tx : list tx_desc) : M S unit :=
  ctrl_before ← e1000_read E1000_CTRL;
  e1000_write E1000_CTRL (Z.lor ctrl_before E1000_CTRL_RST) ;;
  rst_timeout ← wait_reset RST_TIMEOUT;
  match rst_timeout with
  | O => mret tt
  | _ =>
      c ← e1000_read E1000_CTRL;
      e1000_write E1000_CTRL (Z.lor c E1000_CTRL_SLU) ;;
      for_range 128 0 (λ i, e1000_write (E1000_MTA + i * 4) 0) ;;
      e1000_read_mac ;;
      e1000_init_rx junk_rx ;;
      e1000_init_tx junk_tx
  end.

(** ** Receiving *)

(** What the processor reads at a kernel address. *)
Definition bytes_at (va : Z) (n : nat) (s : S) : list Z :=
  map (λ k, cmem s (dma_xlate (nm_alloc s) (va + Z.of_nat k))) (seq 0 n).

(** The condition of the loop and the frame handed to [ethernet_receive]. *)
Definition poll_take : M S (option (list Z)) :=
  s ← get;
  d ← of_option (rx_descs s !! Z.to_nat (rx_tail s));
  if truthy (Z.land (rx_status d) STAT_DD) then
    b ← of_option (rx_buffers s !! Z.to_nat (rx_tail s));
    mret (Some (bytes_at b (Z.to_nat (rx_length d)) s))
  else mret None.

Definition poll_clear : M S unit := t ← gets rx_tail; wr_rx t (set_rx_status 0).

Definition poll_advance : M S unit :=
  t ← gets rx_tail;
  e1000_write E1000_RDT t ;;
  modify (set_rx_tail (Z.rem (t + 1) RX_DESC_COUNT)).

Fixpoint e1000_poll (fuel : nat) (ethernet_receive : list Z → M S unit) : M S unit :=
  f ← poll_take;
  match f with
  | None => mret tt
  | Some frame =>
      match fuel with
      | O => no_fuel
      | Datatypes.S fuel' =>
          ethernet_receive frame ;; poll_clear ;; poll_advance ;; e1000_poll fuel' ethernet_receive
      end
  end.

(** ** Sending *)

(** [while (!(tx_descs[tx_tail].status & E1000_TXD_STAT_DD));] *)
Fixpoint wait_done (fuel : nat) : M S unit :=
  s ← get;
  d ← of_option (tx_descs s !! Z.to_nat (tx_tail s));
  if truthy (Z.land (tx_status d) STAT_DD) then mret tt
  else match fuel with O => no_fuel | Datatypes.S fuel' => wait_done fuel' end.

Definition send_desc (data len : Z) : M S unit :=
  phys ← phys_of data;
  t ← gets tx_tail;
  wr_tx t (λ d, mkTx phys (u16 len) (tx_cso d) (Z.lor E1000_TXD_CMD_EOP E1000_TXD_CMD_RS) 0 (tx_css d) (tx_special d)) ;;
  modify (set_tx_tail (Z.rem (t + 1) TX_DESC_COUNT)) ;;
  e1000_write E1000_TDT (Z.rem (t + 1) TX_DESC_COUNT).

Definition e1000_send (fuel : nat) (data len : Z) : M S unit :=
  wait_done fuel ;; send_desc data len.

(** ** The card *)

Definition base_of (lo hi : Z) (s : S) : Z := regs s lo + 2 ^ 32 * regs s hi.

(** A frame from the wire: stored if the receiver is on and a descriptor is free. *)
Definition card_store (frame : list Z) (s : S) : option S :=
  if Z.testbit (regs s E1000_RCTL) 1 && negb (regs s E1000_RDH =? regs s E1000_RDT) &&
     (base_of E1000_RDBAL E1000_RDBAH s =? dma_xlate (nm_alloc s) (rx_base s)) then
    d ← rx_descs s !! Z.to_nat (regs s E1000_RDH);
    Some (set_regs (upd E1000_RDH ((regs s E1000_RDH + 1) mod (regs s E1000_RDLEN / 16)) (regs s))
         (set_cmem (write_bytes (rx_addr d) frame (cmem s))
         (set_rx_descs (<[Z.to_nat (regs s E1000_RDH) := mkRx (rx_addr d) (Z.of_nat (length frame)) (rx_checksum d) 3 0 (rx_special d)]> (rx_descs s)) s)))
  else None.

(** The next queued frame goes out: what is sent, and the state afterwards. *)
Definition card_send (s : S) : option (list Z * S) :=
  if Z.testbit (regs s E1000_TCTL) 1 && negb (regs s E1000_TDH =? regs s E1000_TDT) &&
     (base_of E1000_TDBAL E1000_TDBAH s =? dma_xlate (nm_alloc s) (tx_base s)) then
    d ← tx_descs s !! Z.to_nat (regs s E1000_TDH);
    Some (dma_bytes (tx_addr d) (Z.to_nat (tx_length d)) (cmem s),
          set_regs (upd E1000_TDH ((regs s E1000_TDH + 1) mod (regs s E1000_TDLEN / 16)) (regs s))
         (set_tx_descs (<[Z.to_nat (regs s E1000_TDH) := set_tx_status (Z.lor (tx_status d) (if Z.testbit (tx_cmd d) 3 then STAT_DD else 0)) d]> (tx_descs s)) s))
  else None.
End driver.

(** ** Bytes *)

Lemma dma_bytes_length a n m : length (dma_bytes a n m) = n.
Proof. unfold dma_bytes. by rewrite length_map, length_seq. Qed.

Lemma dma_bytes_lookup a n m k : (k < n)%nat → dma_bytes a n m !! k = Some (m (a + Z.of_nat k)).
Proof. intros H. unfold dma_bytes. rewrite list_lookup_fmap, lookup_seq_lt by lia. done. Qed.

Lemma read_written a l m : dma_bytes a (length l) (write_bytes a l m) = l.
Proof.
  apply list_eq_same_length with (n := length l); [done|apply dma_bytes_length|]. intros k x y Hk Hx Hy. rewrite dma_bytes_lookup in Hx by done. injection Hx as <-.
  unfold write_bytes. rewrite decide_True by lia. replace (Z.to_nat (a + Z.of_nat k - a)) with k by lia. by apply nth_lookup_Some.
Qed.

Lemma read_other a n l b m : a + Z.of_nat n ≤ b ∨ b + Z.of_nat (length l) ≤ a → dma_bytes a n (write_bytes b l m) = dma_bytes a n m.
Proof.
  intros H. apply map_ext_in. intros k Hk%in_seq. unfold write_bytes. by rewrite decide_False by lia.
Qed.

Lemma dma_bytes_ext a n m m' : (∀ x, a ≤ x < a + Z.of_nat n → m' x = m x) → dma_bytes a n m' = dma_bytes a n m.
Proof. intros H. apply map_ext_in. intros k Hk%in_seq. apply H. lia. Qed.

(** Partial correctness of a loop that returned. *)
Lemma for_range_ok {T} (I : Z → T → Prop) (body : Z → M T unit) n : ∀ lo s s', for_range n lo body s = Ok (tt, s') → I lo s →
  (∀ i t t', lo ≤ i < lo + Z.of_nat n → I i t → body i t = Ok (tt, t') → I (i + 1) t') → I (lo + Z.of_nat n) s'.
Proof.
  induction n as [|n IH]; intros lo s s' E H Hb; cbn [for_range] in E.
  - injection E as <-. by rewrite Z.add_0_r.
  - apply bind_ok in E as ([] & s1 & E1 & E). replace (lo + Z.of_nat (S n)) with (lo + 1 + Z.of_nat n) by lia.
    apply (IH (lo + 1) s1 s' E); [apply (Hb lo s s1); [lia|done|done]|]. intros i t t' Hi. apply Hb. lia.
Qed.

(** ** Receiving, with the card running *)

Section receive.
Context {A : Type} `{!Dma A} (reset_polls : nat).
Local Notation S := (card A).

(** Where the driver is in an iteration of [e1000_poll]. *)
Inductive phase := Idle | Taken | Cleared.

(** The frames the card stored and those handed to [ethernet_receive], in order. *)
Record rx_sys := mkRxSys { rs_card : S; rs_phase : phase; arrived : list (list Z); delivered : list (list Z) }.

(** The receive side is as it was, and the buffers too. *)
Definition rx_same (s s' : S) : Prop :=
  (∀ r, r ∈ [E1000_RCTL; E1000_RDBAL; E1000_RDBAH; E1000_RDLEN; E1000_RDH; E1000_RDT] → regs s' r = regs s r) ∧
  rx_base s' = rx_base s ∧ rx_descs s' = rx_descs s ∧ rx_buffers s' = rx_buffers s ∧ rx_tail s' = rx_tail s ∧
  dma_xlate (nm_alloc s') (rx_base s) = dma_xlate (nm_alloc s) (rx_base s) ∧
  (∀ b k, b ∈ rx_buffers s → 0 ≤ k < RX_BUFFER_SIZE → dma_xlate (nm_alloc s') (b + k) = dma_xlate (nm_alloc s) (b + k)) ∧
  ∀ d x, d ∈ rx_descs s → rx_addr d ≤ x < rx_addr d + RX_BUFFER_SIZE → cmem s' x = cmem s x.

Inductive rx_step : rx_sys → rx_sys → Prop :=
| rx_arrives s ph arr del f s' : card_store f s = Some s' → Z.of_nat (length f) ≤ RX_BUFFER_SIZE →
    rx_step (mkRxSys s ph arr del) (mkRxSys s' ph (arr ++ [f]) del)
| rx_takes s arr del f s' : poll_take s = Ok (Some f, s') → rx_step (mkRxSys s Idle arr del) (mkRxSys s' Taken arr (del ++ [f]))
| rx_clears s arr del s' : poll_clear s = Ok (tt, s') → rx_step (mkRxSys s Taken arr del) (mkRxSys s' Cleared arr del)
| rx_advances s arr del s' : poll_advance reset_polls s = Ok (tt, s') → rx_step (mkRxSys s Cleared arr del) (mkRxSys s' Idle arr del)
| rx_others s ph arr del s' : rx_same s s' → rx_step (mkRxSys s ph arr del) (mkRxSys s' ph arr del).

(** The buffers: physically contiguous, and apart from each other. *)
Record rx_memory (s : S) : Prop := {
  rm_descs : length (rx_descs s) = 64%nat;
  rm_bufs : length (rx_buffers s) = 64%nat;
  rm_contiguous i d b k : rx_descs s !! i = Some d → rx_buffers s !! i = Some b → 0 ≤ k < RX_BUFFER_SIZE →
    dma_xlate (nm_alloc s) (b + k) = rx_addr d + k;
  rm_disjoint i j d d' : i ≠ j → rx_descs s !! i = Some d → rx_descs s !! j = Some d' →
    rx_addr d + RX_BUFFER_SIZE ≤ rx_addr d' ∨ rx_addr d' + RX_BUFFER_SIZE ≤ rx_addr d
}.

(** Slot [k] places behind [t]. *)
Definition slot (t : Z) (k : nat) : nat := Z.to_nat ((t + Z.of_nat k) mod 64).

(** The frame [f] is in the descriptor [d]. *)
Definition carries (m : Z → Z) (d : rx_desc) (f : list Z) : Prop :=
  rx_length d = Z.of_nat (length f) ∧ Z.of_nat (length f) ≤ RX_BUFFER_SIZE ∧ dma_bytes (rx_addr d) (length f) m = f.

Definition stored (d : rx_desc) : bool := truthy (Z.land (rx_status d) STAT_DD).

(** The frames [F] stored and not yet given back to the card. *)
Record rx_inv (s : S) (F : list (list Z)) (cleared : bool) : Prop := {
  ri_mem : rx_memory s;
  ri_len : (length F ≤ 63)%nat;
  ri_tail : 0 ≤ rx_tail s < 64;
  ri_head : regs s E1000_RDH = (rx_tail s + Z.of_nat (length F)) mod 64;
  ri_rdt : regs s E1000_RDT = (rx_tail s + 63) mod 64;
  ri_rdlen : regs s E1000_RDLEN = 1024;
  ri_on : Z.testbit (regs s E1000_RCTL) 1 = true;
  ri_base : base_of E1000_RDBAL E1000_RDBAH s = dma_xlate (nm_alloc s) (rx_base s);
  ri_full k f : F !! k = Some f → ∃ d, rx_descs s !! slot (rx_tail s) k = Some d ∧ carries (cmem s) d f ∧
    stored d = negb (cleared && (k =? 0)%nat);
  ri_empty k d : (length F ≤ k < 64)%nat → rx_descs s !! slot (rx_tail s) k = Some d → stored d = false
}.

(** What has arrived is what was delivered and what is in the ring. *)
Definition rx_good (x : rx_sys) : Prop :=
  ∃ F, rx_inv (rs_card x) F (match rs_phase x with Cleared => true | _ => false end) ∧
    match rs_phase x with
    | Idle => arrived x = delivered x ++ F
    | _ => ∃ f F', F = f :: F' ∧ arrived x = delivered x ++ F'
    end.

Lemma slot_inj t k k' : (k < 64)%nat → (k' < 64)%nat → slot t k = slot t k' → k = k'.
Proof. unfold slot. intros H H' E. assert ((t + Z.of_nat k) mod 64 = (t + Z.of_nat k') mod 64) by dlia. dlia. Qed.

Lemma slot_lt t k : (slot t k < 64)%nat.
Proof. unfold slot. dlia. Qed.

Lemma slot_next t k : 0 ≤ t < 64 → slot ((t + 1) mod 64) k = slot t (Datatypes.S k).
Proof. intros H. unfold slot. f_equal. dlia. Qed.

Lemma slot_0 t : 0 ≤ t < 64 → slot t 0 = Z.to_nat t.
Proof. intros H. unfold slot. f_equal. dlia. Qed.

Lemma carries_other m d f b g : carries m d f → rx_addr d + RX_BUFFER_SIZE ≤ b ∨ b + RX_BUFFER_SIZE ≤ rx_addr d → Z.of_nat (length g) ≤ RX_BUFFER_SIZE →
  carries (write_bytes b g m) d f.
Proof. intros (H1 & H2 & H3) Hd Hg. split; [done|]. split; [done|]. rewrite read_other; [done|lia]. Qed.

Lemma store_ok f s s' F c : rx_inv s F c → (c = true → F ≠ []) → card_store f s = Some s' → Z.of_nat (length f) ≤ RX_BUFFER_SIZE →
  rx_inv s' (F ++ [f]) c.
Proof.
  intros [Mm L T Hh Hr Hl Ho Hb Hf He] Hc Hs Hlen. unfold card_store in Hs. rewrite Ho, Hb, Z.eqb_refl, andb_true_r, Hl, Hh, Hr in Hs.
  destruct (Z.eqb_spec ((rx_tail s + Z.of_nat (length F)) mod 64) ((rx_tail s + 63) mod 64)) as [|Hne]; [done|].
  assert (length F < 63)%nat as L' by (destruct (decide (length F = 63%nat)) as [E|]; [rewrite E in Hne; done|lia]). cbn [negb andb] in Hs.
  change (Z.to_nat ((rx_tail s + Z.of_nat (length F)) mod 64)) with (slot (rx_tail s) (length F)) in Hs.
  destruct (rx_descs s !! slot (rx_tail s) (length F)) as [d|] eqn:Ed; [|done]. cbn [mbind option_bind] in Hs. injection Hs as <-.
  set (d' := mkRx (rx_addr d) (Z.of_nat (length f)) (rx_checksum d) 3 0 (rx_special d)).
  pose proof (slot_lt (rx_tail s) (length F)) as Hsl.
  assert (∀ i x, <[slot (rx_tail s) (length F) := d']> (rx_descs s) !! i = Some x → ∃ y, rx_descs s !! i = Some y ∧ rx_addr x = rx_addr y) as Haddr.
  { intros i x Hx. apply list_lookup_insert_Some in Hx as [(<- & <- & _)|(_ & Hx)]; [by exists d|by exists x]. }
  destruct Mm as [M1 M2 M3 M4].
  split; cbn [regs rx_tail rx_descs rx_buffers rx_base nm_alloc cmem set_regs set_cmem set_rx_descs set_rx_ring].
  - split; cbn [regs rx_tail rx_descs rx_buffers rx_base nm_alloc cmem set_regs set_cmem set_rx_descs set_rx_ring].
    + by rewrite length_insert.
    + done.
    + intros i x b k Hx Hbk Hk. destruct (Haddr _ _ Hx) as (y & Hy & ->). by eapply M3.
    + intros i j x x' Hij Hx Hx'. destruct (Haddr _ _ Hx) as (y & Hy & ->). destruct (Haddr _ _ Hx') as (y' & Hy' & ->). by eapply M4.
  - rewrite length_app. simpl. lia.
  - done.
  - unfold upd. rewrite Z.eqb_refl. change (1024 / 16) with 64. rewrite length_app. cbn [length]. dlia.
  - done.
  - done.
  - done.
  - done.
  - intros k g Hk. destruct (decide (k = length F)) as [->|Hkn].
    + rewrite list_lookup_middle in Hk by done. injection Hk as <-. exists d'. split; [apply list_lookup_insert_eq; lia|].
      split; [split; [done|split; [done|apply read_written]]|]. destruct c; [|done]. destruct F; [by destruct Hc|done].
    + assert (k < length F)%nat by (apply lookup_lt_Some in Hk; rewrite length_app in Hk; simpl in Hk; lia). rewrite lookup_app_l in Hk by done.
      destruct (Hf k g Hk) as (x & Hx & Cx & Dx). exists x. split; [|split; [|done]].
      * rewrite list_lookup_insert_ne; [done|]. intros E. apply slot_inj in E; lia.
      * apply carries_other; [done| |done]. apply (M4 (slot (rx_tail s) k) (slot (rx_tail s) (length F))); [|done|done]. intros E. apply slot_inj in E; lia.
  - intros k x Hk Hx. rewrite length_app in Hk. cbn [length] in Hk. rewrite list_lookup_insert_ne in Hx; [apply (He k x); [lia|done]|]. intros E. apply slot_inj in E; lia.
Qed.

(** The loop's test and the bytes it hands over. *)
Lemma poll_take_ok s F : rx_inv s F false → match F with
  | [] => poll_take s = Ok (None, s)
  | f :: _ => poll_take s = Ok (Some f, s)
  end.
Proof.
  intros [Mm L T Hh Hr Hl Ho Hb Hf He]. unfold poll_take. rewrite (bind_of_ok _ _ _ s s) by done. pose proof (slot_0 _ T) as E0. destruct Mm as [M1 M2 M3 M4]. destruct F as [|f F].
  - destruct (rx_descs s !! Z.to_nat (rx_tail s)) as [d|] eqn:Ed; [|apply lookup_ge_None in Ed; lia].
    rewrite (bind_of_ok _ _ _ d s) by done. pose proof (He 0%nat d ltac:(simpl; lia)) as Hd. rewrite E0 in Hd. unfold stored in Hd. by rewrite (Hd Ed).
  - destruct (Hf 0%nat f eq_refl) as (d & Hd & (C1 & C2 & C3) & D). rewrite E0 in Hd. rewrite Hd, (bind_of_ok _ _ _ d s) by done. unfold stored in D. rewrite D. cbn [negb andb].
    destruct (rx_buffers s !! Z.to_nat (rx_tail s)) as [b|] eqn:Eb; [|apply lookup_ge_None in Eb; lia]. rewrite (bind_of_ok _ _ _ b s) by done.
    unfold mret, M_ret. do 3 f_equal. rewrite C1, Nat2Z.id. etransitivity; [|exact C3]. apply map_ext_in. intros k Hk%in_seq. f_equal.
    apply (M3 (Z.to_nat (rx_tail s)) d b); [done|done|lia].
Qed.

Lemma clear_ok s f F : rx_inv s (f :: F) false → ∃ s', poll_clear s = Ok (tt, s') ∧ rx_inv s' (f :: F) true.
Proof.
  intros [Mm L T Hh Hr Hl Ho Hb Hf He]. destruct (Hf 0%nat f eq_refl) as (d & Hd & C & D). pose proof (slot_0 _ T) as E0. rewrite E0 in Hd.
  exists (set_rx_descs (<[Z.to_nat (rx_tail s) := set_rx_status 0 d]> (rx_descs s)) s). split.
  { unfold poll_clear, wr_rx. rewrite (bind_of_ok _ _ _ _ _ eq_refl), (bind_of_ok _ _ _ s s) by done. by rewrite Hd, (bind_of_ok _ _ _ d s) by done. }
  assert (∀ i x, <[Z.to_nat (rx_tail s) := set_rx_status 0 d]> (rx_descs s) !! i = Some x → ∃ y, rx_descs s !! i = Some y ∧ rx_addr x = rx_addr y) as Haddr.
  { intros i x Hx. apply list_lookup_insert_Some in Hx as [(<- & <- & _)|(_ & Hx)]; [by exists d|by exists x]. }
  destruct Mm as [M1 M2 M3 M4]. split; cbn [regs rx_tail rx_descs rx_buffers rx_base nm_alloc cmem set_rx_descs set_rx_ring]; try done.
  - split; cbn [regs rx_tail rx_descs rx_buffers rx_base nm_alloc cmem set_rx_descs set_rx_ring].
    + by rewrite length_insert.
    + done.
    + intros i x b k Hx Hbk Hk. destruct (Haddr _ _ Hx) as (y & Hy & ->). by eapply M3.
    + intros i j x x' Hij Hx Hx'. destruct (Haddr _ _ Hx) as (y & Hy & ->). destruct (Haddr _ _ Hx') as (y' & Hy' & ->). by eapply M4.
  - intros k g Hk. destruct k as [|k].
    + injection Hk as <-. rewrite E0. exists (set_rx_status 0 d). split; [apply list_lookup_insert_eq; apply lookup_lt_Some in Hd; lia|]. by split.
    + destruct (Hf (Datatypes.S k) g Hk) as (x & Hx & Cx & Dx). exists x. split; [|by split]. rewrite list_lookup_insert_ne; [done|]. rewrite <- E0. intros E.
      apply slot_inj in E; [lia|lia|]. apply lookup_lt_Some in Hk. lia.
  - intros k x Hk Hx. rewrite list_lookup_insert_ne in Hx; [by apply (He k x)|]. rewrite <- E0. intros E. apply slot_inj in E; simpl in *; lia.
Qed.

Lemma advance_ok s f F : rx_inv s (f :: F) true → ∃ s', poll_advance reset_polls s = Ok (tt, s') ∧ rx_inv s' F false.
Proof.
  intros [Mm L T Hh Hr Hl Ho Hb Hf He]. destruct (Hf 0%nat f eq_refl) as (d0 & Hd0 & _ & D0). cbn in D0. cbn [length] in *. set (t := rx_tail s) in *.
  exists (set_rx_tail ((t + 1) mod 64) (set_regs (upd E1000_RDT t (regs s)) s)). split.
  { unfold poll_advance. rewrite (bind_of_ok _ _ _ t s) by done. rewrite (bind_of_ok _ _ _ tt (set_regs (upd E1000_RDT t (regs s)) s)).
    - unfold modify. rewrite Z.rem_mod_nonneg by (unfold RX_DESC_COUNT; lia). done.
    - unfold e1000_write. cbn [Z.eqb andb]. by rewrite u32_small by lia. }
  split; cbn [regs rx_tail rx_descs rx_buffers rx_base nm_alloc cmem set_rx_tail set_regs]; try done.
  - destruct Mm. by split.
  - lia.
  - dlia.
  - change (upd E1000_RDT t (regs s) E1000_RDH) with (regs s E1000_RDH). rewrite Hh. dlia.
  - change (upd E1000_RDT t (regs s) E1000_RDT) with t. dlia.
  - intros k g Hk. rewrite slot_next by done. destruct (Hf (Datatypes.S k) g Hk) as (x & Hx & Cx & Dx). exists x. by split.
  - intros k x Hk Hx. rewrite slot_next in Hx by done. destruct (decide (k = 63%nat)) as [->|].
    + assert (slot t 64 = slot t 0) as E by (unfold slot; f_equal; dlia). rewrite E, Hd0 in Hx. by injection Hx as <-.
    + apply (He (Datatypes.S k) x); [lia|done].
Qed.

Lemma same_ok s s' F c : rx_inv s F c → rx_same s s' → rx_inv s' F c.
Proof.
  intros [[M1 M2 M3 M4] L T Hh Hr Hl Ho Hb Hf He] (R & B & D & U & Tl & Xb & Xk & Cm).
  assert (∀ r, r ∈ [E1000_RCTL; E1000_RDBAL; E1000_RDBAH; E1000_RDLEN; E1000_RDH; E1000_RDT] → regs s' r = regs s r) as R' by exact R.
  split; rewrite ?Tl, ?D, ?U, ?B, ?Xb; try (rewrite R by (apply (bool_decide_unpack _); vm_compute; exact I)); try done.
  - split; rewrite ?D, ?U; try done. intros i d b k Hd Hbk Hk. rewrite Xk; [by eapply M3| |done]. by apply list_elem_of_lookup_2 in Hbk.
  - unfold base_of in *. rewrite !R by (apply (bool_decide_unpack _); vm_compute; exact I). done.
  - intros k f Hk. destruct (Hf k f Hk) as (d & Hd & (C1 & C2 & C3) & Dd). exists d. split; [done|]. split; [|done]. split; [done|]. split; [done|].
    rewrite (dma_bytes_ext _ _ (cmem s)); [done|]. intros x Hx. apply (Cm d); [by apply list_elem_of_lookup_2 in Hd|lia].
Qed.

Lemma step_good x y : rx_step x y → rx_good x → rx_good y.
Proof.
  intros Hs (F & Hi & Ha). destruct Hs as [s ph arr del f s' Hc Hl|s arr del f s' Hc|s arr del s' Hc|s arr del s' Hc|s ph arr del s' Hc]; cbn [rs_card rs_phase arrived delivered] in *.
  - exists (F ++ [f]). split; [apply (store_ok f s); [done| |done|done]|].
    + destruct ph; [done|done|]. by destruct Ha as (g & F' & -> & _).
    + destruct ph; [by rewrite Ha, app_assoc|..]; destruct Ha as (g & F' & -> & Ha); exists g, (F' ++ [f]); (split; [done|]); by rewrite Ha, app_assoc.
  - pose proof (poll_take_ok s F Hi) as Ht. destruct F as [|g F]; [congruence|]. rewrite Ht in Hc. injection Hc as <- <-. exists (g :: F). split; [done|].
    exists g, F. split; [done|]. cbn [arrived delivered]. rewrite Ha. by rewrite <- app_assoc.
  - destruct Ha as (g & F' & -> & Ha). destruct (clear_ok s g F' Hi) as (s1 & E & Hi'). rewrite E in Hc. injection Hc as <-. exists (g :: F'). split; [done|]. by exists g, F'.
  - destruct Ha as (g & F' & -> & Ha). destruct (advance_ok s g F' Hi) as (s1 & E & Hi'). rewrite E in Hc. injection Hc as <-. by exists F'.
  - exists F. split; [by apply (same_ok s)|done].
Qed.

Lemma steps_good x y : rtc rx_step x y → rx_good x → rx_good y.
Proof. induction 1; [done|]. eauto using step_good. Qed.

(** A whole [e1000_poll]: it ends, and everything in the ring is delivered. *)
Lemma poll_ok (receive : list Z → M S unit) : (∀ f s, ∃ s', receive f s = Ok (tt, s') ∧ rx_same s s') →
  ∀ F s arr del, rx_inv s F false → ∃ s', e1000_poll reset_polls (length F) receive s = Ok (tt, s') ∧ rx_inv s' [] false ∧
    rtc rx_step (mkRxSys s Idle arr del) (mkRxSys s' Idle arr (del ++ F)).
Proof.
  intros Hr F. induction F as [|f F IH]; intros s arr del Hi; pose proof (poll_take_ok s _ Hi) as Ht.
  - exists s. rewrite app_nil_r. split; [|by split; [|apply rtc_refl]]. cbn [e1000_poll length]. by rewrite (bind_of_ok _ _ _ _ _ Ht).
  - destruct (Hr f s) as (s1 & E1 & Hs). pose proof (same_ok _ _ _ _ Hi Hs) as Hi1. destruct (clear_ok s1 f F Hi1) as (s2 & E2 & Hi2). destruct (advance_ok s2 f F Hi2) as (s3 & E3 & Hi3).
    destruct (IH s3 arr (del ++ [f]) Hi3) as (s' & E & Hi' & Hst). exists s'. split; [|split; [done|]].
    + cbn [e1000_poll length]. rewrite (bind_of_ok _ _ _ _ _ Ht), (bind_of_ok _ _ _ _ _ E1), (bind_of_ok _ _ _ _ _ E2), (bind_of_ok _ _ _ _ _ E3). done.
    + eapply rtc_l; [apply rx_takes; exact Ht|]. eapply rtc_l; [apply rx_others; exact Hs|]. eapply rtc_l; [apply rx_clears; exact E2|]. eapply rtc_l; [apply rx_advances; exact E3|].
      rewrite <- app_assoc in Hst. exact Hst.
Qed.

(** The card refuses a frame only when 63 are waiting. *)
Lemma store_accepts s F c f : rx_inv s F c → (length F < 63)%nat → is_Some (card_store f s).
Proof.
  intros [[M1 M2 M3 M4] L T Hh Hr Hl Ho Hb Hf He] H. unfold card_store. rewrite Ho, Hb, Z.eqb_refl, andb_true_r, Hh, Hr.
  destruct (Z.eqb_spec ((rx_tail s + Z.of_nat (length F)) mod 64) ((rx_tail s + 63) mod 64)) as [E|]; [exfalso; dlia|]. cbn [negb andb].
  destruct (rx_descs s !! Z.to_nat ((rx_tail s + Z.of_nat (length F)) mod 64)) as [d|] eqn:Ed; [by eexists|]. apply lookup_ge_None in Ed. dlia.
Qed.
End receive.

(** ** Sending, with the card running *)

Section transmit.
Context {A : Type} `{!Dma A} (reset_polls : nat).
Local Notation S := (card A).

(** The frames queued, with their physical addresses, those on the wire, and
    those the driver was asked to send, in order. *)
Record tx_sys := mkTxSys { ts_card : S; queued : list (Z * list Z); sent : list (list Z); asked : list (list Z) }.

(** The transmit side is as it was, and so are the buffers of the queued frames. *)
Definition tx_same (s s' : S) (Q : list (Z * list Z)) : Prop :=
  (∀ r, r ∈ [E1000_TCTL; E1000_TDBAL; E1000_TDBAH; E1000_TDLEN; E1000_TDH; E1000_TDT] → regs s' r = regs s r) ∧
  tx_base s' = tx_base s ∧ tx_descs s' = tx_descs s ∧ tx_tail s' = tx_tail s ∧
  dma_xlate (nm_alloc s') (tx_base s) = dma_xlate (nm_alloc s) (tx_base s) ∧
  ∀ p f x, (p, f) ∈ Q → p ≤ x < p + Z.of_nat (length f) → cmem s' x = cmem s x.

(** [f] is at [data], in one piece of physical memory. *)
Definition frame_at (s : S) (data : Z) (f : list Z) : Prop :=
  Z.of_nat (length f) < 65536 ∧ bytes_at data (length f) s = f ∧
  ∀ k, 0 ≤ k < Z.of_nat (length f) → dma_xlate (nm_alloc s) (data + k) = dma_xlate (nm_alloc s) data + k.

Inductive tx_step : tx_sys → tx_sys → Prop :=
| tx_sends s Q out ask data f s' : (length Q < 7)%nat → frame_at s data f → e1000_send reset_polls 0 data (Z.of_nat (length f)) s = Ok (tt, s') →
    tx_step (mkTxSys s Q out ask) (mkTxSys s' (Q ++ [(dma_xlate (nm_alloc s) data, f)]) out (ask ++ [f]))
| tx_goes s Q out ask f s' : card_send s = Some (f, s') → tx_step (mkTxSys s Q out ask) (mkTxSys s' (drop 1 Q) (out ++ [f]) ask)
| tx_others s Q out ask s' : tx_same s s' Q → tx_step (mkTxSys s Q out ask) (mkTxSys s' Q out ask).

Definition tslot (h : Z) (k : nat) : nat := Z.to_nat ((h + Z.of_nat k) mod 8).

Lemma tslot_inj t k k' : (k < 8)%nat → (k' < 8)%nat → tslot t k = tslot t k' → k = k'.
Proof. unfold tslot. intros H H' E. assert ((t + Z.of_nat k) mod 8 = (t + Z.of_nat k') mod 8) by dlia. dlia. Qed.

Lemma tslot_lt t k : (tslot t k < 8)%nat.
Proof. unfold tslot. dlia. Qed.

Definition carried (m : Z → Z) (d : tx_desc) (p : Z) (f : list Z) : Prop :=
  tx_addr d = p ∧ tx_length d = Z.of_nat (length f) ∧ tx_cmd d = 9 ∧ tx_status d = 0 ∧ dma_bytes p (length f) m = f.

Definition free (d : tx_desc) : bool := truthy (Z.land (tx_status d) STAT_DD).

Record tx_inv (s : S) (Q : list (Z * list Z)) : Prop := {
  ti_descs : length (tx_descs s) = 8%nat;
  ti_len : (length Q ≤ 7)%nat;
  ti_head : 0 ≤ regs s E1000_TDH < 8;
  ti_tail : tx_tail s = (regs s E1000_TDH + Z.of_nat (length Q)) mod 8;
  ti_tdt : regs s E1000_TDT = tx_tail s;
  ti_tdlen : regs s E1000_TDLEN = 128;
  ti_on : Z.testbit (regs s E1000_TCTL) 1 = true;
  ti_base : base_of E1000_TDBAL E1000_TDBAH s = dma_xlate (nm_alloc s) (tx_base s);
  ti_queued k p f : Q !! k = Some (p, f) → ∃ d, tx_descs s !! tslot (regs s E1000_TDH) k = Some d ∧ carried (cmem s) d p f;
  ti_free k d : (length Q ≤ k < 8)%nat → tx_descs s !! tslot (regs s E1000_TDH) k = Some d → free d = true
}.

Definition tx_good (x : tx_sys) : Prop := tx_inv (ts_card x) (queued x) ∧ asked x = sent x ++ (snd <$> queued x).

(** The descriptor the driver fills, and the state it leaves. *)
Definition filled (s : S) (data : Z) (f : list Z) (d : tx_desc) : S :=
  set_regs (upd E1000_TDT ((tx_tail s + 1) mod 8) (regs s)) (set_tx_tail ((tx_tail s + 1) mod 8)
    (set_tx_descs (<[Z.to_nat (tx_tail s) := mkTx (dma_xlate (nm_alloc s) data) (Z.of_nat (length f)) (tx_cso d) 9 0 (tx_css d) (tx_special d)]> (tx_descs s)) s)).

Lemma send_ok s Q data f : tx_inv s Q → frame_at s data f →
  ∃ d, tx_descs s !! tslot (regs s E1000_TDH) (length Q) = Some d ∧ e1000_send reset_polls 0 data (Z.of_nat (length f)) s = Ok (tt, filled s data f d).
Proof.
  intros [D L Hh Ht Hd Hl Ho Hb Hq Hf] (F1 & _). pose proof (tslot_lt (regs s E1000_TDH) (length Q)) as Hlt.
  destruct (tx_descs s !! tslot (regs s E1000_TDH) (length Q)) as [d|] eqn:Ed; [|apply lookup_ge_None in Ed; lia]. exists d. split; [done|].
  pose proof (Hf (length Q) d ltac:(lia) Ed) as Hfree. assert (tslot (regs s E1000_TDH) (length Q) = Z.to_nat (tx_tail s)) as Es by (unfold tslot; by rewrite Ht). rewrite Es in Ed.
  assert (0 ≤ tx_tail s < 8) as Tr by (rewrite Ht; dlia).
  unfold e1000_send. rewrite (bind_of_ok _ _ _ tt s).
  2: { cbn [wait_done]. rewrite (bind_of_ok _ _ _ s s) by done. rewrite Ed, (bind_of_ok _ _ _ d s) by done. unfold free in Hfree. by rewrite Hfree. }
  unfold send_desc. rewrite (bind_of_ok _ _ _ (dma_xlate (nm_alloc s) data) s) by done. rewrite (bind_of_ok _ _ _ (tx_tail s) s) by done.
  unfold wr_tx. erewrite bind_of_ok; [|rewrite (bind_of_ok _ _ _ s s) by done; rewrite Ed; rewrite (bind_of_ok _ _ _ d s) by done; reflexivity].
  rewrite (bind_of_ok _ _ _ _ _ eq_refl). unfold e1000_write. cbn [Z.eqb andb]. rewrite Z.rem_mod_nonneg by (unfold TX_DESC_COUNT; lia). unfold TX_DESC_COUNT.
  rewrite u16_small, u32_small by dlia. done.
Qed.

Lemma filled_inv s Q data f d : tx_inv s Q → frame_at s data f → (length Q < 7)%nat → tx_descs s !! tslot (regs s E1000_TDH) (length Q) = Some d →
  tx_inv (filled s data f d) (Q ++ [(dma_xlate (nm_alloc s) data, f)]).
Proof.
  intros [D L Hh Ht Hd Hl Ho Hb Hq Hf] (F1 & F2 & F3) H7 Ed. assert (tslot (regs s E1000_TDH) (length Q) = Z.to_nat (tx_tail s)) as Es by (unfold tslot; by rewrite Ht).
  unfold filled. rewrite <- Es. set (d' := mkTx _ _ _ _ _ _ _).
  split; cbn [regs tx_tail tx_descs tx_base nm_alloc cmem set_regs set_tx_tail set_tx_descs set_tx_ring]; try done.
  - by rewrite length_insert.
  - rewrite length_app. simpl. lia.
  - rewrite length_app. cbn [length]. change (upd E1000_TDT ((tx_tail s + 1) mod 8) (regs s) E1000_TDH) with (regs s E1000_TDH). rewrite Ht. dlia.
  - change (upd E1000_TDT ((tx_tail s + 1) mod 8) (regs s) E1000_TDH) with (regs s E1000_TDH). intros k p g Hk. destruct (decide (k = length Q)) as [->|Hkn].
    + rewrite list_lookup_middle in Hk by done. injection Hk as <- <-. exists d'. split; [apply list_lookup_insert_eq; apply lookup_lt_Some in Ed; lia|].
      split; [done|]. split; [done|]. split; [done|]. split; [done|]. etransitivity; [|exact F2]. symmetry. apply map_ext_in. intros k Hk%in_seq. f_equal. apply F3. lia.
    + assert (k < length Q)%nat by (apply lookup_lt_Some in Hk; rewrite length_app in Hk; simpl in Hk; lia). rewrite lookup_app_l in Hk by done.
      destruct (Hq k p g Hk) as (x & Hx & Cx). exists x. split; [|done]. rewrite list_lookup_insert_ne; [done|]. intros E. apply tslot_inj in E; lia.
  - change (upd E1000_TDT ((tx_tail s + 1) mod 8) (regs s) E1000_TDH) with (regs s E1000_TDH). intros k x Hk Hx. rewrite length_app in Hk. cbn [length] in Hk.
    rewrite list_lookup_insert_ne in Hx; [apply (Hf k x); [lia|done]|]. intros E. apply tslot_inj in E; lia.
Qed.

Lemma goes_ok s Q : tx_inv s Q → match Q with
  | [] => card_send s = None
  | (_, f) :: Q' => ∃ s', card_send s = Some (f, s') ∧ tx_inv s' Q'
  end.
Proof.
  intros [D L Hh Ht Hd Hl Ho Hb Hq Hf]. unfold card_send. rewrite Ho, Hb, Z.eqb_refl, andb_true_r, Hd, Ht, Hl. destruct Q as [|[p f] Q].
  - cbn [length]. rewrite Z.add_0_r, (Z.mod_small (regs s E1000_TDH)), Z.eqb_refl by lia. done.
  - cbn [length] in *. destruct (Z.eqb_spec (regs s E1000_TDH) ((regs s E1000_TDH + Z.of_nat (Datatypes.S (length Q))) mod 8)) as [E|_]; [exfalso; dlia|]. cbn [negb andb].
    destruct (Hq 0%nat p f eq_refl) as (d & Ed & C1 & C2 & C3 & C4 & C5). assert (tslot (regs s E1000_TDH) 0 = Z.to_nat (regs s E1000_TDH)) as E0 by (unfold tslot; f_equal; dlia).
    rewrite E0 in Ed. rewrite Ed. cbn [mbind option_bind]. rewrite C1, C2, Nat2Z.id, C5, C3, C4. eexists. split; [done|].
    change (128 / 16) with 8. set (h := regs s E1000_TDH) in *. change (Z.testbit 9 3) with true. cbn iota.
    assert (∀ k, tslot ((h + 1) mod 8) k = tslot h (Datatypes.S k)) as En by (intros k; unfold tslot; f_equal; dlia).
    split; cbn [regs tx_tail tx_descs tx_base nm_alloc cmem set_regs set_tx_descs set_tx_ring]; try done;
      change (upd E1000_TDH ((h + 1) mod 8) (regs s) E1000_TDH) with ((h + 1) mod 8).
    + by rewrite length_insert.
    + lia.
    + dlia.
    + rewrite Ht. dlia.
    + intros k q g Hk. rewrite En. destruct (Hq (Datatypes.S k) q g Hk) as (x & Hx & Cx). exists x. split; [|done]. rewrite list_lookup_insert_ne; [done|]. rewrite <- E0. intros E.
      apply lookup_lt_Some in Hk. apply tslot_inj in E; lia.
    + intros k x Hk Hx. rewrite En in Hx. destruct (decide (k = 7%nat)) as [->|].
      * assert (tslot h 8 = Z.to_nat h) as E by (unfold tslot; f_equal; dlia). rewrite E, list_lookup_insert_eq in Hx by (apply lookup_lt_Some in Ed; lia). injection Hx as <-. done.
      * rewrite list_lookup_insert_ne in Hx; [apply (Hf (Datatypes.S k) x); [lia|done]|]. rewrite <- E0. intros E. apply tslot_inj in E; lia.
Qed.

Lemma tx_same_ok s s' Q : tx_inv s Q → tx_same s s' Q → tx_inv s' Q.
Proof.
  intros [D L Hh Ht Hd Hl Ho Hb Hq Hf] (R & B & Ds & Tl & Xb & Cm).
  split; rewrite ?Tl, ?Ds, ?B, ?Xb; try (rewrite !R by (apply (bool_decide_unpack _); vm_compute; exact I)); try done.
  - unfold base_of in *. rewrite !R by (apply (bool_decide_unpack _); vm_compute; exact I). done.
  - intros k p f Hk. destruct (Hq k p f Hk) as (d & Hx & C1 & C2 & C3 & C4 & C5). exists d. split; [done|]. split; [done|]. split; [done|]. split; [done|]. split; [done|].
    rewrite (dma_bytes_ext _ _ (cmem s)); [done|]. intros x Hxx. apply (Cm p f); [by apply list_elem_of_lookup_2 in Hk|done].
Qed.

Lemma tx_step_good x y : tx_step x y → tx_good x → tx_good y.
Proof.
  intros Hs [Hi Ha]. destruct Hs as [s Q out ask data f s' H7 Hf Hc|s Q out ask f s' Hc|s Q out ask s' Hc]; cbn [ts_card queued sent asked] in *; unfold tx_good; cbn [ts_card queued sent asked].
  - destruct (send_ok s Q data f Hi Hf) as (d & Ed & E). rewrite E in Hc. injection Hc as <-. split; [by apply filled_inv|]. rewrite fmap_app, app_assoc, <- Ha. done.
  - pose proof (goes_ok s Q Hi) as Hg. destruct Q as [|[p g] Q]; [congruence|]. destruct Hg as (s1 & E & Hi'). rewrite E in Hc. injection Hc as <- <-. split; [done|].
    rewrite Ha. cbn [fmap list_fmap drop snd]. by rewrite <- app_assoc.
  - split; [by apply (tx_same_ok s)|done].
Qed.

Lemma tx_steps_good x y : rtc tx_step x y → tx_good x → tx_good y.
Proof. induction 1; [done|]. eauto using tx_step_good. Qed.

(** An eighth frame queued makes the ring look empty to the card and full to the driver. *)
Lemma eighth_frame s Q data f : tx_inv s Q → length Q = 7%nat → frame_at s data f →
  ∃ s', e1000_send reset_polls 0 data (Z.of_nat (length f)) s = Ok (tt, s') ∧ card_send s' = None ∧ ∀ fuel data' len, e1000_send reset_polls fuel data' len s' = NoFuel.
Proof.
  intros Hi H7 Hf. destruct (send_ok s Q data f Hi Hf) as (d & Ed & E). exists (filled s data f d). split; [done|]. destruct Hi as [D L Hh Ht Hd Hl Ho Hb Hq Hfr].
  assert ((tx_tail s + 1) mod 8 = regs s E1000_TDH) as Ew by (rewrite Ht, H7; dlia). rewrite H7 in *. split.
  - unfold card_send, filled. cbn [regs set_regs]. change (upd E1000_TDT ((tx_tail s + 1) mod 8) (regs s) E1000_TDH) with (regs s E1000_TDH).
    change (upd E1000_TDT ((tx_tail s + 1) mod 8) (regs s) E1000_TDT) with ((tx_tail s + 1) mod 8). rewrite Ew, Z.eqb_refl. cbn [negb]. by rewrite andb_false_r.
  - intros fuel data' len. destruct Q as [|[p g] Q]; [done|]. destruct (Hq 0%nat p g eq_refl) as (x & Hx & C). assert (tslot (regs s E1000_TDH) 0 = Z.to_nat (regs s E1000_TDH)) as E0 by (unfold tslot; f_equal; dlia).
    assert (wait_done fuel (filled s data f d) = NoFuel) as Hw; [|unfold e1000_send, mbind, M_bind; by rewrite Hw].
    assert (tx_descs (filled s data f d) !! Z.to_nat (tx_tail (filled s data f d)) = Some x) as Hx'.
    { unfold filled. cbn [tx_descs tx_tail set_regs set_tx_tail set_tx_descs set_tx_ring]. rewrite Ew, <- E0, list_lookup_insert_ne; [done|].
      replace (Z.to_nat (tx_tail s)) with (tslot (regs s E1000_TDH) 7) by (unfold tslot; by rewrite Ht). intros E'. apply tslot_inj in E'; lia. }
    destruct C as (_ & _ & _ & C4 & _). induction fuel as [|fuel IH]; cbn [wait_done]; rewrite (bind_of_ok _ _ _ (filled s data f d) (filled s data f d)) by done;
      rewrite Hx', (bind_of_ok _ _ _ x (filled s data f d)) by done; rewrite C4; [done|exact IH].
Qed.
End transmit.

(** ** Setting the card up *)

Section init.
Context {A : Type} {DA : Dma A} {DL : DmaLaws A} (reset_polls : nat).
Local Notation S := (card A).

Lemma wait_reset_ok : ∀ m (s : S), Z.land (regs s E1000_CTRL) E1000_CTRL_RST = 0 → (0 < m)%nat →
  wait_reset m s = if decide (resetting s < m)%nat then Ok ((m - resetting s)%nat, set_resetting 0 s) else Ok (O, set_resetting (resetting s - m) s).
Proof.
  intros m. induction m as [|m IH]; intros s Hc Hm; [lia|]. cbn [wait_reset].
  destruct (resetting s) as [|n] eqn:En.
  - rewrite (bind_of_ok _ _ _ (regs s E1000_CTRL) s) by (unfold e1000_read; by rewrite Z.eqb_refl, En). rewrite Hc, decide_True by lia.
    change (truthy 0) with false. cbn iota. unfold mret, M_ret. do 2 f_equal. destruct s. cbn in En. by subst.
  - rewrite (bind_of_ok _ _ _ (Z.lor (regs s E1000_CTRL) E1000_CTRL_RST) (set_resetting n s)) by (unfold e1000_read; by rewrite Z.eqb_refl, En).
    assert (truthy (Z.land (Z.lor (regs s E1000_CTRL) E1000_CTRL_RST) E1000_CTRL_RST) = true) as ->.
    { rewrite Z.land_lor_distr_l, Hc. done. }
    destruct m as [|m].
    + rewrite decide_False by lia. unfold mret, M_ret. do 3 f_equal. lia.
    + rewrite IH by (done || lia). cbn [resetting set_resetting]. destruct (decide (n < Datatypes.S m)%nat); [rewrite decide_True by lia|rewrite decide_False by lia]; done.
Qed.

Definition rx_loop (i : Z) : M S unit :=
  b ← dma_alloc RX_BUFFER_SIZE;
  modify (λ s, set_rx_buffers (<[Z.to_nat i := b]> (rx_buffers s)) s) ;;
  phys ← phys_of b;
  wr_rx i (λ d, mkRx phys (rx_length d) (rx_checksum d) 0 (rx_errors d) (rx_special d)).

(** What the setup leaves alone. *)
Definition kept (R : Z → Z) (mac : list Z) (s : S) : Prop := regs s = R ∧ g_mac s = mac ∧ rx_tail s = 0 ∧ tx_tail s = 0.

Definition rx_blocks (bs : list Z) (L : list (Z * Z)) (s : S) : list (Z * Z) := ((λ b, (b, RX_BUFFER_SIZE)) <$> reverse bs) ++ (rx_base s, 1024) :: L.

Definition rx_filled (bs : list Z) (s : S) : Prop :=
  length (rx_buffers s) = 64%nat ∧ length (rx_descs s) = 64%nat ∧
  ∀ j b, bs !! j = Some b → rx_buffers s !! j = Some b ∧ ∃ d, rx_descs s !! j = Some d ∧ rx_addr d = dma_xlate (nm_alloc s) b ∧ stored d = false.

Lemma in_rx_blocks bs L s b : b ∈ bs → (b, RX_BUFFER_SIZE) ∈ rx_blocks bs L s.
Proof. intros H. unfold rx_blocks. apply elem_of_app. left. apply list_elem_of_fmap. exists b. split; [done|]. by apply elem_of_reverse. Qed.

Lemma rx_loop_ok R mac L i s bs : 0 ≤ i < 64 → Z.of_nat (length bs) = i → kept R mac s → rx_filled bs s → dma_blocks (nm_alloc s) (rx_blocks bs L s) →
  wp (rx_loop i) (λ _ s', ∃ b, kept R mac s' ∧ rx_filled (bs ++ [b]) s' ∧ dma_blocks (nm_alloc s') (rx_blocks (bs ++ [b]) L s') ∧ rx_base s' = rx_base s) (λ _, True) s.
Proof.
  intros Hi Hl (K1 & K2 & K3 & K4) (F1 & F2 & F3) HB. unfold rx_loop. apply wp_bind. unfold dma_alloc. apply wp_zoom.
  eapply wp_mono; [apply (dma_malloc_ok (nm_alloc s) _ RX_BUFFER_SIZE HB); unfold RX_BUFFER_SIZE; lia| |done].
  intros p a' [HB' Hk]. cbv beta. apply wp_bind. eapply wp_ok; [reflexivity|]. apply wp_bind. eapply wp_ok; [reflexivity|]. cbn [nm_alloc set_rx_buffers set_alloc].
  destruct (rx_descs s !! Z.to_nat i) as [d|] eqn:Ed; [|apply lookup_ge_None in Ed; lia].
  eapply wp_ok.
  { unfold wr_rx. erewrite bind_of_ok; [|reflexivity]. cbn [rx_descs set_rx_buffers set_alloc]. rewrite Ed. erewrite bind_of_ok; [|reflexivity]. reflexivity. }
  exists p. split; [done|]. split; [|split; [|done]].
  - unfold rx_filled. cbn [rx_buffers rx_descs nm_alloc set_rx_descs set_rx_ring set_rx_buffers set_alloc]. rewrite !length_insert. split; [done|]. split; [done|].
    intros j b Hj. apply lookup_app_Some in Hj as [Hj|[Hge Hj]].
    + destruct (F3 j b Hj) as (Hb & d0 & Hd0 & Ha & Hst). assert (Z.to_nat i ≠ j) by (apply lookup_lt_Some in Hj; lia). rewrite !list_lookup_insert_ne by done. split; [done|].
      exists d0. split; [done|]. split; [|done]. rewrite Ha. rewrite <- (Z.add_0_r b). symmetry. apply (Hk b RX_BUFFER_SIZE); [|unfold RX_BUFFER_SIZE; lia].
      apply in_rx_blocks. by apply list_elem_of_lookup_2 in Hj.
    + apply list_lookup_singleton_Some in Hj as [Hj ->]. assert (j = Z.to_nat i) as -> by lia. rewrite !list_lookup_insert_eq by lia. split; [done|]. eexists. by split.
  - unfold rx_blocks in *. rewrite reverse_snoc. exact HB'.
Qed.

Definition programmed (lo hi len h tl ctl : Z) (phys n c : Z) (R : Z → Z) : Z → Z :=
  upd ctl c (upd tl (if tl =? E1000_RDT then n - 1 else 0) (upd h 0 (upd len (n * 16) (upd hi (phys / 2 ^ 32) (upd lo (phys mod 2 ^ 32) R))))).

Lemma write_ok r v (s : S) : (r =? E1000_CTRL) = false → 0 ≤ v < 2 ^ 32 → e1000_write reset_polls r v s = Ok (tt, set_regs (upd r v (regs s)) s).
Proof. intros Hr Hv. unfold e1000_write. rewrite Hr. cbn [andb]. by rewrite u32_small. Qed.

Lemma phys_words phys : 0 ≤ phys < 2 ^ 64 → Z.land phys 0xFFFFFFFF = phys mod 2 ^ 32 ∧ Z.shiftr phys 32 = phys / 2 ^ 32 ∧ 0 ≤ phys mod 2 ^ 32 < 2 ^ 32 ∧ 0 ≤ phys / 2 ^ 32 < 2 ^ 32.
Proof.
  intros H. change 0xFFFFFFFF with (Z.ones 32). rewrite Z.land_ones, Z.shiftr_div_pow2 by lia. dlia.
Qed.

Lemma init_rx_ok R mac junk L s : kept R mac s → length (rx_buffers s) = 64%nat → length junk = 64%nat → dma_blocks (nm_alloc s) L →
  wp (e1000_init_rx reset_polls junk) (λ _ s', ∃ bs, length bs = 64%nat ∧ rx_filled bs s' ∧ dma_blocks (nm_alloc s') (rx_blocks bs L s') ∧
    kept (programmed E1000_RDBAL E1000_RDBAH E1000_RDLEN E1000_RDH E1000_RDT E1000_RCTL (dma_xlate (nm_alloc s') (rx_base s')) 64 0x4008002 R) mac s') (λ _, True) s.
Proof.
  intros K Hb Hj HB. unfold e1000_init_rx. apply wp_bind. unfold dma_alloc at 1. apply wp_zoom.
  eapply wp_mono; [apply (dma_malloc_ok (nm_alloc s) L (16 * RX_DESC_COUNT) HB); unfold RX_DESC_COUNT; lia| |done]. intros p a' [HB' _]. cbv beta.
  apply wp_bind. eapply wp_ok; [reflexivity|]. apply wp_bind.
  set (I := λ (i : Z) (s : S), ∃ bs, Z.of_nat (length bs) = i ∧ kept R mac s ∧ rx_filled bs s ∧ dma_blocks (nm_alloc s) (rx_blocks bs L s)).
  eapply wp_mono; [apply (for_range_inv I)| |done].
  - exists []. split; [done|]. split; [done|]. split; [|done]. split; [done|]. split; [done|]. intros j b Hjb. done.
  - intros i s1 Hi (bs & Hl & K1 & F1 & B1). eapply wp_mono; [by apply (rx_loop_ok R mac L i s1 bs)| |done].
    intros [] s2 (b & K2 & F2 & B2 & _). exists (bs ++ [b]). rewrite length_app. cbn [length]. split; [lia|done].
  - intros [] s2 (bs & Hl & (K1 & K2 & K3 & K4) & F2 & B2). change (0 + Z.of_nat (Z.to_nat RX_DESC_COUNT)) with 64 in Hl.
    assert (0 ≤ dma_xlate (nm_alloc s2) (rx_base s2) < 2 ^ 64) as Hw.
    { apply (dma_word _ _ _ 1024 B2). unfold rx_blocks. apply elem_of_app. right. left. }
    destruct (phys_words _ Hw) as (E1 & E2 & W1 & W2). set (ph := dma_xlate (nm_alloc s2) (rx_base s2)) in *.
    apply wp_bind. eapply wp_ok; [reflexivity|]. fold ph. rewrite E1, E2.
    do 5 (apply wp_bind; eapply wp_ok; [apply write_ok; [done|unfold RX_DESC_COUNT; lia]|]; cbv beta).
    eapply wp_ok; [apply write_ok; [done|vm_compute; split; congruence]|]. exists bs. split; [lia|]. split; [exact F2|]. split; [exact B2|].
    split; [|done]. cbn [regs set_regs nm_alloc rx_base]. rewrite K1. done.
Qed.

Definition rx_kept (s s' : S) : Prop := rx_base s' = rx_base s ∧ rx_descs s' = rx_descs s ∧ rx_buffers s' = rx_buffers s.

Lemma tx_loop_ok p l : ∀ a (s : S), for_range (length l) (Z.of_nat (length a)) (λ i, wr_tx i (set_tx_status STAT_DD)) (set_tx_ring p (a ++ l) s)
  = Ok (tt, set_tx_ring p (a ++ (set_tx_status STAT_DD <$> l)) s).
Proof.
  induction l as [|d l IH]; intros a s; cbn [for_range length fmap list_fmap]; [done|].
  rewrite (bind_of_ok _ _ _ tt (set_tx_ring p ((a ++ [set_tx_status STAT_DD d]) ++ l) s)).
  - replace (Z.of_nat (length a) + 1) with (Z.of_nat (length (a ++ [set_tx_status STAT_DD d]))) by (rewrite length_app; simpl; lia). rewrite IH, <- app_assoc. done.
  - unfold wr_tx. erewrite bind_of_ok; [|reflexivity]. cbn [tx_descs set_tx_ring]. rewrite Nat2Z.id, lookup_mid. erewrite bind_of_ok; [|reflexivity].
    rewrite insert_mid, <- app_assoc. done.
Qed.

Lemma init_tx_ok R mac junk L s : kept R mac s → length junk = 8%nat → dma_blocks (nm_alloc s) L →
  wp (e1000_init_tx reset_polls junk) (λ _ s', length (tx_descs s') = 8%nat ∧ (∀ i d, tx_descs s' !! i = Some d → free d = true) ∧ rx_kept s s' ∧
    dma_blocks (nm_alloc s') ((tx_base s', 128) :: L) ∧ (∀ q m k, (q, m) ∈ L → 0 ≤ k < m → dma_xlate (nm_alloc s') (q + k) = dma_xlate (nm_alloc s) (q + k)) ∧
    kept (programmed E1000_TDBAL E1000_TDBAH E1000_TDLEN E1000_TDH E1000_TDT E1000_TCTL (dma_xlate (nm_alloc s') (tx_base s')) 8 10 R) mac s') (λ _, True) s.
Proof.
  intros (K1 & K2 & K3 & K4) Hj HB. unfold e1000_init_tx. apply wp_bind. unfold dma_alloc. apply wp_zoom.
  eapply wp_mono; [apply (dma_malloc_ok (nm_alloc s) L (16 * TX_DESC_COUNT) HB); unfold TX_DESC_COUNT; lia| |done]. intros p a' [HB' Hk]. cbv beta.
  apply wp_bind. eapply wp_ok; [reflexivity|]. apply wp_bind. eapply wp_ok.
  { pose proof (tx_loop_ok p junk [] (set_alloc a' s)) as E. rewrite Hj in E. exact E. }
  cbv beta. set (s1 := set_tx_ring _ _ _). assert (0 ≤ dma_xlate (nm_alloc s1) (tx_base s1) < 2 ^ 64) as Hw by (apply (dma_word a' _ p 128 HB'); left).
  destruct (phys_words _ Hw) as (E1 & E2 & W1 & W2). set (ph := dma_xlate (nm_alloc s1) (tx_base s1)) in *.
  apply wp_bind. eapply wp_ok; [reflexivity|]. fold ph. rewrite E1, E2.
  do 5 (apply wp_bind; eapply wp_ok; [apply write_ok; [done|unfold TX_DESC_COUNT; lia]|]; cbv beta).
  eapply wp_ok; [apply write_ok; [done|vm_compute; split; congruence]|].
  split; [rewrite <- Hj; apply length_fmap|]. split; [|split; [done|split; [exact HB'|split; [exact Hk|]]]].
  - intros i d Hd. cbn [tx_descs set_regs s1 set_tx_ring app] in Hd. apply list_lookup_fmap_Some in Hd as (x & -> & _). done.
  - split; [|done]. cbn [regs set_regs]. change (regs s1) with (regs s). rewrite K1. done.
Qed.

Lemma empty_rx_ring s3 s4 bs L R mac : length bs = 64%nat → rx_filled bs s3 → dma_blocks (nm_alloc s3) (rx_blocks bs L s3) →
  kept (programmed E1000_RDBAL E1000_RDBAH E1000_RDLEN E1000_RDH E1000_RDT E1000_RCTL (dma_xlate (nm_alloc s3) (rx_base s3)) 64 0x4008002 R) mac s3 →
  rx_kept s3 s4 → dma_blocks (nm_alloc s4) ((tx_base s4, 128) :: rx_blocks bs L s3) →
  (∀ q m k, (q, m) ∈ rx_blocks bs L s3 → 0 ≤ k < m → dma_xlate (nm_alloc s4) (q + k) = dma_xlate (nm_alloc s3) (q + k)) →
  kept (programmed E1000_TDBAL E1000_TDBAH E1000_TDLEN E1000_TDH E1000_TDT E1000_TCTL (dma_xlate (nm_alloc s4) (tx_base s4)) 8 10 (regs s3)) mac s4 →
  rx_inv s4 [] false.
Proof.
  intros Hbl (F1 & F2 & F3) B3 (K1 & K2 & K3 & K4) (Xb & Xd & Xu) B4 Hk (R4 & _ & T4 & _).
  assert ((rx_base s3, 1024) ∈ rx_blocks bs L s3) as Hring by (unfold rx_blocks; apply elem_of_app; right; left).
  assert (∀ j, (j < 64)%nat → ∃ b d, bs !! j = Some b ∧ rx_buffers s4 !! j = Some b ∧ rx_descs s4 !! j = Some d ∧ rx_addr d = dma_xlate (nm_alloc s4) b ∧ stored d = false ∧
    (b, RX_BUFFER_SIZE) ∈ rx_blocks bs L s3) as Hslot.
  { intros j Hj. destruct (lookup_lt_is_Some_2 bs j) as [b Eb]; [lia|]. destruct (F3 j b Eb) as (Hb & d & Hd & Ha & Hst). exists b, d. rewrite Xu, Xd. split; [done|]. split; [done|]. split; [done|].
    assert ((b, RX_BUFFER_SIZE) ∈ rx_blocks bs L s3) as Hin by (apply in_rx_blocks; by apply list_elem_of_lookup_2 in Eb). split; [|by split].
    rewrite Ha, <- (Z.add_0_r b). symmetry. apply (Hk b RX_BUFFER_SIZE); [done|unfold RX_BUFFER_SIZE; lia]. }
  assert (∀ j b, bs !! j = Some b → ((tx_base s4, 128) :: rx_blocks bs L s3) !! (64 - j)%nat = Some (b, RX_BUFFER_SIZE)) as Hpos.
  { intros j b Hj. assert (j < 64)%nat by (apply lookup_lt_Some in Hj; lia). replace (64 - j)%nat with (Datatypes.S (63 - j)) by lia. change (rx_blocks bs L s3 !! (63 - j)%nat = Some (b, RX_BUFFER_SIZE)). unfold rx_blocks.
    rewrite lookup_app_l by (rewrite length_fmap, length_reverse; lia). rewrite list_lookup_fmap, reverse_lookup by lia. replace (length bs - Datatypes.S (63 - j))%nat with j by lia. by rewrite Hj. }
  split; rewrite ?T4; try done.
  - split.
    + by rewrite Xd.
    + by rewrite Xu.
    + intros i d b k Hd Hb Hk'. destruct (Hslot i) as (b' & d' & E1 & E2 & E3 & E4 & _ & Hin); [apply lookup_lt_Some in Hd; rewrite Xd in Hd; lia|]. simplify_eq.
      rewrite E4. apply (dma_contiguous _ _ _ RX_BUFFER_SIZE _ B4); [by right|done].
    + intros i j d d' Hij Hd Hd'. destruct (Hslot i) as (b1 & d1 & E1 & _ & E3 & E4 & _); [apply lookup_lt_Some in Hd; rewrite Xd in Hd; lia|].
      destruct (Hslot j) as (b2 & d2 & G1 & _ & G3 & G4 & _); [apply lookup_lt_Some in Hd'; rewrite Xd in Hd'; lia|]. simplify_eq. rewrite E4, G4.
      apply (dma_disjoint _ _ (64 - i)%nat (64 - j)%nat _ _ _ _ B4); [|by apply Hpos|by apply Hpos]. apply lookup_lt_Some in E1, G1. lia.
  - simpl. lia.
  - rewrite R4. by rewrite K1.
  - rewrite R4. by rewrite K1.
  - rewrite R4. by rewrite K1.
  - rewrite R4. by rewrite K1.
  - assert (0 ≤ dma_xlate (nm_alloc s3) (rx_base s3) < 2 ^ 64) as Hw by (by apply (dma_word _ _ _ 1024 B3)).
    assert (dma_xlate (nm_alloc s4) (rx_base s3) = dma_xlate (nm_alloc s3) (rx_base s3)) as E.
    { rewrite <- (Z.add_0_r (rx_base s3)). apply (Hk _ 1024); [done|lia]. }
    rewrite Xb, E. unfold base_of. rewrite R4, K1. generalize dependent (dma_xlate (nm_alloc s3) (rx_base s3)). intros x Hw _ _. cbn. dlia.
  - intros k d Hk' Hd. destruct (Hslot _ (slot_lt 0 k)) as (b' & d' & _ & _ & E3 & _ & Hst & _). congruence.
Qed.

Lemma empty_tx_ring s R : length (tx_descs s) = 8%nat → (∀ i d, tx_descs s !! i = Some d → free d = true) → tx_tail s = 0 →
  0 ≤ dma_xlate (nm_alloc s) (tx_base s) < 2 ^ 64 →
  regs s = programmed E1000_TDBAL E1000_TDBAH E1000_TDLEN E1000_TDH E1000_TDT E1000_TCTL (dma_xlate (nm_alloc s) (tx_base s)) 8 10 R → tx_inv s [].
Proof.
  intros HL Hf Ht Hw HR. constructor.
  - exact HL.
  - simpl. lia.
  - rewrite HR. cbn. lia.
  - by rewrite HR, Ht.
  - by rewrite HR, Ht.
  - by rewrite HR.
  - by rewrite HR.
  - unfold base_of. rewrite HR. revert Hw. generalize (dma_xlate (nm_alloc s) (tx_base s)). intros x Hw. cbn. dlia.
  - intros k p f Hk. by rewrite lookup_nil in Hk.
  - intros k d _ Hd. by eapply Hf.
Qed.

(** The state [e1000_init] leaves: both rings empty and known to the card. *)
Lemma init_ok junk_rx junk_tx L (s : S) : (reset_polls < 1000)%nat → resetting s = O → rx_tail s = 0 → tx_tail s = 0 → length (rx_buffers s) = 64%nat →
  length junk_rx = 64%nat → length junk_tx = 8%nat → dma_blocks (nm_alloc s) L →
  wp (e1000_init reset_polls junk_rx junk_tx) (λ _ s', rx_inv s' [] false ∧ tx_inv s' [] ∧ g_mac s' = mac_of (regs s E1000_RAL) (regs s E1000_RAH)) (λ _, True) s.
Proof.
  intros Hp H0 Ht1 Ht2 Hb Hj1 Hj2 HB. unfold e1000_init. apply wp_bind. eapply wp_ok; [unfold e1000_read; rewrite Z.eqb_refl, H0; reflexivity|].
  apply wp_bind. set (R1 := λ r, if (r =? E1000_RAL) || (r =? E1000_RAH) then regs s r else 0). eapply wp_ok.
  { unfold e1000_write. rewrite Z.eqb_refl, Z.lor_spec. change (Z.testbit E1000_CTRL_RST 26) with true. rewrite orb_true_r. cbn [andb]. fold R1. reflexivity. }
  apply wp_bind. eapply wp_ok; [rewrite wait_reset_ok; [cbn [resetting set_resetting]; rewrite decide_True by exact Hp; reflexivity|done|unfold RST_TIMEOUT; lia]|].
  destruct (RST_TIMEOUT - _)%nat as [|n] eqn:En; [cbn in En; unfold RST_TIMEOUT in En; lia|].
  set (s1 := set_resetting 0 _). apply wp_bind. eapply wp_ok; [reflexivity|]. apply wp_bind. eapply wp_ok.
  { unfold e1000_write. rewrite Z.eqb_refl, Z.lor_spec. change (Z.testbit (regs s1 E1000_CTRL) 26) with false. change (Z.testbit E1000_CTRL_SLU 26) with false. cbn [orb andb]. reflexivity. }
  set (s2 := set_regs _ s1). apply wp_bind.
  set (I := λ (i : Z) (x : S), regs x E1000_RAL = regs s E1000_RAL ∧ regs x E1000_RAH = regs s E1000_RAH ∧ rx_tail x = 0 ∧ tx_tail x = 0 ∧ length (rx_buffers x) = 64%nat ∧ nm_alloc x = nm_alloc s).
  eapply wp_mono; [apply (for_range_inv I (λ _, True))| |done].
  - repeat split; [exact Ht1|exact Ht2|exact Hb].
  - intros i x Hi (I1 & I2 & I3 & I4 & I5 & I6). assert (E1000_MTA + i * 4 ≠ E1000_CTRL ∧ E1000_MTA + i * 4 ≠ E1000_RAL ∧ E1000_MTA + i * 4 ≠ E1000_RAH) as (N1 & N2 & N3).
    { unfold E1000_MTA, E1000_CTRL, E1000_RAL, E1000_RAH. lia. }
    eapply wp_ok; [apply write_ok; [by apply Z.eqb_neq|lia]|]. repeat split; try done; cbn [regs set_regs]; unfold upd; by rewrite (proj2 (Z.eqb_neq _ _)) by congruence.
  - intros [] x (I1 & I2 & I3 & I4 & I5 & I6). apply wp_bind. eapply wp_ok; [reflexivity|]. cbv beta. rewrite I1, I2. set (mac := mac_of _ _).
    apply wp_bind. eapply wp_mono; [apply (init_rx_ok (regs x) mac junk_rx L (set_mac mac x)); [done|exact I5|exact Hj1|by rewrite <- I6 in HB]| |done].
    intros [] s3 (bs & Hbl & F3 & B3 & K3). cbv beta. eapply wp_mono; [apply (init_tx_ok _ mac junk_tx _ s3 K3 Hj2 B3)| |done].
    intros [] s4 (D4 & Fr4 & (Xb & Xd & Xu) & B4 & Hk & (K4 & M4 & T4 & U4)). cbv beta.
    split; [|split; [|done]].
    + apply (empty_rx_ring s3 s4 bs L (regs x) mac); [exact Hbl|exact F3|exact B3|exact K3|by split|exact B4|exact Hk|]. rewrite (proj1 K3). by split.
    + assert (0 ≤ dma_xlate (nm_alloc s4) (tx_base s4) < 2 ^ 64) as Hw by (apply (dma_word _ _ _ 128 B4); apply elem_of_cons; by left).
      by eapply (empty_tx_ring s4).
Qed.

(** A card that does not come back from the reset. *)
Lemma init_timeout junk_rx junk_tx (s : S) : (1000 ≤ reset_polls)%nat → resetting s = O → rx_descs s = [] →
  ∃ s', e1000_init reset_polls junk_rx junk_tx s = Ok (tt, s') ∧ ∀ fuel receive, e1000_poll reset_polls fuel receive s' = Fault.
Proof.
  intros Hp H0 Hd. unfold e1000_init. erewrite bind_of_ok; [|unfold e1000_read; rewrite Z.eqb_refl, H0; reflexivity].
  erewrite bind_of_ok.
  2: { unfold e1000_write. rewrite Z.eqb_refl, Z.lor_spec. change (Z.testbit E1000_CTRL_RST 26) with true. rewrite orb_true_r. reflexivity. }
  erewrite bind_of_ok; [|rewrite wait_reset_ok; [cbn [resetting set_resetting]; rewrite decide_False by (unfold RST_TIMEOUT; lia); reflexivity|done|unfold RST_TIMEOUT; lia]].
  eexists. split; [reflexivity|]. intros fuel receive. destruct fuel; cbn [e1000_poll]; unfold poll_take, mbind, M_bind, get; cbn [rx_descs set_resetting set_regs]; by rewrite Hd.
Qed.


End init.

(** An allocator that hands out consecutive addresses, mapped one to one. *)
Module Demo.
#[export] Instance bump : Dma Z := { dma_malloc n a := if a + n <=? 2 ^ 40 then Ok (a, a + n) else Panic "out of memory"; dma_xlate _ va := va }.

Definition apart (L : list (Z * Z)) (a : Z) : Prop :=
  0 ≤ a ≤ 2 ^ 40 ∧ (∀ p n, (p, n) ∈ L → 0 ≤ p ∧ 0 < n ∧ p + n ≤ a) ∧
  ∀ i j p n q m, (i < j)%nat → L !! i = Some (p, n) → L !! j = Some (q, m) → q + m ≤ p.

#[export] Program Instance bump_laws : DmaLaws Z := { dma_blocks a L := apart L a }.
Next Obligation.
  intros a L n (Ha & Hin & Hd) Hn. unfold wp. cbn [dma_malloc bump]. destruct (Z.leb_spec (a + n) (2 ^ 40)) as [Hle|]; [|done]. split; [|done]. split; [lia|]. split.
  - intros p m [E|H]%elem_of_cons; [injection E as -> ->; lia|]. apply Hin in H. lia.
  - intros i j p m q k Hij Hi Hj. destruct j as [|j]; [lia|]. change (L !! j = Some (q, k)) in Hj. destruct i as [|i].
    + injection Hi as <- <-. apply list_elem_of_lookup_2, Hin in Hj. lia.
    + apply (Hd i j p m q k); [lia|done|done].
Qed.
Next Obligation. done. Qed.
Next Obligation. intros a L p n (Ha & Hin & _) H%Hin. cbn [dma_xlate bump]. lia. Qed.
Next Obligation.
  intros a L i j p n q m (_ & _ & Hd) Hij Hi Hj. cbn [dma_xlate bump]. destruct (decide (i < j)%nat); [right; eauto|left]. apply (Hd j i q m p n); [lia|done|done].
Qed.

Definition off : card Z := mkCard 4096 (λ r, if r =? E1000_RAL then 0x12005452 else if r =? E1000_RAH then 0x5634 else 0) 0 0 [] 0 [] (repeat 0 64) 0 0 [] (λ _, 0).
Definition junk_rx : list rx_desc := repeat (mkRx 7 7 7 7 7 7) 64.
Definition junk_tx : list tx_desc := repeat (mkTx 7 7 7 7 7 7 7) 8.

Lemma off_blocks : dma_blocks (nm_alloc off) [].
Proof. split; [cbn; lia|]. split; [|done]. intros p n H. by apply not_elem_of_nil in H. Qed.
End Demo.
Import Demo.


End E1000.
